(* ===== verification/_CoqProject ===== *)
-Q . S2P
Prelude.v
CMonad.v
MyBit.v
ByteOrder.v
MyisamPack.v
SqlBitmap.v
SqlTypeInt.v
SqlLimit.v
SqlList.v
SqlListIter.v
SqlIList.v
ILink.v
IList.v
SqlPlist.v
Privilege.v
LifoBuffer.v
HashFilo.v
MemRootArray.v
SelArg.v
BoundedQueue.v
Views.v
CMemory.v
SqlString.v
SqlStringOwn.v
CDouble.v
Histogram.v
WindowFunc.v
DateMode.v
MyTime.v
Temporal.v
TimeType.v
DatetimeType.v
TypeAttrs.v
SemiSync.v
Filesort.v
ThreadCache.v
MyCompare.v
Spatial.v
LexStream.v
LexState.v
AsyncState.v
Intervals.v
HandlerScan.v
Transaction.v
Names.v
ThdState.v
PredicantList.v
FieldRecord.v
LooseScan.v
Decimal.v
