(* ===== verification/Prelude.v ===== *)
(** * MariaDB server headers: verification development

    The repository bundles a MariaDB 10.8 server for a library application (a
    Symfony back end and an Angular front end).  Its C and C++ code is the
    header tree [src/mariadb-fp/include/mysql]; the bodies in [.cc] files are not
    in the repository.  This development models the headers that carry code of
    their own: containers, bit and byte utilities, privileges, the intervals of
    the range optimizer, the buffers of the join and sort code, the temporal
    types, the input and the state of the parser, the scans and transactions of
    storage engines, columns in a record, decimals, the search of [IN] and [CASE],
    and parts of the state of a connection.  All paths below are
    under [server/private/] unless they say otherwise.

    ** Conventions

    An integer of [w] bits is a [Z] in [in_u w] or [in_s w], and every conversion
    and every operation that can wrap is written with [wrap] or [swrap]; a shift
    by the width or more is undefined.  Undefined behaviour (a null or dangling
    pointer, a read past an array, a failed assertion of a build that has them)
    is [None], so a theorem that gives a result also excludes it.  Parameters
    named [dbug] say whether [DBUG_ASSERT] is active.  Memory is explicit: a
    finite map from addresses to objects, a pointer to a pointer is an inductive
    type of the cells that exist, and operations are computations in the monad
    of [CMonad] that thread the memory.  Recursion that is not structural takes
    a fuel; running out of it is [None], and the theorems give a bound (the
    length of the list, the number of key parts) that is enough.

    ** Files

    - [Prelude]: machine integers, bits, byte arrays, list lemmas.  [CMonad]: the
      state-and-error monad and its evaluation lemmas.
    - [MyBit] ([my_bit.h]): logarithm, population count, powers of two, masks,
      lowest set bit, bit reversal.
    - [ByteOrder] ([../byte_order_generic.h], [../byte_order_generic_x86_64.h],
      [../my_byteorder.h]): little-endian reads and stores, the portable and the
      x86-64 ones.  [MyisamPack] ([myisampack.h]): big-endian ones.
    - [SqlBitmap] ([sql_bitmap.h]): [Bitmap<width>] and its iterators, on top of
      [MyBit].  [SqlTypeInt] ([sql_type_int.h]): integers with NULL and of either
      sign.  [SqlLimit] ([sql_limit.h]): LIMIT and OFFSET counters.
    - [SqlList], [SqlListIter] ([sql_list.h]): [base_list], [List<T>] and their
      iterators, with [bubble_sort].  [SqlIList], [ILink] (same header):
      [SQL_I_List] and [base_ilist].  [IList] ([ilist.h]): the intrusive ring.
      [SqlPlist] ([sql_plist.h]): [I_P_List]; its template policies are classes.
    - [Privilege] ([privilege.h]): the privilege bits and their packing in the
      grant tables.
    - [LifoBuffer] ([sql_lifo_buffer.h]): the two buffers of the join cache,
      behind the interface [LifoOps] and [LifoLaws].
    - [HashFilo] ([hash_filo.h]): the LRU cache, over the interface [HashTable]
      and [HashLaws]; it uses the chain predicate of [IList].
    - [MemRootArray] ([mem_root_array.h]): the growing array of objects; elements
      are given by reference, also to objects of the array.
    - [SelArg] ([opt_range.h]): the intervals of the range optimizer, over
      [SelCode] and [SelLaws].
    - [BoundedQueue] ([bounded_queue.h]): the top-N queue, over [Queue] and
      [QueueLaws]; its [pop], which is only there for tests, is undefined.
    - [Views] ([span.h], [sql_array.h]): [span] and [Bounds_checked_array].
    - [CMemory]: flat memory of bytes with a heap, for code that works on [char*].
      [SqlString], [SqlStringOwn] ([sql_string.h]): [Binary_string], its buffer
      and who owns it, over [StringAlloc] and [StringAllocLaws]; [StringBuffer]
      and the queries of [String].
    - [CDouble]: the type [double].  [Histogram] ([sql_statistics.h]): the
      histograms and counters of the column statistics.  [WindowFunc]
      ([item_windowfunc.h]): window functions row by row.
    - [DateMode] ([sql_basic_types.h]): the conversion flags and rounding modes,
      and their mixture.  [MyTime] ([../mysql_time.h], [../my_time.h],
      [sql_time.h], [structs.h]): [MYSQL_TIME] and its inline functions.
      [Temporal], [TimeType], [DatetimeType] ([sql_type.h]): seconds with a
      fraction ([Sec6], [Sec9], [Sec6_add]), [Temporal] and its subclasses up to
      [Extract_source]; [Time]; [Date], [Datetime] and the timestamps.
      [TypeAttrs] (same header): collations, lengths, [Typelib], [Bit_addr], the
      search of [Type_aggregator].
    - [SemiSync] ([semisync_master.h]): the node allocator of semi-synchronous
      replication, over [Malloc] and [MallocLaws].  [Filesort]
      ([filesort_utils.h], [sql_sort.h]): the sort buffer, the merge chunks and the
      lengths in packed records, on top of [ByteOrder].  [ThreadCache]
      ([thread_cache.h]): the thread cache as a step relation on interleaved
      critical sections.
    - [MyCompare] ([../my_compare.h], [field.h]): key lengths, bits beside the NULL
      bits, integers of some bytes.  [Spatial] ([spatial.h], [gstream.h]): the
      bounding rectangles and the scanner of well-known text.
    - [LexStream] ([sql_lex.h], [Lex_input_stream]): the raw and the pre-processed
      text of a query and its tokens.  [LexState] (same header and [structs.h]):
      the flags of a statement, the stack of SELECTs ([Select]), the order of
      declarations ([Spblock]), the tables of a query ([Query_tables]) and the
      list of all SELECTs ([Select_node]).
    - [AsyncState] ([sql_class.h], [thd_async_state]): pending operations and
      suspension, as a step relation.  [Intervals] ([structs.h]): intervals of
      automatic values, their lists, and DDL options.
    - [HandlerScan] ([handler.h], [class handler]): scans, over the interface
      [Engine] of the virtual functions.  [Transaction] ([handler.h],
      [sql_class.h]): [xid_t] ([Xid]), the engines of a transaction and its flags
      ([Trans]).
    - [Names] ([mdl.h], [sql_class.h]): lock keys ([Mdl]), over [Strmake] and
      [StrmakeLaws]; qualified names ([Qname]); the removal of doubled quotes.
      [ThdState] ([sql_class.h]): the time of statements ([Clock]), kills
      ([Killed]), generated identifiers ([Insert_id]), the waiters of a commit
      ([Commit_list]).
    - [PredicantList] ([item_cmpfunc.h]): the search of [IN] and [CASE], over
      [CmpItems] and [CmpLaws].  [FieldRecord] ([field.h]): columns in a record, on
      top of [MyCompare]; [Bit] is [Field_bit].  [LooseScan] ([opt_subselect.h]):
      the choice of an index, with the costs of [CDouble].  [Decimal]
      ([my_decimal.h]): [my_decimal] over the decimal library.

    In each file the definitions carry the names of the code; a section
    "Specification" then gives the abstract state (a list of elements, a set of
    bits, a set of keys, the sequence of objects) and a representation predicate
    or a meaning function, and the theorems say that each operation implements
    the corresponding operation of the abstract state, on every branch.

    ** What the theorems show

    - Lists: every operation of every list class preserves its representation
      invariant (last pointer, element count, back pointers) and computes the
      list operation it is named after; iteration visits the elements in order
      and ends; [bubble_sort] ends and sorts.
    - Integers and bytes: the bit tricks equal their definitions, reads undo
      stores for every width and sign, and the machine-specific macros equal the
      portable ones.
    - [Bitmap]: the operations are those of sets below the width, and iteration
      yields the members in increasing order.
    - [SEL_ARG]: the interval operations are operations on sets of keys, and the
      keys written for an index range follow one walk through the graph, with
      the flags of descending key parts inverted where needed.
    - [hash_filo], [Bounded_queue], [Mem_root_array], [Lifo_buffer]: refinement
      of a list ordered by last use, of the best N of the keys pushed, of a
      sequence whose objects are constructed and destroyed once, of a stack.
    - [Binary_string]: appends give the concatenation or report an error and
      change nothing, never write outside the buffer, and leave all other memory
      alone; what was reserved can be written unchecked; moves and swaps keep one
      owner per block.
    - Window functions and histograms: [NTILE] splits a partition in tiles whose
      sizes differ by at most one, the percentile functions select or interpolate
      the rows their definitions name, and the search for a bucket ends and finds
      the bucket of its value; doubles are compared as the code compares them,
      rounding included.
    - The cache drops an entry that is not used, after as many additions as it has
      places.
    - The thread cache: in every interleaving connections are served once and in
      order and no wake-up is lost; a [flush] ends when flushes do not overlap,
      and may not when they do.
    - The node allocator is a queue of nodes in a chain of blocks; the sort buffer
      never lets records meet their pointers; the lengths written into packed
      records are those read back.
    - Temporal values: every constructor and every rounding leaves the invariant
      its class states (NULL, or a value of its type in range) and fails no
      assertion ([Time::round] to the nearest apart, which only calls a function
      whose body is elsewhere); rounding, sums, comparison and the parts of [EXTRACT] are those
      of the value in signed microseconds; the conversion of a DATETIME to TIME
      follows its mode.
    - The lexer's two buffers advance together and hold the text of the token; the
      stack of SELECTs, the tables of a query and the list of all SELECTs are the
      lists their operations name, and a declaration out of order is refused.
    - Rectangles: the relations are those of sets of points, and adding points
      gives the least rectangle.
    - Pending operations: in every interleaving no assertion fails, a wait ends
      and only after the last operation, and a suspended connection is resumed
      once.
    - Scans: an engine sees begin and end calls only in order, whatever public
      functions are called and whatever fails; a row read by its record leaves no
      scan open.
    - Keys, transaction identifiers and names give back what they were made of,
      and are equal when that is; a transaction has written when one of its
      engines has.
    - A search in a list of values compares with the predicant it was given,
      although pairs share objects, and finds the first equal value.
    - The NULL bit of a column is its own; a column moved to another record is
      the column there; the extreme values of a column are among its values.
    - The LooseScan plan that is chosen is the first of the cheapest proposed.
    - Decimals own their digits after copies, exchanges and operations, and an
      overflow gives the largest number with its sign.
    - A connection: statement times increase while the clock does not go back, and
      follow it when it does; the strongest kill stays; a waiter is removed from
      the list and nothing else changes in memory.
    - Some theorems state what the code does where it does not do what it means
      to (a sentinel that is erased, a last pointer that is lost, a range that is
      not checked, an element that is destroyed before it is copied); their comments say so.

    ** Hypotheses

    Code that is not in the repository is a parameter: [HASH], [QUEUE],
    [alloc_root], [my_malloc], [Binary_string::realloc_raw] and [real_alloc], the comparison functions, [SEL_ARG::sel_cmp] and the tree
    functions of [SEL_ARG], the table of reversed bytes, [longlong2str]; for the
    temporal types the parsers, the calendar and the range checks ([TimeLib],
    [TemporalLib], [TimeMembers], [DateMembers]), and the powers of ten ([Log10]);
    [MBR::within]; [my_isspace]; the name resolution contexts of [LEX]
    ([ContextLaws]); the table of unsafe combinations [binlog_unsafe_map]; the
    virtual functions of an engine ([Engine], without laws); [strmake]
    ([StrmakeLaws]), [strnncoll] and [my_hash_sort]; the clock [my_hrtime]; the
    virtual functions of [cmp_item] ([CmpLaws]) and the comparison of fields;
    [get_bound_sj_equalities]; the operations of the decimal library.  What
    the theorems need of it is a class of laws or a named hypothesis, and each
    such class has an instance in the file that uses it.

    ** Not modelled

    Allocation, mutexes and instrumentation beyond the states above; sorting by
    [my_qsort2]; the templates that only add casts; the classes that are only
    declared, with bodies in [.cc] files (items, fields, log events, tables, and
    most of [handler], [THD] and [LEX]); the virtual functions of [handler], whose
    default bodies return constants; the errors that [DBUG_EXECUTE_IF] injects;
    the character set conversions of [String]; the temporal values as strings, decimals and native values, and the
    warnings they send to the connection; the type handlers of [sql_type.h],
    whose bodies are elsewhere.  The Symfony, Angular and PHP parts are outside
    the scope of the development. *)
From Stdlib Require Export ZArith Lia Bool.
From stdpp Require Export base numbers list list_numbers gmap fin_maps.

Declare Scope maria_scope.
Delimit Scope maria_scope with maria.
#[global] Open Scope Z_scope.

(** ** Machine integers *)

(** The value of a [w]-bit unsigned integer type after a conversion or an
    arithmetic operation: C reduces modulo [2^w]. *)
Definition wrap (w x : Z) : Z := x mod 2 ^ w.

(** Conversion to a [w]-bit two's complement signed type. *)
Definition swrap (w x : Z) : Z :=
  let u := x mod 2 ^ w in if u <? 2 ^ (w - 1) then u else u - 2 ^ w.

(** The fixed-width types of [my_global.h]. *)
Definition to_uint8 : Z → Z := wrap 8.
Definition to_uint16 : Z → Z := wrap 16.
Definition to_uint32 : Z → Z := wrap 32.
Definition to_ulonglong : Z → Z := wrap 64.
Definition to_int8 : Z → Z := swrap 8.
Definition to_int16 : Z → Z := swrap 16.
Definition to_int32 : Z → Z := swrap 32.
Definition to_longlong : Z → Z := swrap 64.

(** A C scalar used as a condition. *)
Definition truth (x : Z) : bool := negb (x =? 0).

(** Bitwise complement of a [w]-bit unsigned value. *)
Definition unot (w x : Z) : Z := wrap w (Z.lnot x).

(** Ranges of the fixed-width types. *)
Definition in_u (w x : Z) : Prop := 0 ≤ x < 2 ^ w.
Definition in_s (w x : Z) : Prop := - 2 ^ (w - 1) ≤ x < 2 ^ (w - 1).

#[export] Instance in_u_dec w x : Decision (in_u w x).
Proof. unfold in_u. apply _. Defined.
#[export] Instance in_s_dec w x : Decision (in_s w x).
Proof. unfold in_s. apply _. Defined.

Create HintDb maria.

Lemma wrap_in_u w x : 0 ≤ w → in_u w (wrap w x).
Proof. intros. apply Z.mod_pos_bound. lia. Qed.

Lemma wrap_id w x : in_u w x → wrap w x = x.
Proof. intros. by apply Z.mod_small. Qed.

Lemma wrap_wrap w x : wrap w (wrap w x) = wrap w x.
Proof. unfold wrap. apply Zmod_mod. Qed.

Lemma wrap_add_l w x y : wrap w (wrap w x + y) = wrap w (x + y).
Proof. unfold wrap. apply Zplus_mod_idemp_l. Qed.

Lemma wrap_testbit w x i : 0 ≤ w →
  Z.testbit (wrap w x) i = (i <? w) && Z.testbit x i.
Proof.
  intros Hw. unfold wrap. destruct (Z.ltb_spec i w).
  - by rewrite Z.mod_pow2_bits_low.
  - by rewrite Z.mod_pow2_bits_high.
Qed.

Lemma in_u_testbit w x i : in_u w x → 0 ≤ w ≤ i → Z.testbit x i = false.
Proof.
  intros Hx Hi. rewrite <- (wrap_id w x) by done.
  rewrite wrap_testbit by lia. destruct (Z.ltb_spec i w); [lia|done].
Qed.

Lemma swrap_in_s w x : 0 < w → in_s w (swrap w x).
Proof.
  intros Hw. unfold swrap, in_s.
  assert (2 ^ w = 2 * 2 ^ (w - 1)) as E
    by (rewrite <- Z.pow_succ_r by lia; f_equal; lia).
  pose proof (Z.mod_pos_bound x (2 ^ w)).
  destruct (Z.ltb_spec (x mod 2 ^ w) (2 ^ (w - 1))); lia.
Qed.

Lemma swrap_id w x : 0 < w → in_s w x → swrap w x = x.
Proof.
  unfold in_s, swrap. intros Hw Hx.
  assert (2 ^ w = 2 * 2 ^ (w - 1)) as E
    by (rewrite <- Z.pow_succ_r by lia; f_equal; lia).
  destruct (decide (0 ≤ x)).
  - rewrite Z.mod_small by lia. destruct (Z.ltb_spec x (2 ^ (w - 1))); lia.
  - rewrite <- (Z.mod_add x 1), Z.mod_small by lia.
    destruct (Z.ltb_spec (x + 1 * 2 ^ w) (2 ^ (w - 1))); lia.
Qed.

Lemma swrap_wrap w x : swrap w (wrap w x) = swrap w x.
Proof. unfold swrap, wrap. by rewrite Zmod_mod. Qed.

Lemma wrap_swrap w x : 0 ≤ w → wrap w (swrap w x) = wrap w x.
Proof.
  intros Hw. unfold swrap, wrap. destruct (_ <? _).
  - apply Zmod_mod.
  - rewrite <- (Z.mod_add _ 1) by lia.
    replace (x mod 2 ^ w - 2 ^ w + 1 * 2 ^ w) with (x mod 2 ^ w) by lia.
    apply Zmod_mod.
Qed.

(** A narrower conversion absorbs a wider one. *)
Lemma wrap_narrow v w x : 0 ≤ v ≤ w → wrap v (wrap w x) = wrap v x.
Proof.
  intros H. unfold wrap. apply Z.mod_mod_divide.
  exists (2 ^ (w - v)). rewrite <- Z.pow_add_r by lia. f_equal. lia.
Qed.

(** ** Bit-level equality *)

Create Rewrite HintDb bits.
#[export] Hint Rewrite Z.land_spec Z.lor_spec Z.lxor_spec Z.ldiff_spec
  Z.testbit_0_l andb_false_r andb_true_r andb_false_l andb_true_l
  orb_false_r orb_false_l orb_true_r orb_true_l : bits.
#[export] Hint Rewrite Z.shiftr_spec Z.shiftl_spec Z.lnot_spec wrap_testbit
  using lia : bits.

(** Two integers with the same bits: leaves the goal on bit [i]. *)
Ltac bits i Hi :=
  apply Z.bits_inj'; intros i Hi; autorewrite with bits.

(** Splits on every boolean comparison of integers in the goal. *)
Ltac zcases :=
  repeat match goal with
  | |- context [?a <? ?b] => destruct (Z.ltb_spec a b)
  | |- context [?a <=? ?b] => destruct (Z.leb_spec a b)
  | |- context [?a =? ?b] => destruct (Z.eqb_spec a b)
  end.

Lemma truth_true x : truth x = true ↔ x ≠ 0.
Proof. unfold truth. rewrite negb_true_iff, Z.eqb_neq. done. Qed.

Lemma truth_false x : truth x = false ↔ x = 0.
Proof. unfold truth. rewrite negb_false_iff, Z.eqb_eq. done. Qed.

(** A test of one bit. *)
Lemma truth_land_pow2 x k : 0 ≤ k → truth (Z.land x (2 ^ k)) = Z.testbit x k.
Proof.
  intros Hk. destruct (Z.testbit x k) eqn:E.
  - apply truth_true. intros H. assert (Z.testbit (Z.land x (2 ^ k)) k = false) as H' by (rewrite H; apply Z.testbit_0_l).
    by rewrite Z.land_spec, E, Z.pow2_bits_true in H' by lia.
  - apply truth_false, Z.bits_inj'. intros i Hi. rewrite Z.land_spec, Z.testbit_0_l, Z.pow2_bits_eqb by lia.
    destruct (Z.eqb_spec k i) as [->|]; [by rewrite E|apply andb_false_r].
Qed.

(** A non-negative integer is below [2^w] as soon as its high bits are 0. *)
Lemma in_u_of_bits w x : 0 ≤ w → 0 ≤ x →
  (∀ i, w ≤ i → Z.testbit x i = false) → in_u w x.
Proof.
  intros Hw Hx Hb. rewrite <- (Z.mod_small x (2 ^ w)); [by apply wrap_in_u|].
  enough (wrap w x = x) as <- by (by apply wrap_in_u).
  apply Z.bits_inj'. intros i Hi. rewrite wrap_testbit by lia.
  destruct (Z.ltb_spec i w); [done|]. by rewrite Hb.
Qed.

(** The bitwise union stays in the type. *)
Lemma lor_in_u w x y : 0 ≤ w → in_u w x → in_u w y → in_u w (Z.lor x y).
Proof.
  intros Hw Hx Hy. apply in_u_of_bits; [done|apply Z.lor_nonneg; split; [apply Hx|apply Hy]|].
  intros i Hi. rewrite Z.lor_spec, (in_u_testbit w x), (in_u_testbit w y) by (done || lia). done.
Qed.

(** Concatenation of a [k]-bit low part and a high part. *)
Lemma testbit_cat k a b i : 0 ≤ k → in_u k a → 0 ≤ i →
  Z.testbit (a + 2 ^ k * b) i = if i <? k then Z.testbit a i else Z.testbit b (i - k).
Proof.
  intros Hk Ha Hi. destruct (Z.ltb_spec i k) as [H|H].
  - rewrite <- (wrap_id k a) at 2 by done.
    rewrite <- (Z.mod_pow2_bits_low (a + 2 ^ k * b) k i) by lia.
    f_equal. rewrite Z.mul_comm. unfold wrap. by rewrite Z.mod_add by lia.
  - rewrite <- (Z.sub_add k i) at 1. rewrite <- Z.div_pow2_bits by lia.
    f_equal. rewrite (Z.mul_comm (2 ^ k)), Z.div_add, Z.div_small by (done || lia).
    lia.
Qed.

(** Masking two concatenations masks the parts. *)
Lemma land_cat k a b m n : 0 ≤ k → in_u k a → in_u k m →
  Z.land (a + 2 ^ k * b) (m + 2 ^ k * n) = Z.land a m + 2 ^ k * Z.land b n.
Proof.
  intros Hk Ha Hm.
  assert (in_u k (Z.land a m)).
  { apply in_u_of_bits; [lia| |].
    - apply Z.land_nonneg. left. apply Ha.
    - intros i Hi. rewrite Z.land_spec, (in_u_testbit k a) by (done || lia). done. }
  apply Z.bits_inj'. intros i Hi.
  rewrite Z.land_spec, !testbit_cat by done.
  destruct (i <? k); by rewrite Z.land_spec.
Qed.

(** Same, for a shifted concatenation, when the mask drops the bits that the
    shift brings in from the high part. *)
Lemma land_shiftr_cat k s a b m n : 0 ≤ s ≤ k → in_u k a → in_u (k - s) m →
  Z.land (Z.shiftr (a + 2 ^ k * b) s) (m + 2 ^ k * n)
  = Z.land (Z.shiftr a s) m + 2 ^ k * Z.land (Z.shiftr b s) n.
Proof.
  intros Hs Ha Hm.
  assert (in_u k m) as Hm'.
  { unfold in_u in *. assert (2 ^ (k - s) ≤ 2 ^ k) by (apply Z.pow_le_mono_r; lia). lia. }
  assert (in_u k (Z.land (Z.shiftr a s) m)).
  { apply in_u_of_bits; [lia| |].
    - apply Z.land_nonneg. right. apply Hm.
    - intros i Hi. rewrite Z.land_spec, (in_u_testbit k m) by (done || lia).
      apply andb_false_r. }
  apply Z.bits_inj'. intros i Hi.
  rewrite Z.land_spec, Z.shiftr_spec, !testbit_cat by (done || lia).
  destruct (Z.ltb_spec i k).
  - rewrite Z.land_spec, Z.shiftr_spec by lia.
    destruct (Z.ltb_spec (i + s) k); [done|].
    by rewrite (in_u_testbit (k - s) m i), !andb_false_r by (done || lia).
  - rewrite Z.land_spec, Z.shiftr_spec by lia.
    destruct (Z.ltb_spec (i + s) k); [lia|]. do 2 f_equal. lia.
Qed.

(** Exhaustive check of a decidable predicate on the bytes. *)
Lemma forall_bytes (P : Z → bool) :
  forallb P (Z.of_nat <$> seq 0 256) = true → ∀ b, in_u 8 b → P b = true.
Proof.
  intros H b Hb. rewrite forallb_forall in H. apply H.
  apply list_elem_of_In, list_elem_of_fmap. unfold in_u in Hb.
  exists (Z.to_nat b). split; [lia|]. apply elem_of_seq. lia.
Qed.

#[export] Hint Resolve wrap_in_u swrap_in_s : maria.

(** ** Byte buffers

    Memory reached through a [uchar*] is a list of bytes, a pointer into it an
    index; an access outside the list is undefined and gives [None]. *)

Notation "A .[ i ]" := (lookup i%nat A)
  (at level 1, left associativity, format "A .[ i ]") : maria_scope.
#[global] Open Scope maria_scope.

Definition bytes (A : list Z) : Prop := Forall (in_u 8) A.

(** A literal list of bytes. *)
Ltac solve_bytes :=
  repeat (apply List.Forall_cons; [assumption|]); apply List.Forall_nil.

(** The assignment [T[i]= v]. *)
Definition poke (T : list Z) (i : nat) (v : Z) : option (list Z) :=
  if decide (i < length T)%nat then Some (<[i := v]> T) else None.

(** A sequence of assignments [T[off + i]= v], in program order. *)
Fixpoint pokes (T : list Z) (off : nat) (l : list (nat * Z)) : option (list Z) :=
  match l with
  | [] => Some T
  | (i, v) :: l => T ← poke T (off + i) v; pokes T off l
  end.

(** The byte value of a cast to [uchar] (or [char], same representation). *)
Definition uchar (x : Z) : Z := to_uint8 x.

(** Left shifts at 32 and 64 bits. *)
Definition shl32 (x k : Z) : Z := to_uint32 (Z.shiftl x k).
Definition shl64 (x k : Z) : Z := to_ulonglong (Z.shiftl x k).

Lemma poke_lookup T i v T' : poke T i v = Some T' →
  length T' = length T ∧ T' !! i = Some v ∧ ∀ j, j ≠ i → T' !! j = T !! j.
Proof.
  unfold poke. case_decide as Hi; [|done]. intros [= <-].
  rewrite length_insert. split; [done|]. split; [by apply list_lookup_insert_eq|].
  intros j Hj. by apply list_lookup_insert_ne.
Qed.

Lemma poke_defined T i v : (i < length T)%nat → poke T i v = Some (<[i := v]> T).
Proof. intros. unfold poke. by rewrite decide_True. Qed.

Lemma pokes_defined T off l :
  (∀ i v, (i, v) ∈ l → (off + i < length T)%nat) →
  ∃ T', pokes T off l = Some T' ∧ length T' = length T.
Proof.
  revert T. induction l as [|[i v] l IH]; intros T H; simpl; [by eauto|].
  rewrite poke_defined by (apply (H i v); left). simpl.
  destruct (IH (<[(off + i)%nat:=v]> T)) as (T' & E & HT').
  { intros j w Hw. rewrite length_insert. apply (H j w). by right. }
  exists T'. by rewrite HT', length_insert.
Qed.

(** Little-endian value of a byte list and its inverse: what a load or a store
    of an integer object does on a little-endian machine. *)
Fixpoint le_value (l : list Z) : Z :=
  match l with [] => 0 | b :: l => b + 2 ^ 8 * le_value l end.

Fixpoint le_bytes (n : nat) (v : Z) : list Z :=
  match n with O => [] | S n => v mod 2 ^ 8 :: le_bytes n (v / 2 ^ 8) end.

Definition load_le (n : nat) (A : list Z) (off : nat) : option Z :=
  if decide (off + n ≤ length A)%nat
  then Some (le_value (take n (drop off A))) else None.

Definition store_le (n : nat) (T : list Z) (off : nat) (v : Z) : option (list Z) :=
  if decide (off + n ≤ length T)%nat
  then Some (take off T ++ le_bytes n v ++ drop (off + n) T) else None.

Lemma le_value_range l : bytes l → in_u (8 * Z.of_nat (length l)) (le_value l).
Proof.
  induction 1 as [|b l Hb Hl IH]; [by vm_compute|]. cbn [le_value length].
  unfold in_u in *. replace (8 * Z.of_nat (S (length l))) with (8 + 8 * Z.of_nat (length l)) by lia.
  rewrite Z.pow_add_r by lia. nia.
Qed.

Lemma length_le_bytes n v : length (le_bytes n v) = n.
Proof. revert v. induction n as [|n IH]; intros v; simpl; [done|]. by rewrite IH. Qed.

Lemma le_bytes_bytes n v : bytes (le_bytes n v).
Proof.
  revert v. induction n as [|n IH]; intros v; simpl; [constructor|].
  constructor; [|apply IH]. apply Z.mod_pos_bound. lia.
Qed.

Lemma le_value_le_bytes n v : le_value (le_bytes n v) = wrap (8 * Z.of_nat n) v.
Proof.
  revert v. induction n as [|n IH]; intros v; cbn [le_bytes le_value].
  { unfold wrap. by rewrite Z.mod_1_r. }
  rewrite IH. unfold wrap.
  replace (8 * Z.of_nat (S n)) with (8 + 8 * Z.of_nat n) by lia.
  rewrite Z.pow_add_r by lia. symmetry. apply Z.rem_mul_r; lia.
Qed.

Lemma le_bytes_le_value l : bytes l → le_bytes (length l) (le_value l) = l.
Proof.
  induction 1 as [|b l Hb Hl IH]; [done|]. cbn [le_bytes le_value length].
  unfold in_u in Hb. f_equal.
  - rewrite Z.mul_comm, Z.mod_add, Z.mod_small by lia. done.
  - rewrite Z.mul_comm, Z.div_add, Z.div_small by lia. by rewrite Z.add_0_l.
Qed.

(** [lor] with a shifted value that does not overlap is addition. *)
Lemma lor_shl_add k a b : 0 ≤ k → in_u k a → Z.lor a (Z.shiftl b k) = a + 2 ^ k * b.
Proof.
  intros Hk Ha. bits i Hi. rewrite testbit_cat by done. zcases.
  - by rewrite (Z.testbit_neg_r b) by lia; rewrite orb_false_r.
  - by rewrite (in_u_testbit k a) by (done || lia).
Qed.

Lemma shl32_id x k : 0 ≤ k → 0 ≤ x → x * 2 ^ k < 2 ^ 32 → shl32 x k = Z.shiftl x k.
Proof.
  intros. unfold shl32, to_uint32. apply wrap_id. rewrite Z.shiftl_mul_pow2 by lia.
  unfold in_u. nia.
Qed.

Lemma shl64_id x k : 0 ≤ k → 0 ≤ x → x * 2 ^ k < 2 ^ 64 → shl64 x k = Z.shiftl x k.
Proof.
  intros. unfold shl64, to_ulonglong. apply wrap_id. rewrite Z.shiftl_mul_pow2 by lia.
  unfold in_u. nia.
Qed.

(** Assignments to distinct cells commute. *)
Lemma pokes_perm T off l l' :
  l ≡ₚ l' → NoDup l.*1 → pokes T off l = pokes T off l'.
Proof.
  intros Hp. revert T. induction Hp as [|[i v] l l' Hp IH|[i v] [j w] l|l1 l2 l3 H1 IH1 H2 IH2];
    intros T Hnd; csimpl in *; [done| | |].
  - apply NoDup_cons in Hnd as [_ Hnd]. destruct (poke T (off + i) v); simpl; auto.
  - apply NoDup_cons in Hnd as [Hni _].
    assert (i ≠ j) as Hij by (intros ->; apply Hni; left).
    unfold poke. repeat (case_decide; simpl); rewrite ?length_insert in *; try lia; try done.
    by rewrite list_insert_insert_ne by lia.
  - rewrite IH1 by done. apply IH2. by rewrite <- H1.
Qed.

(** Assignments of consecutive bytes replace a slice. *)
Lemma pokes_seq vs T off k : (off + k + length vs ≤ length T)%nat →
  pokes T off (zip (seq k (length vs)) vs)
  = Some (take (off + k) T ++ vs ++ drop (off + k + length vs) T).
Proof.
  revert T k. induction vs as [|v vs IH]; intros T k Hl; simpl in *.
  { by rewrite Nat.add_0_r, take_drop. }
  rewrite poke_defined by lia. simpl. rewrite IH by (rewrite length_insert; lia).
  f_equal. rewrite insert_take_drop by lia.
  rewrite take_app, length_take, Nat.min_l by lia.
  replace (off + S k - (off + k))%nat with 1%nat by lia.
  rewrite (take_ge (take _ _)) by (rewrite length_take; lia). simpl.
  rewrite take_0, <- app_assoc. simpl. do 3 f_equal.
  rewrite drop_app, length_take, Nat.min_l by lia.
  rewrite (drop_ge (take _ _)) by (rewrite length_take; lia). simpl.
  replace (off + S k + length vs - (off + k))%nat with (S (length vs)) by lia. simpl.
  rewrite drop_drop. f_equal. lia.
Qed.

Lemma pokes_seq_overrun vs T off k : vs ≠ [] →
  (length T < off + k + length vs)%nat →
  pokes T off (zip (seq k (length vs)) vs) = None.
Proof.
  revert T k. induction vs as [|v vs IH]; intros T k Hne Hl; [done|]. simpl in *.
  unfold poke. case_decide; simpl; [|done].
  destruct vs as [|v' vs]; [simpl in Hl; lia|].
  apply IH; [done|]. rewrite length_insert. lia.
Qed.

(** Storing the little-endian bytes one by one is an object store. *)
Lemma pokes_le_bytes n T off v : (0 < n)%nat →
  pokes T off (zip (seq 0 n) (le_bytes n v)) = store_le n T off v.
Proof.
  intros Hn. pose proof (length_le_bytes n v) as Hl.
  rewrite <- Hl at 1. unfold store_le. case_decide.
  - rewrite pokes_seq by lia. by rewrite Hl, Nat.add_0_r.
  - apply pokes_seq_overrun; [|lia]. intros E. rewrite E in Hl. simpl in Hl. lia.
Qed.

Lemma le_bytes_wrap n v w : 8 * Z.of_nat n ≤ w → le_bytes n (wrap w v) = le_bytes n v.
Proof.
  revert v w. induction n as [|n IH]; intros v w Hw; [done|]. cbn [le_bytes].
  assert (2 ^ w = 2 ^ 8 * 2 ^ (w - 8)) as E
    by (rewrite <- Z.pow_add_r by lia; f_equal; lia).
  f_equal.
  - unfold wrap. rewrite E, Z.rem_mul_r by lia.
    rewrite (Z.mul_comm (2 ^ 8)), Z.mod_add by lia. apply Zmod_mod.
  - rewrite <- (IH (v / 2 ^ 8) (w - 8)) by lia. f_equal. unfold wrap.
    rewrite E, Z.rem_mul_r by lia.
    rewrite Z.mul_comm, Z.div_add, Z.div_small by (try apply Z.mod_pos_bound; lia). lia.
Qed.

Lemma store_le_wrap n T off v w : 8 * Z.of_nat n ≤ w →
  store_le n T off (wrap w v) = store_le n T off v.
Proof. intros. unfold store_le. by rewrite le_bytes_wrap. Qed.

(** Reading back a stored object, and what the store leaves alone. *)
Lemma load_store_le n T off v T' : store_le n T off v = Some T' →
  load_le n T' off = Some (wrap (8 * Z.of_nat n) v) ∧
  length T' = length T ∧ take off T' = take off T ∧ drop (off + n) T' = drop (off + n) T.
Proof.
  unfold store_le, load_le. case_decide as H; [|done]. intros [= <-].
  assert (length (take off T) = off) as Hl by (rewrite length_take; lia).
  rewrite !length_app, length_le_bytes, length_drop, Hl.
  rewrite decide_True by lia. split_and!; [|lia| |].
  - rewrite drop_app_length' by done. rewrite take_app_length' by (by rewrite length_le_bytes).
    by rewrite le_value_le_bytes.
  - by rewrite take_app_length'.
  - rewrite app_assoc, drop_app_length'; [done|].
    by rewrite length_app, length_le_bytes, Hl.
Qed.

Lemma store_le_bytes n T off v T' : bytes T → store_le n T off v = Some T' → bytes T'.
Proof.
  unfold store_le, bytes. intros HT. case_decide; [|done]. intros [= <-].
  rewrite !Forall_app. split_and!; [by apply Forall_take|apply le_bytes_bytes|by apply Forall_drop].
Qed.

Lemma le_bytes_app a b v :
  le_bytes (a + b) v = le_bytes a v ++ le_bytes b (v / 2 ^ (8 * Z.of_nat a)).
Proof.
  revert v. induction a as [|a IH]; intros v; simpl.
  { by rewrite Z.div_1_r. }
  f_equal. rewrite IH. do 2 f_equal. rewrite Z.div_div by lia.
  f_equal. rewrite <- Z.pow_add_r by lia. f_equal. lia.
Qed.

(** Two adjacent stores are one wider store. *)
Lemma store_le_app a b T off v :
  (T' ← store_le a T off v; store_le b T' (off + a) (Z.shiftr v (8 * Z.of_nat a)))
  = store_le (a + b) T off v.
Proof.
  rewrite Z.shiftr_div_pow2 by lia. unfold store_le at 2.
  destruct (decide (off + a ≤ length T)%nat) as [Ha|Ha]; simpl;
    [|unfold store_le; by rewrite decide_False by lia].
  assert (length (take off T) = off) as Hl by (rewrite length_take; lia).
  unfold store_le. rewrite !length_app, length_le_bytes, length_drop, Hl.
  repeat case_decide; try lia; [|done]. f_equal.
  rewrite !(app_assoc (take off T) (le_bytes a v) (drop (off + a) T)).
  set (hd := take off T ++ le_bytes a v).
  assert (length hd = off + a)%nat as Hh
    by (unfold hd; by rewrite length_app, length_le_bytes, Hl).
  rewrite take_app_length', drop_app_ge, drop_drop, Hh by lia.
  unfold hd. rewrite le_bytes_app, <- !app_assoc. do 4 f_equal. lia.
Qed.

Lemma poke_store_le T i v : poke T i (uchar v) = store_le 1 T i v.
Proof.
  rewrite <- (pokes_le_bytes 1) by lia. simpl. rewrite Nat.add_0_r.
  change (v mod 2 ^ 8) with (uchar v). by destruct (poke T i (uchar v)).
Qed.

(** ** Filtering lists *)

Lemma filter_ext_in {A} (P Q : A → Prop) `{∀ x, Decision (P x), ∀ x, Decision (Q x)} (l : list A) :
  (∀ x, x ∈ l → P x ↔ Q x) → filter P l = filter Q l.
Proof.
  induction l as [|x l IH]; intros Hl; [done|]. rewrite !filter_cons.
  rewrite IH by (intros; apply Hl; by right). destruct (Hl x) as [H1 H2]; [by left|].
  repeat case_decide; tauto.
Qed.

Lemma filter_none {A} (P : A → Prop) `{∀ x, Decision (P x)} (l : list A) :
  (∀ x, x ∈ l → ¬ P x) → filter P l = [].
Proof.
  induction l as [|x l IH]; intros Hl; [done|]. rewrite filter_cons_False by (apply Hl; by left).
  apply IH. intros; apply Hl; by right.
Qed.

Lemma filter_fmap {A B} (f : A → B) (P : B → Prop) `{∀ x, Decision (P x)} (l : list A) :
  filter P (f <$> l) = f <$> filter (P ∘ f) l.
Proof.
  induction l as [|x l IH]; [done|]. csimpl. rewrite !filter_cons, IH. simpl.
  by case_decide.
Qed.
