(* ===== verification/CMonad.v ===== *)
(** The state-and-error monad in which the stateful code is written: a
    computation over a memory of type [S] returns a value and the new memory,
    or [None] where C has no defined behaviour (a read through a null or
    dangling pointer) or the code aborts on an assertion.  Out-of-memory
    results and error codes are ordinary return values. *)
From S2P Require Import Prelude.

Definition M (S A : Type) : Type := S → option (A * S).

Definition ret {S A} (x : A) : M S A := λ s, Some (x, s).
Definition bind {S A B} (m : M S A) (f : A → M S B) : M S B :=
  λ s, match m s with Some (x, s') => f x s' | None => None end.
Definition ub {S A} : M S A := λ _, None.

(** Reads of the memory: total, and partial (a dereference). *)
Definition gets {S A} (f : S → A) : M S A := λ s, Some (f s, s).
Definition gets_opt {S A} (f : S → option A) : M S A :=
  λ s, match f s with Some x => Some (x, s) | None => None end.
Definition modify {S} (f : S → S) : M S unit := λ s, Some (tt, f s).

(** [DBUG_ASSERT] in a build where it is active. *)
Definition assert_that {S} (b : bool) : M S unit := if b then ret tt else ub.

Notation "x <- m ;; f" := (bind m (λ x, f))
  (at level 100, m at next level, right associativity) : maria_scope.
Notation "m ;; f" := (bind m (λ _, f))
  (at level 100, right associativity) : maria_scope.
#[global] Open Scope maria_scope.

(** [while (cond) body] with a bound on the number of iterations; running out
    of iterations is [None], so a theorem that gives a result also proves that
    the loop ends. *)
Fixpoint while_loop {S} (fuel : nat) (cond : M S bool) (body : M S unit) : M S unit :=
  match fuel with
  | O => ub
  | Datatypes.S n => b <- cond ;; if b : bool then body ;; while_loop n cond body else ret tt
  end.

(** Evaluation of one step of a computation. *)
Lemma bind_ok {S A B} (m : M S A) (f : A → M S B) s x s' :
  m s = Some (x, s') → bind m f s = f x s'.
Proof. intros H. unfold bind. by rewrite H. Qed.

Lemma bind_ub {S A B} (m : M S A) (f : A → M S B) s :
  m s = None → bind m f s = None.
Proof. intros H. unfold bind. by rewrite H. Qed.

Lemma bind_assoc {S A B C} (m : M S A) (f : A → M S B) (g : B → M S C) s :
  bind (bind m f) g s = bind m (λ x, bind (f x) g) s.
Proof. unfold bind. by destruct (m s) as [[x s']|]. Qed.

Lemma gets_opt_ok {S A} (f : S → option A) s x : f s = Some x → gets_opt f s = Some (x, s).
Proof. intros H. unfold gets_opt. by rewrite H. Qed.

(** One iteration of a loop whose condition holds. *)
Lemma while_step {S} n (cond : M S bool) (body : M S unit) s s1 s2 :
  cond s = Some (true, s1) → body s1 = Some (tt, s2) →
  while_loop (Datatypes.S n) cond body s = while_loop n cond body s2.
Proof.
  intros Hc Hb. cbn [while_loop]. rewrite (bind_ok _ _ _ _ _ Hc).
  by rewrite (bind_ok _ _ _ _ _ Hb).
Qed.

Lemma while_stop {S} n (cond : M S bool) (body : M S unit) s s1 :
  cond s = Some (false, s1) → while_loop (Datatypes.S n) cond body s = Some (tt, s1).
Proof. intros Hc. cbn [while_loop]. by rewrite (bind_ok _ _ _ _ _ Hc). Qed.
