(* ===== verification/MyBit.v ===== *)
(** The bit functions of [my_bit.h]: binary logarithm by halving, population
    count by parallel summation, rounding to powers of two by smearing, bit
    reversal by table, low-bit masks and the search for the first set bit.

    Every value is a [Z] kept in the range of its C type; each shift, addition
    and cast carries the wrap-around of that type.  A shift by a negative
    amount or by the width of the type is undefined in C and is [None] here. *)
From S2P Require Import Prelude.

(** ** [my_bit_log2_xxx] *)

Definition my_bit_log2_hex_digit (value : Z) : Z :=
  if truth (Z.land value 0x0C)
  then (if truth (Z.land value 0x08) then 3 else 2)
  else (if truth (Z.land value 0x02) then 1 else 0).

Definition my_bit_log2_uint8 (value : Z) : Z :=
  if truth (Z.land value 0xF0)
  then my_bit_log2_hex_digit (to_uint8 (Z.shiftr value 4)) + 4
  else my_bit_log2_hex_digit value.

Definition my_bit_log2_uint16 (value : Z) : Z :=
  if truth (Z.land value 0xFF00)
  then my_bit_log2_uint8 (to_uint8 (Z.shiftr value 8)) + 8
  else my_bit_log2_uint8 (to_uint8 value).

Definition my_bit_log2_uint32 (value : Z) : Z :=
  if truth (Z.land value 0xFFFF0000)
  then my_bit_log2_uint16 (to_uint16 (Z.shiftr value 16)) + 16
  else my_bit_log2_uint16 (to_uint16 value).

Definition my_bit_log2_uint64 (value : Z) : Z :=
  if truth (Z.land value 0xFFFFFFFF00000000)
  then my_bit_log2_uint32 (to_uint32 (Z.shiftr value 32)) + 32
  else my_bit_log2_uint32 (to_uint32 value).

Definition my_bit_log2_size_t (value : Z) : Z :=
  my_bit_log2_uint64 (to_ulonglong value).

(** ** Counting bits *)

Definition my_count_bits_uint32 (v : Z) : Z :=
  let v := to_uint32 (v - Z.land (Z.shiftr v 1) 0x55555555) in
  let v := to_uint32 (Z.land v 0x33333333
                      + Z.land (Z.shiftr v 2) 0x33333333) in
  Z.shiftr
    (to_uint32 (Z.land (to_uint32 (v + Z.shiftr v 4)) 0xF0F0F0F * 0x1010101))
    24.

Definition my_count_bits (x : Z) : Z :=
  to_uint32 (my_count_bits_uint32 (to_uint32 x)
             + my_count_bits_uint32 (to_uint32 (Z.shiftr x 32))).

(** Reference: the number of set bits among the [n] lowest ones. *)
Fixpoint popcount (n : nat) (v : Z) : Z :=
  match n with
  | O => 0
  | S n => Z.b2z (Z.testbit v 0) + popcount n (Z.shiftr v 1)
  end.

(** ** Powers of two *)

(** The statement [v|= v >> k]. *)
Definition smear (k v : Z) : Z := Z.lor v (Z.shiftr v k).

Definition my_round_up_to_next_power (v : Z) : Z :=
  let v := to_uint32 (v - 1) in
  let v := smear 1 v in
  let v := smear 2 v in
  let v := smear 4 v in
  let v := smear 8 v in
  let v := smear 16 v in
  to_uint32 (v + 1).

Definition my_clear_highest_bit (v : Z) : Z :=
  let w := Z.shiftr v 1 in
  let w := smear 1 w in
  let w := smear 2 w in
  let w := smear 4 w in
  let w := smear 8 w in
  let w := smear 16 w in
  Z.land v w.

(** ** Bit reversal

    [_my_bits_reverse_table] is declared [extern] in the header: its contents
    are a parameter. *)
Section Reverse.
Variable my_bits_reverse_table : Z → Z.

Definition my_reverse_bits (key : Z) : Z :=
  Z.lor (Z.lor (Z.lor
    (Z.shiftl (my_bits_reverse_table (Z.land key 255)) 24)
    (Z.shiftl (my_bits_reverse_table (Z.land (Z.shiftr key 8) 255)) 16))
    (Z.shiftl (my_bits_reverse_table (Z.land (Z.shiftr key 16) 255)) 8))
    (my_bits_reverse_table (Z.shiftr key 24)).

(** What the table is documented to hold: entry [b] is [b] with its eight bits
    in the opposite order. *)
Definition reverse_table_ok : Prop :=
  ∀ b, 0 ≤ b < 256 → in_u 8 (my_bits_reverse_table b) ∧
    ∀ i, 0 ≤ i < 8 →
      Z.testbit (my_bits_reverse_table b) i = Z.testbit b (7 - i).
End Reverse.

(** ** Masks *)

(** [1ULL << k]: undefined outside [0..63]. *)
Definition shl1_64 (k : Z) : option Z :=
  if (0 <=? k) && (k <? 64) then Some (Z.shiftl 1 k) else None.

Definition my_set_bits (n : Z) : option Z :=
  p ← shl1_64 (n - 1);
  Some (Z.lor (to_ulonglong (Z.shiftl (to_ulonglong (p - 1)) 1)) 1).

Definition last_byte_mask (bits : Z) : Z :=
  let used := Z.land (to_uint32 (bits - 1)) 7 in
  to_uint8 (to_uint32 (to_uint32 (Z.shiftl 2 used) - 1)).

(** ** [my_find_first_bit], the generic branch *)

Definition last_bit : list Z :=
  [32; 0; 1; 0; 2; 0; 1; 0; 3; 0; 1; 0; 2; 0; 1; 0].

(** The loop [while ((bit = last_bit[(n >> shift) & 0xF]) == 32) shift+= 4;].
    A shift count of 64 or more is undefined. *)
Fixpoint find_first_bit_loop (fuel : nat) (n shift : Z) : option Z :=
  match fuel with
  | O => None
  | S fuel =>
      if 64 <=? shift then None else
      bit ← last_bit !! Z.to_nat (Z.land (Z.shiftr n shift) 0xF);
      if bit =? 32 then find_first_bit_loop fuel n (to_uint32 (shift + 4))
      else Some (to_uint32 (shift + bit))
  end.

(** Sixteen nibbles cover an [ulonglong]. *)
Definition my_find_first_bit (n : Z) : option Z :=
  if negb (truth n) then Some 64 else find_first_bit_loop 16 n 0.

(** ** Binary logarithm *)

(** One halving step: the high part decides, and the recursive result on the
    chosen half is the logarithm of the whole. *)
Lemma log2_split k v : 0 ≤ k → 0 ≤ v →
  Z.log2 v = if v <? 2 ^ k then Z.log2 (v mod 2 ^ k) else Z.log2 (v / 2 ^ k) + k.
Proof.
  intros Hk Hv. destruct (Z.ltb_spec v (2 ^ k)).
  - by rewrite Z.mod_small.
  - assert (0 < 2 ^ k) by lia.
    assert (k ≤ Z.log2 v) by (apply Z.log2_le_pow2; lia).
    rewrite <- Z.shiftr_div_pow2, Z.log2_shiftr by lia. lia.
Qed.

(** Testing the high half with a mask is comparing with [2^k]. *)
Lemma high_mask_test k v : 0 ≤ k → in_u (2 * k) v →
  truth (Z.land v (Z.shiftl (Z.ones k) k)) = negb (v <? 2 ^ k).
Proof.
  intros Hk Hv.
  assert (Z.land v (Z.shiftl (Z.ones k) k) = Z.shiftl (v / 2 ^ k) k) as ->.
  { rewrite <- Z.shiftr_div_pow2 by lia. bits i Hi.
    destruct (decide (i < k)).
    - by rewrite !(Z.testbit_neg_r _ (i - k)), andb_false_r by lia.
    - rewrite Z.shiftr_spec, Z.testbit_ones by lia.
      replace (i - k + k) with i by lia. zcases; try lia; simpl.
      + by rewrite andb_true_r.
      + rewrite andb_false_r. symmetry.
        apply (in_u_testbit (2 * k)); [done|lia]. }
  rewrite Z.shiftl_mul_pow2 by lia. unfold truth. f_equal.
  destruct Hv as [Hv _].
  destruct (Z.ltb_spec v (2 ^ k)) as [Hl|Hl].
  - rewrite Z.div_small by lia. done.
  - apply Z.eqb_neq. pose proof (Z.div_str_pos v (2 ^ k)). nia.
Qed.

Lemma shiftr_in_u k w v : 0 ≤ k → 0 ≤ w → in_u (w + k) v →
  in_u w (Z.shiftr v k) ∧ Z.shiftr v k = v / 2 ^ k.
Proof.
  intros Hk Hw [H1 H2]. rewrite Z.shiftr_div_pow2 by lia. split; [|done].
  split; [apply Z.div_pos; lia|].
  apply Z.div_lt_upper_bound; [lia|]. rewrite <- Z.pow_add_r by lia.
  by rewrite Z.add_comm.
Qed.

(** The step shared by the 16-, 32- and 64-bit versions. *)
Lemma log2_halving (f : Z → Z) k m v :
  0 ≤ k → m = Z.shiftl (Z.ones k) k → in_u (2 * k) v →
  (∀ u, in_u k u → f u = Z.log2 u) →
  (if truth (Z.land v m) then f (wrap k (Z.shiftr v k)) + k
   else f (wrap k v)) = Z.log2 v.
Proof.
  intros Hk -> Hv Hf. rewrite high_mask_test by done.
  destruct (shiftr_in_u k k v) as [Hs Es]; [lia|lia|by replace (k + k) with (2 * k) by lia|].
  rewrite (log2_split k v) by (unfold in_u in Hv; lia).
  destruct (v <? 2 ^ k); simpl.
  - rewrite Hf; [done|]. by apply wrap_in_u.
  - rewrite wrap_id by done. by rewrite Hf, Es.
Qed.

Lemma log2_uint8_correct v : in_u 8 v → my_bit_log2_uint8 v = Z.log2 v.
Proof.
  intros Hv.
  apply Z.eqb_eq. revert v Hv.
  apply (forall_bytes (λ v, my_bit_log2_uint8 v =? Z.log2 v)). by vm_compute.
Qed.

(** [my_bit_log2_uint64] returns the position of the highest set bit of every
    64-bit value, and 0 for the value 0. *)
Lemma log2_uint64_correct v : in_u 64 v → my_bit_log2_uint64 v = Z.log2 v.
Proof.
  intros Hv. apply (log2_halving my_bit_log2_uint32 32); [lia|done|done|].
  intros u Hu. apply (log2_halving my_bit_log2_uint16 16); [lia|done|done|].
  intros t Ht. apply (log2_halving my_bit_log2_uint8 8); [lia|done|done|].
  apply log2_uint8_correct.
Qed.

(** ** Population count *)

Lemma popcount_bound n v : 0 ≤ popcount n v ≤ Z.of_nat n.
Proof.
  revert v. induction n as [|n IH]; intros v; cbn [popcount]; [lia|].
  specialize (IH (Z.shiftr v 1)). destruct (Z.testbit v 0); simpl Z.b2z; lia.
Qed.

Lemma popcount_ext n v w :
  (∀ i, 0 ≤ i < Z.of_nat n → Z.testbit v i = Z.testbit w i) →
  popcount n v = popcount n w.
Proof.
  revert v w. induction n as [|n IH]; intros v w H; [done|]. cbn [popcount].
  rewrite (H 0) by lia. f_equal. apply IH. intros i Hi.
  rewrite !Z.shiftr_spec by lia. apply H. lia.
Qed.

Lemma popcount_add n m v :
  popcount (n + m) v = popcount n v + popcount m (Z.shiftr v (Z.of_nat n)).
Proof.
  revert v. induction n as [|n IH]; intros v; [done|].
  change (S n + m)%nat with (S (n + m)). cbn [popcount].
  rewrite IH, Z.shiftr_shiftr by lia.
  replace (1 + Z.of_nat n) with (Z.of_nat (S n)) by lia. lia.
Qed.

Lemma popcount_cat8 m a b : in_u 8 a →
  popcount (8 + m) (a + 2 ^ 8 * b) = popcount 8 a + popcount m b.
Proof.
  intros Ha. rewrite popcount_add. f_equal.
  - apply popcount_ext. intros i Hi. rewrite testbit_cat by (done || lia).
    zcases; [done|lia].
  - f_equal. unfold in_u in Ha. rewrite Z.shiftr_div_pow2 by lia.
    change (Z.of_nat 8) with 8. Z.div_mod_to_equations. lia.
Qed.

(** What the three steps of the parallel sum do to each byte. *)
Definition count1 (b : Z) : Z := b - Z.land (Z.shiftr b 1) 0x55.
Definition count2 (b : Z) : Z := Z.land b 0x33 + Z.land (Z.shiftr b 2) 0x33.

Definition count_byte_ok (b : Z) : bool :=
  let c1 := count1 b in
  let c2 := count2 c1 in
  let c3 := (c2 + c2 / 16) mod 16 in
  (0 <=? c1) && (c1 <? 256) && (0 <=? c2) && (c2 / 16 <=? 4) && (c2 mod 16 <=? 4)
  && (c3 =? popcount 8 b) && (0 <=? c3) && (c3 <=? 8).

Lemma count_byte b : in_u 8 b →
  let c1 := count1 b in
  let c2 := count2 c1 in
  let c3 := (c2 + c2 / 16) mod 16 in
  in_u 8 c1 ∧ 0 ≤ c2 ∧ c2 / 16 ≤ 4 ∧ c2 mod 16 ≤ 4 ∧ c3 = popcount 8 b ∧ 0 ≤ c3 ≤ 8.
Proof.
  intros Hb. assert (count_byte_ok b = true) as H.
  { revert b Hb. apply forall_bytes. by vm_compute. }
  unfold count_byte_ok in H. rewrite !andb_true_iff in H.
  unfold in_u. cbv zeta in *. lia.
Qed.

(** Four bytes as one 32-bit value. *)
Definition cat4 (a b c d : Z) : Z := a + 2 ^ 8 * (b + 2 ^ 8 * (c + 2 ^ 8 * d)).

Lemma cat4_split v : in_u 32 v → ∃ a b c d,
  v = cat4 a b c d ∧ in_u 8 a ∧ in_u 8 b ∧ in_u 8 c ∧ in_u 8 d.
Proof.
  unfold in_u, cat4. intros Hv.
  exists (v mod 2 ^ 8), (v / 2 ^ 8 mod 2 ^ 8), (v / 2 ^ 16 mod 2 ^ 8), (v / 2 ^ 24).
  Z.div_mod_to_equations. lia.
Qed.

Lemma land_cat4 a b c d m : in_u 8 a → in_u 8 b → in_u 8 c → in_u 8 m →
  Z.land (cat4 a b c d) (cat4 m m m m)
  = cat4 (Z.land a m) (Z.land b m) (Z.land c m) (Z.land d m).
Proof. intros. unfold cat4. by rewrite !land_cat by (done || lia). Qed.

Lemma land_shiftr_cat4 s a b c d m : 0 ≤ s ≤ 8 →
  in_u 8 a → in_u 8 b → in_u 8 c → in_u (8 - s) m →
  Z.land (Z.shiftr (cat4 a b c d) s) (cat4 m m m m)
  = cat4 (Z.land (Z.shiftr a s) m) (Z.land (Z.shiftr b s) m)
         (Z.land (Z.shiftr c s) m) (Z.land (Z.shiftr d s) m).
Proof. intros. unfold cat4. by rewrite !land_shiftr_cat by done. Qed.

Lemma cat4_add a b c d a' b' c' d' :
  cat4 a b c d + cat4 a' b' c' d' = cat4 (a + a') (b + b') (c + c') (d + d').
Proof. unfold cat4. lia. Qed.

Lemma cat4_sub a b c d a' b' c' d' :
  cat4 a b c d - cat4 a' b' c' d' = cat4 (a - a') (b - b') (c - c') (d - d').
Proof. unfold cat4. lia. Qed.

Lemma to_uint32_cat4 a b c d : in_u 8 a → in_u 8 b → in_u 8 c → in_u 8 d →
  to_uint32 (cat4 a b c d) = cat4 a b c d.
Proof. intros. apply wrap_id. unfold in_u, cat4 in *. lia. Qed.

(** The last step: nibble sums, then the byte sum by multiplication. *)
Lemma count_finish a b c d :
  let n x := (x + x / 16) mod 16 in
  (∀ x, x = a ∨ x = b ∨ x = c ∨ x = d →
    0 ≤ x ∧ x / 16 ≤ 4 ∧ x mod 16 ≤ 4 ∧ 0 ≤ n x ≤ 8) →
  let v := cat4 a b c d in
  Z.shiftr
    (to_uint32 (Z.land (to_uint32 (v + Z.shiftr v 4)) 0xF0F0F0F * 0x1010101)) 24
  = n a + n b + n c + n d.
Proof.
  intros n Hn v.
  destruct (Hn a) as (? & ? & ? & ?); [by auto|].
  destruct (Hn b) as (? & ? & ? & ?); [by auto|].
  destruct (Hn c) as (? & ? & ? & ?); [by auto|].
  destruct (Hn d) as (? & ? & ? & ?); [by auto|].
  assert (to_uint32 (v + Z.shiftr v 4)
          = cat4 (a + a / 16 + 16 * (b mod 16)) (b + b / 16 + 16 * (c mod 16))
                 (c + c / 16 + 16 * (d mod 16)) (d + d / 16)) as ->.
  { unfold v, cat4. rewrite Z.shiftr_div_pow2 by lia.
    unfold to_uint32. rewrite wrap_id by (unfold in_u; Z.div_mod_to_equations; lia).
    Z.div_mod_to_equations. lia. }
  change 0xF0F0F0F with (cat4 15 15 15 15).
  rewrite land_cat4 by (unfold in_u; Z.div_mod_to_equations; lia).
  change 15 with (Z.ones 4). rewrite !Z.land_ones by lia. change (2 ^ 4) with 16.
  replace ((a + a / 16 + 16 * (b mod 16)) mod 16) with (n a)
    by (unfold n; Z.div_mod_to_equations; lia).
  replace ((b + b / 16 + 16 * (c mod 16)) mod 16) with (n b)
    by (unfold n; Z.div_mod_to_equations; lia).
  replace ((c + c / 16 + 16 * (d mod 16)) mod 16) with (n c)
    by (unfold n; Z.div_mod_to_equations; lia).
  fold (n d). generalize dependent (n a). generalize dependent (n b).
  generalize dependent (n c). generalize dependent (n d). intros nd ? nc ? nb ? na ?.
  unfold cat4, to_uint32, wrap. rewrite Z.shiftr_div_pow2 by lia.
  rewrite <- (Z.mod_unique _ _ (nb + nc + nd + 2 ^ 8 * (nc + nd) + 2 ^ 16 * nd)
    (na + 2 ^ 8 * (na + nb) + 2 ^ 16 * (na + nb + nc) + 2 ^ 24 * (na + nb + nc + nd)))
    by lia.
  symmetry. eapply Z.div_unique; [|apply Z.add_comm]. lia.
Qed.

Lemma count_bits_uint32_correct v : in_u 32 v →
  my_count_bits_uint32 v = popcount 32 v.
Proof.
  intros Hv. destruct (cat4_split v Hv) as (a & b & c & d & -> & Ha & Hb & Hc & Hd).
  destruct (count_byte a Ha) as (? & ? & ? & ? & Ea & ?).
  destruct (count_byte b Hb) as (? & ? & ? & ? & Eb & ?).
  destruct (count_byte c Hc) as (? & ? & ? & ? & Ec & ?).
  destruct (count_byte d Hd) as (? & ? & ? & ? & Ed & ?).
  unfold my_count_bits_uint32.
  change 0x55555555 with (cat4 0x55 0x55 0x55 0x55).
  rewrite land_shiftr_cat4 by (done || lia).
  rewrite cat4_sub. fold (count1 a) (count1 b) (count1 c) (count1 d).
  rewrite to_uint32_cat4 by done. cbv zeta.
  change 0x33333333 with (cat4 0x33 0x33 0x33 0x33).
  rewrite land_cat4, land_shiftr_cat4, cat4_add by (done || lia).
  fold (count2 (count1 a)) (count2 (count1 b)) (count2 (count1 c)) (count2 (count1 d)).
  rewrite to_uint32_cat4 by (unfold in_u; Z.div_mod_to_equations; lia).
  rewrite (count_finish (count2 (count1 a))) by (intros x [->|[->|[->| ->]]]; auto).
  rewrite Ea, Eb, Ec, Ed. unfold cat4.
  rewrite (popcount_cat8 24), (popcount_cat8 16), (popcount_cat8 8) by done. lia.
Qed.

(** [my_count_bits] is the number of set bits of its 64-bit argument. *)
Lemma count_bits_correct x : in_u 64 x → my_count_bits x = popcount 64 x.
Proof.
  intros Hx. destruct (shiftr_in_u 32 32 x) as [Hs _]; [lia|lia|done|].
  unfold my_count_bits. change 64%nat with (32 + 32)%nat.
  rewrite popcount_add. change (Z.of_nat 32) with 32.
  unfold to_uint32 at 3. rewrite (wrap_id 32 (Z.shiftr x 32)) by done.
  rewrite !count_bits_uint32_correct by (done || (apply wrap_in_u; lia)).
  replace (popcount 32 (to_uint32 x)) with (popcount 32 x).
  2: { apply popcount_ext. intros i Hi. unfold to_uint32.
       rewrite wrap_testbit by lia. zcases; [done|lia]. }
  apply wrap_id. pose proof (popcount_bound 32 x).
  pose proof (popcount_bound 32 (Z.shiftr x 32)). unfold in_u. lia.
Qed.

(** ** Smearing *)

(** [w] has bit [i] exactly when [v] has a bit among [i .. i+n-1]. *)
Definition spread (n v w : Z) : Prop :=
  ∀ i, 0 ≤ i → Z.testbit w i = true ↔ ∃ j, i ≤ j < i + n ∧ Z.testbit v j = true.

Lemma spread_1 v : spread 1 v v.
Proof.
  intros i Hi. split; [intros H; exists i; split; [lia|done]|].
  intros (j & Hj & H). by replace i with j by lia.
Qed.

Lemma spread_smear n m v w : m = 2 * n → 0 ≤ n → spread n v w → spread m v (smear n w).
Proof.
  intros -> Hn H i Hi. unfold smear. autorewrite with bits.
  rewrite orb_true_iff, (H i), (H (i + n)) by lia. split.
  - intros [(j & Hj & E)|(j & Hj & E)]; exists j; split; (lia || done).
  - intros (j & Hj & E). destruct (decide (j < i + n)); [left|right];
      exists j; split; (lia || done).
Qed.

Lemma spread_32_ones v w : in_u 32 v → 0 < v → 0 ≤ w → spread 32 v w →
  w = Z.ones (Z.log2 v + 1).
Proof.
  intros Hv Hv0 Hw H. pose proof (Z.log2_nonneg v).
  assert (Z.log2 v < 32) by (apply Z.log2_lt_pow2; unfold in_u in Hv; lia).
  apply Z.bits_inj'. intros i Hi.
  rewrite Z.testbit_ones_nonneg by lia. apply eq_true_iff_eq.
  rewrite (H i), Z.ltb_lt by done. split.
  - intros (j & Hj & E). destruct (decide (i < Z.log2 v + 1)); [done|].
    by rewrite Z.bits_above_log2 in E by lia.
  - intros Hi'. exists (Z.log2 v). split; [lia|]. by apply Z.bit_log2.
Qed.

(** The five smearing statements of both functions. *)
Definition smear_all (v : Z) : Z := smear 16 (smear 8 (smear 4 (smear 2 (smear 1 v)))).

Lemma smear_nonneg k v : 0 ≤ v → 0 ≤ smear k v.
Proof. intros. apply Z.lor_nonneg. split; [done|]. by apply Z.shiftr_nonneg. Qed.

Lemma smear_all_ones v : in_u 32 v →
  smear_all v = if v =? 0 then 0 else Z.ones (Z.log2 v + 1).
Proof.
  intros Hv. destruct (Z.eqb_spec v 0) as [->|]; [reflexivity|].
  unfold in_u in Hv. apply spread_32_ones; [done|lia| |].
  - unfold smear_all. repeat apply smear_nonneg. lia.
  - unfold smear_all. do 5 (eapply spread_smear; [reflexivity|lia|]). apply spread_1.
Qed.

(** [my_round_up_to_next_power] is the least power of two that is not below
    its argument; it returns 0 for 0 and whenever that power needs 33 bits. *)
Lemma round_up_correct v : in_u 32 v →
  my_round_up_to_next_power v =
    if (1 <=? v) && (v <=? 2 ^ 31) then 2 ^ Z.log2_up v else 0.
Proof.
  intros Hv. unfold in_u in Hv.
  change (my_round_up_to_next_power v)
    with (to_uint32 (smear_all (to_uint32 (v - 1)) + 1)).
  rewrite smear_all_ones by (apply wrap_in_u; lia).
  destruct (decide (v = 0)) as [->|]; [reflexivity|].
  unfold to_uint32 at 2 3. rewrite !wrap_id by (unfold in_u; lia).
  destruct (Z.eqb_spec (v - 1) 0); [by replace v with 1 by lia|].
  rewrite Z.ones_equiv. replace (Z.pred (2 ^ (Z.log2 (v - 1) + 1)) + 1)
    with (2 ^ (Z.log2 (v - 1) + 1)) by lia.
  destruct (Z.leb_spec 1 v); [|lia]. destruct (Z.leb_spec v (2 ^ 31)); simpl.
  - rewrite Z.log2_up_eqn by lia. replace (Z.pred v) with (v - 1) by lia.
    assert (Z.log2 (v - 1) < 31) by (apply Z.log2_lt_pow2; lia).
    pose proof (Z.log2_nonneg (v - 1)).
    apply wrap_id. split; [lia|]. apply Z.pow_lt_mono_r; lia.
  - replace (Z.log2 (v - 1)) with 31; [reflexivity|].
    symmetry. apply Z.log2_unique; lia.
Qed.

(** [my_clear_highest_bit] removes exactly the highest set bit. *)
Lemma clear_highest_correct v : in_u 32 v →
  my_clear_highest_bit v = if v =? 0 then 0 else v - 2 ^ Z.log2 v.
Proof.
  intros Hv. change (my_clear_highest_bit v) with (Z.land v (smear_all (Z.shiftr v 1))).
  destruct (Z.eqb_spec v 0) as [->|]; [reflexivity|]. unfold in_u in Hv.
  assert (smear_all (Z.shiftr v 1) = Z.ones (Z.log2 v)) as ->.
  { rewrite smear_all_ones
      by (destruct (shiftr_in_u 1 31 v) as [[] _]; unfold in_u in *; lia).
    destruct (Z.eqb_spec (Z.shiftr v 1) 0) as [E|E].
    - rewrite Z.shiftr_div_pow2 in E by lia. replace v with 1; [done|].
      Z.div_mod_to_equations. lia.
    - f_equal. rewrite Z.log2_shiftr by lia.
      enough (1 ≤ Z.log2 v) by lia. apply Z.log2_le_pow2; [lia|].
      rewrite Z.shiftr_div_pow2 in E by lia. Z.div_mod_to_equations. lia. }
  rewrite Z.land_ones by apply Z.log2_nonneg.
  pose proof (Z.log2_spec v) as Hs. rewrite Z.pow_succ_r in Hs by apply Z.log2_nonneg.
  symmetry. apply (Z.mod_unique _ _ 1); lia.
Qed.

(** ** Bit reversal *)

Section ReverseProofs.
Context (table : Z → Z) (Htable : reverse_table_ok table).

Lemma table_byte_bit k i : 0 ≤ k → 0 ≤ i → ∀ key, in_u 32 key →
  Z.testbit (table (Z.land (Z.shiftr key k) 255)) i
  = (i <? 8) && Z.testbit key (k + 7 - i).
Proof.
  intros Hk Hi key Hkey.
  assert (0 ≤ Z.land (Z.shiftr key k) 255 < 256) as Hr.
  { change 255 with (Z.ones 8). rewrite Z.land_ones by lia. apply Z.mod_pos_bound. lia. }
  destruct (Htable _ Hr) as [Hu Hb]. destruct (Z.ltb_spec i 8); simpl.
  - rewrite Hb by lia. change 255 with (Z.ones 8).
    rewrite Z.land_spec, Z.shiftr_spec, Z.testbit_ones_nonneg by lia.
    zcases; [|lia]. rewrite andb_true_r. f_equal. lia.
  - by apply (in_u_testbit 8).
Qed.

Lemma reverse_bits_bit key i : in_u 32 key → 0 ≤ i < 32 →
  Z.testbit (my_reverse_bits table key) i = Z.testbit key (31 - i).
Proof.
  intros Hkey Hi. unfold my_reverse_bits.
  replace (Z.shiftr key 24) with (Z.land (Z.shiftr key 24) 255).
  2: { destruct (shiftr_in_u 24 8 key) as [Hs _]; [lia|lia|done|].
       change 255 with (Z.ones 8). rewrite Z.land_ones by lia. by apply Z.mod_small. }
  replace (Z.land key 255) with (Z.land (Z.shiftr key 0) 255) by done.
  rewrite !Z.lor_spec, !Z.shiftl_spec by lia.
  destruct (decide (i < 8)); [|destruct (decide (i < 16)); [|destruct (decide (i < 24))]];
  repeat match goal with
  | |- context [Z.testbit (table (Z.land (Z.shiftr key ?k) 255)) ?j] =>
      (rewrite (Z.testbit_neg_r _ j) by lia) ||
      (rewrite (table_byte_bit k j) by (done || lia))
  end; zcases; try lia; rewrite ?orb_false_l, ?orb_false_r; simpl; f_equal; lia.
Qed.

Lemma reverse_bits_range key : in_u 32 key → in_u 32 (my_reverse_bits table key).
Proof.
  intros Hkey. unfold in_u in Hkey.
  assert (∀ b, 0 ≤ b < 256 → 0 ≤ table b) as Ht0
    by (intros b Hb; apply (Htable b Hb)).
  assert (∀ b i, 0 ≤ b < 256 → 8 ≤ i → Z.testbit (table b) i = false) as Ht
    by (intros b i Hb Hi; apply (in_u_testbit 8); [by apply Htable|lia]).
  assert (∀ k, 0 ≤ k → 0 ≤ Z.land (Z.shiftr key k) 255 < 256) as Hl.
  { intros k Hk. change 255 with (Z.ones 8). rewrite Z.land_ones by lia.
    apply Z.mod_pos_bound. lia. }
  assert (0 ≤ Z.shiftr key 24 < 256)
    by (rewrite Z.shiftr_div_pow2 by lia; Z.div_mod_to_equations; lia).
  pose proof (Hl 0) as Hl0. change (Z.shiftr key 0) with key in Hl0.
  apply in_u_of_bits; [lia| |].
  - unfold my_reverse_bits. rewrite !Z.lor_nonneg, !Z.shiftl_nonneg.
    repeat split; apply Ht0; (done || (apply Hl; lia) || (apply Hl0; lia)).
  - intros i Hi. unfold my_reverse_bits. rewrite !Z.lor_spec, !Z.shiftl_spec by lia.
    rewrite !Ht by (done || lia || (apply Hl; lia) || (apply Hl0; lia)). done.
Qed.
End ReverseProofs.

(** ** Masks *)

Lemma lor_double_1 a : 0 ≤ a → Z.lor (2 * a) 1 = 2 * a + 1.
Proof. intros Ha. destruct a as [|p|p]; [done|done|lia]. Qed.

Lemma set_bits_correct n : 1 ≤ n ≤ 64 → my_set_bits n = Some (2 ^ n - 1).
Proof.
  intros Hn. unfold my_set_bits, shl1_64. zcases; try lia. simpl. f_equal.
  rewrite Z.shiftl_1_l. unfold to_ulonglong.
  assert (2 ^ (n - 1) ≤ 2 ^ 63) by (apply Z.pow_le_mono_r; lia).
  assert (0 < 2 ^ (n - 1)) by lia.
  assert (2 ^ n = 2 * 2 ^ (n - 1)) as E
    by (rewrite <- Z.pow_succ_r by lia; f_equal; lia).
  rewrite (wrap_id 64 (2 ^ (n - 1) - 1)) by (unfold in_u; lia).
  rewrite Z.shiftl_mul_pow2, wrap_id by (unfold in_u; lia).
  replace ((2 ^ (n - 1) - 1) * 2 ^ 1) with (2 * (2 ^ (n - 1) - 1)) by lia.
  rewrite lor_double_1; lia.
Qed.

Lemma set_bits_undefined n : n < 1 ∨ 64 < n → my_set_bits n = None.
Proof. intros Hn. unfold my_set_bits, shl1_64. zcases; try lia; done. Qed.

Lemma last_byte_mask_correct bits : 1 ≤ bits < 2 ^ 32 →
  last_byte_mask bits = 2 ^ ((bits - 1) mod 8 + 1) - 1.
Proof.
  intros Hb. unfold last_byte_mask, to_uint32 at 3.
  rewrite (wrap_id 32 (bits - 1)) by (unfold in_u; lia).
  change 7 with (Z.ones 3) at 1. rewrite Z.land_ones by lia. change (2 ^ 3) with 8.
  pose proof (Z.mod_pos_bound (bits - 1) 8). generalize dependent ((bits - 1) mod 8).
  intros u Hu. assert (u = 0 ∨ u = 1 ∨ u = 2 ∨ u = 3 ∨ u = 4 ∨ u = 5 ∨ u = 6 ∨ u = 7)
    as [->|[->|[->|[->|[->|[->|[->| ->]]]]]]] by lia; reflexivity.
Qed.

(** ** First set bit *)

(** [b] is the lowest set bit of [n]. *)
Definition lowest_bit (n b : Z) : Prop :=
  0 ≤ b ∧ Z.testbit n b = true ∧ ∀ i, 0 ≤ i < b → Z.testbit n i = false.

Lemma last_bit_spec d : 0 ≤ d < 16 →
  ∃ b, last_bit !! Z.to_nat d = Some b ∧
    (d = 0 ∧ b = 32 ∨ 0 ≤ b < 4 ∧ lowest_bit d b).
Proof.
  intros Hd. assert (d = 0 ∨ d = 1 ∨ d = 2 ∨ d = 3 ∨ d = 4 ∨ d = 5 ∨ d = 6 ∨ d = 7 ∨
    d = 8 ∨ d = 9 ∨ d = 10 ∨ d = 11 ∨ d = 12 ∨ d = 13 ∨ d = 14 ∨ d = 15) as H by lia.
  repeat destruct H as [->|H]; try subst d; (eexists; split; [reflexivity|]);
    try (left; done); right; (split; [lia|split; [lia|split; [done|]]]);
    intros i Hi; (assert (i = 0 ∨ i = 1 ∨ i = 2) as [->|[->| ->]] by lia); (lia || done).
Qed.

Lemma find_first_bit_loop_spec fuel n k : in_u 64 n →
  Z.of_nat fuel = 16 - k → 0 ≤ k → n ≠ 0 →
  (∀ i, 0 ≤ i < 4 * k → Z.testbit n i = false) →
  ∃ b, find_first_bit_loop fuel n (4 * k) = Some b ∧ lowest_bit n b ∧ b < 64.
Proof.
  intros Hn. revert k. induction fuel as [|fuel IH]; intros k Hf Hk Hn0 Hlow.
  { exfalso. apply Hn0. apply Z.bits_inj'. intros i Hi. rewrite Z.testbit_0_l.
    destruct (decide (i < 64)); [apply Hlow; lia|]. apply (in_u_testbit 64); [done|lia]. }
  cbn [find_first_bit_loop]. destruct (Z.leb_spec 64 (4 * k)); [lia|].
  assert (∀ i, 0 ≤ i < 4 → Z.testbit (Z.land (Z.shiftr n (4 * k)) 15) i
                          = Z.testbit n (4 * k + i)) as Hbit.
  { intros i Hi. change 15 with (Z.ones 4).
    rewrite Z.land_spec, Z.shiftr_spec, Z.testbit_ones_nonneg by lia.
    zcases; [|lia]. rewrite andb_true_r. f_equal. lia. }
  destruct (last_bit_spec (Z.land (Z.shiftr n (4 * k)) 15)) as (b & -> & Hb).
  { change 15 with (Z.ones 4). rewrite Z.land_ones by lia. apply Z.mod_pos_bound. lia. }
  simpl. destruct Hb as [[E ->]|[Hb4 (Hb0 & Hbt & Hbl)]].
  - unfold to_uint32. rewrite wrap_id by (unfold in_u; lia).
    replace (4 * k + 4) with (4 * (k + 1)) by lia. apply IH; [lia|lia|done|].
    intros i Hi. destruct (decide (i < 4 * k)); [apply Hlow; lia|].
    replace i with (4 * k + (i - 4 * k)) by lia. rewrite <- Hbit by lia.
    by rewrite E, Z.testbit_0_l.
  - destruct (Z.eqb_spec b 32); [lia|]. exists (4 * k + b).
    unfold to_uint32. rewrite wrap_id by (unfold in_u; lia).
    split; [done|]. split; [|lia]. split; [lia|]. split; [by rewrite <- Hbit by lia|].
    intros i Hi. destruct (decide (i < 4 * k)); [apply Hlow; lia|].
    replace i with (4 * k + (i - 4 * k)) by lia. rewrite <- Hbit by lia. apply Hbl. lia.
Qed.

(** The search terminates within 16 nibbles on every non-zero 64-bit value
    and returns its lowest set bit. *)
Lemma find_first_bit_nonzero n : in_u 64 n → n ≠ 0 →
  ∃ b, my_find_first_bit n = Some b ∧ lowest_bit n b ∧ b < 64.
Proof.
  intros Hn Hn0. unfold my_find_first_bit.
  rewrite (proj2 (truth_true n)) by done. simpl negb. cbv iota.
  apply (find_first_bit_loop_spec 16 n 0); [done|lia|lia|done|lia].
Qed.

(** ** Main results *)

(** for every 64-bit value the halving search of [my_bit_log2_uint64], and
    its [size_t] wrapper, return the position of the highest set bit, and 0 for
    the value 0; the header's comment (the least [X] with [2^X >= value]) gives
    2 for the value 3, the code gives 1. *)
Theorem my_bit_log2_is_log2 v : in_u 64 v →
  my_bit_log2_uint64 v = Z.log2 v ∧ my_bit_log2_size_t v = Z.log2 v.
Proof.
  intros Hv. split; [by apply log2_uint64_correct|].
  unfold my_bit_log2_size_t, to_ulonglong. rewrite wrap_id by done.
  by apply log2_uint64_correct.
Qed.

Lemma my_bit_log2_is_log2_witness :
  my_bit_log2_uint64 0x8000000000000003 = 63 ∧ my_bit_log2_uint64 3 = 1.
Proof.
  split.
  - exact (proj1 (my_bit_log2_is_log2 0x8000000000000003 ltac:(unfold in_u; lia))).
  - exact (proj1 (my_bit_log2_is_log2 3 ltac:(unfold in_u; lia))).
Defined.

(** the parallel summation of [my_count_bits] computes the number of set
    bits of every 64-bit value, although each of its additions and its final
    multiplication is a 32-bit operation that could wrap. *)
Theorem my_count_bits_is_popcount x : in_u 64 x → my_count_bits x = popcount 64 x.
Proof. apply count_bits_correct. Qed.

Lemma my_count_bits_is_popcount_witness : my_count_bits 0xF0F0000000000103 = 11.
Proof. exact (my_count_bits_is_popcount 0xF0F0000000000103 ltac:(unfold in_u; lia)). Defined.

(** [my_round_up_to_next_power] returns the least power of two not below
    its argument on [1..2^31] and 0 elsewhere (the carry out of 32 bits is
    lost); [my_clear_highest_bit] removes exactly the highest set bit. *)
Theorem power_of_two_helpers v : in_u 32 v →
  my_round_up_to_next_power v
    = (if (1 <=? v) && (v <=? 2 ^ 31) then 2 ^ Z.log2_up v else 0) ∧
  my_clear_highest_bit v = (if v =? 0 then 0 else v - 2 ^ Z.log2 v).
Proof. intros Hv. split; [by apply round_up_correct|by apply clear_highest_correct]. Qed.

Lemma power_of_two_helpers_witness :
  my_round_up_to_next_power 0x6000000B = 2 ^ 31 ∧ my_clear_highest_bit 0x6000000B = 0x2000000B.
Proof. exact (power_of_two_helpers 0x6000000B ltac:(unfold in_u; lia)). Defined.

(** given a reversal table that holds the reversed bytes, [my_reverse_bits]
    moves bit [i] of a 32-bit key to position [31 - i], so applying it twice
    gives the key back. *)
Theorem my_reverse_bits_involutive table key :
  reverse_table_ok table → in_u 32 key →
  my_reverse_bits table (my_reverse_bits table key) = key ∧
  ∀ i, 0 ≤ i < 32 → Z.testbit (my_reverse_bits table key) i = Z.testbit key (31 - i).
Proof.
  intros Ht Hk. pose proof (reverse_bits_range table Ht) as Hr.
  split; [|intros i Hi; by apply reverse_bits_bit].
  apply Z.bits_inj'. intros i Hi. destruct (decide (i < 32)).
  - rewrite !(reverse_bits_bit table Ht) by (auto || lia). f_equal. lia.
  - rewrite (in_u_testbit 32 key) by (done || lia).
    apply (in_u_testbit 32); [auto|lia].
Qed.

(** The table of the reversed bytes, as the library builds it. *)
Definition reversed_byte (b : Z) : Z :=
  foldr (λ i acc, Z.lor acc (Z.shiftl (Z.b2z (Z.testbit b i)) (7 - i))) 0
        [0; 1; 2; 3; 4; 5; 6; 7].

Lemma reversed_byte_ok : reverse_table_ok reversed_byte.
Proof.
  set (ok b := (0 <=? reversed_byte b) && (reversed_byte b <? 256) &&
    forallb (λ i, Bool.eqb (Z.testbit (reversed_byte b) i) (Z.testbit b (7 - i)))
            [0; 1; 2; 3; 4; 5; 6; 7]).
  intros b Hb. assert (ok b = true) as H.
  { revert b Hb. apply forall_bytes. by vm_compute. }
  unfold ok in H. rewrite !andb_true_iff, forallb_forall in H.
  destruct H as [[H1 H2] H3]. split; [unfold in_u; lia|]. intros i Hi.
  apply Bool.eqb_prop, H3.
  assert (i = 0 ∨ i = 1 ∨ i = 2 ∨ i = 3 ∨ i = 4 ∨ i = 5 ∨ i = 6 ∨ i = 7) by lia.
  simpl. intuition.
Qed.

Lemma my_reverse_bits_involutive_witness :
  my_reverse_bits reversed_byte (my_reverse_bits reversed_byte 0x12345678) = 0x12345678.
Proof.
  exact (proj1 (my_reverse_bits_involutive reversed_byte 0x12345678 reversed_byte_ok
    ltac:(unfold in_u; lia))).
Defined.

(** [my_find_first_bit] terminates on every 64-bit value without an
    undefined shift; it returns 64 for 0 and otherwise the position of the
    lowest set bit. *)
Theorem my_find_first_bit_total n : in_u 64 n →
  ∃ b, my_find_first_bit n = Some b ∧
    (n = 0 ∧ b = 64 ∨ n ≠ 0 ∧ lowest_bit n b ∧ b < 64).
Proof.
  intros Hn. destruct (decide (n = 0)) as [->|Hn0]; [exists 64; auto|].
  destruct (find_first_bit_nonzero n Hn Hn0) as (b & ? & ? & ?). exists b. auto.
Qed.

Lemma my_find_first_bit_total_witness :
  ∃ b, my_find_first_bit 0x8000000000000000 = Some b ∧
    (0x8000000000000000 = 0 ∧ b = 64 ∨
     0x8000000000000000 ≠ 0 ∧ lowest_bit 0x8000000000000000 b ∧ b < 64).
Proof. exact (my_find_first_bit_total 0x8000000000000000 ltac:(unfold in_u; lia)). Defined.
