(* ===== verification/ByteOrder.v ===== *)
(** Storing and reading integers in machine-independent format, low byte
    first: the macros of [byte_order_generic.h] (module [Generic]) and the
    optimised ones of [byte_order_generic_x86_64.h] (module [X86_64]), with
    [int4net] of [my_byteorder.h].

    A buffer is a list of bytes.  The optimised macros load and store whole
    integer objects; on x86-64 these are little-endian accesses. *)
From S2P Require Import Prelude.

(** The cast [(uint32) (uchar) b], and its 16- and 64-bit versions. *)
Definition u16b (b : Z) : Z := to_uint16 (uchar b).
Definition u32b (b : Z) : Z := to_uint32 (uchar b).
Definition u64b (b : Z) : Z := to_ulonglong (uchar b).

Module Generic.

Definition sint2korr (A : list Z) : option Z :=
  a0 ← A.[0]; a1 ← A.[1];
  Some (to_int16 (Z.lor (to_int16 (uchar a0)) (Z.shiftl (to_int16 a1) 8))).

Definition sint3korr (A : list Z) : option Z :=
  a0 ← A.[0]; a1 ← A.[1]; a2 ← A.[2];
  Some (to_int32
    (if truth (Z.land (uchar a2) 128)
     then Z.lor (Z.lor (Z.lor (shl32 255 24) (shl32 (u32b a2) 16))
                       (shl32 (u32b a1) 8)) (u32b a0)
     else Z.lor (Z.lor (shl32 (u32b a2) 16) (shl32 (u32b a1) 8)) (u32b a0))).

Definition sint4korr (A : list Z) : option Z :=
  a0 ← A.[0]; a1 ← A.[1]; a2 ← A.[2]; a3 ← A.[3];
  Some (to_int32
    (Z.lor (Z.lor (Z.lor (u32b a0) (shl32 (u32b a1) 8)) (shl32 (u32b a2) 16))
           (shl32 (u32b a3) 24))).

Definition uint2korr (A : list Z) : option Z :=
  a0 ← A.[0]; a1 ← A.[1];
  Some (to_uint16 (Z.lor (u16b a0) (Z.shiftl (u16b a1) 8))).

Definition uint3korr (A : list Z) : option Z :=
  a0 ← A.[0]; a1 ← A.[1]; a2 ← A.[2];
  Some (to_uint32
    (Z.lor (Z.lor (u32b a0) (shl32 (u32b a1) 8)) (shl32 (u32b a2) 16))).

Definition uint4korr (A : list Z) : option Z :=
  a0 ← A.[0]; a1 ← A.[1]; a2 ← A.[2]; a3 ← A.[3];
  Some (to_uint32
    (Z.lor (Z.lor (Z.lor (u32b a0) (shl32 (u32b a1) 8)) (shl32 (u32b a2) 16))
           (shl32 (u32b a3) 24))).

Definition uint5korr (A : list Z) : option Z :=
  a0 ← A.[0]; a1 ← A.[1]; a2 ← A.[2]; a3 ← A.[3]; a4 ← A.[4];
  Some (Z.lor
    (to_ulonglong
      (Z.lor (Z.lor (Z.lor (u32b a0) (shl32 (u32b a1) 8)) (shl32 (u32b a2) 16))
             (shl32 (u32b a3) 24)))
    (shl64 (u64b a4) 32)).

Definition uint6korr (A : list Z) : option Z :=
  a0 ← A.[0]; a1 ← A.[1]; a2 ← A.[2]; a3 ← A.[3]; a4 ← A.[4]; a5 ← A.[5];
  Some (Z.lor (Z.lor
    (to_ulonglong
      (Z.lor (Z.lor (Z.lor (u32b a0) (shl32 (u32b a1) 8)) (shl32 (u32b a2) 16))
             (shl32 (u32b a3) 24)))
    (shl64 (u64b a4) 32)) (shl64 (u64b a5) 40)).

Definition uint8korr (A : list Z) : option Z :=
  a0 ← A.[0]; a1 ← A.[1]; a2 ← A.[2]; a3 ← A.[3];
  a4 ← A.[4]; a5 ← A.[5]; a6 ← A.[6]; a7 ← A.[7];
  Some (Z.lor
    (to_ulonglong
      (Z.lor (Z.lor (Z.lor (u32b a0) (shl32 (u32b a1) 8)) (shl32 (u32b a2) 16))
             (shl32 (u32b a3) 24)))
    (shl64 (to_ulonglong
      (Z.lor (Z.lor (Z.lor (u32b a4) (shl32 (u32b a5) 8)) (shl32 (u32b a6) 16))
             (shl32 (u32b a7) 24))) 32)).

Definition sint8korr (A : list Z) : option Z :=
  v ← uint8korr A; Some (to_longlong v).

Definition int2store (T : list Z) (off : nat) (A : Z) : option (list Z) :=
  let def_temp := to_uint32 A in
  pokes T off [(0%nat, uchar def_temp); (1%nat, uchar (Z.shiftr def_temp 8))].

Definition int3store (T : list Z) (off : nat) (A : Z) : option (list Z) :=
  pokes T off [(0%nat, uchar A); (1%nat, uchar (Z.shiftr A 8));
               (2%nat, uchar (Z.shiftr A 16))].

Definition int4store (T : list Z) (off : nat) (A : Z) : option (list Z) :=
  pokes T off [(0%nat, uchar A); (1%nat, uchar (Z.shiftr A 8));
               (2%nat, uchar (Z.shiftr A 16)); (3%nat, uchar (Z.shiftr A 24))].

Definition int5store (T : list Z) (off : nat) (A : Z) : option (list Z) :=
  pokes T off [(0%nat, uchar A); (1%nat, uchar (Z.shiftr A 8));
               (2%nat, uchar (Z.shiftr A 16)); (3%nat, uchar (Z.shiftr A 24));
               (4%nat, uchar (Z.shiftr A 32))].

Definition int6store (T : list Z) (off : nat) (A : Z) : option (list Z) :=
  pokes T off [(0%nat, uchar A); (1%nat, uchar (Z.shiftr A 8));
               (2%nat, uchar (Z.shiftr A 16)); (3%nat, uchar (Z.shiftr A 24));
               (4%nat, uchar (Z.shiftr A 32)); (5%nat, uchar (Z.shiftr A 40))].

Definition int8store (T : list Z) (off : nat) (A : Z) : option (list Z) :=
  let def_temp := to_uint32 A in
  let def_temp2 := to_uint32 (Z.shiftr A 32) in
  T ← int4store T off def_temp; int4store T (off + 4) def_temp2.

End Generic.

Module X86_64.

Definition sint2korr (A : list Z) : option Z :=
  v ← load_le 2 A 0; Some (to_int16 (to_int16 v)).

(** The 3-byte macros have the same text in both headers. *)
Definition sint3korr : list Z → option Z := Generic.sint3korr.
Definition uint3korr : list Z → option Z := Generic.uint3korr.

Definition sint4korr (A : list Z) : option Z :=
  v ← load_le 4 A 0; Some (to_int32 (to_int32 v)).

Definition uint2korr (A : list Z) : option Z :=
  v ← load_le 2 A 0; Some (to_uint16 v).

Definition uint4korr (A : list Z) : option Z :=
  v ← load_le 4 A 0; Some (to_uint32 v).

Definition uint5korr (p : list Z) : option Z :=
  a ← load_le 4 p 0;
  b ← p.[4];
  Some (Z.lor a (shl64 b 32)).

Definition uint6korr (p : list Z) : option Z :=
  a ← load_le 4 p 0;
  b ← load_le 2 p 4;
  Some (Z.lor a (shl64 b 32)).

Definition uint8korr (A : list Z) : option Z :=
  v ← load_le 8 A 0; Some (to_ulonglong v).

Definition sint8korr (A : list Z) : option Z :=
  v ← load_le 8 A 0; Some (to_longlong (to_longlong v)).

Definition int2store (T : list Z) (off : nat) (A : Z) : option (list Z) :=
  store_le 2 T off (to_uint16 A).

Definition int3store (T : list Z) (off : nat) (A : Z) : option (list Z) :=
  pokes T off [(0%nat, uchar A); (1%nat, uchar (Z.shiftr (to_uint32 A) 8));
               (2%nat, uchar (Z.shiftr A 16))].

Definition int4store (T : list Z) (off : nat) (A : Z) : option (list Z) :=
  store_le 4 T off (to_uint32 A).

Definition int5store (T : list Z) (off : nat) (A : Z) : option (list Z) :=
  T ← store_le 4 T off (to_uint32 A);
  poke T (off + 4) (uchar (Z.shiftr A 32)).

Definition int6store (T : list Z) (off : nat) (A : Z) : option (list Z) :=
  T ← store_le 4 T off (to_uint32 A);
  store_le 2 T (off + 4) (to_uint16 (Z.shiftr A 32)).

Definition int8store (T : list Z) (off : nat) (A : Z) : option (list Z) :=
  store_le 8 T off (to_ulonglong A).

End X86_64.

(** [int4net]: a big-endian 32-bit signed value. *)
Definition int4net (A : list Z) : option Z :=
  a0 ← A.[0]; a1 ← A.[1]; a2 ← A.[2]; a3 ← A.[3];
  Some (to_int32
    (Z.lor (Z.lor (Z.lor (u32b a3) (shl32 (u32b a2) 8)) (shl32 (u32b a1) 16))
           (shl32 (u32b a0) 24))).

(** ** Values read *)

Lemma u16b_byte b : in_u 8 b → u16b b = b.
Proof.
  intros Hb. unfold u16b, uchar, to_uint8, to_uint16.
  rewrite (wrap_id 8) by done. apply wrap_id. unfold in_u in *. lia.
Qed.
Lemma u32b_byte b : in_u 8 b → u32b b = b.
Proof.
  intros Hb. unfold u32b, uchar, to_uint8, to_uint32.
  rewrite (wrap_id 8) by done. apply wrap_id. unfold in_u in *. lia.
Qed.
Lemma u64b_byte b : in_u 8 b → u64b b = b.
Proof.
  intros Hb. unfold u64b, uchar, to_uint8, to_ulonglong.
  rewrite (wrap_id 8) by done. apply wrap_id. unfold in_u in *. lia.
Qed.
Lemma uchar_byte b : in_u 8 b → uchar b = b.
Proof. apply wrap_id. Qed.

(** Or-ing the shifted bytes of a value adds them up. *)
Ltac or_bytes :=
  rewrite ?shl32_id by (unfold in_u in *; lia);
  rewrite ?(lor_shl_add 8) by (unfold in_u in *; lia);
  rewrite ?(lor_shl_add 16) by (unfold in_u in *; lia);
  rewrite ?(lor_shl_add 24) by (unfold in_u in *; lia).

Ltac unbytes :=
  rewrite ?u16b_byte, ?u32b_byte, ?u64b_byte, ?uchar_byte by done.

Section FourBytes.
Context (a b c d : Z) (Ha : in_u 8 a) (Hb : in_u 8 b) (Hc : in_u 8 c) (Hd : in_u 8 d).

Lemma or2_value : Z.lor (u16b a) (Z.shiftl (u16b b) 8) = le_value [a; b].
Proof. unbytes. or_bytes. simpl le_value. lia. Qed.

Lemma or3_value :
  Z.lor (Z.lor (u32b a) (shl32 (u32b b) 8)) (shl32 (u32b c) 16) = le_value [a; b; c].
Proof. unbytes. or_bytes. simpl le_value. lia. Qed.

Lemma or4_value :
  Z.lor (Z.lor (Z.lor (u32b a) (shl32 (u32b b) 8)) (shl32 (u32b c) 16))
        (shl32 (u32b d) 24) = le_value [a; b; c; d].
Proof. unbytes. or_bytes. simpl le_value. lia. Qed.
End FourBytes.

(** The 16-bit signed read promotes both bytes to [int]. *)
Lemma sor2_value a b : in_u 8 a → in_u 8 b →
  Z.lor (to_int16 (uchar a)) (Z.shiftl (to_int16 b) 8) = le_value [a; b].
Proof.
  intros. unbytes. unfold to_int16.
  rewrite !swrap_id by (unfold in_s, in_u in *; lia).
  rewrite lor_shl_add by (done || lia). simpl le_value. lia.
Qed.

(** A 64-bit read is its low 32 bits or-ed with the rest. *)
Lemma or_high_value lo hi : in_u 32 lo → in_u 32 hi →
  Z.lor (to_ulonglong lo) (shl64 hi 32) = lo + 2 ^ 32 * hi.
Proof.
  intros Hl Hh. unfold to_ulonglong. rewrite wrap_id, shl64_id by (unfold in_u in *; lia).
  by rewrite lor_shl_add by (done || lia).
Qed.

Lemma le_value4_range a b c d :
  in_u 8 a → in_u 8 b → in_u 8 c → in_u 8 d → in_u 32 (le_value [a; b; c; d]).
Proof. intros. apply (le_value_range [a; b; c; d]). solve_bytes. Qed.

(** The sign-extended 3-byte value. *)
Lemma sor3_value a b c : in_u 8 a → in_u 8 b → in_u 8 c →
  to_int32
    (if truth (Z.land (uchar c) 128)
     then Z.lor (Z.lor (Z.lor (shl32 255 24) (shl32 (u32b c) 16))
                       (shl32 (u32b b) 8)) (u32b a)
     else Z.lor (Z.lor (shl32 (u32b c) 16) (shl32 (u32b b) 8)) (u32b a))
  = swrap 24 (le_value [a; b; c]).
Proof.
  intros Ha Hb Hc.
  assert (truth (Z.land (uchar c) 128) = negb (c <? 128)) as ->.
  { unbytes. apply Bool.eqb_prop. revert c Hc.
    apply (forall_bytes (λ c, Bool.eqb (truth (Z.land c 128)) (negb (c <? 128)))).
    by vm_compute. }
  assert (Z.lor (Z.lor (shl32 (u32b c) 16) (shl32 (u32b b) 8)) (u32b a)
             = le_value [a; b; c]) as E.
  { rewrite (Z.lor_comm _ (u32b a)), (Z.lor_comm (shl32 _ _)), Z.lor_assoc.
    by apply or3_value. }
  assert (in_u 24 (le_value [a; b; c])) as Hr
    by (apply (le_value_range [a; b; c]); solve_bytes).
  assert (le_value [a; b; c] = a + 2 ^ 8 * b + 2 ^ 16 * c) as Ev by (simpl le_value; lia).
  unfold swrap. fold (wrap 24 (le_value [a; b; c])). rewrite wrap_id by done.
  unfold in_u in *. destruct (Z.ltb_spec c 128) as [Hlt|Hge]; simpl negb; cbv iota.
  - rewrite E. zcases; [|lia]. apply swrap_id; unfold in_s; lia.
  - rewrite <- !Z.lor_assoc, (Z.lor_assoc (shl32 (u32b c) 16)), E.
    rewrite Z.lor_comm. rewrite shl32_id by lia.
    rewrite lor_shl_add by (unfold in_u; lia). zcases; [lia|].
    unfold to_int32. rewrite <- swrap_wrap.
    replace (wrap 32 (le_value [a; b; c] + 2 ^ 24 * 255))
      with (wrap 32 (le_value [a; b; c] - 2 ^ 24)).
    2: { unfold wrap. rewrite <- (Z.mod_add (_ - 2 ^ 24) 1) by lia. f_equal. lia. }
    rewrite swrap_wrap. apply swrap_id; unfold in_s; lia.
Qed.

(** Exposes the first bytes of a buffer; a buffer that is too short gives
    [None] on both sides. *)
Ltac peel A :=
  destruct A as [|? A]; [reflexivity|];
  match goal with H : bytes (_ :: _) |- _ => apply Forall_cons in H as [? H]; change (bytes A) in H end.

Ltac read_value :=
  unfold load_le; rewrite ?decide_True by (simpl; lia); simpl option_map; cbn [take drop mbind option_bind fmap option_fmap option_map lookup list_lookup];
  rewrite ?take_0.

(** The generic reads are little-endian loads. *)
Lemma generic_uint2 A : bytes A → Generic.uint2korr A = load_le 2 A 0.
Proof.
  intros H. do 2 peel A. read_value. unfold Generic.uint2korr. simpl. f_equal.
  rewrite or2_value by done. apply wrap_id, (le_value_range [_; _]). solve_bytes.
Qed.

Lemma generic_uint3 A : bytes A → Generic.uint3korr A = load_le 3 A 0.
Proof.
  intros H. do 3 peel A. read_value. unfold Generic.uint3korr. simpl. f_equal.
  rewrite or3_value by done. unfold to_uint32. apply wrap_id.
  assert (in_u 24 (le_value [z; z0; z1])) as Hr
    by (apply (le_value_range [_; _; _]); solve_bytes).
  unfold in_u in *. cbn [le_value] in *. lia.
Qed.

Lemma generic_uint4 A : bytes A → Generic.uint4korr A = load_le 4 A 0.
Proof.
  intros H. do 4 peel A. read_value. unfold Generic.uint4korr. simpl. f_equal.
  rewrite or4_value by done. by apply wrap_id, le_value4_range.
Qed.

Lemma generic_uint5 A : bytes A → Generic.uint5korr A = load_le 5 A 0.
Proof.
  intros H. do 5 peel A. read_value. unfold Generic.uint5korr. simpl. f_equal.
  rewrite or4_value, u64b_byte by done.
  rewrite or_high_value by (by apply le_value4_range || (unfold in_u in *; lia)).
  cbn [le_value]. lia.
Qed.

Lemma generic_uint6 A : bytes A → Generic.uint6korr A = load_le 6 A 0.
Proof.
  intros H. do 6 peel A. read_value. unfold Generic.uint6korr. simpl. f_equal.
  rewrite or4_value, !u64b_byte by done.
  assert (in_u 32 (le_value [z; z0; z1; z2])) by (by apply le_value4_range).
  rewrite or_high_value by (done || (unfold in_u in *; lia)).
  rewrite shl64_id, lor_shl_add by (unfold in_u in *; lia).
  cbn [le_value]. lia.
Qed.

Lemma generic_uint8 A : bytes A → Generic.uint8korr A = load_le 8 A 0.
Proof.
  intros H. do 8 peel A. read_value. unfold Generic.uint8korr. simpl. f_equal.
  rewrite !or4_value by done.
  assert (in_u 32 (le_value [z; z0; z1; z2])) by (by apply le_value4_range).
  assert (in_u 32 (le_value [z3; z4; z5; z6])) by (by apply le_value4_range).
  replace (to_ulonglong (le_value [z3; z4; z5; z6])) with (le_value [z3; z4; z5; z6])
    by (symmetry; apply wrap_id; unfold in_u in *; lia).
  rewrite or_high_value by done. cbn [le_value]. lia.
Qed.

Lemma generic_sint2 A : bytes A → Generic.sint2korr A = to_int16 <$> load_le 2 A 0.
Proof.
  intros H. do 2 peel A. read_value. unfold Generic.sint2korr. simpl. f_equal.
  by rewrite sor2_value.
Qed.

Lemma generic_sint3 A : bytes A → Generic.sint3korr A = swrap 24 <$> load_le 3 A 0.
Proof.
  intros H. do 3 peel A. read_value. unfold Generic.sint3korr. cbn [mbind option_bind lookup list_lookup].
  f_equal. by apply sor3_value.
Qed.

Lemma generic_sint4 A : bytes A → Generic.sint4korr A = to_int32 <$> load_le 4 A 0.
Proof.
  intros H. do 4 peel A. read_value. unfold Generic.sint4korr. simpl. f_equal.
  by rewrite or4_value.
Qed.

Lemma generic_sint8 A : bytes A → Generic.sint8korr A = to_longlong <$> load_le 8 A 0.
Proof. intros H. unfold Generic.sint8korr. rewrite generic_uint8 by done. by destruct (load_le 8 A 0). Qed.

(** A load of a prefix and of the rest. *)
Lemma load_le_range n A off v : bytes A → load_le n A off = Some v → in_u (8 * Z.of_nat n) v.
Proof.
  intros HA. unfold load_le. case_decide as H; [|done]. intros [= <-].
  assert (length (take n (drop off A)) = n) as Hl
    by (rewrite length_take, length_drop; lia).
  rewrite <- Hl at 1. apply le_value_range. by apply Forall_take, Forall_drop.
Qed.

(** ** Stores *)

Lemma uchar_shiftr A k : 0 ≤ k → uchar (Z.shiftr A k) = (A / 2 ^ k) mod 2 ^ 8.
Proof. intros. unfold uchar, to_uint8, wrap. by rewrite Z.shiftr_div_pow2. Qed.

Lemma le_bytes_eq n A :
  le_bytes n A = (λ i, uchar (Z.shiftr A (8 * Z.of_nat i))) <$> seq 0 n.
Proof.
  revert A. induction n as [|n IH]; intros A; [done|]. cbn [le_bytes seq fmap list_fmap].
  f_equal. rewrite IH, <- fmap_S_seq, <- list_fmap_compose. apply list_fmap_ext.
  intros _ i _. simpl. rewrite !uchar_shiftr by lia. rewrite Z.div_div by lia.
  rewrite <- Z.pow_add_r by lia. do 3 f_equal. lia.
Qed.

(** A list of assignments that writes the bytes of [A], low byte first. *)
Lemma pokes_store n T off A l : (0 < n)%nat →
  l = zip (seq 0 n) (le_bytes n A) → pokes T off l = store_le n T off A.
Proof. intros Hn ->. by apply pokes_le_bytes. Qed.

Lemma generic_store3 T off A : Generic.int3store T off A = store_le 3 T off A.
Proof. apply pokes_store; [lia|]. by rewrite le_bytes_eq. Qed.

Lemma generic_store4 T off A : Generic.int4store T off A = store_le 4 T off A.
Proof. apply pokes_store; [lia|]. by rewrite le_bytes_eq. Qed.

Lemma generic_store5 T off A : Generic.int5store T off A = store_le 5 T off A.
Proof. apply pokes_store; [lia|]. by rewrite le_bytes_eq. Qed.

Lemma generic_store6 T off A : Generic.int6store T off A = store_le 6 T off A.
Proof. apply pokes_store; [lia|]. by rewrite le_bytes_eq. Qed.

Lemma generic_store2 T off A : Generic.int2store T off A = store_le 2 T off A.
Proof.
  rewrite <- (store_le_wrap 2 T off A 32) by lia.
  apply pokes_store; [lia|]. by rewrite le_bytes_eq.
Qed.

Lemma generic_store8 T off A : Generic.int8store T off A = store_le 8 T off A.
Proof.
  unfold Generic.int8store, to_uint32. rewrite generic_store4, store_le_wrap by lia.
  rewrite <- (store_le_app 4 4). destruct (store_le 4 T off A) as [T'|]; [|done].
  simpl. by rewrite generic_store4, store_le_wrap by lia.
Qed.

(** ** Main results *)

(** All the reads of one header as a record, so that the two headers can be
    compared. *)
Definition generic_reads : list (list Z → option Z) :=
  [Generic.sint2korr; Generic.sint3korr; Generic.sint4korr; Generic.sint8korr;
   Generic.uint2korr; Generic.uint3korr; Generic.uint4korr; Generic.uint5korr;
   Generic.uint6korr; Generic.uint8korr].
Definition x86_64_reads : list (list Z → option Z) :=
  [X86_64.sint2korr; X86_64.sint3korr; X86_64.sint4korr; X86_64.sint8korr;
   X86_64.uint2korr; X86_64.uint3korr; X86_64.uint4korr; X86_64.uint5korr;
   X86_64.uint6korr; X86_64.uint8korr].
Definition generic_stores : list (list Z → nat → Z → option (list Z)) :=
  [Generic.int2store; Generic.int3store; Generic.int4store; Generic.int5store;
   Generic.int6store; Generic.int8store].
Definition x86_64_stores : list (list Z → nat → Z → option (list Z)) :=
  [X86_64.int2store; X86_64.int3store; X86_64.int4store; X86_64.int5store;
   X86_64.int6store; X86_64.int8store].

Lemma swrap_swrap w x : 0 < w → swrap w (swrap w x) = swrap w x.
Proof. intros. apply swrap_id; [done|]. by apply swrap_in_s. Qed.

(** The unsigned loads already are in range. *)
Lemma load_wrap n w A : bytes A → 8 * Z.of_nat n ≤ w →
  (v ← load_le n A 0; Some (wrap w v)) = load_le n A 0.
Proof.
  intros HA Hw. destruct (load_le n A 0) as [v|] eqn:E; [|done]. simpl. f_equal.
  apply load_le_range in E; [|done]. apply wrap_id. unfold in_u in *.
  assert (2 ^ (8 * Z.of_nat n) ≤ 2 ^ w) by (apply Z.pow_le_mono_r; lia). lia.
Qed.

Lemma x86_uint5 A : bytes A → X86_64.uint5korr A = load_le 5 A 0.
Proof.
  intros H. do 5 peel A. unfold X86_64.uint5korr. read_value. f_equal.
  assert (in_u 32 (le_value [z; z0; z1; z2])) by (by apply le_value4_range).
  rewrite shl64_id, lor_shl_add by (unfold in_u in *; lia). cbn [le_value]. lia.
Qed.

Lemma x86_uint6 A : bytes A → X86_64.uint6korr A = load_le 6 A 0.
Proof.
  intros H. do 6 peel A. unfold X86_64.uint6korr. read_value. f_equal.
  assert (in_u 32 (le_value [z; z0; z1; z2])) by (by apply le_value4_range).
  assert (in_u 16 (le_value [z3; z4])) by (apply (le_value_range [_; _]); solve_bytes).
  rewrite shl64_id, lor_shl_add by (unfold in_u in *; lia). cbn [le_value]. lia.
Qed.

Lemma x86_store3 T off A : X86_64.int3store T off A = store_le 3 T off A.
Proof.
  rewrite <- generic_store3. unfold X86_64.int3store, Generic.int3store.
  replace (uchar (Z.shiftr (to_uint32 A) 8)) with (uchar (Z.shiftr A 8)); [done|].
  unfold uchar, to_uint8, to_uint32. bits i Hi. zcases; (done || lia).
Qed.

Lemma x86_store5 T off A : X86_64.int5store T off A = store_le 5 T off A.
Proof.
  rewrite <- (store_le_app 4 1). unfold X86_64.int5store, to_uint32.
  rewrite store_le_wrap by lia. destruct (store_le 4 T off A); [|done]. simpl.
  by rewrite poke_store_le.
Qed.

Lemma x86_store6 T off A : X86_64.int6store T off A = store_le 6 T off A.
Proof.
  rewrite <- (store_le_app 4 2). unfold X86_64.int6store, to_uint32.
  rewrite store_le_wrap by lia. destruct (store_le 4 T off A); [|done]. simpl.
  unfold to_uint16. by rewrite store_le_wrap by lia.
Qed.

(** on every byte buffer the optimised x86-64 reads return exactly what
    the portable ones return, including that both are out of bounds on a buffer
    that is too short. *)
Theorem x86_64_reads_equiv A : bytes A →
  (λ f, f A) <$> x86_64_reads = (λ f, f A) <$> generic_reads.
Proof.
  intros HA. cbn [x86_64_reads generic_reads fmap list_fmap].
  rewrite generic_uint2, generic_uint4, generic_uint5, generic_uint6, generic_uint8,
    generic_sint2, generic_sint4, generic_sint8, x86_uint5, x86_uint6 by done.
  unfold X86_64.uint2korr, X86_64.uint4korr, X86_64.uint8korr, to_uint16, to_uint32, to_ulonglong.
  rewrite !load_wrap by (done || lia).
  unfold X86_64.sint2korr, X86_64.sint4korr, X86_64.sint8korr, to_int16, to_int32, to_longlong.
  assert (∀ n w, 0 < w → (v ← load_le n A 0; Some (swrap w (swrap w v))) = swrap w <$> load_le n A 0)
    as Hs by (intros n w Hw; destruct (load_le n A 0); simpl; by rewrite ?swrap_swrap).
  by rewrite !Hs by lia.
Qed.

Lemma x86_64_reads_equiv_witness :
  (λ f, f [254; 255; 128; 1; 7; 8]) <$> x86_64_reads
  = [Some (-2); Some (-8323074); Some 25231358; None; Some 65534; Some 8454142;
     Some 25231358; Some 30090002430; Some 8826183024638; None].
Proof.
  rewrite (x86_64_reads_equiv [254; 255; 128; 1; 7; 8]); [reflexivity|].
  by repeat (apply List.Forall_cons; [by vm_compute|]).
Defined.

(** the optimised x86-64 stores write exactly the bytes that the portable
    ones write, and refuse the same overruns, for every integer argument. *)
Theorem x86_64_stores_equiv T off A :
  (λ f, f T off A) <$> x86_64_stores = (λ f, f T off A) <$> generic_stores.
Proof.
  cbn [x86_64_stores generic_stores fmap list_fmap].
  rewrite generic_store2, generic_store3, generic_store4, generic_store5,
    generic_store6, generic_store8, x86_store3, x86_store5, x86_store6.
  unfold X86_64.int2store, X86_64.int4store, X86_64.int8store, to_uint16, to_uint32, to_ulonglong.
  by rewrite !store_le_wrap by lia.
Qed.

(** The unsigned read and the signed read that belong to a store of [n] bytes. *)
Definition korr_pair (n : nat) : option ((list Z → option Z) * option (list Z → option Z)) :=
  match n with
  | 2%nat => Some (Generic.uint2korr, Some Generic.sint2korr)
  | 3%nat => Some (Generic.uint3korr, Some Generic.sint3korr)
  | 4%nat => Some (Generic.uint4korr, Some Generic.sint4korr)
  | 5%nat => Some (Generic.uint5korr, None)
  | 6%nat => Some (Generic.uint6korr, None)
  | 8%nat => Some (Generic.uint8korr, Some Generic.sint8korr)
  | _ => None
  end.
Definition store_of (n : nat) : option (list Z → nat → Z → option (list Z)) :=
  match n with
  | 2%nat => Some Generic.int2store | 3%nat => Some Generic.int3store
  | 4%nat => Some Generic.int4store | 5%nat => Some Generic.int5store
  | 6%nat => Some Generic.int6store | 8%nat => Some Generic.int8store
  | _ => None
  end.

Lemma store_of_le n store : store_of n = Some store →
  ∀ T off A, store T off A = store_le n T off A.
Proof.
  intros Hn T off A. destruct n as [|[|[|[|[|[|[|[|[|n]]]]]]]]]; simplify_eq/=.
  - apply generic_store2.
  - apply generic_store3.
  - apply generic_store4.
  - apply generic_store5.
  - apply generic_store6.
  - apply generic_store8.
Qed.

Lemma korr_pair_le n u os : korr_pair n = Some (u, os) → ∀ A, bytes A →
  u A = load_le n A 0 ∧
  ∀ s, os = Some s → s A = swrap (8 * Z.of_nat n) <$> load_le n A 0.
Proof.
  intros Hn A HA. destruct n as [|[|[|[|[|[|[|[|[|n]]]]]]]]]; simplify_eq/=;
    (split; [|intros s Hs; simplify_eq]).
  - by apply generic_uint2.
  - by apply generic_sint2.
  - by apply generic_uint3.
  - by apply generic_sint3.
  - by apply generic_uint4.
  - by apply generic_sint4.
  - by apply generic_uint5.
  - by apply generic_uint6.
  - by apply generic_uint8.
  - by apply generic_sint8.
Qed.

(** A load at an offset is a load from the sub-buffer. *)
Lemma load_le_drop n A off : (off ≤ length A)%nat → load_le n (drop off A) 0 = load_le n A off.
Proof.
  intros H. unfold load_le. rewrite length_drop, drop_drop, Nat.add_0_r.
  repeat case_decide; (lia || done).
Qed.

(** for each store of 2, 3, 4, 5, 6 or 8 bytes that fits the buffer:
    reading the same place back gives the value modulo [2^(8n)] with the
    unsigned macro and the two's complement value with the signed one, and no
    byte before or after the written ones has changed. *)
Theorem int_store_korr_roundtrip n store u os T off A :
  store_of n = Some store → korr_pair n = Some (u, os) →
  bytes T → (off + n ≤ length T)%nat →
  ∃ T', store T off A = Some T' ∧
    u (drop off T') = Some (wrap (8 * Z.of_nat n) A) ∧
    (∀ s, os = Some s → s (drop off T') = Some (swrap (8 * Z.of_nat n) A)) ∧
    length T' = length T ∧ take off T' = take off T ∧ drop (off + n) T' = drop (off + n) T.
Proof.
  intros Hs Hk HT Hl. rewrite (store_of_le n store) by done.
  destruct (store_le n T off A) as [T'|] eqn:E.
  2: { unfold store_le in E. by rewrite decide_True in E. }
  destruct (load_store_le _ _ _ _ _ E) as (Hld & Hlen & Ht & Hd).
  pose proof (store_le_bytes _ _ _ _ _ HT E) as HT'.
  destruct (korr_pair_le n u os Hk (drop off T')) as [Hu Hos]; [by apply Forall_drop|].
  rewrite load_le_drop, Hld in Hu, Hos by lia.
  exists T'. split_and!; try done. intros s ->. rewrite (Hos s) by done. simpl.
  by rewrite swrap_wrap.
Qed.

Lemma int_store_korr_roundtrip_witness :
  ∃ T', Generic.int3store [9; 9; 9; 9; 9] 1 (-2) = Some T' ∧
    Generic.uint3korr (drop 1 T') = Some 16777214 ∧
    Generic.sint3korr (drop 1 T') = Some (-2).
Proof.
  destruct (int_store_korr_roundtrip 3 Generic.int3store Generic.uint3korr
    (Some Generic.sint3korr) [9; 9; 9; 9; 9] 1 (-2)) as (T' & H1 & H2 & H3 & _);
    [reflexivity|reflexivity|by repeat (apply List.Forall_cons; [by vm_compute|])|simpl; lia|].
  exists T'. split; [exact H1|]. split; [exact H2|]. exact (H3 _ eq_refl).
Defined.
