(* ===== verification/MyisamPack.v ===== *)
(** High-byte-first storage of keys and row pointers: the macros of
    [myisampack.h], and the [bswapq] versions of the wide reads in
    [byte_order_generic_x86_64.h].

    [ulong] is 32 bits wide on the platform of the bundled server and 64 bits
    elsewhere; the stores are proved for every width of at least 32.  A
    [float] or [double] object is the list of its bytes in memory order. *)
From S2P Require Import Prelude ByteOrder.

Definition mi_sint1korr (A : list Z) : option Z := a0 ← A.[0]; Some (to_int8 a0).
Definition mi_uint1korr (A : list Z) : option Z := a0 ← A.[0]; Some (to_uint8 a0).

Definition mi_sint2korr (A : list Z) : option Z :=
  a0 ← A.[0]; a1 ← A.[1];
  Some (to_int16 (Z.lor (to_int16 (uchar a1)) (Z.shiftl (to_int16 (to_uint16 (uchar a0))) 8))).

Definition mi_sint3korr (A : list Z) : option Z :=
  a0 ← A.[0]; a1 ← A.[1]; a2 ← A.[2];
  Some (to_int32
    (if truth (Z.land (uchar a0) 128)
     then Z.lor (Z.lor (Z.lor (shl32 255 24) (shl32 (u32b a0) 16))
                       (shl32 (u32b a1) 8)) (u32b a2)
     else Z.lor (Z.lor (shl32 (u32b a0) 16) (shl32 (u32b a1) 8)) (u32b a2))).

Definition mi_sint4korr (A : list Z) : option Z :=
  a0 ← A.[0]; a1 ← A.[1]; a2 ← A.[2]; a3 ← A.[3];
  Some (to_int32
    (Z.lor (Z.lor (Z.lor (u32b a3) (shl32 (u32b a2) 8)) (shl32 (u32b a1) 16))
           (shl32 (u32b a0) 24))).

Definition mi_uint2korr (A : list Z) : option Z :=
  a0 ← A.[0]; a1 ← A.[1];
  Some (to_uint16 (Z.lor (u16b a1) (Z.shiftl (u16b a0) 8))).

Definition mi_uint3korr (A : list Z) : option Z :=
  a0 ← A.[0]; a1 ← A.[1]; a2 ← A.[2];
  Some (to_uint32
    (Z.lor (Z.lor (u32b a2) (shl32 (u32b a1) 8)) (shl32 (u32b a0) 16))).

Definition mi_uint4korr (A : list Z) : option Z :=
  a0 ← A.[0]; a1 ← A.[1]; a2 ← A.[2]; a3 ← A.[3];
  Some (to_uint32
    (Z.lor (Z.lor (Z.lor (u32b a3) (shl32 (u32b a2) 8)) (shl32 (u32b a1) 16))
           (shl32 (u32b a0) 24))).

Definition mi_uint5korr (A : list Z) : option Z :=
  a0 ← A.[0]; a1 ← A.[1]; a2 ← A.[2]; a3 ← A.[3]; a4 ← A.[4];
  Some (Z.lor
    (to_ulonglong
      (Z.lor (Z.lor (Z.lor (u32b a4) (shl32 (u32b a3) 8)) (shl32 (u32b a2) 16))
             (shl32 (u32b a1) 24)))
    (shl64 (u64b a0) 32)).

Definition mi_uint6korr (A : list Z) : option Z :=
  a0 ← A.[0]; a1 ← A.[1]; a2 ← A.[2]; a3 ← A.[3]; a4 ← A.[4]; a5 ← A.[5];
  Some (Z.lor
    (to_ulonglong
      (Z.lor (Z.lor (Z.lor (u32b a5) (shl32 (u32b a4) 8)) (shl32 (u32b a3) 16))
             (shl32 (u32b a2) 24)))
    (shl64 (to_ulonglong (Z.lor (u32b a1) (shl32 (u32b a0) 8))) 32)).

Definition mi_uint7korr (A : list Z) : option Z :=
  a0 ← A.[0]; a1 ← A.[1]; a2 ← A.[2]; a3 ← A.[3];
  a4 ← A.[4]; a5 ← A.[5]; a6 ← A.[6];
  Some (Z.lor
    (to_ulonglong
      (Z.lor (Z.lor (Z.lor (u32b a6) (shl32 (u32b a5) 8)) (shl32 (u32b a4) 16))
             (shl32 (u32b a3) 24)))
    (shl64 (to_ulonglong
      (Z.lor (Z.lor (u32b a2) (shl32 (u32b a1) 8)) (shl32 (u32b a0) 16))) 32)).

Definition mi_uint8korr (A : list Z) : option Z :=
  a0 ← A.[0]; a1 ← A.[1]; a2 ← A.[2]; a3 ← A.[3];
  a4 ← A.[4]; a5 ← A.[5]; a6 ← A.[6]; a7 ← A.[7];
  Some (Z.lor
    (to_ulonglong
      (Z.lor (Z.lor (Z.lor (u32b a7) (shl32 (u32b a6) 8)) (shl32 (u32b a5) 16))
             (shl32 (u32b a4) 24)))
    (shl64 (to_ulonglong
      (Z.lor (Z.lor (Z.lor (u32b a3) (shl32 (u32b a2) 8)) (shl32 (u32b a1) 16))
             (shl32 (u32b a0) 24))) 32)).

Definition mi_sint8korr (A : list Z) : option Z :=
  v ← mi_uint8korr A; Some (to_longlong v).

(** ** The [bswapq] reads *)

(** The [bswapq] instruction: the eight bytes of a register in the opposite
    order. *)
Definition bswapq (v : Z) : Z := le_value (rev (le_bytes 8 v)).

Module Swap.
Definition mi_uint5korr (p : list Z) : option Z :=
  a ← load_le 4 p 0;
  b ← p.[4];
  let v := shl64 (Z.lor a (shl64 b 32)) 24 in
  Some (bswapq v).

Definition mi_uint6korr (p : list Z) : option Z :=
  a ← load_le 4 p 0;
  b ← load_le 2 p 4;
  let v := shl64 (Z.lor a (shl64 b 32)) 16 in
  Some (bswapq v).

Definition mi_uint7korr (p : list Z) : option Z :=
  a ← load_le 4 p 0;
  b ← load_le 2 p 4;
  c ← p.[6];
  let v := shl64 (Z.lor (Z.lor a (shl64 b 32)) (shl64 c 48)) 8 in
  Some (bswapq v).

Definition mi_uint8korr (p : list Z) : option Z :=
  v ← load_le 8 p 0;
  Some (bswapq v).
End Swap.

(** ** Stores *)

Section Stores.
(** Width of [ulong]. *)
Variable ulong_bits : Z.
Definition to_ulong : Z → Z := wrap ulong_bits.

Definition mi_int1store (T : list Z) (off : nat) (A : Z) : option (list Z) :=
  pokes T off [(0%nat, uchar A)].

Definition mi_int2store (T : list Z) (off : nat) (A : Z) : option (list Z) :=
  let def_temp := to_uint32 A in
  pokes T off [(1%nat, uchar def_temp); (0%nat, uchar (Z.shiftr def_temp 8))].

Definition mi_int3store (T : list Z) (off : nat) (A : Z) : option (list Z) :=
  let def_temp := to_ulong A in
  pokes T off [(2%nat, uchar def_temp); (1%nat, uchar (Z.shiftr def_temp 8));
               (0%nat, uchar (Z.shiftr def_temp 16))].

Definition mi_int4store (T : list Z) (off : nat) (A : Z) : option (list Z) :=
  let def_temp := to_ulong A in
  pokes T off [(3%nat, uchar def_temp); (2%nat, uchar (Z.shiftr def_temp 8));
               (1%nat, uchar (Z.shiftr def_temp 16)); (0%nat, uchar (Z.shiftr def_temp 24))].

Definition mi_int5store (T : list Z) (off : nat) (A : Z) : option (list Z) :=
  let def_temp := to_ulong A in
  let def_temp2 := to_ulong (Z.shiftr A 32) in
  pokes T off [(4%nat, uchar def_temp); (3%nat, uchar (Z.shiftr def_temp 8));
               (2%nat, uchar (Z.shiftr def_temp 16)); (1%nat, uchar (Z.shiftr def_temp 24));
               (0%nat, uchar def_temp2)].

Definition mi_int6store (T : list Z) (off : nat) (A : Z) : option (list Z) :=
  let def_temp := to_ulong A in
  let def_temp2 := to_ulong (Z.shiftr A 32) in
  pokes T off [(5%nat, uchar def_temp); (4%nat, uchar (Z.shiftr def_temp 8));
               (3%nat, uchar (Z.shiftr def_temp 16)); (2%nat, uchar (Z.shiftr def_temp 24));
               (1%nat, uchar def_temp2); (0%nat, uchar (Z.shiftr def_temp2 8))].

Definition mi_int7store (T : list Z) (off : nat) (A : Z) : option (list Z) :=
  let def_temp := to_ulong A in
  let def_temp2 := to_ulong (Z.shiftr A 32) in
  pokes T off [(6%nat, uchar def_temp); (5%nat, uchar (Z.shiftr def_temp 8));
               (4%nat, uchar (Z.shiftr def_temp 16)); (3%nat, uchar (Z.shiftr def_temp 24));
               (2%nat, uchar def_temp2); (1%nat, uchar (Z.shiftr def_temp2 8));
               (0%nat, uchar (Z.shiftr def_temp2 16))].

Definition mi_int8store (T : list Z) (off : nat) (A : Z) : option (list Z) :=
  let def_temp3 := to_ulong A in
  let def_temp4 := to_ulong (Z.shiftr A 32) in
  T ← mi_int4store T (off + 0) def_temp4;
  mi_int4store T (off + 4) def_temp3.

(** [ha_rows] pointers with and without [BIG_TABLES]. *)
Definition mi_rowstore (big_tables : bool) (T : list Z) (off : nat) (A : Z) : option (list Z) :=
  if big_tables then mi_int8store T off A
  else T ← mi_int4store T off 0; mi_int4store T (off + 4) A.

(** File offsets, [SIZEOF_OFF_T > 4] or not; the narrow version stores the
    error value [HA_OFFSET_ERROR] (all bits set) as eight bytes 255. *)
Definition mi_sizestore (off_bits : Z) (T : list Z) (off : nat) (A : Z) : option (list Z) :=
  if 32 <? off_bits then mi_int8store T off A
  else if A =? 2 ^ off_bits - 1
  then pokes T off (zip (seq 0 8) (replicate 8 255))
  else T ← mi_int4store T off 0; mi_int4store T (off + 4) A.
End Stores.

Definition mi_rowkorr (big_tables : bool) (T : list Z) : option Z :=
  if big_tables then mi_uint8korr T else mi_uint4korr (drop 4 T).

Definition mi_sizekorr (off_bits : Z) (T : list Z) : option Z :=
  if 32 <? off_bits then mi_uint8korr T else mi_uint4korr (drop 4 T).

(** ** Floating point objects *)

(** Byte order of the machine's floating point objects. *)
Inductive float_order := words_bigendian | float_word_order_big | float_little.

(** Copies bytes between an object and a buffer: entry [j] of the list is the
    index of the object's byte that goes to [T[j]]. *)
Definition float_store (perm : list nat) (T : list Z) (off : nat) (V : list Z) : option (list Z) :=
  vs ← mapM (λ i, V !! i) perm; pokes T off (zip (seq 0 (length perm)) vs).

(** The reverse copy: entry [i] of the list is the index in [M] of the byte
    that goes to byte [i] of the object. *)
Definition float_get (perm : list nat) (M : list Z) : option (list Z) :=
  mapM (λ j, M !! j) perm.

Definition mi_float4_perm (o : float_order) : list nat :=
  match o with
  | words_bigendian => [0; 1; 2; 3]%nat
  | _ => [3; 2; 1; 0]%nat
  end.
Definition mi_float8_perm (o : float_order) : list nat :=
  match o with
  | words_bigendian => [0; 1; 2; 3; 4; 5; 6; 7]%nat
  | float_word_order_big => [3; 2; 1; 0; 7; 6; 5; 4]%nat
  | float_little => [7; 6; 5; 4; 3; 2; 1; 0]%nat
  end.
Definition mi_float4store (o : float_order) : list Z → nat → list Z → option (list Z) :=
  float_store (mi_float4_perm o).
Definition mi_float4get (o : float_order) : list Z → option (list Z) :=
  float_get (mi_float4_perm o).
Definition mi_float8store (o : float_order) : list Z → nat → list Z → option (list Z) :=
  float_store (mi_float8_perm o).
Definition mi_float8get (o : float_order) : list Z → option (list Z) :=
  float_get (mi_float8_perm o).

(** ** Reference: big-endian loads and stores *)

Definition load_be (n : nat) (A : list Z) : option Z :=
  if decide (n ≤ length A)%nat then Some (le_value (rev (take n A))) else None.

Definition store_be (n : nat) (T : list Z) (off : nat) (v : Z) : option (list Z) :=
  if decide (off + n ≤ length T)%nat
  then Some (take off T ++ rev (le_bytes n v) ++ drop (off + n) T) else None.

Ltac read_be :=
  unfold load_be; rewrite decide_True by (simpl; lia);
  cbn [take rev app mbind option_bind lookup list_lookup fmap option_fmap option_map];
  rewrite ?take_0; cbn [rev app].

Lemma mi_uint2 A : bytes A → mi_uint2korr A = load_be 2 A.
Proof.
  intros H. do 2 peel A. unfold mi_uint2korr. read_be. f_equal.
  rewrite or2_value by done. apply wrap_id, (le_value_range [_; _]). solve_bytes.
Qed.

Lemma mi_uint3 A : bytes A → mi_uint3korr A = load_be 3 A.
Proof.
  intros H. do 3 peel A. unfold mi_uint3korr. read_be. f_equal.
  rewrite or3_value by done. apply wrap_id.
  assert (in_u 24 (le_value [z1; z0; z])) as Hr
    by (apply (le_value_range [_; _; _]); solve_bytes).
  unfold in_u in *. lia.
Qed.

Lemma mi_uint4 A : bytes A → mi_uint4korr A = load_be 4 A.
Proof.
  intros H. do 4 peel A. unfold mi_uint4korr. read_be. f_equal.
  rewrite or4_value by done. by apply wrap_id, le_value4_range.
Qed.

Lemma mi_uint5 A : bytes A → mi_uint5korr A = load_be 5 A.
Proof.
  intros H. do 5 peel A. unfold mi_uint5korr. read_be. f_equal.
  rewrite or4_value, u64b_byte by done.
  rewrite or_high_value by (by apply le_value4_range || (unfold in_u in *; lia)).
  cbn [le_value]. lia.
Qed.

Lemma mi_uint6 A : bytes A → mi_uint6korr A = load_be 6 A.
Proof.
  intros H. do 6 peel A. unfold mi_uint6korr. read_be. f_equal.
  rewrite or4_value, !u32b_byte by done.
  rewrite shl32_id, (lor_shl_add 8) by (unfold in_u in *; lia).
  unfold to_ulonglong at 2. rewrite (wrap_id 64 (z0 + _)) by (unfold in_u in *; lia).
  rewrite or_high_value by (by apply le_value4_range || (unfold in_u in *; lia)).
  cbn [le_value]. lia.
Qed.

Lemma mi_uint7 A : bytes A → mi_uint7korr A = load_be 7 A.
Proof.
  intros H. do 7 peel A. unfold mi_uint7korr. read_be. f_equal.
  rewrite or4_value, or3_value by done.
  assert (in_u 24 (le_value [z1; z0; z])) as Hr
    by (apply (le_value_range [_; _; _]); solve_bytes).
  replace (to_ulonglong (le_value [z1; z0; z])) with (le_value [z1; z0; z])
    by (symmetry; apply wrap_id; unfold in_u in *; lia).
  rewrite or_high_value by (by apply le_value4_range || (unfold in_u in *; lia)).
  cbn [le_value]. lia.
Qed.

Lemma mi_uint8 A : bytes A → mi_uint8korr A = load_be 8 A.
Proof.
  intros H. do 8 peel A. unfold mi_uint8korr. read_be. f_equal.
  rewrite !or4_value by done.
  assert (in_u 32 (le_value [z2; z1; z0; z])) by (by apply le_value4_range).
  replace (to_ulonglong (le_value [z2; z1; z0; z])) with (le_value [z2; z1; z0; z])
    by (symmetry; apply wrap_id; unfold in_u in *; lia).
  rewrite or_high_value by (done || by apply le_value4_range).
  cbn [le_value]. lia.
Qed.

Lemma mi_uint1 A : bytes A → mi_uint1korr A = load_be 1 A.
Proof.
  intros H. peel A. unfold mi_uint1korr. read_be. f_equal. cbn [le_value].
  rewrite Z.mul_0_r, Z.add_0_r. by apply wrap_id.
Qed.

Lemma mi_sint1 A : bytes A → mi_sint1korr A = swrap 8 <$> load_be 1 A.
Proof.
  intros H. peel A. unfold mi_sint1korr. read_be. f_equal. cbn [le_value].
  by rewrite Z.mul_0_r, Z.add_0_r.
Qed.

Lemma mi_sint2 A : bytes A → mi_sint2korr A = swrap 16 <$> load_be 2 A.
Proof.
  intros H. do 2 peel A. unfold mi_sint2korr. read_be. f_equal.
  change (to_uint16 (uchar z)) with (u16b z). rewrite u16b_byte by done.
  by rewrite sor2_value.
Qed.

Lemma mi_sint3 A : bytes A → mi_sint3korr A = swrap 24 <$> load_be 3 A.
Proof.
  intros H. do 3 peel A. unfold mi_sint3korr. read_be. f_equal. by apply sor3_value.
Qed.

Lemma mi_sint4 A : bytes A → mi_sint4korr A = swrap 32 <$> load_be 4 A.
Proof.
  intros H. do 4 peel A. unfold mi_sint4korr. read_be. f_equal. by rewrite or4_value.
Qed.

Lemma mi_sint8 A : bytes A → mi_sint8korr A = swrap 64 <$> load_be 8 A.
Proof. intros H. unfold mi_sint8korr. rewrite mi_uint8 by done. by destruct (load_be 8 A). Qed.

(** ** Byte swapping *)

Lemma le_value_app l r : bytes l →
  le_value (l ++ r) = le_value l + 2 ^ (8 * Z.of_nat (length l)) * le_value r.
Proof.
  induction 1 as [|b l Hb Hl IH]; [simpl app; cbn [le_value length]; lia|].
  cbn [le_value length app]. rewrite IH.
  replace (8 * Z.of_nat (S (length l))) with (8 + 8 * Z.of_nat (length l)) by lia.
  rewrite Z.pow_add_r by lia. lia.
Qed.

(** Shifting a value left by whole bytes and swapping reverses its bytes. *)
Lemma bswapq_shifted k l : bytes l → (length l + k = 8)%nat →
  bswapq (shl64 (le_value l) (8 * Z.of_nat k)) = le_value (rev l).
Proof.
  intros Hl Hk. unfold bswapq.
  assert (shl64 (le_value l) (8 * Z.of_nat k) = le_value (replicate k 0 ++ l)) as ->.
  { rewrite le_value_app by (apply Forall_replicate; by vm_compute).
    replace (le_value (replicate k 0)) with 0
      by (clear Hk; induction k as [|k IH]; cbn [replicate le_value]; lia).
    rewrite length_replicate. pose proof (le_value_range l Hl) as [? Hr].
    rewrite shl64_id; [rewrite Z.shiftl_mul_pow2 by lia; lia|lia|done|].
    replace 64 with (8 * Z.of_nat (length l) + 8 * Z.of_nat k) by lia.
    rewrite Z.pow_add_r by lia. nia. }
  replace 8%nat with (length (replicate k 0 ++ l)) by (rewrite length_app, length_replicate; lia).
  rewrite le_bytes_le_value by (apply Forall_app; split; [apply Forall_replicate; by vm_compute|done]).
  rewrite rev_app_distr, le_value_app by (by apply Forall_rev).
  rewrite (rev_alt (replicate k 0)). fold (reverse (replicate k 0)).
  rewrite reverse_replicate.
  replace (le_value (replicate k 0)) with 0
    by (clear Hk; induction k as [|k IH]; cbn [replicate le_value]; lia). lia.
Qed.

Lemma swap_uint5 A : bytes A → Swap.mi_uint5korr A = load_be 5 A.
Proof.
  intros H. do 5 peel A. unfold Swap.mi_uint5korr. read_value. read_be. f_equal.
  assert (in_u 32 (le_value [z; z0; z1; z2])) by (by apply le_value4_range).
  rewrite (shl64_id z3), lor_shl_add by (unfold in_u in *; lia).
  etransitivity; [|apply (bswapq_shifted 3 [z; z0; z1; z2; z3]); [solve_bytes|done]].
  do 2 f_equal. cbn [le_value]. lia.
Qed.

Lemma swap_uint6 A : bytes A → Swap.mi_uint6korr A = load_be 6 A.
Proof.
  intros H. do 6 peel A. unfold Swap.mi_uint6korr. read_value. read_be. f_equal.
  assert (in_u 32 (le_value [z; z0; z1; z2])) by (by apply le_value4_range).
  assert (in_u 16 (le_value [z3; z4])) by (apply (le_value_range [_; _]); solve_bytes).
  rewrite (shl64_id (le_value [z3; z4])), lor_shl_add by (unfold in_u in *; lia).
  etransitivity; [|apply (bswapq_shifted 2 [z; z0; z1; z2; z3; z4]); [solve_bytes|done]].
  do 2 f_equal. cbn [le_value]. lia.
Qed.

Lemma swap_uint7 A : bytes A → Swap.mi_uint7korr A = load_be 7 A.
Proof.
  intros H. do 7 peel A. unfold Swap.mi_uint7korr. read_value. read_be. f_equal.
  assert (in_u 32 (le_value [z; z0; z1; z2])) by (by apply le_value4_range).
  assert (in_u 16 (le_value [z3; z4])) by (apply (le_value_range [_; _]); solve_bytes).
  rewrite (shl64_id (le_value [z3; z4])), (shl64_id z5), (lor_shl_add 32),
    (lor_shl_add 48) by (unfold in_u in *; lia).
  etransitivity; [|apply (bswapq_shifted 1 [z; z0; z1; z2; z3; z4; z5]); [solve_bytes|done]].
  do 2 f_equal. cbn [le_value]. lia.
Qed.

Lemma swap_uint8 A : bytes A → Swap.mi_uint8korr A = load_be 8 A.
Proof.
  intros H. do 8 peel A. unfold Swap.mi_uint8korr. read_value. read_be. f_equal.
  etransitivity; [|apply (bswapq_shifted 0 [z; z0; z1; z2; z3; z4; z5; z6]); [solve_bytes|done]].
  f_equal. symmetry. unfold shl64. rewrite Z.shiftl_0_r. apply wrap_id.
  apply (le_value_range [_; _; _; _; _; _; _; _]). solve_bytes.
Qed.

(** ** Stores *)

(** Assignments from the last byte to the first. *)
Lemma pokes_store_be n T off A l : (0 < n)%nat →
  l = rev (zip (seq 0 n) (rev (le_bytes n A))) → pokes T off l = store_be n T off A.
Proof.
  intros Hn ->. set (vs := rev (le_bytes n A)).
  assert (length vs = n) as Hl by (unfold vs; by rewrite length_rev, length_le_bytes).
  assert (NoDup (zip (seq 0 n) vs).*1) as Hnd.
  { rewrite fst_zip by (rewrite length_seq; lia). apply NoDup_seq. }
  rewrite <- (pokes_perm T off (zip (seq 0 n) vs)) by (done || apply Permutation_rev).
  rewrite <- Hl at 1. unfold store_be. fold vs. case_decide.
  - rewrite pokes_seq by lia. by rewrite Hl, Nat.add_0_r.
  - apply pokes_seq_overrun; [|lia]. intros E. rewrite E in Hl. simpl in Hl. lia.
Qed.

Lemma store_be_wrap n T off v w : 8 * Z.of_nat n ≤ w →
  store_be n T off (wrap w v) = store_be n T off v.
Proof. intros. unfold store_be. by rewrite le_bytes_wrap. Qed.

(** A byte of a value that was converted to a wide enough type first. *)
Lemma uchar_shiftr_wrap w v k : 0 ≤ k → k + 8 ≤ w →
  uchar (Z.shiftr (wrap w v) k) = uchar (Z.shiftr v k).
Proof. intros. unfold uchar, to_uint8. bits i Hi. zcases; (done || lia). Qed.

Lemma uchar_wrap w v : 8 ≤ w → uchar (wrap w v) = uchar v.
Proof. intros. apply (uchar_shiftr_wrap w v 0); lia. Qed.

Section StoreProofs.
Context (w : Z) (Hw : 32 ≤ w).

Ltac store_be_tac :=
  apply pokes_store_be; [lia|]; rewrite le_bytes_eq;
  unfold to_ulong, to_uint32;
  rewrite ?uchar_shiftr_wrap, ?uchar_wrap, ?Z.shiftr_shiftr by lia; reflexivity.

Lemma mi_store1 T off A : mi_int1store T off A = store_be 1 T off A.
Proof. unfold mi_int1store. store_be_tac. Qed.
Lemma mi_store2 T off A : mi_int2store T off A = store_be 2 T off A.
Proof. unfold mi_int2store. cbv zeta. store_be_tac. Qed.
Lemma mi_store3 T off A : mi_int3store w T off A = store_be 3 T off A.
Proof. unfold mi_int3store. cbv zeta. store_be_tac. Qed.
Lemma mi_store4 T off A : mi_int4store w T off A = store_be 4 T off A.
Proof. unfold mi_int4store. cbv zeta. store_be_tac. Qed.
Lemma mi_store5 T off A : mi_int5store w T off A = store_be 5 T off A.
Proof. unfold mi_int5store. cbv zeta. store_be_tac. Qed.
Lemma mi_store6 T off A : mi_int6store w T off A = store_be 6 T off A.
Proof. unfold mi_int6store. cbv zeta. store_be_tac. Qed.
Lemma mi_store7 T off A : mi_int7store w T off A = store_be 7 T off A.
Proof. unfold mi_int7store. cbv zeta. store_be_tac. Qed.

(** Storing the high half, then the low half. *)
Lemma store_be_app a b T off v :
  (T' ← store_be a T off (Z.shiftr v (8 * Z.of_nat b)); store_be b T' (off + a) v)
  = store_be (b + a) T off v.
Proof.
  rewrite Z.shiftr_div_pow2 by lia. unfold store_be at 2.
  destruct (decide (off + a ≤ length T)%nat) as [Ha|Ha]; simpl;
    [|unfold store_be; by rewrite decide_False by lia].
  assert (length (take off T) = off) as Hl by (rewrite length_take; lia).
  unfold store_be. rewrite !length_app, length_rev, length_le_bytes, length_drop, Hl.
  repeat case_decide; try lia; [|done]. f_equal.
  set (v' := v / _). rewrite !(app_assoc (take off T) (rev (le_bytes a v'))).
  set (hd := take off T ++ rev (le_bytes a v')).
  assert (length hd = off + a)%nat as Hh
    by (unfold hd; by rewrite length_app, length_rev, length_le_bytes, Hl).
  rewrite take_app_length', drop_app_ge, drop_drop, Hh by lia.
  unfold hd. rewrite le_bytes_app, rev_app_distr, <- !app_assoc. do 4 f_equal. lia.
Qed.

Lemma mi_store8 T off A : mi_int8store w T off A = store_be 8 T off A.
Proof.
  unfold mi_int8store, to_ulong. rewrite mi_store4, store_be_wrap, Nat.add_0_r by lia.
  rewrite <- (store_be_app 4 4). change (8 * Z.of_nat 4) with 32.
  destruct (store_be 4 T off _) as [T'|]; [|done].
  simpl. by rewrite mi_store4, store_be_wrap by lia.
Qed.
End StoreProofs.

(** Reading back a big-endian store. *)
Lemma load_store_be n T off v T' : bytes T → store_be n T off v = Some T' →
  load_be n (drop off T') = Some (wrap (8 * Z.of_nat n) v) ∧ bytes T' ∧
  length T' = length T ∧ take off T' = take off T ∧ drop (off + n) T' = drop (off + n) T.
Proof.
  unfold store_be, load_be. intros HT. case_decide as H; [|done]. intros [= <-].
  assert (length (take off T) = off) as Hl by (rewrite length_take; lia).
  assert (length (rev (le_bytes n v)) = n) as Hr by (by rewrite length_rev, length_le_bytes).
  rewrite drop_app_length', !length_app, Hr, length_drop, Hl by done.
  rewrite decide_True by lia. split_and!; [| |lia| |].
  - rewrite take_app_length', rev_involutive by done. by rewrite le_value_le_bytes.
  - apply Forall_app. split; [by apply Forall_take|]. apply Forall_app.
    split; [apply Forall_rev, le_bytes_bytes|by apply Forall_drop].
  - by rewrite take_app_length'.
  - rewrite app_assoc, drop_app_length'; [done|]. by rewrite length_app, Hr, Hl.
Qed.

(** ** Order *)

(** [memcmp] on two buffers of the same length. *)
Fixpoint memcmp (l r : list Z) : comparison :=
  match l, r with
  | a :: l, b :: r => match a ?= b with Eq => memcmp l r | c => c end
  | _, _ => Eq
  end.

Lemma be_bytes_S n v :
  rev (le_bytes (S n) v) = (v / 2 ^ (8 * Z.of_nat n)) mod 2 ^ 8 :: rev (le_bytes n v).
Proof.
  replace (S n) with (n + 1)%nat by lia. rewrite le_bytes_app, rev_app_distr. done.
Qed.

Lemma memcmp_be n u v :
  memcmp (rev (le_bytes n u)) (rev (le_bytes n v))
  = (wrap (8 * Z.of_nat n) u ?= wrap (8 * Z.of_nat n) v).
Proof.
  induction n as [|n IH]; [unfold wrap; by rewrite !Z.mod_1_r|].
  rewrite !be_bytes_S. simpl memcmp. rewrite IH. unfold wrap.
  replace (8 * Z.of_nat (S n)) with (8 * Z.of_nat n + 8) by lia.
  rewrite Z.pow_add_r, !Z.rem_mul_r by lia.
  set (p := 2 ^ (8 * Z.of_nat n)). assert (0 < p) by (unfold p; lia).
  pose proof (Z.mod_pos_bound u p). pose proof (Z.mod_pos_bound v p).
  destruct (Z.compare_spec ((u / p) mod 2 ^ 8) ((v / p) mod 2 ^ 8)) as [E|Hl|Hg].
  - rewrite E. destruct (Z.compare_spec (u mod p) (v mod p)); symmetry;
      [apply Z.compare_eq_iff|apply Z.compare_lt_iff|apply Z.compare_gt_iff]; lia.
  - symmetry. apply Z.compare_lt_iff. nia.
  - symmetry. apply Z.compare_gt_iff. nia.
Qed.

(** ** Main results *)

Definition mi_store_of (w : Z) (n : nat) : option (list Z → nat → Z → option (list Z)) :=
  match n with
  | 1%nat => Some mi_int1store | 2%nat => Some mi_int2store
  | 3%nat => Some (mi_int3store w) | 4%nat => Some (mi_int4store w)
  | 5%nat => Some (mi_int5store w) | 6%nat => Some (mi_int6store w)
  | 7%nat => Some (mi_int7store w) | 8%nat => Some (mi_int8store w)
  | _ => None
  end.

Definition mi_korr_of (n : nat) : option ((list Z → option Z) * option (list Z → option Z)) :=
  match n with
  | 1%nat => Some (mi_uint1korr, Some mi_sint1korr)
  | 2%nat => Some (mi_uint2korr, Some mi_sint2korr)
  | 3%nat => Some (mi_uint3korr, Some mi_sint3korr)
  | 4%nat => Some (mi_uint4korr, Some mi_sint4korr)
  | 5%nat => Some (mi_uint5korr, None)
  | 6%nat => Some (mi_uint6korr, None)
  | 7%nat => Some (mi_uint7korr, None)
  | 8%nat => Some (mi_uint8korr, Some mi_sint8korr)
  | _ => None
  end.

Lemma mi_store_of_be w n store : 32 ≤ w → mi_store_of w n = Some store →
  ∀ T off A, store T off A = store_be n T off A.
Proof.
  intros Hw Hn T off A. destruct n as [|[|[|[|[|[|[|[|[|n]]]]]]]]]; simplify_eq/=.
  - apply mi_store1.
  - apply mi_store2.
  - by apply mi_store3.
  - by apply mi_store4.
  - by apply mi_store5.
  - by apply mi_store6.
  - by apply mi_store7.
  - by apply mi_store8.
Qed.

Lemma mi_korr_of_be n u os : mi_korr_of n = Some (u, os) → ∀ A, bytes A →
  u A = load_be n A ∧
  ∀ s, os = Some s → s A = swrap (8 * Z.of_nat n) <$> load_be n A.
Proof.
  intros Hn A HA. destruct n as [|[|[|[|[|[|[|[|[|n]]]]]]]]]; simplify_eq/=;
    (split; [|intros s Hs; simplify_eq]).
  - by apply mi_uint1.
  - by apply mi_sint1.
  - by apply mi_uint2.
  - by apply mi_sint2.
  - by apply mi_uint3.
  - by apply mi_sint3.
  - by apply mi_uint4.
  - by apply mi_sint4.
  - by apply mi_uint5.
  - by apply mi_uint6.
  - by apply mi_uint7.
  - by apply mi_uint8.
  - by apply mi_sint8.
Qed.

Lemma store_be_defined n T off A : (off + n ≤ length T)%nat → is_Some (store_be n T off A).
Proof. intros. unfold store_be. rewrite decide_True by done. by eexists. Qed.

(** each of the eight high-byte-first stores that fits the buffer is undone
    by the read macros of its width (modulo [2^(8n)] unsigned, two's complement
    signed), leaves all other bytes alone, and writes bytes whose [memcmp] order
    is the numeric order of the stored unsigned values, which is what index
    pages compare. *)
Theorem mi_store_korr_roundtrip w n store u os T off A :
  32 ≤ w → mi_store_of w n = Some store → mi_korr_of n = Some (u, os) →
  bytes T → (off + n ≤ length T)%nat →
  ∃ T', store T off A = Some T' ∧
    u (drop off T') = Some (wrap (8 * Z.of_nat n) A) ∧
    (∀ s, os = Some s → s (drop off T') = Some (swrap (8 * Z.of_nat n) A)) ∧
    take off T' = take off T ∧ drop (off + n) T' = drop (off + n) T ∧
    ∀ B T'', store T off B = Some T'' →
      memcmp (take n (drop off T')) (take n (drop off T''))
      = (wrap (8 * Z.of_nat n) A ?= wrap (8 * Z.of_nat n) B).
Proof.
  intros Hw Hs Hk HT Hl. rewrite (mi_store_of_be w n store) by done.
  destruct (store_be_defined n T off A Hl) as [T' E]. exists T'.
  destruct (load_store_be _ _ _ _ _ HT E) as (Hld & HT' & _ & Ht & Hd).
  destruct (mi_korr_of_be n u os Hk (drop off T')) as [Hu Hos]; [by apply Forall_drop|].
  rewrite Hld in Hu, Hos. split_and!; try done.
  - intros s ->. rewrite (Hos s) by done. simpl. by rewrite swrap_wrap.
  - intros B T''. rewrite (mi_store_of_be w n store) by done. intros E'.
    rewrite <- memcmp_be. unfold store_be in E, E'. rewrite decide_True in E, E' by done.
    assert (length (take off T) = off) as Hlen by (rewrite length_take; lia).
    injection E as <-. injection E' as <-. rewrite !drop_app_length' by done.
    by rewrite !take_app_length' by (by rewrite length_rev, length_le_bytes).
Qed.

Lemma mi_store_korr_roundtrip_witness :
  ∃ T', mi_int3store 32 [9; 9; 9; 9; 9] 1 (-2) = Some T' ∧
    mi_uint3korr (drop 1 T') = Some 16777214 ∧ mi_sint3korr (drop 1 T') = Some (-2).
Proof.
  destruct (mi_store_korr_roundtrip 32 3 (mi_int3store 32) mi_uint3korr (Some mi_sint3korr)
    [9; 9; 9; 9; 9] 1 (-2)) as (T' & H1 & H2 & H3 & _);
    [lia|reflexivity|reflexivity|by repeat (apply List.Forall_cons; [by vm_compute|])|simpl; lia|].
  exists T'. split; [exact H1|]. split; [exact H2|]. exact (H3 _ eq_refl).
Defined.

(** the reads of 5 to 8 bytes that load little-endian words and reverse
    them with [bswapq] return what the portable byte-by-byte macros return, on
    every byte buffer. *)
Theorem mi_swap_reads_equiv A : bytes A →
  Swap.mi_uint5korr A = mi_uint5korr A ∧ Swap.mi_uint6korr A = mi_uint6korr A ∧
  Swap.mi_uint7korr A = mi_uint7korr A ∧ Swap.mi_uint8korr A = mi_uint8korr A.
Proof.
  intros HA. rewrite swap_uint5, swap_uint6, swap_uint7, swap_uint8 by done.
  by rewrite mi_uint5, mi_uint6, mi_uint7, mi_uint8.
Qed.

Lemma mi_swap_reads_equiv_witness :
  Swap.mi_uint5korr [1; 2; 3; 4; 5; 6; 7] = Some 0x0102030405 ∧
  Swap.mi_uint7korr [1; 2; 3; 4; 5; 6; 7] = Some 0x01020304050607.
Proof.
  destruct (mi_swap_reads_equiv [1; 2; 3; 4; 5; 6; 7]) as (H5 & _ & H7 & _).
  { by repeat (apply List.Forall_cons; [by vm_compute|]). }
  rewrite H5, H7. split; reflexivity.
Defined.

(** A copy through a byte permutation that is its own inverse on [V]. *)
Lemma float_roundtrip perm T off V vs :
  mapM (λ i, V !! i) perm = Some vs → mapM (λ i, vs !! i) perm = Some V →
  (off + length perm ≤ length T)%nat →
  ∃ T', float_store perm T off V = Some T' ∧ float_get perm (drop off T') = Some V.
Proof.
  intros Hs Hg Hl. unfold float_store, float_get. rewrite Hs. simpl.
  assert (length vs = length perm) as Hlen
    by (symmetry; apply mapM_Some_1 in Hs; by apply Forall2_length in Hs).
  rewrite <- Hlen, pokes_seq by lia. eexists. split; [done|].
  rewrite Nat.add_0_r, drop_app_length' by (rewrite length_take; lia).
  apply mapM_Some_2. apply mapM_Some_1 in Hg. eapply Forall2_impl; [done|].
  intros i v Hv. simpl in *. by apply lookup_app_l_Some.
Qed.

(** a [float] or [double] object copied to a buffer with [mi_float4store]
    or [mi_float8store] and back is unchanged, for the three floating point
    layouts the header distinguishes; on the two pure layouts the buffer holds
    the object's bytes from the most significant one down. *)
Theorem mi_float_roundtrip o T off V4 V8 :
  length V4 = 4%nat → length V8 = 8%nat → (off + 8 ≤ length T)%nat →
  (∃ T', mi_float4store o T off V4 = Some T' ∧ mi_float4get o (drop off T') = Some V4) ∧
  (∃ T', mi_float8store o T off V8 = Some T' ∧ mi_float8get o (drop off T') = Some V8).
Proof.
  intros H4 H8 Hl.
  do 4 (destruct V4 as [|? V4]; [done|]). destruct V4; [|done].
  do 8 (destruct V8 as [|? V8]; [done|]). destruct V8; [|done].
  split; destruct o; (eapply float_roundtrip; [reflexivity|reflexivity|simpl; lia]).
Qed.

Lemma mi_float_roundtrip_witness :
  ∃ T', mi_float8store float_word_order_big (replicate 9 0) 1 [1; 2; 3; 4; 5; 6; 7; 8] = Some T' ∧
    mi_float8get float_word_order_big (drop 1 T') = Some [1; 2; 3; 4; 5; 6; 7; 8].
Proof.
  exact (proj2 (mi_float_roundtrip float_word_order_big (replicate 9 0) 1 [1; 2; 3; 4]
    [1; 2; 3; 4; 5; 6; 7; 8] eq_refl eq_refl ltac:(simpl; lia))).
Defined.

(** row pointers and file offsets: whatever the build options
    ([BIG_TABLES], [SIZEOF_OFF_T]), eight bytes are written and the matching
    read returns the value; a pointer written by a narrow build is read
    unchanged by a wide one, and the narrow encoding of [HA_OFFSET_ERROR] is
    read as the wide [HA_OFFSET_ERROR]. *)
Theorem mi_pointer_roundtrip w T off A :
  32 ≤ w → bytes T → (off + 8 ≤ length T)%nat → in_u 32 A →
  (∃ T', mi_rowstore w true T off A = Some T' ∧ mi_rowkorr true (drop off T') = Some A) ∧
  (∃ T', mi_rowstore w false T off A = Some T' ∧
     mi_rowkorr false (drop off T') = Some A ∧ mi_rowkorr true (drop off T') = Some A) ∧
  (∃ T', mi_sizestore w 64 T off A = Some T' ∧ mi_sizekorr 64 (drop off T') = Some A) ∧
  (∃ T', mi_sizestore w 32 T off A = Some T' ∧ mi_sizekorr 32 (drop off T') = Some A ∧
     mi_sizekorr 64 (drop off T') = Some (if A =? 2 ^ 32 - 1 then 2 ^ 64 - 1 else A)).
Proof.
  intros Hw HT Hl HA.
  assert (∃ T', store_be 8 T off A = Some T' ∧ bytes T' ∧
            load_be 8 (drop off T') = Some A) as (T8 & E8 & HT8 & L8).
  { destruct (store_be_defined 8 T off A Hl) as [T' E]. exists T'.
    destruct (load_store_be _ _ _ _ _ HT E) as (Hld & HT' & _). split_and!; [done..|].
    rewrite Hld. f_equal. apply wrap_id. unfold in_u in *. lia. }
  assert (∃ T', (T' ← store_be 4 T off 0; store_be 4 T' (off + 4) A) = Some T' ∧
            bytes T' ∧ load_be 8 (drop off T') = Some A ∧
            load_be 4 (drop 4 (drop off T')) = Some A) as (T4 & E4 & HT4 & L48 & L44).
  { exists T8. rewrite <- E8, <- (store_be_app 4 4).
    replace (Z.shiftr A (8 * Z.of_nat 4)) with 0
      by (rewrite Z.shiftr_div_pow2 by lia; symmetry; by apply Z.div_small).
    split_and!; [done..|]. destruct (store_be_defined 4 T off 0) as [T1 E1]; [lia|].
    destruct (load_store_be _ _ _ _ _ HT E1) as (_ & HT1 & Hl1 & _).
    rewrite <- (store_be_app 4 4) in E8.
    replace (Z.shiftr A (8 * Z.of_nat 4)) with 0 in E8
      by (rewrite Z.shiftr_div_pow2 by lia; symmetry; by apply Z.div_small).
    rewrite E1 in E8. simpl in E8.
    destruct (load_store_be _ _ _ _ _ HT1 E8) as (Hld & _).
    rewrite drop_drop, Hld. f_equal. by apply wrap_id. }
  assert (bytes (drop off T8)) by (by apply Forall_drop).
  assert (bytes (drop off T4)) by (by apply Forall_drop).
  assert (bytes (drop 4 (drop off T4))) by (by apply Forall_drop).
  unfold mi_rowstore, mi_rowkorr, mi_sizestore, mi_sizekorr.
  assert ((T' ← mi_int4store w T off 0; mi_int4store w T' (off + 4) A) = Some T4) as E4'.
  { rewrite mi_store4 by done. rewrite <- E4. destruct (store_be 4 T off 0); [|done].
    simpl. by apply mi_store4. }
  rewrite mi_store8 by done. split_and!.
  - exists T8. by rewrite mi_uint8.
  - exists T4. by rewrite E4', mi_uint4, mi_uint8.
  - exists T8. by rewrite mi_uint8.
  - change (32 <? 32) with false. cbv iota. destruct (Z.eqb_spec A (2 ^ 32 - 1)) as [->|].
    + eexists. split; [apply (pokes_seq (replicate 8 255)); simpl; lia|].
      rewrite Nat.add_0_r, drop_app_length' by (rewrite length_take; lia). done.
    + exists T4. by rewrite E4', mi_uint4, mi_uint8.
Qed.

Lemma mi_pointer_roundtrip_witness :
  ∃ T', mi_sizestore 32 32 (replicate 9 7) 1 (2 ^ 32 - 1) = Some T' ∧
    mi_sizekorr 32 (drop 1 T') = Some (2 ^ 32 - 1) ∧
    mi_sizekorr 64 (drop 1 T') = Some (2 ^ 64 - 1).
Proof.
  exact (proj2 (proj2 (proj2 (mi_pointer_roundtrip 32 (replicate 9 7) 1 (2 ^ 32 - 1)
    ltac:(lia) ltac:(by repeat (apply List.Forall_cons; [by vm_compute|]))
    ltac:(simpl; lia) ltac:(by vm_compute))))).
Defined.
