(* ===== verification/SqlBitmap.v ===== *)
(** [sql_bitmap.h]: the iterator over a 64-bit table map, and the template
    [Bitmap<width>], a bitmap of any constant number of bits stored in an array
    of [ulonglong].

    The template parameter [width] and the debug-build flag [dbug] are section
    variables: in a debug build a failing [DBUG_ASSERT] aborts the server, here
    [None]; an array access out of bounds or an undefined shift is [None] in
    both builds.  The abstract view of a bitmap is the boolean function [bit]
    on [0 .. width-1]. *)
From S2P Require Import Prelude MyBit.

(** ** [Table_map_iterator] *)

Definition TABLE_MAP_END : Z := 64.

(** [next_bit]: the bit and the iterator's new map. *)
Definition next_bit (bmp : Z) : option (Z * Z) :=
  if negb (truth bmp) then Some (TABLE_MAP_END, bmp)
  else bit ← my_find_first_bit bmp;
       m ← shl1_64 bit;
       Some (bit, Z.land bmp (unot 64 m)).

(** ** [Bitmap<width>] *)

Section Bitmap.
Variables (dbug : bool) (width : Z).

Definition BITS_PER_ELEMENT : Z := 64.
Definition ARRAY_ELEMENTS : Z := (width + BITS_PER_ELEMENT - 1) / BITS_PER_ELEMENT.
Definition ALL_BITS_SET : Z := 2 ^ 64 - 1.

Definition dbug_assert (b : bool) : option unit :=
  if dbug && negb b then None else Some tt.

Definition bit_index (n : Z) : option nat :=
  _ ← dbug_assert (n <? width);
  Some (if ARRAY_ELEMENTS =? 1 then 0%nat else Z.to_nat (n / BITS_PER_ELEMENT)).

Definition bit_mask (n : Z) : option Z :=
  _ ← dbug_assert (n <? width);
  if ARRAY_ELEMENTS =? 1 then shl1_64 n else shl1_64 (n mod BITS_PER_ELEMENT).

Definition last_element_mask (n : Z) : option Z :=
  _ ← dbug_assert (negb (n mod BITS_PER_ELEMENT =? 0));
  m ← bit_mask n;
  Some (to_ulonglong (m - 1)).

Definition set_bit (buffer : list Z) (n : Z) : option (list Z) :=
  i ← bit_index n; m ← bit_mask n; b ← buffer !! i;
  poke buffer i (Z.lor b m).

Definition clear_bit (buffer : list Z) (n : Z) : option (list Z) :=
  i ← bit_index n; m ← bit_mask n; b ← buffer !! i;
  poke buffer i (Z.land b (unot 64 m)).

Definition is_set (buffer : list Z) (n : Z) : option bool :=
  i ← bit_index n; m ← bit_mask n; b ← buffer !! i;
  Some (truth (Z.land b m)).

(** [for (i= from; i < from + n; i++) buffer[i]= v]. *)
Fixpoint fill (buffer : list Z) (from n : nat) (v : Z) : option (list Z) :=
  match n with
  | O => Some buffer
  | S n => buffer ← poke buffer from v; fill buffer (S from) n v
  end.

Definition elements_n : nat := Z.to_nat ARRAY_ELEMENTS.

Definition set_prefix (buffer : list Z) (prefix_size : Z) : option (list Z) :=
  let prefix_size := if width <? prefix_size then width else prefix_size in
  let idx := Z.to_nat (prefix_size / BITS_PER_ELEMENT) in
  buffer ← fill buffer 0 idx ALL_BITS_SET;
  if truth (prefix_size mod BITS_PER_ELEMENT)
  then m ← last_element_mask prefix_size;
       buffer ← poke buffer idx m;
       fill buffer (S idx) (elements_n - S idx) 0
  else fill buffer idx (elements_n - idx) 0.

(** [for (i= from; i < from + n; i++) if (buffer[i] != v) return false]. *)
Fixpoint all_equal (buffer : list Z) (from n : nat) (v : Z) : option bool :=
  match n with
  | O => Some true
  | S n => b ← buffer !! from;
           if b =? v then all_equal buffer (S from) n v else Some false
  end.

Definition is_prefix (buffer : list Z) (prefix_size : Z) : option bool :=
  _ ← dbug_assert (prefix_size <=? width);
  let idx := Z.to_nat (prefix_size / BITS_PER_ELEMENT) in
  lo ← all_equal buffer 0 idx ALL_BITS_SET;
  if negb lo then Some false else
  if truth (prefix_size mod BITS_PER_ELEMENT)
  then b ← buffer !! idx; m ← last_element_mask prefix_size;
       if b =? m then all_equal buffer (S idx) (elements_n - S idx) 0
       else Some false
  else all_equal buffer idx (elements_n - idx) 0.

Definition set_all (buffer : list Z) : option (list Z) :=
  if truth (width mod BITS_PER_ELEMENT) then set_prefix buffer width
  else if 1 <? ARRAY_ELEMENTS then Some (replicate elements_n ALL_BITS_SET)
  else poke buffer 0 ALL_BITS_SET.

Definition clear_all (buffer : list Z) : option (list Z) :=
  if 1 <? ARRAY_ELEMENTS then Some (replicate elements_n 0)
  else poke buffer 0 0.

Definition intersect (buffer map2 : list Z) : list Z := zip_with Z.land buffer map2.
Definition subtract (buffer map2 : list Z) : list Z :=
  zip_with (λ a b, Z.land a (unot 64 b)) buffer map2.
Definition merge (buffer map2 : list Z) : list Z := zip_with Z.lor buffer map2.

Definition intersect_and_pad (buffer : list Z) (map2buff : Z) (pad_with_ones : bool)
    : option (list Z) :=
  b0 ← buffer !! 0%nat;
  buffer ← poke buffer 0 (Z.land b0 map2buff);
  buffer ← fill buffer 1 (elements_n - 1) (if pad_with_ones then ALL_BITS_SET else 0);
  if (1 <? ARRAY_ELEMENTS) && truth (width mod BITS_PER_ELEMENT) && pad_with_ones
  then m ← last_element_mask width; poke buffer (elements_n - 1) m
  else Some buffer.

Definition intersect_ulonglong (buffer : list Z) (map2buff : Z) : option (list Z) :=
  intersect_and_pad buffer map2buff false.

Definition intersect_extended (buffer : list Z) (map2buff : Z) : option (list Z) :=
  intersect_and_pad buffer map2buff (truth (Z.land map2buff (2 ^ 63))).

Definition is_clear_all (buffer : list Z) : bool := forallb (λ b, negb (truth b)) buffer.

Definition is_subset (buffer map2 : list Z) : bool :=
  forallb (λ '(a, b), negb (truth (Z.land a (unot 64 b)))) (zip buffer map2).

Definition is_overlapping (buffer map2 : list Z) : bool :=
  existsb (λ '(a, b), truth (Z.land a b)) (zip buffer map2).

Definition eq_bitmap (buffer map2 : list Z) : bool := bool_decide (buffer = map2).

Definition to_ulonglong_bitmap (buffer : list Z) : option Z := buffer !! 0%nat.

Definition bits_set (buffer : list Z) : Z :=
  foldl (λ res b, to_uint32 (res + my_count_bits b)) 0 buffer.

(** *** [print]: [_dig_vec_upper] and [longlong2str] are defined elsewhere. *)
Section Print.
Variables (dig_vec_upper : Z → Z) (longlong2str : Z → list Z).

(** Index of the last non-zero element, or 0. *)
Fixpoint print_last (buffer : list Z) (last : nat) : option nat :=
  match last with
  | O => Some O
  | S l => b ← buffer !! last; if truth b then Some last else print_last buffer l
  end.

(** The 16 hexadecimal digits of one element, [shift+= 4] after each; shifting
    an [ulonglong] by 64 or more is undefined. *)
Fixpoint print_digits (n : nat) (num shift : Z) : option (list Z) :=
  match n with
  | O => Some []
  | S n => if 64 <=? shift then None else
           r ← print_digits n num (to_uint32 (shift + 4));
           Some (dig_vec_upper (Z.land (Z.shiftr num shift) 0xf) :: r)
  end.

Definition print (buffer : list Z) : option (list Z) :=
  last ← print_last buffer (elements_n - 1);
  _ ← mapM (λ num, print_digits 16 num (BITS_PER_ELEMENT - 4)) (take last buffer);
  b ← buffer !! last;
  Some (longlong2str b).
End Print.

(** *** The iterator *)

Record iterator := Iterator { offset : Z; tmi : Z }.

Definition iterator_init (map : list Z) : option iterator :=
  b ← map !! 0%nat; Some (Iterator 0 b).

(** [operator++]: one pass of the [for (;;)] loop per element. *)
Fixpoint iterator_next (fuel : nat) (map : list Z) (it : iterator) : option (Z * iterator) :=
  match fuel with
  | O => None
  | S fuel =>
      '(nextbit, t) ← next_bit (tmi it);
      if negb (nextbit =? TABLE_MAP_END)
      then Some (to_uint32 (offset it + nextbit), Iterator (offset it) t)
      else if width <=? offset it + BITS_PER_ELEMENT
      then Some (width, Iterator (offset it) t)
      else let off := to_uint32 (offset it + BITS_PER_ELEMENT) in
           b ← map !! Z.to_nat (off / BITS_PER_ELEMENT);
           iterator_next fuel map (Iterator off b)
  end.
End Bitmap.

(** ** Abstract view *)

(** Bit [m] of the array. *)
Definition bit (buffer : list Z) (m : Z) : bool :=
  match buffer !! Z.to_nat (m / 64) with
  | Some b => Z.testbit b (m mod 64)
  | None => false
  end.

(** Well-formed array of [Bitmap<width>]: right size, 64-bit elements, no bit
    set at [width] or above. *)
Definition wf (width : Z) (buffer : list Z) : Prop :=
  length buffer = elements_n width ∧ Forall (in_u 64) buffer ∧
  ∀ m, width ≤ m → bit buffer m = false.

Section Lists.
Implicit Types (b : list Z).

Lemma bit_lookup b m x : b !! Z.to_nat (m / 64) = Some x → bit b m = Z.testbit x (m mod 64).
Proof. intros E. unfold bit. by rewrite E. Qed.

Lemma bit_insert b (i : nat) v m : (i < length b)%nat → 0 ≤ m →
  bit (<[i := v]> b) m = if m / 64 =? Z.of_nat i then Z.testbit v (m mod 64) else bit b m.
Proof.
  intros Hi Hm. unfold bit. destruct (Z.eqb_spec (m / 64) (Z.of_nat i)) as [E|E].
  - rewrite E, Nat2Z.id. by rewrite list_lookup_insert_eq.
  - rewrite list_lookup_insert_ne; [done|].
    pose proof (Z.div_pos m 64). lia.
Qed.

Lemma bits_ext b1 b2 : length b1 = length b2 →
  Forall (in_u 64) b1 → Forall (in_u 64) b2 →
  (∀ m, 0 ≤ m → bit b1 m = bit b2 m) → b1 = b2.
Proof.
  intros Hl H1 H2 Hb. apply list_eq. intros i.
  destruct (b1 !! i) as [x|] eqn:E1.
  2: { symmetry. apply lookup_ge_None. apply lookup_ge_None in E1. lia. }
  destruct (lookup_lt_is_Some_2 b2 i) as [y E2].
  { rewrite <- Hl. by apply lookup_lt_Some in E1. }
  rewrite E2. f_equal. rewrite Forall_lookup in H1, H2.
  apply Z.bits_inj'. intros j Hj. destruct (decide (j < 64)).
  - specialize (Hb (64 * Z.of_nat i + j)).
    assert ((64 * Z.of_nat i + j) / 64 = Z.of_nat i) as Ed
      by (Z.div_mod_to_equations; lia).
    assert ((64 * Z.of_nat i + j) mod 64 = j) as Em by (Z.div_mod_to_equations; lia).
    rewrite (bit_lookup b1 _ x), (bit_lookup b2 _ y) in Hb
      by (by rewrite Ed, Nat2Z.id). rewrite Em in Hb. apply Hb. lia.
  - rewrite (in_u_testbit 64 x), (in_u_testbit 64 y) by (eauto || lia). done.
Qed.

(** Operations that work element by element. *)
Lemma bit_zip_with f g b1 b2 m : length b1 = length b2 → 0 ≤ m →
  (∀ x y i, 0 ≤ i < 64 → Z.testbit (f x y) i = g (Z.testbit x i) (Z.testbit y i)) →
  g false false = false →
  bit (zip_with f b1 b2) m = g (bit b1 m) (bit b2 m).
Proof.
  intros Hl Hm Hf Hg. unfold bit. rewrite lookup_zip_with.
  destruct (b1 !! Z.to_nat (m / 64)) as [x|] eqn:E1; simpl.
  - destruct (lookup_lt_is_Some_2 b2 (Z.to_nat (m / 64))) as [y E2].
    { rewrite <- Hl. by apply lookup_lt_Some in E1. }
    rewrite E2. simpl. apply Hf. apply Z.mod_pos_bound. lia.
  - apply lookup_ge_None in E1. rewrite Hl in E1. apply lookup_ge_None in E1. by rewrite E1.
Qed.
End Lists.

Lemma unot_in_u x : in_u 64 (unot 64 x).
Proof. apply wrap_in_u. lia. Qed.

Lemma unot_testbit x i : 0 ≤ i < 64 → Z.testbit (unot 64 x) i = negb (Z.testbit x i).
Proof.
  intros Hi. unfold unot. rewrite wrap_testbit by lia. zcases; [|lia].
  by rewrite Z.lnot_spec by lia.
Qed.

Lemma land_in_u w x y : 0 ≤ w → in_u w x → 0 ≤ y → in_u w (Z.land x y).
Proof.
  intros Hw Hx Hy. apply in_u_of_bits; [done|apply Z.land_nonneg; by right|].
  intros i Hi. rewrite Z.land_spec, (in_u_testbit w x) by (done || lia). done.
Qed.

Lemma Forall_zip_with (P : Z → Prop) f (b1 b2 : list Z) :
  Forall P b1 → Forall P b2 → (∀ x y, P x → P y → P (f x y)) → Forall P (zip_with f b1 b2).
Proof.
  intros H1 H2 Hf. apply Forall_lookup. intros i z Hz.
  apply lookup_zip_with_Some in Hz as (x & y & -> & E1 & E2).
  rewrite Forall_lookup in H1, H2. eauto.
Qed.

Lemma pow2_mask_bit k i : 0 ≤ k → Z.testbit (2 ^ k) i = (i =? k).
Proof.
  intros Hk. destruct (Z.eqb_spec i k) as [->|]; [by apply Z.pow2_bits_true|].
  by apply Z.pow2_bits_false.
Qed.

(** Isolating one bit. *)
Lemma truth_bit x k : 0 ≤ k → truth (Z.land x (2 ^ k)) = Z.testbit x k.
Proof.
  intros Hk. destruct (Z.testbit x k) eqn:E.
  - apply truth_true. intros H0. apply (f_equal (λ z, Z.testbit z k)) in H0.
    rewrite Z.land_spec, Z.pow2_bits_true, E, Z.testbit_0_l in H0 by lia. done.
  - apply truth_false. apply Z.bits_inj'. intros i Hi.
    rewrite Z.land_spec, pow2_mask_bit, Z.testbit_0_l by lia.
    destruct (Z.eqb_spec i k) as [->|]; [by rewrite E|apply andb_false_r].
Qed.

(** The loops. *)
Lemma fill_spec b from n v : (from + n ≤ length b)%nat →
  ∃ b', fill b from n v = Some b' ∧ length b' = length b ∧
    ∀ i, b' !! i = if decide (from ≤ i < from + n)%nat then Some v else b !! i.
Proof.
  revert b from. induction n as [|n IH]; intros b from Hl; simpl.
  { exists b. split_and!; [done..|]. intros i. by rewrite decide_False by lia. }
  rewrite poke_defined by lia. simpl.
  destruct (IH (<[from := v]> b) (S from)) as (b' & E & Hl' & Hi).
  { rewrite length_insert. lia. }
  exists b'. rewrite Hl', length_insert. split_and!; [done..|]. intros i. rewrite Hi.
  destruct (decide (i = from)) as [->|].
  - rewrite decide_False, decide_True by lia. apply list_lookup_insert_eq. lia.
  - rewrite list_lookup_insert_ne by done. repeat case_decide; (done || lia).
Qed.

Lemma all_equal_spec b from n v : (from + n ≤ length b)%nat →
  ∃ r, all_equal b from n v = Some r ∧
    (r = true ↔ ∀ i, (from ≤ i < from + n)%nat → b !! i = Some v).
Proof.
  revert from. induction n as [|n IH]; intros from Hl; simpl.
  { exists true. split; [done|]. split; [lia|done]. }
  destruct (lookup_lt_is_Some_2 b from) as [x Ex]; [lia|]. rewrite Ex. simpl.
  destruct (Z.eqb_spec x v) as [->|Hne].
  - destruct (IH (S from)) as (r & E & Hr); [lia|]. exists r. split; [done|].
    rewrite Hr. split; intros H i Hi.
    + destruct (decide (i = from)) as [->|]; [done|]. apply H. lia.
    + apply H. lia.
  - exists false. split; [done|]. split; [done|]. intros H.
    specialize (H from ltac:(lia)). congruence.
Qed.

Section Width.
Context (dbug : bool) (width : Z) (Hwidth : 0 < width).

Lemma elements_bounds :
  64 * (Z.of_nat (elements_n width) - 1) < width ≤ 64 * Z.of_nat (elements_n width).
Proof.
  unfold elements_n, ARRAY_ELEMENTS, BITS_PER_ELEMENT.
  rewrite Z2Nat.id by (apply Z.div_pos; lia). Z.div_mod_to_equations. lia.
Qed.

Lemma array_elements : ARRAY_ELEMENTS width = Z.of_nat (elements_n width).
Proof.
  unfold elements_n, ARRAY_ELEMENTS, BITS_PER_ELEMENT.
  by rewrite Z2Nat.id by (apply Z.div_pos; lia).
Qed.

Lemma shl1_ok k : 0 ≤ k < 64 → shl1_64 k = Some (2 ^ k).
Proof. intros. unfold shl1_64. zcases; try lia. simpl. by rewrite Z.shiftl_1_l. Qed.

Lemma bit_index_ok n : 0 ≤ n < width →
  bit_index dbug width n = Some (Z.to_nat (n / 64)) ∧ (Z.to_nat (n / 64) < elements_n width)%nat.
Proof.
  intros Hn. pose proof elements_bounds. unfold bit_index, dbug_assert, BITS_PER_ELEMENT.
  destruct (Z.ltb_spec n width); [|lia]. simpl negb. rewrite andb_false_r. simpl.
  rewrite array_elements. split; [|Z.div_mod_to_equations; lia].
  destruct (Z.eqb_spec (Z.of_nat (elements_n width)) 1) as [E|]; [|done].
  f_equal. Z.div_mod_to_equations. lia.
Qed.

(** The mask of a bit; at [n = width] only the release build reaches it. *)
Lemma bit_mask_ok n : 0 ≤ n ≤ width → n mod 64 ≠ 0 ∨ n < width →
  n < width ∨ dbug = false → bit_mask dbug width n = Some (2 ^ (n mod 64)).
Proof.
  intros Hn Hm Hd. pose proof elements_bounds.
  unfold bit_mask, dbug_assert, BITS_PER_ELEMENT.
  replace (dbug && negb (n <? width)) with false
    by (destruct (Z.ltb_spec n width); destruct dbug; simpl; try done;
        destruct Hd; [lia|done]).
  simpl. rewrite array_elements.
  destruct (Z.eqb_spec (Z.of_nat (elements_n width)) 1) as [E|].
  - rewrite shl1_ok by (Z.div_mod_to_equations; lia).
    by rewrite Z.mod_small by (Z.div_mod_to_equations; lia).
  - apply shl1_ok. apply Z.mod_pos_bound. lia.
Qed.

Lemma last_element_mask_ok n : 0 ≤ n ≤ width → n mod 64 ≠ 0 →
  n < width ∨ dbug = false →
  last_element_mask dbug width n = Some (2 ^ (n mod 64) - 1).
Proof.
  intros Hn Hm Hd. unfold last_element_mask, dbug_assert, BITS_PER_ELEMENT.
  rewrite bit_mask_ok by auto. destruct (Z.eqb_spec (n mod 64) 0); [done|].
  simpl. rewrite andb_false_r. simpl. f_equal. apply wrap_id.
  pose proof (Z.mod_pos_bound n 64).
  assert (2 ^ (n mod 64) ≤ 2 ^ 63) by (apply Z.pow_le_mono_r; lia).
  assert (0 < 2 ^ (n mod 64)) by lia. unfold in_u. lia.
Qed.

(** *** Single bits *)

Section SingleBit.
Context (b : list Z) (Hb : wf width b) (n : Z) (Hn : 0 ≤ n < width).

Lemma access : ∃ x, bit_index dbug width n = Some (Z.to_nat (n / 64)) ∧
  bit_mask dbug width n = Some (2 ^ (n mod 64)) ∧
  b !! Z.to_nat (n / 64) = Some x ∧ in_u 64 x ∧ (Z.to_nat (n / 64) < length b)%nat.
Proof.
  destruct Hb as (Hl & Hu & _). destruct (bit_index_ok n Hn) as [Ei Hi].
  destruct (lookup_lt_is_Some_2 b (Z.to_nat (n / 64))) as [x Ex]; [lia|].
  exists x. rewrite bit_mask_ok by (auto; lia). split_and!; [done..| |lia].
  by apply (Forall_lookup_1 _ _ _ _ Hu Ex).
Qed.

Lemma is_set_ok : is_set dbug width b n = Some (bit b n).
Proof.
  destruct access as (x & Ei & Em & Ex & _). unfold is_set. rewrite Ei. simpl.
  rewrite Em. simpl. rewrite Ex. simpl. f_equal.
  rewrite truth_bit by (apply Z.mod_pos_bound; lia). by rewrite (bit_lookup b n x).
Qed.

Lemma write_bit v x : b !! Z.to_nat (n / 64) = Some x → in_u 64 v →
  (∀ j, 0 ≤ j < 64 → j ≠ n mod 64 → Z.testbit v j = Z.testbit x j) →
  let b' := <[Z.to_nat (n / 64) := v]> b in
  poke b (Z.to_nat (n / 64)) v = Some b' ∧ wf width b' ∧
  ∀ m, 0 ≤ m → bit b' m = if m =? n then Z.testbit v (n mod 64) else bit b m.
Proof.
  intros Ex Hv Hj b'. destruct access as (_ & _ & _ & _ & _ & Hi).
  assert (∀ m, 0 ≤ m → bit b' m = if m =? n then Z.testbit v (n mod 64) else bit b m) as Hbit.
  { intros m Hm. unfold b'. rewrite bit_insert by done.
    rewrite Z2Nat.id by (apply Z.div_pos; lia).
    destruct (Z.eqb_spec m n) as [->|Hmn]; [by rewrite Z.eqb_refl|].
    destruct (Z.eqb_spec (m / 64) (n / 64)) as [E|]; [|done].
    rewrite (bit_lookup b m x) by (by rewrite E). apply Hj; [apply Z.mod_pos_bound; lia|].
    Z.div_mod_to_equations. lia. }
  rewrite poke_defined by done. split_and!; [done| |done].
  destruct Hb as (Hl & Hu & Hz). split_and!.
  - unfold b'. by rewrite length_insert.
  - by apply Forall_insert.
  - intros m Hm. rewrite Hbit by lia. destruct (Z.eqb_spec m n); [lia|]. by apply Hz.
Qed.

Lemma set_bit_ok : ∃ b', set_bit dbug width b n = Some b' ∧ wf width b' ∧
  ∀ m, 0 ≤ m → bit b' m = (m =? n) || bit b m.
Proof.
  destruct access as (x & Ei & Em & Ex & Hx & Hi).
  pose proof (Z.mod_pos_bound n 64 ltac:(lia)) as Hk.
  assert (in_u 64 (2 ^ (n mod 64))) as Hp
    by (split; [lia|apply Z.pow_lt_mono_r; lia]).
  destruct (write_bit (Z.lor x (2 ^ (n mod 64))) x) as (Ep & Hwf & Hbit).
  { done. } { apply lor_in_u; [lia|done|done]. }
  { intros j Hj Hne. rewrite Z.lor_spec, pow2_mask_bit by lia.
    destruct (Z.eqb_spec j (n mod 64)); [done|]. apply orb_false_r. }
  eexists. split_and!; [|done|].
  - unfold set_bit. rewrite Ei. simpl. rewrite Em. simpl. rewrite Ex. simpl. exact Ep.
  - intros m Hm. rewrite Hbit by done. destruct (Z.eqb_spec m n) as [->|]; [|done].
    by rewrite Z.lor_spec, pow2_mask_bit, Z.eqb_refl, orb_true_r by lia.
Qed.

Lemma clear_bit_ok : ∃ b', clear_bit dbug width b n = Some b' ∧ wf width b' ∧
  ∀ m, 0 ≤ m → bit b' m = negb (m =? n) && bit b m.
Proof.
  destruct access as (x & Ei & Em & Ex & Hx & Hi).
  pose proof (Z.mod_pos_bound n 64 ltac:(lia)) as Hk.
  destruct (write_bit (Z.land x (unot 64 (2 ^ (n mod 64)))) x) as (Ep & Hwf & Hbit).
  { done. } { apply land_in_u; [lia|done|]. apply unot_in_u. }
  { intros j Hj Hne. rewrite Z.land_spec, unot_testbit, pow2_mask_bit by lia.
    destruct (Z.eqb_spec j (n mod 64)); [done|]. apply andb_true_r. }
  eexists. split_and!; [|done|].
  - unfold clear_bit. rewrite Ei. simpl. rewrite Em. simpl. rewrite Ex. simpl. exact Ep.
  - intros m Hm. rewrite Hbit by done. destruct (Z.eqb_spec m n) as [->|]; [|done].
    by rewrite Z.land_spec, unot_testbit, pow2_mask_bit, Z.eqb_refl, andb_false_r by lia.
Qed.
End SingleBit.

(** *** Prefixes *)

(** Element [i] of the bitmap whose first [p] bits are set. *)
Definition chunk (p : Z) (i : nat) : Z :=
  if Z.of_nat i <? p / 64 then ALL_BITS_SET
  else if Z.of_nat i =? p / 64 then 2 ^ (p mod 64) - 1 else 0.

Definition prefix_list (p : Z) : list Z := chunk p <$> seq 0 (elements_n width).

Lemma lookup_prefix_list p i : (i < elements_n width)%nat →
  prefix_list p !! i = Some (chunk p i).
Proof.
  intros Hi. unfold prefix_list. rewrite list_lookup_fmap, lookup_seq_lt by done. done.
Qed.

Lemma length_prefix_list p : length (prefix_list p) = elements_n width.
Proof. unfold prefix_list. by rewrite length_fmap, length_seq. Qed.

Lemma chunk_bit p i j : 0 ≤ p → 0 ≤ j < 64 →
  Z.testbit (chunk p i) j = (64 * Z.of_nat i + j <? p).
Proof.
  intros Hp Hj. unfold chunk, ALL_BITS_SET. pose proof (Z.mod_pos_bound p 64 ltac:(lia)).
  destruct (Z.ltb_spec (Z.of_nat i) (p / 64)).
  - change (2 ^ 64 - 1) with (Z.ones 64). rewrite Z.testbit_ones_nonneg by lia.
    zcases; try done; Z.div_mod_to_equations; lia.
  - destruct (Z.eqb_spec (Z.of_nat i) (p / 64)).
    + replace (2 ^ (p mod 64) - 1) with (Z.ones (p mod 64)) by (rewrite Z.ones_equiv; lia).
      rewrite Z.testbit_ones_nonneg by lia. zcases; try done; Z.div_mod_to_equations; lia.
    + rewrite Z.testbit_0_l. zcases; [Z.div_mod_to_equations; lia|done].
Qed.

Lemma chunk_in_u p i : 0 ≤ p → in_u 64 (chunk p i).
Proof.
  intros Hp. unfold chunk, ALL_BITS_SET. pose proof (Z.mod_pos_bound p 64 ltac:(lia)).
  assert (2 ^ (p mod 64) ≤ 2 ^ 63) by (apply Z.pow_le_mono_r; lia).
  unfold in_u. zcases; lia.
Qed.

Lemma prefix_list_bit p m : 0 ≤ p ≤ width → 0 ≤ m → bit (prefix_list p) m = (m <? p).
Proof.
  intros Hp Hm. pose proof elements_bounds.
  destruct (decide (Z.to_nat (m / 64) < elements_n width)%nat).
  - rewrite (bit_lookup _ _ _ (lookup_prefix_list p _ l)).
    rewrite chunk_bit by (try apply Z.mod_pos_bound; lia).
    rewrite Z2Nat.id by (apply Z.div_pos; lia). f_equal. Z.div_mod_to_equations. lia.
  - unfold bit. rewrite lookup_ge_None_2 by (rewrite length_prefix_list; lia).
    zcases; [|done]. Z.div_mod_to_equations. lia.
Qed.

Lemma prefix_list_wf p : 0 ≤ p ≤ width → wf width (prefix_list p).
Proof.
  intros Hp. split_and!; [apply length_prefix_list| |].
  - apply Forall_fmap, Forall_forall. intros i _. apply chunk_in_u. lia.
  - intros m Hm. rewrite prefix_list_bit by lia. zcases; [lia|done].
Qed.

(** A list described element by element is the prefix list. *)
Lemma eq_prefix_list b p : length b = elements_n width →
  (∀ i, (i < elements_n width)%nat → b !! i = Some (chunk p i)) → b = prefix_list p.
Proof.
  intros Hl H. apply list_eq_same_length with (n := elements_n width);
    [apply length_prefix_list|done|].
  intros i x y Hi Ex Ey. rewrite H in Ex by done. rewrite lookup_prefix_list in Ey by done.
  congruence.
Qed.

Section Prefix.
Context (b : list Z) (Hb : length b = elements_n width) (p : Z) (Hp : 0 ≤ p ≤ width)
  (Hd : p mod 64 = 0 ∨ p < width ∨ dbug = false).

Let idx := Z.to_nat (p / 64).

Lemma idx_bound : Z.of_nat idx = p / 64 ∧ (idx ≤ elements_n width)%nat ∧
  (p mod 64 ≠ 0 → (idx < elements_n width)%nat).
Proof.
  pose proof elements_bounds. unfold idx. rewrite Z2Nat.id by (apply Z.div_pos; lia).
  split_and!; [done|Z.div_mod_to_equations; lia|]. intros. Z.div_mod_to_equations. lia.
Qed.

Lemma set_prefix_ok : set_prefix dbug width b p = Some (prefix_list p).
Proof.
  destruct idx_bound as (Hi & Hle & Hlt). unfold set_prefix, BITS_PER_ELEMENT.
  destruct (Z.ltb_spec width p); [lia|]. fold idx.
  destruct (fill_spec b 0 idx ALL_BITS_SET) as (b1 & E1 & L1 & G1); [lia|].
  rewrite E1. simpl. destruct (truth (p mod 64)) eqn:Ht.
  - apply truth_true in Ht.
    rewrite last_element_mask_ok by (done || (destruct Hd as [?|?]; [lia|done])). simpl.
    rewrite poke_defined by lia. simpl.
    destruct (fill_spec (<[idx := 2 ^ (p mod 64) - 1]> b1) (S idx) (elements_n width - S idx) 0)
      as (b2 & E2 & L2 & G2); [rewrite length_insert; lia|].
    rewrite E2. f_equal. rewrite length_insert in L2. apply eq_prefix_list; [lia|].
    intros i Hi'. rewrite G2. unfold chunk. rewrite <- Hi.
    case_decide; [zcases; (lia || done)|].
    destruct (decide (i = idx)) as [->|].
    + rewrite list_lookup_insert_eq by lia. zcases; (lia || done).
    + rewrite list_lookup_insert_ne, G1, decide_True by lia. zcases; (lia || done).
  - apply truth_false in Ht.
    destruct (fill_spec b1 idx (elements_n width - idx) 0) as (b2 & E2 & L2 & G2); [lia|].
    rewrite E2. f_equal. apply eq_prefix_list; [lia|].
    intros i Hi'. rewrite G2. unfold chunk. rewrite <- Hi, Ht.
    case_decide; [zcases; (lia || done)|].
    rewrite G1, decide_True by lia. zcases; (lia || done).
Qed.

Lemma is_prefix_ok : is_prefix dbug width b p = Some (bool_decide (b = prefix_list p)).
Proof.
  destruct idx_bound as (Hi & Hle & Hlt).
  unfold is_prefix, dbug_assert, BITS_PER_ELEMENT.
  destruct (Z.leb_spec p width); [|lia]. simpl negb. rewrite andb_false_r. simpl. fold idx.
  destruct (all_equal_spec b 0 idx ALL_BITS_SET) as (r1 & E1 & G1); [lia|].
  rewrite E1. simpl.
  assert (∀ i, (i < elements_n width)%nat → b = prefix_list p → b !! i = Some (chunk p i)) as Hc
    by (intros i ? ->; by apply lookup_prefix_list).
  destruct r1; simpl negb; cbv iota.
  2: { f_equal. symmetry. apply bool_decide_eq_false. intros E.
       enough (false = true) by done. apply G1. intros i Hi'. rewrite (Hc i) by (done || lia).
       unfold chunk. zcases; (lia || done). }
  pose proof (proj1 G1 eq_refl) as Hlo. destruct (truth (p mod 64)) eqn:Ht.
  - apply truth_true in Ht. specialize (Hlt Ht).
    destruct (lookup_lt_is_Some_2 b idx) as [x Ex]; [lia|]. rewrite Ex. simpl.
    
    rewrite last_element_mask_ok by (done || (destruct Hd as [?|?]; [lia|done])). simpl.
    destruct (all_equal_spec b (S idx) (elements_n width - S idx) 0) as (r2 & E2 & G2); [lia|].
    destruct (Z.eqb_spec x (2 ^ (p mod 64) - 1)) as [->|Hne].
    + rewrite E2. f_equal. apply eq_true_iff_eq. rewrite bool_decide_eq_true, G2. split.
      * intros Hz. apply eq_prefix_list; [done|]. intros i Hi'. unfold chunk. rewrite <- Hi.
        zcases; [apply Hlo; lia|by replace i with idx by lia|apply Hz; lia].
      * intros E i Hi'. rewrite (Hc i) by (done || lia). unfold chunk. zcases; (lia || done).
    + f_equal. symmetry. apply bool_decide_eq_false. intros E. apply Hne.
      rewrite (Hc idx) in Ex by done. injection Ex as <-. unfold chunk. zcases; (lia || done).
  - apply truth_false in Ht.
    destruct (all_equal_spec b idx (elements_n width - idx) 0) as (r2 & E2 & G2); [lia|].
    rewrite E2. f_equal. apply eq_true_iff_eq. rewrite bool_decide_eq_true, G2. split.
    + intros Hz. apply eq_prefix_list; [done|]. intros i Hi'. unfold chunk. rewrite <- Hi.
      zcases; [apply Hlo; lia|rewrite Ht; apply Hz; lia|apply Hz; lia].
    + intros E i Hi'. rewrite (Hc i) by (done || lia). unfold chunk. rewrite Ht.
      zcases; (lia || done).
Qed.
End Prefix.

(** In a debug build the prefix that ends inside the last element, at the full
    width, fails the assertion of [bit_mask]. *)
Lemma set_prefix_assert b : dbug = true → width mod 64 ≠ 0 → length b = elements_n width →
  set_prefix dbug width b width = None.
Proof.
  intros Hdb Hm Hl. pose proof elements_bounds. unfold set_prefix, BITS_PER_ELEMENT.
  rewrite Z.ltb_irrefl.
  destruct (fill_spec b 0 (Z.to_nat (width / 64)) ALL_BITS_SET) as (b1 & E1 & _).
  { Z.div_mod_to_equations. lia. }
  rewrite E1. simpl. rewrite (proj2 (truth_true _)) by done.
  unfold last_element_mask, dbug_assert, BITS_PER_ELEMENT.
  destruct (Z.eqb_spec (width mod 64) 0); [done|]. simpl. rewrite andb_false_r. simpl.
  unfold bit_mask, dbug_assert. by rewrite Z.ltb_irrefl, Hdb.
Qed.

(** *** Set operations *)

Section Pairs.
Context (b1 b2 : list Z) (H1 : wf width b1) (H2 : wf width b2).

Lemma wf_lengths : length b1 = length b2.
Proof. destruct H1, H2. congruence. Qed.

Lemma wf_zip f g :
  (∀ x y, in_u 64 x → in_u 64 y → in_u 64 (f x y)) →
  (∀ x y i, 0 ≤ i < 64 → Z.testbit (f x y) i = g (Z.testbit x i) (Z.testbit y i)) →
  g false false = false →
  wf width (zip_with f b1 b2) ∧
  ∀ m, 0 ≤ m → bit (zip_with f b1 b2) m = g (bit b1 m) (bit b2 m).
Proof.
  intros Hu Hf Hg. destruct H1 as (L1 & U1 & Z1), H2 as (L2 & U2 & Z2).
  assert (∀ m, 0 ≤ m → bit (zip_with f b1 b2) m = g (bit b1 m) (bit b2 m)) as Hbit
    by (intros; apply bit_zip_with; auto using wf_lengths).
  split; [|done]. split_and!.
  - rewrite length_zip_with, L1, L2. lia.
  - by apply Forall_zip_with.
  - intros m Hm. by rewrite Hbit, Z1, Z2 by lia.
Qed.

Lemma intersect_ok : wf width (intersect b1 b2) ∧
  ∀ m, 0 ≤ m → bit (intersect b1 b2) m = bit b1 m && bit b2 m.
Proof.
  apply wf_zip; [|intros; apply Z.land_spec|done].
  intros x y Hx Hy. apply land_in_u; [lia|done|apply Hy].
Qed.

Lemma merge_ok : wf width (merge b1 b2) ∧
  ∀ m, 0 ≤ m → bit (merge b1 b2) m = bit b1 m || bit b2 m.
Proof.
  apply wf_zip; [|intros; apply Z.lor_spec|done].
  intros x y Hx Hy. apply lor_in_u; [lia|done|done].
Qed.

Lemma subtract_ok : wf width (subtract b1 b2) ∧
  ∀ m, 0 ≤ m → bit (subtract b1 b2) m = bit b1 m && negb (bit b2 m).
Proof.
  apply (wf_zip _ (λ x y, x && negb y)); [| |done].
  - intros x y Hx Hy. apply land_in_u; [lia|done|apply unot_in_u].
  - intros x y i Hi. by rewrite Z.land_spec, unot_testbit.
Qed.

Lemma eq_bitmap_ok : eq_bitmap b1 b2 = true ↔ ∀ m, 0 ≤ m → bit b1 m = bit b2 m.
Proof.
  unfold eq_bitmap. rewrite bool_decide_eq_true. split; [by intros ->|].
  destruct H1 as (_ & U1 & _), H2 as (_ & U2 & _). apply bits_ext; auto using wf_lengths.
Qed.
End Pairs.

(** An array is all zero when no bit is set. *)
Lemma is_clear_all_ok b : wf width b →
  is_clear_all b = true ↔ ∀ m, 0 ≤ m → bit b m = false.
Proof.
  intros (Hl & Hu & _). unfold is_clear_all. rewrite forallb_forall. split.
  - intros H m Hm. unfold bit. destruct (b !! _) as [x|] eqn:E; [|done].
    specialize (H x ltac:(by apply list_elem_of_In, (list_elem_of_lookup_2 _ _ _ E))).
    apply negb_true_iff, truth_false in H. by rewrite H, Z.testbit_0_l.
  - intros H x Hx. apply negb_true_iff, truth_false.
    apply list_elem_of_In, list_elem_of_lookup in Hx as [i Ei].
    pose proof (Forall_lookup_1 _ _ _ _ Hu Ei) as Hxu.
    apply Z.bits_inj'. intros j Hj. rewrite Z.testbit_0_l.
    destruct (decide (j < 64)); [|apply (in_u_testbit 64); [done|lia]].
    rewrite <- (H (64 * Z.of_nat i + j)) by lia.
    rewrite (bit_lookup b _ x); [f_equal; Z.div_mod_to_equations; lia|].
    rewrite <- Ei. f_equal. Z.div_mod_to_equations. lia.
Qed.

Lemma is_subset_eq b1 b2 : is_subset b1 b2 = is_clear_all (subtract b1 b2).
Proof.
  unfold is_subset, is_clear_all, subtract. revert b2.
  induction b1 as [|x b1 IH]; intros [|y b2]; simpl; [done..|]. by rewrite IH.
Qed.

Lemma is_overlapping_eq b1 b2 : is_overlapping b1 b2 = negb (is_clear_all (intersect b1 b2)).
Proof.
  unfold is_overlapping, is_clear_all, intersect. revert b2.
  induction b1 as [|x b1 IH]; intros [|y b2]; simpl; [done..|]. rewrite IH.
  by destruct (truth (Z.land x y)).
Qed.

(** *** Whole-bitmap operations *)

Lemma set_all_ok b : length b = elements_n width → width mod 64 = 0 ∨ dbug = false →
  set_all dbug width b = Some (prefix_list width).
Proof.
  intros Hl Hd. pose proof elements_bounds. unfold set_all, BITS_PER_ELEMENT.
  destruct (truth (width mod 64)) eqn:Ht.
  - apply set_prefix_ok; [done|lia|destruct Hd; [by left|by right; right]].
  - apply truth_false in Ht. rewrite array_elements.
    assert (∀ i, (i < elements_n width)%nat → chunk width i = ALL_BITS_SET) as Hc.
    { intros i Hi. unfold chunk. zcases; [done|exfalso; Z.div_mod_to_equations; lia..]. }
    destruct (Z.ltb_spec 1 (Z.of_nat (elements_n width))).
    + f_equal. apply eq_prefix_list; [apply length_replicate|].
      intros i Hi. rewrite lookup_replicate_2, Hc by done. done.
    + rewrite poke_defined by lia. f_equal. apply eq_prefix_list; [by rewrite length_insert|].
      intros i Hi. replace i with 0%nat by lia.
      rewrite list_lookup_insert_eq, Hc by lia. done.
Qed.

Lemma clear_all_ok b : length b = elements_n width → clear_all width b = Some (prefix_list 0).
Proof.
  intros Hl. pose proof elements_bounds. unfold clear_all. rewrite array_elements.
  assert (∀ i, chunk 0 i = 0) as Hc by (intros [|i]; done).
  destruct (Z.ltb_spec 1 (Z.of_nat (elements_n width))).
  - f_equal. apply eq_prefix_list; [apply length_replicate|].
    intros i Hi. rewrite lookup_replicate_2, Hc by done. done.
  - rewrite poke_defined by lia. f_equal. apply eq_prefix_list; [by rewrite length_insert|].
    intros i Hi. replace i with 0%nat by lia.
    rewrite list_lookup_insert_eq, Hc by lia. done.
Qed.

(** Intersection with a 64-bit map: the first 64 bits are intersected, the
    other bits are overwritten by the padding whatever they were. *)
Section Pad.
Context (b : list Z) (Hwf : wf width b) (x v : Z) (Ex : b !! 0%nat = Some x)
  (Hx : in_u 64 x) (Hv : in_u 64 v) (pad : bool)
  (Hd : width mod 64 = 0 ∨ dbug = false).

(** Element [i] of the result. *)
Definition padded (i : nat) : Z :=
  if decide (i = 0)%nat then Z.land x v else if pad then chunk width i else 0.

(** Full elements before the last one. *)
Lemma chunk_full i : (S i < elements_n width)%nat ∨ width mod 64 = 0 →
  (i < elements_n width)%nat → chunk width i = ALL_BITS_SET.
Proof.
  intros H Hi. pose proof elements_bounds. unfold chunk.
  zcases; [done|exfalso; Z.div_mod_to_equations; lia..].
Qed.

Lemma chunk_last : width mod 64 ≠ 0 →
  chunk width (elements_n width - 1) = 2 ^ (width mod 64) - 1.
Proof.
  intros H. pose proof elements_bounds. unfold chunk.
  zcases; [Z.div_mod_to_equations; lia|done|Z.div_mod_to_equations; lia].
Qed.

Lemma pad_array : ∃ b', intersect_and_pad dbug width b v pad = Some b' ∧
  length b' = elements_n width ∧
  ∀ i, (i < elements_n width)%nat → b' !! i = Some (padded i).
Proof.
  pose proof elements_bounds. destruct Hwf as (Hl & _ & _).
  unfold intersect_and_pad, BITS_PER_ELEMENT. rewrite Ex. simpl.
  rewrite poke_defined by lia. simpl.
  destruct (fill_spec (<[0%nat := Z.land x v]> b) 1 (elements_n width - 1)
    (if pad then ALL_BITS_SET else 0)) as (b2 & E2 & L2 & G2); [rewrite length_insert; lia|].
  rewrite E2. simpl. rewrite length_insert in L2. rewrite array_elements.
  assert (b2 !! 0%nat = Some (padded 0)) as G0
    by (rewrite G2, decide_False by lia; apply list_lookup_insert_eq; lia).
  destruct ((1 <? Z.of_nat (elements_n width)) && truth (width mod 64) && pad) eqn:Ec.
  - rewrite !andb_true_iff, Z.ltb_lt, truth_true in Ec. destruct Ec as [[Hn Ht] Hpad].
    assert (dbug = false) as Hdb by (destruct Hd; [lia|done]).
    rewrite last_element_mask_ok by (done || lia || by right). simpl.
    rewrite poke_defined by lia. eexists. split_and!; [done|rewrite length_insert; lia|].
    intros i Hi. destruct (decide (i = elements_n width - 1)%nat) as [->|].
    + rewrite list_lookup_insert_eq by lia. unfold padded.
      by rewrite decide_False, Hpad, chunk_last by lia.
    + rewrite list_lookup_insert_ne by lia. destruct (decide (i = 0)%nat) as [->|]; [done|].
      rewrite G2, decide_True by lia. unfold padded.
      by rewrite decide_False, Hpad, chunk_full by (done || (left; lia) || lia).
  - exists b2. split_and!; [done|lia|]. intros i Hi.
    destruct (decide (i = 0)%nat) as [->|]; [done|]. rewrite G2, decide_True by lia.
    unfold padded. rewrite decide_False by done. destruct pad; [|done]. f_equal.
    rewrite andb_true_r, andb_false_iff, Z.ltb_ge, truth_false in Ec.
    symmetry. apply chunk_full; [|done]. right. destruct Ec; [lia|done].
Qed.

Lemma padded_bit b' m : length b' = elements_n width →
  (∀ i, (i < elements_n width)%nat → b' !! i = Some (padded i)) → 0 ≤ m →
  bit b' m = if m <? 64 then bit b m && Z.testbit v m else pad && (m <? width).
Proof.
  intros L' G' Hm. pose proof elements_bounds.
  destruct (decide (Z.to_nat (m / 64) < elements_n width)%nat).
  - rewrite (bit_lookup _ _ _ (G' _ l)). unfold padded. destruct (Z.ltb_spec m 64).
    + rewrite decide_True by (Z.div_mod_to_equations; lia).
      rewrite (bit_lookup b m x), Z.land_spec, Z.mod_small by
        (lia || by replace (Z.to_nat (m / 64)) with 0%nat by (Z.div_mod_to_equations; lia)).
      done.
    + rewrite decide_False by (Z.div_mod_to_equations; lia).
      destruct pad; [|by rewrite Z.testbit_0_l]. simpl.
      rewrite chunk_bit by (try apply Z.mod_pos_bound; lia). f_equal.
      rewrite Z2Nat.id by (apply Z.div_pos; lia). Z.div_mod_to_equations. lia.
  - unfold bit at 1. rewrite lookup_ge_None_2 by lia.
    zcases; try (Z.div_mod_to_equations; lia); by destruct pad.
Qed.

Lemma intersect_and_pad_ok :
  ∃ b', intersect_and_pad dbug width b v pad = Some b' ∧ wf width b' ∧
    ∀ m, 0 ≤ m → bit b' m = if m <? 64 then bit b m && Z.testbit v m else pad && (m <? width).
Proof.
  destruct pad_array as (b' & E & L & G). exists b'.
  assert (∀ m, 0 ≤ m → bit b' m = if m <? 64 then bit b m && Z.testbit v m
    else pad && (m <? width)) as Hbit by (intros; by apply padded_bit).
  split_and!; [done| |done]. split_and!; [done| |].
  - apply Forall_lookup. intros i y Hy.
    rewrite G in Hy by (apply lookup_lt_Some in Hy; lia). injection Hy as <-. unfold padded.
    case_decide; [apply land_in_u; [lia|done|apply Hv]|].
    destruct pad; [apply chunk_in_u; lia|by vm_compute].
  - intros m Hm. destruct Hwf as (_ & _ & Hz). rewrite Hbit, Hz by lia.
    zcases; try lia; by rewrite ?andb_false_r.
Qed.
End Pad.
End Width.

(** ** Enumeration *)

(** The set bits of one element, and of an array whose first bit is [off]. *)
Definition elem_bits (x : Z) : list Z := filter (λ j, Z.testbit x j = true) (seqZ 0 64).

Fixpoint all_bits (off : Z) (b : list Z) : list Z :=
  match b with
  | [] => []
  | x :: b => ((λ j, off + j) <$> elem_bits x) ++ all_bits (off + 64) b
  end.

(** Reference: the positions of the set bits, in increasing order. *)
Definition members (width : Z) (b : list Z) : list Z :=
  filter (λ m, bit b m = true) (seqZ 0 width).

Lemma bit_cons x b m : 0 ≤ m →
  bit (x :: b) m = if m <? 64 then Z.testbit x m else bit b (m - 64).
Proof.
  intros Hm. unfold bit. destruct (Z.ltb_spec m 64).
  - replace (Z.to_nat (m / 64)) with 0%nat by (Z.div_mod_to_equations; lia).
    simpl. by rewrite Z.mod_small by lia.
  - replace (Z.to_nat (m / 64)) with (S (Z.to_nat ((m - 64) / 64)))
      by (Z.div_mod_to_equations; lia).
    simpl. replace ((m - 64) mod 64) with (m mod 64); [done|]. Z.div_mod_to_equations. lia.
Qed.

Lemma all_bits_filter off b :
  all_bits off b = (λ m, off + m) <$> filter (λ m, bit b m = true) (seqZ 0 (64 * Z.of_nat (length b))).
Proof.
  revert off. induction b as [|x b IH]; intros off; [done|]. cbn [all_bits length].
  replace (64 * Z.of_nat (S (length b))) with (64 + 64 * Z.of_nat (length b)) by lia.
  rewrite seqZ_app, filter_app, fmap_app by lia. apply (f_equal2 app).
  - unfold elem_bits.
    rewrite (filter_ext_in (λ j, Z.testbit x j = true) (λ m, bit (x :: b) m = true)); [done|].
    intros m Hm. apply elem_of_seqZ in Hm. rewrite bit_cons by lia. zcases; [done|lia].
  - rewrite IH, Z.add_0_l.
    replace (seqZ 64 (64 * Z.of_nat (length b))) with (Z.add 64 <$> seqZ 0 (64 * Z.of_nat (length b)))
      by (by rewrite fmap_add_seqZ).
    rewrite filter_fmap, <- list_fmap_compose.
    rewrite (filter_ext_in ((λ m, bit (x :: b) m = true) ∘ Z.add 64) (λ m, bit b m = true)).
    + apply list_fmap_ext. intros _ m _. simpl. lia.
    + intros m Hm. apply elem_of_seqZ in Hm. simpl. rewrite bit_cons by lia.
      zcases; [lia|]. by replace (64 + m - 64) with m by lia.
Qed.

(** For a well-formed bitmap the two enumerations agree. *)
Lemma all_bits_members width b : 0 < width → wf width b → all_bits 0 b = members width b.
Proof.
  intros Hw (Hl & _ & Hz). pose proof (elements_bounds width Hw). rewrite all_bits_filter.
  replace (64 * Z.of_nat (length b)) with (width + (64 * Z.of_nat (length b) - width)) by lia.
  rewrite seqZ_app, filter_app by lia. rewrite (filter_none _ (seqZ (0 + width) _)).
  - rewrite app_nil_r. unfold members. apply list_fmap_id.
  - intros m Hm. apply elem_of_seqZ in Hm. rewrite Hz by lia. done.
Qed.

Lemma popcount_elem_bits n v :
  popcount n v = Z.of_nat (length (filter (λ j, Z.testbit v j = true) (seqZ 0 (Z.of_nat n)))).
Proof.
  revert v. induction n as [|n IH]; intros v; [done|]. cbn [popcount]. rewrite IH.
  rewrite Nat2Z.inj_succ, (seqZ_cons 0 (Z.succ _)) by lia. rewrite filter_cons.
  replace (Z.pred (Z.succ (Z.of_nat n))) with (Z.of_nat n) by lia.
  replace (seqZ (Z.succ 0) (Z.of_nat n)) with (Z.add 1 <$> seqZ 0 (Z.of_nat n))
    by (by rewrite fmap_add_seqZ).
  rewrite filter_fmap.
  rewrite (filter_ext_in ((λ j, Z.testbit v j = true) ∘ Z.add 1)
    (λ j, Z.testbit (Z.shiftr v 1) j = true)).
  - destruct (Z.testbit v 0) eqn:E; case_decide; try done; cbn [length Z.b2z];
      rewrite length_fmap; lia.
  - intros j Hj. apply elem_of_seqZ in Hj. simpl. rewrite Z.shiftr_spec by lia.
    by rewrite Z.add_comm.
Qed.

(** The accumulated count, modulo [2^32]. *)
Lemma count_fold off (l : list Z) r : Forall (in_u 64) l →
  foldl (λ res b, to_uint32 (res + my_count_bits b)) (to_uint32 r) l
  = to_uint32 (r + Z.of_nat (length (all_bits off l))).
Proof.
  revert off r. induction l as [|x l IH]; intros off r Hl; simpl foldl.
  { simpl. by rewrite Z.add_0_r. }
  apply Forall_cons in Hl as [Hx Hl]. unfold to_uint32 at 2 3. rewrite wrap_add_l.
  rewrite (IH (off + 64)) by done. cbn [all_bits]. rewrite length_app, length_fmap.
  rewrite count_bits_correct, popcount_elem_bits by done.
  change (Z.of_nat 64) with 64. fold (elem_bits x).
  f_equal. lia.
Qed.

(** [bits_set] counts the members. *)
Lemma bits_set_ok width b : 0 < width < 2 ^ 32 → wf width b →
  bits_set b = Z.of_nat (length (members width b)).
Proof.
  intros Hw Hwf. pose proof Hwf as (_ & Hu & _).
  unfold bits_set. change 0 with (to_uint32 0) at 1. rewrite (count_fold 0) by done.
  rewrite (all_bits_members width b) by (done || lia). apply wrap_id.
  assert (length (members width b) ≤ length (seqZ 0 width))%nat as Hlen
    by apply length_filter.
  rewrite length_seqZ in Hlen. unfold in_u. lia.
Qed.

(** ** The iterators *)

Lemma elem_bits_lowest x k : in_u 64 x → lowest_bit x k → k < 64 →
  elem_bits x = k :: elem_bits (Z.land x (unot 64 (2 ^ k))).
Proof.
  intros Hx (Hk0 & Hk & Hlow) Hk64. unfold elem_bits.
  assert (seqZ 0 64 = seqZ 0 k ++ [k] ++ seqZ (k + 1) (63 - k)) as ->.
  { replace 64 with (k + (1 + (63 - k))) by lia. rewrite !seqZ_app by lia. done. }
  rewrite !filter_app, !(filter_none _ (seqZ 0 k)).
  - rewrite !app_nil_l, !filter_cons, !filter_nil.
    rewrite decide_True by done.
    rewrite decide_False
      by (rewrite Z.land_spec, unot_testbit, Z.pow2_bits_true by lia; by destruct (Z.testbit x k)).
    simpl. f_equal. apply filter_ext_in. intros j Hj. apply elem_of_seqZ in Hj.
    rewrite Z.land_spec, unot_testbit, pow2_mask_bit by lia.
    destruct (Z.eqb_spec j k); [lia|]. by rewrite andb_true_r.
  - intros j Hj. apply elem_of_seqZ in Hj. rewrite Z.land_spec, Hlow by lia. done.
  - intros j Hj. apply elem_of_seqZ in Hj. rewrite Hlow by lia. done.
Qed.

Lemma next_bit_ok t : in_u 64 t →
  match elem_bits t with
  | [] => next_bit t = Some (TABLE_MAP_END, t)
  | k :: ks => ∃ t', next_bit t = Some (k, t') ∧ in_u 64 t' ∧ elem_bits t' = ks ∧ 0 ≤ k < 64
  end.
Proof.
  intros Ht. unfold next_bit. destruct (truth t) eqn:E; simpl negb; cbv iota.
  - apply truth_true in E. destruct (find_first_bit_nonzero t Ht E) as (k & -> & Hlow & Hk).
    pose proof Hlow as (Hk0 & _). simpl. rewrite shl1_ok by lia. simpl.
    rewrite (elem_bits_lowest t k) by done. eexists. split_and!; [done| |done|lia|lia].
    apply land_in_u; [lia|done|apply unot_in_u].
  - apply truth_false in E as ->. reflexivity.
Qed.

(** Iterating a [Table_map_iterator]: [next_bit] until [BITMAP_END]. *)
Fixpoint table_map_list (fuel : nat) (bmp : Z) : option (list Z) :=
  match fuel with
  | O => None
  | S fuel => '(k, bmp) ← next_bit bmp;
              if k =? TABLE_MAP_END then Some [] else
              r ← table_map_list fuel bmp; Some (k :: r)
  end.

Lemma table_map_list_ok fuel bmp : in_u 64 bmp → (length (elem_bits bmp) < fuel)%nat →
  table_map_list fuel bmp = Some (elem_bits bmp).
Proof.
  revert bmp. induction fuel as [|fuel IH]; intros bmp Hb Hf; [lia|].
  simpl table_map_list. pose proof (next_bit_ok bmp Hb) as H.
  destruct (elem_bits bmp) as [|k ks] eqn:E.
  - rewrite H. done.
  - destruct H as (t' & -> & Ht' & Et' & Hk). simpl. simpl in Hf.
    destruct (Z.eqb_spec k TABLE_MAP_END) as [->|]; [unfold TABLE_MAP_END in Hk; lia|].
    rewrite IH, Et' by (done || (rewrite Et'; lia)). done.
Qed.

Section Iterate.
Context (width : Z) (Hw : 0 < width < 2 ^ 32) (map : list Z) (Hmap : wf width map).

(** The bits an iterator has still to return. *)
Definition remaining (it : iterator) : list Z :=
  ((λ j, offset it + j) <$> elem_bits (tmi it)) ++
  all_bits (offset it + 64) (drop (S (Z.to_nat (offset it / 64))) map).

(** The iterator stands inside the array, on an element boundary. *)
Definition it_ok (it : iterator) : Prop :=
  ∃ i, offset it = 64 * Z.of_nat i ∧ (i < elements_n width)%nat ∧ in_u 64 (tmi it) ∧
    Forall (λ m, m < width) (remaining it).

(** Iterating until [BITMAP_END]. *)
Fixpoint iterate (fuel : nat) (it : iterator) : option (list Z) :=
  match fuel with
  | O => None
  | S fuel => '(k, it) ← iterator_next width (elements_n width) map it;
              if k =? width then Some [] else
              r ← iterate fuel it; Some (k :: r)
  end.

(** One call of [operator++]; the loop visits each element at most once. *)
Lemma iterator_next_ok fuel it i : it_ok it → offset it = 64 * Z.of_nat i →
  (elements_n width - i ≤ fuel)%nat →
  match remaining it with
  | [] => ∃ it', iterator_next width fuel map it = Some (width, it')
  | k :: ks => ∃ it', iterator_next width fuel map it = Some (k, it') ∧ it_ok it' ∧
                 remaining it' = ks
  end.
Proof.
  revert it i. induction fuel as [|fuel IH]; intros it i Hok Hi Hf;
    destruct Hok as (i' & Hi' & Hlt & Ht & Hall); assert (i' = i) as -> by lia; [lia|].
  pose proof (elements_bounds width ltac:(lia)) as Hel.
  cbn [iterator_next]. pose proof (next_bit_ok (tmi it) Ht) as Hnb.
  unfold remaining in Hall |- *.
  destruct (elem_bits (tmi it)) as [|k ks] eqn:Ek.
  - rewrite Hnb. simpl. simpl in Hall. unfold BITS_PER_ELEMENT.
    replace (Z.to_nat (offset it / 64)) with i in * by (rewrite Hi; Z.div_mod_to_equations; lia).
    destruct (Z.leb_spec width (offset it + 64)) as [Hend|Hmore].
    + destruct Hmap as (Hl & _). rewrite drop_ge by (rewrite Hl; lia). simpl. by eexists.
    + destruct (lookup_lt_is_Some_2 map (S i)) as [y Ey].
      { destruct Hmap as (Hl & _). lia. }
      unfold to_uint32. rewrite wrap_id by (unfold in_u; lia).
      replace (Z.to_nat ((offset it + 64) / 64)) with (S i)
        by (rewrite Hi; Z.div_mod_to_equations; lia).
      rewrite Ey. simpl. rewrite (drop_S map y (S i)) in Hall |- * by done.
      cbn [all_bits] in Hall |- *.
      assert (remaining (Iterator (offset it + 64) y)
        = ((λ j, offset it + 64 + j) <$> elem_bits y) ++ all_bits (offset it + 64 + 64) (drop (S (S i)) map))
        as Er.
      { unfold remaining. simpl. do 3 f_equal. rewrite Hi. Z.div_mod_to_equations. lia. }
      rewrite <- Er in Hall |- *. apply (IH _ (S i)); [|simpl; lia|lia].
      exists (S i). simpl. split_and!; [lia|lia| |done].
      destruct Hmap as (_ & Hu & _). by apply (Forall_lookup_1 _ _ _ _ Hu Ey).
  - destruct Hnb as (t' & -> & Ht' & Et' & Hk). simpl. unfold TABLE_MAP_END.
    destruct (Z.eqb_spec k 64); [lia|]. simpl. simpl in Hall.
    apply Forall_cons in Hall as [Hkw Hall].
    unfold to_uint32. rewrite wrap_id by (unfold in_u; lia).
    eexists. split; [done|]. unfold it_ok, remaining. simpl. rewrite Et'.
    split; [|done]. exists i. done.
Qed.

Lemma iterate_ok fuel it : it_ok it → (length (remaining it) < fuel)%nat →
  iterate fuel it = Some (remaining it).
Proof.
  revert it. induction fuel as [|fuel IH]; intros it Hok Hf; [lia|]. cbn [iterate].
  pose proof Hok as (i & Hi & Hlt & _ & Hall).
  pose proof (iterator_next_ok (elements_n width) it i Hok Hi ltac:(lia)) as H.
  destruct (remaining it) as [|k ks] eqn:Er.
  - destruct H as [it' ->]. simpl. by rewrite Z.eqb_refl.
  - destruct H as (it' & -> & Hok' & Er'). simpl in *.
    apply Forall_cons in Hall as [Hkw _]. destruct (Z.eqb_spec k width); [lia|].
    rewrite IH, Er' by (done || (rewrite Er'; lia)). done.
Qed.

Lemma iterate_members : ∃ it, iterator_init map = Some it ∧
  iterate (S (length (members width map))) it = Some (members width map).
Proof.
  pose proof (elements_bounds width ltac:(lia)) as Hel.
  pose proof Hmap as (Hl & Hu & _).
  destruct (lookup_lt_is_Some_2 map 0) as [x Ex]; [lia|].
  exists (Iterator 0 x). unfold iterator_init. rewrite Ex. split; [done|].
  assert (remaining (Iterator 0 x) = members width map) as Er.
  { rewrite <- all_bits_members by (done || lia). unfold remaining. simpl offset. simpl tmi.
    change (Z.to_nat (0 / 64)) with 0%nat. rewrite <- (drop_0 map) at 2.
    by rewrite (drop_S map x 0 Ex). }
  rewrite <- Er. apply iterate_ok; [|lia].
  exists 0%nat. simpl. rewrite Er.
  split_and!; [done|lia|by apply (Forall_lookup_1 _ _ _ _ Hu Ex)|].
  apply Forall_forall. intros m Hm. unfold members in Hm.
  apply list_elem_of_filter in Hm as [_ Hm]. apply elem_of_seqZ in Hm. lia.
Qed.
End Iterate.

(** ** Main results *)

(** [set_bit], [clear_bit] and [is_set] at any position below [width], in
    debug and release builds: they are defined, keep the array well formed and
    read or change exactly the addressed bit. *)
Theorem bitmap_single_bit dbug width b n :
  0 < width → wf width b → 0 ≤ n < width →
  is_set dbug width b n = Some (bit b n) ∧
  (∃ b', set_bit dbug width b n = Some b' ∧ wf width b' ∧
     ∀ m, 0 ≤ m → bit b' m = (m =? n) || bit b m) ∧
  (∃ b', clear_bit dbug width b n = Some b' ∧ wf width b' ∧
     ∀ m, 0 ≤ m → bit b' m = negb (m =? n) && bit b m).
Proof.
  intros Hw Hb Hn. split_and!; [by apply is_set_ok|by apply set_bit_ok|by apply clear_bit_ok].
Qed.

(** A concrete well-formed bitmap of 70 bits: bits 0, 63 and 69. *)
Definition sample70 : list Z := [0x8000000000000001; 0x20].

Lemma sample70_wf : wf 70 sample70.
Proof.
  split_and!; [reflexivity| |].
  - repeat (apply List.Forall_cons; [by vm_compute|]). apply List.Forall_nil.
  - intros m Hm. unfold bit, sample70.
    destruct (decide (m < 128)).
    + replace (Z.to_nat (m / 64)) with 1%nat by (Z.div_mod_to_equations; lia). simpl.
      replace (m mod 64) with (m - 64) by (Z.div_mod_to_equations; lia).
      apply (in_u_testbit 6); [by vm_compute|lia].
    + rewrite lookup_ge_None_2; [done|]. simpl. Z.div_mod_to_equations. lia.
Qed.

Lemma bitmap_single_bit_witness :
  is_set true 70 sample70 69 = Some true ∧
  ∃ b', clear_bit true 70 sample70 69 = Some b' ∧ bit b' 69 = false ∧ bit b' 63 = true.
Proof.
  destruct (bitmap_single_bit true 70 sample70 69 ltac:(lia) sample70_wf ltac:(lia))
    as (H1 & _ & b' & H2 & _ & H3).
  split; [rewrite H1; reflexivity|]. exists b'. split; [exact H2|].
  rewrite !H3 by lia. split; reflexivity.
Defined.

(** C21: on well-formed bitmaps of the same width, [intersect], [merge],
    [subtract], [is_subset], [is_overlapping], [operator==] and [is_clear_all]
    are intersection, union, difference, inclusion, overlap, equality and
    emptiness of the sets of bits. *)
Theorem bitmap_set_algebra width b1 b2 :
  0 < width → wf width b1 → wf width b2 →
  (∀ m, 0 ≤ m → bit (intersect b1 b2) m = bit b1 m && bit b2 m) ∧
  (∀ m, 0 ≤ m → bit (merge b1 b2) m = bit b1 m || bit b2 m) ∧
  (∀ m, 0 ≤ m → bit (subtract b1 b2) m = bit b1 m && negb (bit b2 m)) ∧
  (is_subset b1 b2 = true ↔ ∀ m, 0 ≤ m → bit b1 m = true → bit b2 m = true) ∧
  (is_overlapping b1 b2 = true ↔ ∃ m, 0 ≤ m < width ∧ bit b1 m = true ∧ bit b2 m = true) ∧
  (eq_bitmap b1 b2 = true ↔ ∀ m, 0 ≤ m → bit b1 m = bit b2 m) ∧
  (is_clear_all b1 = true ↔ ∀ m, 0 ≤ m → bit b1 m = false).
Proof.
  intros Hw H1 H2. destruct (intersect_ok width Hw b1 b2 H1 H2) as [Wi Bi].
  destruct (merge_ok width Hw b1 b2 H1 H2) as [_ Bm].
  destruct (subtract_ok width Hw b1 b2 H1 H2) as [Ws Bs].
  split_and!; [done|done|done| | |by apply (eq_bitmap_ok width)|by apply (is_clear_all_ok width)].
  - rewrite is_subset_eq, (is_clear_all_ok width) by done. split.
    + intros H m Hm E1. specialize (H m Hm). rewrite Bs, E1 in H by done.
      by destruct (bit b2 m).
    + intros H m Hm. rewrite Bs by done. specialize (H m Hm).
      destruct (bit b1 m); [by rewrite H|done].
  - rewrite is_overlapping_eq, negb_true_iff. split.
    + intros Hc.
      destruct (decide (Exists (λ m, bit (intersect b1 b2) m = true) (seqZ 0 width))) as [He|He].
      * apply Exists_exists in He as (m & Hm & E). apply elem_of_seqZ in Hm.
        exists m. rewrite Bi, andb_true_iff in E by lia. split; [lia|done].
      * exfalso. enough (is_clear_all (intersect b1 b2) = true) by congruence.
        apply (is_clear_all_ok width); [done|]. intros m Hm.
        destruct (decide (m < width)); [|destruct Wi as (_ & _ & Hz); apply Hz; lia].
        destruct (bit (intersect b1 b2) m) eqn:E; [|done]. exfalso. apply He.
        apply Exists_exists. exists m. split; [apply elem_of_seqZ; lia|done].
    + intros (m & Hm & E1 & E2). destruct (is_clear_all (intersect b1 b2)) eqn:Ec; [|done].
      rewrite (is_clear_all_ok width) in Ec by done. specialize (Ec m).
      rewrite Bi, E1, E2 in Ec by lia. simpl in Ec. by rewrite Ec by lia.
Qed.

Lemma bitmap_set_algebra_witness :
  is_overlapping sample70 sample70 = true ∧ bit (subtract sample70 sample70) 69 = false.
Proof.
  destruct (bitmap_set_algebra 70 sample70 sample70 ltac:(lia) sample70_wf sample70_wf)
    as (_ & _ & H1 & _ & H2 & _).
  split; [apply H2; exists 69; split; [lia|split; reflexivity]|].
  rewrite H1 by lia. reflexivity.
Defined.

(** prefixes and fills, in a release build: after [set_prefix(p)] exactly
    the bits below [min(p, width)] are set, [set_all] and [clear_all] are the
    full and the empty prefix, and [is_prefix(p)] holds exactly on the bitmaps
    whose set bits are those below [p].  All results are well formed. *)
Theorem bitmap_prefix_release width b p :
  0 < width → wf width b → 0 ≤ p →
  (∃ b', set_prefix false width b p = Some b' ∧ wf width b' ∧
     ∀ m, 0 ≤ m → bit b' m = (m <? Z.min p width)) ∧
  (∃ b', set_all false width b = Some b' ∧ wf width b' ∧ ∀ m, 0 ≤ m → bit b' m = (m <? width)) ∧
  (∃ b', clear_all width b = Some b' ∧ wf width b' ∧ ∀ m, 0 ≤ m → bit b' m = false) ∧
  (p ≤ width → ∃ r, is_prefix false width b p = Some r ∧
     (r = true ↔ ∀ m, 0 ≤ m → bit b m = (m <? p))).
Proof.
  intros Hw Hb Hp. pose proof Hb as (Hl & Hu & _). split_and!.
  - exists (prefix_list width (Z.min p width)). split_and!.
    + destruct (decide (p ≤ width)).
      * rewrite Z.min_l by lia. apply set_prefix_ok; [done|done|lia|by right; right].
      * rewrite Z.min_r by lia. transitivity (set_prefix false width b width).
        { unfold set_prefix. rewrite Z.ltb_irrefl. zcases; [done|lia]. }
        apply set_prefix_ok; [done|done|lia|by right; right].
    + apply prefix_list_wf; lia.
    + intros m Hm. apply prefix_list_bit; lia.
  - exists (prefix_list width width). rewrite set_all_ok by (done || by right).
    split_and!; [done|apply prefix_list_wf; lia|intros; apply prefix_list_bit; lia].
  - exists (prefix_list width 0). rewrite clear_all_ok by done.
    split_and!; [done|apply prefix_list_wf; lia|]. intros m Hm.
    rewrite prefix_list_bit by lia. zcases; [lia|done].
  - intros Hpw. rewrite is_prefix_ok by (done || lia || by right; right).
    eexists. split; [done|]. rewrite bool_decide_eq_true.
    destruct (prefix_list_wf width Hw p ltac:(lia)) as (Lp & Up & _). split.
    + intros -> m Hm. apply prefix_list_bit; lia.
    + intros H. apply bits_ext; [congruence|done|done|]. intros m Hm.
      rewrite H, prefix_list_bit by lia. done.
Qed.

Lemma bitmap_prefix_release_witness :
  ∃ b', set_prefix false 70 sample70 66 = Some b' ∧ wf 70 b' ∧
    ∀ m, 0 ≤ m → bit b' m = (m <? 66).
Proof.
  exact (proj1 (bitmap_prefix_release 70 sample70 66 ltac:(lia) sample70_wf ltac:(lia))).
Defined.

(** in a debug build, [set_prefix(width)] and [set_all()] abort on every
    bitmap whose width is not a multiple of 64: [last_element_mask(width)]
    calls [bit_mask(width)], which asserts [n < width]. *)
Theorem bitmap_debug_full_prefix_aborts width b :
  0 < width → width mod 64 ≠ 0 → length b = elements_n width →
  set_prefix true width b width = None ∧ set_all true width b = None.
Proof.
  intros Hw Hm Hl. pose proof (set_prefix_assert true width Hw b eq_refl Hm Hl) as H.
  split; [done|]. unfold set_all, BITS_PER_ELEMENT. by rewrite (proj2 (truth_true _)).
Qed.

Lemma bitmap_debug_full_prefix_aborts_witness : set_all true 70 [0; 0] = None.
Proof.
  exact (proj2 (bitmap_debug_full_prefix_aborts 70 [0; 0] ltac:(lia) ltac:(done) eq_refl)).
Defined.

(** C22: both iterators terminate and return each set bit once, in increasing
    order, before their end marker; [bits_set] is the number of set bits. *)
Theorem bitmap_iteration width b bmp :
  0 < width < 2 ^ 32 → wf width b → in_u 64 bmp →
  (∃ it, iterator_init b = Some it ∧
     iterate width b (S (length (members width b))) it = Some (members width b)) ∧
  bits_set b = Z.of_nat (length (members width b)) ∧
  table_map_list (S (length (elem_bits bmp))) bmp = Some (elem_bits bmp).
Proof.
  intros Hw Hb Hm. split_and!; [by apply iterate_members|by apply bits_set_ok|].
  apply table_map_list_ok; [done|lia].
Qed.

Lemma bitmap_iteration_witness :
  bits_set sample70 = 3 ∧
  ∃ it, iterator_init sample70 = Some it ∧ iterate 70 sample70 4 it = Some [0; 63; 69].
Proof.
  destruct (bitmap_iteration 70 sample70 5 ltac:(lia) sample70_wf ltac:(by vm_compute))
    as (H1 & H2 & _).
  split; [rewrite H2; reflexivity|].
  replace 4%nat with (S (length (members 70 sample70))) by reflexivity.
  replace [0; 63; 69] with (members 70 sample70) by reflexivity. exact H1.
Defined.

(** [intersect_extended] does not intersect the bits from 64 up: it sets
    all of them when bit 63 of the argument is set and clears all of them
    otherwise, whatever the bitmap held. *)
Theorem bitmap_intersect_extended width b v :
  0 < width → wf width b → in_u 64 v →
  ∃ b', intersect_extended false width b v = Some b' ∧ wf width b' ∧
    ∀ m, 0 ≤ m → bit b' m = if m <? 64 then bit b m && Z.testbit v m
                            else Z.testbit v 63 && (m <? width).
Proof.
  intros Hw Hb Hv. pose proof Hb as (Hl & Hu & _).
  pose proof (elements_bounds width Hw).
  destruct (lookup_lt_is_Some_2 b 0) as [x Ex]; [lia|].
  unfold intersect_extended. rewrite truth_bit by lia.
  apply (intersect_and_pad_ok false width Hw b Hb x); [done| |done|by right].
  by apply (Forall_lookup_1 _ _ _ _ Hu Ex).
Qed.

Lemma bitmap_intersect_extended_witness :
  ∃ b', intersect_extended false 70 [0; 0] (2 ^ 63) = Some b' ∧ bit b' 69 = true.
Proof.
  destruct (bitmap_intersect_extended 70 [0; 0] (2 ^ 63)) as (b' & H1 & _ & H2).
  - lia.
  - split_and!; [reflexivity|repeat (apply List.Forall_cons; [by vm_compute|]); apply List.Forall_nil|].
    intros m Hm. unfold bit. destruct (_ !! _) as [x|] eqn:E; [|done].
    assert (x = 0) as ->; [|apply Z.testbit_0_l].
    destruct (Z.to_nat (m / 64)) as [|[|k]]; inversion E; done.
  - by vm_compute.
  - exists b'. split; [exact H1|]. rewrite H2 by lia. reflexivity.
Defined.

(** [print] of a bitmap with a set bit at position 64 or above is
    undefined: the digit loop adds 4 to the shift count instead of subtracting
    it, so the second digit shifts a 64-bit value by 64. *)
Theorem bitmap_print_undefined width b m digits ll2str :
  0 < width → wf width b → 64 ≤ m → bit b m = true →
  print width digits ll2str b = None.
Proof.
  intros Hw (Hl & Hu & Hz) Hm Hb. unfold print.
  assert (∃ i y, b !! S i = Some y ∧ y ≠ 0 ∧ (S i < elements_n width)%nat) as (i & y & Ey & Hy & Hi).
  { unfold bit in Hb. destruct (b !! Z.to_nat (m / 64)) as [y|] eqn:E; [|done].
    exists (Z.to_nat (m / 64) - 1)%nat, y.
    replace (S (Z.to_nat (m / 64) - 1)) with (Z.to_nat (m / 64)) by (Z.div_mod_to_equations; lia).
    split_and!; [done|intros ->; by rewrite Z.testbit_0_l in Hb|].
    rewrite <- Hl. by apply lookup_lt_Some in E. }
  assert (∀ k, (S i ≤ k < length b)%nat → ∃ j, print_last b k = Some (S j) ∧ (S j ≤ k)%nat) as Hlast.
  { induction k as [|k IH]; intros Hk; [lia|]. cbn [print_last].
    destruct (lookup_lt_is_Some_2 b (S k)) as [z Ez]; [lia|]. rewrite Ez. simpl.
    destruct (truth z) eqn:Et; [by exists k|]. apply truth_false in Et as ->.
    destruct (decide (S i = S k)) as [E|]; [rewrite E in Ey; congruence|].
    destruct IH as (j & -> & Hj); [lia|]. exists j. split; [done|lia]. }
  destruct (Hlast (elements_n width - 1)%nat) as (j & -> & Hj); [lia|]. simpl.
  destruct b as [|x b]; [simpl in Hl; lia|]. reflexivity.
Qed.

Lemma bitmap_print_undefined_witness : print 70 (λ d, d) (λ v, [v]) sample70 = None.
Proof.
  exact (bitmap_print_undefined 70 sample70 69 (λ d, d) (λ v, [v]) ltac:(lia) sample70_wf
    ltac:(lia) eq_refl).
Defined.
