(* ===== verification/SqlTypeInt.v ===== *)
(** Integer values of the executor, [sql_type_int.h]: [Longlong_null], the
    nullable 64-bit integer on which the SQL bit operators work, and
    [Longlong_hybrid], a [longlong] with a flag saying whether it is to be read
    as signed or unsigned.  The bit operators are shown to refine the
    three-valued operators on 64-bit unsigned numbers, the hybrid's comparison
    and conversions to be those of the mathematical integers. *)
From S2P Require Import Prelude MyBit.

Definition LONGLONG_MAX : Z := 0x7FFFFFFFFFFFFFFF.
Definition LONGLONG_MIN : Z := - 0x8000000000000000.

(** ** [class Longlong_null] *)
Module Null.

(** The base classes [Longlong] and [Null_flag]. *)
Record Longlong_null := { value : Z; is_null : bool }.

Definition Longlong_null0 : Longlong_null := {| value := 0; is_null := true |}.
Definition Longlong_null1 (nr : Z) : Longlong_null := {| value := nr; is_null := false |}.

Definition op_or (a other : Longlong_null) : Longlong_null :=
  if is_null a || is_null other then Longlong_null0
  else Longlong_null1 (Z.lor (value a) (value other)).

Definition op_and (a other : Longlong_null) : Longlong_null :=
  if is_null a || is_null other then Longlong_null0
  else Longlong_null1 (Z.land (value a) (value other)).

Definition op_xor (a other : Longlong_null) : Longlong_null :=
  if is_null a || is_null other then Longlong_null0
  else Longlong_null1 (to_longlong (Z.lxor (value a) (value other))).

Definition op_not (a : Longlong_null) : Longlong_null :=
  if is_null a then a
  else Longlong_null1 (to_longlong (unot 64 (to_ulonglong (value a)))).

Definition op_shl (a llshift : Longlong_null) : Longlong_null :=
  if is_null a || is_null llshift then Longlong_null0
  else let shift := to_uint32 (value llshift) in
       let res := if shift <? 8 * 8
                  then to_ulonglong (Z.shiftl (to_ulonglong (value a)) shift) else 0 in
       Longlong_null1 (to_longlong res).

Definition op_shr (a llshift : Longlong_null) : Longlong_null :=
  if is_null a || is_null llshift then Longlong_null0
  else let shift := to_uint32 (value llshift) in
       let res := if shift <? 8 * 8
                  then Z.shiftr (to_ulonglong (value a)) shift else 0 in
       Longlong_null1 (to_longlong res).

Definition bit_count (a : Longlong_null) : Longlong_null :=
  if is_null a then a
  else Longlong_null1 (to_longlong (my_count_bits (to_ulonglong (value a)))).

(** *** Specification: [NULL] or a number below 2^64 *)

(** The SQL value: [NULL], or the 64-bit unsigned number. *)
Definition sql (a : Longlong_null) : option Z :=
  if is_null a then None else Some (wrap 64 (value a)).

(** A [NULL] operand makes the result [NULL]. *)
Definition lift2 (f : Z → Z → Z) (x y : option Z) : option Z :=
  x ← x; y ← y; Some (f x y).

(** [x << s] and [x >> s] take the shift count modulo 2^32. *)
Definition sql_shl (x s : Z) : Z := (x * 2 ^ (s mod 2 ^ 32)) mod 2 ^ 64.
Definition sql_shr (x s : Z) : Z := x / 2 ^ (s mod 2 ^ 32).

(** Class invariant: the value is a [longlong]. *)
Definition wf (a : Longlong_null) : Prop := in_s 64 (value a).

End Null.

(** ** [class Longlong_hybrid] *)
Module Hybrid.

Record Longlong_hybrid := { m_value : Z; m_unsigned : bool }.

Definition cmp_signed (a other : Longlong_hybrid) : Z :=
  if m_value a <? m_value other then -1
  else if m_value a =? m_value other then 0 else 1.

Definition cmp_unsigned (a other : Longlong_hybrid) : Z :=
  if Prelude.to_ulonglong (m_value a) <? Prelude.to_ulonglong (m_value other) then -1
  else if m_value a =? m_value other then 0 else 1.

Definition is_unsigned_outside_of_signed_range (a : Longlong_hybrid) : bool :=
  m_unsigned a && (Prelude.to_ulonglong LONGLONG_MAX <? Prelude.to_ulonglong (m_value a)).

Definition neg (a : Longlong_hybrid) : bool := (m_value a <? 0) && negb (m_unsigned a).

Definition abs (a : Longlong_hybrid) : Z :=
  if m_unsigned a then Prelude.to_ulonglong (m_value a)
  else if m_value a =? LONGLONG_MIN
  then Prelude.to_ulonglong (Prelude.to_ulonglong LONGLONG_MAX + 1)
  else Prelude.to_ulonglong (if m_value a <? 0 then - m_value a else m_value a).

Definition to_ulonglong (a : Longlong_hybrid) (upper_bound : Z) : Z :=
  if neg a then 0
  else if upper_bound <? Prelude.to_ulonglong (m_value a) then upper_bound
  else Prelude.to_ulonglong (m_value a).

Definition to_uint (a : Longlong_hybrid) (upper_bound : Z) : Z :=
  to_uint32 (to_ulonglong a upper_bound).

Definition cmp (a other : Longlong_hybrid) : Z :=
  if eqb (m_unsigned a) (m_unsigned other)
  then if m_unsigned a then cmp_unsigned a other else cmp_signed a other
  else if is_unsigned_outside_of_signed_range a then 1
  else if is_unsigned_outside_of_signed_range other then -1
  else cmp_signed a other.

Definition eq_hybrid (a nr : Longlong_hybrid) : bool := cmp a nr =? 0.

(** [operator==(ulonglong)] and [operator==(uint)]: the argument is converted
    to [longlong] and read as unsigned. *)
Definition eq_ulonglong (a : Longlong_hybrid) (nr : Z) : bool :=
  cmp a {| m_value := to_longlong nr; m_unsigned := true |} =? 0.

(** [operator==(longlong)] and [operator==(int)]. *)
Definition eq_longlong (a : Longlong_hybrid) (nr : Z) : bool :=
  cmp a {| m_value := nr; m_unsigned := false |} =? 0.

(** [Longlong_hybrid_null(nr, unsigned_flag)]. *)
Definition Longlong_hybrid_null (nr : Null.Longlong_null) (unsigned_flag : bool)
  : Longlong_hybrid * bool :=
  ({| m_value := Null.value nr; m_unsigned := unsigned_flag |}, Null.is_null nr).

(** *** Specification: the mathematical integer *)
Definition num (a : Longlong_hybrid) : Z :=
  if m_unsigned a then wrap 64 (m_value a) else m_value a.

Definition wf (a : Longlong_hybrid) : Prop := in_s 64 (m_value a).

(** The sign of a comparison, as the C convention has it. *)
Definition sign (c : comparison) : Z :=
  match c with Lt => -1 | Eq => 0 | Gt => 1 end.

End Hybrid.

(** ** The bit operators *)
Section NullOps.
Import Null.

Lemma to_longlong_sql v : sql (Longlong_null1 (to_longlong v)) = Some (wrap 64 v).
Proof. unfold sql. simpl. unfold to_longlong. by rewrite wrap_swrap by lia. Qed.

(** A [longlong] repeats its sign bit from bit 63 on. *)
Lemma in_s_bits z : in_s 64 z ↔ ∀ i, 63 ≤ i → Z.testbit z i = (z <? 0).
Proof.
  split.
  - intros Hz i Hi. destruct (Z.ltb_spec z 0).
    + rewrite <- (Z.lnot_involutive z), Z.lnot_spec by lia.
      rewrite (in_u_testbit 63); [done| |lia]. unfold in_s, in_u, Z.lnot in *. lia.
    + apply (in_u_testbit 63); [|lia]. unfold in_s, in_u in *. lia.
  - intros H. unfold in_s. destruct (Z.ltb_spec z 0).
    + enough (in_u 63 (Z.lnot z)) by (unfold in_u, Z.lnot in *; lia).
      apply in_u_of_bits; [lia|unfold Z.lnot; lia|]. intros i Hi.
      rewrite Z.lnot_spec, H by lia. done.
    + enough (in_u 63 z) by (unfold in_u in *; lia).
      by apply in_u_of_bits; [lia|lia|].
Qed.

Lemma ltb_0_land x y : (Z.land x y <? 0) = (x <? 0) && (y <? 0).
Proof.
  pose proof (Z.land_neg x y). zcases; simpl; lia || done || (exfalso; tauto).
Qed.

Lemma ltb_0_lor x y : (Z.lor x y <? 0) = (x <? 0) || (y <? 0).
Proof.
  pose proof (Z.lor_neg x y). zcases; simpl; lia || done || (exfalso; tauto).
Qed.

Lemma land_in_s x y : in_s 64 x → in_s 64 y → in_s 64 (Z.land x y).
Proof.
  rewrite !in_s_bits. intros Hx Hy i Hi. by rewrite Z.land_spec, Hx, Hy, ltb_0_land.
Qed.

Lemma lor_in_s x y : in_s 64 x → in_s 64 y → in_s 64 (Z.lor x y).
Proof.
  rewrite !in_s_bits. intros Hx Hy i Hi. by rewrite Z.lor_spec, Hx, Hy, ltb_0_lor.
Qed.

Lemma to_longlong_in_s v : in_s 64 (to_longlong v).
Proof. by apply swrap_in_s. Qed.

Lemma wrap_bitwise w x y : 0 ≤ w →
  wrap w (Z.lor x y) = Z.lor (wrap w x) (wrap w y) ∧
  wrap w (Z.land x y) = Z.land (wrap w x) (wrap w y) ∧
  wrap w (Z.lxor x y) = Z.lxor (wrap w x) (wrap w y).
Proof.
  intros Hw. split_and!; bits i Hi; destruct (i <? w); simpl; try done.
Qed.

Lemma wrap_unot x : wrap 64 (unot 64 (wrap 64 x)) = 2 ^ 64 - 1 - wrap 64 x.
Proof.
  unfold unot. rewrite wrap_wrap. unfold Z.lnot.
  pose proof (wrap_in_u 64 x ltac:(lia)) as H. unfold in_u in H.
  unfold wrap at 1. replace (Z.pred (- wrap 64 x)) with (2 ^ 64 - 1 - wrap 64 x + (-1) * 2 ^ 64) by lia.
  rewrite Z.mod_add, Z.mod_small by lia. lia.
Qed.

Lemma count_bits_sql x : wrap 64 (my_count_bits (wrap 64 x)) = popcount 64 (wrap 64 x).
Proof.
  rewrite count_bits_correct by (by apply wrap_in_u). apply wrap_id.
  pose proof (popcount_bound 64 (wrap 64 x)). unfold in_u. lia.
Qed.

Lemma wrap64_mod32 s : wrap 64 s mod 2 ^ 32 = wrap 32 s.
Proof. apply (wrap_narrow 32 64). lia. Qed.

(** The shift operators: counts from 64 up give 0. *)
Lemma shl_spec x s : 0 ≤ x →
  wrap 64 (if to_uint32 s <? 8 * 8 then to_ulonglong (Z.shiftl x (to_uint32 s)) else 0)
  = sql_shl x (wrap 64 s).
Proof.
  intros Hx. unfold sql_shl, to_uint32, to_ulonglong.
  rewrite wrap64_mod32.
  pose proof (wrap_in_u 32 s ltac:(lia)) as H. unfold in_u in H.
  destruct (Z.ltb_spec (wrap 32 s) (8 * 8)).
  - rewrite wrap_wrap, Z.shiftl_mul_pow2 by lia. done.
  - replace (wrap 32 s) with ((wrap 32 s - 64) + 64) by lia.
    rewrite Z.pow_add_r, Z.mul_assoc, Z.mod_mul by lia. done.
Qed.

Lemma shr_spec x s : in_u 64 x →
  wrap 64 (if to_uint32 s <? 8 * 8 then Z.shiftr x (to_uint32 s) else 0)
  = sql_shr x (wrap 64 s).
Proof.
  intros Hx. unfold sql_shr, to_uint32.
  rewrite wrap64_mod32.
  pose proof (wrap_in_u 32 s ltac:(lia)) as H.
  destruct (Z.ltb_spec (wrap 32 s) (8 * 8)).
  - rewrite Z.shiftr_div_pow2 by apply H. apply wrap_id. unfold in_u in *.
    split; [apply Z.div_pos; lia|]. apply Z.div_lt_upper_bound; nia.
  - rewrite Z.div_small; [done|]. unfold in_u in *.
    assert (2 ^ 64 ≤ 2 ^ wrap 32 s) by (apply Z.pow_le_mono_r; lia). lia.
Qed.
End NullOps.

(** One operator: the [NULL] cases, the class invariant, the value. *)
Ltac null_op :=
  match goal with
  | |- None = None => reflexivity
  | H : in_s 64 ?v |- in_s 64 ?v => exact H
  | |- in_s 64 (to_longlong _) => apply to_longlong_in_s
  | |- in_s 64 (Z.lor _ _) => by apply lor_in_s
  | |- in_s 64 (Z.land _ _) => by apply land_in_s
  | |- Some _ = Some _ => apply (f_equal Some); unfold to_longlong; rewrite ?wrap_swrap by lia;
      first [ done | apply wrap_unot | by apply shr_spec | by apply shl_spec, wrap_in_u
            | apply count_bits_sql ]
  end.

(** the SQL bit operators of [Longlong_null] on 64-bit values: each result
    is a [longlong] again, is [NULL] exactly when an operand is, and otherwise
    is the bitwise operation, complement, shift (count modulo 2^32, zero from
    64 up) or population count of the operands read as unsigned 64-bit
    numbers. *)
Theorem longlong_null_operators a b : Null.wf a → Null.wf b →
  (Null.wf (Null.op_or a b) ∧ Null.sql (Null.op_or a b) = Null.lift2 Z.lor (Null.sql a) (Null.sql b)) ∧
  (Null.wf (Null.op_and a b) ∧ Null.sql (Null.op_and a b) = Null.lift2 Z.land (Null.sql a) (Null.sql b)) ∧
  (Null.wf (Null.op_xor a b) ∧ Null.sql (Null.op_xor a b) = Null.lift2 Z.lxor (Null.sql a) (Null.sql b)) ∧
  (Null.wf (Null.op_shl a b) ∧ Null.sql (Null.op_shl a b) = Null.lift2 Null.sql_shl (Null.sql a) (Null.sql b)) ∧
  (Null.wf (Null.op_shr a b) ∧ Null.sql (Null.op_shr a b) = Null.lift2 Null.sql_shr (Null.sql a) (Null.sql b)) ∧
  (Null.wf (Null.op_not a) ∧ Null.sql (Null.op_not a) = (λ x, 2 ^ 64 - 1 - x) <$> Null.sql a) ∧
  (Null.wf (Null.bit_count a) ∧ Null.sql (Null.bit_count a) = popcount 64 <$> Null.sql a).
Proof.
  destruct a as [va na], b as [vb nb]. unfold Null.wf. cbn [Null.value]. intros Ha Hb.
  destruct (wrap_bitwise 64 va vb ltac:(lia)) as (Eo & Ea & Ex).
  pose proof (wrap_in_u 64 va ltac:(lia)) as Ua.
  assert (in_s 64 0) by (by vm_compute).
  split_and!; destruct na, nb; cbn -[my_count_bits popcount wrap to_longlong unot]; null_op.
Qed.

Lemma longlong_null_operators_witness :
  Null.sql (Null.op_shl (Null.Longlong_null1 (-1)) (Null.Longlong_null1 60)) = Some 0xF000000000000000
  ∧ Null.sql (Null.op_or (Null.Longlong_null1 5) Null.Longlong_null0) = None.
Proof.
  assert (∀ v, in_s 64 v → Null.wf (Null.Longlong_null1 v)) as W by done.
  split.
  - destruct (longlong_null_operators (Null.Longlong_null1 (-1)) (Null.Longlong_null1 60)
      (W (-1) ltac:(unfold in_s; lia)) (W 60 ltac:(unfold in_s; lia))) as (_ & _ & _ & (_ & ->) & _).
    reflexivity.
  - destruct (longlong_null_operators (Null.Longlong_null1 5) Null.Longlong_null0
      (W 5 ltac:(unfold in_s; lia)) (W 0 ltac:(unfold in_s; lia))) as ((_ & ->) & _).
    reflexivity.
Defined.

(** ** The hybrid *)

(** A [longlong] read as unsigned. *)
Lemma wrap64_signed v : in_s 64 v → wrap 64 v = if v <? 0 then v + 2 ^ 64 else v.
Proof.
  intros Hv. unfold in_s in Hv. unfold wrap. zcases.
  - rewrite <- (Z.mod_add v 1), Z.mod_small by lia. lia.
  - apply Z.mod_small. lia.
Qed.

(** Unfolds every conversion of a hybrid whose value is a [longlong]. *)
Ltac hybrid :=
  unfold Hybrid.num, Hybrid.abs, Hybrid.to_ulonglong, Hybrid.neg, Hybrid.cmp, Hybrid.cmp_signed,
    Hybrid.cmp_unsigned, Hybrid.is_unsigned_outside_of_signed_range, LONGLONG_MAX, LONGLONG_MIN,
    to_ulonglong in *;
  simpl in *; rewrite ?wrap64_signed in * by (done || (unfold in_s; lia)).

Lemma hybrid_cmp_ok a b : Hybrid.wf a → Hybrid.wf b →
  Hybrid.cmp a b = Hybrid.sign (Hybrid.num a ?= Hybrid.num b).
Proof.
  destruct a as [va ua], b as [vb ub]. unfold Hybrid.wf. simpl. intros Ha Hb.
  pose proof Ha as Ha'. pose proof Hb as Hb'. unfold in_s in Ha', Hb'.
  hybrid. destruct ua, ub; simpl; zcases; simpl;
    match goal with |- context [?x ?= ?y] => destruct (Z.compare_spec x y) end; simpl; lia.
Qed.

Lemma sign_eq0 x y : (Hybrid.sign (x ?= y) =? 0) = (x =? y).
Proof. destruct (Z.compare_spec x y); simpl; zcases; lia || done. Qed.

(** [Longlong_hybrid] compares and converts as mathematical integers,
    whatever the signedness of the two sides: [cmp] is the sign of the
    comparison, [==] against any C integer type is equality, [neg] tests the
    sign, [abs] is the absolute value without overflow (also at
    [LONGLONG_MIN]), and [to_ulonglong] and [to_uint] clamp into
    [0, upper_bound]. *)
Theorem longlong_hybrid_arithmetic a b bound nr :
  Hybrid.wf a → Hybrid.wf b → in_u 64 bound →
  Hybrid.cmp a b = Hybrid.sign (Hybrid.num a ?= Hybrid.num b) ∧
  Hybrid.eq_hybrid a b = (Hybrid.num a =? Hybrid.num b) ∧
  (in_u 64 nr → Hybrid.eq_ulonglong a nr = (Hybrid.num a =? nr)) ∧
  (in_s 64 nr → Hybrid.eq_longlong a nr = (Hybrid.num a =? nr)) ∧
  Hybrid.neg a = (Hybrid.num a <? 0) ∧
  Hybrid.abs a = Z.abs (Hybrid.num a) ∧
  Hybrid.to_ulonglong a bound = Z.max 0 (Z.min (Hybrid.num a) bound) ∧
  (in_u 32 bound → Hybrid.to_uint a bound = Z.max 0 (Z.min (Hybrid.num a) bound)).
Proof.
  intros Ha Hb Hbound.
  assert (Hybrid.to_ulonglong a bound = Z.max 0 (Z.min (Hybrid.num a) bound)) as Et.
  { destruct a as [va ua]. unfold Hybrid.wf, in_s, in_u in *. simpl in *.
    hybrid. destruct ua; zcases; simpl; zcases; lia. }
  unfold Hybrid.eq_hybrid, Hybrid.eq_ulonglong, Hybrid.eq_longlong.
  split_and!; [by apply hybrid_cmp_ok|by rewrite hybrid_cmp_ok, sign_eq0| | | | |done|].
  - intros Hn. rewrite hybrid_cmp_ok, sign_eq0 by (done || apply to_longlong_in_s).
    unfold Hybrid.num at 2. simpl. unfold to_longlong. by rewrite wrap_swrap, wrap_id by (done || lia).
  - intros Hn. by rewrite hybrid_cmp_ok, sign_eq0.
  - destruct a as [va ua]. unfold Hybrid.wf, in_s in *. simpl in *.
    hybrid. destruct ua; zcases; done || lia.
  - destruct a as [va ua]. unfold Hybrid.wf, in_s in *. simpl in *.
    hybrid. destruct ua; zcases; rewrite ?wrap_id by (unfold in_u; lia); try lia.
    subst. vm_compute. done.
  - intros Hu. unfold Hybrid.to_uint. rewrite Et. apply wrap_id. unfold in_u in *. lia.
Qed.

Lemma longlong_hybrid_arithmetic_witness :
  Hybrid.cmp {| Hybrid.m_value := -1; Hybrid.m_unsigned := true |}
             {| Hybrid.m_value := -1; Hybrid.m_unsigned := false |} = 1 ∧
  Hybrid.abs {| Hybrid.m_value := LONGLONG_MIN; Hybrid.m_unsigned := false |} = 2 ^ 63.
Proof.
  destruct (longlong_hybrid_arithmetic {| Hybrid.m_value := -1; Hybrid.m_unsigned := true |}
             {| Hybrid.m_value := -1; Hybrid.m_unsigned := false |} 0 0
     ltac:(by vm_compute) ltac:(by vm_compute) ltac:(by vm_compute)) as (H & _).
  destruct (longlong_hybrid_arithmetic {| Hybrid.m_value := LONGLONG_MIN; Hybrid.m_unsigned := false |}
             {| Hybrid.m_value := -1; Hybrid.m_unsigned := false |} 0 0
     ltac:(by vm_compute) ltac:(by vm_compute) ltac:(by vm_compute)) as (_ & _ & _ & _ & _ & H' & _).
  rewrite H, H'. split; reflexivity.
Defined.
