(* ===== verification/SqlLimit.v ===== *)
(** [LIMIT]/[OFFSET] counters of a query, [sql_limit.h]
    ([Select_limit_counters]), with the unsigned 64-bit arithmetic of
    [ha_rows].  The counters are shown to deliver the SQL window of rows. *)
From S2P Require Import Prelude.

(** [#define HA_POS_ERROR (~ (ha_rows) 0)]. *)
Definition HA_POS_ERROR : Z := unot 64 0.

Record Select_limit_counters := {
  select_limit_cnt : Z;
  offset_limit_cnt : Z;
  with_ties : bool }.

Definition Select_limit_counters0 : Select_limit_counters :=
  {| select_limit_cnt := 0; offset_limit_cnt := 0; with_ties := false |}.

Definition set_limit (limit offset : Z) (with_ties_arg : bool) : Select_limit_counters :=
  let offset := if limit =? 0 then 0 else offset in
  {| select_limit_cnt :=
       if limit <=? to_ulonglong (limit + offset)
       then to_ulonglong (limit + offset) else HA_POS_ERROR;
     offset_limit_cnt := offset;
     with_ties := with_ties_arg |}.

Definition set_single_row : Select_limit_counters :=
  {| select_limit_cnt := 1; offset_limit_cnt := 0; with_ties := false |}.

Definition is_unlimited (c : Select_limit_counters) : bool := select_limit_cnt c =? HA_POS_ERROR.

Definition set_unlimited (c : Select_limit_counters) : Select_limit_counters :=
  {| select_limit_cnt := HA_POS_ERROR; offset_limit_cnt := offset_limit_cnt c;
     with_ties := with_ties c |}.

Definition clear : Select_limit_counters :=
  {| select_limit_cnt := HA_POS_ERROR; offset_limit_cnt := 0; with_ties := false |}.

Definition check_offset (c : Select_limit_counters) (sent : Z) : bool := sent <? offset_limit_cnt c.

Definition remove_offset (c : Select_limit_counters) : Select_limit_counters :=
  {| select_limit_cnt := select_limit_cnt c; offset_limit_cnt := 0; with_ties := with_ties c |}.

(** The window of row numbers the counters let through: row [r] is returned
    when it is past the offset and the limit is not reached. *)
Definition returned (c : Select_limit_counters) (r : Z) : bool :=
  negb (check_offset c r) && (r <? select_limit_cnt c).

(** The counters are 64-bit unsigned and the offset is within the limit. *)
Definition wf (c : Select_limit_counters) : Prop :=
  in_u 64 (select_limit_cnt c) ∧ in_u 64 (offset_limit_cnt c) ∧
  offset_limit_cnt c ≤ select_limit_cnt c.

(** [set_limit(limit, offset)] never overflows: the counters stay well
    formed, and of any row number [r] a query can produce (below
    [HA_POS_ERROR]) exactly the rows [offset <= r < offset + limit] are let
    through, the sum taken without overflow; when the sum does not fit in
    [ha_rows] the query is unlimited. *)
Theorem set_limit_window limit offset ties r :
  in_u 64 limit → in_u 64 offset → 0 ≤ r < HA_POS_ERROR →
  wf (set_limit limit offset ties) ∧
  returned (set_limit limit offset ties) r = (offset <=? r) && (r <? offset + limit) ∧
  (is_unlimited (set_limit limit offset ties) = true ↔ limit ≠ 0 ∧ HA_POS_ERROR ≤ limit + offset).
Proof.
  unfold in_u. intros Hl Ho Hr. unfold wf, returned, is_unlimited, check_offset, set_limit, in_u. simpl.
  rewrite Z.eqb_eq. change HA_POS_ERROR with (2 ^ 64 - 1) in *. unfold to_ulonglong, wrap.
  destruct (Z.eqb_spec limit 0) as [->|Hn].
  - rewrite Z.mod_small by lia. simpl. split_and!; lia.
  - destruct (decide (limit + offset < 2 ^ 64)).
    + rewrite Z.mod_small by lia. rewrite (proj2 (Z.leb_le limit (limit + offset))) by lia.
      split_and!; lia.
    + assert ((limit + offset) mod 2 ^ 64 = limit + offset - 2 ^ 64) as ->.
      { rewrite <- (Z.mod_add _ (-1)) by lia. apply Z.mod_small. lia. }
      rewrite (proj2 (Z.leb_gt limit _)) by lia. split_and!; lia.
Qed.

Lemma set_limit_window_witness :
  returned (set_limit 10 20 false) 29 = true ∧
  returned (set_limit (2 ^ 64 - 1) 5 false) 7 = true ∧ returned (set_limit 0 0 false) 0 = false.
Proof.
  pose proof (set_limit_window 10 20 false 29) as (_ & -> & _); [by vm_compute..|].
  pose proof (set_limit_window (2 ^ 64 - 1) 5 false 7) as (_ & -> & _); [by vm_compute..|].
  pose proof (set_limit_window 0 0 false 0) as (_ & -> & _); [by vm_compute..|]. done.
Defined.

(** the other operations keep the counters well formed, and their windows
    are: the first row ([set_single_row]), all rows ([clear]), no upper bound
    ([set_unlimited]), and the rows below the limit from row 0 on
    ([remove_offset]). *)
Theorem limit_operations_window c r : wf c → 0 ≤ r < HA_POS_ERROR →
  (wf set_single_row ∧ returned set_single_row r = (r =? 0)) ∧
  (wf clear ∧ returned clear r = true) ∧
  (wf (set_unlimited c) ∧ returned (set_unlimited c) r = negb (check_offset c r)) ∧
  (wf (remove_offset c) ∧ returned (remove_offset c) r = (r <? select_limit_cnt c)).
Proof.
  destruct c as [l o t]. unfold wf, returned, check_offset, in_u. simpl. intros Hc Hr.
  change HA_POS_ERROR with (2 ^ 64 - 1) in *.
  split_and!; try (done || lia); zcases; simpl; lia || done.
Qed.

Lemma limit_operations_window_witness :
  returned (remove_offset (set_limit 3 4 true)) 6 = true.
Proof.
  destruct (limit_operations_window (set_limit 3 4 true) 6) as (_ & _ & _ & _ & H);
    [by vm_compute..|]. rewrite H. reflexivity.
Defined.
