(* ===== verification/SqlList.v ===== *)
(** [sql_list.h], [class base_list] (and [List<T>], which only adds casts): the
    singly linked list of the server.  A list keeps a pointer to its first
    node, the address of the pointer that ends it and a count; all lists share
    the sentinel node [end_of_list].  The memory holds the nodes and the list
    objects, so that sharing of nodes between lists and dangling [last]
    pointers are visible.  Each operation is shown to implement the operation
    on sequences it stands for. *)
From S2P Require Import Prelude CMonad.

(** ** Memory *)

(** Addresses; [void *] data pointers are numbers too, 0 being [NULL]. *)
Abbreviation loc := N.
Definition NULL : loc := 0%N.
Definition end_of_list : loc := 1%N.

Record list_node := Node { next : loc; info : N }.

(** A [list_node **]: the address of a list's [first] or of a node's [next]. *)
Inductive cell :=
| CFirst (l : loc)
| CNext (n : loc).

#[export] Instance cell_eq_dec : EqDecision cell.
Proof. solve_decision. Defined.

Record base_list := BaseList { first : loc; last : cell; elements : Z }.

Record mem := Mem { nodes : gmap loc list_node; lists : gmap loc base_list }.

Definition set_nodes (f : gmap loc list_node → gmap loc list_node) (m : mem) : mem :=
  Mem (f (nodes m)) (lists m).
Definition set_lists (f : gmap loc base_list → gmap loc base_list) (m : mem) : mem :=
  Mem (nodes m) (f (lists m)).

(** Dereferences. *)
Definition get_node (n : loc) : M mem list_node := gets_opt (λ m, nodes m !! n).
Definition get_list (l : loc) : M mem base_list := gets_opt (λ m, lists m !! l).
Definition put_node (n : loc) (v : list_node) : M mem unit := modify (set_nodes <[n := v]>).
Definition put_list (l : loc) (v : base_list) : M mem unit := modify (set_lists <[l := v]>).

Definition set_next (n : loc) (v : loc) : M mem unit :=
  nd <- get_node n ;; put_node n (Node v (info nd)).
Definition set_info (n : loc) (v : N) : M mem unit :=
  nd <- get_node n ;; put_node n (Node (next nd) v).
Definition set_first (l : loc) (v : loc) : M mem unit :=
  b <- get_list l ;; put_list l (BaseList v (last b) (elements b)).
Definition set_last (l : loc) (v : cell) : M mem unit :=
  b <- get_list l ;; put_list l (BaseList (first b) v (elements b)).
(** [elements] is a [uint]. *)
Definition set_elements (l : loc) (v : Z) : M mem unit :=
  b <- get_list l ;; put_list l (BaseList (first b) (last b) (to_uint32 v)).

(** [*c] and [*c= v]. *)
Definition load (c : cell) : M mem loc :=
  match c with
  | CFirst l => b <- get_list l ;; ret (first b)
  | CNext n => nd <- get_node n ;; ret (next nd)
  end.
Definition store (c : cell) (v : loc) : M mem unit :=
  match c with CFirst l => set_first l v | CNext n => set_next n v end.

(** ** Operations *)

(** [new list_node(info, next)]: [p] is what the allocator returned; on
    [NULL] no constructor runs. *)
Definition new_node (p : loc) (info_par : N) (next_par : loc) : M mem loc :=
  if (p =? NULL)%N then ret NULL else put_node p (Node next_par info_par) ;; ret p.

Definition list_eq (this rhs : loc) : M mem bool :=
  a <- get_list this ;; b <- get_list rhs ;;
  ret ((elements a =? elements b) && (first a =? first b)%N && bool_decide (last a = last b)).

Definition assign (this rhs : loc) : M mem unit :=
  r <- get_list rhs ;;
  set_elements this (elements r) ;;
  set_first this (first r) ;;
  set_last this (if truth (elements r) then last r else CFirst this).

Definition empty (this : loc) : M mem unit :=
  set_elements this 0 ;; set_first this end_of_list ;; set_last this (CFirst this).

Definition is_empty (this : loc) : M mem bool :=
  l <- get_list this ;; ret (first l =? end_of_list)%N.

(** [push_back(info)] and [push_back(info, mem_root)]; returns 1 on failure. *)
Definition push_back (this : loc) (p : loc) (info : N) : M mem bool :=
  n <- new_node p info end_of_list ;;
  l <- get_list this ;;
  store (last l) n ;;
  if negb (n =? NULL)%N then
    l <- get_list this ;;
    n' <- load (last l) ;;
    set_last this (CNext n') ;;
    l <- get_list this ;;
    set_elements this (elements l + 1) ;;
    ret false
  else ret true.

Definition push_front_impl (this : loc) (node : loc) : M mem bool :=
  if negb (node =? NULL)%N then
    l <- get_list this ;;
    (if bool_decide (last l = CFirst this) then set_last this (CNext node) else ret tt) ;;
    set_first this node ;;
    set_elements this (elements l + 1) ;;
    ret false
  else ret true.

Definition push_front (this : loc) (p : loc) (info : N) : M mem bool :=
  l <- get_list this ;;
  n <- new_node p info (first l) ;;
  push_front_impl this n.

(** [remove(prev)]; a deleted node is not accessible any more. *)
Definition remove (this : loc) (prev : cell) : M mem unit :=
  p <- load prev ;;
  nd <- get_node p ;;
  let node := next nd in
  l <- get_list this ;;
  set_elements this (elements l - 1) ;;
  l' <- get_list this ;;
  (if negb (truth (elements l')) then set_last this (CFirst this)
   else if bool_decide (last l' = CNext p) then set_last this prev else ret tt) ;;
  modify (set_nodes (delete p)) ;;
  store prev node.

Definition append (this list : loc) : M mem unit :=
  e <- is_empty list ;;
  if negb e then
    e' <- is_empty this ;;
    if e' : bool then assign this list else
    b <- get_list list ;;
    l <- get_list this ;;
    store (last l) (first b) ;;
    b' <- get_list list ;;
    set_last this (last b') ;;
    set_elements this (elements l + elements b')
  else ret tt.

(** [pop()]; [NULL] on an empty list. *)
Definition pop (this : loc) : M mem N :=
  l <- get_list this ;;
  if (first l =? end_of_list)%N then ret NULL else
  let tmp := first l in
  nd <- get_node tmp ;;
  set_first this (next nd) ;;
  set_elements this (elements l - 1) ;;
  l' <- get_list this ;;
  (if negb (truth (elements l')) then set_last this (CFirst this) else ret tt) ;;
  nd' <- get_node tmp ;;
  ret (info nd').

(** The [while] loop of [disjoin]: returns [None] on the early [return], the
    last [prev] otherwise. *)
Fixpoint disjoin_loop (fuel : nat) (this list_first : loc) (prev : cell) (node : loc)
  : M mem (option cell) :=
  match fuel with
  | O => ub
  | S fuel =>
      if negb (node =? end_of_list)%N && negb (node =? list_first)%N then
        nd <- get_node node ;;
        l <- get_list this ;;
        set_elements this (elements l + 1) ;;
        if (next nd =? end_of_list)%N then ret None
        else disjoin_loop fuel this list_first (CNext node) (next nd)
      else ret (Some prev)
  end.

Definition disjoin (fuel : nat) (this list : loc) : M mem unit :=
  l <- get_list this ;;
  b <- get_list list ;;
  set_elements this 0 ;;
  r <- disjoin_loop fuel this (first b) (CFirst this) (first l) ;;
  match r with
  | None => ret tt
  | Some prev => store prev end_of_list ;; set_last this prev
  end.

Definition prepend (this list : loc) : M mem unit :=
  e <- is_empty list ;;
  if negb e then
    e' <- is_empty this ;;
    b <- get_list list ;;
    (if e' : bool then set_last this (last b) else ret tt) ;;
    l <- get_list this ;;
    store (last b) (first l) ;;
    b' <- get_list list ;;
    set_first this (first b') ;;
    set_elements this (elements l + elements b')
  else ret tt.

Definition swap (this rhs : loc) : M mem unit :=
  r <- get_list rhs ;;
  l <- get_list this ;;
  set_first this (first r) ;; set_first rhs (first l) ;;
  set_elements this (elements r) ;; set_elements rhs (elements l) ;;
  l' <- get_list this ;;
  set_last rhs (if bool_decide (last l' = CFirst this) then CFirst rhs else last l') ;;
  set_last this (if bool_decide (last r = CFirst rhs) then CFirst this else last r).

Definition last_node (this : loc) : M mem loc := l <- get_list this ;; load (last l).
Definition first_node (this : loc) : M mem loc := l <- get_list this ;; ret (first l).

Definition head (this : loc) : M mem N :=
  l <- get_list this ;; nd <- get_node (first l) ;; ret (info nd).

(** [head_ref()]: the node whose [info] is referred to, if any. *)
Definition head_ref (this : loc) : M mem (option loc) :=
  l <- get_list this ;;
  ret (if negb (first l =? end_of_list)%N then Some (first l) else None).

(** The [for] loop of [add_unique]: the node it stops at. *)
Fixpoint find_eq (fuel : nat) (eq : N → N → bool) (x : N) (node : loc) : M mem loc :=
  match fuel with
  | O => ub
  | S fuel =>
      if (node =? end_of_list)%N then ret node else
      nd <- get_node node ;;
      if negb (eq (info nd) x) then find_eq fuel eq x (next nd) else ret node
  end.

Definition add_unique (fuel : nat) (this : loc) (p : loc) (x : N) (eq : N → N → bool)
  : M mem bool :=
  l <- get_list this ;;
  node <- find_eq fuel eq x (first l) ;;
  if (node =? end_of_list)%N then push_back this p x else ret true.

(** [elem(n)]: [i] runs from 0 to [n]; [k] is the number of iterations left. *)
Fixpoint elem_loop (k : nat) (node : loc) (data : N) : M mem N :=
  match k with
  | O => ret data
  | S k => if (node =? end_of_list)%N then ret NULL else
           nd <- get_node node ;; elem_loop k (next nd) (info nd)
  end.

Definition elem (this : loc) (n : nat) : M mem N :=
  l <- get_list this ;; elem_loop (S n) (first l) NULL.

(** [check_list]: the loop returns the last node and the count, or [None] when
    it meets a [NULL] element. *)
Fixpoint check_loop (fuel : nat) (node : loc) (cnt : Z) : M mem (option (loc * Z)) :=
  match fuel with
  | O => ub
  | S fuel =>
      nd <- get_node node ;;
      if negb (next nd =? end_of_list)%N then
        if (info nd =? NULL)%N then ret None
        else check_loop fuel (next nd) (to_uint32 (cnt + 1))
      else ret (Some (node, cnt))
  end.

Definition check_list (fuel : nat) (this : loc) : M mem bool :=
  l <- get_list this ;;
  r <- check_loop fuel (first l) 0 ;;
  ret match r with
      | None => false
      | Some (node, cnt) =>
          if negb (bool_decide (last l = CNext node)) then false
          else if negb (to_uint32 (cnt + 1) =? elements l) then false else true
      end.

(** [after(info, node)]: no test of the allocation's result. *)
Definition after (this : loc) (p : loc) (x : N) (node : loc) : M mem unit :=
  nd <- get_node node ;;
  new_node <- new_node p x (next nd) ;;
  set_next node new_node ;;
  l <- get_list this ;;
  set_elements this (elements l + 1) ;;
  if bool_decide (last l = CNext node) then set_last this (CNext new_node) else ret tt.

(** [delete_elements]: the data of the nodes, in the order it is deleted. *)
Fixpoint delete_loop (fuel : nat) (element : loc) : M mem (list N) :=
  match fuel with
  | O => ub
  | S fuel => if (element =? end_of_list)%N then ret [] else
              nd <- get_node element ;;
              r <- delete_loop fuel (next nd) ;;
              ret (info nd :: r)
  end.

Definition delete_elements (fuel : nat) (this : loc) : M mem (list N) :=
  l <- get_list this ;; r <- delete_loop fuel (first l) ;; empty this ;; ret r.

(** [List<T>::make]: [q] and [p] are the allocations of the list object and of
    its node. *)
Definition make (q p : loc) (x : N) : M mem loc :=
  if (q =? NULL)%N then ret NULL else
  put_list q (BaseList end_of_list (CFirst q) 0) ;;
  e <- push_back q p x ;;
  ret (if e : bool then NULL else q).

(** ** Specification: sequences of nodes *)

(** A sequence of nodes, each with its data. *)
Abbreviation node_seq := (list (loc * N)).

Definition hd_loc (ns : node_seq) (b : loc) : loc :=
  match ns with [] => b | (n, _) :: _ => n end.

(** The nodes [ns] are linked in this order and the last one points to [b]. *)
Fixpoint seg (h : gmap loc list_node) (ns : node_seq) (b : loc) : Prop :=
  match ns with
  | [] => True
  | (n, x) :: r => h !! n = Some (Node (hd_loc r b) x) ∧ seg h r b
  end.

(** The pointer that follows the nodes [ns] of a chain that starts in [c]. *)
Fixpoint last_cell (c : cell) (ns : node_seq) : cell :=
  match ns with [] => c | (n, _) :: r => last_cell (CNext n) r end.

(** The list object [L] represents the sequence [ns]: the invariant of the
    class. *)
Record list_rep (m : mem) (L : loc) (ns : node_seq) : Prop := {
  rep_list : lists m !! L =
    Some (BaseList (hd_loc ns end_of_list) (last_cell (CFirst L) ns) (Z.of_nat (length ns)));
  rep_seg : seg (nodes m) ns end_of_list;
  rep_nodup : NoDup (end_of_list :: NULL :: ns.*1);
  rep_end : nodes m !! end_of_list = Some (Node end_of_list NULL);
  rep_len : Z.of_nat (length ns) < 2 ^ 32 }.

(** The other lists, when they share no node with [ns], are not touched. *)
Definition frame (m m' : mem) (L : loc) (ns : node_seq) : Prop :=
  ∀ L' ns', L' ≠ L → ns'.*1 ## ns.*1 → list_rep m L' ns' → list_rep m' L' ns'.

(** What [operator new] may return: [NULL] or an address not in use. *)
Definition fresh (m : mem) (p : loc) : Prop :=
  p ≠ NULL ∧ p ≠ end_of_list ∧ nodes m !! p = None.

(** ** Chains of nodes *)

Lemma last_cell_app c a b : last_cell c (a ++ b) = last_cell (last_cell c a) b.
Proof. revert c. induction a as [|[n x] a IH]; intros c; simpl; [done|apply IH]. Qed.

Lemma hd_loc_app a b e : hd_loc (a ++ b) e = hd_loc a (hd_loc b e).
Proof. by destruct a as [|[n x] a]. Qed.

Lemma seg_app h a b e : seg h (a ++ b) e ↔ seg h a (hd_loc b e) ∧ seg h b e.
Proof.
  induction a as [|[n x] a IH]; simpl; [tauto|]. rewrite IH, hd_loc_app. tauto.
Qed.

Lemma seg_agree h h' a e :
  (∀ n, n ∈ a.*1 → h' !! n = h !! n) → seg h a e → seg h' a e.
Proof.
  induction a as [|[n x] a IH]; simpl; [done|]. intros H [H1 H2]. split.
  - rewrite H; [done|set_solver].
  - apply IH; [|done]. intros n' Hn. apply H. set_solver.
Qed.

(** A node of a chain is allocated. *)
Lemma seg_alloc h a e n : seg h a e → n ∈ a.*1 → is_Some (h !! n).
Proof.
  induction a as [|[n' x] a IH]; simpl; [set_solver|]. intros [H1 H2].
  rewrite elem_of_cons. intros [->|Hn]; [by rewrite H1|auto].
Qed.

(** The last cell of a chain is the head's cell or the [next] of its last node. *)
Lemma last_cell_cases c a :
  (a = [] ∧ last_cell c a = c) ∨
  (∃ b n x, a = b ++ [(n, x)] ∧ last_cell c a = CNext n).
Proof.
  destruct a as [|[n x] b] using rev_ind; [by left|]. right.
  exists b, n, x. split; [done|]. by rewrite last_cell_app.
Qed.

Lemma last_cell_first L a : last_cell (CFirst L) a = CFirst L ↔ a = [].
Proof.
  destruct (last_cell_cases (CFirst L) a) as [[-> ->]|(b & n & x & -> & ->)]; [done|].
  split; [done|]. by destruct b.
Qed.

(** A list represents at most one sequence. *)
Lemma seg_unique h a b e :
  h !! e = Some (Node e NULL) → e ∉ a.*1 → e ∉ b.*1 →
  hd_loc a e = hd_loc b e → seg h a e → seg h b e → a = b.
Proof.
  intros He. revert b. induction a as [|[n x] a IH]; intros [|[n' x'] b] Ha Hb Hh Sa Sb; simpl in *.
  - done.
  - set_solver.
  - set_solver.
  - destruct Sa as [E1 Sa], Sb as [E2 Sb]. subst n'. rewrite E1 in E2. injection E2 as E2 ->.
    f_equal. apply IH; set_solver.
Qed.

(** ** Running the operations *)

Lemma get_list_ok m l b {A} (f : base_list → M mem A) :
  lists m !! l = Some b → bind (get_list l) f m = f b m.
Proof. intros H. apply bind_ok. by apply gets_opt_ok. Qed.

Lemma get_node_ok m n nd {A} (f : list_node → M mem A) :
  nodes m !! n = Some nd → bind (get_node n) f m = f nd m.
Proof. intros H. apply bind_ok. by apply gets_opt_ok. Qed.

Definition upd_list (l : loc) (b : base_list) (m : mem) : mem := set_lists <[l := b]> m.
Definition upd_node (n : loc) (nd : list_node) (m : mem) : mem := set_nodes <[n := nd]> m.

Lemma set_first_ok m l b v : lists m !! l = Some b →
  set_first l v m = Some (tt, upd_list l (BaseList v (last b) (elements b)) m).
Proof. intros H. unfold set_first. by rewrite (get_list_ok _ _ _ _ H). Qed.
Lemma set_last_ok m l b v : lists m !! l = Some b →
  set_last l v m = Some (tt, upd_list l (BaseList (first b) v (elements b)) m).
Proof. intros H. unfold set_last. by rewrite (get_list_ok _ _ _ _ H). Qed.
Lemma set_elements_ok m l b v : lists m !! l = Some b →
  set_elements l v m = Some (tt, upd_list l (BaseList (first b) (last b) (to_uint32 v)) m).
Proof. intros H. unfold set_elements. by rewrite (get_list_ok _ _ _ _ H). Qed.
Lemma set_next_ok m n nd v : nodes m !! n = Some nd →
  set_next n v m = Some (tt, upd_node n (Node v (info nd)) m).
Proof. intros H. unfold set_next. by rewrite (get_node_ok _ _ _ _ H). Qed.
Lemma set_info_ok m n nd v : nodes m !! n = Some nd →
  set_info n v m = Some (tt, upd_node n (Node (next nd) v) m).
Proof. intros H. unfold set_info. by rewrite (get_node_ok _ _ _ _ H). Qed.

Lemma lookup_upd_list l b m : lists (upd_list l b m) !! l = Some b.
Proof. apply lookup_insert_eq. Qed.
Lemma lookup_upd_list_ne l l' b m : l ≠ l' → lists (upd_list l b m) !! l' = lists m !! l'.
Proof. intros. by apply lookup_insert_ne. Qed.

(** Reading and writing the pointer after the nodes [a] of a chain. *)
Section Cell.
Context (m : mem) (L : loc) (b : base_list) (a : node_seq) (v : loc).
Hypothesis Hb : lists m !! L = Some b.
Hypothesis Hf : first b = hd_loc a v.
Hypothesis Hs : seg (nodes m) a v.

Lemma load_last_cell : load (last_cell (CFirst L) a) m = Some (v, m).
Proof.
  destruct (last_cell_cases (CFirst L) a) as [[-> ->]|(a' & n & x & -> & ->)]; simpl.
  - rewrite (get_list_ok _ _ _ _ Hb). by rewrite Hf.
  - apply seg_app in Hs as [_ [Hn _]]. by rewrite (get_node_ok _ _ _ _ Hn).
Qed.

Hypothesis Hnd : NoDup (a.*1).

Lemma store_last_cell w :
  ∃ m', store (last_cell (CFirst L) a) w m = Some (tt, m') ∧
    lists m' !! L = Some (BaseList (hd_loc a w) (last b) (elements b)) ∧
    seg (nodes m') a w ∧
    (∀ n, n ∉ a.*1 → nodes m' !! n = nodes m !! n) ∧
    (∀ L', L' ≠ L → lists m' !! L' = lists m !! L').
Proof.
  destruct b as [f l e]. simpl in *.
  destruct (last_cell_cases (CFirst L) a) as [[-> ->]|(a' & n & x & -> & ->)]; simpl.
  - eexists. split; [by apply set_first_ok|]. split_and!; [apply lookup_upd_list|done|done|].
    intros L' HL. by apply lookup_upd_list_ne.
  - apply seg_app in Hs as [Hs' [Hn _]]. rewrite fmap_app, NoDup_app in Hnd. simpl in *.
    destruct Hnd as (_ & Hd & _).
    eexists. split; [by apply set_next_ok|]. split_and!.
    + simpl. rewrite Hb. f_equal. f_equal. rewrite Hf. by destruct a' as [|[? ?] ?].
    + apply seg_app. split; [|split; [apply lookup_insert_eq|done]].
      apply (seg_agree (nodes m)); [|done]. intros n' Hn'. apply lookup_insert_ne.
      intros ->. by apply (Hd n' Hn'), list_elem_of_singleton.
    + intros n' Hn'. apply lookup_insert_ne. rewrite fmap_app in Hn'. set_solver.
    + done.
Qed.
End Cell.

(** One step of a run: the next primitive is evaluated with a lookup found in
    the context or computed from the updates made so far. *)
Ltac lookup_tac :=
  repeat first
    [ eassumption | apply lookup_upd_list
    | rewrite lookup_upd_list_ne by congruence ].
Ltac mstep :=
  first
    [ erewrite get_list_ok by (lookup_tac)
    | erewrite get_node_ok by (lookup_tac)
    | erewrite bind_ok by (eapply set_first_ok; lookup_tac)
    | erewrite bind_ok by (eapply set_last_ok; lookup_tac)
    | erewrite bind_ok by (eapply set_elements_ok; lookup_tac)
    | erewrite bind_ok by (eapply set_next_ok; lookup_tac)
    | erewrite set_first_ok by lookup_tac
    | erewrite set_last_ok by lookup_tac
    | erewrite set_elements_ok by lookup_tac
    | erewrite set_next_ok by lookup_tac ];
  cbn [first last elements next info].

(** ** Representation *)

Lemma frame_intro m m' L ns :
  (∀ L', L' ≠ L → lists m' !! L' = lists m !! L') →
  (∀ n, n ∉ ns.*1 → is_Some (nodes m !! n) → nodes m' !! n = nodes m !! n) →
  end_of_list ∉ ns.*1 → frame m m' L ns.
Proof.
  intros Hl Hn He L' ns' HL Hd [R1 R2 R3 R4 R5]. split; [by rewrite Hl| |done| |done].
  - apply (seg_agree (nodes m)); [|done]. intros n Hn'. apply Hn; [set_solver|].
    by eapply seg_alloc.
  - rewrite Hn; [done|done|by rewrite R4].
Qed.

Lemma rep_parts m L ns : list_rep m L ns →
  NoDup (ns.*1) ∧ end_of_list ∉ ns.*1 ∧ NULL ∉ ns.*1.
Proof. intros [_ _ H _ _]. rewrite !NoDup_cons in H. set_solver. Qed.

Lemma fresh_notin m L ns p : list_rep m L ns → fresh m p → p ∉ ns.*1.
Proof.
  intros [_ R _ _ _] (_ & _ & Hp) Hin. destruct (seg_alloc _ _ _ _ R Hin). congruence.
Qed.

Lemma nodup_parts ns : NoDup (ns.*1) → end_of_list ∉ ns.*1 → NULL ∉ ns.*1 →
  NoDup (end_of_list :: NULL :: (ns : node_seq).*1).
Proof. intros. rewrite !NoDup_cons. split_and!; [|done|done]. set_solver. Qed.

Lemma rep_empty_iff m L ns : list_rep m L ns → hd_loc ns end_of_list = end_of_list ↔ ns = [].
Proof.
  intros R. destruct (rep_parts _ _ _ R) as (_ & He & _).
  destruct ns as [|[n x] ns]; simpl; [done|]. split; [|done]. intros ->. set_solver.
Qed.

Lemma is_empty_ok m L ns : list_rep m L ns →
  is_empty L m = Some (bool_decide (ns = []), m).
Proof.
  intros R. unfold is_empty. erewrite get_list_ok by apply (rep_list _ _ _ R). simpl.
  unfold ret. do 2 f_equal. apply eq_true_iff_eq.
  rewrite N.eqb_eq, bool_decide_eq_true. by eapply rep_empty_iff.
Qed.

(** [list_rep] from its parts, after a run. *)
Lemma rep_intro m L ns :
  lists m !! L = Some (BaseList (hd_loc ns end_of_list) (last_cell (CFirst L) ns)
                         (Z.of_nat (length ns))) →
  seg (nodes m) ns end_of_list → NoDup (ns.*1) → end_of_list ∉ ns.*1 → NULL ∉ ns.*1 →
  nodes m !! end_of_list = Some (Node end_of_list NULL) → Z.of_nat (length ns) < 2 ^ 32 →
  list_rep m L ns.
Proof. intros. split; [done..|by apply nodup_parts|done|done]. Qed.

Lemma base_list_eq f l e e' : e = e' → Some (BaseList f l e) = Some (BaseList f l e').
Proof. by intros ->. Qed.

Lemma to_uint32_id x : 0 ≤ x < 2 ^ 32 → to_uint32 x = x.
Proof. apply (wrap_id 32). Qed.

(** *** [push_back], [push_front] *)

Lemma push_back_ok m L ns p x : list_rep m L ns → fresh m p →
  Z.of_nat (length ns) + 1 < 2 ^ 32 →
  ∃ m', push_back L p x m = Some (false, m') ∧ list_rep m' L (ns ++ [(p, x)]) ∧ frame m m' L ns.
Proof.
  intros R F Hlen. pose proof (rep_parts _ _ _ R) as (Hnd & He & H0).
  pose proof (fresh_notin _ _ _ _ R F) as Hp. destruct R as [R1 R2 _ R4 _], F as (F1 & F2 & F3).
  unfold push_back, new_node. rewrite (proj2 (N.eqb_neq p NULL)) by done.
  rewrite bind_assoc. erewrite bind_ok by reflexivity. erewrite bind_ok by reflexivity.
  set (m1 := set_nodes _ m).
  assert (seg (nodes m1) ns end_of_list) as S1.
  { apply (seg_agree (nodes m)); [|done]. intros n Hn. apply lookup_insert_ne. set_solver. }
  mstep.
  edestruct (store_last_cell m1 L _ ns end_of_list R1 eq_refl S1 Hnd p)
    as (m2 & E2 & L2 & S2 & N2 & O2).
  erewrite bind_ok by exact E2. rewrite (proj2 (N.eqb_neq p NULL)) by done. simpl.
  mstep. erewrite bind_ok by (eapply load_last_cell; [exact L2|reflexivity|exact S2]).
  repeat mstep. eexists. split; [reflexivity|]. rewrite to_uint32_id by lia. split.
  - apply rep_intro.
    + rewrite lookup_upd_list, last_cell_app, length_app, hd_loc_app. simpl.
      do 2 f_equal. lia.
    + apply seg_app. split; [exact S2|]. split; [|done]. simpl.
      rewrite N2 by done. apply lookup_insert_eq.
    + rewrite fmap_app, NoDup_app. split_and!; [done|set_solver|apply NoDup_singleton].
    + set_solver.
    + set_solver.
    + simpl. rewrite N2 by done. simpl. by rewrite lookup_insert_ne.
    + rewrite length_app. simpl. lia.
  - apply frame_intro; [| |done].
    + intros L' HL. rewrite !lookup_upd_list_ne by done. by rewrite O2.
    + intros n Hn [nd Hs]. simpl. rewrite N2 by done. apply lookup_insert_ne. congruence.
Qed.

Lemma push_front_ok m L ns p x : list_rep m L ns → fresh m p →
  Z.of_nat (length ns) + 1 < 2 ^ 32 →
  ∃ m', push_front L p x m = Some (false, m') ∧ list_rep m' L ((p, x) :: ns) ∧ frame m m' L ns.
Proof.
  intros R F Hlen. pose proof (rep_parts _ _ _ R) as (Hnd & He & H0).
  pose proof (fresh_notin _ _ _ _ R F) as Hp. destruct R as [R1 R2 _ R4 _], F as (F1 & F2 & F3).
  unfold push_front, new_node, push_front_impl. mstep.
  rewrite (proj2 (N.eqb_neq p NULL)) by done.
  rewrite bind_assoc. erewrite bind_ok by reflexivity. erewrite bind_ok by reflexivity.
  set (m1 := set_nodes _ m). rewrite (proj2 (N.eqb_neq p NULL)) by done. cbn [negb].
  mstep.
  assert (∃ m2, (if bool_decide (last_cell (CFirst L) ns = CFirst L) then set_last L (CNext p)
                 else ret tt) m1 = Some (tt, m2) ∧ nodes m2 = nodes m1 ∧
     lists m2 !! L = Some (BaseList (hd_loc ns end_of_list) (last_cell (CFirst L) ((p, x) :: ns))
                        (Z.of_nat (length ns))) ∧
     ∀ L', L' ≠ L → lists m2 !! L' = lists m !! L') as (m2 & E2 & N2 & L2 & O2).
  { case_bool_decide as Hc.
    - apply last_cell_first in Hc as ->. mstep. eexists. split_and!; [done|done|apply lookup_upd_list|].
      intros. by rewrite lookup_upd_list_ne.
    - exists m1. split_and!; [done|done| |done]. simpl. rewrite R1. do 2 f_equal.
      destruct ns as [|[n y] ns]; [done|reflexivity]. }
  erewrite bind_ok by exact E2. repeat mstep. eexists. split; [reflexivity|].
  rewrite to_uint32_id by lia. split.
  - apply rep_intro; simpl.
    + rewrite lookup_insert_eq. do 2 f_equal. lia.
    + rewrite N2. simpl. split; [apply lookup_insert_eq|].
      apply (seg_agree (nodes m)); [|done]. intros n Hn. apply lookup_insert_ne. set_solver.
    + by apply NoDup_cons.
    + set_solver.
    + set_solver.
    + rewrite N2. simpl. by rewrite lookup_insert_ne.
    + lia.
  - apply frame_intro; [| |done].
    + intros L' HL. rewrite !lookup_upd_list_ne by done. by apply O2.
    + intros n Hn [nd Hs]. simpl. rewrite N2. apply lookup_insert_ne. congruence.
Qed.

Lemma push_back_ok_rep m L ns p x : list_rep m L ns → fresh m p →
  Z.of_nat (length ns) + 1 < 2 ^ 32 →
  ∃ m', push_back L p x m = Some (false, m') ∧ list_rep m' L (ns ++ [(p, x)]).
Proof.
  intros R F H. destruct (push_back_ok m L ns p x R F H) as (m' & ? & ? & _). by exists m'.
Qed.

(** Out of memory: [push_front] changes nothing; [push_back] reports failure
    too, but has overwritten the list's terminator with [NULL]. *)
Lemma push_front_oom m L ns x : list_rep m L ns → push_front L NULL x m = Some (true, m).
Proof. intros [R1 _ _ _ _]. unfold push_front, new_node. by mstep. Qed.

Lemma push_back_oom m L ns x : list_rep m L ns →
  ∃ m', push_back L NULL x m = Some (true, m') ∧
    load (last_cell (CFirst L) ns) m' = Some (NULL, m') ∧
    lists m' !! L = Some (BaseList (hd_loc ns NULL) (last_cell (CFirst L) ns)
                      (Z.of_nat (length ns))) ∧ seg (nodes m') ns NULL ∧
    ∀ n, n ∉ ns.*1 → nodes m' !! n = nodes m !! n.
Proof.
  intros R. pose proof (rep_parts _ _ _ R) as (Hnd & _ & _). destruct R as [R1 R2 _ _ _].
  destruct (store_last_cell m L _ ns end_of_list R1 eq_refl R2 Hnd NULL)
    as (m2 & E2 & L2 & S2 & N2 & _).
  exists m2. unfold push_back, new_node. simpl. erewrite bind_ok by reflexivity. mstep.
  erewrite bind_ok by exact E2. split_and!; [done| |done|done|done].
  by eapply load_last_cell.
Qed.

(** *** [pop] *)

Lemma pop_ok m L n x ns : list_rep m L ((n, x) :: ns) →
  ∃ m', pop L m = Some (x, m') ∧ list_rep m' L ns ∧ frame m m' L [].
Proof.
  intros R. pose proof (rep_parts _ _ _ R) as (Hnd & He & H0). destruct R as [R1 [R2 R2'] _ R4 R5].
  simpl in *. unfold pop. mstep. rewrite (proj2 (N.eqb_neq n end_of_list)) by set_solver.
  repeat mstep. rewrite to_uint32_id by lia.
  apply NoDup_cons in Hnd as [Hn Hnd]. rewrite not_elem_of_cons in He, H0.
  destruct ns as [|[n' x'] ns]; simpl.
  - repeat mstep. eexists. split; [reflexivity|]. split.
    + apply rep_intro; simpl; [by rewrite lookup_insert_eq|done|apply NoDup_nil_2|set_solver..|done|lia].
    + apply frame_intro; [|done|set_solver]. intros. by rewrite !lookup_upd_list_ne.
  - rewrite (proj2 (truth_true _)) by lia. simpl. erewrite bind_ok by reflexivity. mstep.
    eexists. split; [reflexivity|]. split.
    + apply rep_intro; [rewrite lookup_upd_list; apply base_list_eq; simpl; lia|done|done|set_solver..|done|simpl in *; lia].
    + apply frame_intro; [|done|set_solver]. intros. by rewrite !lookup_upd_list_ne.
Qed.

Lemma pop_empty m L : list_rep m L [] → pop L m = Some (NULL, m).
Proof. intros [R1 _ _ _ _]. unfold pop. by mstep. Qed.

(** *** [remove], [after] *)

Lemma last_cell_next n b : n ∉ b.*1 → last_cell (CNext n) b = CNext n ↔ b = [].
Proof.
  intros Hn. destruct (last_cell_cases (CNext n) b) as [[-> ->]|(b' & n' & x & -> & ->)]; [done|].
  split; [|by destruct b']. intros [= E]. subst n'. destruct Hn.
  rewrite fmap_app. apply elem_of_app. right. apply list_elem_of_singleton. done.
Qed.

Lemma last_cell_nonempty c c' b : b ≠ [] → last_cell c b = last_cell c' b.
Proof. by destruct b as [|[n x] b]. Qed.

Lemma NoDup_mid (a b : list loc) n : NoDup (a ++ n :: b) →
  NoDup a ∧ n ∉ a ∧ n ∉ b ∧ NoDup (a ++ b) ∧ ∀ y, y ∈ b → y ∉ a.
Proof.
  rewrite !NoDup_app, NoDup_cons. intros (Na & Hd & Hn & Nb).
  assert (∀ y, y ∈ b → y ∉ a) by (intros y Hy Hy'; apply (Hd y Hy'); by right).
  split_and!; try done.
  - intros Hn'. apply (Hd n Hn'). by left.
  - intros y Hy Hy'. by apply (H y).
Qed.

Lemma NoDup_insert_mid (a b : list loc) n p : NoDup (a ++ n :: b) → p ∉ a → n ≠ p → p ∉ b →
  NoDup (a ++ n :: p :: b).
Proof.
  intros. change (n :: p :: b) with ([n] ++ p :: b).
  rewrite app_assoc, <- Permutation_middle, <- app_assoc. simpl. apply NoDup_cons.
  split; [|done]. by rewrite not_elem_of_app, not_elem_of_cons.
Qed.

Lemma notin_mid (a b : list loc) n e : e ∉ a ++ n :: b → e ∉ a ++ b ∧ n ≠ e ∧ e ∉ a ∧ e ∉ b.
Proof. rewrite !not_elem_of_app, not_elem_of_cons. intros (? & ? & ?). done. Qed.

(** The nodes of a list cut in two around a node. *)
Lemma rep_split m L a n x b : list_rep m L (a ++ (n, x) :: b) →
  seg (nodes m) a n ∧ nodes m !! n = Some (Node (hd_loc b end_of_list) x) ∧
  seg (nodes m) b end_of_list ∧
  NoDup (a.*1 ++ n :: b.*1) ∧ end_of_list ∉ a.*1 ++ n :: b.*1 ∧ NULL ∉ a.*1 ++ n :: b.*1.
Proof.
  intros R. pose proof (rep_parts _ _ _ R) as (Hnd & He & H0). destruct R as [_ R2 _ _ _].
  apply seg_app in R2 as [Sa [Sn Sb]]. rewrite fmap_app in *. done.
Qed.

Lemma remove_last_ok m L a n b len : n ∉ b.*1 →
  lists m !! L = Some (BaseList (hd_loc a n) (last_cell (CNext n) b) len) →
  (len = 0 → a = [] ∧ b = []) →
  ∃ m', (if negb (truth len) then set_last L (CFirst L)
         else if bool_decide (last_cell (CNext n) b = CNext n)
         then set_last L (last_cell (CFirst L) a) else ret tt) m = Some (tt, m') ∧
    nodes m' = nodes m ∧
    lists m' !! L = Some (BaseList (hd_loc a n) (last_cell (CFirst L) (a ++ b)) len) ∧
    ∀ L', L' ≠ L → lists m' !! L' = lists m !! L'.
Proof.
  intros Hn Hl H0. rewrite last_cell_app. destruct (truth len) eqn:Et; simpl.
  - case_bool_decide as Hc.
    + apply last_cell_next in Hc as ->; [|done]. mstep. eexists.
      split_and!; [done|done|apply lookup_upd_list|intros; by rewrite lookup_upd_list_ne].
    + exists m. rewrite (last_cell_nonempty (last_cell (CFirst L) a) (CNext n)).
      { split_and!; done. }
      intros ->. by apply Hc.
  - apply truth_false in Et. destruct (H0 Et) as [-> ->]. mstep. eexists.
    split_and!; [done|done|apply lookup_upd_list|intros; by rewrite lookup_upd_list_ne].
Qed.

Lemma remove_ok m L a n x b : list_rep m L (a ++ (n, x) :: b) →
  ∃ m', remove L (last_cell (CFirst L) a) m = Some (tt, m') ∧
    list_rep m' L (a ++ b) ∧ frame m m' L (a ++ (n, x) :: b) ∧ nodes m' !! n = None.
Proof.
  intros R. pose proof (rep_split _ _ _ _ _ _ R) as (Sa & Sn & Sb & Hnd & He & H0).
  apply NoDup_mid in Hnd as (Na & Hna & Hnb & Nab & Hd).
  pose proof (notin_mid _ _ _ _ He) as (Heab & Hne & Hea & Heb).
  apply notin_mid in H0 as (H0 & _). destruct R as [R1 _ _ R4 R5].
  rewrite length_app, last_cell_app, hd_loc_app in *. simpl in *. unfold remove.
  erewrite bind_ok by (eapply load_last_cell; [exact R1|done|done]). repeat mstep.
  rewrite to_uint32_id by lia. set (m1 := upd_list _ _ m).
  destruct (remove_last_ok m1 L a n b (Z.of_nat (length a + S (length b)) - 1))
    as (m2 & E2 & N2 & L2 & O2).
  { done. } { apply lookup_upd_list. }
  { intros. split; apply length_zero_iff_nil; lia. }
  erewrite bind_ok by exact E2. erewrite bind_ok by reflexivity.
  edestruct (store_last_cell (set_nodes (delete n) m2) L _ a n L2 eq_refl) with
    (w := hd_loc b end_of_list) as (m3 & E3 & L3 & S3 & N3 & O3); [|done|].
  { simpl. rewrite N2. apply (seg_agree (nodes m)); [|done]. intros n' Hn'.
    apply lookup_delete_ne. congruence. }
  exists m3. simpl in *. rewrite N2 in N3. split_and!; [done| | |].
  - apply rep_intro; rewrite ?fmap_app; [|apply seg_app; split; [done|]|done|done|done| |].
    + rewrite L3, length_app, hd_loc_app. apply base_list_eq. lia.
    + apply (seg_agree (nodes m)); [|done]. intros n' Hn'. rewrite N3 by auto.
      apply lookup_delete_ne. congruence.
    + rewrite N3 by done. by rewrite lookup_delete_ne.
    + rewrite length_app. lia.
  - apply frame_intro; rewrite ?fmap_app; [| |done].
    + intros L' HL. rewrite O3, O2 by done. by apply lookup_upd_list_ne.
    + intros n' Hn' _. apply notin_mid in Hn' as (_ & Hnn & Hna' & _). rewrite N3 by done.
      by apply lookup_delete_ne.
  - rewrite N3 by done. apply lookup_delete_eq.
Qed.

Lemma after_last_ok m L f n p b len : n ∉ b.*1 →
  lists m !! L = Some (BaseList f (last_cell (CNext n) b) len) →
  ∃ m', (if bool_decide (last_cell (CNext n) b = CNext n) then set_last L (CNext p) else ret tt) m
     = Some (tt, m') ∧ nodes m' = nodes m ∧
    lists m' !! L = Some (BaseList f (last_cell (CNext p) b) len) ∧
    ∀ L', L' ≠ L → lists m' !! L' = lists m !! L'.
Proof.
  intros Hn Hl. case_bool_decide as Hc.
  - apply last_cell_next in Hc as ->; [|done]. mstep. eexists.
    split_and!; [done|done|apply lookup_upd_list|intros; by rewrite lookup_upd_list_ne].
  - exists m. rewrite (last_cell_nonempty (CNext p) (CNext n)) by (intros ->; by apply Hc). done.
Qed.

Lemma after_ok m L a n x b p y : list_rep m L (a ++ (n, x) :: b) → fresh m p →
  Z.of_nat (length (a ++ (n, x) :: b)) + 1 < 2 ^ 32 →
  ∃ m', after L p y n m = Some (tt, m') ∧ list_rep m' L (a ++ (n, x) :: (p, y) :: b) ∧
    frame m m' L (a ++ (n, x) :: b).
Proof.
  intros R F Hlen. pose proof (rep_split _ _ _ _ _ _ R) as (Sa & Sn & Sb & Hnd & He & H0).
  pose proof (fresh_notin _ _ _ _ R F) as Hp. rewrite fmap_app in Hp.
  pose proof (NoDup_mid _ _ _ Hnd) as (Na & Hna & Hnb & Nab & Hd).
  apply notin_mid in Hp as (_ & Hnp & Hpa & Hpb). pose proof (notin_mid _ _ _ _ He) as (_ & Hne & _).
  destruct R as [R1 _ _ R4 R5], F as (F1 & F2 & F3).
  rewrite length_app, last_cell_app, hd_loc_app in *. simpl in *. unfold after, new_node. mstep.
  rewrite (proj2 (N.eqb_neq p NULL)) by done. rewrite bind_assoc.
  do 2 (erewrite bind_ok by reflexivity). set (m1 := set_nodes _ m).
  assert (nodes m1 !! n = Some (Node (hd_loc b end_of_list) x)) as Sn1
    by (simpl; rewrite lookup_insert_ne by done; done).
  mstep. assert (lists (upd_node n {| next := p; info := x |} m1) !! L = lists m !! L) as E1 by done.
  rewrite R1 in E1. repeat mstep. rewrite to_uint32_id by lia.
  set (m2 := upd_list _ _ _).
  destruct (after_last_ok m2 L (hd_loc a n) n p b (Z.of_nat (length a + S (length b)) + 1))
    as (m3 & E3 & N3 & L3 & O3'); [done|apply lookup_upd_list|].
  assert (∀ L', L' ≠ L → lists m3 !! L' = lists m !! L') as O3
    by (intros; rewrite O3' by done; unfold m2; by rewrite lookup_upd_list_ne).
  rewrite E3. exists m3. split; [done|].
  assert (∀ n', n' ≠ n → n' ≠ p → nodes m3 !! n' = nodes m !! n') as Hag
    by (intros; rewrite N3; simpl; by rewrite !lookup_insert_ne).
  split.
  - apply rep_intro; rewrite ?fmap_app; simpl.
    + rewrite L3, hd_loc_app, last_cell_app, length_app. apply base_list_eq. simpl. lia.
    + apply seg_app. simpl. split_and!.
      * apply (seg_agree (nodes m)); [|done]. intros n' Hn'. by apply Hag; intros ->.
      * rewrite N3. simpl. apply lookup_insert_eq.
      * rewrite N3. simpl. rewrite lookup_insert_ne, lookup_insert_eq; done.
      * apply (seg_agree (nodes m)); [|done]. intros n' Hn'. by apply Hag; intros ->.
    + by apply NoDup_insert_mid.
    + rewrite not_elem_of_app, !not_elem_of_cons in *. destruct He as (? & ? & ?). done.
    + rewrite not_elem_of_app, !not_elem_of_cons in *. destruct H0 as (? & ? & ?). done.
    + rewrite Hag; done.
    + rewrite length_app. simpl. lia.
  - apply frame_intro; rewrite ?fmap_app; [done| |done]. intros n' Hn' [nd Hs].
    apply notin_mid in Hn' as (_ & ? & _ & _). apply Hag; intros ->; [done|by rewrite F3 in Hs].
Qed.

(** *** Whole-list operations *)

Lemma disj_sym (a b : list loc) : a ## b → b ## a.
Proof. intros H x Hb Ha. by apply (H x). Qed.

(** Nodes of disjoint sequences can be concatenated. *)
Lemma rep_app m m' L a b :
  lists m' !! L = Some (BaseList (hd_loc (a ++ b) end_of_list)
                          (last_cell (CFirst L) (a ++ b)) (Z.of_nat (length (a ++ b)))) →
  seg (nodes m') a (hd_loc b end_of_list) → seg (nodes m') b end_of_list →
  nodes m' !! end_of_list = nodes m !! end_of_list →
  (∃ K, list_rep m K a) → (∃ K, list_rep m K b) → a.*1 ## b.*1 →
  Z.of_nat (length (a ++ b)) < 2 ^ 32 → list_rep m' L (a ++ b).
Proof.
  intros Hl Sa Sb He [K Ra] [K' Rb] Hd Hlen.
  pose proof (rep_parts _ _ _ Ra) as (Na & Ea & Za). pose proof (rep_parts _ _ _ Rb) as (Nb & Eb & Zb).
  apply rep_intro; rewrite ?fmap_app, ?not_elem_of_app; try done.
  - by apply seg_app.
  - apply NoDup_app. split_and!; [done| |done]. intros y Hy Hy'. by apply (Hd y).
  - rewrite He. apply Ra.
Qed.

Lemma append_ok m L K a b : list_rep m L a → list_rep m K b → L ≠ K → a.*1 ## b.*1 →
  Z.of_nat (length a + length b) < 2 ^ 32 →
  ∃ m', append L K m = Some (tt, m') ∧ list_rep m' L (a ++ b) ∧ list_rep m' K b ∧ frame m m' L a.
Proof.
  intros Ra Rb HLK Hd Hlen. unfold append. erewrite bind_ok by (by apply is_empty_ok).
  case_bool_decide as Hb; simpl.
  { subst b. exists m. rewrite app_nil_r. split_and!; [done..|]. intros ?????. done. }
  erewrite bind_ok by (by apply is_empty_ok).
  pose proof (rep_list _ _ _ Ra) as La. pose proof (rep_list _ _ _ Rb) as Lb.
  case_bool_decide as Ha.
  - subst a. unfold assign. repeat mstep. eexists. split; [reflexivity|].
    rewrite to_uint32_id, (proj2 (truth_true _)) by (destruct b; simpl in *; done || lia).
    set (m3 := upd_list _ _ _). assert (frame m m3 L []) as Hf.
    { apply frame_intro; [|done|set_solver]. intros. unfold m3. by rewrite !lookup_upd_list_ne. }
    split_and!; [|apply Hf; [done|set_solver|done]|done].
    apply (rep_app m); simpl; [|done|apply Rb|done|by exists L|by exists K|done|lia].
    rewrite (last_cell_nonempty (CFirst L) (CFirst K)) by done. apply lookup_insert_eq.
  - repeat mstep. destruct (store_last_cell m L _ a end_of_list La eq_refl (rep_seg _ _ _ Ra))
      with (w := hd_loc b end_of_list) as (m2 & E2 & L2 & S2 & N2 & O2); [apply (rep_parts _ _ _ Ra)|].
    erewrite bind_ok by exact E2. assert (lists m2 !! K = lists m !! K) as K2 by (by apply O2).
    rewrite Lb in K2. repeat mstep. eexists. split; [reflexivity|]. rewrite to_uint32_id by lia.
    set (m3 := upd_list _ _ _). assert (frame m m3 L a) as Hf.
    { apply frame_intro; [| |apply (rep_parts _ _ _ Ra)].
      - intros. unfold m3. rewrite !lookup_upd_list_ne by done. by apply O2.
      - intros. by apply N2. }
    split_and!; [|apply Hf; [done|by apply disj_sym|done]|done].
    apply (rep_app m); [|done| |apply N2, (rep_parts _ _ _ Ra)|by exists L|by exists K|done|rewrite length_app; lia].
    + rewrite length_app, hd_loc_app, last_cell_app. unfold m3. rewrite lookup_upd_list.
      rewrite (last_cell_nonempty (last_cell (CFirst L) a) (CFirst K)) by done. apply base_list_eq. lia.
    + apply (seg_agree (nodes m)); [|apply Rb]. intros n Hn. apply N2. intros Hn'. by apply (Hd n).
Qed.

Lemma prepend_ok m L K a b : list_rep m L a → list_rep m K b → L ≠ K → a.*1 ## b.*1 →
  Z.of_nat (length a + length b) < 2 ^ 32 →
  ∃ m', prepend L K m = Some (tt, m') ∧ list_rep m' L (b ++ a) ∧
    ∀ J ns, J ≠ K → J ≠ L → ns.*1 ## b.*1 → list_rep m J ns → list_rep m' J ns.
Proof.
  intros Ra Rb HLK Hd Hlen. unfold prepend. erewrite bind_ok by (by apply is_empty_ok).
  case_bool_decide as Hb; simpl.
  { subst b. exists m. by split_and!. }
  erewrite bind_ok by (by apply is_empty_ok).
  pose proof (rep_list _ _ _ Ra) as La. pose proof (rep_list _ _ _ Rb) as Lb. mstep.
  assert (∃ m1, (if bool_decide (a = []) then set_last L (last_cell (CFirst K) b) else ret tt) m
      = Some (tt, m1) ∧ nodes m1 = nodes m ∧
    lists m1 !! L = Some (BaseList (hd_loc a end_of_list) (last_cell (CFirst L) (b ++ a))
                       (Z.of_nat (length a))) ∧
    ∀ J, J ≠ L → lists m1 !! J = lists m !! J) as (m1 & E1 & N1 & L1 & O1).
  { rewrite last_cell_app. case_bool_decide as Ha.
    - subst a. mstep. eexists. simpl. rewrite (last_cell_nonempty (CFirst L) (CFirst K)) by done.
      split_and!; [done|done|apply lookup_upd_list|intros; by rewrite lookup_upd_list_ne].
    - exists m. by rewrite (last_cell_nonempty _ (CFirst L) a). }
  erewrite bind_ok by exact E1. mstep. pose proof (O1 K ltac:(done)) as K1. rewrite Lb in K1.
  destruct (store_last_cell m1 K _ b end_of_list K1 eq_refl)
    with (w := hd_loc a end_of_list) as (m2 & E2 & K2 & S2 & N2 & O2).
  { rewrite N1. apply Rb. } { apply (rep_parts _ _ _ Rb). }
  erewrite bind_ok by exact E2. pose proof (O2 L ltac:(done)) as L2. rewrite L1 in L2.
  repeat mstep. eexists. split; [reflexivity|]. rewrite to_uint32_id by lia. rewrite N1 in N2. split.
  - apply (rep_app m); [|exact S2| |apply N2, (rep_parts _ _ _ Rb)|by exists K|by exists L|by apply disj_sym|rewrite length_app; lia].
    + rewrite length_app, hd_loc_app, lookup_upd_list. apply base_list_eq. lia.
    + apply (seg_agree (nodes m)); [|apply Ra]. intros n Hn. apply N2. intros Hn'. by apply (Hd n).
  - intros J ns HJ1 HJ2 Hdj [R1 R2 R3 R4 R5]. split; [|apply (seg_agree (nodes m))| | |]; try done.
    + by rewrite !lookup_upd_list_ne, O2, O1.
    + intros n Hn. apply N2. intros Hn'. by apply (Hdj n).
    + simpl. rewrite N2; [done|]. apply (rep_parts _ _ _ Rb).
Qed.

Lemma list_rep_same_nodes m m' L K ns : list_rep m K ns → nodes m' = nodes m →
  lists m' !! L = Some (BaseList (hd_loc ns end_of_list) (last_cell (CFirst L) ns)
                          (Z.of_nat (length ns))) → list_rep m' L ns.
Proof. intros [R1 R2 R3 R4 R5] Hn Hl. split; by rewrite ?Hn. Qed.

(** The [last] a list takes over from another: the other's own [first] cell
    becomes this one's. *)
Lemma last_cell_swap L K ns :
  (if bool_decide (last_cell (CFirst L) ns = CFirst L) then CFirst K else last_cell (CFirst L) ns)
  = last_cell (CFirst K) ns.
Proof.
  case_bool_decide as H; [by apply last_cell_first in H as ->|].
  apply last_cell_nonempty. intros ->. by apply H.
Qed.

Lemma swap_ok m L K a b : list_rep m L a → list_rep m K b → L ≠ K →
  ∃ m', swap L K m = Some (tt, m') ∧ list_rep m' L b ∧ list_rep m' K a ∧
    nodes m' = nodes m ∧ ∀ J, J ≠ L → J ≠ K → lists m' !! J = lists m !! J.
Proof.
  intros Ra Rb HLK. pose proof (rep_list _ _ _ Ra) as La. pose proof (rep_list _ _ _ Rb) as Lb.
  pose proof (rep_len _ _ _ Ra). pose proof (rep_len _ _ _ Rb).
  unfold swap. repeat mstep. rewrite !to_uint32_id by lia. rewrite !last_cell_swap.
  eexists. split; [reflexivity|]. split_and!.
  - apply (list_rep_same_nodes m _ _ K); [done|done|]. by rewrite lookup_upd_list.
  - apply (list_rep_same_nodes m _ _ L); [done|done|].
    by rewrite lookup_upd_list_ne, lookup_upd_list by done.
  - done.
  - intros J H1 H2. by rewrite !lookup_upd_list_ne by done.
Qed.

Lemma assign_ok m L K a b : list_rep m L a → list_rep m K b →
  ∃ m', assign L K m = Some (tt, m') ∧ list_rep m' L b ∧ nodes m' = nodes m ∧
    ∀ J, J ≠ L → lists m' !! J = lists m !! J.
Proof.
  intros Ra Rb. pose proof (rep_list _ _ _ Ra) as La. pose proof (rep_list _ _ _ Rb) as Lb.
  pose proof (rep_len _ _ _ Rb). unfold assign. mstep. repeat mstep.
  rewrite to_uint32_id by lia. eexists. split; [reflexivity|]. split_and!.
  - apply (list_rep_same_nodes m _ _ K); [done|done|]. rewrite lookup_upd_list. f_equal. f_equal.
    destruct b as [|[n x] b]; [done|]. rewrite (proj2 (truth_true _)) by (simpl; lia). done.
  - done.
  - intros J HJ. by rewrite !lookup_upd_list_ne.
Qed.

Lemma empty_ok m L b : lists m !! L = Some b →
  nodes m !! end_of_list = Some (Node end_of_list NULL) →
  ∃ m', empty L m = Some (tt, m') ∧ list_rep m' L [] ∧ nodes m' = nodes m ∧
    ∀ J, J ≠ L → lists m' !! J = lists m !! J.
Proof.
  intros Hb He. unfold empty. repeat mstep. eexists. split; [reflexivity|]. split_and!.
  - apply rep_intro; simpl; [apply lookup_insert_eq|done|apply NoDup_nil_2|set_solver..|done|lia].
  - done.
  - intros J HJ. by rewrite !lookup_upd_list_ne.
Qed.

(** *** Loops over the nodes *)

Lemma disjoin_loop_ok L b f l : end_of_list ∉ b.*1 → ∀ a2 a1 m e fuel,
  lists m !! L = Some (BaseList f l e) → seg (nodes m) (a2 ++ b) end_of_list →
  hd_loc b end_of_list ∉ a2.*1 → end_of_list ∉ a2.*1 → (length a2 < fuel)%nat →
  0 ≤ e → e + Z.of_nat (length a2) < 2 ^ 32 →
  ∃ m', disjoin_loop fuel L (hd_loc b end_of_list) (last_cell (CFirst L) a1)
          (hd_loc (a2 ++ b) end_of_list) m
        = Some (if bool_decide (b = [] ∧ a2 ≠ []) then None
                else Some (last_cell (CFirst L) (a1 ++ a2)), m') ∧
    nodes m' = nodes m ∧ lists m' !! L = Some (BaseList f l (e + Z.of_nat (length a2))) ∧
    ∀ J, J ≠ L → lists m' !! J = lists m !! J.
Proof.
  intros Hb. induction a2 as [|[n x] a2 IH]; intros a1 m e [|fuel] Hl Hs Hlf He Hf H0 Hlen;
    simpl in Hf; try lia.
  - exists m. simpl. rewrite N.eqb_refl. simpl. rewrite andb_false_r, app_nil_r, Z.add_0_r.
    rewrite bool_decide_false by tauto. done.
  - destruct Hs as [Hn Hs]. simpl in *. rewrite not_elem_of_cons in Hlf, He. destruct Hlf as [Hlf1 Hlf2], He as [He1 He2].
    rewrite (proj2 (N.eqb_neq n end_of_list)), (proj2 (N.eqb_neq n (hd_loc b end_of_list))) by done.
    cbn [negb andb]. repeat mstep. rewrite to_uint32_id by lia.
    destruct (decide (a2 ++ b = [])) as [Hab|Hab].
    + apply app_eq_nil in Hab as [-> ->]. rewrite bool_decide_true by done. eexists.
      split; [reflexivity|]. split_and!; [done|apply lookup_upd_list|].
      intros. by rewrite lookup_upd_list_ne.
    + rewrite (proj2 (N.eqb_neq _ end_of_list)).
      2: { destruct a2 as [|[n' x'] a2], b as [|[n'' x''] b]; simpl in *; try done;
           rewrite not_elem_of_cons in *; intros ->; tauto. }
      destruct (IH (a1 ++ [(n, x)]) (upd_list L (BaseList f l (e + 1)) m) (e + 1) fuel)
        as (m' & E & N' & L' & O'); [apply lookup_upd_list|done|done|done|lia|lia|lia|].
      rewrite last_cell_app in E. exists m'. split; [|split_and!].
      * etransitivity; [exact E|]. rewrite <- app_assoc. simpl.
        rewrite (bool_decide_ext (b = [] ∧ a2 ≠ []) (b = [] ∧ (n, x) :: a2 ≠ [])); [done|].
        destruct a2, b; simpl in *; intuition congruence.
      * done.
      * rewrite L'. apply base_list_eq. lia.
      * intros. rewrite O' by done. by apply lookup_upd_list_ne.
Qed.

Lemma disjoin_ok m L K a b k fuel : list_rep m L (a ++ b) → K ≠ L →
  lists m !! K = Some k → first k = hd_loc b end_of_list → (length a < fuel)%nat →
  ∃ m', disjoin fuel L K m = Some (tt, m') ∧ list_rep m' L a ∧ frame m m' L a.
Proof.
  intros R HKL HK Hk Hf. pose proof (rep_parts _ _ _ R) as (Hnd & He & H0).
  destruct R as [R1 R2 _ R4 R5]. rewrite fmap_app in *. rewrite length_app in R5.
  rewrite not_elem_of_app in He, H0. destruct He as [Hea Heb], H0 as [H0a H0b].
  apply NoDup_app in Hnd as (Na & Hd & _).
  unfold disjoin. repeat mstep. rewrite Hk. change (to_uint32 0) with 0. set (m1 := upd_list L _ m).
  destruct (disjoin_loop_ok L b (hd_loc (a ++ b) end_of_list) (last_cell (CFirst L) (a ++ b)) Heb
    a [] m1 0 fuel) as (m2 & E2 & N2 & L2 & O2);
    [apply lookup_upd_list|done| |done|done|lia|lia|].
  { destruct b as [|[n x] b]; simpl in *; [done|]. intros Hn. apply (Hd n Hn). by left. }
  erewrite bind_ok by exact E2. case_bool_decide as Hc.
  - destruct Hc as [-> _]. rewrite !app_nil_r in *. exists m2. split; [done|]. split.
    + apply rep_intro; rewrite ?N2; try done. lia.
    + apply frame_intro; [intros; rewrite O2 by done; by apply lookup_upd_list_ne|by rewrite N2|done].
  - rewrite app_nil_l. simpl in L2. rewrite hd_loc_app in L2.
    edestruct (store_last_cell m2 L _ a (hd_loc b end_of_list) L2 eq_refl)
      with (w := end_of_list) as (m3 & E3 & L3 & S3 & N3 & O3); [|done|].
    { rewrite N2. by apply seg_app in R2 as [? _]. }
    erewrite bind_ok by exact E3. repeat mstep. eexists. split; [reflexivity|]. rewrite N2 in N3. split.
    + apply rep_intro; try done.
      * by rewrite lookup_upd_list.
      * simpl. by rewrite N3.
      * lia.
    + apply frame_intro; [| |done].
      * intros J HJ. rewrite lookup_upd_list_ne, O3, O2 by done. by apply lookup_upd_list_ne.
      * intros n Hn _. simpl. by rewrite N3.
Qed.

Lemma find_eq_ok m eq y b ns fuel : seg (nodes m) (ns ++ b) end_of_list →
  end_of_list ∉ ns.*1 → (length ns < fuel)%nat → b = [] ∨ (∃ n x r, b = (n, x) :: r ∧ eq x y = true) →
  Forall (λ nx, eq nx.2 y = false) ns →
  find_eq fuel eq y (hd_loc (ns ++ b) end_of_list) m = Some (hd_loc b end_of_list, m).
Proof.
  intros Hs He Hf Hb Hall. revert fuel Hf. induction Hall as [|[n x] ns Hx Hall IH]; intros [|fuel] Hf;
    simpl in Hf; try lia.
  - destruct Hb as [->|(n & x & r & -> & Hx)]; [done|]. simpl. destruct Hs as [Hn _].
    destruct (N.eqb_spec n end_of_list) as [->|_]; [done|].
    mstep. by rewrite Hx.
  - destruct Hs as [Hn Hs]. simpl in *. rewrite not_elem_of_cons in He.
    rewrite (proj2 (N.eqb_neq n end_of_list)) by (intros ->; tauto).
    mstep. rewrite Hx. simpl. apply IH; [done|tauto|lia].
Qed.

(** Either some element is equal to [y], or all differ. *)
Lemma split_first_eq (eq : N → N → bool) y (ns : node_seq) :
  (Forall (λ nx, eq nx.2 y = false) ns) ∨
  (∃ a n x r, ns = a ++ (n, x) :: r ∧ Forall (λ nx, eq nx.2 y = false) a ∧ eq x y = true).
Proof.
  induction ns as [|[n x] ns IH]; [by left; constructor|]. destruct (eq x y) eqn:E.
  - right. exists [], n, x, ns. split_and!; [done|constructor|done].
  - destruct IH as [H|(a & n' & x' & r & -> & H & E')].
    + left. by constructor.
    + right. exists ((n, x) :: a), n', x', r. split_and!; [done|by constructor|done].
Qed.

Lemma elem_loop_ok m ns data k : seg (nodes m) ns end_of_list → end_of_list ∉ ns.*1 →
  elem_loop (S k) (hd_loc ns end_of_list) data m = Some (default NULL (ns.*2 !! k), m).
Proof.
  revert ns data. induction k as [|k IH]; intros [|[n x] ns] data Hs He;
    try done; destruct Hs as [Hn Hs]; simpl in He; rewrite not_elem_of_cons in He.
  - cbn [elem_loop hd_loc]. rewrite (proj2 (N.eqb_neq n end_of_list)) by (intros ->; tauto). by mstep.
  - cbn [elem_loop hd_loc]. rewrite (proj2 (N.eqb_neq n end_of_list)) by (intros ->; tauto). mstep.
    change (if (hd_loc ns end_of_list =? end_of_list)%N then ret NULL else _) with
      (elem_loop (S k) (hd_loc ns end_of_list) x). rewrite IH by tauto. done.
Qed.

(** [check_list] from the last but [n] nodes on. *)
Lemma check_loop_ok m n x ns cnt fuel : seg (nodes m) ((n, x) :: ns) end_of_list →
  end_of_list ∉ ns.*1 → (length ns < fuel)%nat → 0 ≤ cnt → cnt + Z.of_nat (length ns) < 2 ^ 32 →
  NULL ∉ (take (length ns) ((n, x) :: ns)).*2 →
  ∃ l, check_loop fuel n cnt m = Some (Some (l, cnt + Z.of_nat (length ns)), m) ∧
    ∀ c, last_cell c ((n, x) :: ns) = CNext l.
Proof.
  revert n x cnt fuel. induction ns as [|[n' x'] ns IH]; intros n x cnt [|fuel] [Hn Hs] He Hf H0 Hlen Hz;
    simpl in Hf; try lia.
  - exists n. simpl in *. mstep. rewrite Z.add_0_r. done.
  - simpl in He. rewrite not_elem_of_cons in He. simpl in *. mstep.
    rewrite (proj2 (N.eqb_neq n' end_of_list)) by (intros ->; tauto). cbn [negb].
    rewrite not_elem_of_cons in Hz. rewrite (proj2 (N.eqb_neq x NULL)) by (intros ->; tauto).
    rewrite to_uint32_id by lia.
    destruct (IH n' x' (cnt + 1) fuel) as (l & E & Hl); [done|tauto|lia|lia|lia|tauto|].
    exists l. rewrite E. split; [|intros c; apply (Hl (CNext n))].
    by replace (cnt + 1 + Z.of_nat (length ns)) with (cnt + Z.of_nat (S (length ns))) by lia.
Qed.

Lemma check_list_ok m L ns fuel : list_rep m L ns → ns ≠ [] → NULL ∉ ns.*2 →
  (length ns ≤ fuel)%nat → check_list fuel L m = Some (true, m).
Proof.
  intros R Hne Hz Hf. pose proof (rep_parts _ _ _ R) as (_ & He & _). destruct R as [R1 R2 _ _ R5].
  destruct ns as [|[n x] ns]; [done|]. simpl in He. rewrite not_elem_of_cons in He. simpl in R5, Hf.
  destruct (check_loop_ok m n x ns 0 fuel) as (l & E & Hl); [done|tauto|lia|lia|lia| |].
  { intros H. apply Hz. rewrite <- (take_drop (length ns) ((n, x) :: ns)), fmap_app.
    apply elem_of_app. by left. }
  unfold check_list. mstep. erewrite bind_ok by exact E. unfold ret.
  rewrite (Hl (CFirst L)), bool_decide_true by done. simpl negb. cbn iota.
  rewrite to_uint32_id by lia. rewrite (proj2 (Z.eqb_eq _ _)); [done|]. simpl length. lia.
Qed.

Lemma delete_loop_ok m ns fuel : seg (nodes m) ns end_of_list → end_of_list ∉ ns.*1 →
  (length ns < fuel)%nat →
  delete_loop fuel (hd_loc ns end_of_list) m = Some (ns.*2, m).
Proof.
  revert fuel. induction ns as [|[n x] ns IH]; intros [|fuel] Hs He Hf; simpl in Hf; try lia; [done|].
  destruct Hs as [Hn Hs]. simpl in *. rewrite not_elem_of_cons in He.
  rewrite (proj2 (N.eqb_neq n end_of_list)) by (intros ->; tauto). mstep.
  erewrite bind_ok by (apply IH; [done|tauto|lia]). done.
Qed.

(** A chain cut by a [NULL] cannot be walked: every traversal reads through
    the null pointer. *)
Lemma delete_loop_null m ns fuel : seg (nodes m) ns NULL → nodes m !! NULL = None →
  end_of_list ∉ ns.*1 → delete_loop fuel (hd_loc ns NULL) m = None.
Proof.
  intros Hs H0. revert fuel. induction ns as [|[n x] ns IH]; intros [|fuel] He; try done.
  - simpl. apply bind_ub. unfold get_node, gets_opt. by rewrite H0.
  - destruct Hs as [Hn Hs]. simpl in *. rewrite not_elem_of_cons in He.
    rewrite (proj2 (N.eqb_neq n end_of_list)) by (intros ->; tauto). mstep.
    apply bind_ub. apply IH; [done|tauto].
Qed.

(** ** Main results *)

(** C23: [push_back], [push_front] and [pop] are the operations of a sequence:
    with a successful allocation the new element is the last, or the first, of
    the list; [pop] returns and drops the first element, or returns [NULL] on
    the empty list; the class invariant is kept and other lists are not
    touched. *)
Theorem sql_list_push_pop m L ns p x : list_rep m L ns → fresh m p →
  Z.of_nat (length ns) + 1 < 2 ^ 32 →
  (∃ m', push_back L p x m = Some (false, m') ∧ list_rep m' L (ns ++ [(p, x)]) ∧ frame m m' L ns) ∧
  (∃ m', push_front L p x m = Some (false, m') ∧ list_rep m' L ((p, x) :: ns) ∧ frame m m' L ns) ∧
  match ns with
  | [] => pop L m = Some (NULL, m)
  | (n, y) :: r => ∃ m', pop L m = Some (y, m') ∧ list_rep m' L r ∧ frame m m' L []
  end.
Proof.
  intros R F Hl. split_and!; [by apply push_back_ok|by apply push_front_ok|].
  destruct ns as [|[n y] ns]; [by apply pop_empty|by eapply pop_ok].
Qed.

(** Two list objects, at 10 (elements 101, 102, 103 in nodes 2, 3, 4) and at 11
    (element 201 in node 5). *)
Definition sample_mem : mem :=
  Mem {[ 1%N := Node 1 0; 2%N := Node 3 101; 3%N := Node 4 102; 4%N := Node 1 103;
         5%N := Node 1 201 ]}
      {[ 10%N := BaseList 2 (CNext 4) 3; 11%N := BaseList 5 (CNext 5) 1 ]}.
Definition sample_a : node_seq := [(2%N, 101%N); (3%N, 102%N); (4%N, 103%N)].
Definition sample_b : node_seq := [(5%N, 201%N)].

Lemma sample_a_rep : list_rep sample_mem 10 sample_a.
Proof.
  split; [reflexivity|repeat split; reflexivity| |reflexivity|reflexivity].
  apply (bool_decide_unpack _). by vm_compute.
Qed.

Lemma sample_b_rep : list_rep sample_mem 11 sample_b.
Proof.
  split; [reflexivity|repeat split; reflexivity| |reflexivity|reflexivity].
  apply (bool_decide_unpack _). by vm_compute.
Qed.

Lemma sql_list_push_pop_witness :
  ∃ m', push_back 10 6 104 sample_mem = Some (false, m') ∧
    list_rep m' 10 (sample_a ++ [(6%N, 104%N)]).
Proof.
  destruct (sql_list_push_pop sample_mem 10 sample_a 6 104 sample_a_rep) as [(m' & H1 & H2 & _) _].
  - split_and!; [done|done|reflexivity].
  - reflexivity.
  - exists m'. split; [exact H1|exact H2].
Defined.

(** the operations on two lists with disjoint nodes: [append] leaves the
    concatenation in this list and the argument as it was, [prepend] the
    concatenation in the other order, [swap] exchanges the two sequences,
    assignment shares the right-hand sequence, and [empty] gives the empty
    one. *)
Theorem sql_list_whole_list m L K a b : list_rep m L a → list_rep m K b → L ≠ K →
  a.*1 ## b.*1 → Z.of_nat (length a + length b) < 2 ^ 32 →
  (∃ m', append L K m = Some (tt, m') ∧ list_rep m' L (a ++ b) ∧ list_rep m' K b) ∧
  (∃ m', prepend L K m = Some (tt, m') ∧ list_rep m' L (b ++ a)) ∧
  (∃ m', swap L K m = Some (tt, m') ∧ list_rep m' L b ∧ list_rep m' K a) ∧
  (∃ m', assign L K m = Some (tt, m') ∧ list_rep m' L b ∧ list_rep m' K b) ∧
  (∃ m', empty L m = Some (tt, m') ∧ list_rep m' L [] ∧ list_rep m' K b).
Proof.
  intros Ra Rb HLK Hd Hl. pose proof (rep_list _ _ _ Ra) as La. pose proof (rep_list _ _ _ Rb) as Lb.
  split_and!.
  - destruct (append_ok m L K a b) as (m' & ? & ? & ? & _); eauto.
  - destruct (prepend_ok m L K a b) as (m' & ? & ? & _); eauto.
  - destruct (swap_ok m L K a b) as (m' & ? & ? & ? & _); eauto.
  - destruct (assign_ok m L K a b) as (m' & ? & ? & Hn & Hj); [done..|]. exists m'. split_and!; [done..|].
    apply (list_rep_same_nodes m _ _ K); [done..|]. by rewrite Hj.
  - destruct (empty_ok m L _ La (rep_end _ _ _ Ra)) as (m' & ? & ? & Hn & Hj).
    exists m'. split_and!; [done..|]. apply (list_rep_same_nodes m _ _ K); [done..|]. by rewrite Hj.
Qed.

Lemma sample_disjoint : sample_a.*1 ## sample_b.*1.
Proof.
  intros n. unfold sample_a, sample_b. simpl. rewrite !elem_of_cons, elem_of_nil. lia.
Qed.

Lemma sql_list_whole_list_witness :
  ∃ m', append 10 11 sample_mem = Some (tt, m') ∧
    list_rep m' 10 (sample_a ++ sample_b) ∧ list_rep m' 11 sample_b.
Proof.
  refine (proj1 (sql_list_whole_list sample_mem 10 11 sample_a sample_b
    sample_a_rep sample_b_rep _ sample_disjoint _)); done.
Defined.

(** [disjoin] undoes [append]: taking the appended list off again gives
    back both original lists, in a number of steps bounded by the length of
    this list. *)
Theorem sql_list_append_disjoin m L K a b fuel : list_rep m L a → list_rep m K b → L ≠ K →
  a.*1 ## b.*1 → Z.of_nat (length a + length b) < 2 ^ 32 → (length a < fuel)%nat →
  ∃ m1 m2, append L K m = Some (tt, m1) ∧ disjoin fuel L K m1 = Some (tt, m2) ∧
    list_rep m2 L a ∧ list_rep m2 K b.
Proof.
  intros Ra Rb HLK Hd Hl Hf.
  destruct (append_ok m L K a b) as (m1 & E1 & R1 & K1 & _); [done..|].
  destruct (disjoin_ok m1 L K a b _ fuel R1 ltac:(done) (rep_list _ _ _ K1) eq_refl Hf)
    as (m2 & E2 & R2 & F2).
  exists m1, m2. split_and!; [done..|]. apply F2; [done|by apply disj_sym|done].
Qed.

Lemma sql_list_append_disjoin_witness :
  ∃ m1 m2, append 10 11 sample_mem = Some (tt, m1) ∧ disjoin 4 10 11 m1 = Some (tt, m2) ∧
    list_rep m2 10 sample_a ∧ list_rep m2 11 sample_b.
Proof.
  apply (sql_list_append_disjoin sample_mem 10 11 sample_a sample_b 4
    sample_a_rep sample_b_rep); [done|exact sample_disjoint|done|simpl; lia].
Defined.

(** [remove] through the pointer that leads to a node takes exactly this
    node out, wherever it stands; [after] inserts right behind a node. *)
Theorem sql_list_remove_after m L a n x b p y : list_rep m L (a ++ (n, x) :: b) → fresh m p →
  Z.of_nat (length (a ++ (n, x) :: b)) + 1 < 2 ^ 32 →
  (∃ m', remove L (last_cell (CFirst L) a) m = Some (tt, m') ∧ list_rep m' L (a ++ b) ∧
     frame m m' L (a ++ (n, x) :: b)) ∧
  (∃ m', after L p y n m = Some (tt, m') ∧ list_rep m' L (a ++ (n, x) :: (p, y) :: b) ∧
     frame m m' L (a ++ (n, x) :: b)).
Proof.
  intros R F Hl. split; [|by apply after_ok].
  destruct (remove_ok _ _ _ _ _ _ R) as (m' & ? & ? & ? & _); eauto.
Qed.

Lemma sql_list_remove_after_witness :
  ∃ m', remove 10 (CNext 3) sample_mem = Some (tt, m') ∧ list_rep m' 10 (take 2 sample_a).
Proof.
  destruct (sql_list_remove_after sample_mem 10 (take 2 sample_a) 4 103 [] 6 0 sample_a_rep)
    as [(m' & H1 & H2 & _) _].
  - split_and!; [done|done|reflexivity].
  - reflexivity.
  - exists m'. split; [exact H1|exact H2].
Defined.

(** queries: [is_empty], [head], [elem(k)] and [last_node] answer from the
    sequence; [check_list] accepts every non-empty list without [NULL]
    elements; [add_unique] refuses an element equal to one of the list and
    otherwise pushes it back; [delete_elements] visits every element once, in
    order, and leaves the list empty. *)
Theorem sql_list_queries m L ns p x eq fuel : list_rep m L ns → fresh m p →
  Z.of_nat (length ns) + 1 < 2 ^ 32 → (length ns < fuel)%nat →
  is_empty L m = Some (bool_decide (ns = []), m) ∧
  head L m = Some (default NULL (ns.*2 !! 0%nat), m) ∧
  (∀ k, elem L k m = Some (default NULL (ns.*2 !! k), m)) ∧
  last_node L m = Some (end_of_list, m) ∧
  (ns ≠ [] → NULL ∉ ns.*2 → check_list fuel L m = Some (true, m)) ∧
  (∃ m', add_unique fuel L p x eq m = Some (existsb (λ y, eq y x) ns.*2, m') ∧
     list_rep m' L (if existsb (λ y, eq y x) ns.*2 then ns else ns ++ [(p, x)])) ∧
  (∃ m', delete_elements fuel L m = Some (ns.*2, m') ∧ list_rep m' L []).
Proof.
  intros R F Hl Hf. pose proof (rep_parts _ _ _ R) as (Hnd & He & H0). pose proof R as [R1 R2 _ R4 _].
  split_and!.
  - by apply is_empty_ok.
  - unfold head. mstep. destruct ns as [|[n y] ns]; simpl in *; [|destruct R2 as [Hn _]]; by mstep.
  - intros k. unfold elem. mstep. by apply elem_loop_ok.
  - unfold last_node. mstep. by eapply load_last_cell.
  - intros Hne Hz. apply check_list_ok with ns; [done..|lia].
  - unfold add_unique. mstep.
    destruct (split_first_eq eq x ns) as [Hall|(a & n & y & r & -> & Hall & Hy)].
    + erewrite bind_ok by (rewrite <- (app_nil_r ns); apply find_eq_ok; rewrite ?app_nil_r; eauto).
      simpl. destruct (existsb _ _) eqn:Ee; [|by apply push_back_ok_rep].
      apply existsb_exists in Ee as (z & Hz & Ez). apply list_elem_of_In, list_elem_of_fmap in Hz as ([n' z'] & -> & Hz).
      rewrite Forall_forall in Hall. specialize (Hall _ Hz). simpl in *. congruence.
    + apply rep_split in R as HR. destruct HR as (_ & _ & _ & _ & He' & _).
      apply notin_mid in He' as (_ & Hne & Hea & _).
      erewrite bind_ok by (apply find_eq_ok; [done|done|rewrite length_app in Hf; lia| |done]; right; eauto).
      simpl. rewrite (proj2 (N.eqb_neq n end_of_list)) by done. exists m.
      rewrite fmap_app, existsb_app. simpl. by rewrite Hy, orb_true_r.
  - unfold delete_elements. mstep. erewrite bind_ok by (by apply delete_loop_ok).
    destruct (empty_ok m L _ R1 R4) as (m' & E & R' & _). erewrite bind_ok by exact E. by exists m'.
Qed.

Lemma sql_list_queries_witness :
  elem 10 2 sample_mem = Some (103%N, sample_mem) ∧
  check_list 9 10 sample_mem = Some (true, sample_mem) ∧
  ∃ m', add_unique 9 10 6 102 N.eqb sample_mem = Some (true, m') ∧ list_rep m' 10 sample_a.
Proof.
  destruct (sql_list_queries sample_mem 10 sample_a 6 102 N.eqb 9 sample_a_rep)
    as (_ & _ & H1 & _ & H2 & H3 & _).
  - split_and!; [done|done|reflexivity].
  - reflexivity.
  - simpl. lia.
  - split_and!; [exact (H1 2%nat)| |exact H3]. apply H2; [done|].
    apply (bool_decide_unpack _). by vm_compute.
Defined.

(** out of memory: [push_front] reports the failure and changes nothing;
    [push_back] reports it too, but it has already stored the null pointer
    where the list ended, so the chain has lost its terminator and the next
    walk over the list reads through a null pointer. *)
Theorem sql_list_push_oom m L ns x : list_rep m L ns → nodes m !! NULL = None →
  push_front L NULL x m = Some (true, m) ∧
  ∃ m', push_back L NULL x m = Some (true, m') ∧
    load (last_cell (CFirst L) ns) m' = Some (NULL, m') ∧
    ∀ fuel, delete_elements fuel L m' = None.
Proof.
  intros R H0. split; [by eapply push_front_oom|].
  destruct (push_back_oom m L ns x R) as (m' & E & El & Ll & Sn & N0).
  exists m'. split_and!; [done|done|]. intros fuel. unfold delete_elements. mstep.
  apply bind_ub. apply delete_loop_null; [done| |apply (rep_parts _ _ _ R)].
  rewrite N0; [done|]. apply (rep_parts _ _ _ R).
Qed.

Lemma sql_list_push_oom_witness :
  ∃ m', push_back 10 NULL 104 sample_mem = Some (true, m') ∧
    ∀ fuel, delete_elements fuel 10 m' = None.
Proof.
  destruct (sql_list_push_oom sample_mem 10 sample_a 104 sample_a_rep eq_refl) as (_ & m' & H1 & _ & H2).
  exists m'. split; [exact H1|exact H2].
Defined.
