(* ===== verification/SqlListIter.v ===== *)
(** [sql_list.h], [base_list_iterator] and what is written with it:
    [List_iterator], [List_iterator_fast], [List<T>::Iterator], [bubble_sort]
    and [list_copy_and_replace_each_value].  An iterator holds addresses of
    pointers inside the list, so editing through it (replace, remove, insert
    after, splice another list) is shown against the same representation as
    the list operations; the sort is shown to terminate for every comparison
    function and to sort for the consistent ones. *)
From stdpp Require Import sorting.
From S2P Require Import Prelude CMonad SqlList.

(** ** The iterator *)

(** [el] and [prev] are [list_node **], null before the first use. *)
Record base_list_iterator := Iter {
  it_list : loc;
  el : option cell;
  prev : option cell;
  current : loc }.

Definition init (list_par : loc) : base_list_iterator := Iter list_par (Some (CFirst list_par)) None NULL.

(** [*el]: reading a null [list_node **] is undefined. *)
Definition load_opt (c : option cell) : M mem loc :=
  match c with Some c => load c | None => ub end.

Definition it_next (it : base_list_iterator) : M mem (N * base_list_iterator) :=
  current <- load_opt (el it) ;;
  nd <- get_node current ;;
  ret (info nd, Iter (it_list it) (Some (CNext current)) (el it) current).

Definition peek (it : base_list_iterator) : M mem N :=
  n <- load_opt (el it) ;; nd <- get_node n ;; ret (info nd).

Definition next_fast (it : base_list_iterator) : M mem (N * base_list_iterator) :=
  tmp <- load_opt (el it) ;;
  nd <- get_node tmp ;;
  ret (info nd, Iter (it_list it) (Some (CNext tmp)) (prev it) (current it)).

Definition rewind (it : base_list_iterator) : base_list_iterator :=
  Iter (it_list it) (Some (CFirst (it_list it))) (prev it) (current it).

(** [replace(element)]; returns the old element. *)
Definition replace (dbug : bool) (it : base_list_iterator) (element : N) : M mem N :=
  nd <- get_node (current it) ;;
  assert_that (negb dbug || negb (info nd =? NULL)%N) ;;
  set_info (current it) element ;;
  ret (info nd).

(** [replace(new_list)]: the nodes of [new_list] after its first one are
    spliced in behind [current]. *)
Definition replace_list (it : base_list_iterator) (new_list : loc) : M mem N :=
  nd <- get_node (current it) ;;
  e <- is_empty new_list ;;
  if negb e then
    nl <- get_list new_list ;;
    store (last nl) (next nd) ;;
    nl <- get_list new_list ;;
    f <- get_node (first nl) ;;
    set_info (current it) (info f) ;;
    f <- get_node (first nl) ;;
    set_next (current it) (next f) ;;
    l <- get_list (it_list it) ;;
    (if bool_decide (last l = CNext (current it)) && (1 <? elements nl)
     then set_last (it_list it) (last nl) else ret tt) ;;
    set_elements (it_list it) (elements l + (elements nl - 1)) ;;
    ret (info nd)
  else ret (info nd).

Definition it_remove (it : base_list_iterator) : M mem base_list_iterator :=
  match prev it with
  | None => ub
  | Some p => remove (it_list it) p ;; ret (Iter (it_list it) (prev it) (prev it) NULL)
  end.

Definition it_after (it : base_list_iterator) (p : loc) (element : N) : M mem base_list_iterator :=
  after (it_list it) p element (current it) ;;
  nd <- get_node (current it) ;;
  ret (Iter (it_list it) (Some (CNext (next nd))) (prev it) (next nd)).

(** [ref()]: the address of the [info] of this node. *)
Definition ref (it : base_list_iterator) : loc := current it.

Definition is_last (it : base_list_iterator) : bool := bool_decide (el it = Some (CNext end_of_list)).
Definition at_end (it : base_list_iterator) : bool := (current it =? end_of_list)%N.

(** [sublist(ls, elm)]. *)
Definition sublist (it : base_list_iterator) (ls : loc) (elm : Z) : M mem unit :=
  f <- load_opt (el it) ;;
  set_first ls f ;;
  l <- get_list (it_list it) ;;
  set_last ls (last l) ;;
  set_elements ls elm.

(** [while ((x= it++)) ...]: the elements an iterator visits, until it returns
    [NULL]. *)
Fixpoint visit (fuel : nat) (it : base_list_iterator) : M mem (list N) :=
  match fuel with
  | O => ub
  | S fuel =>
      r <- it_next it ;;
      if (r.1 =? NULL)%N then ret [] else
      rest <- visit fuel r.2 ;; ret (r.1 :: rest)
  end.

(** ** [List<T>::Iterator]: [for (x : list)] *)

(** [operator++]. *)
Definition Iterator_incr (dbug : bool) (node : loc) : M mem loc :=
  assert_that (negb dbug || negb (node =? end_of_list)%N) ;;
  nd <- get_node node ;; ret (next nd).

Definition Iterator_deref (node : loc) : M mem N := nd <- get_node node ;; ret (info nd).

(** From [begin()] to [end()]. *)
Fixpoint range_for (fuel : nat) (dbug : bool) (node : loc) : M mem (list N) :=
  match fuel with
  | O => ub
  | S fuel =>
      if negb (node =? end_of_list)%N then
        x <- Iterator_deref node ;;
        n <- Iterator_incr dbug node ;;
        rest <- range_for fuel dbug n ;; ret (x :: rest)
      else ret []
  end.

(** ** [list_copy_and_replace_each_value] *)
Section Clone.
(** [el->clone(mem_root)]. *)
Variable clone : N → N.

Fixpoint copy_replace_loop (fuel : nat) (dbug : bool) (it : base_list_iterator) : M mem unit :=
  match fuel with
  | O => ub
  | S fuel =>
      r <- it_next it ;;
      if (r.1 =? NULL)%N then ret tt else
      replace dbug r.2 (clone r.1) ;; copy_replace_loop fuel dbug r.2
  end.

Definition list_copy_and_replace_each_value (fuel : nat) (dbug : bool) (list : loc) : M mem unit :=
  copy_replace_loop fuel dbug (init list).
End Clone.

(** ** [bubble_sort] *)
Section Sort.
Variable sort_func : N → N → Z.

(** The inner [while]: returns the iterator, [ref1] and [swap].  [last_ref] is
    null in the first pass. *)
Fixpoint bubble_inner (fuel : nat) (it : base_list_iterator) (item1 : N) (ref1 : loc)
    (last_ref : option loc) (swap : bool) : M mem (base_list_iterator * loc * bool) :=
  match fuel with
  | O => ub
  | S fuel =>
      r <- it_next it ;;
      let item2 := r.1 in let it := r.2 in
      if (item2 =? NULL)%N then ret (it, ref1, swap) else
      let ref2 := ref it in
      if bool_decide (Some ref2 = last_ref) then ret (it, ref1, swap) else
      if 0 <? sort_func item1 item2 then
        set_info ref1 item2 ;; set_info ref2 item1 ;;
        bubble_inner fuel it item1 ref2 last_ref true
      else bubble_inner fuel it item2 ref2 last_ref swap
  end.

(** The [do ... while (swap)]: [fuel] bounds the passes, [inner] the steps of a
    pass. *)
Fixpoint bubble_outer (fuel inner : nat) (it : base_list_iterator) (ref1 : option loc) : M mem unit :=
  match fuel with
  | O => ub
  | S fuel =>
      let last_ref := ref1 in
      r <- it_next it ;;
      s <- bubble_inner inner r.2 r.1 (ref r.2) last_ref false ;;
      if s.2 : bool then bubble_outer fuel inner (rewind s.1.1) (Some s.1.2) else ret tt
  end.

Definition bubble_sort (fuel : nat) (list_to_sort : loc) : M mem unit :=
  bubble_outer fuel fuel (init list_to_sort) None.
End Sort.

(** ** Positions *)

(** The iterator is about to return the element after the nodes [a] of [L]. *)
Definition at_pos (L : loc) (a : node_seq) (it : base_list_iterator) : Prop :=
  it_list it = L ∧ el it = Some (last_cell (CFirst L) a).

(** It has just returned node [n], which follows the nodes [a]. *)
Definition on_node (L : loc) (a : node_seq) (n : loc) (it : base_list_iterator) : Prop :=
  it_list it = L ∧ el it = Some (CNext n) ∧ prev it = Some (last_cell (CFirst L) a) ∧ current it = n.

(** It has returned the end marker. *)
Definition past_end (L : loc) (it : base_list_iterator) : Prop :=
  it_list it = L ∧ el it = Some (CNext end_of_list) ∧ current it = end_of_list.

Lemma on_node_pos L a n x it : on_node L a n it → at_pos L (a ++ [(n, x)]) it.
Proof. intros (H1 & H2 & _). split; [done|]. by rewrite H2, last_cell_app. Qed.

Lemma load_pos m L a b : list_rep m L (a ++ b) →
  load (last_cell (CFirst L) a) m = Some (hd_loc b end_of_list, m).
Proof.
  intros [R1 R2 _ _ _]. apply seg_app in R2 as [Sa _].
  eapply load_last_cell; [exact R1|apply hd_loc_app|done].
Qed.

Section Next.
Context (m : mem) (L : loc) (a : node_seq).

Lemma it_next_ok n x b it : list_rep m L (a ++ (n, x) :: b) → at_pos L a it →
  ∃ it', it_next it m = Some ((x, it'), m) ∧ on_node L a n it'.
Proof.
  intros R [H1 H2]. pose proof (rep_split _ _ _ _ _ _ R) as (_ & Sn & _).
  unfold it_next. rewrite H2. simpl. erewrite bind_ok by (by apply (load_pos _ _ _ _ R)). simpl.
  mstep. eexists. split; [reflexivity|]. by rewrite H1.
Qed.

Lemma it_next_end it : list_rep m L a → at_pos L a it →
  ∃ it', it_next it m = Some ((NULL, it'), m) ∧ past_end L it'.
Proof.
  intros R [H1 H2]. rewrite <- (app_nil_r a) in R. pose proof (rep_end _ _ _ R) as He.
  unfold it_next. rewrite H2. simpl. erewrite bind_ok by (by apply (load_pos _ _ _ _ R)). simpl.
  mstep. eexists. split; [reflexivity|]. by rewrite H1.
Qed.

Lemma it_next_past it : nodes m !! end_of_list = Some (Node end_of_list NULL) → past_end L it →
  ∃ it', it_next it m = Some ((NULL, it'), m) ∧ past_end L it'.
Proof.
  intros He (H1 & H2 & H3). unfold it_next. rewrite H2. simpl. rewrite bind_assoc. mstep.
  erewrite bind_ok by reflexivity. mstep. eexists. split; [reflexivity|]. by rewrite H1.
Qed.
End Next.

Lemma visit_ok m L b : ∀ a it fuel, list_rep m L (a ++ b) → at_pos L a it →
  NULL ∉ b.*2 → (length b < fuel)%nat → visit fuel it m = Some (b.*2, m).
Proof.
  induction b as [|[n x] b IH]; intros a it [|fuel] R P Hz Hf; simpl in Hf; try lia; simpl.
  - rewrite app_nil_r in R. destruct (it_next_end m L a it R P) as (it' & E & _).
    by erewrite bind_ok by exact E.
  - destruct (it_next_ok m L a n x b it R P) as (it' & E & P').
    erewrite bind_ok by exact E. simpl in *. rewrite not_elem_of_cons in Hz.
    rewrite (proj2 (N.eqb_neq x NULL)) by (intros ->; tauto).
    erewrite bind_ok; [reflexivity|]. apply (IH (a ++ [(n, x)])); [|by apply on_node_pos|tauto|lia].
    by rewrite <- app_assoc.
Qed.

Lemma range_for_ok m dbug ns : ∀ fuel, seg (nodes m) ns end_of_list → end_of_list ∉ ns.*1 →
  (length ns < fuel)%nat → range_for fuel dbug (hd_loc ns end_of_list) m = Some (ns.*2, m).
Proof.
  induction ns as [|[n x] ns IH]; intros [|fuel] Hs He Hf; simpl in Hf; try lia; [done|].
  destruct Hs as [Hn Hs]. simpl in *. rewrite not_elem_of_cons in He. destruct He as [He1 He2].
  rewrite (proj2 (N.eqb_neq n end_of_list)) by done. cbn [negb].
  unfold Iterator_deref, Iterator_incr. rewrite bind_assoc. mstep. erewrite bind_ok by reflexivity.
  rewrite bind_assoc. rewrite (proj2 (N.eqb_neq n end_of_list)) by done. rewrite orb_true_r.
  erewrite bind_ok by reflexivity. rewrite bind_assoc. mstep. erewrite bind_ok by reflexivity.
  erewrite bind_ok by (by apply IH; [..|lia]). done.
Qed.

(** ** Editing through the iterator *)

(** Writing the data of a node. *)
Lemma set_info_rep m L a n x b y : list_rep m L (a ++ (n, x) :: b) →
  ∃ m', set_info n y m = Some (tt, m') ∧ list_rep m' L (a ++ (n, y) :: b) ∧
    frame m m' L (a ++ (n, x) :: b).
Proof.
  intros R. pose proof (rep_split _ _ _ _ _ _ R) as (Sa & Sn & Sb & Hnd & He & H0).
  pose proof (NoDup_mid _ _ _ Hnd) as (_ & Hna & Hnb & _). destruct R as [R1 _ _ R4 R5].
  pose proof (notin_mid _ _ _ _ He) as (_ & Hne & _).
  eexists. split; [by eapply set_info_ok|].
  split.
  - apply rep_intro; rewrite ?fmap_app; simpl.
    + rewrite R1, !hd_loc_app, !last_cell_app, !length_app. done.
    + apply seg_app. split; [|split; [apply lookup_insert_eq|]];
        (apply (seg_agree (nodes m)); [|done]); intros n' Hn'; apply lookup_insert_ne; intros ->; done.
    + done.
    + done.
    + done.
    + by rewrite lookup_insert_ne.
    + rewrite length_app in *. done.
  - apply frame_intro; rewrite ?fmap_app; [done| |done]. intros n' Hn' _. apply lookup_insert_ne.
    apply notin_mid in Hn' as (_ & ? & _). done.
Qed.

Lemma replace_ok dbug m L a n x b it y : list_rep m L (a ++ (n, x) :: b) → on_node L a n it →
  (dbug = true → x ≠ NULL) →
  ∃ m', replace dbug it y m = Some (x, m') ∧ list_rep m' L (a ++ (n, y) :: b) ∧
    frame m m' L (a ++ (n, x) :: b).
Proof.
  intros R (_ & _ & _ & Hc) Hx. pose proof (rep_split _ _ _ _ _ _ R) as (_ & Sn & _).
  destruct (set_info_rep m L a n x b y R) as (m' & E & R' & F).
  unfold replace. rewrite Hc. mstep.
  replace (negb dbug || negb (x =? NULL)%N) with true.
  2: { destruct dbug; [|done]. simpl. by rewrite (proj2 (N.eqb_neq x NULL)) by auto. }
  erewrite bind_ok by reflexivity. erewrite bind_ok by exact E. by exists m'.
Qed.

Lemma it_remove_ok m L a n x b it : list_rep m L (a ++ (n, x) :: b) → on_node L a n it →
  ∃ m' it', it_remove it m = Some (it', m') ∧ list_rep m' L (a ++ b) ∧ at_pos L a it' ∧
    frame m m' L (a ++ (n, x) :: b).
Proof.
  intros R (H1 & H2 & H3 & H4). destruct (remove_ok _ _ _ _ _ _ R) as (m' & E & R' & F & _).
  unfold it_remove. rewrite H3, H1. erewrite bind_ok by exact E.
  eexists m', _. split; [reflexivity|]. split_and!; done.
Qed.

Lemma it_after_ok m L a n x b it p y : list_rep m L (a ++ (n, x) :: b) → on_node L a n it →
  fresh m p → Z.of_nat (length (a ++ (n, x) :: b)) + 1 < 2 ^ 32 →
  ∃ m' it', it_after it p y m = Some (it', m') ∧ list_rep m' L (a ++ (n, x) :: (p, y) :: b) ∧
    at_pos L (a ++ [(n, x); (p, y)]) it' ∧ frame m m' L (a ++ (n, x) :: b).
Proof.
  intros R (H1 & H2 & H3 & H4) F Hl. destruct (after_ok m L a n x b p y R F Hl) as (m' & E & R' & F').
  pose proof (rep_split _ _ _ _ _ _ R') as (_ & Sn & _).
  unfold it_after. rewrite H1, H4. erewrite bind_ok by exact E. mstep.
  eexists m', _. split; [reflexivity|]. split_and!; [done| |done].
  split; [done|]. simpl. by rewrite last_cell_app.
Qed.

(** The [last] pointer after splicing the nodes [c] between [n] and [b]. *)
Lemma splice_last_ok m L n k c b f len : n ∉ b.*1 →
  lists m !! L = Some (BaseList f (last_cell (CNext n) b) len) →
  ∃ m', (if bool_decide (last_cell (CNext n) b = CNext n) && (1 <? Z.of_nat (S (length c)))
         then set_last L (last_cell (CNext k) c) else ret tt) m = Some (tt, m') ∧
    nodes m' = nodes m ∧
    lists m' !! L = Some (BaseList f (last_cell (CNext n) (c ++ b)) len) ∧
    ∀ J, J ≠ L → lists m' !! J = lists m !! J.
Proof.
  intros Hn Hl. rewrite last_cell_app. case_bool_decide as Hc; simpl andb.
  - apply last_cell_next in Hc as ->; [|done]. destruct c as [|z c].
    + exists m. done.
    + rewrite (proj2 (Z.ltb_lt 1 _)) by (simpl; lia). cbn [andb]. mstep. eexists.
      rewrite (last_cell_nonempty (CNext n) (CNext k)) by done.
      split_and!; [done|done|apply lookup_upd_list|intros; by rewrite lookup_upd_list_ne].
  - exists m. rewrite (last_cell_nonempty _ (CNext n) b) by (intros ->; by apply Hc). done.
Qed.

Lemma splice_nodup (a b c : list loc) n k : NoDup (a ++ n :: b) → NoDup (k :: c) →
  a ++ n :: b ## k :: c → NoDup (a ++ n :: c ++ b).
Proof.
  intros H1 H2 Hd. apply NoDup_cons in H2 as [_ H2].
  assert (a ++ n :: c ++ b ≡ₚ c ++ (a ++ n :: b)) as ->.
  { rewrite <- !Permutation_middle, (app_assoc c a b), (app_assoc a c b), (Permutation_app_comm a c).
    done. }
  apply NoDup_app. split_and!; [done| |done]. intros y Hy Hy'. apply (Hd y Hy'). by right.
Qed.

Lemma splice_rep m m' L a n x y k c b : list_rep m L (a ++ (n, x) :: b) →
  NoDup (k :: c.*1) → end_of_list ∉ c.*1 ∧ NULL ∉ c.*1 →
  (∀ z, z ∈ a.*1 ++ n :: b.*1 → z ∉ k :: c.*1) ∧ end_of_list ∉ k :: c.*1 →
  lists m' !! L = Some (BaseList (hd_loc a n) (last_cell (CNext n) (c ++ b))
                          (Z.of_nat (length (a ++ (n, y) :: c ++ b)))) →
  nodes m' !! n = Some (Node (hd_loc c (hd_loc b end_of_list)) y) ∧
    seg (nodes m') c (hd_loc b end_of_list) →
  (∀ n', n' ≠ n → n' ∉ (k :: c.*1) → nodes m' !! n' = nodes m !! n') →
  Z.of_nat (length (a ++ (n, y) :: c ++ b)) < 2 ^ 32 → list_rep m' L (a ++ (n, y) :: c ++ b).
Proof.
  intros R Nk [Hec H0c] [Hd Hek] Hl [Sn' Sc] Hag Hlen.
  pose proof (rep_split _ _ _ _ _ _ R) as (Sa & Sn & Sb & Hnd & He & H0).
  pose proof (NoDup_mid _ _ _ Hnd) as (_ & Hna & Hnb & _).
  apply notin_mid in He as (_ & Hne & Hea & Heb). apply notin_mid in H0 as (_ & Hn0 & H0a & H0b).
  apply rep_intro; [| | | | |rewrite Hag by done; apply R|done]; rewrite ?fmap_app, ?fmap_cons, ?fmap_app; simpl.
  - rewrite Hl, (hd_loc_app a), (last_cell_app _ a). done.
  - apply seg_app. simpl. rewrite !hd_loc_app. split_and!; [|done|].
    + apply (seg_agree (nodes m)); [|done]. intros z Hz.
      apply Hag; [by intros ->|]. apply Hd, elem_of_app. by left.
    + apply seg_app. split; [done|]. apply (seg_agree (nodes m)); [|done]. intros z Hz.
      apply Hag; [by intros ->|]. apply Hd, elem_of_app. right. by right.
  - eapply splice_nodup; [done|done|]. intros z Hz. by apply Hd.
  - rewrite not_elem_of_app, not_elem_of_cons, not_elem_of_app. done.
  - rewrite not_elem_of_app, not_elem_of_cons, not_elem_of_app. done.
Qed.

Lemma replace_list_ok m L K a n x b k y c it :
  list_rep m L (a ++ (n, x) :: b) → list_rep m K ((k, y) :: c) → L ≠ K →
  (a ++ (n, x) :: b).*1 ## ((k, y) :: c).*1 → on_node L a n it →
  Z.of_nat (length (a ++ (n, x) :: b) + length c) < 2 ^ 32 →
  ∃ m', replace_list it K m = Some (x, m') ∧ list_rep m' L (a ++ (n, y) :: c ++ b).
Proof.
  intros R Rk HLK Hd (H1 & _ & _ & H4) Hlen.
  pose proof (rep_split _ _ _ _ _ _ R) as (Sa & Sn & Sb & Hnd & He & H0).
  pose proof (NoDup_mid _ _ _ Hnd) as (_ & Hna & Hnb & _).
  pose proof (notin_mid _ _ _ _ He) as (_ & Hne & Hea & Heb).
  pose proof (rep_parts _ _ _ Rk) as (Nk & Hek & H0k). pose proof (rep_list _ _ _ R) as L1.
  pose proof (rep_list _ _ _ Rk) as K1. pose proof (rep_end _ _ _ R) as R4.
  assert (k ≠ n ∧ n ∉ c.*1) as [Hkn Hnc].
  { rewrite fmap_app in Hd. split; [intros ->|intros Hn]; apply (Hd n);
      [apply elem_of_app; right; left|left|apply elem_of_app; right; left|by right]. }
  rewrite length_app, last_cell_app, hd_loc_app in *. cbn [length last_cell hd_loc] in *.
  unfold replace_list. rewrite H1, H4. mstep. erewrite bind_ok by (by apply is_empty_ok).
  rewrite bool_decide_false by done. cbn [negb]. mstep.
  destruct (store_last_cell m K _ ((k, y) :: c) end_of_list K1 eq_refl (rep_seg _ _ _ Rk) Nk
    (hd_loc b end_of_list)) as (m2 & E2 & K2 & [S2 S2'] & N2 & O2).
  change (last_cell (CFirst K) ((k, y) :: c)) with (last_cell (CNext k) c) in E2.
  erewrite bind_ok by exact E2. repeat mstep.
  assert (nodes m2 !! n = Some (Node (hd_loc b end_of_list) x)) as Sn2.
  { rewrite N2; [done|]. by rewrite fmap_cons, not_elem_of_cons. }
  erewrite bind_ok by (by eapply set_info_ok). cbn [next info]. set (m3 := upd_node n _ m2).
  assert (nodes m3 !! k = Some (Node (hd_loc c (hd_loc b end_of_list)) y)) as S3
    by (simpl; by rewrite lookup_insert_ne).
  assert (nodes m3 !! n = Some (Node (hd_loc b end_of_list) y)) as Sn3 by apply lookup_insert_eq.
  repeat mstep. pose proof (O2 L HLK) as L2. rewrite L1 in L2. set (m4 := upd_node n _ m3).
  assert (lists m4 !! L = lists m2 !! L) as L4 by done. rewrite L2 in L4. mstep.
  destruct (splice_last_ok m4 L n k c b _ _ Hnb L4) as (m5 & E5 & N5 & L5 & O5).
  erewrite bind_ok by exact E5. repeat mstep. eexists. split; [reflexivity|].
  replace (Z.of_nat (length a + S (length b)) + (Z.of_nat (S (length c)) - 1))
    with (Z.of_nat (length (a ++ (n, y) :: c ++ b))) by (rewrite !length_app; simpl; rewrite length_app; lia).
  assert (∀ n', n' ≠ n → n' ∉ (k :: c.*1) → nodes m5 !! n' = nodes m !! n') as Hag.
  { intros n' Hn1 Hn2. rewrite N5. simpl. rewrite !lookup_insert_ne by done. by apply N2. }
  assert (∀ z, z ∈ a.*1 ++ n :: b.*1 → z ∉ k :: c.*1) as Hdis.
  { intros z Hz Hz'. apply (Hd z); [by rewrite fmap_app|done]. }
  pose proof Hek as Hek'. rewrite fmap_cons, not_elem_of_cons in Hek', H0k.
  eapply (splice_rep m _ L a n x y k c b); [done|done|tauto|done| |split|done|].
  - rewrite lookup_upd_list. by rewrite to_uint32_id by (rewrite !length_app; simpl; rewrite length_app; lia).
  - simpl. rewrite N5. apply lookup_insert_eq.
  - simpl. rewrite N5. apply (seg_agree (nodes m2)); [|done]. intros z Hz. simpl.
    rewrite !lookup_insert_ne by (intros ->; done). done.
  - rewrite !length_app. simpl. rewrite length_app. lia.
Qed.

Lemma copy_replace_ok clone L b : ∀ a m it fuel dbug, list_rep m L (a ++ b) → at_pos L a it →
  NULL ∉ b.*2 → (length b < fuel)%nat →
  ∃ m', copy_replace_loop clone fuel dbug it m = Some (tt, m') ∧
    list_rep m' L (a ++ ((λ nx, (nx.1, clone nx.2)) <$> b)).
Proof.
  induction b as [|[n x] b IH]; intros a m it [|fuel] dbug R P Hz Hf; simpl in Hf; try lia; simpl.
  - rewrite app_nil_r in *. destruct (it_next_end m L a it R P) as (it' & E & _).
    erewrite bind_ok by exact E. by exists m.
  - destruct (it_next_ok m L a n x b it R P) as (it' & E & P').
    erewrite bind_ok by exact E. simpl in *. rewrite not_elem_of_cons in Hz.
    rewrite (proj2 (N.eqb_neq x NULL)) by (intros ->; tauto).
    destruct (replace_ok dbug m L a n x b it' (clone x) R P') as (m1 & E1 & R1 & _);
      [intros _ ->; tauto|].
    erewrite bind_ok by exact E1.
    destruct (IH (a ++ [(n, clone x)]) m1 it' fuel dbug) as (m2 & E2 & R2);
      [by rewrite <- app_assoc|by apply on_node_pos|tauto|lia|].
    exists m2. split; [done|]. by rewrite <- app_assoc in R2.
Qed.

(** ** The sort *)

Section SortSpec.
Variable sort_func : N → N → Z.

(** One pass over the values [x :: l]: [x] is carried along. *)
Fixpoint bubble (x : N) (l : list N) : list N * bool :=
  match l with
  | [] => ([x], false)
  | y :: l => if 0 <? sort_func x y then (y :: (bubble x l).1, true)
              else (x :: (bubble y l).1, (bubble y l).2)
  end.

Lemma bubble_perm x l : (bubble x l).1 ≡ₚ x :: l.
Proof.
  revert x. induction l as [|y l IH]; intros x; simpl; [done|]. case_match; simpl; rewrite IH.
  - apply Permutation_swap.
  - done.
Qed.

Lemma bubble_length x l : length (bubble x l).1 = S (length l).
Proof. by rewrite bubble_perm. Qed.

(** The nodes keep their places and take the values [vs]. *)
Definition with_values (ns : node_seq) (vs : list N) : node_seq := zip ns.*1 vs.

Fixpoint last_loc (n : loc) (ns : node_seq) : loc :=
  match ns with [] => n | (n', _) :: r => last_loc n' r end.

(** [last_ref] is the first node of [d], or null when [d] is empty. *)
Definition stops_at (d : node_seq) (last_ref : option loc) : Prop :=
  (d = [] ∧ last_ref = None) ∨ ∃ n x d', d = (n, x) :: d' ∧ x ≠ NULL ∧ last_ref = Some n.

(** The inner loop on [a ++ (n, x) :: c ++ d], where [d] starts at [last_ref]. *)
Lemma bubble_inner_ok L d last_ref : stops_at d last_ref → ∀ c a m n x it fuel sw,
  list_rep m L (a ++ (n, x) :: c ++ d) → at_pos L (a ++ [(n, x)]) it →
  NULL ∉ c.*2 → (length c < fuel)%nat →
  ∃ m' it', bubble_inner sort_func fuel it x n last_ref sw m
      = Some ((it', last_loc n c, sw || (bubble x c.*2).2), m') ∧ it_list it' = L ∧
    list_rep m' L (a ++ with_values ((n, x) :: c) (bubble x c.*2).1 ++ d).
Proof.
  intros Hstop. induction c as [|[n2 y] c IH]; intros a m n x it [|fuel] sw R P Hz Hf;
    simpl in Hf; try lia.
  - cbn [bubble_inner]. simpl in R. rewrite (cons_middle (n, x) a d), app_assoc in R. simpl. rewrite orb_false_r.
    destruct Hstop as [[-> ->]|(n' & x' & d' & -> & Hx' & ->)].
    + rewrite app_nil_r in R. destruct (it_next_end m L _ it R P) as (it' & E & H1 & _).
      erewrite bind_ok by exact E. simpl. exists m, it'. done.
    + destruct (it_next_ok m L _ n' x' d' it R P) as (it' & E & H1 & H2 & H3 & H4).
      erewrite bind_ok by exact E. cbn [fst snd]. rewrite (proj2 (N.eqb_neq x' NULL)) by done.
      unfold ref. rewrite H4, bool_decide_true by done. exists m, it'. split_and!; [done|done|].
      by rewrite <- app_assoc in R.
  - cbn [bubble_inner].
    replace (a ++ (n, x) :: ((n2, y) :: c) ++ d) with ((a ++ [(n, x)]) ++ (n2, y) :: (c ++ d)) in R
      by (by rewrite <- app_assoc).
    destruct (it_next_ok m L _ n2 y (c ++ d) it R P) as (it' & E & H1 & H2 & H3 & H4).
    erewrite bind_ok by exact E. cbn [fst snd]. simpl in Hz. rewrite not_elem_of_cons in Hz.
    rewrite (proj2 (N.eqb_neq y NULL)) by (intros ->; tauto). unfold ref. rewrite H4.
    rewrite bool_decide_false.
    2: { intros Hl. destruct Hstop as [[_ ->]|(n' & x' & d' & -> & _ & ->)]; [done|].
         injection Hl as ->. apply rep_split in R as (_ & _ & _ & Hnd & _).
         apply NoDup_mid in Hnd as (_ & _ & Hn & _). apply Hn. rewrite fmap_app.
         apply elem_of_app. right. by left. }
    assert (∀ z w, at_pos L ((a ++ [(n, z)]) ++ [(n2, w)]) it') as P'
      by (intros; split; [done|]; by rewrite H2, last_cell_app).
    simpl. destruct (0 <? sort_func x y) eqn:Es.
    + rewrite <- app_assoc in R. destruct (set_info_rep m L a n x _ y R) as (m1 & E1 & R1 & _).
      erewrite bind_ok by exact E1. rewrite (cons_middle (n, y) a), app_assoc in R1.
      destruct (set_info_rep m1 L _ n2 y _ x R1) as (m2 & E2 & R2 & _).
      erewrite bind_ok by exact E2.
      destruct (IH (a ++ [(n, y)]) m2 n2 x it' fuel true R2 (P' y x)) as (m3 & it3 & E3 & H5 & R3);
        [tauto|lia|].
      exists m3, it3. rewrite orb_true_r. split_and!; [done|done|]. by rewrite <- app_assoc in R3.
    + destruct (IH (a ++ [(n, x)]) m n2 y it' fuel sw R (P' x y)) as (m3 & it3 & E3 & H5 & R3);
        [tauto|lia|].
      exists m3, it3. split_and!; [done|done|]. by rewrite <- app_assoc in R3.
Qed.
(** All passes, on the values: [d] is the part already in place. *)
Fixpoint passes (k : nat) (c d : list N) : list N :=
  match k, c with
  | S k, x :: l =>
      let r := bubble x l in
      if r.2 then passes k (removelast r.1) (List.last r.1 0%N :: d) else r.1 ++ d
  | _, _ => c ++ d
  end.

Lemma passes_perm k c d : passes k c d ≡ₚ c ++ d.
Proof.
  revert c d. induction k as [|k IH]; intros [|x l] d; try done. cbn [passes]. case_match.
  - rewrite IH, <- (bubble_perm x l). rewrite (cons_middle _ (removelast _) d), app_assoc.
    rewrite <- app_removelast_last; [done|]. intros E. pose proof (bubble_length x l). rewrite E in *. done.
  - by rewrite bubble_perm.
Qed.

Lemma with_values_id ns : with_values ns ns.*2 = ns.
Proof. unfold with_values. apply zip_fst_snd. Qed.

Lemma with_values_app a b u v : length a = length u →
  with_values (a ++ b) (u ++ v) = with_values a u ++ with_values b v.
Proof. intros H. unfold with_values. rewrite fmap_app, zip_with_app; [done|]. by rewrite length_fmap. Qed.

Lemma with_values_fst a u : length a = length u → (with_values a u).*1 = a.*1.
Proof. intros H. apply fst_zip. rewrite length_fmap. lia. Qed.

Lemma with_values_snd a u : length a = length u → (with_values a u).*2 = u.
Proof. intros H. apply snd_zip. rewrite length_fmap. lia. Qed.

Lemma last_loc_split n x c : ∃ c0 xl, (n, x) :: c = c0 ++ [(last_loc n c, xl)].
Proof.
  revert n x. induction c as [|[n' x'] c IH]; intros n x; [by exists [], x|].
  destruct (IH n' x') as (c0 & xl & E). exists ((n, x) :: c0), xl. simpl. by rewrite E.
Qed.

Lemma bubble_outer_ok L k : ∀ c d m it fuel inner ref1, length c = S k →
  list_rep m L (c ++ d) → at_pos L [] it → stops_at d ref1 → NULL ∉ (c ++ d).*2 →
  (S k ≤ fuel)%nat → (S k ≤ inner)%nat →
  ∃ m', bubble_outer sort_func fuel inner it ref1 m = Some (tt, m') ∧
    list_rep m' L (with_values (c ++ d) (passes (S k) c.*2 d.*2)).
Proof.
  induction k as [k IH] using lt_wf_ind. intros [|[n x] c] d m it [|fuel] inner ref1 Hc R P Hs Hz Hf Hi;
    try (simpl in *; lia). simpl in Hc.
  destruct (it_next_ok m L [] n x (c ++ d) it R P) as (it' & E & P').
  cbn [bubble_outer]. erewrite bind_ok by exact E. cbn [fst snd].
  assert (ref it' = n) as -> by apply P'. apply (on_node_pos _ _ _ x) in P'.
  rewrite fmap_app, not_elem_of_app in Hz. destruct Hz as [Hz1 Hz2].
  destruct (bubble_inner_ok L d ref1 Hs c [] m n x it' inner false R P') as (m1 & it1 & E1 & H1 & R1).
  { rewrite fmap_cons, not_elem_of_cons in Hz1. tauto. } { lia. }
  erewrite bind_ok by exact E1. cbn [fst snd orb app] in *. rewrite fmap_cons. cbn [passes snd].
  pose proof (bubble_perm x c.*2) as Hp. pose proof (bubble_length x c.*2) as Hl.
  set (r := bubble x c.*2) in *. rewrite length_fmap in Hl. destruct (r.2) eqn:Er.
  - destruct k as [|k]; [destruct c; [unfold r in Er; done|done]|].
    destruct (last_loc_split n x c) as (c0 & xl & Ec).
    assert (r.1 = removelast r.1 ++ [List.last r.1 0%N]) as Ev.
    { apply app_removelast_last. intros Hn. by rewrite Hn in Hl. }
    assert (length (removelast r.1) = length c0) as Hl0.
    { apply (f_equal length) in Ev, Ec. rewrite length_app in Ev, Ec. simpl in *. lia. }
    set (v0 := removelast r.1) in *. set (z := List.last r.1 0%N) in *.
    rewrite Ec, Ev, with_values_app, <- app_assoc in R1 by done. simpl in R1.
    assert (NULL ∉ v0 ∧ NULL ≠ z) as [Hv0 Hz0].
    { change (NULL ∉ x :: c.*2) in Hz1. rewrite <- Hp, Ev, not_elem_of_app, list_elem_of_singleton in Hz1. done. }
    destruct (IH k ltac:(lia) (with_values c0 v0) ((last_loc n c, z) :: d) m1 (rewind it1) fuel inner
      (Some (last_loc n c))) as (m2 & E2 & R2).
    { unfold with_values. rewrite length_zip_with_l_eq; rewrite length_fmap; [|done].
      apply (f_equal length) in Ec. rewrite length_app in Ec. simpl in *. lia. }
    { done. } { by rewrite <- H1. } { right. by exists (last_loc n c), z, d. }
    { rewrite fmap_app, with_values_snd by done. rewrite not_elem_of_app. split; [done|].
      rewrite fmap_cons, not_elem_of_cons. done. }
    { lia. } { lia. }
    exists m2. split; [exact E2|]. rewrite with_values_snd in R2 by done.
    unfold with_values in *. rewrite fmap_app, fst_zip in R2 by (rewrite length_fmap; lia).
    assert (((n, x) :: c ++ d).*1 = c0.*1 ++ last_loc n c :: d.*1) as Ef
      by (change ((n, x) :: c ++ d) with (((n, x) :: c) ++ d); by rewrite Ec, !fmap_app, <- app_assoc).
    rewrite Ef. exact R2.
  - exists m1. split; [done|].
    pose proof (with_values_app ((n, x) :: c) d r.1 d.*2 ltac:(simpl; lia)) as Ew.
    rewrite with_values_id in Ew. exact (eq_ind_r (list_rep m1 L) R1 Ew).
Qed.

(** *** Order *)

Definition cmp_le (x y : N) : Prop := sort_func x y ≤ 0.
Context (le_trans : Transitive cmp_le).
Hypothesis le_total : ∀ x y, ¬ cmp_le x y → cmp_le y x.

Lemma bubble_noswap x l : (bubble x l).2 = false → (bubble x l).1 = x :: l ∧ Sorted cmp_le (x :: l).
Proof.
  revert x. induction l as [|y l IH]; intros x; simpl; [by repeat constructor|].
  destruct (Z.ltb_spec 0 (sort_func x y)); [done|]. simpl. intros Hs. destruct (IH y Hs) as [-> Hy].
  split; [done|]. apply Sorted_cons; [done|]. apply HdRel_cons. unfold cmp_le. lia.
Qed.

(** The last value of a pass is its largest. *)
Lemma bubble_max x l : (∀ y, cmp_le y y) →
  ∃ v z, (bubble x l).1 = v ++ [z] ∧ cmp_le x z ∧ Forall (λ w, cmp_le w z) v.
Proof.
  intros le_refl. revert x. induction l as [|y l IH]; intros x; simpl.
  - exists [], x. split_and!; [done|done|constructor].
  - destruct (Z.ltb_spec 0 (sort_func x y)) as [H|H]; simpl.
    + destruct (IH x) as (v & z & -> & Hz & Hv). exists (y :: v), z. split_and!; [done|done|].
      constructor; [|done]. transitivity x; [|done]. apply le_total. unfold cmp_le. lia.
    + destruct (IH y) as (v & z & -> & Hz & Hv). exists (x :: v), z.
      assert (cmp_le x z) by (by transitivity y). split_and!; [done|done|by constructor].
Qed.

Lemma passes_sorted k c d : (length c ≤ k)%nat → (∀ x y, x ∈ c → y ∈ d → cmp_le x y) →
  StronglySorted cmp_le d → StronglySorted cmp_le (passes k c d).
Proof.
  assert (∀ y, cmp_le y y) as le_refl.
  { intros y. destruct (decide (sort_func y y ≤ 0)) as [|n]; [done|]. by apply le_total in n. }
  revert c d. induction k as [|k IH]; intros [|x l] d Hk Hcd Hd; simpl in Hk; try done; try lia.
  cbn [passes]. destruct ((bubble x l).2) eqn:Es.
  - destruct (bubble_max x l le_refl) as (v & z & Ev & _ & Hv). pose proof (bubble_perm x l) as Hp.
    rewrite Ev in *. rewrite removelast_last, List.last_last.
    assert (∀ y, y ∈ v ∨ y = z → y ∈ x :: l) as Hin.
    { intros y Hy. rewrite <- Hp. rewrite elem_of_app, list_elem_of_singleton. done. }
    apply IH.
    + apply Permutation_length in Hp. rewrite length_app in Hp. simpl in Hp. lia.
    + intros a b Ha. rewrite elem_of_cons. intros [->|Hb].
      * rewrite Forall_forall in Hv. by apply Hv.
      * apply Hcd; [|done]. apply Hin. by left.
    + apply StronglySorted_cons. split; [|done]. apply Forall_forall. intros b Hb.
      apply Hcd; [|done]. apply Hin. by right.
  - destruct (bubble_noswap x l Es) as [-> Hs]. apply StronglySorted_app.
    split_and!; [done|by apply Sorted_StronglySorted|done].
Qed.
End SortSpec.

(** ** Main results *)

(** iterating with [it++] visits exactly the elements of the list, in
    order, and then returns [NULL], again and again; the C++ range [for] over
    [begin()..end()] visits the same elements.  The number of steps is the
    length of the list plus one. *)
Theorem sql_list_iteration m L ns fuel dbug : list_rep m L ns → NULL ∉ ns.*2 →
  (length ns < fuel)%nat →
  visit fuel (init L) m = Some (ns.*2, m) ∧
  range_for fuel dbug (hd_loc ns end_of_list) m = Some (ns.*2, m) ∧
  (∀ it, at_pos L ns it ∨ past_end L it →
     ∃ it', it_next it m = Some ((NULL, it'), m) ∧ past_end L it' ∧ at_end it' = true ∧ is_last it' = true).
Proof.
  intros R Hz Hf. pose proof (rep_parts _ _ _ R) as (_ & He & _). split_and!.
  - by apply (visit_ok m L ns []).
  - apply range_for_ok; [apply R|done|done].
  - assert (∀ it, past_end L it → at_end it = true ∧ is_last it = true) as Hpe.
    { intros it (_ & H2 & H3). unfold at_end, is_last. by rewrite H2, H3. }
    intros it [P|P].
    + destruct (it_next_end m L ns it R P) as (it' & E & P'). exists it'. split_and!; by try apply Hpe.
    + destruct (it_next_past m L it (rep_end _ _ _ R) P) as (it' & E & P').
      exists it'. split_and!; by try apply Hpe.
Qed.

Lemma sql_list_iteration_witness : visit 4 (init 10) sample_mem = Some ([101%N; 102%N; 103%N], sample_mem).
Proof.
  refine (proj1 (sql_list_iteration sample_mem 10 sample_a 4 true sample_a_rep _ _)).
  - apply (bool_decide_unpack _). by vm_compute.
  - simpl. lia.
Defined.

(** editing through an iterator that has just returned element [x] in node
    [n]: [replace(y)] changes this element only and returns the old one,
    [remove()] takes it out and steps back so that the next element follows,
    [after(y)] inserts behind it and moves onto the new element, and
    [replace(new_list)] puts the whole other list in its place. *)
Theorem sql_list_iterator_edit dbug m L a n x b it y p :
  list_rep m L (a ++ (n, x) :: b) → on_node L a n it → x ≠ NULL → fresh m p →
  Z.of_nat (length (a ++ (n, x) :: b)) + 1 < 2 ^ 32 →
  (∃ m', replace dbug it y m = Some (x, m') ∧ list_rep m' L (a ++ (n, y) :: b)) ∧
  (∃ m' it', it_remove it m = Some (it', m') ∧ list_rep m' L (a ++ b) ∧ at_pos L a it') ∧
  (∃ m' it', it_after it p y m = Some (it', m') ∧
     list_rep m' L (a ++ (n, x) :: (p, y) :: b) ∧ at_pos L (a ++ [(n, x); (p, y)]) it') ∧
  (∀ K k z c, list_rep m K ((k, z) :: c) → L ≠ K →
     (a ++ (n, x) :: b).*1 ## ((k, z) :: c).*1 →
     Z.of_nat (length (a ++ (n, x) :: b) + length c) < 2 ^ 32 →
     ∃ m', replace_list it K m = Some (x, m') ∧ list_rep m' L (a ++ (n, z) :: c ++ b)).
Proof.
  intros R P Hx F Hl. split_and!.
  - destruct (replace_ok dbug m L a n x b it y R P) as (m' & ? & ? & _); eauto.
  - destruct (it_remove_ok m L a n x b it R P) as (m' & it' & ? & ? & ? & _); eauto.
  - destruct (it_after_ok m L a n x b it p y R P F Hl) as (m' & it' & ? & ? & ? & _); eauto.
  - intros K k z c RK HLK Hd Hlen. by eapply replace_list_ok.
Qed.

Lemma sql_list_iterator_edit_witness :
  let it := Iter 10 (Some (CNext 3)) (Some (CNext 2)) 3 in
  ∃ m' it', it_remove it sample_mem = Some (it', m') ∧
    list_rep m' 10 [(2%N, 101%N); (4%N, 103%N)] ∧ at_pos 10 [(2%N, 101%N)] it'.
Proof.
  intros it.
  destruct (sql_list_iterator_edit true sample_mem 10 [(2%N, 101%N)] 3 102 [(4%N, 103%N)] it 0 6
    sample_a_rep) as (_ & H & _).
  - by split_and!.
  - done.
  - split_and!; [done|done|reflexivity].
  - reflexivity.
  - exact H.
Defined.

(** [list_copy_and_replace_each_value] replaces every element by its clone,
    in place. *)
Theorem list_copy_replaces_each clone m L ns fuel dbug : list_rep m L ns → NULL ∉ ns.*2 →
  (length ns < fuel)%nat →
  ∃ m', list_copy_and_replace_each_value clone fuel dbug L m = Some (tt, m') ∧
    list_rep m' L ((λ nx, (nx.1, clone nx.2)) <$> ns).
Proof. intros R Hz Hf. by apply (copy_replace_ok clone L ns []). Qed.

Lemma list_copy_replaces_each_witness :
  ∃ m', list_copy_and_replace_each_value (N.add 1000) 4 true 10 sample_mem = Some (tt, m') ∧
    list_rep m' 10 [(2%N, 1101%N); (3%N, 1102%N); (4%N, 1103%N)].
Proof.
  apply (list_copy_replaces_each (N.add 1000) sample_mem 10 sample_a 4 true sample_a_rep).
  - apply (bool_decide_unpack _). by vm_compute.
  - simpl. lia.
Defined.

(** C11: [bubble_sort] terminates for every comparison function, within as many
    passes as the list has elements, and leaves a permutation of the elements
    in the same nodes; when the comparison is a total preorder the result is
    sorted. *)
Theorem bubble_sort_sorts sort_func m L ns fuel : list_rep m L ns → NULL ∉ ns.*2 →
  (length ns < fuel)%nat →
  ∃ m' vs, bubble_sort sort_func fuel L m = Some (tt, m') ∧
    list_rep m' L (zip ns.*1 vs) ∧ vs ≡ₚ ns.*2 ∧
    (Transitive (cmp_le sort_func) → (∀ x y, ¬ cmp_le sort_func x y → cmp_le sort_func y x) →
     StronglySorted (cmp_le sort_func) vs).
Proof.
  intros R Hz Hf. unfold bubble_sort. destruct ns as [|nx ns].
  - exists m, []. destruct fuel as [|fuel]; simpl in Hf; try lia.
    destruct (it_next_end m L [] (init L) R) as (it & E & P); [done|].
    destruct (it_next_past m L it (rep_end _ _ _ R) P) as (it' & E' & P').
    split_and!; [|done|done|intros; constructor].
    cbn [bubble_outer]. erewrite bind_ok by exact E. cbn [bubble_inner fst snd]. rewrite bind_assoc.
    by erewrite bind_ok by exact E'.
  - destruct (bubble_outer_ok sort_func L (length ns) (nx :: ns) [] m (init L) fuel fuel None)
      as (m' & E & R'); [done|by rewrite app_nil_r|done|by left|by rewrite app_nil_r|simpl in *; lia..|].
    rewrite app_nil_r in R'. eexists m', _. split_and!; [done|done| |].
    + rewrite passes_perm. by rewrite app_nil_r.
    + intros Ht Htot. apply passes_sorted; [done|done| | |constructor].
      * rewrite length_fmap. done.
      * set_solver.
Qed.

Definition sample_cmp (x y : N) : Z := Z.of_N y - Z.of_N x.

Lemma bubble_sort_sorts_witness :
  ∃ m' vs, bubble_sort sample_cmp 4 10 sample_mem = Some (tt, m') ∧
    list_rep m' 10 (zip sample_a.*1 vs) ∧ vs ≡ₚ sample_a.*2 ∧ StronglySorted (cmp_le sample_cmp) vs.
Proof.
  destruct (bubble_sort_sorts sample_cmp sample_mem 10 sample_a 4 sample_a_rep)
    as (m' & vs & H1 & H2 & H3 & H4).
  - apply (bool_decide_unpack _). by vm_compute.
  - simpl. lia.
  - exists m', vs. split_and!; [exact H1|exact H2|exact H3|apply H4].
    + intros x y z. unfold cmp_le, sample_cmp. lia.
    + intros x y. unfold cmp_le, sample_cmp. lia.
Defined.
