(* ===== verification/SqlIList.v ===== *)
(** [sql_list.h], [class SQL_I_List]: the intrusive singly linked list, whose
    elements hold their own link and which ends in [NULL].  The memory holds
    the link field of every element and the list objects; [next] is the
    address of the pointer that ends the list, so that a list object copied
    or extended the wrong way leaves it pointing at another object. *)
From S2P Require Import Prelude CMonad.

(** ** Memory *)

(** A [T **]: the address of a list's [first] or of an element's link. *)
Inductive icell :=
| IFirst (l : N)
| ILink (n : N).

#[export] Instance icell_eq_dec : EqDecision icell.
Proof. solve_decision. Defined.

Record SQL_I_List := IList { elements : Z; first : N; next : icell }.

Record imem := IMem { links : gmap N N; ilists : gmap N SQL_I_List }.

Definition get_ilist (l : N) : M imem SQL_I_List := gets_opt (λ m, ilists m !! l).
Definition put_ilist (l : N) (v : SQL_I_List) : M imem unit :=
  modify (λ m, IMem (links m) (<[l := v]> (ilists m))).

(** [*c= v]; writing to an address that is not allocated is undefined. *)
Definition istore (c : icell) (v : N) : M imem unit :=
  match c with
  | IFirst l => b <- get_ilist l ;; put_ilist l (IList (elements b) v (next b))
  | ILink n => gets_opt (λ m, links m !! n) ;; modify (λ m, IMem (<[n := v]> (links m)) (ilists m))
  end.

(** ** Operations *)

Definition empty (this : N) : M imem unit := put_ilist this (IList 0 0 (IFirst this)).

(** The copy constructor, and [operator=]. *)
Definition copy_ctor (this tmp : N) : M imem unit :=
  t <- get_ilist tmp ;;
  put_ilist this (IList (elements t) (first t) (if truth (elements t) then next t else IFirst this)).
Definition assign (this tmp : N) : M imem unit :=
  t <- get_ilist tmp ;; put_ilist this (IList (elements t) (first t) (next t)).

Definition link_in_list (this element : N) (next_ptr : icell) : M imem unit :=
  b <- get_ilist this ;;
  put_ilist this (IList (to_uint32 (elements b + 1)) (first b) (next b)) ;;
  istore (next b) element ;;
  b <- get_ilist this ;;
  put_ilist this (IList (elements b) (first b) next_ptr) ;;
  istore next_ptr 0.

Definition save_and_clear (this save : N) : M imem unit := assign save this ;; empty this.

Definition push_front (this save : N) : M imem unit :=
  s <- get_ilist save ;;
  b <- get_ilist this ;;
  istore (next s) (first b) ;;
  s <- get_ilist save ;;
  b <- get_ilist this ;;
  put_ilist this (IList (to_uint32 (elements b + elements s)) (first s) (next b)).

Definition push_back (this save : N) : M imem unit :=
  s <- get_ilist save ;;
  if negb (first s =? 0)%N then
    b <- get_ilist this ;;
    istore (next b) (first s) ;;
    s <- get_ilist save ;;
    b <- get_ilist this ;;
    put_ilist this (IList (to_uint32 (elements b + elements s)) (first b) (next s))
  else ret tt.

(** ** Specification: sequences of elements *)

Definition hd_el (ns : list N) (e : N) : N := match ns with [] => e | n :: _ => n end.

Fixpoint iseg (h : gmap N N) (ns : list N) (e : N) : Prop :=
  match ns with [] => True | n :: r => h !! n = Some (hd_el r e) ∧ iseg h r e end.

Fixpoint ilast (c : icell) (ns : list N) : icell :=
  match ns with [] => c | n :: r => ilast (ILink n) r end.

Record ilist_rep (m : imem) (L : N) (ns : list N) : Prop := {
  irep_list : ilists m !! L = Some (IList (Z.of_nat (length ns)) (hd_el ns 0) (ilast (IFirst L) ns));
  irep_seg : iseg (links m) ns 0;
  irep_nodup : NoDup ns;
  irep_null : 0%N ∉ ns;
  irep_len : Z.of_nat (length ns) < 2 ^ 32 }.

(** ** Lemmas *)

Lemma hd_el_app a b e : hd_el (a ++ b) e = hd_el a (hd_el b e).
Proof. by destruct a. Qed.

Lemma iseg_app h a b e : iseg h (a ++ b) e ↔ iseg h a (hd_el b e) ∧ iseg h b e.
Proof. induction a as [|n a IH]; simpl; [tauto|]. rewrite IH, hd_el_app. tauto. Qed.

Lemma iseg_agree h h' a e : (∀ n, n ∈ a → h' !! n = h !! n) → iseg h a e → iseg h' a e.
Proof.
  induction a as [|n a IH]; simpl; [done|]. intros H [H1 H2]. split.
  - rewrite H; [done|by left].
  - apply IH; [|done]. intros n' Hn. apply H. by right.
Qed.

Lemma ilast_app c a b : ilast c (a ++ b) = ilast (ilast c a) b.
Proof. revert c. induction a as [|n a IH]; intros c; simpl; [done|apply IH]. Qed.

Lemma ilast_nonempty c c' a : a ≠ [] → ilast c a = ilast c' a.
Proof. by destruct a. Qed.

Lemma get_ilist_ok m l b {A} (f : SQL_I_List → M imem A) :
  ilists m !! l = Some b → bind (get_ilist l) f m = f b m.
Proof. intros H. apply bind_ok. by apply gets_opt_ok. Qed.

(** Writing the pointer that ends the chain [a] of list [L]. *)
Lemma istore_last m L a e v i nx : ilists m !! L = Some (IList i (hd_el a e) nx) →
  iseg (links m) a e → NoDup a →
  ∃ m', istore (ilast (IFirst L) a) v m = Some (tt, m') ∧
    ilists m' !! L = Some (IList i (hd_el a v) nx) ∧ iseg (links m') a v ∧
    (∀ n, n ∉ a → links m' !! n = links m !! n) ∧
    (∀ J, J ≠ L → ilists m' !! J = ilists m !! J).
Proof.
  intros Hl Hs Hnd. destruct a as [|n a _] using rev_ind.
  - simpl. rewrite (get_ilist_ok _ _ _ _ Hl). eexists. split; [reflexivity|].
    split_and!; [apply lookup_insert_eq|done|done|]. intros J HJ. by apply lookup_insert_ne.
  - rewrite ilast_app. simpl. apply iseg_app in Hs as [Ha [Hn _]]. simpl in *.
    unfold bind, gets_opt. rewrite Hn. apply NoDup_app in Hnd as (_ & Hd & _). simpl in Hd.
    assert (n ∉ a) as Hna by (intros Hx; apply (Hd n Hx); by left).
    eexists. split; [reflexivity|]. simpl. split_and!.
    + rewrite Hl. do 2 f_equal. by destruct a.
    + apply iseg_app. split; [|split; [apply lookup_insert_eq|done]]. simpl.
      apply (iseg_agree (links m)); [|done]. intros n' Hn'. apply lookup_insert_ne. by intros ->.
    + intros n' Hn'. apply lookup_insert_ne. intros ->. apply Hn', elem_of_app. right. by left.
    + done.
Qed.

Lemma ilist_frame m m' L ns : ilist_rep m L ns → ilists m' !! L = ilists m !! L →
  (∀ n, n ∈ ns → links m' !! n = links m !! n) → ilist_rep m' L ns.
Proof.
  intros [R1 R2 R3 R4 R5] Hl Hn. split; [by rewrite Hl| |done|done|done].
  by apply (iseg_agree (links m)).
Qed.

Lemma u32_id x : 0 ≤ x < 2 ^ 32 → to_uint32 x = x.
Proof. apply (wrap_id 32). Qed.

Lemma link_in_list_ok m L ns e : ilist_rep m L ns → e ∉ ns → e ≠ 0%N → is_Some (links m !! e) →
  Z.of_nat (length ns) + 1 < 2 ^ 32 →
  ∃ m', link_in_list L e (ILink e) m = Some (tt, m') ∧ ilist_rep m' L (ns ++ [e]) ∧
    (∀ J, J ≠ L → ilists m' !! J = ilists m !! J) ∧
    (∀ n, n ∉ ns → n ≠ e → links m' !! n = links m !! n).
Proof.
  intros [R1 R2 R3 R4 R5] He H0 [v Hv] Hl. unfold link_in_list.
  rewrite (get_ilist_ok _ _ _ _ R1). erewrite bind_ok by reflexivity. simpl.
  rewrite u32_id by lia. set (m1 := IMem _ _).
  destruct (istore_last m1 L ns 0 e (Z.of_nat (length ns) + 1) (ilast (IFirst L) ns))
    as (m2 & E2 & L2 & S2 & N2 & O2); [apply lookup_insert_eq|done|done|].
  erewrite bind_ok by exact E2. rewrite (get_ilist_ok _ _ _ _ L2). erewrite bind_ok by reflexivity.
  simpl. unfold bind, gets_opt. simpl. rewrite N2 by done. simpl. rewrite Hv.
  eexists. split; [reflexivity|]. simpl. split_and!.
  - split; simpl.
    + rewrite lookup_insert_eq, length_app, hd_el_app, ilast_app. simpl. do 2 f_equal. lia.
    + apply iseg_app. simpl. split; [|split; [apply lookup_insert_eq|done]].
      apply (iseg_agree (links m2)); [|done]. intros n Hn. apply lookup_insert_ne. by intros ->.
    + apply NoDup_app. split_and!; [done| |apply NoDup_singleton].
      intros n Hn. rewrite list_elem_of_singleton. by intros ->.
    + rewrite not_elem_of_app, list_elem_of_singleton. done.
    + rewrite length_app. simpl. lia.
  - intros J HJ. rewrite lookup_insert_ne, O2 by done. by apply lookup_insert_ne.
  - intros n Hn Hne. rewrite lookup_insert_ne by done. by rewrite N2.
Qed.

(** The concatenation of two chains whose parts have been linked. *)
Lemma ilist_concat m L K J a b m' : ilist_rep m K a → ilist_rep m J b → (∀ n, n ∈ a → n ∉ b) →
  ilists m' !! L = Some (IList (Z.of_nat (length a) + Z.of_nat (length b)) (hd_el (a ++ b) 0)
                          (ilast (IFirst L) (a ++ b))) →
  iseg (links m') a (hd_el b 0) → (∀ n, n ∉ a → links m' !! n = links m !! n) →
  Z.of_nat (length a) + Z.of_nat (length b) < 2 ^ 32 → ilist_rep m' L (a ++ b).
Proof.
  intros [A1 A2 A3 A4 A5] [B1 B2 B3 B4 B5] Hd Hl Ha Hn Hlen. split.
  - rewrite Hl, length_app. do 2 f_equal. lia.
  - apply iseg_app. split; [done|]. apply (iseg_agree (links m)); [|done].
    intros n Hb. apply Hn. intros Hx. by apply (Hd n).
  - apply NoDup_app. split_and!; [done|done|done].
  - by rewrite not_elem_of_app.
  - rewrite length_app. lia.
Qed.

Lemma hd_el_null m L ns : ilist_rep m L ns → (hd_el ns 0 =? 0)%N = bool_decide (ns = []).
Proof.
  intros [_ _ _ R4 _]. destruct ns as [|n ns]; [done|]. cbn [hd_el].
  rewrite not_elem_of_cons in R4. rewrite bool_decide_false by done. apply N.eqb_neq. intros ->. tauto.
Qed.

Lemma i_push_back_ok m L K a b : ilist_rep m L a → ilist_rep m K b → L ≠ K → (∀ n, n ∈ a → n ∉ b) →
  Z.of_nat (length a) + Z.of_nat (length b) < 2 ^ 32 →
  ∃ m', push_back L K m = Some (tt, m') ∧ ilist_rep m' L (a ++ b) ∧ ilist_rep m' K b.
Proof.
  intros Ra Rb HLK Hd Hl. unfold push_back. pose proof (irep_list _ _ _ Rb) as Lb.
  pose proof (irep_list _ _ _ Ra) as La.
  rewrite (get_ilist_ok _ _ _ _ Lb). cbn [first]. rewrite (hd_el_null _ _ _ Rb).
  case_bool_decide as Hb; simpl.
  { subst b. exists m. rewrite app_nil_r. done. }
  rewrite (get_ilist_ok _ _ _ _ La). cbn [next].
  destruct (istore_last m L a 0 (hd_el b 0) _ _ La) as (m2 & E2 & L2 & S2 & N2 & O2);
    [apply Ra|apply Ra|].
  erewrite bind_ok by exact E2. assert (ilists m2 !! K = ilists m !! K) as K2 by auto. rewrite Lb in K2.
  rewrite (get_ilist_ok _ _ _ _ K2), (get_ilist_ok _ _ _ _ L2). simpl. rewrite u32_id by lia.
  eexists. split; [reflexivity|]. split.
  - apply (ilist_concat m L L K a b); [done|done|done| |done|done|done]. simpl.
    rewrite lookup_insert_eq, hd_el_app, ilast_app. by rewrite (ilast_nonempty (ilast _ a) (IFirst K)).
  - apply (ilist_frame m); [done|simpl; rewrite lookup_insert_ne by done; by rewrite O2|].
    intros n Hn. apply N2. intros Ha. by apply (Hd n).
Qed.

Lemma i_push_front_ok m L K a b : ilist_rep m L a → ilist_rep m K b → L ≠ K → (∀ n, n ∈ b → n ∉ a) →
  a ≠ [] → Z.of_nat (length a) + Z.of_nat (length b) < 2 ^ 32 →
  ∃ m', push_front L K m = Some (tt, m') ∧ ilist_rep m' L (b ++ a).
Proof.
  intros Ra Rb HLK Hd Hne Hl. unfold push_front. pose proof (irep_list _ _ _ Rb) as Lb.
  pose proof (irep_list _ _ _ Ra) as La.
  rewrite (get_ilist_ok _ _ _ _ Lb), (get_ilist_ok _ _ _ _ La). cbn [next first].
  destruct (istore_last m K b 0 (hd_el a 0) _ _ Lb) as (m2 & E2 & K2 & S2 & N2 & O2);
    [apply Rb|apply Rb|].
  erewrite bind_ok by exact E2. assert (ilists m2 !! L = ilists m !! L) as L2 by auto. rewrite La in L2.
  rewrite (get_ilist_ok _ _ _ _ K2), (get_ilist_ok _ _ _ _ L2). simpl. rewrite u32_id by lia.
  eexists. split; [reflexivity|].
  apply (ilist_concat m L K L b a); [done|done|done| |done|done|lia]. simpl.
  rewrite lookup_insert_eq, hd_el_app, ilast_app.
  rewrite (ilast_nonempty (ilast _ b) (IFirst L)) by done. do 2 f_equal. lia.
Qed.

Lemma save_and_clear_ok m L K a k : ilist_rep m L a → ilists m !! K = Some k → L ≠ K → a ≠ [] →
  ∃ m', save_and_clear L K m = Some (tt, m') ∧ ilist_rep m' K a ∧ ilist_rep m' L [].
Proof.
  intros [R1 R2 R3 R4 R5] HK HLK Hne. unfold save_and_clear, assign. rewrite bind_assoc.
  rewrite (get_ilist_ok _ _ _ _ R1). erewrite bind_ok by reflexivity. eexists. split; [reflexivity|].
  simpl. split.
  - split; simpl; try done. rewrite lookup_insert_ne, lookup_insert_eq by done.
    by rewrite (ilast_nonempty (IFirst L) (IFirst K)).
  - split; simpl; [apply lookup_insert_eq|done|apply NoDup_nil_2|set_solver|lia].
Qed.

(** ** Main results *)

(** [SQL_I_List] keeps a sequence: [link_in_list] adds the element last,
    [push_back(save)] appends the other list, [push_front(save)] puts it in
    front of a non-empty list, and [save_and_clear] hands a non-empty list
    over and leaves this one empty. *)
Theorem sql_i_list_operations m L K a b e : ilist_rep m L a → ilist_rep m K b → L ≠ K →
  (∀ n, n ∈ a → n ∉ b) → e ∉ a → e ≠ 0%N → is_Some (links m !! e) → a ≠ [] →
  Z.of_nat (length a) + Z.of_nat (length b) + 1 < 2 ^ 32 →
  (∃ m', link_in_list L e (ILink e) m = Some (tt, m') ∧ ilist_rep m' L (a ++ [e])) ∧
  (∃ m', push_back L K m = Some (tt, m') ∧ ilist_rep m' L (a ++ b) ∧ ilist_rep m' K b) ∧
  (∃ m', push_front L K m = Some (tt, m') ∧ ilist_rep m' L (b ++ a)) ∧
  (∃ m', save_and_clear L K m = Some (tt, m') ∧ ilist_rep m' K a ∧ ilist_rep m' L []).
Proof.
  intros Ra Rb HLK Hd He H0 Hs Hne Hl. split_and!.
  - destruct (link_in_list_ok m L a e) as (m' & ? & ? & _); eauto with lia.
  - apply i_push_back_ok; [done..|lia].
  - apply i_push_front_ok; [done|done|done| |done|lia]. intros n Hb Ha. by apply (Hd n).
  - apply (save_and_clear_ok m L K a _ Ra (irep_list _ _ _ Rb)); done.
Qed.

Definition isample : imem :=
  IMem {[ 2%N := 3%N; 3%N := 0%N; 4%N := 0%N; 5%N := 7%N ]}
       {[ 10%N := IList 2 2 (ILink 3); 11%N := IList 1 4 (ILink 4); 12%N := IList 0 0 (IFirst 12) ]}.

Lemma isample_10 : ilist_rep isample 10 [2; 3]%N.
Proof.
  split; [reflexivity|repeat split; reflexivity| | |reflexivity]; apply (bool_decide_unpack _); by vm_compute.
Qed.
Lemma isample_11 : ilist_rep isample 11 [4]%N.
Proof.
  split; [reflexivity|repeat split; reflexivity| | |reflexivity]; apply (bool_decide_unpack _); by vm_compute.
Qed.
Lemma isample_12 : ilist_rep isample 12 [].
Proof.
  split; [reflexivity|repeat split; reflexivity| | |reflexivity]; apply (bool_decide_unpack _); by vm_compute.
Qed.

Lemma sql_i_list_operations_witness :
  ∃ m', push_front 10 11 isample = Some (tt, m') ∧ ilist_rep m' 10 [4; 2; 3]%N.
Proof.
  destruct (sql_i_list_operations isample 10 11 [2; 3]%N [4]%N 5 isample_10 isample_11)
    as (_ & _ & H & _).
  - done.
  - intros n. rewrite !elem_of_cons, !elem_of_nil. lia.
  - rewrite !elem_of_cons, elem_of_nil. lia.
  - done.
  - by exists 7%N.
  - done.
  - reflexivity.
  - exact H.
Defined.

(** on an empty list [push_front(save)] does not maintain [next]: it still
    points at this list's [first], so the next [link_in_list] overwrites
    [first] and the saved elements are lost. *)
Theorem sql_i_list_push_front_empty m L K b e : ilist_rep m L [] → ilist_rep m K b → L ≠ K →
  b ≠ [] → e ∉ b → e ≠ 0%N → is_Some (links m !! e) → Z.of_nat (length b) + 1 < 2 ^ 32 →
  ∃ m1 m2, push_front L K m = Some (tt, m1) ∧
    ilists m1 !! L = Some (IList (Z.of_nat (length b)) (hd_el b 0) (IFirst L)) ∧
    link_in_list L e (ILink e) m1 = Some (tt, m2) ∧
    ilists m2 !! L = Some (IList (Z.of_nat (length b) + 1) e (ILink e)) ∧ links m2 !! e = Some 0%N.
Proof.
  intros Ra Rb HLK Hb He H0 [v Hv] Hl. unfold push_front. pose proof (irep_list _ _ _ Rb) as Lb.
  pose proof (irep_list _ _ _ Ra) as La. simpl in La.
  rewrite (get_ilist_ok _ _ _ _ Lb), (get_ilist_ok _ _ _ _ La). cbn [next first].
  destruct (istore_last m K b 0 0 _ _ Lb) as (m2 & E2 & K2 & S2 & N2 & O2); [apply Rb|apply Rb|].
  erewrite bind_ok by exact E2. assert (ilists m2 !! L = ilists m !! L) as L2 by auto. rewrite La in L2.
  rewrite (get_ilist_ok _ _ _ _ K2), (get_ilist_ok _ _ _ _ L2). simpl. rewrite u32_id by lia.
  eexists _, _. split; [reflexivity|]. split; [apply lookup_insert_eq|].
  unfold link_in_list. erewrite get_ilist_ok by (apply lookup_insert_eq).
  erewrite bind_ok by reflexivity. cbn [next first elements istore]. rewrite u32_id by lia.
  unfold istore. rewrite bind_assoc.
  erewrite get_ilist_ok by (apply lookup_insert_eq). erewrite bind_ok by reflexivity.
  erewrite get_ilist_ok by (apply lookup_insert_eq). erewrite bind_ok by reflexivity.
  unfold bind, gets_opt. simpl. rewrite N2, Hv by done. split; [reflexivity|]. simpl.
  rewrite !lookup_insert_eq. done.
Qed.

Lemma sql_i_list_push_front_empty_witness :
  ∃ m1 m2, push_front 12 11 isample = Some (tt, m1) ∧
    link_in_list 12 5 (ILink 5) m1 = Some (tt, m2) ∧
    ilists m2 !! 12%N = Some (IList 2 5 (ILink 5)).
Proof.
  destruct (sql_i_list_push_front_empty isample 12 11 [4]%N 5 isample_12 isample_11)
    as (m1 & m2 & H1 & _ & H2 & H3 & _).
  - done.
  - done.
  - rewrite elem_of_cons, elem_of_nil. lia.
  - done.
  - by exists 7%N.
  - reflexivity.
  - exists m1, m2. split_and!; [exact H1|exact H2|exact H3].
Defined.
