(* ===== verification/ILink.v ===== *)
(** [sql_list.h], [struct ilink], [class base_ilist] (and [I_List<T>], which
    only adds casts) and [base_ilist_iterator]: the doubly linked intrusive
    list.  Every element holds the address of the pointer that leads to it
    and a pointer to the next element; the list object holds the first pointer
    and, by value, the sentinel [last].  The sentinel is part of the list
    object, so its address changes when a list moves to another object. *)
From S2P Require Import Prelude CMonad.

(** ** Memory *)

(** The [ilink] objects: the elements, and the member [last] of list [l].  An
    [ilink *] is an [option]: [None] is the null pointer. *)
Inductive iloc :=
| Elem (n : N)
| Sent (l : N).

#[export] Instance iloc_eq_dec : EqDecision iloc.
Proof. solve_decision. Defined.

(** An [ilink **]. *)
Inductive lcell :=
| LFirst (l : N)
| LNext (a : iloc).

Record ilink := Ilink { prev : option lcell; next : option iloc }.
Record base_ilist := BIlist { first : option iloc; last : ilink }.
Record lmem := LMem { elems : gmap N ilink; blists : gmap N base_ilist }.

Definition get_blist (l : N) : M lmem base_ilist := gets_opt (λ m, blists m !! l).
Definition put_blist (l : N) (v : base_ilist) : M lmem unit :=
  modify (λ m, LMem (elems m) (<[l := v]> (blists m))).

(** [*a] of an [ilink *]; the null pointer cannot be read. *)
Definition get_link (a : option iloc) : M lmem ilink :=
  match a with
  | None => ub
  | Some (Elem n) => gets_opt (λ m, elems m !! n)
  | Some (Sent l) => b <- get_blist l ;; ret (last b)
  end.
Definition put_link (a : option iloc) (v : ilink) : M lmem unit :=
  match a with
  | None => ub
  | Some (Elem n) => gets_opt (λ m, elems m !! n) ;;
                     modify (λ m, LMem (<[n := v]> (elems m)) (blists m))
  | Some (Sent l) => b <- get_blist l ;; put_blist l (BIlist (first b) v)
  end.

Definition set_prev (a : option iloc) (c : option lcell) : M lmem unit :=
  k <- get_link a ;; put_link a (Ilink c (next k)).
Definition set_next (a : option iloc) (v : option iloc) : M lmem unit :=
  k <- get_link a ;; put_link a (Ilink (prev k) v).

Definition lload (c : lcell) : M lmem (option iloc) :=
  match c with
  | LFirst l => b <- get_blist l ;; ret (first b)
  | LNext a => k <- get_link (Some a) ;; ret (next k)
  end.
Definition lstore (c : lcell) (v : option iloc) : M lmem unit :=
  match c with
  | LFirst l => b <- get_blist l ;; put_blist l (BIlist v (last b))
  | LNext a => set_next (Some a) v
  end.

(** ** Operations *)

(** [ilink::unlink]. *)
Definition unlink (a : option iloc) : M lmem unit :=
  k <- get_link a ;;
  (if prev k is Some p then lstore p (next k) else ret tt) ;;
  k <- get_link a ;;
  (if next k is Some n then set_prev (Some n) (prev k) else ret tt) ;;
  put_link a (Ilink None None).

Definition empty (this : N) : M lmem unit :=
  b <- get_blist this ;;
  put_blist this (BIlist (Some (Sent this)) (Ilink (Some (LFirst this)) (next (last b)))).

Definition is_empty (this : N) : M lmem bool :=
  b <- get_blist this ;; ret (bool_decide (first b = Some (Sent this))).

Definition is_last (this : N) (p : option iloc) : M lmem bool :=
  k <- get_link p ;; ret (bool_decide (next k = None) || bool_decide (next k = Some (Sent this))).

(** [append] puts the element first. *)
Definition append (this : N) (a : iloc) : M lmem unit :=
  b <- get_blist this ;;
  set_prev (first b) (Some (LNext a)) ;;
  b <- get_blist this ;;
  set_next (Some a) (first b) ;;
  set_prev (Some a) (Some (LFirst this)) ;;
  lstore (LFirst this) (Some a).

Definition push_back (this : N) (a : iloc) : M lmem unit :=
  b <- get_blist this ;;
  (if prev (last b) is Some p then lstore p (Some a) else ub) ;;
  set_next (Some a) (Some (Sent this)) ;;
  b <- get_blist this ;;
  set_prev (Some a) (prev (last b)) ;;
  set_prev (Some (Sent this)) (Some (LNext a)).

(** [get] unlinks and returns the first element, null when there is none. *)
Definition get (this : N) : M lmem (option iloc) :=
  b <- get_blist this ;;
  if bool_decide (first b = Some (Sent this)) then ret None
  else unlink (first b) ;; ret (first b).

Definition head (this : N) : M lmem (option iloc) :=
  b <- get_blist this ;;
  ret (if negb (bool_decide (first b = Some (Sent this))) then first b else None).

Definition move_elements_to (dbug : bool) (this new_owner : N) : M lmem unit :=
  e <- is_empty new_owner ;;
  assert_that (negb dbug || e) ;;
  b <- get_blist this ;;
  o <- get_blist new_owner ;;
  put_blist new_owner (BIlist (first b) (last o)) ;;
  o <- get_blist new_owner ;;
  put_blist new_owner (BIlist (first o) (last b)) ;;
  empty this.

(** [base_ilist_iterator]: [el] is the address of the pointer to read next;
    [LNull] is the address of the link of the null pointer. *)
Inductive lpos := LCell (c : lcell) | LNull.

Definition iter_init (list : N) : lpos := LCell (LFirst list).

Definition iter_next (list : N) (el : lpos) : M lmem (option iloc * lpos) :=
  match el with
  | LNull => ub
  | LCell c =>
      current <- lload c ;;
      if bool_decide (current = Some (Sent list)) then ret (None, el)
      else ret (current, match current with Some a => LCell (LNext a) | None => LNull end)
  end.

(** [while ((x= it++))]. *)
Fixpoint iter_all (fuel : nat) (lst : N) (el : lpos) : M lmem (list iloc) :=
  match fuel with
  | O => ub
  | S fuel =>
      r <- iter_next lst el ;;
      match r.1 with
      | None => ret []
      | Some a => rest <- iter_all fuel lst r.2 ;; ret (a :: rest)
      end
  end.

(** ** Specification *)

Definition dhd (ns : list N) (e : iloc) : iloc := match ns with [] => e | n :: _ => Elem n end.

Fixpoint dlast (c : lcell) (ns : list N) : lcell :=
  match ns with [] => c | n :: r => dlast (LNext (Elem n)) r end.

(** The elements [ns], the first reached through [c], the last pointing to [e]. *)
Fixpoint dseg (h : gmap N ilink) (c : lcell) (ns : list N) (e : iloc) : Prop :=
  match ns with
  | [] => True
  | n :: r => h !! n = Some (Ilink (Some c) (Some (dhd r e))) ∧ dseg h (LNext (Elem n)) r e
  end.

Record blist_rep (m : lmem) (L : N) (ns : list N) : Prop := {
  brep_list : blists m !! L =
    Some (BIlist (Some (dhd ns (Sent L))) (Ilink (Some (dlast (LFirst L) ns)) None));
  brep_seg : dseg (elems m) (LFirst L) ns (Sent L);
  brep_nodup : NoDup ns }.

(** Other lists that share no element with [ns] are untouched. *)
Definition bframe (m m' : lmem) (L : N) (ns : list N) : Prop :=
  (∀ J, J ≠ L → blists m' !! J = blists m !! J) ∧ ∀ n, n ∉ ns → elems m' !! n = elems m !! n.

(** ** Lemmas *)

Lemma dhd_app a b e : dhd (a ++ b) e = dhd a (dhd b e).
Proof. by destruct a. Qed.

Lemma dlast_app c a b : dlast c (a ++ b) = dlast (dlast c a) b.
Proof. revert c. induction a as [|n a IH]; intros c; simpl; [done|apply IH]. Qed.

Lemma dseg_app h c a b e : dseg h c (a ++ b) e ↔ dseg h c a (dhd b e) ∧ dseg h (dlast c a) b e.
Proof. revert c. induction a as [|n a IH]; intros c; simpl; [tauto|]. rewrite IH, dhd_app. tauto. Qed.

Lemma dseg_agree h h' c a e : (∀ n, n ∈ a → h' !! n = h !! n) → dseg h c a e → dseg h' c a e.
Proof.
  revert c. induction a as [|n a IH]; intros c; simpl; [done|]. intros H [H1 H2]. split.
  - rewrite H; [done|by left].
  - apply IH; [|done]. intros n' Hn. apply H. by right.
Qed.

Lemma get_blist_ok m l b {A} (f : base_ilist → M lmem A) :
  blists m !! l = Some b → bind (get_blist l) f m = f b m.
Proof. intros H. apply bind_ok. by apply gets_opt_ok. Qed.

Lemma get_elem_ok m n k {A} (f : ilink → M lmem A) :
  elems m !! n = Some k → bind (get_link (Some (Elem n))) f m = f k m.
Proof. intros H. apply bind_ok. by apply gets_opt_ok. Qed.

Definition upd_elem (n : N) (k : ilink) (m : lmem) : lmem := LMem (<[n := k]> (elems m)) (blists m).
Definition upd_blist (l : N) (b : base_ilist) (m : lmem) : lmem := LMem (elems m) (<[l := b]> (blists m)).

Lemma put_elem_ok m n k v : elems m !! n = Some k →
  put_link (Some (Elem n)) v m = Some (tt, upd_elem n v m).
Proof. intros H. unfold put_link. erewrite bind_ok by (by apply gets_opt_ok). done. Qed.

Lemma set_prev_elem m n k c : elems m !! n = Some k →
  set_prev (Some (Elem n)) c m = Some (tt, upd_elem n (Ilink c (next k)) m).
Proof. intros H. unfold set_prev. erewrite get_elem_ok by done. by eapply put_elem_ok. Qed.
Lemma set_next_elem m n k v : elems m !! n = Some k →
  set_next (Some (Elem n)) v m = Some (tt, upd_elem n (Ilink (prev k) v) m).
Proof. intros H. unfold set_next. erewrite get_elem_ok by done. by eapply put_elem_ok. Qed.
Lemma set_prev_sent m l b c : blists m !! l = Some b →
  set_prev (Some (Sent l)) c m = Some (tt, upd_blist l (BIlist (first b) (Ilink c (next (last b)))) m).
Proof.
  intros H. unfold set_prev, get_link, put_link. rewrite bind_assoc.
  rewrite (get_blist_ok _ _ _ _ H). erewrite bind_ok by reflexivity. by rewrite (get_blist_ok _ _ _ _ H).
Qed.

(** [*c= v] where [c] is the pointer after the elements [a] of list [L]. *)
Lemma lstore_last m L a e v f k : blists m !! L = Some (BIlist f k) → f = Some (dhd a e) →
  dseg (elems m) (LFirst L) a e → NoDup a →
  ∃ m', lstore (dlast (LFirst L) a) (Some v) m = Some (tt, m') ∧
    blists m' !! L = Some (BIlist (Some (dhd a v)) k) ∧
    dseg (elems m') (LFirst L) a v ∧
    (∀ n, n ∉ a → elems m' !! n = elems m !! n) ∧
    (∀ J, J ≠ L → blists m' !! J = blists m !! J).
Proof.
  intros Hl -> Hs Hnd. destruct a as [|n a _] using rev_ind.
  - simpl. rewrite (get_blist_ok _ _ _ _ Hl). eexists. split; [reflexivity|].
    split_and!; [apply lookup_insert_eq|done|done|]. intros J HJ. by apply lookup_insert_ne.
  - rewrite dlast_app. simpl. apply dseg_app in Hs as [Ha [Hn _]]. simpl in *.
    apply NoDup_app in Hnd as (_ & Hd & _).
    assert (n ∉ a) as Hna by (intros Hx; apply (Hd n Hx); by left).
    eexists. split; [by eapply set_next_elem|]. simpl. split_and!.
    + rewrite Hl. do 2 f_equal. by destruct a.
    + apply dseg_app. split; [|split; [apply lookup_insert_eq|done]]. simpl.
      apply (dseg_agree (elems m)); [|done]. intros n' Hn'. apply lookup_insert_ne. by intros ->.
    + intros n' Hn'. apply lookup_insert_ne. intros ->. apply Hn', elem_of_app. right. by left.
    + done.
Qed.

(** Redirecting the [prev] of what follows: the head of [b] or the sentinel. *)
Lemma set_prev_hd m L c c' b f nx : dseg (elems m) c b (Sent L) → NoDup b →
  blists m !! L = Some (BIlist f (Ilink (Some (dlast c b)) nx)) →
  ∃ m', set_prev (Some (dhd b (Sent L))) (Some c') m = Some (tt, m') ∧
    dseg (elems m') c' b (Sent L) ∧
    blists m' !! L = Some (BIlist f (Ilink (Some (dlast c' b)) nx)) ∧
    (∀ n, n ∉ b → elems m' !! n = elems m !! n) ∧
    (∀ J, J ≠ L → blists m' !! J = blists m !! J).
Proof.
  intros Hs Hnd Hl. destruct b as [|n b]; simpl.
  - eexists. split; [by eapply set_prev_sent|]. split_and!; [done|apply lookup_insert_eq|done|].
    intros J HJ. by apply lookup_insert_ne.
  - destruct Hs as [Hn Hs]. apply NoDup_cons in Hnd as [Hnb Hnd]. eexists.
    split; [by eapply set_prev_elem|]. simpl. split_and!; [apply lookup_insert_eq| |by rewrite Hl| |done].
    + apply (dseg_agree (elems m)); [|done].
      intros n' Hn'. apply lookup_insert_ne. by intros ->.
    + intros n' Hn'. apply lookup_insert_ne. intros ->. apply Hn'. by left.
Qed.

Lemma ilink_append_ok m L ns a : blist_rep m L ns → a ∉ ns → is_Some (elems m !! a) →
  ∃ m', append L (Elem a) m = Some (tt, m') ∧ blist_rep m' L (a :: ns) ∧ bframe m m' L (a :: ns).
Proof.
  intros [R1 R2 R3] Ha [k Hk]. unfold append. rewrite (get_blist_ok _ _ _ _ R1). cbn [first].
  destruct (set_prev_hd m L (LFirst L) (LNext (Elem a)) ns _ _ R2 R3 R1) as (m1 & E1 & S1 & L1 & N1 & O1).
  erewrite bind_ok by exact E1. rewrite (get_blist_ok _ _ _ _ L1). cbn [first].
  erewrite bind_ok by (eapply set_next_elem; by rewrite N1).
  erewrite bind_ok by (eapply set_prev_elem; apply lookup_insert_eq). cbn [lstore next prev].
  erewrite get_blist_ok by exact L1. eexists. split; [reflexivity|]. simpl. split; [split|split].
  - apply lookup_insert_eq.
  - simpl. split; [apply lookup_insert_eq|]. apply (dseg_agree (elems m1)); [|done].
    intros n Hn. rewrite !lookup_insert_ne by (by intros ->). done.
  - by apply NoDup_cons.
  - intros J HJ. simpl. rewrite lookup_insert_ne by done. by apply O1.
  - intros n Hn. simpl. rewrite not_elem_of_cons in Hn.
    rewrite !lookup_insert_ne by (intros ->; tauto). apply N1. tauto.
Qed.

Lemma ilink_push_back_ok m L ns a : blist_rep m L ns → a ∉ ns → is_Some (elems m !! a) →
  ∃ m', push_back L (Elem a) m = Some (tt, m') ∧ blist_rep m' L (ns ++ [a]) ∧ bframe m m' L (a :: ns).
Proof.
  intros [R1 R2 R3] Ha [k Hk]. unfold push_back. rewrite (get_blist_ok _ _ _ _ R1). cbn [last prev].
  destruct (lstore_last m L ns (Sent L) (Elem a) _ _ R1 eq_refl R2 R3) as (m1 & E1 & L1 & S1 & N1 & O1).
  erewrite bind_ok by exact E1. erewrite bind_ok by (eapply set_next_elem; by rewrite N1).
  erewrite get_blist_ok by exact L1. cbn [last prev].
  erewrite bind_ok by (eapply set_prev_elem; apply lookup_insert_eq). cbn [next prev].
  erewrite set_prev_sent by exact L1. eexists. split; [reflexivity|]. simpl. split; [split|split]; simpl.
  - rewrite lookup_insert_eq, dlast_app, dhd_app. done.
  - apply dseg_app. simpl. split; [|split; [apply lookup_insert_eq|done]].
    apply (dseg_agree (elems m1)); [|done]. intros n Hn. rewrite !lookup_insert_ne by (by intros ->). done.
  - apply NoDup_app. split_and!; [done| |apply NoDup_singleton]. intros n Hn.
    rewrite list_elem_of_singleton. by intros ->.
  - intros J HJ. rewrite lookup_insert_ne by done. by apply O1.
  - intros n Hn. rewrite not_elem_of_cons in Hn.
    rewrite !lookup_insert_ne by (intros ->; tauto). apply N1. tauto.
Qed.

(** Unlinking an element from wherever it stands. *)
Lemma unlink_ok m L a n b : blist_rep m L (a ++ n :: b) →
  ∃ m', unlink (Some (Elem n)) m = Some (tt, m') ∧ blist_rep m' L (a ++ b) ∧
    elems m' !! n = Some (Ilink None None) ∧ bframe m m' L (a ++ n :: b).
Proof.
  intros [R1 R2 R3]. apply dseg_app in R2 as [Sa [Sn Sb]]. rewrite dhd_app, dlast_app in R1. simpl in *.
  apply NoDup_app in R3 as (Na & Hd & Hnb). apply NoDup_cons in Hnb as [Hn Nb].
  assert (n ∉ a) as Hna by (intros Hx; apply (Hd n Hx); by left).
  assert (∀ z, z ∈ a → z ∉ b) as Hab by (intros z Hz Hz'; apply (Hd z Hz); by right).
  unfold unlink. erewrite get_elem_ok by exact Sn. cbn [prev next].
  destruct (lstore_last m L a (Elem n) (dhd b (Sent L)) _ _ R1 eq_refl Sa Na)
    as (m1 & E1 & L1 & S1 & N1 & O1).
  erewrite bind_ok by exact E1. erewrite get_elem_ok by (by rewrite N1). cbn [prev next].
  destruct (set_prev_hd m1 L (LNext (Elem n)) (dlast (LFirst L) a) b (Some (dhd a (dhd b (Sent L)))) None)
    as (m2 & E2 & S2 & L2 & N2 & O2).
  { apply (dseg_agree (elems m)); [|done]. intros z Hz. apply N1. intros Hz'. by apply (Hab z). }
  { done. } { done. }
  erewrite bind_ok by exact E2. erewrite put_elem_ok by (rewrite N2, N1 by done; exact Sn).
  eexists. split; [reflexivity|]. simpl. split_and!; [split| |split]; simpl.
  - by rewrite L2, dhd_app, dlast_app.
  - apply dseg_app. split.
    + apply (dseg_agree (elems m1)); [|done]. intros z Hz. rewrite lookup_insert_ne by (by intros ->).
      apply N2. by apply Hab.
    + apply (dseg_agree (elems m2)); [|done]. intros z Hz. by rewrite lookup_insert_ne by (by intros ->).
  - by apply NoDup_app.
  - apply lookup_insert_eq.
  - intros J HJ. by rewrite O2, O1.
  - intros z Hz. rewrite not_elem_of_app, not_elem_of_cons in Hz. destruct Hz as (? & ? & ?).
    rewrite lookup_insert_ne, N2, N1; done.
Qed.

Lemma lload_pos m L a b : blist_rep m L (a ++ b) →
  lload (dlast (LFirst L) a) m = Some (Some (dhd b (Sent L)), m).
Proof.
  intros [R1 R2 _]. apply dseg_app in R2 as [Sa _]. rewrite dhd_app in R1.
  destruct a as [|n a _] using rev_ind.
  - simpl in *. by rewrite (get_blist_ok _ _ _ _ R1).
  - rewrite dlast_app. cbn [dlast lload]. apply dseg_app in Sa as [_ [Sn _]]. by erewrite get_elem_ok by exact Sn.
Qed.

Lemma ilink_iter_all_ok m L b : ∀ a fuel, blist_rep m L (a ++ b) → (length b < fuel)%nat →
  iter_all fuel L (LCell (dlast (LFirst L) a)) m = Some (Elem <$> b, m).
Proof.
  induction b as [|n b IH]; intros a [|fuel] R Hf; simpl in Hf; try lia; cbn [iter_all iter_next].
  - rewrite bind_assoc. erewrite bind_ok by (by apply (lload_pos _ _ _ _ R)). simpl.
    rewrite bool_decide_true by done. done.
  - rewrite bind_assoc. erewrite bind_ok by (by apply (lload_pos _ _ _ _ R)). cbn [dhd].
    rewrite bool_decide_false by done. erewrite bind_ok by reflexivity. cbn [fst snd].
    erewrite bind_ok; [reflexivity|]. specialize (IH (a ++ [n]) fuel).
    rewrite dlast_app in IH. apply IH; [by rewrite <- app_assoc|lia].
Qed.

(** Walking with the sentinel of list [K] a chain that ends in the sentinel of
    another list [L]. *)
Lemma iter_foreign m L K bl ns : blists m !! L = Some bl → next (last bl) = None → L ≠ K →
  ∀ c cc fuel, lload cc m = Some (Some (dhd ns (Sent L)), m) → dseg (elems m) c ns (Sent L) →
  (length ns + 2 ≤ fuel)%nat →
  iter_all fuel K (LCell cc) m = Some ((Elem <$> ns) ++ [Sent L], m).
Proof.
  intros Hl Hnx HLK. induction ns as [|n ns IH]; intros c cc [|fuel] Hc Hs Hf; simpl in Hf; try lia;
    cbn [iter_all iter_next].
  - rewrite bind_assoc. erewrite bind_ok by exact Hc. simpl dhd.
    rewrite bool_decide_false by congruence. erewrite bind_ok by reflexivity. cbn [fst snd].
    destruct fuel as [|fuel]; [lia|]. erewrite bind_ok; [reflexivity|].
    cbn [iter_all iter_next lload get_link]. rewrite !bind_assoc. rewrite (get_blist_ok _ _ _ _ Hl).
    erewrite bind_ok by reflexivity. rewrite Hnx. done.
  - destruct Hs as [Hn Hs]. rewrite bind_assoc. erewrite bind_ok by exact Hc. cbn [dhd].
    rewrite bool_decide_false by done. erewrite bind_ok by reflexivity. cbn [fst snd].
    erewrite bind_ok; [reflexivity|]. apply (IH (LNext (Elem n))); [|done|lia].
    cbn [lload]. by erewrite get_elem_ok by exact Hn.
Qed.

(** ** Main results *)

(** the doubly linked list keeps a sequence: [append] puts an element
    first, [push_back] last, [get] takes the first one off (null on the empty
    list), and [unlink] removes an element from anywhere in constant time and
    leaves it unlinked, so that unlinking it again does nothing; elements and
    lists not involved keep their contents. *)
Theorem ilink_list_operations m L a n b x : blist_rep m L (a ++ n :: b) →
  x ∉ a ++ n :: b → is_Some (elems m !! x) →
  (∃ m', append L (Elem x) m = Some (tt, m') ∧ blist_rep m' L (x :: a ++ n :: b) ∧
     bframe m m' L (x :: a ++ n :: b)) ∧
  (∃ m', push_back L (Elem x) m = Some (tt, m') ∧ blist_rep m' L ((a ++ n :: b) ++ [x]) ∧
     bframe m m' L (x :: a ++ n :: b)) ∧
  (∃ m', get L m = Some (Some (dhd a (Elem n)), m') ∧ blist_rep m' L (tail (a ++ n :: b)) ∧
     bframe m m' L (a ++ n :: b)) ∧
  (∃ m', unlink (Some (Elem n)) m = Some (tt, m') ∧ blist_rep m' L (a ++ b) ∧
     bframe m m' L (a ++ n :: b) ∧ unlink (Some (Elem n)) m' = Some (tt, m')).
Proof.
  intros R Hx Hs. split_and!; [by apply ilink_append_ok|by apply ilink_push_back_ok| |].
  - unfold get. erewrite get_blist_ok by apply (brep_list _ _ _ R). cbn [first].
    rewrite dhd_app. destruct a as [|a0 a]; cbn [dhd app tail] in *.
    + rewrite bool_decide_false by done. destruct (unlink_ok m L [] n b R) as (m' & E & R' & _ & F).
      erewrite bind_ok by exact E. by exists m'.
    + rewrite bool_decide_false by done.
      destruct (unlink_ok m L [] a0 (a ++ n :: b) R) as (m' & E & R' & _ & F).
      erewrite bind_ok by exact E. by exists m'.
  - destruct (unlink_ok m L a n b R) as (m' & E & R' & Hn & F). exists m'. split_and!; [done..|].
    unfold unlink. erewrite get_elem_ok by exact Hn. cbn [prev next].
    erewrite bind_ok by reflexivity. erewrite get_elem_ok by exact Hn. cbn [prev next].
    erewrite bind_ok by reflexivity. erewrite put_elem_ok by exact Hn. do 2 f_equal.
    destruct m'. unfold upd_elem. simpl in *. by rewrite insert_id.
Qed.

Definition lsample : lmem :=
  LMem {[ 2%N := Ilink (Some (LFirst 10)) (Some (Elem 3));
          3%N := Ilink (Some (LNext (Elem 2))) (Some (Sent 10));
          4%N := Ilink None None ]}
       {[ 10%N := BIlist (Some (Elem 2)) (Ilink (Some (LNext (Elem 3))) None);
          11%N := BIlist (Some (Sent 11)) (Ilink (Some (LFirst 11)) None) ]}.

Lemma lsample_10 : blist_rep lsample 10 [2; 3]%N.
Proof.
  split; [reflexivity|repeat split; reflexivity|]. apply (bool_decide_unpack _). by vm_compute.
Qed.
Lemma lsample_11 : blist_rep lsample 11 [].
Proof. split; [reflexivity|repeat split; reflexivity|apply NoDup_nil_2]. Qed.

Lemma ilink_list_operations_witness :
  ∃ m', unlink (Some (Elem 3)) lsample = Some (tt, m') ∧ blist_rep m' 10 [2]%N.
Proof.
  destruct (ilink_list_operations lsample 10 [2]%N 3 [] 4 lsample_10) as (_ & _ & _ & m' & H1 & H2 & _).
  - simpl. rewrite !elem_of_cons, elem_of_nil. lia.
  - by exists (Ilink None None).
  - exists m'. split; [exact H1|exact H2].
Defined.

(** the iterator visits the elements in order and stops at this list's
    sentinel; an element pushed back while an iteration is under way is
    visited too. *)
Theorem ilink_iteration m L a b x fuel : blist_rep m L (a ++ b) → x ∉ a ++ b →
  is_Some (elems m !! x) → (length b + 1 < fuel)%nat →
  iter_all fuel L (LCell (dlast (LFirst L) a)) m = Some (Elem <$> b, m) ∧
  ∃ m', push_back L (Elem x) m = Some (tt, m') ∧
    iter_all fuel L (LCell (dlast (LFirst L) a)) m' = Some (Elem <$> (b ++ [x]), m').
Proof.
  intros R Hx Hs Hf. split; [apply ilink_iter_all_ok; [done|lia]|].
  destruct (ilink_push_back_ok m L (a ++ b) x R Hx Hs) as (m' & E & R' & _). exists m'. split; [done|].
  apply ilink_iter_all_ok; [by rewrite app_assoc|]. rewrite length_app. simpl. lia.
Qed.

Lemma ilink_iteration_witness :
  iter_all 4 10 (iter_init 10) lsample = Some ([Elem 2; Elem 3], lsample).
Proof.
  refine (proj1 (ilink_iteration lsample 10 [] [2; 3]%N 4 4 lsample_10 _ _ _)).
  - simpl. rewrite !elem_of_cons, elem_of_nil. lia.
  - by exists (Ilink None None).
  - simpl. lia.
Defined.

(** [move_elements_to] does not hand the elements over: it copies the
    sentinel by value, but the last element still points at the old owner's
    sentinel.  The new owner is never [is_empty()], even when there was
    nothing to move, and iterating over it returns, after the elements, the
    address of the old owner's sentinel as if it were an element. *)
Theorem ilink_move_elements_keeps_old_sentinel dbug m L K ns fuel : blist_rep m L ns →
  blist_rep m K [] → L ≠ K → (length ns + 2 ≤ fuel)%nat →
  ∃ m', move_elements_to dbug L K m = Some (tt, m') ∧
    blist_rep m' L [] ∧ is_empty K m' = Some (false, m') ∧
    iter_all fuel K (iter_init K) m' = Some ((Elem <$> ns) ++ [Sent L], m').
Proof.
  intros [R1 R2 R3] [K1 _ _] HLK Hf. unfold move_elements_to, is_empty, empty. rewrite bind_assoc.
  rewrite (get_blist_ok _ _ _ _ K1). erewrite bind_ok by reflexivity. cbn [first dhd].
  rewrite bool_decide_true, orb_true_r by done. erewrite bind_ok by reflexivity.
  rewrite (get_blist_ok _ _ _ _ R1), (get_blist_ok _ _ _ _ K1). erewrite bind_ok by reflexivity.
  erewrite get_blist_ok by apply lookup_insert_eq. erewrite bind_ok by reflexivity.
  erewrite get_blist_ok by (simpl; by rewrite !lookup_insert_ne).
  eexists. split; [reflexivity|]. simpl. split_and!.
  - split; simpl; [apply lookup_insert_eq|done|apply NoDup_nil_2].
  - erewrite get_blist_ok by (simpl; by rewrite lookup_insert_ne, lookup_insert_eq). simpl.
    rewrite bool_decide_false by (destruct ns; simpl; congruence). done.
  - eapply (iter_foreign _ L K); [apply lookup_insert_eq|done|done| |exact R2|done].
    simpl. by erewrite get_blist_ok by (simpl; by rewrite lookup_insert_ne, lookup_insert_eq).
Qed.

Lemma ilink_move_elements_keeps_old_sentinel_witness :
  ∃ m', move_elements_to true 10 11 lsample = Some (tt, m') ∧
    iter_all 4 11 (iter_init 11) m' = Some ([Elem 2; Elem 3; Sent 10], m').
Proof.
  destruct (ilink_move_elements_keeps_old_sentinel true lsample 10 11 [2; 3]%N 4 lsample_10 lsample_11)
    as (m' & H1 & _ & _ & H2); [done|simpl; lia|].
  exists m'. split; [exact H1|exact H2].
Defined.
