(* ===== verification/IList.v ===== *)
(** [ilist.h]: [ilist<T, Tag>], the circular doubly linked intrusive list with
    a sentinel, its iterators, and [sized_ilist], which counts its elements.
    An element and the sentinel of a list are both [ilist_node]s; a list is
    named by the address of its sentinel.  The operations are shown against a
    ring of nodes, which has no distinguished start: the same lemma serves
    insertion at any position. *)
From S2P Require Import Prelude CMonad.

(** ** Memory *)

(** Node addresses; 0 is [nullptr]. *)
Record ilist_node := LNode { next : N; prev : N }.

(** [size_] of the [sized_ilist]s, by the address of their sentinel. *)
Record nmem := NMem { lnodes : gmap N ilist_node; size_ : gmap N Z }.

Definition get_node (n : N) : M nmem ilist_node := gets_opt (λ m, lnodes m !! n).
Definition put_node (n : N) (v : ilist_node) : M nmem unit :=
  modify (λ m, NMem (<[n := v]> (lnodes m)) (size_ m)).
Definition set_next (n v : N) : M nmem unit := k <- get_node n ;; put_node n (LNode v (prev k)).
Definition set_prev (n v : N) : M nmem unit := k <- get_node n ;; put_node n (LNode (next k) v).

(** ** [Iterator]: a node address; [dbug] says whether assertions are active *)
Section Dbug.
Variable dbug : bool.

Definition iterator (node : N) : M nmem N := assert_that (negb dbug || negb (node =? 0)%N) ;; ret node.

Definition incr (node : N) : M nmem N := k <- get_node node ;; iterator (next k).
Definition decr (node : N) : M nmem N := k <- get_node node ;; iterator (prev k).

(** ** [ilist] *)

Definition ctor (this : N) : M nmem unit := put_node this (LNode this this).

Definition begin_ (this : N) : M nmem N := k <- get_node this ;; iterator (next k).
Definition end_ (this : N) : M nmem N := iterator this.
Definition front (this : N) : M nmem N := begin_ this.
Definition back (this : N) : M nmem N := e <- end_ this ;; decr e.

Definition empty (this : N) : M nmem bool := k <- get_node this ;; ret (next k =? this)%N.
Definition clear (this : N) : M nmem unit := set_next this this ;; set_prev this this.

Definition insert (pos value : N) : M nmem N :=
  let curr := pos in
  k <- get_node pos ;;
  let prev := prev k in
  set_next prev value ;;
  set_prev curr value ;;
  set_prev value prev ;;
  set_next value curr ;;
  iterator value.

(** In a debug build the erased node is marked unlinked. *)
Definition erase (pos : N) : M nmem N :=
  k <- get_node pos ;;
  set_next (prev k) (next k) ;;
  set_prev (next k) (prev k) ;;
  (if dbug then set_prev pos 0 ;; set_next pos 0 else ret tt) ;;
  iterator (next k).

Definition push_back (this value : N) : M nmem unit := e <- end_ this ;; insert e value ;; ret tt.
Definition pop_back (this : N) : M nmem unit := e <- end_ this ;; erase e ;; ret tt.
Definition push_front (this value : N) : M nmem unit := b <- begin_ this ;; insert b value ;; ret tt.
Definition pop_front (this : N) : M nmem unit := b <- begin_ this ;; erase b ;; ret tt.
Definition remove (value : N) : M nmem unit := i <- iterator value ;; erase i ;; ret tt.

(** [for (it= begin(); it != end(); ++it)]: the elements visited; and the loop
    from [rbegin()] to [rend()], [node] being the base of the reverse iterator. *)
Fixpoint forward (fuel : nat) (this node : N) : M nmem (list N) :=
  match fuel with
  | O => ub
  | S fuel => if (node =? this)%N then ret [] else
              n <- incr node ;; r <- forward fuel this n ;; ret (node :: r)
  end.
Fixpoint backward (fuel : nat) (this node : N) : M nmem (list N) :=
  match fuel with
  | O => ub
  | S fuel => b <- begin_ this ;; if (node =? b)%N then ret [] else
              n <- decr node ;; r <- backward fuel this n ;; ret (n :: r)
  end.

(** ** [sized_ilist] *)

(** [++size_] and [--size_] of a [size_t]. *)
Definition add_size (this : N) (d : Z) : M nmem unit :=
  s <- gets_opt (λ m, size_ m !! this) ;;
  modify (λ m, NMem (lnodes m) (<[this := to_ulonglong (s + d)]> (size_ m))).

Definition sized_size (this : N) : M nmem Z := gets_opt (λ m, size_ m !! this).
Definition sized_clear (this : N) : M nmem unit :=
  clear this ;; modify (λ m, NMem (lnodes m) (<[this := 0]> (size_ m))).
Definition sized_insert (this pos value : N) : M nmem N := add_size this 1 ;; insert pos value.
Definition sized_erase (this pos : N) : M nmem N := add_size this (-1) ;; erase pos.
Definition sized_push_back (this value : N) : M nmem unit :=
  e <- end_ this ;; sized_insert this e value ;; ret tt.
Definition sized_push_front (this value : N) : M nmem unit :=
  b <- begin_ this ;; sized_insert this b value ;; ret tt.
Definition sized_pop_front (this : N) : M nmem unit := b <- begin_ this ;; sized_erase this b ;; ret tt.
Definition sized_pop_back (this : N) : M nmem unit := e <- end_ this ;; sized_erase this e ;; ret tt.
Definition sized_remove (this value : N) : M nmem unit :=
  i <- iterator value ;; sized_erase this i ;; ret tt.
End Dbug.

(** ** Specification: rings *)

Definition hdn (ns : list N) (e : N) : N := match ns with [] => e | n :: _ => n end.

Fixpoint lastn (p : N) (ns : list N) : N := match ns with [] => p | n :: r => lastn n r end.

(** The nodes [ns], preceded by [p] and followed by [e]. *)
Fixpoint dl (h : gmap N ilist_node) (p : N) (ns : list N) (e : N) : Prop :=
  match ns with
  | [] => True
  | n :: r => h !! n = Some (LNode (hdn r e) p) ∧ dl h n r e
  end.

Record ring (h : gmap N ilist_node) (s : N) (ns : list N) : Prop := {
  ring_sent : h !! s = Some (LNode (hdn ns s) (lastn s ns));
  ring_dl : dl h s ns s;
  ring_nodup : NoDup (s :: ns);
  ring_null : 0%N ∉ s :: ns }.

Lemma hdn_app a b e : hdn (a ++ b) e = hdn a (hdn b e).
Proof. by destruct a. Qed.
Lemma lastn_app p a b : lastn p (a ++ b) = lastn (lastn p a) b.
Proof. revert p. induction a as [|n a IH]; intros p; simpl; [done|apply IH]. Qed.

Lemma dl_app h p a b e : dl h p (a ++ b) e ↔ dl h p a (hdn b e) ∧ dl h (lastn p a) b e.
Proof. revert p. induction a as [|n a IH]; intros p; simpl; [tauto|]. rewrite IH, hdn_app. tauto. Qed.

Lemma dl_agree h h' p a e : (∀ n, n ∈ a → h' !! n = h !! n) → dl h p a e → dl h' p a e.
Proof.
  revert p. induction a as [|n a IH]; intros p; simpl; [done|]. intros H [H1 H2]. split.
  - rewrite H; [done|by left].
  - apply IH; [|done]. intros n' Hn. apply H. by right.
Qed.

(** A ring can be read from any of its nodes. *)
Lemma ring_rotate h s a n b : ring h s (a ++ n :: b) → ring h n (b ++ s :: a).
Proof.
  intros [R1 R2 R3 R4]. apply dl_app in R2 as [Ra [Rn Rb]]. rewrite hdn_app, lastn_app in R1. simpl in *.
  assert (s :: a ++ n :: b ≡ₚ n :: b ++ s :: a) as Hp.
  { rewrite <- !Permutation_middle, (Permutation_app_comm b a). apply Permutation_swap. }
  split.
  - rewrite hdn_app, lastn_app. done.
  - apply dl_app. simpl. done.
  - by rewrite <- Hp.
  - by rewrite <- Hp.
Qed.

Lemma get_inode_ok m n k {A} (f : ilist_node → M nmem A) :
  lnodes m !! n = Some k → bind (get_node n) f m = f k m.
Proof. intros H. apply bind_ok. by apply gets_opt_ok. Qed.

Definition upd (n : N) (k : ilist_node) (m : nmem) : nmem := NMem (<[n := k]> (lnodes m)) (size_ m).

Lemma set_inext_ok m n k v : lnodes m !! n = Some k → set_next n v m = Some (tt, upd n (LNode v (prev k)) m).
Proof. intros H. unfold set_next. by rewrite (get_inode_ok _ _ _ _ H). Qed.
Lemma set_prev_ok m n k v : lnodes m !! n = Some k → set_prev n v m = Some (tt, upd n (LNode (next k) v) m).
Proof. intros H. unfold set_prev. by rewrite (get_inode_ok _ _ _ _ H). Qed.

Lemma iterator_ok dbug n m : n ≠ 0%N → iterator dbug n m = Some (n, m).
Proof. intros H. unfold iterator. rewrite (proj2 (N.eqb_neq n 0)) by done. by rewrite orb_true_r. Qed.

(** Nodes outside [ns] and all sizes are kept. *)
Definition nframe (m m' : nmem) (ns : list N) : Prop :=
  size_ m' = size_ m ∧ ∀ n, n ∉ ns → lnodes m' !! n = lnodes m !! n.

(** Solves a lookup through the updates made by an operation. *)
Ltac nlook := simpl; repeat first [rewrite lookup_insert_eq | rewrite lookup_insert_ne by congruence].

Lemma insert_end_ok dbug m s ns v : ring (lnodes m) s ns → v ∉ s :: ns → v ≠ 0%N →
  is_Some (lnodes m !! v) →
  ∃ m', insert dbug s v m = Some (v, m') ∧ ring (lnodes m') s (ns ++ [v]) ∧ nframe m m' (v :: s :: ns).
Proof.
  intros [R1 R2 R3 R4] Hv H0 [kv Hkv]. unfold insert. erewrite get_inode_ok by exact R1. cbn [prev].
  rewrite not_elem_of_cons in Hv. destruct Hv as [Hvs Hvn]. apply NoDup_cons in R3 as [Hs R3].
  assert (NoDup (s :: ns ++ [v])) as Hnd.
  { apply NoDup_cons. rewrite not_elem_of_app, list_elem_of_singleton. split; [done|].
    apply NoDup_app. split_and!; [done| |apply NoDup_singleton]. intros n Hn.
    rewrite list_elem_of_singleton. by intros ->. }
  assert (0%N ∉ s :: ns ++ [v]) as Hz.
  { rewrite app_comm_cons, not_elem_of_app, list_elem_of_singleton. done. }
  destruct ns as [|l a _] using rev_ind.
  - simpl in *. erewrite bind_ok by (by eapply set_inext_ok).
    erewrite bind_ok by (eapply set_prev_ok; nlook; reflexivity).
    erewrite bind_ok by (eapply set_prev_ok; nlook; exact Hkv).
    erewrite bind_ok by (eapply set_inext_ok; nlook; reflexivity). cbn [prev next].
    rewrite iterator_ok by done. eexists. split; [reflexivity|]. split; [split|split].
    + nlook. done.
    + simpl. split; [nlook; done|done].
    + done.
    + done.
    + done.
    + intros n Hn. rewrite !not_elem_of_cons in Hn. destruct Hn as (? & ? & _). by nlook.
  - rewrite lastn_app in *. simpl lastn in *. apply dl_app in R2 as [Ra [Rl _]]. simpl in Rl.
    apply NoDup_app in R3 as (Na & Hd & _). rewrite not_elem_of_app, list_elem_of_singleton in Hs, Hvn.
    destruct Hs as [Hsa Hsl], Hvn as [Hva Hvl].
    assert (l ∉ a) as Hla by (intros Hx; apply (Hd l Hx); by left).
    erewrite bind_ok by (eapply set_inext_ok; exact Rl).
    erewrite bind_ok by (eapply set_prev_ok; nlook; exact R1).
    erewrite bind_ok by (eapply set_prev_ok; nlook; exact Hkv).
    erewrite bind_ok by (eapply set_inext_ok; nlook; reflexivity). cbn [prev next].
    rewrite iterator_ok by done. eexists. split; [reflexivity|]. split; [split|split].
    + nlook. rewrite !hdn_app, !lastn_app. done.
    + rewrite !dl_app, !hdn_app, !lastn_app. simpl. split_and!; [|by nlook|done|by nlook|done].
      apply (dl_agree (lnodes m)); [|done]. intros n Hn.
      assert (n ≠ v ∧ n ≠ s ∧ n ≠ l) as (? & ? & ?) by (split_and!; intros ->; done). by nlook.
    + done.
    + done.
    + done.
    + intros n Hn. rewrite !not_elem_of_cons, not_elem_of_app, list_elem_of_singleton in Hn.
      destruct Hn as (? & ? & ? & ?). by nlook.
Qed.

(** Linking the neighbours of [n] with each other closes the ring without it. *)
Lemma close_ring m n x L : ring (lnodes m) n (x :: L) →
  ∃ m1, (set_next (lastn x L) x ;; set_prev x (lastn x L)) m = Some (tt, m1) ∧
    ring (lnodes m1) x L ∧ nframe m m1 (x :: L).
Proof.
  intros [R1 [Rx R2] R3 R4]. apply NoDup_cons in R3 as [_ R3]. apply not_elem_of_cons in R4 as [_ R4].
  destruct L as [|l a _] using rev_ind.
  - simpl in *. erewrite bind_ok by (by eapply set_inext_ok). erewrite set_prev_ok by (nlook; reflexivity).
    eexists. split; [reflexivity|]. split; [split|split]; [by nlook|done|done|done|done|].
    intros y Hy. rewrite not_elem_of_cons in Hy. destruct Hy. by nlook.
  - rewrite lastn_app in *. simpl lastn in *. apply dl_app in R2 as [Ra [Rl _]]. simpl in Rl.
    pose proof R3 as R3'. apply NoDup_cons in R3' as [Hxa R3']. apply NoDup_app in R3' as (Na & Hd & _).
    rewrite not_elem_of_app, list_elem_of_singleton in Hxa. destruct Hxa as [Hxa Hxl].
    assert (l ∉ a) as Hla by (intros Hy; apply (Hd l Hy); by left).
    erewrite bind_ok by (eapply set_inext_ok; exact Rl). erewrite set_prev_ok by (nlook; exact Rx).
    eexists. split; [reflexivity|]. split; [split|split]; [| |done|done|done|].
    + nlook. rewrite !hdn_app, lastn_app. done.
    + apply dl_app. simpl. split_and!; [|by nlook|done].
      apply (dl_agree (lnodes m)); [|done]. intros y Hy.
      assert (y ≠ x ∧ y ≠ l) as (? & ?) by (split_and!; intros ->; done). by nlook.
    + intros y Hy. rewrite not_elem_of_cons, not_elem_of_app, list_elem_of_singleton in Hy.
      destruct Hy as (? & ? & ?). by nlook.
Qed.

Lemma ring_agree h h' s ns : (∀ n, n ∈ s :: ns → h' !! n = h !! n) → ring h s ns → ring h' s ns.
Proof.
  intros H [R1 R2 R3 R4]. split; [rewrite H by (by left); done| |done|done].
  apply (dl_agree h); [|done]. intros n Hn. apply H. by right.
Qed.

(** Taking the node [n] out of a ring leaves the ring of the others. *)
Lemma erase_ok dbug m n x L : ring (lnodes m) n (x :: L) →
  ∃ m', erase dbug n m = Some (x, m') ∧ ring (lnodes m') x L ∧ nframe m m' (n :: x :: L) ∧
    lnodes m' !! n = if dbug then Some (LNode 0 0) else lnodes m !! n.
Proof.
  intros R. destruct (close_ring m n x L R) as (m1 & E1 & Rg & F1 & F2).
  destruct R as [R1 _ R3 R4]. unfold erase. erewrite get_inode_ok by exact R1. cbn [next prev hdn lastn].
  apply NoDup_cons in R3 as [Hn _]. apply not_elem_of_cons in R4 as [_ R4].
  apply not_elem_of_cons in R4 as [Hx0 _].
  rewrite <- bind_assoc. erewrite bind_ok by exact E1. destruct dbug.
  - rewrite bind_assoc. erewrite bind_ok by (eapply set_prev_ok; rewrite F2 by done; exact R1).
    erewrite bind_ok by (eapply set_inext_ok; nlook; reflexivity). rewrite iterator_ok by done.
    eexists. split; [reflexivity|]. split_and!; [|split; [done|]|by nlook].
    + apply (ring_agree (lnodes m1)); [|done]. intros y Hy.
      assert (y ≠ n) by (by intros ->). by nlook.
    + intros y Hy. apply not_elem_of_cons in Hy as [? Hy]. nlook. by apply F2.
  - erewrite bind_ok by reflexivity. rewrite iterator_ok by done. exists m1.
    split_and!; [done|done|split; [done|]|by apply F2].
    intros y Hy. apply not_elem_of_cons in Hy as [_ Hy]. by apply F2.
Qed.

(** *** The container operations, for the sequence between the sentinels *)

Lemma insert_ok dbug m s a b v : ring (lnodes m) s (a ++ b) → v ∉ s :: a ++ b → v ≠ 0%N →
  is_Some (lnodes m !! v) →
  ∃ m', insert dbug (hdn b s) v m = Some (v, m') ∧ ring (lnodes m') s (a ++ v :: b) ∧
    nframe m m' (v :: s :: a ++ b).
Proof.
  intros R Hv H0 Hs. destruct b as [|n b]; simpl.
  - rewrite app_nil_r in *. by apply insert_end_ok.
  - apply ring_rotate in R.
    assert (n :: b ++ s :: a ≡ₚ s :: a ++ n :: b) as Hp.
    { rewrite <- !Permutation_middle, (Permutation_app_comm b a). apply Permutation_swap. }
    destruct (insert_end_ok dbug m n _ v R) as (m' & E & R' & F1 & F2); [by rewrite Hp|done|done|].
    exists m'. split; [done|]. split; [|split; [done|]].
    + rewrite <- app_assoc in R'. simpl in R'. apply ring_rotate in R'. by rewrite <- app_assoc in R'.
    + intros y Hy. apply F2. by rewrite Hp.
Qed.

Lemma erase_mid_ok dbug m s a n b : ring (lnodes m) s (a ++ n :: b) →
  ∃ m', erase dbug n m = Some (hdn b s, m') ∧ ring (lnodes m') s (a ++ b) ∧
    nframe m m' (s :: a ++ n :: b).
Proof.
  intros R. apply ring_rotate in R.
  assert (n :: b ++ s :: a ≡ₚ s :: a ++ n :: b) as Hp.
  { rewrite <- !Permutation_middle, (Permutation_app_comm b a). apply Permutation_swap. }
  destruct b as [|x b]; simpl in *.
  - destruct (erase_ok dbug m n s a R) as (m' & E & R' & [F1 F2] & _). exists m'. rewrite app_nil_r.
    split_and!; [done|done|split; [done|]]. intros y Hy. apply F2. by rewrite Hp.
  - destruct (erase_ok dbug m n x _ R) as (m' & E & R' & [F1 F2] & _). exists m'.
    split_and!; [done|by apply ring_rotate|split; [done|]]. intros y Hy. apply F2. by rewrite Hp.
Qed.

Lemma begin_ok dbug m s ns : ring (lnodes m) s ns → begin_ dbug s m = Some (hdn ns s, m).
Proof.
  intros [R1 _ _ R4]. unfold begin_. erewrite get_inode_ok by exact R1. cbn [next].
  apply iterator_ok. intros E. apply R4. destruct ns as [|n ns]; simpl in *; subst; [by left|].
  right. by left.
Qed.

Lemma forward_ok dbug m s b : ∀ a fuel, ring (lnodes m) s (a ++ b) → (length b < fuel)%nat →
  forward dbug fuel s (hdn b s) m = Some (b, m).
Proof.
  induction b as [|n b IH]; intros a [|fuel] R Hf; simpl in Hf; try lia; cbn [forward hdn].
  - by rewrite N.eqb_refl.
  - pose proof R as [_ R2 R3 R4]. apply dl_app in R2 as [_ [Rn _]].
    rewrite (proj2 (N.eqb_neq n s)).
    2: { intros ->. apply NoDup_cons in R3 as [Hs _]. apply Hs, elem_of_app. right. by left. }
    unfold incr. rewrite bind_assoc. erewrite get_inode_ok by exact Rn. cbn [next].
    erewrite bind_ok.
    2: { apply iterator_ok. intros E. apply R4. destruct b as [|x b]; simpl in *; subst; [by left|].
         right. apply elem_of_app. right. right. by left. }
    erewrite bind_ok; [reflexivity|]. apply (IH (a ++ [n])); [by rewrite <- app_assoc|lia].
Qed.

(** The node at a position, and what precedes it. *)
Lemma pos_prev h s a b : ring h s (a ++ b) → ∃ nx, h !! hdn b s = Some (LNode nx (lastn s a)).
Proof.
  intros [R1 R2 _ _]. destruct b as [|n b]; simpl.
  - rewrite app_nil_r in R1. eauto.
  - apply dl_app in R2 as [_ [Rn _]]. eauto.
Qed.

Lemma lastn_in p a : lastn p a ∈ p :: a.
Proof.
  revert p. induction a as [|n a IH]; intros p; simpl; [by left|]. right. apply IH.
Qed.

Lemma backward_ok dbug m s a : ∀ b fuel, ring (lnodes m) s (a ++ b) → (length a < fuel)%nat →
  backward dbug fuel s (hdn b s) m = Some (rev a, m).
Proof.
  induction a as [|l a IH] using rev_ind; intros b [|fuel] R Hf; try lia; cbn [backward].
  - erewrite bind_ok by (by apply (begin_ok _ _ _ _ R)). simpl. by rewrite N.eqb_refl.
  - erewrite bind_ok by (by apply (begin_ok _ _ _ _ R)). rewrite length_app in Hf. simpl in Hf.
    destruct (pos_prev _ _ _ _ R) as [nx Hnx]. rewrite <- app_assoc in R. simpl in R.
    pose proof R as [_ _ R3 R4]. rewrite (proj2 (N.eqb_neq _ _)).
    2: { rewrite <- app_assoc. intros E. apply NoDup_cons in R3 as [Hs Hd].
         apply NoDup_app in Hd as (_ & Hd & Hl). apply NoDup_cons in Hl as [Hl _].
         destruct a as [|a0 a], b as [|b0 b]; simpl in *; subst;
           [apply Hs; by left|apply Hl; by left|apply Hs; by left|].
         apply (Hd a0); [by left|right; by left]. }
    rewrite lastn_app in Hnx. simpl in Hnx. unfold decr. rewrite bind_assoc.
    erewrite get_inode_ok by exact Hnx. cbn [prev]. erewrite bind_ok.
    2: { apply iterator_ok. intros ->. apply R4. right. apply elem_of_app. right. by left. }
    rewrite rev_app_distr. simpl. erewrite bind_ok; [reflexivity|]. apply (IH (l :: b)); [done|lia].
Qed.

(** Every step from a node of a ring stays on the ring. *)
Fixpoint walk (dbug : bool) (k : nat) (n : N) : M nmem N :=
  match k with O => ret n | S k => n' <- incr dbug n ;; walk dbug k n' end.

Lemma ring_walk dbug m x L k : ring (lnodes m) x L → ∀ n, n ∈ x :: L →
  ∃ n', walk dbug k n m = Some (n', m) ∧ n' ∈ x :: L.
Proof.
  intros R. induction k as [|k IH]; intros n Hn; [by exists n|]. cbn [walk].
  assert (∃ nx p, lnodes m !! n = Some (LNode nx p) ∧ nx ∈ x :: L) as (nx & p & Hnx & Hin).
  { destruct R as [R1 R2 _ _]. apply elem_of_cons in Hn as [->|Hn].
    - exists (hdn L x), (lastn x L). split; [done|]. destruct L; simpl; [by left|]. right. by left.
    - apply list_elem_of_split in Hn as (a & b & ->). apply dl_app in R2 as [_ [Rn _]].
      exists (hdn b x), (lastn x a). split; [done|]. destruct b as [|y b]; simpl; [by left|].
      right. apply elem_of_app. right. right. by left. }
  unfold incr. rewrite bind_assoc. erewrite get_inode_ok by exact Hnx. cbn [next].
  erewrite bind_ok by (apply iterator_ok; intros ->; by apply R).
  by apply IH.
Qed.

(** ** Main results *)

(** C24: [ilist] is a sequence container: inserting before the position of [b]
    and erasing an element work anywhere, [push_back], [push_front],
    [pop_front] and [remove] at the ends and by element; the other nodes keep
    their links. *)
Theorem ilist_operations dbug m s a b v n : ring (lnodes m) s (a ++ b) →
  v ∉ s :: a ++ b → v ≠ 0%N → is_Some (lnodes m !! v) →
  (∃ m', insert dbug (hdn b s) v m = Some (v, m') ∧ ring (lnodes m') s (a ++ v :: b) ∧
     nframe m m' (v :: s :: a ++ b)) ∧
  (∃ m', push_back dbug s v m = Some (tt, m') ∧ ring (lnodes m') s ((a ++ b) ++ [v])) ∧
  (∃ m', push_front dbug s v m = Some (tt, m') ∧ ring (lnodes m') s (v :: a ++ b)) ∧
  (∀ b', b = n :: b' →
     (∃ m', erase dbug n m = Some (hdn b' s, m') ∧ ring (lnodes m') s (a ++ b') ∧
        nframe m m' (s :: a ++ b)) ∧
     (∃ m', remove dbug n m = Some (tt, m') ∧ ring (lnodes m') s (a ++ b')) ∧
     (∃ m', pop_front dbug s m = Some (tt, m') ∧ ring (lnodes m') s (tail (a ++ b)))).
Proof.
  intros R Hv H0 Hs. pose proof R as [_ _ _ R4].
  assert (s ≠ 0%N) as Hs0 by (intros ->; apply R4; by left).
  split_and!; [by apply insert_ok| | |].
  - destruct (insert_ok dbug m s (a ++ b) [] v) as (m' & E & R' & _); rewrite ?app_nil_r; [done..|].
    unfold push_back, end_. erewrite bind_ok by (by apply iterator_ok). erewrite bind_ok by exact E. by exists m'.
  - destruct (insert_ok dbug m s [] (a ++ b) v) as (m' & E & R' & _); [done..|].
    unfold push_front. erewrite bind_ok by (by apply begin_ok). erewrite bind_ok by exact E. by exists m'.
  - intros b' ->. split_and!; [by apply erase_mid_ok| |].
    + destruct (erase_mid_ok dbug m s a n b' R) as (m' & E & R' & _). unfold remove.
      erewrite bind_ok by (apply iterator_ok; intros ->; apply R4; right; apply elem_of_app; right; by left).
      erewrite bind_ok by exact E. by exists m'.
    + unfold pop_front. erewrite bind_ok by (by apply begin_ok).
      destruct a as [|y a]; simpl in *.
      * destruct (erase_mid_ok dbug m s [] n b' R) as (m' & E & R' & _).
        erewrite bind_ok by exact E. by exists m'.
      * destruct (erase_mid_ok dbug m s [] y (a ++ n :: b') R) as (m' & E & R' & _).
        erewrite bind_ok by exact E. by exists m'.
Qed.

Definition nsample : nmem :=
  NMem {[ 1%N := LNode 2 3; 2%N := LNode 3 1; 3%N := LNode 1 2; 4%N := LNode 0 0 ]} {[ 1%N := 2 ]}.

Lemma nsample_ring : ring (lnodes nsample) 1 [2; 3]%N.
Proof.
  split; [reflexivity|repeat split; reflexivity| |]; apply (bool_decide_unpack _); by vm_compute.
Qed.

Lemma ilist_operations_witness :
  ∃ m', insert true 3 4 nsample = Some (4%N, m') ∧ ring (lnodes m') 1 [2; 4; 3]%N.
Proof.
  destruct (ilist_operations true nsample 1 [2]%N [3]%N 4 3 nsample_ring) as ((m' & H1 & H2 & _) & _).
  - simpl. rewrite !elem_of_cons, elem_of_nil. lia.
  - done.
  - by exists (LNode 0 0).
  - exists m'. split; [exact H1|exact H2].
Defined.

(** the iterators run through the elements in order, and the reverse
    iterators in reverse order, in a number of steps given by the length;
    [front], [back] and [empty] answer from the sequence. *)
Theorem ilist_iteration dbug m s ns fuel : ring (lnodes m) s ns → (length ns < fuel)%nat →
  begin_ dbug s m = Some (hdn ns s, m) ∧
  forward dbug fuel s (hdn ns s) m = Some (ns, m) ∧
  backward dbug fuel s s m = Some (rev ns, m) ∧
  front dbug s m = Some (hdn ns s, m) ∧
  back dbug s m = Some (lastn s ns, m) ∧
  empty s m = Some (bool_decide (ns = []), m).
Proof.
  intros R Hf. pose proof R as [R1 _ R3 R4].
  split_and!; [by apply begin_ok|by apply (forward_ok dbug m s ns [])| |by apply begin_ok| |].
  - apply (backward_ok dbug m s ns []); [by rewrite app_nil_r|done].
  - unfold back, end_. erewrite bind_ok by (apply iterator_ok; intros ->; apply R4; by left).
    unfold decr. erewrite get_inode_ok by exact R1. apply iterator_ok. intros E. apply R4. cbn [prev] in E.
    rewrite <- E. apply lastn_in.
  - unfold empty. erewrite get_inode_ok by exact R1. unfold ret. do 2 f_equal. cbn [next].
    destruct ns as [|n ns]; [by rewrite N.eqb_refl|]. cbn [hdn]. rewrite bool_decide_false by done.
    apply N.eqb_neq. intros ->. apply NoDup_cons in R3 as [Hs _]. apply Hs. by left.
Qed.

Lemma ilist_iteration_witness :
  forward true 3 1 2 nsample = Some ([2; 3]%N, nsample) ∧ backward true 3 1 1 nsample = Some ([3; 2]%N, nsample).
Proof.
  destruct (ilist_iteration true nsample 1 [2; 3]%N 3 nsample_ring) as (_ & H1 & H2 & _); [simpl; lia|].
  split; [exact H1|exact H2].
Defined.

(** [pop_back()] erases [end()], the sentinel, instead of the last element:
    on a non-empty list all the elements stay linked in a ring of their own.
    In a release build [empty()] stays false and iterating from [begin()]
    stays on the elements for ever, so it never meets [end()]; in a debug build
    [begin()] fails its assertion. *)
Theorem ilist_pop_back_erases_sentinel m s x L : ring (lnodes m) s (x :: L) →
  (∃ m', pop_back false s m = Some (tt, m') ∧ ring (lnodes m') x L ∧
     empty s m' = Some (false, m') ∧ begin_ false s m' = Some (x, m') ∧
     ∀ k, ∃ n, walk false k x m' = Some (n, m') ∧ n ≠ s) ∧
  (∃ m', pop_back true s m = Some (tt, m') ∧ begin_ true s m' = None).
Proof.
  intros R. pose proof R as [R1 _ R3 R4]. assert (s ≠ 0%N) as Hs0 by (intros ->; apply R4; by left).
  apply NoDup_cons in R3 as [Hs R3]. apply not_elem_of_cons in R4 as [_ R4].
  unfold pop_back, end_. split.
  - destruct (erase_ok false m s x L R) as (m' & E & R' & _ & Hn). exists m'.
    erewrite bind_ok by (by apply iterator_ok). erewrite bind_ok by exact E. rewrite R1 in Hn.
    split_and!; [done|done| | |].
    + unfold empty. erewrite get_inode_ok by exact Hn. unfold ret. do 2 f_equal. cbn [next hdn].
      apply N.eqb_neq. intros ->. apply Hs. by left.
    + unfold begin_. erewrite get_inode_ok by exact Hn. apply iterator_ok. cbn [next hdn].
      intros ->. apply R4. by left.
    + intros k. destruct (ring_walk false m' x L k R' x) as (n & Ew & Hin); [by left|].
      exists n. split; [done|]. by intros ->.
  - destruct (erase_ok true m s x L R) as (m' & E & R' & _ & Hn). exists m'.
    erewrite bind_ok by (by apply iterator_ok). erewrite bind_ok by exact E.
    split; [done|]. unfold begin_. by erewrite get_inode_ok by exact Hn.
Qed.

Lemma ilist_pop_back_erases_sentinel_witness :
  ∃ m', pop_back false 1 nsample = Some (tt, m') ∧ ring (lnodes m') 2 [3]%N ∧
    ∀ k, ∃ n, walk false k 2 m' = Some (n, m') ∧ n ≠ 1%N.
Proof.
  destruct (ilist_pop_back_erases_sentinel nsample 1 2 [3]%N nsample_ring)
    as ((m' & H1 & H2 & _ & _ & H3) & _).
  exists m'. split_and!; [exact H1|exact H2|exact H3].
Defined.

(** *** [sized_ilist] *)

Record sized_rep (m : nmem) (s : N) (ns : list N) : Prop := {
  sized_ring : ring (lnodes m) s ns;
  sized_count : size_ m !! s = Some (Z.of_nat (length ns));
  sized_bound : Z.of_nat (length ns) < 2 ^ 64 }.

Lemma add_size_ok m s ns d : sized_rep m s ns → 0 ≤ Z.of_nat (length ns) + d < 2 ^ 64 →
  ∃ m', add_size s d m = Some (tt, m') ∧ lnodes m' = lnodes m ∧
    size_ m' !! s = Some (Z.of_nat (length ns) + d).
Proof.
  intros [_ Hc _] Hd. unfold add_size. erewrite bind_ok by (by apply gets_opt_ok).
  eexists. split; [reflexivity|]. split; [done|]. simpl. rewrite lookup_insert_eq.
  by rewrite (wrap_id 64).
Qed.

Lemma sized_insert_ok dbug m s a b v : sized_rep m s (a ++ b) → v ∉ s :: a ++ b → v ≠ 0%N →
  is_Some (lnodes m !! v) → Z.of_nat (length (a ++ b)) + 1 < 2 ^ 64 →
  ∃ m', sized_insert dbug s (hdn b s) v m = Some (v, m') ∧ sized_rep m' s (a ++ v :: b).
Proof.
  intros R Hv H0 Hs Hl. destruct (add_size_ok m s (a ++ b) 1 R ltac:(lia)) as (m1 & E1 & N1 & S1).
  destruct (insert_ok dbug m1 s a b v) as (m2 & E2 & R2 & F1 & _); rewrite ?N1; [apply R|done..|].
  unfold sized_insert. erewrite bind_ok by exact E1. exists m2. split; [done|].
  rewrite length_app in *. split; [done| |rewrite length_app; simpl; lia].
  rewrite F1, S1, length_app. simpl. f_equal. lia.
Qed.

Lemma sized_erase_ok dbug m s a n b : sized_rep m s (a ++ n :: b) →
  ∃ m', sized_erase dbug s n m = Some (hdn b s, m') ∧ sized_rep m' s (a ++ b).
Proof.
  intros R. pose proof (sized_bound _ _ _ R) as Hl. rewrite length_app in Hl. simpl in Hl.
  destruct (add_size_ok m s (a ++ n :: b) (-1) R) as (m1 & E1 & N1 & S1).
  { rewrite length_app. simpl. lia. }
  destruct (erase_mid_ok dbug m1 s a n b) as (m2 & E2 & R2 & F1 & _); rewrite ?N1; [apply R|].
  unfold sized_erase. erewrite bind_ok by exact E1. exists m2. split; [done|].
  rewrite length_app in S1. simpl in S1. split; [done| |rewrite length_app; lia].
  rewrite F1, S1, length_app. f_equal. lia.
Qed.

(** [sized_ilist] keeps [size()] equal to the number of elements under
    [push_back], [push_front], [pop_front], [remove] and [clear]. *)
Theorem sized_ilist_counts dbug m s a n b v : sized_rep m s (a ++ n :: b) →
  v ∉ s :: a ++ n :: b → v ≠ 0%N → is_Some (lnodes m !! v) →
  Z.of_nat (length (a ++ n :: b)) + 1 < 2 ^ 64 →
  sized_size s m = Some (Z.of_nat (length (a ++ n :: b)), m) ∧
  (∃ m', sized_push_back dbug s v m = Some (tt, m') ∧ sized_rep m' s ((a ++ n :: b) ++ [v])) ∧
  (∃ m', sized_push_front dbug s v m = Some (tt, m') ∧ sized_rep m' s (v :: a ++ n :: b)) ∧
  (∃ m', sized_remove dbug s n m = Some (tt, m') ∧ sized_rep m' s (a ++ b)) ∧
  (∃ m', sized_pop_front dbug s m = Some (tt, m') ∧ sized_rep m' s (tail (a ++ n :: b))) ∧
  (∃ m', sized_clear s m = Some (tt, m') ∧ sized_rep m' s []).
Proof.
  intros R Hv H0 Hs Hl. pose proof (sized_ring _ _ _ R) as Rg. pose proof Rg as [R1 _ _ R4].
  assert (s ≠ 0%N) as Hs0 by (intros ->; apply R4; by left). split_and!.
  - apply gets_opt_ok, R.
  - destruct (sized_insert_ok dbug m s (a ++ n :: b) [] v) as (m' & E & R'); rewrite ?app_nil_r; [done..|].
    unfold sized_push_back, end_. erewrite bind_ok by (by apply iterator_ok).
    erewrite bind_ok by exact E. by exists m'.
  - destruct (sized_insert_ok dbug m s [] (a ++ n :: b) v) as (m' & E & R'); [done..|].
    unfold sized_push_front. erewrite bind_ok by (by apply begin_ok). erewrite bind_ok by exact E. by exists m'.
  - destruct (sized_erase_ok dbug m s a n b R) as (m' & E & R'). unfold sized_remove.
    erewrite bind_ok by (apply iterator_ok; intros ->; apply R4; right; apply elem_of_app; right; by left).
    erewrite bind_ok by exact E. by exists m'.
  - unfold sized_pop_front. erewrite bind_ok by (by apply begin_ok). destruct a as [|y a]; simpl in *.
    + destruct (sized_erase_ok dbug m s [] n b R) as (m' & E & R'). erewrite bind_ok by exact E. by exists m'.
    + destruct (sized_erase_ok dbug m s [] y (a ++ n :: b) R) as (m' & E & R').
      erewrite bind_ok by exact E. by exists m'.
  - unfold sized_clear, clear. rewrite bind_assoc. erewrite bind_ok by (by eapply set_inext_ok).
    erewrite bind_ok by (eapply set_prev_ok; nlook; reflexivity). eexists. split; [reflexivity|].
    split; simpl; [split|apply lookup_insert_eq|lia].
    + by nlook.
    + done.
    + apply NoDup_singleton.
    + rewrite list_elem_of_singleton. done.
Qed.

Lemma sized_ilist_counts_witness :
  ∃ m', sized_remove true 1 2 nsample = Some (tt, m') ∧ sized_rep m' 1 [3]%N.
Proof.
  destruct (sized_ilist_counts true nsample 1 [] 2 [3]%N 4) as (_ & _ & _ & H & _).
  - split; [exact nsample_ring|reflexivity|reflexivity].
  - simpl. rewrite !elem_of_cons, elem_of_nil. lia.
  - done.
  - by exists (LNode 0 0).
  - reflexivity.
  - exact H.
Defined.
