(* ===== verification/SqlPlist.v ===== *)
(** [sql_plist.h]: [I_P_List<T, B, C, I>], the doubly linked intrusive list
    parameterised by a counting policy [C] and an insertion policy [I].  The
    policies are type classes with their laws: the list's theorems are proved
    against the laws, and the policy classes of the header
    ([I_P_List_null_counter], [I_P_List_counter], [I_P_List_no_push_back],
    [I_P_List_fast_push_back]) are instances of them. *)
From S2P Require Import Prelude CMonad.

(** A [T **]: the address of a list's [m_first] or of an element's next pointer. *)
Inductive pcell :=
| PFirst (l : N)
| PNext (n : N).

(** ** Policies *)

Class CounterPolicy (C : Type) := {
  reset : C → C;
  inc : C → C;
  dec : C → C;
  cswap : C → C → C * C }.

(** [counts c n]: the counter [c] is right for [n] elements. *)
Class CounterLaws (C : Type) `{CounterPolicy C} := {
  counts : C → nat → Prop;
  counts_reset : ∀ c, counts (reset c) 0;
  counts_inc : ∀ c n, counts c n → counts (inc c) (S n);
  counts_dec : ∀ c n, counts c (S n) → counts (dec c) n;
  counts_swap : ∀ c d, cswap c d = (d, c) }.

(** [get_last] is [None] where the policy does not have it. *)
Class InsertPolicy (I : Type) := {
  set_last : pcell → I → I;
  get_last : I → option pcell;
  iswap : I → I → I * I }.

(** [tracks i c]: as far as the policy knows, the list ends in the pointer at [c]. *)
Class InsertLaws (I : Type) `{InsertPolicy I} := {
  tracks : I → pcell → Prop;
  tracks_set : ∀ c i, tracks (set_last c i) c;
  tracks_get : ∀ i c c', tracks i c → get_last i = Some c' → c' = c }.

(** [I_P_List_null_counter]. *)
Definition null_counter : Type := unit.
#[export] Instance null_counter_policy : CounterPolicy null_counter :=
  {| reset c := c; inc c := c; dec c := c; cswap c d := (c, d) |}.
#[export] Program Instance null_counter_laws : CounterLaws null_counter :=
  {| counts _ _ := True |}.
Next Obligation. done. Qed.
Next Obligation. done. Qed.
Next Obligation. done. Qed.
Next Obligation. by intros [] []. Qed.

(** [I_P_List_counter]: [m_counter] is a [uint]. *)
Record counter := Counter { m_counter : Z }.
#[export] Instance counter_policy : CounterPolicy counter :=
  {| reset _ := Counter 0;
     inc c := Counter (to_uint32 (m_counter c + 1));
     dec c := Counter (to_uint32 (m_counter c - 1));
     cswap c d := (d, c) |}.
#[export] Program Instance counter_laws : CounterLaws counter :=
  {| counts c n := m_counter c = wrap 32 (Z.of_nat n) |}.
Next Obligation. done. Qed.
Next Obligation.
  intros [c] n E. cbn [inc counter_policy m_counter] in *. rewrite E. unfold to_uint32.
  rewrite wrap_add_l. f_equal. lia.
Qed.
Next Obligation.
  intros [c] n E. cbn [dec counter_policy m_counter] in *. rewrite E. unfold to_uint32.
  replace (wrap 32 (Z.of_nat (S n)) - 1) with (wrap 32 (Z.of_nat (S n)) + (-1)) by lia.
  rewrite wrap_add_l. f_equal. lia.
Qed.
Next Obligation. done. Qed.

(** [I_P_List_no_push_back]. *)
Definition no_push_back : Type := unit.
#[export] Instance no_push_back_policy : InsertPolicy no_push_back :=
  {| set_last _ i := i; get_last _ := None; iswap i j := (i, j) |}.
#[export] Program Instance no_push_back_laws : InsertLaws no_push_back :=
  {| tracks _ _ := True |}.
Next Obligation. done. Qed.
Next Obligation. done. Qed.

(** [I_P_List_fast_push_back]. *)
Record fast_push_back := FastPushBack { m_last : pcell }.
#[export] Instance fast_push_back_policy : InsertPolicy fast_push_back :=
  {| set_last c _ := FastPushBack c; get_last i := Some (m_last i); iswap i j := (j, i) |}.
#[export] Program Instance fast_push_back_laws : InsertLaws fast_push_back :=
  {| tracks i c := m_last i = c |}.
Next Obligation. done. Qed.
Next Obligation. intros [c] d e <- H. by injection H as <-. Qed.

(** ** The list *)
Section List.
Context {C I : Type} `{CP : CounterPolicy C} `{CL : !CounterLaws C} `{IP : InsertPolicy I} `{IL : !InsertLaws I}.

(** The two members of an element that its adapter [B] designates. *)
Record pnode := PNode { pnext : N; pprev : option pcell }.
Record plist := PList { m_first : N; count : C; ins : I }.
Record pmem := PMem { pnodes : gmap N pnode; plists : gmap N plist }.

Definition get_el (n : N) : M pmem pnode := gets_opt (λ m, pnodes m !! n).
Definition put_el (n : N) (v : pnode) : M pmem unit :=
  modify (λ m, PMem (<[n := v]> (pnodes m)) (plists m)).
Definition get_pl (l : N) : M pmem plist := gets_opt (λ m, plists m !! l).
Definition put_pl (l : N) (v : plist) : M pmem unit :=
  modify (λ m, PMem (pnodes m) (<[l := v]> (plists m))).

Definition set_pnext (n v : N) : M pmem unit := k <- get_el n ;; put_el n (PNode v (pprev k)).
Definition set_pprev (n : N) (c : option pcell) : M pmem unit :=
  k <- get_el n ;; put_el n (PNode (pnext k) c).
Definition set_m_first (l v : N) : M pmem unit := b <- get_pl l ;; put_pl l (PList v (count b) (ins b)).
Definition upd_count (l : N) (f : C → C) : M pmem unit :=
  b <- get_pl l ;; put_pl l (PList (m_first b) (f (count b)) (ins b)).
Definition upd_last (l : N) (c : pcell) : M pmem unit :=
  b <- get_pl l ;; put_pl l (PList (m_first b) (count b) (set_last c (ins b))).

Definition pload (c : pcell) : M pmem N :=
  match c with
  | PFirst l => b <- get_pl l ;; ret (m_first b)
  | PNext n => k <- get_el n ;; ret (pnext k)
  end.
Definition pstore (c : pcell) (v : N) : M pmem unit :=
  match c with PFirst l => set_m_first l v | PNext n => set_pnext n v end.

(** *** Operations *)

Definition empty (this : N) : M pmem unit :=
  set_m_first this 0 ;; upd_count this reset ;; upd_last this (PFirst this).

Definition is_empty (this : N) : M pmem bool := b <- get_pl this ;; ret (m_first b =? 0)%N.

Definition push_front (this a : N) : M pmem unit :=
  b <- get_pl this ;;
  set_pnext a (m_first b) ;;
  (if negb (m_first b =? 0)%N then set_pprev (m_first b) (Some (PNext a))
   else upd_last this (PNext a)) ;;
  set_m_first this a ;;
  set_pprev a (Some (PFirst this)) ;;
  upd_count this inc.

Definition push_back (this a : N) : M pmem unit :=
  b <- get_pl this ;;
  match get_last (ins b) with
  | None => ub
  | Some last =>
      n <- pload last ;;
      set_pnext a n ;;
      pstore last a ;;
      set_pprev a (Some last) ;;
      upd_last this (PNext a) ;;
      upd_count this inc
  end.

Definition insert_after (this pos a : N) : M pmem unit :=
  if (pos =? 0)%N then push_front this a else
  k <- get_el pos ;;
  set_pnext a (pnext k) ;;
  set_pprev a (Some (PNext pos)) ;;
  set_pnext pos a ;;
  k <- get_el a ;;
  (if negb (pnext k =? 0)%N then set_pprev (pnext k) (Some (PNext a))
   else upd_last this (PNext a)) ;;
  upd_count this inc.

(** [**B::prev_ptr(a)= next]: the element must be linked. *)
Definition remove (this a : N) : M pmem unit :=
  k <- get_el a ;;
  let next := pnext k in
  match pprev k with
  | None => ub
  | Some p =>
      (if negb (next =? 0)%N then set_pprev next (Some p) else upd_last this p) ;;
      pstore p next ;;
      upd_count this dec
  end.

Definition front (this : N) : M pmem N := b <- get_pl this ;; ret (m_first b).

Definition pop_front (this : N) : M pmem N :=
  result <- front this ;;
  (if negb (result =? 0)%N then remove this result else ret tt) ;;
  ret result.

(** [swap(rhs)]; both [set_last] calls are on this list.  The parameter of the
    C++ method has the default insertion policy, so it applies to lists with
    [I_P_List_no_push_back] only. *)
Definition swap (this rhs : N) : M pmem unit :=
  b <- get_pl this ;;
  r <- get_pl rhs ;;
  set_m_first this (m_first r) ;; set_m_first rhs (m_first b) ;;
  put_pl this (PList (m_first r) (count b) (iswap (ins b) (ins r)).1) ;;
  put_pl rhs (PList (m_first b) (count r) (iswap (ins b) (ins r)).2) ;;
  (if negb (m_first r =? 0)%N then set_pprev (m_first r) (Some (PFirst this))
   else upd_last this (PFirst this)) ;;
  (if negb (m_first b =? 0)%N then set_pprev (m_first b) (Some (PFirst rhs))
   else upd_last this (PFirst rhs)) ;;
  upd_count this (λ _, (cswap (count b) (count r)).1) ;;
  upd_count rhs (λ _, (cswap (count b) (count r)).2).

(** [it++] of [I_P_List_iterator]; the iterator is its [current]. *)
Definition iter_next (current : N) : M pmem (N * N) :=
  if negb (current =? 0)%N then k <- get_el current ;; ret (current, pnext k)
  else ret (current, current).

Fixpoint iter_all (fuel : nat) (current : N) : M pmem (list N) :=
  match fuel with
  | O => ub
  | S fuel => r <- iter_next current ;;
              if (r.1 =? 0)%N then ret [] else rest <- iter_all fuel r.2 ;; ret (r.1 :: rest)
  end.

(** *** Specification *)

Definition phd (ns : list N) (e : N) : N := match ns with [] => e | n :: _ => n end.
Fixpoint plast (c : pcell) (ns : list N) : pcell :=
  match ns with [] => c | n :: r => plast (PNext n) r end.

(** The elements [ns], the first reached through [c], the last pointing to [e]. *)
Fixpoint pseg (h : gmap N pnode) (c : pcell) (ns : list N) (e : N) : Prop :=
  match ns with
  | [] => True
  | n :: r => h !! n = Some (PNode (phd r e) (Some c)) ∧ pseg h (PNext n) r e
  end.

Record plist_rep (m : pmem) (L : N) (ns : list N) : Prop := {
  prep_list : ∃ b, plists m !! L = Some b ∧ m_first b = phd ns 0 ∧
    counts (count b) (length ns) ∧ tracks (ins b) (plast (PFirst L) ns);
  prep_seg : pseg (pnodes m) (PFirst L) ns 0;
  prep_nodup : NoDup ns;
  prep_null : 0%N ∉ ns }.

Lemma phd_app a b e : phd (a ++ b) e = phd a (phd b e).
Proof. by destruct a. Qed.
Lemma plast_app c a b : plast c (a ++ b) = plast (plast c a) b.
Proof. revert c. induction a as [|n a IH]; intros c; simpl; [done|apply IH]. Qed.
Lemma pseg_app h c a b e : pseg h c (a ++ b) e ↔ pseg h c a (phd b e) ∧ pseg h (plast c a) b e.
Proof. revert c. induction a as [|n a IH]; intros c; simpl; [tauto|]. rewrite IH, phd_app. tauto. Qed.
Lemma pseg_agree h h' c a e : (∀ n, n ∈ a → h' !! n = h !! n) → pseg h c a e → pseg h' c a e.
Proof.
  revert c. induction a as [|n a IH]; intros c; simpl; [done|]. intros Ha [E1 E2]. split.
  - rewrite Ha; [done|by left].
  - apply IH; [|done]. intros n' Hn. apply Ha. by right.
Qed.

(** *** Lemmas *)

Lemma get_pl_ok m l b {A} (f : plist → M pmem A) : plists m !! l = Some b → bind (get_pl l) f m = f b m.
Proof. intros E. apply bind_ok. by apply gets_opt_ok. Qed.
Lemma get_el_ok m n k {A} (f : pnode → M pmem A) : pnodes m !! n = Some k → bind (get_el n) f m = f k m.
Proof. intros E. apply bind_ok. by apply gets_opt_ok. Qed.

Definition upd_el (n : N) (k : pnode) (m : pmem) : pmem := PMem (<[n := k]> (pnodes m)) (plists m).
Definition upd_pl (l : N) (b : plist) (m : pmem) : pmem := PMem (pnodes m) (<[l := b]> (plists m)).

Lemma set_pnext_ok m n k v : pnodes m !! n = Some k →
  set_pnext n v m = Some (tt, upd_el n (PNode v (pprev k)) m).
Proof. intros E. unfold set_pnext. by rewrite (get_el_ok _ _ _ _ E). Qed.
Lemma set_pprev_ok m n k v : pnodes m !! n = Some k →
  set_pprev n v m = Some (tt, upd_el n (PNode (pnext k) v) m).
Proof. intros E. unfold set_pprev. by rewrite (get_el_ok _ _ _ _ E). Qed.
Lemma set_m_first_ok m l b v : plists m !! l = Some b →
  set_m_first l v m = Some (tt, upd_pl l (PList v (count b) (ins b)) m).
Proof. intros E. unfold set_m_first. by rewrite (get_pl_ok _ _ _ _ E). Qed.
Lemma upd_count_ok m l b f : plists m !! l = Some b →
  upd_count l f m = Some (tt, upd_pl l (PList (m_first b) (f (count b)) (ins b)) m).
Proof. intros E. unfold upd_count. by rewrite (get_pl_ok _ _ _ _ E). Qed.
Lemma upd_last_ok m l b c : plists m !! l = Some b →
  upd_last l c m = Some (tt, upd_pl l (PList (m_first b) (count b) (set_last c (ins b))) m).
Proof. intros E. unfold upd_last. by rewrite (get_pl_ok _ _ _ _ E). Qed.

Lemma plast_nonempty c c' b : b ≠ [] → plast c b = plast c' b.
Proof. by destruct b. Qed.

(** Writing the pointer after the elements [a]. *)
Lemma pstore_last m L a e v b : plists m !! L = Some b → m_first b = phd a e →
  pseg (pnodes m) (PFirst L) a e → NoDup a →
  ∃ m', pstore (plast (PFirst L) a) v m = Some (tt, m') ∧
    plists m' !! L = Some (PList (phd a v) (count b) (ins b)) ∧
    pseg (pnodes m') (PFirst L) a v ∧
    (∀ n, n ∉ a → pnodes m' !! n = pnodes m !! n) ∧ (∀ J, J ≠ L → plists m' !! J = plists m !! J).
Proof.
  intros Hb Hf Hs Hnd. destruct a as [|n a _] using rev_ind.
  - eexists. split; [by eapply set_m_first_ok|]. simpl.
    split_and!; [apply lookup_insert_eq|done|done|]. intros J HJ. by apply lookup_insert_ne.
  - rewrite plast_app. cbn [plast pstore]. apply pseg_app in Hs as [Ha [Hn _]]. simpl in *.
    apply NoDup_app in Hnd as (_ & Hd & _).
    assert (n ∉ a) as Hna by (intros Hx; apply (Hd n Hx); by left).
    eexists. split; [by eapply set_pnext_ok|]. simpl. split_and!.
    + rewrite Hb. destruct b as [f c i]. simpl in *. do 2 f_equal. rewrite Hf. by destruct a.
    + apply pseg_app. split; [|split; [apply lookup_insert_eq|done]]. simpl.
      apply (pseg_agree (pnodes m)); [|done]. intros n' Hn'. apply lookup_insert_ne. by intros ->.
    + intros n' Hn'. apply lookup_insert_ne. intros ->. apply Hn', elem_of_app. right. by left.
    + done.
Qed.

(** Redirecting what follows: the previous pointer of the head of [b], or the
    policy's end pointer when nothing follows. *)
Lemma fix_prev_ok m L c c' b l : pseg (pnodes m) c b 0 → NoDup b → 0%N ∉ b →
  plists m !! L = Some l → tracks (ins l) (plast c b) →
  ∃ m' i, (if negb (phd b 0 =? 0)%N then set_pprev (phd b 0) (Some c') else upd_last L c') m
      = Some (tt, m') ∧ pseg (pnodes m') c' b 0 ∧
    plists m' !! L = Some (PList (m_first l) (count l) i) ∧ tracks i (plast c' b) ∧
    (∀ n, n ∉ b → pnodes m' !! n = pnodes m !! n) ∧ (∀ J, J ≠ L → plists m' !! J = plists m !! J).
Proof.
  intros Hs Hnd H0 Hl Ht. destruct b as [|n b]; simpl.
  - eexists _, _. split; [by eapply upd_last_ok|]. simpl.
    split_and!; [done|apply lookup_insert_eq|apply tracks_set|done|].
    intros J HJ. by apply lookup_insert_ne.
  - destruct Hs as [Hn Hs]. apply not_elem_of_cons in H0 as [Hn0 _]. apply NoDup_cons in Hnd as [Hnb _].
    rewrite (proj2 (N.eqb_neq n 0)) by done. cbn [negb]. eexists _, (ins l).
    split; [by eapply set_pprev_ok|]. simpl. split_and!; [apply lookup_insert_eq| | |done| |done].
    + apply (pseg_agree (pnodes m)); [|done]. intros n' Hn'. apply lookup_insert_ne. by intros ->.
    + rewrite Hl. by destruct l.
    + intros n' Hn'. apply lookup_insert_ne. intros ->. apply Hn'. by left.
Qed.

(** Elements outside [ns] and the other lists are untouched. *)
Definition pframe (m m' : pmem) (L : N) (ns : list N) : Prop :=
  (∀ J, J ≠ L → plists m' !! J = plists m !! J) ∧ ∀ n, n ∉ ns → pnodes m' !! n = pnodes m !! n.

Lemma plist_push_front_ok m L ns a : plist_rep m L ns → a ∉ ns → a ≠ 0%N → is_Some (pnodes m !! a) →
  ∃ m', push_front L a m = Some (tt, m') ∧ plist_rep m' L (a :: ns) ∧ pframe m m' L (a :: ns).
Proof.
  intros [(b & Hb & Hf & Hc & Ht) R2 R3 R4] Ha H0 [k Hk]. unfold push_front.
  rewrite (get_pl_ok _ _ _ _ Hb). rewrite Hf. erewrite bind_ok by (by eapply set_pnext_ok).
  set (m1 := upd_el _ _ m).
  destruct (fix_prev_ok m1 L (PFirst L) (PNext a) ns b) as (m2 & i & E2 & S2 & L2 & T2 & N2 & O2);
    [|done|done|done|done|].
  { apply (pseg_agree (pnodes m)); [|done]. intros n Hn. apply lookup_insert_ne. by intros ->. }
  erewrite bind_ok by exact E2. erewrite bind_ok by (by eapply set_m_first_ok).
  erewrite bind_ok by (eapply set_pprev_ok; simpl; rewrite N2 by done; apply lookup_insert_eq).
  erewrite upd_count_ok by apply lookup_insert_eq. eexists. split; [reflexivity|]. split; [split|split]; simpl.
  - eexists. split; [apply lookup_insert_eq|]. simpl. split_and!; [done|by apply counts_inc|done].
  - split; [apply lookup_insert_eq|]. apply (pseg_agree (pnodes m2)); [|done].
    intros n Hn. apply lookup_insert_ne. by intros ->.
  - by apply NoDup_cons.
  - rewrite not_elem_of_cons. done.
  - intros J HJ. rewrite !lookup_insert_ne by done. by apply O2.
  - intros n Hn. apply not_elem_of_cons in Hn as [Hn1 Hn2]. rewrite lookup_insert_ne, N2 by done.
    by apply lookup_insert_ne.
Qed.

Lemma plist_push_back_ok m L ns a b c : plist_rep m L ns → plists m !! L = Some b → get_last (ins b) = Some c →
  a ∉ ns → a ≠ 0%N → is_Some (pnodes m !! a) →
  ∃ m', push_back L a m = Some (tt, m') ∧ plist_rep m' L (ns ++ [a]) ∧ pframe m m' L (a :: ns).
Proof.
  intros [(b' & Hb & Hf & Hc & Ht) R2 R3 R4] Hb' Hg Ha H0 [k Hk]. rewrite Hb in Hb'. injection Hb' as ->.
  unfold push_back. rewrite (get_pl_ok _ _ _ _ Hb), Hg. rewrite (tracks_get _ _ _ Ht Hg).
  assert (pload (plast (PFirst L) ns) m = Some (0%N, m)) as El.
  { destruct ns as [|n ns _] using rev_ind; simpl.
    - by rewrite (get_pl_ok _ _ _ _ Hb), Hf.
    - rewrite plast_app. cbn [plast pload]. apply pseg_app in R2 as [_ [Rn _]].
      by rewrite (get_el_ok _ _ _ _ Rn). }
  erewrite bind_ok by exact El. erewrite bind_ok by (by eapply set_pnext_ok). set (m1 := upd_el _ _ m).
  destruct (pstore_last m1 L ns 0 a b) as (m2 & E2 & L2 & S2 & N2 & O2); [done|done| |done|].
  { apply (pseg_agree (pnodes m)); [|done]. intros n Hn. apply lookup_insert_ne. by intros ->. }
  erewrite bind_ok by exact E2.
  erewrite bind_ok by (eapply set_pprev_ok; rewrite N2 by done; apply lookup_insert_eq).
  erewrite bind_ok by (eapply upd_last_ok; exact L2). erewrite upd_count_ok by apply lookup_insert_eq.
  eexists. split; [reflexivity|]. split; [split|split]; simpl.
  - eexists. split; [apply lookup_insert_eq|]. simpl. rewrite phd_app, plast_app, length_app. simpl.
    rewrite Nat.add_1_r. split_and!; [done|by apply counts_inc|apply tracks_set].
  - apply pseg_app. simpl. split; [|split; [apply lookup_insert_eq|done]].
    apply (pseg_agree (pnodes m2)); [|done]. intros n Hn. apply lookup_insert_ne. by intros ->.
  - apply NoDup_app. split_and!; [done| |apply NoDup_singleton]. intros n Hn.
    rewrite list_elem_of_singleton. by intros ->.
  - rewrite not_elem_of_app, list_elem_of_singleton. done.
  - intros J HJ. rewrite !lookup_insert_ne by done. by apply O2.
  - intros n Hn. apply not_elem_of_cons in Hn as [Hn1 Hn2]. rewrite lookup_insert_ne, N2 by done.
    by apply lookup_insert_ne.
Qed.

Lemma pos_split (a b : list N) n : NoDup (a ++ n :: b) → 0%N ∉ a ++ n :: b →
  NoDup a ∧ n ∉ a ∧ NoDup b ∧ n ∉ b ∧ (∀ z, z ∈ a → z ∉ b) ∧ NoDup (a ++ b) ∧
  n ≠ 0%N ∧ 0%N ∉ b ∧ 0%N ∉ a ++ b.
Proof.
  intros Hd H0. apply NoDup_app in Hd as (Na & Hd & Hn). apply NoDup_cons in Hn as [Hnb Nb].
  rewrite not_elem_of_app, not_elem_of_cons in H0. destruct H0 as (H0a & H0n & H0b).
  assert (∀ z, z ∈ a → z ∉ b) as Hab by (intros z Hz Hz'; apply (Hd z Hz); by right).
  split_and!; try done.
  - intros Hx. apply (Hd n Hx). by left.
  - by apply NoDup_app.
  - by rewrite not_elem_of_app.
Qed.

Lemma plist_remove_ok m L a n b : plist_rep m L (a ++ n :: b) →
  ∃ m', remove L n m = Some (tt, m') ∧ plist_rep m' L (a ++ b) ∧ pframe m m' L (a ++ b) .
Proof.
  intros [(l & Hl & Hf & Hc & Ht) R2 R3 R4]. apply pseg_app in R2 as [Sa [Sn Sb]]. simpl in *.
  destruct (pos_split a b n R3 R4) as (Na & Hna & Nb & Hnb & Hab & Nab & Hn0 & H0b & H0ab).
  rewrite phd_app, plast_app, length_app in *. simpl in *. unfold remove.
  erewrite get_el_ok by exact Sn. cbn [pnext pprev].
  destruct (fix_prev_ok m L (PNext n) (plast (PFirst L) a) b l Sb Nb H0b Hl Ht)
    as (m1 & i & E1 & S1 & L1 & T1 & N1 & O1).
  erewrite bind_ok by exact E1.
  destruct (pstore_last m1 L a n (phd b 0) _ L1 Hf) as (m2 & E2 & L2 & S2 & N2 & O2); [|done|].
  { apply (pseg_agree (pnodes m)); [|done]. intros z Hz. apply N1. by apply Hab. }
  erewrite bind_ok by exact E2. erewrite upd_count_ok by exact L2.
  eexists. split; [reflexivity|]. split; [split|split]; simpl.
  - eexists. split; [apply lookup_insert_eq|]. simpl. rewrite phd_app, plast_app, length_app.
    split_and!; [done| |done]. apply counts_dec. by rewrite Nat.add_succ_r in Hc.
  - apply pseg_app. split; [done|]. apply (pseg_agree (pnodes m1)); [|done].
    intros z Hz. apply N2. intros Hz'. by apply (Hab z).
  - done.
  - done.
  - intros J HJ. rewrite lookup_insert_ne, O2 by done. by apply O1.
  - intros z Hz. rewrite not_elem_of_app in Hz. destruct Hz. by rewrite N2, N1.
Qed.

Lemma insert_after_ok m L a n b x : plist_rep m L (a ++ n :: b) → x ∉ a ++ n :: b → x ≠ 0%N →
  is_Some (pnodes m !! x) →
  ∃ m', insert_after L n x m = Some (tt, m') ∧ plist_rep m' L (a ++ n :: x :: b) ∧
    pframe m m' L (x :: n :: b).
Proof.
  intros [(l & Hl & Hf & Hc & Ht) R2 R3 R4] Hx Hx0 [k Hk]. apply pseg_app in R2 as [Sa [Sn Sb]]. simpl in *.
  destruct (pos_split a b n R3 R4) as (Na & Hna & Nb & Hnb & Hab & Nab & Hn0 & H0b & H0ab).
  rewrite not_elem_of_app, not_elem_of_cons in Hx. destruct Hx as (Hxa & Hxn & Hxb).
  rewrite phd_app, plast_app, length_app in *. simpl in *. unfold insert_after.
  rewrite (proj2 (N.eqb_neq n 0)) by done. erewrite get_el_ok by exact Sn. cbn [pnext].
  erewrite bind_ok by (by eapply set_pnext_ok).
  erewrite bind_ok by (eapply set_pprev_ok; apply lookup_insert_eq). cbn [pnext pprev].
  erewrite bind_ok by (eapply set_pnext_ok; simpl; rewrite !lookup_insert_ne by done; exact Sn).
  erewrite get_el_ok by (simpl; rewrite lookup_insert_ne by done; apply lookup_insert_eq). cbn [pnext pprev].
  set (m1 := upd_el n _ _).
  assert (∀ z, z ≠ n → z ≠ x → pnodes m1 !! z = pnodes m !! z) as Hag
    by (intros; simpl; by rewrite !lookup_insert_ne by done).
  destruct (fix_prev_ok m1 L (PNext n) (PNext x) b l) as (m2 & i & E2 & S2 & L2 & T2 & N2 & O2);
    [|done|done|done|done|].
  { apply (pseg_agree (pnodes m)); [|done]. intros z Hz. apply Hag; by intros ->. }
  erewrite bind_ok by exact E2. erewrite upd_count_ok by exact L2.
  assert (∀ z, z ∈ a → pnodes m2 !! z = pnodes m !! z) as Ha2.
  { intros z Hz. rewrite N2 by (by apply Hab). apply Hag; by intros ->. }
  eexists. split; [reflexivity|]. split; [split|split]; simpl.
  - eexists. split; [apply lookup_insert_eq|]. simpl. rewrite phd_app, plast_app, length_app. simpl.
    split_and!; [done| |done]. rewrite !Nat.add_succ_r in *. by apply counts_inc.
  - apply pseg_app. simpl. split_and!; [by apply (pseg_agree (pnodes m))| | |done].
    + rewrite N2 by done. simpl. apply lookup_insert_eq.
    + rewrite N2 by done. simpl. rewrite lookup_insert_ne by done. apply lookup_insert_eq.
  - apply NoDup_app in R3 as (_ & Hd & Hnd). apply NoDup_cons in Hnd as [_ _].
    apply NoDup_app. split_and!; [done| |].
    + intros z Hz. specialize (Hd z Hz). rewrite !not_elem_of_cons in *. destruct Hd.
      split_and!; [done| |done]. by intros ->.
    + rewrite !NoDup_cons, not_elem_of_cons. done.
  - rewrite not_elem_of_app, !not_elem_of_cons in *. destruct R4 as (? & ? & ?). done.
  - intros J HJ. rewrite lookup_insert_ne by done. by apply O2.
  - intros z Hz. rewrite !not_elem_of_cons in Hz. destruct Hz as (? & ? & ?). rewrite N2 by done. by apply Hag.
Qed.

Lemma iter_all_ok m b : ∀ c fuel, pseg (pnodes m) c b 0 → 0%N ∉ b → (length b < fuel)%nat →
  iter_all fuel (phd b 0) m = Some (b, m).
Proof.
  induction b as [|n b IH]; intros c [|fuel] Hs H0 Hf; simpl in Hf; try lia; [done|].
  destruct Hs as [Hn Hs]. apply not_elem_of_cons in H0 as [Hn0 H0]. cbn [iter_all phd]. unfold iter_next.
  rewrite (proj2 (N.eqb_neq n 0)) by done. cbn [negb]. rewrite bind_assoc.
  erewrite get_el_ok by exact Hn. erewrite bind_ok by reflexivity. cbn [fst snd pnext].
  rewrite (proj2 (N.eqb_neq n 0)) by done. erewrite bind_ok; [reflexivity|]. by eapply IH; [..|lia].
Qed.

(** ** Main results *)

(** [I_P_List] with any policies that keep their laws is a sequence:
    [push_front], [insert_after], [remove] (of any element, in constant time)
    and [pop_front] change it as a sequence, the counter always agrees with
    its length, the end pointer with its end, and the elements and lists not
    involved are untouched; the iterator visits the elements in order. *)
Theorem plist_operations m L a n b x fuel : plist_rep m L (a ++ n :: b) →
  x ∉ a ++ n :: b → x ≠ 0%N → is_Some (pnodes m !! x) → (length (a ++ n :: b) < fuel)%nat →
  (∃ m', push_front L x m = Some (tt, m') ∧ plist_rep m' L (x :: a ++ n :: b)) ∧
  (∃ m', insert_after L n x m = Some (tt, m') ∧ plist_rep m' L (a ++ n :: x :: b) ∧
     pframe m m' L (x :: n :: b)) ∧
  (∃ m', remove L n m = Some (tt, m') ∧ plist_rep m' L (a ++ b) ∧ pframe m m' L (a ++ b)) ∧
  (∃ m', pop_front L m = Some (phd a n, m') ∧ plist_rep m' L (tail (a ++ n :: b))) ∧
  iter_all fuel (phd a n) m = Some (a ++ n :: b, m).
Proof.
  intros R Hx Hx0 Hs Hf. split_and!; [|by apply insert_after_ok|by apply plist_remove_ok| |].
  - destruct (plist_push_front_ok m L (a ++ n :: b) x) as (m' & ? & ? & _); eauto.
  - pose proof R as [(l & Hl & Hf' & _) _ _ R4]. unfold pop_front, front. rewrite bind_assoc.
    rewrite (get_pl_ok _ _ _ _ Hl). erewrite bind_ok by reflexivity. rewrite Hf', phd_app. simpl phd at 1.
    assert (phd a n ≠ 0%N).
    { intros E. apply R4. rewrite <- E. destruct a as [|y a]; by left. }
    rewrite (proj2 (N.eqb_neq (phd a n) 0)) by done. cbn [negb].
    destruct a as [|y a]; simpl in *.
    + destruct (plist_remove_ok m L [] n b R) as (m' & E & R' & _). erewrite bind_ok by exact E. by exists m'.
    + destruct (plist_remove_ok m L [] y (a ++ n :: b) R) as (m' & E & R' & _).
      erewrite bind_ok by exact E. by exists m'.
  - replace (phd a n) with (phd (a ++ n :: b) 0) by apply phd_app.
    apply (iter_all_ok m _ (PFirst L)); [apply R|apply R|done].
Qed.
End List.

(** *** Instances: a counted list with fast [push_back] *)

Definition psample : pmem (C := counter) (I := fast_push_back) :=
  PMem {[ 2%N := PNode 3 (Some (PFirst 10)); 3%N := PNode 0 (Some (PNext 2)); 4%N := PNode 0 None ]}
       {[ 10%N := PList 2 (Counter 2) (FastPushBack (PNext 3)) ]}.

Lemma psample_rep : plist_rep psample 10 [2; 3]%N.
Proof.
  split; [|repeat split; reflexivity| |]; [|apply (bool_decide_unpack _); by vm_compute..].
  eexists. split; [reflexivity|]. split_and!; reflexivity.
Qed.

Lemma plist_operations_witness :
  ∃ m', remove 10 3 psample = Some (tt, m') ∧ plist_rep m' 10 [2]%N.
Proof.
  destruct (plist_operations psample 10 [2]%N 3 [] 4 3 psample_rep) as (_ & _ & (m' & H1 & H2 & _) & _).
  - simpl. rewrite !elem_of_cons, elem_of_nil. lia.
  - done.
  - by exists (PNode 0 None).
  - simpl. lia.
  - exists m'. split; [exact H1|exact H2].
Defined.

(** with the fast insertion policy, [push_back] adds at the end in constant
    time, on the empty list as well as on a list that elements were removed
    from; with the counting policy [elements()] is the length modulo 2^32. *)
Theorem plist_fast_push_back (m : pmem (C := counter) (I := fast_push_back)) L ns x :
  plist_rep m L ns → x ∉ ns → x ≠ 0%N → is_Some (pnodes m !! x) →
  ∃ m' l, push_back L x m = Some (tt, m') ∧ plist_rep m' L (ns ++ [x]) ∧
    plists m' !! L = Some l ∧ m_counter (count l) = wrap 32 (Z.of_nat (length ns) + 1) ∧
    m_last (ins l) = PNext x.
Proof.
  intros R Hx Hx0 Hs. pose proof R as [(b & Hb & _) _ _ _].
  destruct (plist_push_back_ok m L ns x b (m_last (ins b)) R Hb eq_refl Hx Hx0 Hs) as (m' & E & R' & _).
  pose proof R' as [(l & Hl & _ & Hc & Ht) _ _ _]. exists m', l. split_and!; [done..| |].
  - simpl in Hc. rewrite Hc, length_app. f_equal. simpl. lia.
  - simpl in Ht. by rewrite plast_app in Ht.
Qed.

Lemma plist_fast_push_back_witness :
  ∃ m' l, push_back 10 4 psample = Some (tt, m') ∧ plist_rep m' 10 [2; 3; 4]%N ∧
    plists m' !! 10%N = Some l ∧ m_counter (count l) = 3.
Proof.
  destruct (plist_fast_push_back psample 10 [2; 3]%N 4 psample_rep) as (m' & l & H1 & H2 & H3 & H4 & _).
  - rewrite !elem_of_cons, elem_of_nil. lia.
  - done.
  - by exists (PNode 0 None).
  - exists m', l. split_and!; [exact H1|exact H2|exact H3|]. rewrite H4. reflexivity.
Defined.

(** *** [swap] *)
Section Swap.
Context {C : Type} `{CP : CounterPolicy C} `{CL : !CounterLaws C}.
Implicit Types m : pmem (C := C) (I := no_push_back).

Lemma swap_fix m L c ns l : plists m !! L = Some l → pseg (pnodes m) c ns 0 → NoDup ns → 0%N ∉ ns → ∀ c' K k,
  plists m !! K = Some k →
  ∃ m', (if negb (phd ns 0 =? 0)%N then set_pprev (phd ns 0) (Some c') else upd_last K c') m
      = Some (tt, m') ∧ pseg (pnodes m') c' ns 0 ∧ plists m' !! L = plists m !! L ∧
    (∀ J, plists m' !! J = plists m !! J) ∧ (∀ n, n ∉ ns → pnodes m' !! n = pnodes m !! n).
Proof.
  intros Hl Hs Hd H0 c' K k Hk.
  destruct (fix_prev_ok m K c c' ns k Hs Hd H0 Hk) as (m' & i & E & S' & L' & _ & N' & O'); [done|].
  exists m'. assert (∀ J, plists m' !! J = plists m !! J) as HJ.
  { intros J. destruct (decide (J = K)) as [->|]; [|by apply O']. rewrite L', Hk. destruct k as [f ct []], i. done. }
  split_and!; [done|done|apply HJ|done|done].
Qed.

(** [swap] exchanges the elements, the counts and the back pointers of the
    first elements of two lists. *)
Theorem plist_swap m L K a b : plist_rep m L a → plist_rep m K b → L ≠ K → (∀ n, n ∈ a → n ∉ b) →
  ∃ m', swap L K m = Some (tt, m') ∧ plist_rep m' L b ∧ plist_rep m' K a.
Proof.
  intros [(l & Hl & Fl & Cl & _) A2 A3 A4] [(k & Hk & Fk & Ck & _) B2 B3 B4] HLK Hd.
  unfold swap. rewrite (get_pl_ok _ _ _ _ Hl), (get_pl_ok _ _ _ _ Hk). rewrite Fl, Fk.
  erewrite bind_ok by (by eapply set_m_first_ok).
  erewrite bind_ok by (eapply set_m_first_ok; simpl; by rewrite lookup_insert_ne).
  do 2 (erewrite bind_ok by reflexivity). set (m1 := PMem _ _).
  assert (plists m1 !! L = Some (PList (phd b 0) (count l) (iswap (ins l) (ins k)).1)) as L1
    by (simpl; by rewrite lookup_insert_ne, lookup_insert_eq).
  assert (plists m1 !! K = Some (PList (phd a 0) (count k) (iswap (ins l) (ins k)).2)) as K1
    by (simpl; apply lookup_insert_eq).
  destruct (swap_fix m1 L (PFirst K) b _ L1 B2 B3 B4 (PFirst L) L _ L1) as (m2 & E2 & S2 & _ & J2 & N2).
  erewrite bind_ok by exact E2. rewrite <- J2 in L1, K1.
  destruct (swap_fix m2 L (PFirst L) a _ L1) with (c' := PFirst K) (K := L)
    (k := PList (phd b 0) (count l) (iswap (ins l) (ins k)).1) as (m3 & E3 & S3 & _ & J3 & N3);
    [|done|done|done|].
  { apply (pseg_agree (pnodes m)); [|done]. intros n Hn. rewrite N2; [done|by apply Hd]. }
  erewrite bind_ok by exact E3. rewrite <- J3 in L1, K1.
  erewrite bind_ok by (by eapply upd_count_ok).
  erewrite upd_count_ok by (simpl; rewrite lookup_insert_ne by done; exact K1).
  rewrite counts_swap. cbn [fst snd].
  eexists. split; [reflexivity|]. split; split; simpl; try done.
  - eexists. split; [by rewrite lookup_insert_ne, lookup_insert_eq|]. done.
  - apply (pseg_agree (pnodes m2)); [|done]. intros n Hn. apply N3. intros Hn'. by apply (Hd n).
  - eexists. split; [apply lookup_insert_eq|]. done.
Qed.
End Swap.

Definition psample2 : pmem (C := counter) (I := no_push_back) :=
  PMem {[ 2%N := PNode 3 (Some (PFirst 10)); 3%N := PNode 0 (Some (PNext 2)) ]}
       {[ 10%N := PList 2 (Counter 2) tt; 11%N := PList 0 (Counter 0) tt ]}.

Lemma plist_swap_witness :
  ∃ m', swap 10 11 psample2 = Some (tt, m') ∧ plist_rep m' 10 [] ∧ plist_rep m' 11 [2; 3]%N.
Proof.
  apply (plist_swap psample2 10 11 [2; 3]%N []).
  - split; [|repeat split; reflexivity| |]; [|apply (bool_decide_unpack _); by vm_compute..].
    eexists. split; [reflexivity|]. by split_and!.
  - split; [|done|apply NoDup_nil_2|apply not_elem_of_nil].
    eexists. split; [reflexivity|]. by split_and!.
  - done.
  - intros n _. apply not_elem_of_nil.
Defined.
