(* ===== verification/Privilege.v ===== *)
(** [privilege.h]: the privilege bits of the server, the groups of privileges
    that make sense at each level (column, table, database, routine, global),
    the privileges the statements and variables ask for, and the functions
    that pack the privileges of a level into contiguous bits for storage in
    the grant tables and unpack them again.  The packing functions are shown
    to be inverse to each other on the privileges of their level. *)
From S2P Require Import Prelude MyBit.

Declare Scope priv_scope.
Delimit Scope priv_scope with priv.

(** ** [enum privilege_t: unsigned long long] *)

Definition NO_ACL : Z := 0.
Definition SELECT_ACL : Z := Z.shiftl 1 0.
Definition INSERT_ACL : Z := Z.shiftl 1 1.
Definition UPDATE_ACL : Z := Z.shiftl 1 2.
Definition DELETE_ACL : Z := Z.shiftl 1 3.
Definition CREATE_ACL : Z := Z.shiftl 1 4.
Definition DROP_ACL : Z := Z.shiftl 1 5.
Definition RELOAD_ACL : Z := Z.shiftl 1 6.
Definition SHUTDOWN_ACL : Z := Z.shiftl 1 7.
Definition PROCESS_ACL : Z := Z.shiftl 1 8.
Definition FILE_ACL : Z := Z.shiftl 1 9.
Definition GRANT_ACL : Z := Z.shiftl 1 10.
Definition REFERENCES_ACL : Z := Z.shiftl 1 11.
Definition INDEX_ACL : Z := Z.shiftl 1 12.
Definition ALTER_ACL : Z := Z.shiftl 1 13.
Definition SHOW_DB_ACL : Z := Z.shiftl 1 14.
Definition SUPER_ACL : Z := Z.shiftl 1 15.
Definition CREATE_TMP_ACL : Z := Z.shiftl 1 16.
Definition LOCK_TABLES_ACL : Z := Z.shiftl 1 17.
Definition EXECUTE_ACL : Z := Z.shiftl 1 18.
Definition REPL_SLAVE_ACL : Z := Z.shiftl 1 19.
Definition BINLOG_MONITOR_ACL : Z := Z.shiftl 1 20.
Definition CREATE_VIEW_ACL : Z := Z.shiftl 1 21.
Definition SHOW_VIEW_ACL : Z := Z.shiftl 1 22.
Definition CREATE_PROC_ACL : Z := Z.shiftl 1 23.
Definition ALTER_PROC_ACL : Z := Z.shiftl 1 24.
Definition CREATE_USER_ACL : Z := Z.shiftl 1 25.
Definition EVENT_ACL : Z := Z.shiftl 1 26.
Definition TRIGGER_ACL : Z := Z.shiftl 1 27.
Definition CREATE_TABLESPACE_ACL : Z := Z.shiftl 1 28.
Definition DELETE_HISTORY_ACL : Z := Z.shiftl 1 29.
Definition SET_USER_ACL : Z := Z.shiftl 1 30.
Definition FEDERATED_ADMIN_ACL : Z := Z.shiftl 1 31.
Definition CONNECTION_ADMIN_ACL : Z := Z.shiftl 1 32.
Definition READ_ONLY_ADMIN_ACL : Z := Z.shiftl 1 33.
Definition REPL_SLAVE_ADMIN_ACL : Z := Z.shiftl 1 34.
Definition REPL_MASTER_ADMIN_ACL : Z := Z.shiftl 1 35.
Definition BINLOG_ADMIN_ACL : Z := Z.shiftl 1 36.
Definition BINLOG_REPLAY_ACL : Z := Z.shiftl 1 37.
Definition SLAVE_MONITOR_ACL : Z := Z.shiftl 1 38.

(** ** Operators *)

Definition op_not (access : Z) : Z := unot 64 access.
Definition op_and (a b : Z) : Z := Z.land a b.
Definition op_or (a b : Z) : Z := Z.lor a b.

Infix "|||" := op_or (at level 50, left associativity) : priv_scope.
Infix "&&&" := op_and : priv_scope.
#[local] Open Scope priv_scope.

(** [x | (x-1)]. *)
Definition ALL_KNOWN_BITS (x : Z) : Z := Z.lor x (to_ulonglong (x - 1)).

(** ** Version markers *)

Definition LAST_100304_ACL : Z := DELETE_HISTORY_ACL.
Definition LAST_100502_ACL : Z := BINLOG_REPLAY_ACL.
Definition LAST_100508_ACL : Z := SLAVE_MONITOR_ACL.
Definition LAST_CURRENT_ACL : Z := LAST_100508_ACL.
Definition PRIVILEGE_T_MAX_BIT : Z := my_bit_log2_uint64 LAST_CURRENT_ACL.
Definition ALL_KNOWN_ACL_100304 : Z := ALL_KNOWN_BITS LAST_100304_ACL.
Definition ALL_KNOWN_ACL_100502 : Z := ALL_KNOWN_BITS LAST_100502_ACL.
Definition ALL_KNOWN_ACL_100508 : Z := ALL_KNOWN_BITS LAST_100508_ACL.
Definition ALL_KNOWN_ACL_100509 : Z := ALL_KNOWN_ACL_100508.
Definition ALL_KNOWN_ACL : Z := ALL_KNOWN_BITS LAST_CURRENT_ACL.

(** ** Groups of privileges *)

Definition GLOBAL_SUPER_ADDED_SINCE_USER_TABLE_ACLS : Z :=
  SET_USER_ACL ||| FEDERATED_ADMIN_ACL ||| CONNECTION_ADMIN_ACL ||| READ_ONLY_ADMIN_ACL |||
  REPL_SLAVE_ADMIN_ACL ||| BINLOG_ADMIN_ACL ||| BINLOG_REPLAY_ACL.
Definition COL_DML_ACLS : Z := SELECT_ACL ||| INSERT_ACL ||| UPDATE_ACL ||| DELETE_ACL.
Definition VIEW_ACLS : Z := CREATE_VIEW_ACL ||| SHOW_VIEW_ACL.
Definition STD_TABLE_DDL_ACLS : Z := CREATE_ACL ||| DROP_ACL ||| ALTER_ACL.
Definition ALL_TABLE_DDL_ACLS : Z := STD_TABLE_DDL_ACLS ||| INDEX_ACL.
Definition COL_ACLS : Z := SELECT_ACL ||| INSERT_ACL ||| UPDATE_ACL ||| REFERENCES_ACL.
Definition PROC_DDL_ACLS : Z := CREATE_PROC_ACL ||| ALTER_PROC_ACL.
Definition SHOW_PROC_ACLS : Z := PROC_DDL_ACLS ||| EXECUTE_ACL.
Definition TABLE_ACLS : Z :=
  COL_DML_ACLS ||| ALL_TABLE_DDL_ACLS ||| VIEW_ACLS ||| GRANT_ACL ||| REFERENCES_ACL |||
  TRIGGER_ACL ||| DELETE_HISTORY_ACL.
Definition DB_ACLS : Z :=
  TABLE_ACLS ||| PROC_DDL_ACLS ||| EXECUTE_ACL ||| CREATE_TMP_ACL ||| LOCK_TABLES_ACL ||| EVENT_ACL.
Definition PROC_ACLS : Z := ALTER_PROC_ACL ||| EXECUTE_ACL ||| GRANT_ACL.
Definition GLOBAL_ACLS : Z :=
  DB_ACLS ||| SHOW_DB_ACL ||| CREATE_USER_ACL ||| CREATE_TABLESPACE_ACL ||| SUPER_ACL |||
  RELOAD_ACL ||| SHUTDOWN_ACL ||| PROCESS_ACL ||| FILE_ACL ||| REPL_SLAVE_ACL |||
  BINLOG_MONITOR_ACL ||| GLOBAL_SUPER_ADDED_SINCE_USER_TABLE_ACLS ||| REPL_MASTER_ADMIN_ACL
  ||| SLAVE_MONITOR_ACL.
Definition DEFAULT_CREATE_PROC_ACLS : Z := ALTER_PROC_ACL ||| EXECUTE_ACL.
Definition SHOW_CREATE_TABLE_ACLS : Z :=
  COL_DML_ACLS ||| ALL_TABLE_DDL_ACLS ||| TRIGGER_ACL ||| REFERENCES_ACL ||| GRANT_ACL |||
  VIEW_ACLS.
Definition TMP_TABLE_ACLS : Z := COL_DML_ACLS ||| ALL_TABLE_DDL_ACLS.

(** ** What statements, commands and variables ask for *)

Definition PRIV_LOCK_TABLES : Z := SELECT_ACL ||| LOCK_TABLES_ACL.
Definition PRIV_DEFINER_CLAUSE : Z := SET_USER_ACL ||| SUPER_ACL.
Definition PRIV_REVEAL_MISSING_DEFINER : Z := SET_USER_ACL ||| SUPER_ACL.
Definition PRIV_DES_DECRYPT_ONE_ARG : Z := SUPER_ACL.
Definition PRIV_LOG_BIN_TRUSTED_SP_CREATOR : Z := SUPER_ACL.
Definition PRIV_DEBUG : Z := SUPER_ACL.
Definition PRIV_SET_GLOBAL_SYSTEM_VARIABLE : Z := SUPER_ACL.
Definition PRIV_SET_RESTRICTED_SESSION_SYSTEM_VARIABLE : Z := SUPER_ACL.
Definition PRIV_SET_SYSTEM_VAR_BINLOG_FORMAT : Z := SUPER_ACL ||| BINLOG_ADMIN_ACL.
Definition PRIV_SET_SYSTEM_VAR_BINLOG_DIRECT_NON_TRANSACTIONAL_UPDATES : Z :=
  SUPER_ACL ||| BINLOG_ADMIN_ACL.
Definition PRIV_SET_SYSTEM_VAR_BINLOG_ANNOTATE_ROW_EVENTS : Z := SUPER_ACL ||| BINLOG_ADMIN_ACL.
Definition PRIV_SET_SYSTEM_VAR_BINLOG_ROW_IMAGE : Z := SUPER_ACL ||| BINLOG_ADMIN_ACL.
Definition PRIV_SET_SYSTEM_VAR_SQL_LOG_BIN : Z := SUPER_ACL ||| BINLOG_ADMIN_ACL.
Definition PRIV_SET_SYSTEM_GLOBAL_VAR_BINLOG_CACHE_SIZE : Z := SUPER_ACL ||| BINLOG_ADMIN_ACL.
Definition PRIV_SET_SYSTEM_GLOBAL_VAR_BINLOG_FILE_CACHE_SIZE : Z := SUPER_ACL ||| BINLOG_ADMIN_ACL.
Definition PRIV_SET_SYSTEM_GLOBAL_VAR_BINLOG_STMT_CACHE_SIZE : Z := SUPER_ACL ||| BINLOG_ADMIN_ACL.
Definition PRIV_SET_SYSTEM_GLOBAL_VAR_BINLOG_COMMIT_WAIT_COUNT : Z :=
  SUPER_ACL ||| BINLOG_ADMIN_ACL.
Definition PRIV_SET_SYSTEM_GLOBAL_VAR_BINLOG_COMMIT_WAIT_USEC : Z := SUPER_ACL ||| BINLOG_ADMIN_ACL.
Definition PRIV_SET_SYSTEM_GLOBAL_VAR_BINLOG_ROW_METADATA : Z := SUPER_ACL ||| BINLOG_ADMIN_ACL.
Definition PRIV_SET_SYSTEM_GLOBAL_VAR_EXPIRE_LOGS_DAYS : Z := SUPER_ACL ||| BINLOG_ADMIN_ACL.
Definition PRIV_SET_SYSTEM_GLOBAL_VAR_LOG_BIN_COMPRESS : Z := SUPER_ACL ||| BINLOG_ADMIN_ACL.
Definition PRIV_SET_SYSTEM_GLOBAL_VAR_LOG_BIN_COMPRESS_MIN_LEN : Z :=
  SUPER_ACL ||| BINLOG_ADMIN_ACL.
Definition PRIV_SET_SYSTEM_GLOBAL_VAR_LOG_BIN_TRUST_FUNCTION_CREATORS : Z :=
  SUPER_ACL ||| BINLOG_ADMIN_ACL.
Definition PRIV_SET_SYSTEM_GLOBAL_VAR_MAX_BINLOG_CACHE_SIZE : Z := SUPER_ACL ||| BINLOG_ADMIN_ACL.
Definition PRIV_SET_SYSTEM_GLOBAL_VAR_MAX_BINLOG_STMT_CACHE_SIZE : Z :=
  SUPER_ACL ||| BINLOG_ADMIN_ACL.
Definition PRIV_SET_SYSTEM_GLOBAL_VAR_MAX_BINLOG_SIZE : Z := SUPER_ACL ||| BINLOG_ADMIN_ACL.
Definition PRIV_SET_SYSTEM_GLOBAL_VAR_SYNC_BINLOG : Z := SUPER_ACL ||| BINLOG_ADMIN_ACL.
Definition PRIV_IGNORE_READ_ONLY : Z := READ_ONLY_ADMIN_ACL ||| SUPER_ACL.
Definition PRIV_SET_SYSTEM_GLOBAL_VAR_READ_ONLY : Z := READ_ONLY_ADMIN_ACL ||| SUPER_ACL.
Definition PRIV_IGNORE_INIT_CONNECT : Z := CONNECTION_ADMIN_ACL ||| SUPER_ACL.
Definition PRIV_IGNORE_MAX_USER_CONNECTIONS : Z := CONNECTION_ADMIN_ACL ||| SUPER_ACL.
Definition PRIV_IGNORE_MAX_CONNECTIONS : Z := CONNECTION_ADMIN_ACL ||| SUPER_ACL.
Definition PRIV_IGNORE_MAX_PASSWORD_ERRORS : Z := CONNECTION_ADMIN_ACL ||| SUPER_ACL.
Definition PRIV_KILL_OTHER_USER_PROCESS : Z := CONNECTION_ADMIN_ACL ||| SUPER_ACL.
Definition PRIV_SET_SYSTEM_GLOBAL_VAR_CONNECT_TIMEOUT : Z := CONNECTION_ADMIN_ACL ||| SUPER_ACL.
Definition PRIV_SET_SYSTEM_GLOBAL_VAR_DISCONNECT_ON_EXPIRED_PASSWORD : Z :=
  CONNECTION_ADMIN_ACL ||| SUPER_ACL.
Definition PRIV_SET_SYSTEM_GLOBAL_VAR_EXTRA_MAX_CONNECTIONS : Z :=
  CONNECTION_ADMIN_ACL ||| SUPER_ACL.
Definition PRIV_SET_SYSTEM_GLOBAL_VAR_INIT_CONNECT : Z := CONNECTION_ADMIN_ACL ||| SUPER_ACL.
Definition PRIV_SET_SYSTEM_GLOBAL_VAR_MAX_CONNECTIONS : Z := CONNECTION_ADMIN_ACL ||| SUPER_ACL.
Definition PRIV_SET_SYSTEM_GLOBAL_VAR_MAX_CONNECT_ERRORS : Z := CONNECTION_ADMIN_ACL ||| SUPER_ACL.
Definition PRIV_SET_SYSTEM_GLOBAL_VAR_MAX_PASSWORD_ERRORS : Z := CONNECTION_ADMIN_ACL ||| SUPER_ACL.
Definition PRIV_SET_SYSTEM_GLOBAL_VAR_PROXY_PROTOCOL_NETWORKS : Z :=
  CONNECTION_ADMIN_ACL ||| SUPER_ACL.
Definition PRIV_SET_SYSTEM_GLOBAL_VAR_SECURE_AUTH : Z := CONNECTION_ADMIN_ACL ||| SUPER_ACL.
Definition PRIV_SET_SYSTEM_GLOBAL_VAR_SLOW_LAUNCH_TIME : Z := CONNECTION_ADMIN_ACL ||| SUPER_ACL.
Definition PRIV_SET_SYSTEM_GLOBAL_VAR_THREAD_POOL : Z := CONNECTION_ADMIN_ACL ||| SUPER_ACL.
Definition PRIV_STMT_SHOW_BINLOG_STATUS : Z := BINLOG_MONITOR_ACL ||| SUPER_ACL.
Definition PRIV_STMT_SHOW_BINARY_LOGS : Z := BINLOG_MONITOR_ACL ||| SUPER_ACL.
Definition PRIV_STMT_PURGE_BINLOG : Z := BINLOG_ADMIN_ACL ||| SUPER_ACL.
Definition PRIV_STMT_SHOW_BINLOG_EVENTS : Z := BINLOG_MONITOR_ACL.
Definition PRIV_COM_REGISTER_SLAVE : Z := REPL_SLAVE_ACL.
Definition PRIV_COM_BINLOG_DUMP : Z := REPL_SLAVE_ACL.
Definition PRIV_STMT_SHOW_SLAVE_HOSTS : Z := REPL_MASTER_ADMIN_ACL.
Definition PRIV_SET_SYSTEM_GLOBAL_VAR_RPL_SEMI_SYNC_MASTER_ENABLED : Z :=
  REPL_MASTER_ADMIN_ACL ||| SUPER_ACL.
Definition PRIV_SET_SYSTEM_GLOBAL_VAR_RPL_SEMI_SYNC_MASTER_TIMEOUT : Z :=
  REPL_MASTER_ADMIN_ACL ||| SUPER_ACL.
Definition PRIV_SET_SYSTEM_GLOBAL_VAR_RPL_SEMI_SYNC_MASTER_WAIT_NO_SLAVE : Z :=
  REPL_MASTER_ADMIN_ACL ||| SUPER_ACL.
Definition PRIV_SET_SYSTEM_GLOBAL_VAR_RPL_SEMI_SYNC_MASTER_TRACE_LEVEL : Z :=
  REPL_MASTER_ADMIN_ACL ||| SUPER_ACL.
Definition PRIV_SET_SYSTEM_GLOBAL_VAR_RPL_SEMI_SYNC_MASTER_WAIT_POINT : Z :=
  REPL_MASTER_ADMIN_ACL ||| SUPER_ACL.
Definition PRIV_SET_SYSTEM_GLOBAL_VAR_MASTER_VERIFY_CHECKSUM : Z :=
  REPL_MASTER_ADMIN_ACL ||| SUPER_ACL.
Definition PRIV_SET_SYSTEM_GLOBAL_VAR_GTID_BINLOG_STATE : Z := REPL_MASTER_ADMIN_ACL ||| SUPER_ACL.
Definition PRIV_SET_SYSTEM_GLOBAL_VAR_SERVER_ID : Z := REPL_MASTER_ADMIN_ACL ||| SUPER_ACL.
Definition PRIV_SET_SYSTEM_GLOBAL_VAR_GTID_DOMAIN_ID : Z := REPL_MASTER_ADMIN_ACL ||| SUPER_ACL.
Definition PRIV_STMT_START_SLAVE : Z := REPL_SLAVE_ADMIN_ACL ||| SUPER_ACL.
Definition PRIV_STMT_STOP_SLAVE : Z := REPL_SLAVE_ADMIN_ACL ||| SUPER_ACL.
Definition PRIV_STMT_CHANGE_MASTER : Z := REPL_SLAVE_ADMIN_ACL ||| SUPER_ACL.
Definition PRIV_STMT_SHOW_SLAVE_STATUS : Z := SLAVE_MONITOR_ACL ||| SUPER_ACL.
Definition PRIV_STMT_SHOW_RELAYLOG_EVENTS : Z := SLAVE_MONITOR_ACL.
Definition PRIV_STMT_BINLOG : Z := BINLOG_REPLAY_ACL ||| SUPER_ACL.
Definition PRIV_SET_SYSTEM_SESSION_VAR_GTID_SEQ_NO : Z := BINLOG_REPLAY_ACL ||| SUPER_ACL.
Definition PRIV_SET_SYSTEM_SESSION_VAR_PSEUDO_THREAD_ID : Z := BINLOG_REPLAY_ACL ||| SUPER_ACL.
Definition PRIV_SET_SYSTEM_SESSION_VAR_SERVER_ID : Z := BINLOG_REPLAY_ACL ||| SUPER_ACL.
Definition PRIV_SET_SYSTEM_SESSION_VAR_GTID_DOMAIN_ID : Z := BINLOG_REPLAY_ACL ||| SUPER_ACL.
Definition PRIV_SET_SYSTEM_GLOBAL_VAR_REPLICATE_EVENTS_MARKED_FOR_SKIP : Z :=
  REPL_SLAVE_ADMIN_ACL ||| SUPER_ACL.
Definition PRIV_SET_SYSTEM_GLOBAL_VAR_REPLICATE_DO_DB : Z := REPL_SLAVE_ADMIN_ACL ||| SUPER_ACL.
Definition PRIV_SET_SYSTEM_GLOBAL_VAR_REPLICATE_DO_TABLE : Z := REPL_SLAVE_ADMIN_ACL ||| SUPER_ACL.
Definition PRIV_SET_SYSTEM_GLOBAL_VAR_REPLICATE_IGNORE_DB : Z := REPL_SLAVE_ADMIN_ACL ||| SUPER_ACL.
Definition PRIV_SET_SYSTEM_GLOBAL_VAR_REPLICATE_IGNORE_TABLE : Z :=
  REPL_SLAVE_ADMIN_ACL ||| SUPER_ACL.
Definition PRIV_SET_SYSTEM_GLOBAL_VAR_REPLICATE_WILD_DO_TABLE : Z :=
  REPL_SLAVE_ADMIN_ACL ||| SUPER_ACL.
Definition PRIV_SET_SYSTEM_GLOBAL_VAR_REPLICATE_WILD_IGNORE_TABLE : Z :=
  REPL_SLAVE_ADMIN_ACL ||| SUPER_ACL.
Definition PRIV_SET_SYSTEM_GLOBAL_VAR_READ_BINLOG_SPEED_LIMIT : Z :=
  REPL_SLAVE_ADMIN_ACL ||| SUPER_ACL.
Definition PRIV_SET_SYSTEM_GLOBAL_VAR_SLAVE_COMPRESSED_PROTOCOL : Z :=
  REPL_SLAVE_ADMIN_ACL ||| SUPER_ACL.
Definition PRIV_SET_SYSTEM_GLOBAL_VAR_SLAVE_DDL_EXEC_MODE : Z := REPL_SLAVE_ADMIN_ACL ||| SUPER_ACL.
Definition PRIV_SET_SYSTEM_GLOBAL_VAR_SLAVE_DOMAIN_PARALLEL_THREADS : Z :=
  REPL_SLAVE_ADMIN_ACL ||| SUPER_ACL.
Definition PRIV_SET_SYSTEM_GLOBAL_VAR_SLAVE_EXEC_MODE : Z := REPL_SLAVE_ADMIN_ACL ||| SUPER_ACL.
Definition PRIV_SET_SYSTEM_GLOBAL_VAR_SLAVE_MAX_ALLOWED_PACKET : Z :=
  REPL_SLAVE_ADMIN_ACL ||| SUPER_ACL.
Definition PRIV_SET_SYSTEM_GLOBAL_VAR_SLAVE_NET_TIMEOUT : Z := REPL_SLAVE_ADMIN_ACL ||| SUPER_ACL.
Definition PRIV_SET_SYSTEM_GLOBAL_VAR_SLAVE_PARALLEL_MAX_QUEUED : Z :=
  REPL_SLAVE_ADMIN_ACL ||| SUPER_ACL.
Definition PRIV_SET_SYSTEM_GLOBAL_VAR_SLAVE_PARALLEL_MODE : Z := REPL_SLAVE_ADMIN_ACL ||| SUPER_ACL.
Definition PRIV_SET_SYSTEM_GLOBAL_VAR_SLAVE_PARALLEL_THREADS : Z :=
  REPL_SLAVE_ADMIN_ACL ||| SUPER_ACL.
Definition PRIV_SET_SYSTEM_GLOBAL_VAR_SLAVE_PARALLEL_WORKERS : Z :=
  REPL_SLAVE_ADMIN_ACL ||| SUPER_ACL.
Definition PRIV_SET_SYSTEM_GLOBAL_VAR_SLAVE_RUN_TRIGGERS_FOR_RBR : Z :=
  REPL_SLAVE_ADMIN_ACL ||| SUPER_ACL.
Definition PRIV_SET_SYSTEM_GLOBAL_VAR_SLAVE_SQL_VERIFY_CHECKSUM : Z :=
  REPL_SLAVE_ADMIN_ACL ||| SUPER_ACL.
Definition PRIV_SET_SYSTEM_GLOBAL_VAR_SLAVE_TRANSACTION_RETRY_INTERVAL : Z :=
  REPL_SLAVE_ADMIN_ACL ||| SUPER_ACL.
Definition PRIV_SET_SYSTEM_GLOBAL_VAR_SLAVE_TYPE_CONVERSIONS : Z :=
  REPL_SLAVE_ADMIN_ACL ||| SUPER_ACL.
Definition PRIV_SET_SYSTEM_GLOBAL_VAR_INIT_SLAVE : Z := REPL_SLAVE_ADMIN_ACL ||| SUPER_ACL.
Definition PRIV_SET_SYSTEM_GLOBAL_VAR_RPL_SEMI_SYNC_SLAVE_ENABLED : Z :=
  REPL_SLAVE_ADMIN_ACL ||| SUPER_ACL.
Definition PRIV_SET_SYSTEM_GLOBAL_VAR_RPL_SEMI_SYNC_SLAVE_TRACE_LEVEL : Z :=
  REPL_SLAVE_ADMIN_ACL ||| SUPER_ACL.
Definition PRIV_SET_SYSTEM_GLOBAL_VAR_RPL_SEMI_SYNC_SLAVE_DELAY_MASTER : Z :=
  REPL_SLAVE_ADMIN_ACL ||| SUPER_ACL.
Definition PRIV_SET_SYSTEM_GLOBAL_VAR_RPL_SEMI_SYNC_SLAVE_KILL_CONN_TIMEOUT : Z :=
  REPL_SLAVE_ADMIN_ACL ||| SUPER_ACL.
Definition PRIV_SET_SYSTEM_GLOBAL_VAR_RELAY_LOG_PURGE : Z := REPL_SLAVE_ADMIN_ACL ||| SUPER_ACL.
Definition PRIV_SET_SYSTEM_GLOBAL_VAR_RELAY_LOG_RECOVERY : Z := REPL_SLAVE_ADMIN_ACL ||| SUPER_ACL.
Definition PRIV_SET_SYSTEM_GLOBAL_VAR_SYNC_MASTER_INFO : Z := REPL_SLAVE_ADMIN_ACL ||| SUPER_ACL.
Definition PRIV_SET_SYSTEM_GLOBAL_VAR_SYNC_RELAY_LOG : Z := REPL_SLAVE_ADMIN_ACL ||| SUPER_ACL.
Definition PRIV_SET_SYSTEM_GLOBAL_VAR_SYNC_RELAY_LOG_INFO : Z := REPL_SLAVE_ADMIN_ACL ||| SUPER_ACL.
Definition PRIV_SET_SYSTEM_GLOBAL_VAR_GTID_CLEANUP_BATCH_SIZE : Z :=
  REPL_SLAVE_ADMIN_ACL ||| SUPER_ACL.
Definition PRIV_SET_SYSTEM_GLOBAL_VAR_GTID_IGNORE_DUPLICATES : Z :=
  REPL_SLAVE_ADMIN_ACL ||| SUPER_ACL.
Definition PRIV_SET_SYSTEM_GLOBAL_VAR_GTID_POS_AUTO_ENGINES : Z :=
  REPL_SLAVE_ADMIN_ACL ||| SUPER_ACL.
Definition PRIV_SET_SYSTEM_GLOBAL_VAR_GTID_SLAVE_POS : Z := REPL_SLAVE_ADMIN_ACL ||| SUPER_ACL.
Definition PRIV_SET_SYSTEM_GLOBAL_VAR_GTID_STRICT_MODE : Z := REPL_SLAVE_ADMIN_ACL ||| SUPER_ACL.
Definition PRIV_STMT_CREATE_SERVER : Z := FEDERATED_ADMIN_ACL ||| SUPER_ACL.
Definition PRIV_STMT_ALTER_SERVER : Z := FEDERATED_ADMIN_ACL ||| SUPER_ACL.
Definition PRIV_STMT_DROP_SERVER : Z := FEDERATED_ADMIN_ACL ||| SUPER_ACL.
Definition PRIV_COM_PROCESS_INFO : Z := PROCESS_ACL.
Definition PRIV_STMT_SHOW_EXPLAIN : Z := PROCESS_ACL.
Definition PRIV_STMT_SHOW_ENGINE_STATUS : Z := PROCESS_ACL.
Definition PRIV_STMT_SHOW_ENGINE_MUTEX : Z := PROCESS_ACL.
Definition PRIV_STMT_SHOW_PROCESSLIST : Z := PROCESS_ACL.

(** All of them, in the order of the header; and those that the header
    documents as open to a holder of [SUPER]. *)
Definition all_privs : list Z :=
  [ PRIV_LOCK_TABLES; PRIV_DEFINER_CLAUSE; PRIV_REVEAL_MISSING_DEFINER;
    PRIV_DES_DECRYPT_ONE_ARG; PRIV_LOG_BIN_TRUSTED_SP_CREATOR; PRIV_DEBUG;
    PRIV_SET_GLOBAL_SYSTEM_VARIABLE; PRIV_SET_RESTRICTED_SESSION_SYSTEM_VARIABLE;
    PRIV_SET_SYSTEM_VAR_BINLOG_FORMAT;
    PRIV_SET_SYSTEM_VAR_BINLOG_DIRECT_NON_TRANSACTIONAL_UPDATES;
    PRIV_SET_SYSTEM_VAR_BINLOG_ANNOTATE_ROW_EVENTS; PRIV_SET_SYSTEM_VAR_BINLOG_ROW_IMAGE;
    PRIV_SET_SYSTEM_VAR_SQL_LOG_BIN; PRIV_SET_SYSTEM_GLOBAL_VAR_BINLOG_CACHE_SIZE;
    PRIV_SET_SYSTEM_GLOBAL_VAR_BINLOG_FILE_CACHE_SIZE;
    PRIV_SET_SYSTEM_GLOBAL_VAR_BINLOG_STMT_CACHE_SIZE;
    PRIV_SET_SYSTEM_GLOBAL_VAR_BINLOG_COMMIT_WAIT_COUNT;
    PRIV_SET_SYSTEM_GLOBAL_VAR_BINLOG_COMMIT_WAIT_USEC;
    PRIV_SET_SYSTEM_GLOBAL_VAR_BINLOG_ROW_METADATA;
    PRIV_SET_SYSTEM_GLOBAL_VAR_EXPIRE_LOGS_DAYS; PRIV_SET_SYSTEM_GLOBAL_VAR_LOG_BIN_COMPRESS;
    PRIV_SET_SYSTEM_GLOBAL_VAR_LOG_BIN_COMPRESS_MIN_LEN;
    PRIV_SET_SYSTEM_GLOBAL_VAR_LOG_BIN_TRUST_FUNCTION_CREATORS;
    PRIV_SET_SYSTEM_GLOBAL_VAR_MAX_BINLOG_CACHE_SIZE;
    PRIV_SET_SYSTEM_GLOBAL_VAR_MAX_BINLOG_STMT_CACHE_SIZE;
    PRIV_SET_SYSTEM_GLOBAL_VAR_MAX_BINLOG_SIZE; PRIV_SET_SYSTEM_GLOBAL_VAR_SYNC_BINLOG;
    PRIV_IGNORE_READ_ONLY; PRIV_SET_SYSTEM_GLOBAL_VAR_READ_ONLY; PRIV_IGNORE_INIT_CONNECT;
    PRIV_IGNORE_MAX_USER_CONNECTIONS; PRIV_IGNORE_MAX_CONNECTIONS;
    PRIV_IGNORE_MAX_PASSWORD_ERRORS; PRIV_KILL_OTHER_USER_PROCESS;
    PRIV_SET_SYSTEM_GLOBAL_VAR_CONNECT_TIMEOUT;
    PRIV_SET_SYSTEM_GLOBAL_VAR_DISCONNECT_ON_EXPIRED_PASSWORD;
    PRIV_SET_SYSTEM_GLOBAL_VAR_EXTRA_MAX_CONNECTIONS; PRIV_SET_SYSTEM_GLOBAL_VAR_INIT_CONNECT;
    PRIV_SET_SYSTEM_GLOBAL_VAR_MAX_CONNECTIONS; PRIV_SET_SYSTEM_GLOBAL_VAR_MAX_CONNECT_ERRORS;
    PRIV_SET_SYSTEM_GLOBAL_VAR_MAX_PASSWORD_ERRORS;
    PRIV_SET_SYSTEM_GLOBAL_VAR_PROXY_PROTOCOL_NETWORKS;
    PRIV_SET_SYSTEM_GLOBAL_VAR_SECURE_AUTH; PRIV_SET_SYSTEM_GLOBAL_VAR_SLOW_LAUNCH_TIME;
    PRIV_SET_SYSTEM_GLOBAL_VAR_THREAD_POOL; PRIV_STMT_SHOW_BINLOG_STATUS;
    PRIV_STMT_SHOW_BINARY_LOGS; PRIV_STMT_PURGE_BINLOG; PRIV_STMT_SHOW_BINLOG_EVENTS;
    PRIV_COM_REGISTER_SLAVE; PRIV_COM_BINLOG_DUMP; PRIV_STMT_SHOW_SLAVE_HOSTS;
    PRIV_SET_SYSTEM_GLOBAL_VAR_RPL_SEMI_SYNC_MASTER_ENABLED;
    PRIV_SET_SYSTEM_GLOBAL_VAR_RPL_SEMI_SYNC_MASTER_TIMEOUT;
    PRIV_SET_SYSTEM_GLOBAL_VAR_RPL_SEMI_SYNC_MASTER_WAIT_NO_SLAVE;
    PRIV_SET_SYSTEM_GLOBAL_VAR_RPL_SEMI_SYNC_MASTER_TRACE_LEVEL;
    PRIV_SET_SYSTEM_GLOBAL_VAR_RPL_SEMI_SYNC_MASTER_WAIT_POINT;
    PRIV_SET_SYSTEM_GLOBAL_VAR_MASTER_VERIFY_CHECKSUM;
    PRIV_SET_SYSTEM_GLOBAL_VAR_GTID_BINLOG_STATE; PRIV_SET_SYSTEM_GLOBAL_VAR_SERVER_ID;
    PRIV_SET_SYSTEM_GLOBAL_VAR_GTID_DOMAIN_ID; PRIV_STMT_START_SLAVE; PRIV_STMT_STOP_SLAVE;
    PRIV_STMT_CHANGE_MASTER; PRIV_STMT_SHOW_SLAVE_STATUS; PRIV_STMT_SHOW_RELAYLOG_EVENTS;
    PRIV_STMT_BINLOG; PRIV_SET_SYSTEM_SESSION_VAR_GTID_SEQ_NO;
    PRIV_SET_SYSTEM_SESSION_VAR_PSEUDO_THREAD_ID; PRIV_SET_SYSTEM_SESSION_VAR_SERVER_ID;
    PRIV_SET_SYSTEM_SESSION_VAR_GTID_DOMAIN_ID;
    PRIV_SET_SYSTEM_GLOBAL_VAR_REPLICATE_EVENTS_MARKED_FOR_SKIP;
    PRIV_SET_SYSTEM_GLOBAL_VAR_REPLICATE_DO_DB; PRIV_SET_SYSTEM_GLOBAL_VAR_REPLICATE_DO_TABLE;
    PRIV_SET_SYSTEM_GLOBAL_VAR_REPLICATE_IGNORE_DB;
    PRIV_SET_SYSTEM_GLOBAL_VAR_REPLICATE_IGNORE_TABLE;
    PRIV_SET_SYSTEM_GLOBAL_VAR_REPLICATE_WILD_DO_TABLE;
    PRIV_SET_SYSTEM_GLOBAL_VAR_REPLICATE_WILD_IGNORE_TABLE;
    PRIV_SET_SYSTEM_GLOBAL_VAR_READ_BINLOG_SPEED_LIMIT;
    PRIV_SET_SYSTEM_GLOBAL_VAR_SLAVE_COMPRESSED_PROTOCOL;
    PRIV_SET_SYSTEM_GLOBAL_VAR_SLAVE_DDL_EXEC_MODE;
    PRIV_SET_SYSTEM_GLOBAL_VAR_SLAVE_DOMAIN_PARALLEL_THREADS;
    PRIV_SET_SYSTEM_GLOBAL_VAR_SLAVE_EXEC_MODE;
    PRIV_SET_SYSTEM_GLOBAL_VAR_SLAVE_MAX_ALLOWED_PACKET;
    PRIV_SET_SYSTEM_GLOBAL_VAR_SLAVE_NET_TIMEOUT;
    PRIV_SET_SYSTEM_GLOBAL_VAR_SLAVE_PARALLEL_MAX_QUEUED;
    PRIV_SET_SYSTEM_GLOBAL_VAR_SLAVE_PARALLEL_MODE;
    PRIV_SET_SYSTEM_GLOBAL_VAR_SLAVE_PARALLEL_THREADS;
    PRIV_SET_SYSTEM_GLOBAL_VAR_SLAVE_PARALLEL_WORKERS;
    PRIV_SET_SYSTEM_GLOBAL_VAR_SLAVE_RUN_TRIGGERS_FOR_RBR;
    PRIV_SET_SYSTEM_GLOBAL_VAR_SLAVE_SQL_VERIFY_CHECKSUM;
    PRIV_SET_SYSTEM_GLOBAL_VAR_SLAVE_TRANSACTION_RETRY_INTERVAL;
    PRIV_SET_SYSTEM_GLOBAL_VAR_SLAVE_TYPE_CONVERSIONS; PRIV_SET_SYSTEM_GLOBAL_VAR_INIT_SLAVE;
    PRIV_SET_SYSTEM_GLOBAL_VAR_RPL_SEMI_SYNC_SLAVE_ENABLED;
    PRIV_SET_SYSTEM_GLOBAL_VAR_RPL_SEMI_SYNC_SLAVE_TRACE_LEVEL;
    PRIV_SET_SYSTEM_GLOBAL_VAR_RPL_SEMI_SYNC_SLAVE_DELAY_MASTER;
    PRIV_SET_SYSTEM_GLOBAL_VAR_RPL_SEMI_SYNC_SLAVE_KILL_CONN_TIMEOUT;
    PRIV_SET_SYSTEM_GLOBAL_VAR_RELAY_LOG_PURGE; PRIV_SET_SYSTEM_GLOBAL_VAR_RELAY_LOG_RECOVERY;
    PRIV_SET_SYSTEM_GLOBAL_VAR_SYNC_MASTER_INFO; PRIV_SET_SYSTEM_GLOBAL_VAR_SYNC_RELAY_LOG;
    PRIV_SET_SYSTEM_GLOBAL_VAR_SYNC_RELAY_LOG_INFO;
    PRIV_SET_SYSTEM_GLOBAL_VAR_GTID_CLEANUP_BATCH_SIZE;
    PRIV_SET_SYSTEM_GLOBAL_VAR_GTID_IGNORE_DUPLICATES;
    PRIV_SET_SYSTEM_GLOBAL_VAR_GTID_POS_AUTO_ENGINES;
    PRIV_SET_SYSTEM_GLOBAL_VAR_GTID_SLAVE_POS; PRIV_SET_SYSTEM_GLOBAL_VAR_GTID_STRICT_MODE;
    PRIV_STMT_CREATE_SERVER; PRIV_STMT_ALTER_SERVER; PRIV_STMT_DROP_SERVER;
    PRIV_COM_PROCESS_INFO; PRIV_STMT_SHOW_EXPLAIN; PRIV_STMT_SHOW_ENGINE_STATUS;
    PRIV_STMT_SHOW_ENGINE_MUTEX; PRIV_STMT_SHOW_PROCESSLIST ].

Definition super_privs : list Z :=
  [ PRIV_DEFINER_CLAUSE; PRIV_REVEAL_MISSING_DEFINER; PRIV_DES_DECRYPT_ONE_ARG;
    PRIV_LOG_BIN_TRUSTED_SP_CREATOR; PRIV_DEBUG; PRIV_SET_GLOBAL_SYSTEM_VARIABLE;
    PRIV_SET_RESTRICTED_SESSION_SYSTEM_VARIABLE; PRIV_SET_SYSTEM_VAR_BINLOG_FORMAT;
    PRIV_SET_SYSTEM_VAR_BINLOG_DIRECT_NON_TRANSACTIONAL_UPDATES;
    PRIV_SET_SYSTEM_VAR_BINLOG_ANNOTATE_ROW_EVENTS; PRIV_SET_SYSTEM_VAR_BINLOG_ROW_IMAGE;
    PRIV_SET_SYSTEM_VAR_SQL_LOG_BIN; PRIV_SET_SYSTEM_GLOBAL_VAR_BINLOG_CACHE_SIZE;
    PRIV_SET_SYSTEM_GLOBAL_VAR_BINLOG_FILE_CACHE_SIZE;
    PRIV_SET_SYSTEM_GLOBAL_VAR_BINLOG_STMT_CACHE_SIZE;
    PRIV_SET_SYSTEM_GLOBAL_VAR_BINLOG_COMMIT_WAIT_COUNT;
    PRIV_SET_SYSTEM_GLOBAL_VAR_BINLOG_COMMIT_WAIT_USEC;
    PRIV_SET_SYSTEM_GLOBAL_VAR_BINLOG_ROW_METADATA;
    PRIV_SET_SYSTEM_GLOBAL_VAR_EXPIRE_LOGS_DAYS; PRIV_SET_SYSTEM_GLOBAL_VAR_LOG_BIN_COMPRESS;
    PRIV_SET_SYSTEM_GLOBAL_VAR_LOG_BIN_COMPRESS_MIN_LEN;
    PRIV_SET_SYSTEM_GLOBAL_VAR_LOG_BIN_TRUST_FUNCTION_CREATORS;
    PRIV_SET_SYSTEM_GLOBAL_VAR_MAX_BINLOG_CACHE_SIZE;
    PRIV_SET_SYSTEM_GLOBAL_VAR_MAX_BINLOG_STMT_CACHE_SIZE;
    PRIV_SET_SYSTEM_GLOBAL_VAR_MAX_BINLOG_SIZE; PRIV_SET_SYSTEM_GLOBAL_VAR_SYNC_BINLOG;
    PRIV_IGNORE_READ_ONLY; PRIV_SET_SYSTEM_GLOBAL_VAR_READ_ONLY; PRIV_IGNORE_INIT_CONNECT;
    PRIV_IGNORE_MAX_USER_CONNECTIONS; PRIV_IGNORE_MAX_CONNECTIONS;
    PRIV_IGNORE_MAX_PASSWORD_ERRORS; PRIV_KILL_OTHER_USER_PROCESS;
    PRIV_SET_SYSTEM_GLOBAL_VAR_CONNECT_TIMEOUT;
    PRIV_SET_SYSTEM_GLOBAL_VAR_DISCONNECT_ON_EXPIRED_PASSWORD;
    PRIV_SET_SYSTEM_GLOBAL_VAR_EXTRA_MAX_CONNECTIONS; PRIV_SET_SYSTEM_GLOBAL_VAR_INIT_CONNECT;
    PRIV_SET_SYSTEM_GLOBAL_VAR_MAX_CONNECTIONS; PRIV_SET_SYSTEM_GLOBAL_VAR_MAX_CONNECT_ERRORS;
    PRIV_SET_SYSTEM_GLOBAL_VAR_MAX_PASSWORD_ERRORS;
    PRIV_SET_SYSTEM_GLOBAL_VAR_PROXY_PROTOCOL_NETWORKS;
    PRIV_SET_SYSTEM_GLOBAL_VAR_SECURE_AUTH; PRIV_SET_SYSTEM_GLOBAL_VAR_SLOW_LAUNCH_TIME;
    PRIV_SET_SYSTEM_GLOBAL_VAR_THREAD_POOL; PRIV_STMT_SHOW_BINLOG_STATUS;
    PRIV_STMT_SHOW_BINARY_LOGS; PRIV_STMT_PURGE_BINLOG;
    PRIV_SET_SYSTEM_GLOBAL_VAR_RPL_SEMI_SYNC_MASTER_ENABLED;
    PRIV_SET_SYSTEM_GLOBAL_VAR_RPL_SEMI_SYNC_MASTER_TIMEOUT;
    PRIV_SET_SYSTEM_GLOBAL_VAR_RPL_SEMI_SYNC_MASTER_WAIT_NO_SLAVE;
    PRIV_SET_SYSTEM_GLOBAL_VAR_RPL_SEMI_SYNC_MASTER_TRACE_LEVEL;
    PRIV_SET_SYSTEM_GLOBAL_VAR_RPL_SEMI_SYNC_MASTER_WAIT_POINT;
    PRIV_SET_SYSTEM_GLOBAL_VAR_MASTER_VERIFY_CHECKSUM;
    PRIV_SET_SYSTEM_GLOBAL_VAR_GTID_BINLOG_STATE; PRIV_SET_SYSTEM_GLOBAL_VAR_SERVER_ID;
    PRIV_SET_SYSTEM_GLOBAL_VAR_GTID_DOMAIN_ID; PRIV_STMT_START_SLAVE; PRIV_STMT_STOP_SLAVE;
    PRIV_STMT_CHANGE_MASTER; PRIV_STMT_SHOW_SLAVE_STATUS; PRIV_STMT_BINLOG;
    PRIV_SET_SYSTEM_SESSION_VAR_GTID_SEQ_NO; PRIV_SET_SYSTEM_SESSION_VAR_PSEUDO_THREAD_ID;
    PRIV_SET_SYSTEM_SESSION_VAR_SERVER_ID; PRIV_SET_SYSTEM_SESSION_VAR_GTID_DOMAIN_ID;
    PRIV_SET_SYSTEM_GLOBAL_VAR_REPLICATE_EVENTS_MARKED_FOR_SKIP;
    PRIV_SET_SYSTEM_GLOBAL_VAR_REPLICATE_DO_DB; PRIV_SET_SYSTEM_GLOBAL_VAR_REPLICATE_DO_TABLE;
    PRIV_SET_SYSTEM_GLOBAL_VAR_REPLICATE_IGNORE_DB;
    PRIV_SET_SYSTEM_GLOBAL_VAR_REPLICATE_IGNORE_TABLE;
    PRIV_SET_SYSTEM_GLOBAL_VAR_REPLICATE_WILD_DO_TABLE;
    PRIV_SET_SYSTEM_GLOBAL_VAR_REPLICATE_WILD_IGNORE_TABLE;
    PRIV_SET_SYSTEM_GLOBAL_VAR_READ_BINLOG_SPEED_LIMIT;
    PRIV_SET_SYSTEM_GLOBAL_VAR_SLAVE_COMPRESSED_PROTOCOL;
    PRIV_SET_SYSTEM_GLOBAL_VAR_SLAVE_DDL_EXEC_MODE;
    PRIV_SET_SYSTEM_GLOBAL_VAR_SLAVE_DOMAIN_PARALLEL_THREADS;
    PRIV_SET_SYSTEM_GLOBAL_VAR_SLAVE_EXEC_MODE;
    PRIV_SET_SYSTEM_GLOBAL_VAR_SLAVE_MAX_ALLOWED_PACKET;
    PRIV_SET_SYSTEM_GLOBAL_VAR_SLAVE_NET_TIMEOUT;
    PRIV_SET_SYSTEM_GLOBAL_VAR_SLAVE_PARALLEL_MAX_QUEUED;
    PRIV_SET_SYSTEM_GLOBAL_VAR_SLAVE_PARALLEL_MODE;
    PRIV_SET_SYSTEM_GLOBAL_VAR_SLAVE_PARALLEL_THREADS;
    PRIV_SET_SYSTEM_GLOBAL_VAR_SLAVE_PARALLEL_WORKERS;
    PRIV_SET_SYSTEM_GLOBAL_VAR_SLAVE_RUN_TRIGGERS_FOR_RBR;
    PRIV_SET_SYSTEM_GLOBAL_VAR_SLAVE_SQL_VERIFY_CHECKSUM;
    PRIV_SET_SYSTEM_GLOBAL_VAR_SLAVE_TRANSACTION_RETRY_INTERVAL;
    PRIV_SET_SYSTEM_GLOBAL_VAR_SLAVE_TYPE_CONVERSIONS; PRIV_SET_SYSTEM_GLOBAL_VAR_INIT_SLAVE;
    PRIV_SET_SYSTEM_GLOBAL_VAR_RPL_SEMI_SYNC_SLAVE_ENABLED;
    PRIV_SET_SYSTEM_GLOBAL_VAR_RPL_SEMI_SYNC_SLAVE_TRACE_LEVEL;
    PRIV_SET_SYSTEM_GLOBAL_VAR_RPL_SEMI_SYNC_SLAVE_DELAY_MASTER;
    PRIV_SET_SYSTEM_GLOBAL_VAR_RPL_SEMI_SYNC_SLAVE_KILL_CONN_TIMEOUT;
    PRIV_SET_SYSTEM_GLOBAL_VAR_RELAY_LOG_PURGE; PRIV_SET_SYSTEM_GLOBAL_VAR_RELAY_LOG_RECOVERY;
    PRIV_SET_SYSTEM_GLOBAL_VAR_SYNC_MASTER_INFO; PRIV_SET_SYSTEM_GLOBAL_VAR_SYNC_RELAY_LOG;
    PRIV_SET_SYSTEM_GLOBAL_VAR_SYNC_RELAY_LOG_INFO;
    PRIV_SET_SYSTEM_GLOBAL_VAR_GTID_CLEANUP_BATCH_SIZE;
    PRIV_SET_SYSTEM_GLOBAL_VAR_GTID_IGNORE_DUPLICATES;
    PRIV_SET_SYSTEM_GLOBAL_VAR_GTID_POS_AUTO_ENGINES;
    PRIV_SET_SYSTEM_GLOBAL_VAR_GTID_SLAVE_POS; PRIV_SET_SYSTEM_GLOBAL_VAR_GTID_STRICT_MODE;
    PRIV_STMT_CREATE_SERVER; PRIV_STMT_ALTER_SERVER; PRIV_STMT_DROP_SERVER ].

(** ** Storage in the grant tables *)

Definition DB_CHUNK0 : Z := COL_DML_ACLS ||| CREATE_ACL ||| DROP_ACL.
Definition DB_CHUNK1 : Z := GRANT_ACL ||| REFERENCES_ACL ||| INDEX_ACL ||| ALTER_ACL.
Definition DB_CHUNK2 : Z := CREATE_TMP_ACL ||| LOCK_TABLES_ACL.
Definition DB_CHUNK3 : Z := VIEW_ACLS ||| PROC_DDL_ACLS.
Definition DB_CHUNK4 : Z := EXECUTE_ACL.
Definition DB_CHUNK5 : Z := EVENT_ACL ||| TRIGGER_ACL.
Definition DB_CHUNK6 : Z := DELETE_HISTORY_ACL.

(** [A << n] of an [ulonglong]. *)
Definition shl (A n : Z) : Z := to_ulonglong (Z.shiftl A n).

Definition fix_rights_for_db (A : Z) : Z :=
  A &&& DB_CHUNK0 ||| shl A 4 &&& DB_CHUNK1 ||| shl A 6 &&& DB_CHUNK2 ||| shl A 9 &&& DB_CHUNK3
  ||| shl A 2 &&& DB_CHUNK4 ||| shl A 9 &&& DB_CHUNK5 ||| shl A 10 &&& DB_CHUNK6.

Definition get_rights_for_db (A : Z) : Z :=
  A &&& DB_CHUNK0 ||| Z.shiftr (A &&& DB_CHUNK1) 4 ||| Z.shiftr (A &&& DB_CHUNK2) 6
  ||| Z.shiftr (A &&& DB_CHUNK3) 9 ||| Z.shiftr (A &&& DB_CHUNK4) 2
  ||| Z.shiftr (A &&& DB_CHUNK5) 9 ||| Z.shiftr (A &&& DB_CHUNK6) 10.

Definition TBL_CHUNK0 : Z := DB_CHUNK0.
Definition TBL_CHUNK1 : Z := DB_CHUNK1.
Definition TBL_CHUNK2 : Z := CREATE_VIEW_ACL ||| SHOW_VIEW_ACL.
Definition TBL_CHUNK3 : Z := TRIGGER_ACL.
Definition TBL_CHUNK4 : Z := DELETE_HISTORY_ACL.

Definition fix_rights_for_table (A : Z) : Z :=
  A &&& TBL_CHUNK0 ||| shl A 4 &&& TBL_CHUNK1 ||| shl A 11 &&& TBL_CHUNK2
  ||| shl A 15 &&& TBL_CHUNK3 ||| shl A 16 &&& TBL_CHUNK4.

Definition get_rights_for_table (A : Z) : Z :=
  A &&& TBL_CHUNK0 ||| Z.shiftr (A &&& TBL_CHUNK1) 4 ||| Z.shiftr (A &&& TBL_CHUNK2) 11
  ||| Z.shiftr (A &&& TBL_CHUNK3) 15 ||| Z.shiftr (A &&& TBL_CHUNK4) 16.

Definition fix_rights_for_column (A : Z) : Z :=
  let mask := SELECT_ACL ||| INSERT_ACL ||| UPDATE_ACL in
  A &&& mask ||| shl (A &&& op_not mask) 8.

Definition get_rights_for_column (A : Z) : Z :=
  let mask := SELECT_ACL ||| INSERT_ACL ||| UPDATE_ACL in
  A &&& mask ||| Z.shiftr A 8.

Definition fix_rights_for_procedure (A : Z) : Z :=
  shl A 18 &&& EXECUTE_ACL ||| shl A 23 &&& ALTER_PROC_ACL ||| shl A 8 &&& GRANT_ACL.

Definition get_rights_for_procedure (A : Z) : Z :=
  Z.shiftr (A &&& EXECUTE_ACL) 18 ||| Z.shiftr (A &&& ALTER_PROC_ACL) 23
  ||| Z.shiftr (A &&& GRANT_ACL) 8.

(** ** Bit moves *)

(** Each packing function is a union of moves: shift by [s] (to the right when
    [s] is negative) and keep the bits of [mask]. *)
Definition moves (l : list (Z * Z)) (A : Z) : Z :=
  foldr (λ sm acc, Z.lor (Z.land (Z.shiftl A sm.1) sm.2) acc) 0 l.

Lemma moves_testbit l A i : 0 ≤ i →
  Z.testbit (moves l A) i = existsb (λ sm, Z.testbit sm.2 i && Z.testbit A (i - sm.1)) l.
Proof.
  intros Hi. induction l as [|[s k] l IH]; simpl; [apply Z.testbit_0_l|].
  rewrite Z.lor_spec, Z.land_spec, Z.shiftl_spec, IH by done. f_equal. apply andb_comm.
Qed.

(** The bits of [A] that reach bit [i] through [l'] and then [l]. *)
Definition routes (l l' : list (Z * Z)) (i : Z) : list Z :=
  flat_map (λ sm, if Z.testbit sm.2 i then
    flat_map (λ sm', if (0 <=? i - sm.1) && Z.testbit sm'.2 (i - sm.1) then [i - sm.1 - sm'.1] else []) l'
    else []) l.

Lemma moves_moves l l' A i : 0 ≤ i →
  Z.testbit (moves l (moves l' A)) i = existsb (Z.testbit A) (routes l l' i).
Proof.
  intros Hi. rewrite moves_testbit by done. unfold routes.
  induction l as [|[s k] l IH]; simpl; [done|]. rewrite existsb_app, <- IH. f_equal.
  destruct (Z.testbit k i); [|done]. simpl. destruct (Z.leb_spec 0 (i - s)) as [Hs|Hs].
  - rewrite moves_testbit by done. cbn [andb]. clear. induction l' as [|[s' k'] l' IH]; simpl; [done|].
    rewrite existsb_app, <- IH. f_equal. destruct (Z.testbit k' (i - s)); simpl; [by rewrite orb_false_r|done].
  - rewrite Z.testbit_neg_r by done. cbn [andb]. clear. induction l' as [|sm l' IH]; simpl; [done|]. done.
Qed.

(** Decidable check that the composition keeps exactly the bits of [K]. *)
Definition keeps (l l' : list (Z * Z)) (K : Z) : bool :=
  forallb (λ i, forallb (Z.eqb i) (routes l l' i) &&
                eqb (Z.testbit K i) (negb (match routes l l' i with [] => true | _ => false end)))
    (Z.of_nat <$> seq 0 64)
  && forallb (λ sm, bool_decide (in_u 64 sm.2)) l && bool_decide (in_u 64 K).

Lemma keeps_ok l l' K A : keeps l l' K = true → moves l (moves l' A) = Z.land A K.
Proof.
  unfold keeps. rewrite !andb_true_iff, !forallb_forall, bool_decide_eq_true.
  intros [[Hr Hm] HK]. apply Z.bits_inj'. intros i Hi. rewrite Z.land_spec.
  destruct (decide (i < 64)).
  - rewrite moves_moves by done. specialize (Hr i). rewrite andb_true_iff, forallb_forall in Hr.
    destruct Hr as [Hr1 Hr2].
    { apply list_elem_of_In, list_elem_of_fmap. exists (Z.to_nat i). split; [lia|]. apply elem_of_seq. lia. }
    apply eqb_prop in Hr2. rewrite Hr2. destruct (routes l l' i) as [|j r] eqn:E; [by rewrite andb_false_r|].
    rewrite andb_true_r. apply eq_true_iff_eq. rewrite existsb_exists. split.
    + intros (j' & Hj & HA). apply Hr1, Z.eqb_eq in Hj as ->. done.
    + intros HA. exists j. split; [by left|]. specialize (Hr1 j (or_introl eq_refl)).
      apply Z.eqb_eq in Hr1 as <-. done.
  - rewrite (in_u_testbit 64 K), andb_false_r by (done || lia). rewrite moves_testbit by done.
    destruct (existsb _ l) eqn:E; [|done]. apply existsb_exists in E as (sm & Hin & HE).
    specialize (Hm sm Hin). apply bool_decide_eq_true in Hm.
    by rewrite (in_u_testbit 64 sm.2) in HE by (done || lia).
Qed.

(** The moves of each function. *)
Lemma shl_and A n M : 0 ≤ n → in_u 64 M → op_and (shl A n) M = Z.land (Z.shiftl A n) M.
Proof.
  intros Hn HM. unfold op_and, shl, to_ulonglong. bits i Hi. zcases; simpl; [done|].
  by rewrite (in_u_testbit 64 M), andb_false_r by (done || lia).
Qed.

Lemma shr_and A n M : Z.shiftr (op_and A M) n = Z.land (Z.shiftl A (- n)) (Z.shiftr M n).
Proof. unfold op_and. rewrite Z.shiftr_land. by rewrite Z.shiftl_opp_r. Qed.

Lemma id_and A M : op_and A M = Z.land (Z.shiftl A 0) M.
Proof. by rewrite Z.shiftl_0_r. Qed.


Definition db_fix : list (Z * Z) :=
  [(0, DB_CHUNK0); (4, DB_CHUNK1); (6, DB_CHUNK2); (9, DB_CHUNK3); (2, DB_CHUNK4);
   (9, DB_CHUNK5); (10, DB_CHUNK6)].
Definition table_fix : list (Z * Z) :=
  [(0, TBL_CHUNK0); (4, TBL_CHUNK1); (11, TBL_CHUNK2); (15, TBL_CHUNK3); (16, TBL_CHUNK4)].
Definition procedure_fix : list (Z * Z) := [(18, EXECUTE_ACL); (23, ALTER_PROC_ACL); (8, GRANT_ACL)].
Definition column_fix : list (Z * Z) := [(0, 7); (8, 2 ^ 64 - 2 ^ 11)].

(** The inverse moves. *)
Definition inverse (l : list (Z * Z)) : list (Z * Z) := (λ sm, (- sm.1, Z.shiftr sm.2 sm.1)) <$> l.

(** Rewrites a function into its moves, term by term. *)
Ltac fix_moves :=
  unfold moves; cbn [foldr fst snd]; rewrite Z.lor_0_r;
  rewrite !shl_and by (by vm_compute); unfold op_or; rewrite <- ?Z.lor_assoc; reflexivity.
Ltac get_moves :=
  unfold moves, inverse; cbn [foldr fmap list_fmap fst snd]; rewrite Z.lor_0_r;
  rewrite !shr_and; change (- 0) with 0; rewrite ?Z.shiftr_0_r; unfold op_or;
  rewrite <- ?Z.lor_assoc; reflexivity.

Lemma fix_db_moves A : fix_rights_for_db A = moves db_fix A.
Proof. unfold fix_rights_for_db, db_fix. rewrite id_and. fix_moves. Qed.
Lemma get_db_moves A : get_rights_for_db A = moves (inverse db_fix) A.
Proof. unfold get_rights_for_db, db_fix. rewrite id_and. get_moves. Qed.
Lemma fix_table_moves A : fix_rights_for_table A = moves table_fix A.
Proof. unfold fix_rights_for_table, table_fix. rewrite id_and. fix_moves. Qed.
Lemma get_table_moves A : get_rights_for_table A = moves (inverse table_fix) A.
Proof. unfold get_rights_for_table, table_fix. rewrite id_and. get_moves. Qed.
Lemma fix_procedure_moves A : fix_rights_for_procedure A = moves procedure_fix A.
Proof. unfold fix_rights_for_procedure, procedure_fix. fix_moves. Qed.
Lemma get_procedure_moves A : get_rights_for_procedure A = moves (inverse procedure_fix) A.
Proof. unfold get_rights_for_procedure, procedure_fix. get_moves. Qed.

Lemma fix_column_moves A : fix_rights_for_column A = moves column_fix A.
Proof.
  unfold fix_rights_for_column, column_fix, moves. cbn [foldr fst snd]. rewrite Z.lor_0_r, id_and.
  unfold op_or. f_equal. unfold shl, to_ulonglong, op_and.
  change (Z.land (Z.shiftl A 8) (2 ^ 64 - 2 ^ 11)) with (Z.land (Z.shiftl A 8) (wrap 64 (Z.shiftl (op_not 7) 8))).
  rewrite Z.shiftl_land. bits i Hi. destruct (i <? 64); cbn [andb]; [done|by rewrite andb_false_r].
Qed.

(** On column privileges, only bit 11 moves. *)
Lemma get_column_moves A : get_rights_for_column (Z.land A COL_ACLS) = moves (inverse [(0, 7); (8, 2 ^ 11)]) A.
Proof.
  unfold get_rights_for_column, moves, inverse, op_or, op_and. cbn [foldr fmap list_fmap fst snd].
  rewrite Z.lor_0_r, Z.shiftr_land, <- Z.land_assoc, Z.shiftl_0_r. f_equal.
Qed.

(** ** Main results *)

(** storing and reading privileges: for the database, table and routine
    levels, reading back what was stored gives exactly the privileges of that
    level ([DB_ACLS], [TABLE_ACLS], [PROC_ACLS]), and storing what was read
    gives the stored bits (20, 14 and 3 of them); for columns the same holds of
    the column privileges [COL_ACLS] and the 4 stored bits. *)
Theorem rights_storage_roundtrip A :
  fix_rights_for_db (get_rights_for_db A) = Z.land A DB_ACLS ∧
  get_rights_for_db (fix_rights_for_db A) = Z.land A (2 ^ 20 - 1) ∧
  fix_rights_for_table (get_rights_for_table A) = Z.land A TABLE_ACLS ∧
  get_rights_for_table (fix_rights_for_table A) = Z.land A (2 ^ 14 - 1) ∧
  fix_rights_for_procedure (get_rights_for_procedure A) = Z.land A PROC_ACLS ∧
  get_rights_for_procedure (fix_rights_for_procedure A) = Z.land A (2 ^ 3 - 1) ∧
  fix_rights_for_column (get_rights_for_column (Z.land A COL_ACLS)) = Z.land A COL_ACLS ∧
  get_rights_for_column (Z.land (fix_rights_for_column A) COL_ACLS) = Z.land A (2 ^ 4 - 1).
Proof.
  rewrite !fix_db_moves, !get_db_moves, !fix_table_moves, !get_table_moves,
    !fix_procedure_moves, !get_procedure_moves, !fix_column_moves, !get_column_moves.
  split_and!; apply keeps_ok; by vm_compute.
Qed.

(** Inclusion of privilege sets. *)
Definition included (a b : Z) : bool := Z.land a b =? a.

(** the levels are nested: column within table, table and routine within
    database, database within global privileges, and the global privileges are
    all the known ones; the privileges of temporary tables, views and
    [SHOW CREATE TABLE] are table privileges; what was added to [SUPER] is
    global; every privilege a statement or variable asks for is known and not
    empty, and the ones the header documents as covered by [SUPER] accept it;
    the version markers are consistent with the last bit. *)
Theorem privilege_groups_nested :
  included COL_ACLS TABLE_ACLS ∧ included TABLE_ACLS DB_ACLS ∧ included PROC_ACLS DB_ACLS ∧
  included DB_ACLS GLOBAL_ACLS ∧ GLOBAL_ACLS = ALL_KNOWN_ACL ∧
  forallb (λ x, included x TABLE_ACLS)
    [TMP_TABLE_ACLS; VIEW_ACLS; SHOW_CREATE_TABLE_ACLS; COL_DML_ACLS; ALL_TABLE_DDL_ACLS] ∧
  forallb (λ x, included x DB_ACLS) [SHOW_PROC_ACLS; DEFAULT_CREATE_PROC_ACLS] ∧
  included GLOBAL_SUPER_ADDED_SINCE_USER_TABLE_ACLS GLOBAL_ACLS ∧
  forallb (λ x, included x ALL_KNOWN_ACL && truth x) all_privs ∧
  forallb (λ x, truth (op_and SUPER_ACL x)) super_privs ∧
  Z.shiftl 1 PRIVILEGE_T_MAX_BIT = LAST_CURRENT_ACL ∧
  included ALL_KNOWN_ACL_100304 ALL_KNOWN_ACL_100502 ∧
  included ALL_KNOWN_ACL_100502 ALL_KNOWN_ACL_100508 ∧ ALL_KNOWN_ACL_100509 = ALL_KNOWN_ACL.
Proof. split_and!; by vm_compute. Qed.

(** [get_rights_for_column] does not mask its argument: outside the column
    privileges it reads other privileges as column privileges, for example
    [GRANT] as [UPDATE]. *)
Theorem column_rights_need_mask A : 
  get_rights_for_column (Z.lor A GRANT_ACL) = Z.lor (get_rights_for_column A) UPDATE_ACL.
Proof.
  unfold get_rights_for_column, op_or, op_and. rewrite Z.shiftr_lor, Z.land_lor_distr_l.
  change (Z.land GRANT_ACL (SELECT_ACL ||| INSERT_ACL ||| UPDATE_ACL)) with 0.
  change (Z.shiftr GRANT_ACL 8) with UPDATE_ACL. by rewrite Z.lor_0_r, Z.lor_assoc.
Qed.
