(* ===== verification/LifoBuffer.v ===== *)
(** [sql_lifo_buffer.h]: the in-memory LIFO buffers of DS-MRR.  A buffer of
    fixed-size elements (a byte sequence, or a pair of them) lives in memory
    provided by its user; the forward buffer grows towards higher addresses,
    the backward one towards lower addresses, so that two of them can share a
    space, one giving up what the other takes.  The contract of the abstract
    class [Lifo_buffer] is a type class with laws; both buffers implement it,
    and what the users of a buffer rely on is proved from the laws. *)
From S2P Require Import Prelude.

(** ** Memory: one byte array, addresses are indices *)

Definition slice (T : list Z) (p n : Z) : list Z := take (Z.to_nat n) (drop (Z.to_nat p) T).

(** [memcpy(p, data, n)] where [data] points to the bytes [data]. *)
Definition memcpy (T : list Z) (p : Z) (data : list Z) (n : Z) : option (list Z) :=
  if bool_decide (0 ≤ p ∧ p + n ≤ Z.of_nat (length T) ∧ 0 ≤ n ≤ Z.of_nat (length data))
  then Some (take (Z.to_nat p) T ++ take (Z.to_nat n) data ++ drop (Z.to_nat (p + n)) T)
  else None.

(** The members of [Lifo_buffer] and of its two subclasses. *)
Record lifo := Lifo { size1 : Z; size2 : Z; start : Z; end_ : Z; pos : Z }.

Definition set_pos (b : lifo) (p : Z) : lifo := Lifo (size1 b) (size2 b) (start b) (end_ b) p.

Definition setup_writing (b : lifo) (len1 len2 : Z) : lifo := Lifo len1 len2 (start b) (end_ b) (pos b).

(** [size1 + size2], of type [size_t], and the cast to [ptrdiff_t]. *)
Definition elem_size (b : lifo) : Z := to_ulonglong (size1 b + size2 b).

(** A failed [DBUG_ASSERT] aborts. *)
Definition check (dbug c : bool) : option unit := if negb dbug || c then Some tt else None.

(** ** [Forward_lifo_buffer] *)
Module Forward.

Definition used_size (b : lifo) : Z := to_ulonglong (pos b - start b).
Definition reset (b : lifo) : lifo := set_pos b (start b).
Definition end_of_space (b : lifo) : Z := pos b.
Definition have_space_for (b : lifo) (bytes : Z) : bool := pos b + bytes <? end_ b.
Definition can_write (b : lifo) : bool := have_space_for b (elem_size b).

Definition set_buffer_space (b : lifo) (start_arg end_arg : Z) : lifo :=
  reset (Lifo (size1 b) (size2 b) start_arg end_arg (pos b)).

Definition write_bytes (dbug : bool) (T : list Z) (b : lifo) (data : list Z) (bytes : Z)
  : option (list Z * lifo) :=
  _ ← check dbug (have_space_for b bytes);
  T ← memcpy T (pos b) data bytes;
  Some (T, set_pos b (pos b + bytes)).

Definition write (dbug : bool) (T : list Z) (b : lifo) (write_ptr1 write_ptr2 : list Z)
  : option (list Z * lifo) :=
  '(T, b) ← write_bytes dbug T b write_ptr1 (size1 b);
  if truth (size2 b) then write_bytes dbug T b write_ptr2 (size2 b) else Some (T, b).

Definition have_data (b : lifo) (position bytes : Z) : bool :=
  to_longlong bytes <=? position - start b.

(** Returns the new position, which is also the address of the data. *)
Definition read_bytes (dbug : bool) (b : lifo) (position bytes : Z) : option Z :=
  _ ← check dbug (have_data b position bytes);
  Some (position - bytes).

(** [read(&position, &ptr1, &ptr2)]: [None] inside for [TRUE] (end of data),
    otherwise the addresses of the two parts and the new position. *)
Definition read_at (dbug : bool) (b : lifo) (position : Z) : option (option (Z * option Z * Z)) :=
  if negb (have_data b position (elem_size b)) then Some None else
  if truth (size2 b) then
    p2 ← read_bytes dbug b position (size2 b);
    p1 ← read_bytes dbug b p2 (size1 b);
    Some (Some (p1, Some p2, p1))
  else
    p1 ← read_bytes dbug b position (size1 b);
    Some (Some (p1, None, p1)).

Definition grow (dbug : bool) (b : lifo) (unused_start unused_end : Z) : option lifo :=
  _ ← check dbug (unused_start <=? unused_end);
  _ ← check dbug (end_ b =? unused_start);
  Some (Lifo (size1 b) (size2 b) (start b) unused_end (pos b)).

Definition used_area (b : lifo) : Z := start b.
End Forward.

(** ** [Backward_lifo_buffer] *)
Module Backward.

Definition used_size (b : lifo) : Z := to_ulonglong (end_ b - pos b).
Definition reset (b : lifo) : lifo := set_pos b (end_ b).
Definition end_of_space (b : lifo) : Z := end_ b.
Definition have_space_for (b : lifo) (bytes : Z) : bool := start b <=? pos b - bytes.
Definition can_write (b : lifo) : bool := have_space_for b (elem_size b).

Definition set_buffer_space (b : lifo) (start_arg end_arg : Z) : lifo :=
  reset (Lifo (size1 b) (size2 b) start_arg end_arg (pos b)).

Definition write_bytes (dbug : bool) (T : list Z) (b : lifo) (data : list Z) (bytes : Z)
  : option (list Z * lifo) :=
  _ ← check dbug (have_space_for b bytes);
  let p := pos b - bytes in
  T ← memcpy T p data bytes;
  Some (T, set_pos b p).

(** The test is on the pointer [write_ptr2], not on [size2]. *)
Definition write (dbug : bool) (T : list Z) (b : lifo) (write_ptr1 : list Z)
    (write_ptr2 : option (list Z)) : option (list Z * lifo) :=
  '(T, b) ← match write_ptr2 with
            | Some d => write_bytes dbug T b d (size2 b)
            | None => Some (T, b)
            end;
  write_bytes dbug T b write_ptr1 (size1 b).

Definition have_data (b : lifo) (position bytes : Z) : bool :=
  to_longlong bytes <=? end_ b - position.

(** Returns the address of the data; the new position is behind it. *)
Definition read_bytes (dbug : bool) (b : lifo) (position bytes : Z) : option (Z * Z) :=
  _ ← check dbug (have_data b position bytes);
  Some (position, position + bytes).

Definition read_at (dbug : bool) (b : lifo) (position : Z) : option (option (Z * option Z * Z)) :=
  if negb (have_data b position (elem_size b)) then Some None else
  '(p1, position) ← read_bytes dbug b position (size1 b);
  if truth (size2 b) then
    '(p2, position) ← read_bytes dbug b position (size2 b);
    Some (Some (p1, Some p2, position))
  else Some (Some (p1, None, position)).

Definition remove_unused_space (b : lifo) : Z * Z * lifo :=
  (start b, pos b, Lifo (size1 b) (size2 b) (pos b) (end_ b) (pos b)).

Definition used_area (b : lifo) : Z := pos b.
End Backward.

(** ** The contract of [Lifo_buffer] *)

(** An element: its two byte sequences. *)
Abbreviation element := (list Z * list Z)%type.

Class LifoOps := {
  l_can_write : lifo → bool;
  l_write : bool → list Z → lifo → element → option (list Z * lifo);
  l_read_at : bool → lifo → Z → option (option (Z * option Z * Z)) }.

(** [read()] moves the buffer's own position. *)
Definition l_read `{LifoOps} (dbug : bool) (b : lifo) : option (option (Z * option Z * lifo)) :=
  r ← l_read_at dbug b (pos b);
  Some ('(p1, p2, p) ← r; Some (p1, p2, set_pos b p)).

(** What a read hands out: the bytes at the returned addresses. *)
Definition fetched (T : list Z) (b : lifo) (p1 : Z) (p2 : option Z) : element :=
  (slice T p1 (size1 b), match p2 with Some p2 => slice T p2 (size2 b) | None => [] end).

Definition fits (b : lifo) (e : element) : Prop :=
  Z.of_nat (length e.1) = size1 b ∧ Z.of_nat (length e.2) = size2 b.

(** Sizes are those of objects in memory, and elements are not empty. *)
Record sizes_ok (b : lifo) : Prop := {
  sz1 : 0 ≤ size1 b; sz2 : 0 ≤ size2 b; sz_pos : 0 < size1 b + size2 b;
  sz_max : size1 b + size2 b < 2 ^ 63 }.

Definition same_space (b b' : lifo) : Prop :=
  size1 b' = size1 b ∧ size2 b' = size2 b ∧ start b' = start b ∧ end_ b' = end_ b.

(** [stack T b els]: the buffer holds [els], the last written first. *)
Class LifoLaws `{LifoOps} := {
  stack : list Z → lifo → list element → Prop;
  stack_sizes : ∀ T b els, stack T b els → sizes_ok b;
  (** a write that was announced possible succeeds and pushes; only bytes of
      the buffer's space change *)
  stack_write : ∀ dbug T b els e, stack T b els → fits b e → l_can_write b = true →
    ∃ T' b', l_write dbug T b e = Some (T', b') ∧ stack T' b' (e :: els) ∧ same_space b b' ∧
      length T' = length T ∧
      (∀ i, 0 ≤ i → i < start b ∨ end_ b ≤ i → T' !! Z.to_nat i = T !! Z.to_nat i);
  (** reading hands out the top element without touching the memory *)
  stack_read : ∀ dbug T b e els, stack T b (e :: els) →
    ∃ p1 p2 b', l_read dbug b = Some (Some (p1, p2, b')) ∧ fetched T b p1 p2 = e ∧
      stack T b' els ∧ same_space b b';
  stack_eof : ∀ dbug T b, stack T b [] → l_read dbug b = Some None }.

Definition forward_ops : LifoOps := {|
  l_can_write := Forward.can_write;
  l_write dbug T b e := Forward.write dbug T b e.1 e.2;
  l_read_at := Forward.read_at |}.

(** The user of a backward buffer passes a null [write_ptr2] for elements that
    are not pairs. *)
Definition backward_ops : LifoOps := {|
  l_can_write := Backward.can_write;
  l_write dbug T b e := Backward.write dbug T b e.1 (if truth (size2 b) then Some e.2 else None);
  l_read_at := Backward.read_at |}.

(** ** Slices and copies *)

Lemma slice_lookup T p n i : 0 ≤ p →
  slice T p n !! i = if decide (Z.of_nat i < n) then T !! Z.to_nat (p + Z.of_nat i) else None.
Proof.
  intros Hp. unfold slice. case_decide.
  - rewrite lookup_take_lt by lia. rewrite lookup_drop. f_equal. lia.
  - by rewrite lookup_take_ge by lia.
Qed.

Lemma slice_app T p n k : 0 ≤ p → 0 ≤ n → 0 ≤ k → slice T p (n + k) = slice T p n ++ slice T (p + n) k.
Proof.
  intros. unfold slice. rewrite Z2Nat.inj_add, <- take_take_drop, drop_drop by done.
  by rewrite Z2Nat.inj_add by done.
Qed.

Lemma slice_length T p n : 0 ≤ p → 0 ≤ n → p + n ≤ Z.of_nat (length T) →
  Z.of_nat (length (slice T p n)) = n.
Proof. intros. unfold slice. rewrite length_take, length_drop. lia. Qed.

(** A copy of exactly the bytes [data]. *)
Lemma memcpy_ok T p data n : 0 ≤ p → n = Z.of_nat (length data) → p + n ≤ Z.of_nat (length T) →
  ∃ T', memcpy T p data n = Some T' ∧ length T' = length T ∧ slice T' p n = data ∧
    (∀ q k, 0 ≤ q → q + k ≤ p ∨ p + n ≤ q → slice T' q k = slice T q k) ∧
    (∀ i, 0 ≤ i → i < p ∨ p + n ≤ i → T' !! Z.to_nat i = T !! Z.to_nat i).
Proof.
  intros Hp -> Hl. unfold memcpy. rewrite bool_decide_true by lia.
  rewrite (take_ge data) by lia. set (T' := _ ++ _ ++ _).
  assert (length T' = length T) as HT
    by (unfold T'; rewrite !length_app, length_take, length_drop; lia).
  assert (∀ i, 0 ≤ i → i < p ∨ p + Z.of_nat (length data) ≤ i → T' !! Z.to_nat i = T !! Z.to_nat i) as Ho.
  { intros i Hi0 [Hi|Hi]; unfold T'.
    - rewrite lookup_app_l by (rewrite length_take; lia). by rewrite lookup_take_lt by lia.
    - rewrite lookup_app_r by (rewrite length_take; lia). rewrite length_take.
      rewrite lookup_app_r by lia. rewrite lookup_drop. f_equal. lia. }
  exists T'. split_and!; [done|done| | |done].
  - unfold slice, T'. rewrite drop_app_length' by (rewrite length_take; lia).
    rewrite take_app_length' by lia. done.
  - intros q k Hq Hqk. apply list_eq. intros i. rewrite !slice_lookup by done.
    case_decide; [|done]. apply Ho; lia.
Qed.

(** ** The forward buffer implements the contract *)

Definition flat (e : element) : list Z := e.1 ++ e.2.

Record fwd_stack (T : list Z) (b : lifo) (els : list element) : Prop := {
  fwd_sizes : sizes_ok b;
  fwd_fits : Forall (fits b) els;
  fwd_space : 0 ≤ start b ∧ start b ≤ pos b ∧ pos b ≤ end_ b ∧ end_ b ≤ Z.of_nat (length T);
  fwd_data : slice T (start b) (pos b - start b) = concat (rev (flat <$> els)) }.

Lemma elem_size_ok b : sizes_ok b → elem_size b = size1 b + size2 b ∧
  to_longlong (elem_size b) = size1 b + size2 b.
Proof.
  intros [? ? ? ?]. unfold elem_size, to_ulonglong, to_longlong.
  rewrite wrap_id by (unfold in_u; lia). split; [done|]. apply swrap_id; [lia|unfold in_s; lia].
Qed.

Lemma to_longlong_id x : 0 ≤ x < 2 ^ 63 → to_longlong x = x.
Proof. intros. apply swrap_id; [lia|unfold in_s; lia]. Qed.

Lemma fwd_write_bytes dbug T b d n : 0 ≤ pos b → n = Z.of_nat (length d) → pos b + n < end_ b →
  end_ b ≤ Z.of_nat (length T) →
  ∃ T', Forward.write_bytes dbug T b d n = Some (T', set_pos b (pos b + n)) ∧
    length T' = length T ∧ slice T' (pos b) n = d ∧
    (∀ q k, 0 ≤ q → q + k ≤ pos b ∨ pos b + n ≤ q → slice T' q k = slice T q k) ∧
    (∀ i, 0 ≤ i → i < pos b ∨ pos b + n ≤ i → T' !! Z.to_nat i = T !! Z.to_nat i).
Proof.
  intros Hp Hn Hs He. unfold Forward.write_bytes, check, Forward.have_space_for.
  rewrite (proj2 (Z.ltb_lt _ _)), orb_true_r by done. simpl.
  destruct (memcpy_ok T (pos b) d n) as (T' & E & H1 & H2 & H3 & H4); [lia|done|lia|].
  rewrite E. simpl. by exists T'.
Qed.

Lemma fits_set_pos b p e : fits (set_pos b p) e ↔ fits b e.
Proof. done. Qed.

Lemma fwd_write dbug T b els e : fwd_stack T b els → fits b e → Forward.can_write b = true →
  ∃ T', Forward.write dbug T b e.1 e.2 = Some (T', set_pos b (pos b + (size1 b + size2 b))) ∧
    fwd_stack T' (set_pos b (pos b + (size1 b + size2 b))) (e :: els) ∧ length T' = length T ∧
    (∀ i, 0 ≤ i → i < start b ∨ end_ b ≤ i → T' !! Z.to_nat i = T !! Z.to_nat i).
Proof.
  intros [Hsz Hf Hsp Hd] [F1 F2] Hc. destruct (elem_size_ok b Hsz) as [Es _].
  unfold Forward.can_write, Forward.have_space_for in Hc. rewrite Es, Z.ltb_lt in Hc.
  pose proof Hsz as [Z1 Z2 Z3 Z4]. destruct Hsp as (S1 & S2 & S3 & S4). unfold Forward.write.
  destruct (fwd_write_bytes dbug T b e.1 (size1 b)) as (T1 & E1 & L1 & D1 & O1 & I1); [lia..|].
  rewrite E1. simpl.
  assert (∃ T2, (if truth (size2 b) then Forward.write_bytes dbug T1 (set_pos b (pos b + size1 b)) e.2 (size2 b)
       else Some (T1, set_pos b (pos b + size1 b))) = Some (T2, set_pos b (pos b + (size1 b + size2 b))) ∧
     length T2 = length T ∧ slice T2 (pos b) (size1 b) = e.1 ∧ slice T2 (pos b + size1 b) (size2 b) = e.2 ∧
     slice T2 (start b) (pos b - start b) = slice T (start b) (pos b - start b) ∧
     (∀ i, 0 ≤ i → i < start b ∨ end_ b ≤ i → T2 !! Z.to_nat i = T !! Z.to_nat i))
    as (T2 & E2 & L2 & D2 & D2' & D3 & I2).
  { destruct (truth (size2 b)) eqn:Et.
    - destruct (fwd_write_bytes dbug T1 (set_pos b (pos b + size1 b)) e.2 (size2 b))
        as (T2 & E2 & L2 & D2 & O2 & I2); [simpl; lia..|]. simpl in *. exists T2.
      rewrite E2, Z.add_assoc. split_and!; [done|congruence| |done| |].
      + rewrite O2 by lia. done.
      + rewrite O2, O1 by lia. done.
      + intros i Hi Ho. rewrite I2, I1 by lia. done.
    - apply truth_false in Et. exists T1. rewrite Et, Z.add_0_r. split_and!; [done|done|done| | |].
      + symmetry. apply nil_length_inv. lia.
      + by rewrite O1 by lia.
      + intros i Hi Ho. by rewrite I1 by lia. }
  exists T2. rewrite E2. split_and!; [done| |done|done]. split; simpl.
  - by destruct Hsz.
  - constructor; [done|]. exact Hf.
  - lia.
  - replace (pos b + (size1 b + size2 b) - start b) with ((pos b - start b) + (size1 b + size2 b)) by lia.
    rewrite slice_app, D3, Hd by lia. replace (start b + (pos b - start b)) with (pos b) by lia.
    rewrite slice_app, D2, D2' by lia. rewrite concat_app. simpl. by rewrite app_nil_r.
Qed.

(** The two parts of a stored element. *)
Lemma flat_parts T p b e : fits b e → 0 ≤ p → 0 ≤ size1 b → 0 ≤ size2 b →
  slice T p (size1 b + size2 b) = flat e →
  slice T p (size1 b) = e.1 ∧ slice T (p + size1 b) (size2 b) = e.2.
Proof.
  intros [F1 F2] Hp H1 H2 H. rewrite slice_app in H by lia. apply app_inj_1 in H; [done|].
  assert (length (slice T p (size1 b)) + length (slice T (p + size1 b) (size2 b)) = length e.1 + length e.2)%nat.
  { by rewrite <- !length_app, H. }
  unfold slice in *. rewrite !length_take, !length_drop in *. lia.
Qed.

Lemma concat_snoc_inv (l l' : list Z) (e : element) b T : fits b e → l ++ l' = T ++ flat e →
  Z.of_nat (length l') = size1 b + size2 b → l = T ∧ l' = flat e.
Proof.
  intros [F1 F2] H Hl. apply app_inj_2; [|done]. unfold flat. rewrite length_app. lia.
Qed.

Lemma fwd_read dbug T b e els : fwd_stack T b (e :: els) →
  ∃ p1 p2, Forward.read_at dbug b (pos b) = Some (Some (p1, p2, p1)) ∧
    fetched T b p1 p2 = e ∧ fwd_stack T (set_pos b p1) els.
Proof.
  intros [Hsz Hf (S1 & S2 & S3 & S4) Hd]. apply Forall_cons in Hf as [Fe Hf].
  pose proof (elem_size_ok b Hsz) as [Es El]. pose proof Hsz as [Z1 Z2 Z3 Z4].
  simpl in Hd. rewrite concat_app in Hd. simpl in Hd. rewrite app_nil_r in Hd.
  assert (size1 b + size2 b ≤ pos b - start b) as Hlen.
  { rewrite <- (slice_length T (start b) (pos b - start b)) by lia. rewrite Hd, length_app.
    unfold flat. rewrite length_app. destruct Fe. lia. }
  set (p1 := pos b - (size1 b + size2 b)).
  replace (pos b - start b) with ((p1 - start b) + (size1 b + size2 b)) in Hd by (unfold p1; lia).
  rewrite slice_app in Hd by (unfold p1; lia). replace (start b + (p1 - start b)) with p1 in Hd by lia.
  apply (concat_snoc_inv _ _ _ b) in Hd as [Hd1 Hd2]; [|done|apply slice_length; unfold p1; lia].
  destruct (flat_parts T p1 b e) as [Q1 Q2]; [done|unfold p1; lia|done|done|done|].
  assert (∀ p n, 0 ≤ n < 2 ^ 63 → n ≤ p - start b → Forward.have_data b p n = true) as Hhd.
  { intros p n Hn Hp. unfold Forward.have_data. rewrite to_longlong_id by lia. by apply Z.leb_le. }
  unfold Forward.read_at. unfold Forward.have_data at 1. rewrite El, (proj2 (Z.leb_le _ _)) by done. cbn [negb].
  assert (fwd_stack T (set_pos b p1) els) as Hst.
  { split; simpl; [by destruct Hsz|done|unfold p1; lia|]. rewrite Hd1. done. }
  unfold Forward.read_bytes, check. destruct (truth (size2 b)) eqn:Et.
  - rewrite Hhd, orb_true_r by lia. simpl. rewrite Hhd, orb_true_r by lia. simpl.
    exists p1, (Some (pos b - size2 b)). replace (pos b - size2 b - size1 b) with p1 by (unfold p1; lia).
    split_and!; [done| |done]. unfold fetched. rewrite Q1.
    replace (pos b - size2 b) with (p1 + size1 b) by (unfold p1; lia). rewrite Q2. by destruct e.
  - apply truth_false in Et. rewrite Hhd by lia. rewrite orb_true_r. simpl.
    exists p1, None. replace (pos b - size1 b) with p1 by (unfold p1; lia).
    split_and!; [done| |done]. unfold fetched. rewrite Q1. destruct e as [e1 e2], Fe as [_ F2]. simpl in *.
    f_equal. symmetry. apply nil_length_inv. lia.
Qed.

Lemma fwd_eof dbug T b : fwd_stack T b [] → Forward.read_at dbug b (pos b) = Some None.
Proof.
  intros [Hsz _ (S1 & S2 & S3 & S4) Hd]. pose proof (elem_size_ok b Hsz) as [_ El]. destruct Hsz.
  assert (pos b - start b = 0) by (rewrite <- (slice_length T (start b) (pos b - start b)), Hd by lia; done).
  unfold Forward.read_at, Forward.have_data. rewrite El, (proj2 (Z.leb_gt _ _)) by lia. done.
Qed.

(** *** The backward buffer *)

Record bwd_stack (T : list Z) (b : lifo) (els : list element) : Prop := {
  bwd_sizes : sizes_ok b;
  bwd_fits : Forall (fits b) els;
  bwd_space : 0 ≤ start b ∧ start b ≤ pos b ∧ pos b ≤ end_ b ∧ end_ b ≤ Z.of_nat (length T);
  bwd_data : slice T (pos b) (end_ b - pos b) = concat (flat <$> els) }.

Lemma bwd_write_bytes dbug T b d n : 0 ≤ start b → n = Z.of_nat (length d) → start b ≤ pos b - n →
  pos b ≤ Z.of_nat (length T) →
  ∃ T', Backward.write_bytes dbug T b d n = Some (T', set_pos b (pos b - n)) ∧
    length T' = length T ∧ slice T' (pos b - n) n = d ∧
    (∀ q k, 0 ≤ q → q + k ≤ pos b - n ∨ pos b ≤ q → slice T' q k = slice T q k) ∧
    (∀ i, 0 ≤ i → i < pos b - n ∨ pos b ≤ i → T' !! Z.to_nat i = T !! Z.to_nat i).
Proof.
  intros Hp Hn Hs He. unfold Backward.write_bytes, check, Backward.have_space_for.
  rewrite (proj2 (Z.leb_le _ _)), orb_true_r by done. simpl.
  destruct (memcpy_ok T (pos b - n) d n) as (T' & E & H1 & H2 & H3 & H4); [lia|done|lia|].
  replace (pos b - n + n) with (pos b) in * by lia. rewrite E. simpl. by exists T'.
Qed.

Lemma bwd_write dbug T b els e : bwd_stack T b els → fits b e → Backward.can_write b = true →
  ∃ T', Backward.write dbug T b e.1 (if truth (size2 b) then Some e.2 else None)
      = Some (T', set_pos b (pos b - (size1 b + size2 b))) ∧
    bwd_stack T' (set_pos b (pos b - (size1 b + size2 b))) (e :: els) ∧ length T' = length T ∧
    (∀ i, 0 ≤ i → i < start b ∨ end_ b ≤ i → T' !! Z.to_nat i = T !! Z.to_nat i).
Proof.
  intros [Hsz Hf Hsp Hd] [F1 F2] Hc. destruct (elem_size_ok b Hsz) as [Es _].
  unfold Backward.can_write, Backward.have_space_for in Hc. rewrite Es, Z.leb_le in Hc.
  pose proof Hsz as [Z1 Z2 Z3 Z4]. destruct Hsp as (S1 & S2 & S3 & S4). unfold Backward.write.
  assert (∃ T1, match (if truth (size2 b) then Some e.2 else None) with
      | Some d => Backward.write_bytes dbug T b d (size2 b) | None => Some (T, b) end
      = Some (T1, set_pos b (pos b - size2 b)) ∧
     length T1 = length T ∧ slice T1 (pos b - size2 b) (size2 b) = e.2 ∧
     slice T1 (pos b) (end_ b - pos b) = slice T (pos b) (end_ b - pos b) ∧
     (∀ i, 0 ≤ i → i < start b ∨ end_ b ≤ i → T1 !! Z.to_nat i = T !! Z.to_nat i))
    as (T1 & E1 & L1 & D1 & D1' & I1).
  { destruct (truth (size2 b)) eqn:Et.
    - destruct (bwd_write_bytes dbug T b e.2 (size2 b)) as (T1 & E1 & L1 & D1 & O1 & I1); [lia..|].
      exists T1. split_and!; [done|done|done|by rewrite O1 by lia|]. intros i Hi Ho. by rewrite I1 by lia.
    - apply truth_false in Et. exists T. rewrite Et, Z.sub_0_r.
      split_and!; [by destruct b|done| |done|done]. symmetry. apply nil_length_inv. lia. }
  rewrite E1. simpl.
  destruct (bwd_write_bytes dbug T1 (set_pos b (pos b - size2 b)) e.1 (size1 b))
    as (T2 & E2 & L2 & D2 & O2 & I2); [simpl; lia..|]. simpl in *.
  exists T2. rewrite E2. replace (pos b - size2 b - size1 b) with (pos b - (size1 b + size2 b)) in * by lia.
  split_and!; [done| |congruence|].
  - split; simpl; [by destruct Hsz|constructor; [done|exact Hf]|lia|].
    replace (end_ b - (pos b - (size1 b + size2 b))) with (size1 b + (size2 b + (end_ b - pos b))) by lia.
    rewrite slice_app, D2 by lia.
    replace (pos b - (size1 b + size2 b) + size1 b) with (pos b - size2 b) by lia.
    rewrite slice_app by lia. replace (pos b - size2 b + size2 b) with (pos b) by lia.
    rewrite !O2, D1, D1', Hd by lia. unfold flat. by rewrite <- app_assoc.
  - intros i Hi Ho. rewrite I2 by lia. by apply I1.
Qed.

Lemma bwd_read dbug T b e els : bwd_stack T b (e :: els) →
  ∃ p2, Backward.read_at dbug b (pos b) = Some (Some (pos b, p2, pos b + (size1 b + size2 b))) ∧
    fetched T b (pos b) p2 = e ∧ bwd_stack T (set_pos b (pos b + (size1 b + size2 b))) els.
Proof.
  intros [Hsz Hf (S1 & S2 & S3 & S4) Hd]. apply Forall_cons in Hf as [Fe Hf].
  pose proof (elem_size_ok b Hsz) as [Es El]. pose proof Hsz as [Z1 Z2 Z3 Z4]. simpl in Hd.
  assert (size1 b + size2 b ≤ end_ b - pos b) as Hlen.
  { rewrite <- (slice_length T (pos b) (end_ b - pos b)) by lia. rewrite Hd, length_app.
    unfold flat. rewrite length_app. destruct Fe. lia. }
  set (p' := pos b + (size1 b + size2 b)).
  replace (end_ b - pos b) with ((size1 b + size2 b) + (end_ b - p')) in Hd by (unfold p'; lia).
  rewrite slice_app in Hd by (unfold p'; lia).
  apply app_inj_1 in Hd as [Hd1 Hd2].
  2: { apply Nat2Z.inj. rewrite slice_length by lia. unfold flat. rewrite length_app. destruct Fe. lia. }
  destruct (flat_parts T (pos b) b e) as [Q1 Q2]; [done|lia|done|done|done|].
  assert (∀ p n, 0 ≤ n < 2 ^ 63 → n ≤ end_ b - p → Backward.have_data b p n = true) as Hhd.
  { intros p n Hn Hp. unfold Backward.have_data. rewrite to_longlong_id by lia. by apply Z.leb_le. }
  unfold Backward.read_at. unfold Backward.have_data at 1. rewrite El, (proj2 (Z.leb_le _ _)) by done. cbn [negb].
  assert (bwd_stack T (set_pos b p') els) as Hst.
  { split; simpl; [by destruct Hsz|done|unfold p'; lia|]. exact Hd2. }
  unfold Backward.read_bytes, check. rewrite Hhd, orb_true_r by lia. simpl.
  destruct (truth (size2 b)) eqn:Et.
  - rewrite Hhd, orb_true_r by lia. simpl. exists (Some (pos b + size1 b)).
    replace (pos b + size1 b + size2 b) with p' by (unfold p'; lia).
    split_and!; [done| |done]. unfold fetched. rewrite Q1, Q2. by destruct e.
  - apply truth_false in Et. exists None. replace (pos b + size1 b) with p' by (unfold p'; lia).
    split_and!; [done| |done]. unfold fetched. rewrite Q1. destruct e as [e1 e2], Fe as [_ F2]. simpl in *.
    f_equal. symmetry. apply nil_length_inv. lia.
Qed.

Lemma bwd_eof dbug T b : bwd_stack T b [] → Backward.read_at dbug b (pos b) = Some None.
Proof.
  intros [Hsz _ (S1 & S2 & S3 & S4) Hd]. pose proof (elem_size_ok b Hsz) as [_ El]. destruct Hsz.
  assert (end_ b - pos b = 0) by (rewrite <- (slice_length T (pos b) (end_ b - pos b)), Hd by lia; done).
  unfold Backward.read_at, Backward.have_data. rewrite El, (proj2 (Z.leb_gt _ _)) by lia. done.
Qed.

(** *** Instances *)

Lemma forward_laws : @LifoLaws forward_ops.
Proof.
  refine {| stack := fwd_stack |}.
  - intros T b els Hs. apply Hs.
  - intros dbug T b els e Hs Hf Hc. destruct (fwd_write dbug T b els e Hs Hf Hc) as (T' & E & Hs' & Hl & Ho).
    by exists T', (set_pos b (pos b + (size1 b + size2 b))).
  - intros dbug T b e els Hs. destruct (fwd_read dbug T b e els Hs) as (p1 & p2 & E & Hf & Hs').
    exists p1, p2, (set_pos b p1). unfold l_read. simpl. rewrite E. done.
  - intros dbug T b Hs. unfold l_read. simpl. by rewrite (fwd_eof dbug T b Hs).
Defined.

Lemma backward_laws : @LifoLaws backward_ops.
Proof.
  refine {| stack := bwd_stack |}.
  - intros T b els Hs. apply Hs.
  - intros dbug T b els e Hs Hf Hc. destruct (bwd_write dbug T b els e Hs Hf Hc) as (T' & E & Hs' & Hl & Ho).
    by exists T', (set_pos b (pos b - (size1 b + size2 b))).
  - intros dbug T b e els Hs. destruct (bwd_read dbug T b e els Hs) as (p2 & E & Hf & Hs').
    exists (pos b), p2, (set_pos b (pos b + (size1 b + size2 b))). unfold l_read. simpl. rewrite E. done.
  - intros dbug T b Hs. unfold l_read. simpl. by rewrite (bwd_eof dbug T b Hs).
Defined.

(** ** Users of a buffer, against the contract *)
Section Client.
Context {LO : LifoOps} {LL : LifoLaws}.

(** Writes elements for as long as the buffer announces room; returns what was
    not written. *)
Fixpoint write_all (dbug : bool) (T : list Z) (b : lifo) (es : list element)
  : option (list Z * lifo * list element) :=
  match es with
  | [] => Some (T, b, [])
  | e :: r => if l_can_write b then '(T, b) ← l_write dbug T b e; write_all dbug T b r
              else Some (T, b, es)
  end.

(** Reads to the end of the data, and collects what is handed out. *)
Fixpoint read_all (fuel : nat) (dbug : bool) (T : list Z) (b : lifo) : option (list element) :=
  match fuel with
  | O => None
  | S fuel =>
      r ← l_read dbug b;
      match r with
      | None => Some []
      | Some (p1, p2, b') => rest ← read_all fuel dbug T b'; Some (fetched T b p1 p2 :: rest)
      end
  end.

Lemma fits_same b b' e : same_space b b' → fits b e → fits b' e.
Proof. unfold fits. intros (-> & -> & _) H. exact H. Qed.

Lemma write_all_ok dbug es : ∀ T b els, stack T b els → Forall (fits b) es →
  ∃ T' b' done rest, write_all dbug T b es = Some (T', b', rest) ∧ es = done ++ rest ∧
    stack T' b' (rev done ++ els) ∧ same_space b b' ∧ (rest ≠ [] → l_can_write b' = false) ∧
    length T' = length T ∧
    (∀ i, 0 ≤ i → i < start b ∨ end_ b ≤ i → T' !! Z.to_nat i = T !! Z.to_nat i).
Proof.
  induction es as [|e es IH]; intros T b els Hs Hf; simpl.
  { by exists T, b, [], []. }
  apply Forall_cons in Hf as [Fe Hf]. destruct (l_can_write b) eqn:Ec.
  2: { by exists T, b, [], (e :: es). }
  destruct (stack_write dbug T b els e Hs Fe Ec) as (T1 & b1 & E1 & S1 & Sp & L1 & O1). rewrite E1. simpl.
  destruct (IH T1 b1 (e :: els) S1) as (T2 & b2 & dn & rest & E2 & -> & S2 & Sp2 & Hr & L2 & O2).
  { eapply Forall_impl; [exact Hf|]. intros x Hx. by eapply fits_same. }
  exists T2, b2, (e :: dn), rest. destruct Sp as (Q1 & Q2 & Q3 & Q4), Sp2 as (Q1' & Q2' & Q3' & Q4').
  split_and!; [done|done| |split_and!; congruence|done|congruence|].
  - simpl. by rewrite <- app_assoc.
  - intros i Hi Ho. rewrite O2, O1 by (rewrite ?Q3, ?Q4; lia). done.
Qed.

Lemma read_all_ok dbug T els : ∀ b fuel, stack T b els → (length els < fuel)%nat →
  read_all fuel dbug T b = Some els.
Proof.
  induction els as [|e els IH]; intros b [|fuel] Hs Hf; simpl in Hf; try lia; cbn [read_all].
  - by rewrite stack_eof with (T := T).
  - destruct (stack_read dbug T b e els Hs) as (p1 & p2 & b' & E & Hfe & Hs' & Sp). rewrite E. simpl.
    rewrite IH by (done || lia). simpl. by rewrite Hfe.
Qed.

End Client.

(** ** Main results *)

(** last in, first out, for both buffer classes: writing elements while
    [can_write()] holds writes a prefix of them, never outside the buffer's
    space and never failing an assertion; reading until the end then returns
    the written elements, byte for byte, in reverse order, followed by what
    was in the buffer before, and terminates. *)
Theorem lifo_write_read {LO : LifoOps} {LL : @LifoLaws LO} dbug T b els es :
  stack T b els → Forall (fits b) es →
  ∃ T' b' written rest, write_all dbug T b es = Some (T', b', rest) ∧ es = written ++ rest ∧
    (rest ≠ [] → l_can_write b' = false) ∧
    (∀ fuel, (length written + length els < fuel)%nat →
       read_all fuel dbug T' b' = Some (rev written ++ els)) ∧
    (∀ i, 0 ≤ i → i < start b ∨ end_ b ≤ i → T' !! Z.to_nat i = T !! Z.to_nat i).
Proof.
  intros Hs Hf. destruct (write_all_ok dbug es T b els Hs Hf)
    as (T' & b' & wr & rest & E & -> & S' & _ & Hr & _ & Ho).
  exists T', b', wr, rest. split_and!; [done|done|done| |done].
  intros fuel Hfu. apply read_all_ok; [done|]. rewrite length_app, length_rev. done.
Qed.

(** 20 bytes; elements of 2 + 1 bytes. *)
Definition fwd_sample : lifo := Lifo 2 1 4 14 4.
Definition bwd_sample : lifo := Lifo 2 1 14 20 20.
Definition mem_sample : list Z := replicate 20 0.

Lemma fwd_sample_stack : fwd_stack mem_sample fwd_sample [].
Proof. split; [split; simpl; lia|constructor|simpl; lia|reflexivity]. Qed.
Lemma bwd_sample_stack : bwd_stack mem_sample bwd_sample [].
Proof. split; [split; simpl; lia|constructor|simpl; lia|reflexivity]. Qed.

Lemma lifo_write_read_witness :
  ∃ T' b', @write_all backward_ops true mem_sample bwd_sample [([1; 2], [3]); ([4; 5], [6])]
      = Some (T', b', []) ∧
    @read_all backward_ops 3 true T' b' = Some [([4; 5], [6]); ([1; 2], [3])].
Proof.
  destruct (@lifo_write_read backward_ops backward_laws true mem_sample bwd_sample []
    [([1; 2], [3]); ([4; 5], [6])] bwd_sample_stack) as (T' & b' & wr & rest & H1 & H2 & H3 & H4 & _).
  { repeat constructor. }
  assert (rest = []) as ->.
  { vm_compute in H1. injection H1 as _ _ <-. reflexivity. }
  rewrite app_nil_r in H2. subst wr. exists T', b'. split; [exact H1|]. apply (H4 3%nat). simpl. lia.
Defined.

(** sharing a space: when a backward buffer that lies right above a forward
    one gives up its unused space and the forward one grows into it, both keep
    their contents, their spaces are adjacent again, and what is then written
    to the forward buffer does not touch the backward one's data. *)
Theorem lifo_share_space dbug T f k els els' e : fwd_stack T f els → bwd_stack T k els' →
  end_ f = start k →
  let '(unused_start, unused_end, k') := Backward.remove_unused_space k in
  bwd_stack T k' els' ∧
  ∃ f', Forward.grow dbug f unused_start unused_end = Some f' ∧ fwd_stack T f' els ∧
    end_ f' = start k' ∧
    (fits f' e → Forward.can_write f' = true →
     ∃ T' f'', Forward.write dbug T f' e.1 e.2 = Some (T', f'') ∧ fwd_stack T' f'' (e :: els) ∧
       bwd_stack T' k' els').
Proof.
  intros [F1 F2 F3 F4] [K1 K2 K3 K4] Hadj. simpl.
  assert (bwd_stack T (Lifo (size1 k) (size2 k) (pos k) (end_ k) (pos k)) els') as Hk.
  { split; simpl; [by destruct K1|done|lia|done]. }
  split; [done|]. unfold Forward.grow, check.
  rewrite (proj2 (Z.leb_le (start k) (pos k))), orb_true_r by lia. simpl.
  rewrite (proj2 (Z.eqb_eq _ _) Hadj), orb_true_r. simpl. eexists. split; [reflexivity|].
  assert (fwd_stack T (Lifo (size1 f) (size2 f) (start f) (pos k) (pos f)) els) as Hf.
  { split; simpl; [by destruct F1|done|lia|done]. }
  split_and!; [done|done|]. intros He Hc.
  destruct (fwd_write dbug T _ els e Hf He Hc) as (T' & E & Hs & Hl & Ho). simpl in *.
  exists T'. eexists. split_and!; [exact E|exact Hs|]. split; simpl; [by destruct K1|done|lia|].
  rewrite <- K4. apply list_eq. intros i. rewrite !slice_lookup by lia.
  case_decide; [|done]. apply Ho; lia.
Qed.

Lemma lifo_share_space_witness :
  ∃ f', Forward.grow true fwd_sample 14 20 = Some f' ∧
    fwd_stack mem_sample f' [] ∧ end_ f' = 20.
Proof.
  destruct (lifo_share_space true mem_sample fwd_sample bwd_sample [] [] ([], [])
    fwd_sample_stack bwd_sample_stack eq_refl) as (_ & f' & H1 & H2 & H3 & _).
  exists f'. split_and!; [exact H1|exact H2|exact H3].
Defined.

(** The forward buffer refuses an element that exactly fills its space (it asks
    for one byte more than the element), the backward buffer accepts it. *)
Theorem lifo_exact_fit b : sizes_ok b →
  (end_ b - pos b = size1 b + size2 b → Forward.can_write b = false) ∧
  (pos b - start b = size1 b + size2 b → Backward.can_write b = true).
Proof.
  intros Hsz. destruct (elem_size_ok b Hsz) as [Es _].
  unfold Forward.can_write, Forward.have_space_for, Backward.can_write, Backward.have_space_for.
  rewrite Es. split; intros H; [apply Z.ltb_ge|apply Z.leb_le]; lia.
Qed.
