(* ===== verification/HashFilo.v ===== *)
(** [hash_filo.h], [class hash_filo]: a bounded cache, a hash table whose
    entries are also chained in the order of their last use, so that adding to
    a full cache drops the entry used longest ago.  The hash table [HASH] and
    its functions [my_hash_search], [my_hash_insert], [my_hash_delete],
    [my_hash_init], [my_hash_free] are code of another library: they are
    parameters, with what they promise as hypotheses.  The mutex is a state of
    the cache, and each operation runs in one thread. *)
From S2P Require Import Prelude CMonad IList.

(** ** State *)

(** [hash_filo_element]: two links, [next_used] and [prev_used]. *)
Definition hash_filo_element : Type := ilist_node.
Definition next_used (e : hash_filo_element) : N := next e.
Definition prev_used (e : hash_filo_element) : N := prev e.

(** The functions of [HASH] that the cache calls.  [my_hash_search] returns the
    record, 0 when there is none; [my_hash_insert] says whether it failed;
    [my_hash_init] is given the initial size. *)
Class HashTable (H K : Type) := {
  my_hash_search : H → K → N;
  my_hash_insert : H → N → bool * H;
  my_hash_delete : H → N → H;
  my_hash_free : H → H;
  my_hash_init : H → Z → H;
  records : H → Z }.

(** What they promise, in terms of the set of records held and the key of a
    record. *)
Class HashLaws (H K : Type) `{HashTable H K} := {
  contents : H → gset N;
  key_of : N → K;
  search_found : ∀ h k, my_hash_search h k ≠ 0%N →
    my_hash_search h k ∈ contents h ∧ key_of (my_hash_search h k) = k;
  search_none : ∀ h k, my_hash_search h k = 0%N → ∀ e, e ∈ contents h → key_of e ≠ k;
  insert_ok : ∀ h e h', my_hash_insert h e = (false, h') → contents h' = {[e]} ∪ contents h;
  insert_err : ∀ h e h', my_hash_insert h e = (true, h') → contents h' = contents h;
  delete_ok : ∀ h e, e ∈ contents h → contents (my_hash_delete h e) = contents h ∖ {[e]};
  records_ok : ∀ h, records h = Z.of_nat (size (contents h));
  init_ok : ∀ h n, contents (my_hash_init (my_hash_free h) n) = ∅ }.

Section Filo.
Context {H K : Type} {HT : HashTable H K}.

(** The members of the cache, with the links of the elements.  [has_free] says
    whether [free_element] is set and [freed] collects the entries [add] gives
    to it.  [lock] is the mutex: not initialised, free or held. *)
Inductive mutex := MutexRaw | MutexFree | MutexHeld.

Record hash_filo := Filo {
  links : gmap N hash_filo_element;
  first_link : N;
  last_link : N;
  cache : H;
  m_size : Z;
  has_free : bool;
  freed : list N;
  init : bool;
  lock : mutex }.

Definition with_links (s : hash_filo) (h : gmap N hash_filo_element) : hash_filo :=
  Filo h (first_link s) (last_link s) (cache s) (m_size s) (has_free s) (freed s) (init s) (lock s).
Definition with_lock (s : hash_filo) (b : bool) (l : mutex) : hash_filo :=
  Filo (links s) (first_link s) (last_link s) (cache s) (m_size s) (has_free s) (freed s) b l.

Definition get_el (n : N) : M hash_filo hash_filo_element := gets_opt (λ s, links s !! n).
Definition put_el (n : N) (v : hash_filo_element) : M hash_filo unit :=
  modify (λ s, with_links s (<[n := v]> (links s))).
Definition set_next_used (n v : N) : M hash_filo unit := k <- get_el n ;; put_el n (LNode v (prev_used k)).
Definition set_prev_used (n v : N) : M hash_filo unit := k <- get_el n ;; put_el n (LNode (next_used k) v).
Definition set_first_link (v : N) : M hash_filo unit :=
  modify (λ s, Filo (links s) v (last_link s) (cache s) (m_size s) (has_free s) (freed s) (init s) (lock s)).
Definition set_last_link (v : N) : M hash_filo unit :=
  modify (λ s, Filo (links s) (first_link s) v (cache s) (m_size s) (has_free s) (freed s) (init s) (lock s)).
Definition set_cache (h : H) : M hash_filo unit :=
  modify (λ s, Filo (links s) (first_link s) (last_link s) h (m_size s) (has_free s) (freed s) (init s) (lock s)).
Definition set_size (n : Z) : M hash_filo unit :=
  modify (λ s, Filo (links s) (first_link s) (last_link s) (cache s) n (has_free s) (freed s) (init s) (lock s)).
Definition free_element (n : N) : M hash_filo unit :=
  modify (λ s, Filo (links s) (first_link s) (last_link s) (cache s) (m_size s) (has_free s) (n :: freed s) (init s) (lock s)).

(** Locking a mutex that is not initialised is undefined, and so is locking one
    the thread holds or unlocking one it does not. *)
Definition mysql_mutex_lock : M hash_filo unit :=
  l <- gets lock ;;
  match l with MutexFree => modify (λ s, with_lock s (init s) MutexHeld) | _ => ub end.
Definition mysql_mutex_unlock : M hash_filo unit :=
  l <- gets lock ;;
  match l with MutexHeld => modify (λ s, with_lock s (init s) MutexFree) | _ => ub end.
(** An assertion of debug builds. *)
Definition mysql_mutex_assert_owner (dbug : bool) : M hash_filo unit :=
  l <- gets lock ;;
  assert_that (negb dbug || match l with MutexHeld => true | _ => false end).

(** ** Operations *)

(** The constructor; [zero] is the zeroed [HASH]. *)
Definition ctor (h : gmap N hash_filo_element) (zero : H) (size_arg : Z) (free_arg : bool) : hash_filo :=
  Filo h 0 0 zero size_arg free_arg [] false MutexRaw.

Definition clear (locked : bool) : M hash_filo unit :=
  i <- gets init ;;
  (if negb i then modify (λ s, with_lock s true MutexFree) else ret tt) ;;
  (if negb locked then mysql_mutex_lock else ret tt) ;;
  set_first_link 0 ;;
  set_last_link 0 ;;
  s <- gets id ;;
  set_cache (my_hash_free (cache s)) ;;
  s <- gets id ;;
  set_cache (my_hash_init (cache s) (m_size s)) ;;
  if negb locked then mysql_mutex_unlock else ret tt.

Definition first (dbug : bool) : M hash_filo N := mysql_mutex_assert_owner dbug ;; gets first_link.
Definition last (dbug : bool) : M hash_filo N := mysql_mutex_assert_owner dbug ;; gets last_link.

(** The relinking of [search]: [entry] is in the chain and not its first. *)
Definition relink (dbug : bool) (entry : N) : M hash_filo unit :=
  s <- gets id ;;
  (if (entry =? last_link s)%N then
     l <- get_el (last_link s) ;;
     set_last_link (prev_used l) ;;
     assert_that (negb dbug || negb (prev_used l =? 0)%N) ;;
     set_next_used (prev_used l) 0
   else
     k <- get_el entry ;;
     assert_that (negb dbug || negb (next_used k =? 0)%N) ;;
     assert_that (negb dbug || negb (prev_used k =? 0)%N) ;;
     set_prev_used (next_used k) (prev_used k) ;;
     k <- get_el entry ;;
     set_next_used (prev_used k) (next_used k)) ;;
  set_prev_used entry 0 ;;
  set_next_used entry (first_link s) ;;
  set_prev_used (first_link s) entry ;;
  set_first_link entry.

Definition search (dbug : bool) (key : K) : M hash_filo N :=
  mysql_mutex_assert_owner dbug ;;
  s <- gets id ;;
  let entry := my_hash_search (cache s) key in
  if negb (entry =? 0)%N then
    assert_that (negb dbug || negb (first_link s =? 0)%N) ;;
    assert_that (negb dbug || negb (last_link s =? 0)%N) ;;
    (if negb (entry =? first_link s)%N then relink dbug entry else ret tt) ;;
    ret entry
  else ret entry.

(** The part of [add] that drops the entry used longest ago. *)
Definition evict : M hash_filo unit :=
  tmp <- gets last_link ;;
  t <- get_el tmp ;;
  set_last_link (prev_used t) ;;
  (if negb (prev_used t =? 0)%N then set_next_used (prev_used t) 0 else set_first_link 0) ;;
  s <- gets id ;;
  set_cache (my_hash_delete (cache s) tmp).

(** The part of [add] that links the entry. *)
Definition link_entry (entry : N) : M hash_filo unit :=
  f <- gets first_link ;;
  set_prev_used entry 0 ;;
  set_next_used entry f ;;
  (if negb (f =? 0)%N then set_prev_used f entry else set_last_link entry) ;;
  set_first_link entry.

(** [add]: returns 1 when the entry was not added. *)
Definition add (entry : N) : M hash_filo bool :=
  s <- gets id ;;
  if m_size s =? 0 then ret true else
  (if records (cache s) =? m_size s then evict else ret tt) ;;
  s <- gets id ;;
  let r := my_hash_insert (cache s) entry in
  set_cache (snd r) ;;
  if fst r : bool then
    (if has_free s then free_element entry else ret tt) ;; ret true
  else
    link_entry entry ;; ret false.

Definition resize (new_size : Z) : M hash_filo unit :=
  mysql_mutex_lock ;; set_size new_size ;; clear true ;; mysql_mutex_unlock.

(** ** Specification: the entries by last use *)

Context {HL : HashLaws H K}.

(** [ns] are the entries, the most recently used first. *)
Record lru (s : hash_filo) (ns : list N) : Prop := {
  lru_first : first_link s = hdn ns 0;
  lru_last : last_link s = lastn 0 ns;
  lru_links : dl (links s) 0 ns 0;
  lru_nodup : NoDup ns;
  lru_null : 0%N ∉ ns;
  lru_cache : contents (cache s) = list_to_set ns;
  lru_size : Z.of_nat (length ns) ≤ m_size s }.

(** What both states have in common when only the chain of the entries [ns] was
    changed: everything but the links of those entries and the two ends. *)
Record same_but_chain (ns : list N) (s s' : hash_filo) : Prop := {
  same_size : m_size s' = m_size s;
  same_has_free : has_free s' = has_free s;
  same_init : init s' = init s;
  same_lock : lock s' = lock s;
  same_links : ∀ n, n ∉ ns → links s' !! n = links s !! n }.

(** *** Lemmas *)

Lemma same_but_chain_trans ns1 ns2 ns s1 s2 s3 : ns1 ⊆ ns → ns2 ⊆ ns →
  same_but_chain ns1 s1 s2 → same_but_chain ns2 s2 s3 → same_but_chain ns s1 s3.
Proof.
  intros S1 S2 [? ? ? ? L1] [? ? ? ? L2]. split; try congruence.
  intros n Hn. rewrite L2, L1 by (intros Hi; apply Hn; auto). done.
Qed.

Lemma dl_set_last h p a l e v : dl h p (a ++ [l]) e → NoDup (a ++ [l]) →
  dl (<[l := LNode v (lastn p a)]> h) p (a ++ [l]) v.
Proof.
  intros Hd Hn. apply dl_app in Hd as [Ha _]. apply NoDup_app in Hn as (_ & Hn & _).
  apply dl_app. simpl. split_and!; [|apply lookup_insert_eq|done].
  apply (dl_agree h); [|done]. intros n Hi. apply lookup_insert_ne. intros ->.
  apply (Hn n Hi). by left.
Qed.

Lemma dl_set_prev h p p' y b e : dl h p (y :: b) e → NoDup (y :: b) →
  dl (<[y := LNode (hdn b e) p']> h) p' (y :: b) e.
Proof.
  intros [Hy Hd] Hn. apply NoDup_cons in Hn as [Hn _]. split; [apply lookup_insert_eq|].
  apply (dl_agree h); [|done]. intros n Hi. apply lookup_insert_ne. by intros ->.
Qed.

Lemma dl_frame h p a e n v : dl h p a e → n ∉ a → dl (<[n := v]> h) p a e.
Proof. intros Hd Hn. apply (dl_agree h); [|done]. intros y Hy. apply lookup_insert_ne. by intros ->. Qed.

Lemma get_link_ok s n k {A} (f : hash_filo_element → M hash_filo A) :
  links s !! n = Some k → bind (get_el n) f s = f k s.
Proof. intros E. apply bind_ok. by apply gets_opt_ok. Qed.

Lemma set_next_used_ok s n k v : links s !! n = Some k →
  set_next_used n v s = Some (tt, with_links s (<[n := LNode v (prev k)]> (links s))).
Proof. intros E. unfold set_next_used. by rewrite (get_link_ok _ _ _ _ E). Qed.
Lemma set_prev_used_ok s n k v : links s !! n = Some k →
  set_prev_used n v s = Some (tt, with_links s (<[n := LNode (next k) v]> (links s))).
Proof. intros E. unfold set_prev_used. by rewrite (get_link_ok _ _ _ _ E). Qed.

Lemma nonzero (ns : list N) n : 0%N ∉ ns → n ∈ ns → (n =? 0)%N = false.
Proof. intros H0 Hn. apply N.eqb_neq. intros ->. done. Qed.

Lemma lastn_in_list p (a : list N) : a ≠ [] → lastn p a ∈ a.
Proof.
  intros Ha. destruct a as [|n a] using rev_ind; [done|]. rewrite lastn_app. simpl.
  apply elem_of_app. right. by left.
Qed.

(** Making [entry] the first of the chain, when it is linked nowhere. *)
Lemma dl_link_first h entry ns k : dl h 0 ns 0 → NoDup ns → entry ∉ ns → h !! entry = Some k →
  dl (match ns with
      | [] => <[entry := LNode 0 0]> h
      | y :: b => <[y := LNode (hdn b 0) entry]> (<[entry := LNode y 0]> h)
      end) 0 (entry :: ns) 0.
Proof.
  intros Hd Hnd He Hk. destruct ns as [|y b].
  - split; [apply lookup_insert_eq|done].
  - apply not_elem_of_cons in He as [Hey Heb]. split.
    + rewrite lookup_insert_ne by done. apply lookup_insert_eq.
    + apply (dl_set_prev _ 0 entry y b 0); [|done]. apply dl_frame; [done|by rewrite not_elem_of_cons].
Qed.

(** Taking [e] out of the chain [a ++ e :: b], where [a] is not empty. *)
Lemma dl_remove h a l e b : dl h 0 ((a ++ [l]) ++ e :: b) 0 → NoDup ((a ++ [l]) ++ e :: b) →
  h !! e = Some (LNode (hdn b 0) l) ∧
  dl (match b with
      | [] => <[l := LNode 0 (lastn 0 a)]> h
      | y :: b' => <[l := LNode y (lastn 0 a)]> (<[y := LNode (hdn b' 0) l]> h)
      end) 0 ((a ++ [l]) ++ b) 0.
Proof.
  intros Hd Hn. apply dl_app in Hd as [Ha [He Hb]]. rewrite lastn_app in He. simpl lastn in He.
  split; [done|]. apply NoDup_app in Hn as (Na & Hx & Hb'). apply NoDup_cons in Hb' as [Heb Nb].
  destruct b as [|y b].
  - rewrite app_nil_r. by eapply dl_set_last.
  - apply dl_app. rewrite lastn_app. simpl hdn. simpl lastn.
    assert (y ∉ a ++ [l]) as Hy by (intros Hy; apply (Hx y Hy); right; by left).
    assert (l ∉ y :: b) as Hl.
    { intros Hl. apply (Hx l); [apply elem_of_app; right; by left|by right]. }
    split.
    + eapply dl_set_last; [|done]. by apply dl_frame.
    + apply dl_frame; [|done]. by eapply dl_set_prev.
Qed.

(** A lookup in the middle of a chain. *)
Lemma dl_at h p a n b e : dl h p (a ++ n :: b) e → h !! n = Some (LNode (hdn b e) (lastn p a)).
Proof. intros Hd. by apply dl_app in Hd as [_ [Hn _]]. Qed.

Lemma push_first_ok s e y r k : dl (links s) 0 (y :: r) 0 → e ≠ y → links s !! e = Some k →
  (set_prev_used e 0 ;; set_next_used e y ;; set_prev_used y e ;; set_first_link e) s
  = Some (tt, Filo (<[y := LNode (hdn r 0) e]> (<[e := LNode y 0]> (links s))) e (last_link s)
                   (cache s) (m_size s) (has_free s) (freed s) (init s) (lock s)).
Proof.
  intros [Hy _] Hey Hk.
  erewrite bind_ok by (by eapply set_prev_used_ok).
  erewrite bind_ok by (eapply set_next_used_ok; apply lookup_insert_eq). simpl links.
  rewrite insert_insert_eq.
  erewrite bind_ok by (eapply set_prev_used_ok; simpl links; rewrite lookup_insert_ne by done; exact Hy).
  done.
Qed.

(** The unlinking half of [relink]: [e] is taken out of the chain. *)
Lemma relink_unlink_ok s dbug a l e b (ns := (a ++ [l]) ++ e :: b) :
  dl (links s) 0 ns 0 → NoDup ns → 0%N ∉ ns → last_link s = lastn 0 ns →
  ∃ h k, (if (e =? last_link s)%N then
     l <- get_el (last_link s) ;;
     set_last_link (prev_used l) ;;
     assert_that (negb dbug || negb (prev_used l =? 0)%N) ;;
     set_next_used (prev_used l) 0
   else
     k <- get_el e ;;
     assert_that (negb dbug || negb (next_used k =? 0)%N) ;;
     assert_that (negb dbug || negb (prev_used k =? 0)%N) ;;
     set_prev_used (next_used k) (prev_used k) ;;
     k <- get_el e ;;
     set_next_used (prev_used k) (next_used k)) s
   = Some (tt, Filo h (first_link s) (lastn l b) (cache s) (m_size s) (has_free s) (freed s) (init s) (lock s)) ∧
   dl h 0 ((a ++ [l]) ++ b) 0 ∧ h !! e = Some k ∧ ∀ n, n ∉ ns → h !! n = links s !! n.
Proof.
  intros Hd Hn H0 Hl. destruct (dl_remove _ _ _ _ _ Hd Hn) as [He Hr].
  assert (links s !! l = Some (LNode e (lastn 0 a))) as El.
  { apply (dl_at _ _ a l (e :: b) 0). unfold ns in Hd. by rewrite <- app_assoc in Hd. }
  assert ((l =? 0)%N = false) as Hl0 by (apply (nonzero ns); [done|]; apply elem_of_app; left; apply elem_of_app; right; by left).
  rewrite Hl. subst ns. rewrite lastn_app. simpl lastn.
  apply NoDup_app in Hn as (_ & Hx & Hb). apply NoDup_cons in Hb as [Heb _].
  assert (e ≠ l) as Hel by (intros ->; apply (Hx l); [apply elem_of_app; right; by left|by left]).
  destruct b as [|y b].
  - simpl lastn. rewrite N.eqb_refl, (get_link_ok _ _ _ _ He). unfold prev_used at 1 2 3. cbn [prev].
    erewrite bind_ok by reflexivity. rewrite Hl0, orb_true_r. erewrite bind_ok by reflexivity.
    erewrite set_next_used_ok by exact El. eexists _, _. split; [reflexivity|]. simpl links.
    split; [done|]. split; [by rewrite lookup_insert_ne|].
    intros n Hn. rewrite lookup_insert_ne; [done|]. intros ->. apply Hn. set_solver.
  - assert (lastn e (y :: b) ≠ e) as Hne by (intros Heq; apply Heb; rewrite <- Heq at 1; by apply lastn_in_list).
    rewrite (proj2 (N.eqb_neq _ _)) by done. rewrite (get_link_ok _ _ _ _ He).
    unfold next_used, prev_used. cbn [next prev hdn].
    assert ((y =? 0)%N = false) as Hy0 by (apply (nonzero ((a ++ [l]) ++ e :: y :: b)); [done|]; apply elem_of_app; right; right; by left).
    rewrite Hl0, Hy0, !orb_true_r. do 2 erewrite bind_ok by reflexivity.
    assert (e ≠ y) as Hey by (intros ->; apply Heb; by left).
    assert (l ≠ y) as Hly by (intros ->; apply (Hx y); [apply elem_of_app; right; by left|right; by left]).
    assert (links s !! y = Some (LNode (hdn b 0) e)) as Ey.
    { rewrite (dl_at _ 0 ((a ++ [l]) ++ [e]) y b 0); [by rewrite lastn_app|]. by rewrite <- app_assoc. }
    erewrite bind_ok by (by eapply set_prev_used_ok). cbn [next].
    erewrite get_link_ok by (simpl links; rewrite lookup_insert_ne by done; exact He). cbn [next prev hdn].
    erewrite set_next_used_ok by (simpl links; rewrite lookup_insert_ne by done; exact El). cbn [prev].
    eexists _, _. split; [unfold with_links; cbn; rewrite Hl, !lastn_app; reflexivity|]. split; [exact Hr|]. simpl links. split; [by rewrite !lookup_insert_ne|].
    intros n Hn. rewrite !lookup_insert_ne; [done|intros ->; apply Hn; set_solver..].
Qed.

(** [relink] moves an entry that is not the first to the front. *)
Lemma relink_ok s dbug a l e b (ns := (a ++ [l]) ++ e :: b) :
  dl (links s) 0 ns 0 → NoDup ns → 0%N ∉ ns → first_link s = hdn ns 0 → last_link s = lastn 0 ns →
  ∃ h, relink dbug e s = Some (tt, Filo h e (lastn e ((a ++ [l]) ++ b)) (cache s) (m_size s)
                                        (has_free s) (freed s) (init s) (lock s)) ∧
    dl h 0 (e :: (a ++ [l]) ++ b) 0 ∧ ∀ n, n ∉ ns → h !! n = links s !! n.
Proof.
  intros Hd Hn H0 Hf Hl.
  assert (NoDup (e :: (a ++ [l]) ++ b)) as Hn' by (by rewrite Permutation_middle).
  apply NoDup_cons in Hn' as [He Hn'].
  destruct (relink_unlink_ok s dbug a l e b Hd Hn H0 Hl) as (h & k & E & Hh & Hk & Hfr).
  unfold relink. erewrite bind_ok by reflexivity. unfold id. erewrite bind_ok by exact E.
  rewrite Hf. subst ns.
  assert (∃ y r, (a ++ [l]) ++ b = y :: r ∧ hdn ((a ++ [l]) ++ e :: b) 0%N = y) as (y & r & Er & Ey).
  { destruct a as [|y a]; by eexists _, _. }
  rewrite Er in *. rewrite Ey. apply not_elem_of_cons in He as Hey. destruct Hey as [Hey _].
  erewrite push_first_ok; [|simpl links; exact Hh|done|exact Hk].
  eexists. split; [|split; [by eapply (dl_link_first _ _ (y :: r))|]].
  - assert (lastn l b = lastn e (y :: r)) as Hlast by (rewrite <- Er, !lastn_app; done).
    cbn -[lastn]. by rewrite Hlast.
  - assert (y ∈ (a ++ [l]) ++ b) as Hy by (rewrite Er; by left).
    intros n Hnn. cbn [links]. rewrite !lookup_insert_ne; [by apply Hfr|intros ->; apply Hnn; set_solver..].
Qed.

(** *** The operations on the entries by last use *)

Lemma lru_in s ns e : lru s ns → e ∈ contents (cache s) ↔ e ∈ ns.
Proof. intros L. by rewrite (lru_cache _ _ L), elem_of_list_to_set. Qed.

Lemma lru_records s ns : lru s ns → records (cache s) = Z.of_nat (length ns).
Proof. intros L. rewrite records_ok, (lru_cache _ _ L), size_list_to_set; [done|apply (lru_nodup _ _ L)]. Qed.

(** The mutex is held, or the build does not test it. *)
Definition owner (dbug : bool) (s : hash_filo) : Prop := dbug = false ∨ lock s = MutexHeld.

Lemma owner_ok dbug s : owner dbug s → mysql_mutex_assert_owner dbug s = Some (tt, s).
Proof.
  unfold mysql_mutex_assert_owner. intros [->|E]; [done|]. erewrite bind_ok by reflexivity.
  rewrite E. by destruct dbug.
Qed.

(** A hit moves the entry to the front; a miss changes nothing. *)
Lemma search_hit_ok s dbug ns key e : lru s ns → owner dbug s → my_hash_search (cache s) key = e → e ≠ 0%N →
  ∃ a b s', ns = a ++ e :: b ∧ key_of e = key ∧ search dbug key s = Some (e, s') ∧
    lru s' (e :: a ++ b) ∧ cache s' = cache s ∧ freed s' = freed s ∧ same_but_chain ns s s'.
Proof.
  intros L Ho <- Hz. destruct (search_found _ _ Hz) as [Hin Hkey].
  set (e := my_hash_search (cache s) key) in *.
  apply (lru_in _ _ _ L) in Hin. apply list_elem_of_split in Hin as (a & b & ->). exists a, b.
  unfold search. erewrite bind_ok by (by apply owner_ok). erewrite bind_ok by reflexivity. unfold id.
  fold e. cbn zeta. rewrite (proj2 (N.eqb_neq _ _)) by done. cbn [negb].
  destruct L as [Lf Ll Ld Ln L0 Lc Lz].
  assert ((first_link s =? 0)%N = false) as F0.
  { rewrite Lf. apply (nonzero (a ++ e :: b)); [done|]. destruct a; by left. }
  assert ((last_link s =? 0)%N = false) as G0.
  { rewrite Ll. apply (nonzero (a ++ e :: b)); [done|]. apply lastn_in_list. by destruct a. }
  rewrite F0, G0, !orb_true_r. do 2 erewrite bind_ok by reflexivity.
  destruct a as [|l a _] using rev_ind.
  - rewrite Lf. cbn [hdn app]. rewrite N.eqb_refl. cbn [negb]. erewrite bind_ok by reflexivity.
    exists s. split_and!; by try done.
  - assert (first_link s ≠ e) as Hfe.
    { rewrite Lf. intros Heq. apply NoDup_app in Ln as (_ & Hx & _). apply (Hx e); [|by left].
      rewrite <- Heq. destruct a; by left. }
    rewrite (proj2 (N.eqb_neq _ _)) by done. cbn [negb].
    destruct (relink_ok s dbug a l e b Ld Ln L0 Lf Ll) as (h & E & Hh & Hfr).
    erewrite bind_ok by exact E. eexists. split_and!; [done..| |done|done|by split].
    assert (e :: (a ++ [l]) ++ b ≡ₚ (a ++ [l]) ++ e :: b) as Hp by solve_Permutation.
    split; cbn -[app lastn]; [done| |done| | | |].
    + done.
    + by rewrite Hp.
    + by rewrite Hp.
    + rewrite Lc. symmetry. exact (list_to_set_perm_L _ _ Hp).
    + change (Z.of_nat (length (e :: (a ++ [l]) ++ b)) ≤ m_size s). by rewrite Hp.
Qed.

Lemma search_miss_ok s dbug ns key : lru s ns → owner dbug s → my_hash_search (cache s) key = 0%N →
  search dbug key s = Some (0%N, s) ∧ ∀ e, e ∈ ns → key_of e ≠ key.
Proof.
  intros L Ho Hz. split.
  - unfold search. erewrite bind_ok by (by apply owner_ok). erewrite bind_ok by reflexivity.
    unfold id. cbn zeta. by rewrite Hz.
  - intros e He. apply (search_none _ _ Hz). by apply (lru_in _ _ _ L).
Qed.

(** Dropping the last entry. *)
Lemma evict_ok s a e : lru s (a ++ [e]) →
  ∃ s', evict s = Some (tt, s') ∧ lru s' a ∧ cache s' = my_hash_delete (cache s) e ∧ freed s' = freed s ∧
    same_but_chain a s s'.
Proof.
  intros [Lf Ll Ld Ln L0 Lc Lz]. rewrite lastn_app in Ll. cbn [lastn] in Ll.
  pose proof (dl_at _ _ _ _ _ _ Ld) as He.
  unfold evict. erewrite bind_ok by reflexivity. rewrite Ll. rewrite (get_link_ok _ _ _ _ He).
  unfold prev_used at 1 2 3. cbn [prev]. erewrite bind_ok by reflexivity.
  assert (contents (my_hash_delete (cache s) e) = list_to_set a) as Hc.
  { rewrite delete_ok by (rewrite Lc; apply elem_of_list_to_set, elem_of_app; right; by left).
    rewrite Lc. apply set_eq. intros x. rewrite elem_of_difference, !elem_of_list_to_set, elem_of_app, list_elem_of_singleton, elem_of_singleton.
    apply NoDup_app in Ln as (_ & Hx & _). split; [tauto|]. intros Ha. split; [by left|].
    intros ->. apply (Hx e Ha). by left. }
  rewrite length_app in Lz. simpl in Lz.
  destruct a as [|l a _] using rev_ind.
  - cbn [lastn N.eqb negb]. erewrite bind_ok by reflexivity. erewrite bind_ok by reflexivity.
    eexists. split; [reflexivity|]. split_and!; try done. split; simpl in *; try done; try apply not_elem_of_nil; try apply NoDup_nil_2; lia.
  - rewrite lastn_app. cbn [lastn].
    assert (0%N ∉ a ++ [l]) as H0 by (intros ?; apply L0, elem_of_app; by left).
    apply NoDup_app in Ln as (Ln & _).
    rewrite (nonzero (a ++ [l])) by (done || (apply elem_of_app; right; by left)). cbn [negb].
    apply dl_app in Ld as [Ld _]. pose proof (dl_at _ _ _ _ _ _ Ld) as El.
    erewrite bind_ok by (by eapply set_next_used_ok). erewrite bind_ok by reflexivity.
    eexists. split; [reflexivity|]. split_and!; try done.
    + split; simpl; try done; [| |eapply dl_set_last; eassumption|lia].
      * rewrite Lf. by destruct a.
      * by rewrite lastn_app.
    + split; try done. intros n Hn. simpl. rewrite lookup_insert_ne; [done|].
      intros ->. apply Hn, elem_of_app. right. by left.
Qed.

Lemma link_entry_ok s ns e : first_link s = hdn ns 0 → last_link s = lastn 0 ns → dl (links s) 0 ns 0 →
  NoDup ns → 0%N ∉ ns → e ∉ ns → is_Some (links s !! e) →
  ∃ h, link_entry e s = Some (tt, Filo h e (lastn e ns) (cache s) (m_size s) (has_free s) (freed s) (init s) (lock s)) ∧
    dl h 0 (e :: ns) 0 ∧ ∀ n, n ∉ e :: ns → h !! n = links s !! n.
Proof.
  intros Hf Hl Hd Hn H0 He [k Hk]. unfold link_entry. erewrite bind_ok by reflexivity. rewrite Hf.
  pose proof (dl_link_first _ e ns k Hd Hn He Hk) as Hr. destruct ns as [|y r]; cbn [hdn lastn] in *.
  - erewrite bind_ok by (by eapply set_prev_used_ok).
    erewrite bind_ok by (eapply set_next_used_ok; apply lookup_insert_eq). simpl links. rewrite insert_insert_eq.
    erewrite bind_ok by reflexivity. eexists. split; [done|]. split; [done|].
    intros n Hnn. simpl. rewrite lookup_insert_ne; [done|]. intros ->. apply Hnn. by left.
  - apply not_elem_of_cons in He as [Hey _].
    rewrite (nonzero (y :: r)) by (done || by left). cbn [negb].
    erewrite push_first_ok; [|done..]. eexists. split; [cbn; by rewrite Hl|]. split; [done|].
    intros n Hnn. simpl. rewrite !lookup_insert_ne; [done|intros ->; apply Hnn; set_solver..].
Qed.

(** The entries that are kept when one is added, and the table then. *)
Definition kept (s : hash_filo) (ns : list N) : list N :=
  if Z.of_nat (length ns) =? m_size s then removelast ns else ns.
Definition kept_cache (s : hash_filo) (ns : list N) : H :=
  if Z.of_nat (length ns) =? m_size s then my_hash_delete (cache s) (lastn 0 ns) else cache s.

(** The eviction [add] makes when the cache is full. *)
Lemma make_room_ok s ns : lru s ns → m_size s ≠ 0 →
  ∃ s', (if records (cache s) =? m_size s then evict else ret tt) s = Some (tt, s') ∧
    lru s' (kept s ns) ∧ cache s' = kept_cache s ns ∧ Z.of_nat (length (kept s ns)) < m_size s' ∧
    freed s' = freed s ∧ same_but_chain ns s s'.
Proof.
  intros L Hz. unfold kept, kept_cache. rewrite (lru_records _ _ L). pose proof (lru_size _ _ L) as Lz.
  destruct (Z.of_nat (length ns) =? m_size s) eqn:E.
  - apply Z.eqb_eq in E. destruct ns as [|e a _] using rev_ind; [by destruct Hz|].
    rewrite removelast_last, lastn_app. cbn [lastn]. rewrite length_app in *. simpl in *.
    destruct (evict_ok _ _ _ L) as (s' & Ev & L' & ? & ? & F).
    exists s'. rewrite (same_size _ _ _ F). split_and!; try (done || lia).
    destruct F as [? ? ? ? F]. split; try done. intros n Hn. apply F. set_solver.
  - exists s. split_and!; try done. apply Z.eqb_neq in E. lia.
Qed.

Lemma add_ok s ns e : lru s ns → m_size s ≠ 0 → e ≠ 0%N → e ∉ ns → is_Some (links s !! e) →
  let r := fst (my_hash_insert (kept_cache s ns) e) in
  ∃ s', add e s = Some (r, s') ∧ lru s' (if r : bool then kept s ns else e :: kept s ns) ∧
    cache s' = snd (my_hash_insert (kept_cache s ns) e) ∧
    freed s' = (if r && has_free s then e :: freed s else freed s) ∧ same_but_chain (e :: ns) s s'.
Proof.
  intros L Hz He0 He Hk r. destruct (make_room_ok s ns L Hz) as (s1 & E1 & L1 & C1 & Hlt & Hfr & F1).
  assert (has_free s1 = has_free s) as Hf by apply F1.
  assert (is_Some (links s1 !! e)) as Hk1 by (by rewrite (same_links _ _ _ F1)).
  assert (∀ s', same_but_chain (e :: kept s ns) s1 s' → same_but_chain (e :: ns) s s') as Hsame.
  { intros s' F2. refine (same_but_chain_trans ns (e :: kept s ns) _ _ _ _ _ _ F1 F2); [set_solver|].
    unfold kept. destruct (Z.of_nat (length ns) =? m_size s); [|reflexivity].
    destruct ns as [|x a _] using rev_ind; [done|]. rewrite removelast_last. set_solver. }
  assert (e ∉ kept s ns) as Hek.
  { unfold kept. destruct (Z.of_nat (length ns) =? m_size s); [|done]. destruct ns as [|x a _] using rev_ind; [done|]. rewrite removelast_last.
    intros Hin. apply He, elem_of_app. by left. }
  unfold add. erewrite bind_ok by reflexivity. unfold id.
  rewrite (proj2 (Z.eqb_neq _ _)) by done. erewrite bind_ok by exact E1.
  erewrite bind_ok by reflexivity. rewrite C1. subst r. destruct L1 as [Lf Ll Ld Ln L0 Lc Lz].
  destruct (my_hash_insert (kept_cache s ns) e) as [r h] eqn:Ei. cbn [fst snd].
  erewrite bind_ok by reflexivity. rewrite Hf. destruct r.
  - apply insert_err in Ei. rewrite C1 in Lc. destruct (has_free s); erewrite bind_ok by reflexivity.
    all: eexists; (split; [reflexivity|split_and!; [split; simpl; congruence|done|simpl; congruence|by apply Hsame]]).
  - apply insert_ok in Ei. set (s2 := Filo _ _ _ _ _ _ _ _ _).
    destruct (link_entry_ok s2 (kept s ns) e Lf Ll Ld Ln L0 Hek Hk1) as (h2 & E2 & H2 & F2).
    erewrite bind_ok by exact E2. eexists. split; [reflexivity|]. split_and!; [|done|done|by apply Hsame].
    split; simpl; try done.
    + by apply NoDup_cons.
    + by apply not_elem_of_cons.
    + by rewrite Ei, <- C1, Lc.
    + lia.
Qed.

(** The cleared cache, from the raw one or a used one. *)
Lemma clear_lru s (locked : bool) : 0 ≤ m_size s → init s = true → lock s = (if locked then MutexHeld else MutexFree) →
  clear locked s = Some (tt, Filo (links s) 0 0 (my_hash_init (my_hash_free (cache s)) (m_size s)) (m_size s)
                                  (has_free s) (freed s) true (lock s)).
Proof.
  intros Hm Hi Hl. unfold clear. erewrite bind_ok by reflexivity. rewrite Hi. cbn [negb].
  erewrite bind_ok by reflexivity. destruct s as [? ? ? ? ? ? ? i l]. simpl in *. subst i l.
  by destruct locked.
Qed.

Lemma lru_empty h c n f fr i l m : 0 ≤ n → lru (Filo h 0 0 (my_hash_init (my_hash_free c) m) n f fr i l) [].
Proof. intros Hn. split; simpl; try done; [apply NoDup_nil_2|apply not_elem_of_nil|apply init_ok]. Qed.

(** ** The cache is a bounded table ordered by last use *)

(** C6: The cache keeps its entries by last use.  [search] returns an entry with
    the key it is given exactly when the cache has one, moves it to the front of
    the chain and changes nothing else: the table, the entries handed to
    [free_element], the size, the mutex and the links of other elements stay;
    [add], on a cache of a size that is not 0, first drops the entry at the end
    of the chain when the cache is full, then puts the new entry first, or, when
    the table refuses it, hands it to [free_element] when there is one and
    reports the error, and changes neither the size, nor the mutex, nor the
    links of other elements; on a cache of size 0 it refuses every entry.  The
    links, the two ends and the table agree after each, and the number of
    entries never exceeds the size, which stays. *)
Theorem hash_filo_lru dbug s ns key e : lru s ns → owner dbug s →
  (∃ r s', search dbug key s = Some (r, s') ∧
     ((r = 0%N ∧ s' = s ∧ ∀ x, x ∈ ns → key_of x ≠ key) ∨
      ∃ a b, ns = a ++ r :: b ∧ key_of r = key ∧ lru s' (r :: a ++ b) ∧
        cache s' = cache s ∧ freed s' = freed s ∧ same_but_chain ns s s')) ∧
  (m_size s = 0 → add e s = Some (true, s)) ∧
  (m_size s ≠ 0 → e ≠ 0%N → e ∉ ns → is_Some (links s !! e) →
     ∃ r s', add e s = Some (r, s') ∧ r = fst (my_hash_insert (kept_cache s ns) e) ∧
       lru s' (if r : bool then kept s ns else e :: kept s ns) ∧
       cache s' = snd (my_hash_insert (kept_cache s ns) e) ∧
       freed s' = (if r && has_free s then e :: freed s else freed s) ∧
       same_but_chain (e :: ns) s s').
Proof.
  intros L Ho. split_and!.
  - destruct (decide (my_hash_search (cache s) key = 0%N)) as [Hz|Hz].
    + destruct (search_miss_ok s dbug ns key L Ho Hz) as [E Hk]. exists 0%N, s. split; [done|by left].
    + destruct (search_hit_ok s dbug ns key _ L Ho eq_refl Hz) as (a & b & s' & -> & Hk & E & H').
      eexists _, s'. split; [exact E|]. right. by exists a, b.
  - intros Hz. unfold add. erewrite bind_ok by reflexivity. unfold id. by rewrite Hz.
  - intros Hz He0 He Hl. destruct (add_ok s ns e L Hz He0 He Hl) as (s' & E & H'). by eexists _, s'.
Qed.

(** Life of the cache: the constructor leaves a cache whose mutex cannot be
    used, so that [resize] before the first [clear] is undefined; the first
    [clear] gives an empty cache with a free mutex; [clear] and [resize] of a
    cache in use leave an empty cache, with the new size after [resize], and
    the mutex free. *)
Theorem hash_filo_clear_resize h zero n f m s : 0 ≤ n → 0 ≤ m →
  resize m (ctor h zero n f) = None ∧
  (∃ s', clear false (ctor h zero n f) = Some (tt, s') ∧ lru s' [] ∧ m_size s' = n ∧ init s' = true ∧ lock s' = MutexFree) ∧
  (0 ≤ m_size s → init s = true → lock s = MutexFree →
     (∃ s', clear false s = Some (tt, s') ∧ lru s' [] ∧ m_size s' = m_size s ∧ lock s' = MutexFree) ∧
     (∃ s', resize m s = Some (tt, s') ∧ lru s' [] ∧ m_size s' = m ∧ lock s' = MutexFree)).
Proof.
  intros Hn Hm. split_and!; [done| |].
  - eexists. split; [reflexivity|]. split_and!; [by apply lru_empty|done..].
  - intros Hs Hi Hl. split.
    + eexists. split; [by apply (clear_lru s false)|]. split_and!; [by apply lru_empty|done..].
    + unfold resize. unfold mysql_mutex_lock at 1. destruct s as [? ? ? ? ? ? ? i l]. simpl in *. subst i l.
      erewrite bind_ok by reflexivity. erewrite bind_ok by reflexivity.
      erewrite bind_ok by (by apply clear_lru). eexists. split; [reflexivity|].
      split_and!; [by apply lru_empty|done..].
Qed.

(** ** Use over time

    A run of the cache by clients that add only elements of their own that are
    not in it.  The label of a step says what [search] returned, and whether
    [add] added the entry. *)
Inductive cache_event := Searched (r : N) | Added (e : N) | Refused (e : N).

Inductive cache_run (dbug : bool) : hash_filo → list cache_event → hash_filo → Prop :=
  | run_done s : cache_run dbug s [] s
  | run_search s key r s' evs s'' : search dbug key s = Some (r, s') →
      cache_run dbug s' evs s'' → cache_run dbug s (Searched r :: evs) s''
  | run_add s e r s' evs s'' : e ≠ 0%N → e ∉ contents (cache s) → is_Some (links s !! e) →
      add e s = Some (r, s') → cache_run dbug s' evs s'' →
      cache_run dbug s ((if r : bool then Refused e else Added e) :: evs) s''.

Definition is_added (v : cache_event) : bool := match v with Added _ => true | _ => false end.
Definition added (evs : list cache_event) : nat := length (List.filter is_added evs).

(** The number of entries used after [e]. *)
Fixpoint age (e : N) (ns : list N) : nat :=
  match ns with
  | [] => 0
  | x :: r => if (x =? e)%N then 0 else S (age e r)
  end.

(** [e] is in the second list only if it was in the first, and it is [n] older. *)
Definition aged (e : N) (n : nat) (ns ns' : list N) : Prop :=
  e ∈ ns' → e ∈ ns ∧ (age e ns + n ≤ age e ns')%nat.

Lemma age_app_in e a b : e ∈ a → age e (a ++ b) = age e a.
Proof.
  induction a as [|x a IH]; intros Hin; [by apply elem_of_nil in Hin|]. cbn.
  destruct (N.eqb_spec x e); [done|]. f_equal. apply IH. set_solver.
Qed.

Lemma age_app_not e a b : e ∉ a → age e (a ++ b) = (length a + age e b)%nat.
Proof.
  induction a as [|x a IH]; intros Hin; [done|]. cbn.
  destruct (N.eqb_spec x e); [set_solver|]. f_equal. apply IH. set_solver.
Qed.

Lemma age_lt e ns : e ∈ ns → (age e ns < length ns)%nat.
Proof.
  induction ns as [|x a IH]; intros Hin; [by apply elem_of_nil in Hin|]. cbn.
  destruct (N.eqb_spec x e); [lia|]. assert (e ∈ a) as Ha by set_solver. specialize (IH Ha). lia.
Qed.

Lemma aged_trans e n m ns1 ns2 ns3 : aged e n ns1 ns2 → aged e m ns2 ns3 → aged e (n + m) ns1 ns3.
Proof. intros H1 H2 Hin. destruct (H2 Hin) as [H3 ?]. destruct (H1 H3). split; [done|lia]. Qed.

Lemma aged_front e r a b : e ≠ r → aged e 0 (a ++ r :: b) (r :: a ++ b).
Proof.
  intros Hr Hin. split; [set_solver|]. cbn. rewrite (proj2 (N.eqb_neq r e)) by done.
  destruct (decide (e ∈ a)); [rewrite !age_app_in by done; lia|].
  rewrite !age_app_not by done. cbn. rewrite (proj2 (N.eqb_neq r e)) by done. lia.
Qed.

Lemma aged_kept e s ns : aged e 0 ns (kept s ns).
Proof.
  unfold kept. destruct (_ =? _); [|intros Hin; split; [done|lia]].
  destruct ns as [|x a _] using rev_ind; [intros Hin; by apply elem_of_nil in Hin|].
  rewrite removelast_last. intros Hin. rewrite age_app_in by done. split; [set_solver|lia].
Qed.

Lemma search_ages dbug s ns key r s' e : lru s ns → search dbug key s = Some (r, s') → e ≠ r →
  ∃ ns', lru s' ns' ∧ m_size s' = m_size s ∧ aged e 0 ns ns'.
Proof.
  intros L E He. assert (owner dbug s) as Ho.
  { unfold search, bind, mysql_mutex_assert_owner in E. destruct dbug; [right|by left].
    unfold gets, assert_that, ret, ub, bind in E. by destruct (lock s). }
  destruct (decide (my_hash_search (cache s) key = 0%N)) as [Hz|Hz].
  - destruct (search_miss_ok s dbug ns key L Ho Hz) as [E' _]. rewrite E' in E. injection E as <- <-.
    exists ns. split_and!; [done..|]. intros Hin. split; [done|lia].
  - destruct (search_hit_ok s dbug ns key _ L Ho eq_refl Hz) as (a & b & s1 & -> & _ & E' & L' & _ & _ & F).
    rewrite E' in E. injection E as <- <-. eexists. split_and!; [exact L'|apply F|].
    by apply aged_front.
Qed.

Lemma add_ages s ns x r s' e : lru s ns → x ≠ 0%N → x ∉ contents (cache s) → is_Some (links s !! x) →
  add x s = Some (r, s') → e ≠ x ∨ r = true →
  ∃ ns', lru s' ns' ∧ m_size s' = m_size s ∧ aged e (if r then 0 else 1) ns ns'.
Proof.
  intros L H0 Hx Hl E He. rewrite (lru_in _ _ _ L) in Hx.
  destruct (decide (m_size s = 0)) as [Hz|Hz].
  - unfold add in E. erewrite bind_ok in E by reflexivity. unfold id in E. rewrite Hz in E.
    injection E as <- <-. exists ns. split_and!; [done..|]. intros Hin. split; [done|lia].
  - destruct (add_ok s ns x L Hz H0 Hx Hl) as (s1 & E' & L' & _ & _ & F). rewrite E' in E.
    injection E as Er <-. rewrite Er in L'. eexists. split_and!; [exact L'|apply F|].
    destruct r; [apply aged_kept|]. destruct He as [He|]; [|done].
    apply (aged_trans e 0 1 _ (kept s ns)); [apply aged_kept|]. intros Hin. split; [set_solver|].
    cbn. rewrite (proj2 (N.eqb_neq x e)) by done. lia.
Qed.

Lemma run_ages dbug s evs s' e : cache_run dbug s evs s' → ∀ ns, lru s ns →
  Searched e ∉ evs → Added e ∉ evs →
  ∃ ns', lru s' ns' ∧ m_size s' = m_size s ∧ aged e (added evs) ns ns'.
Proof.
  induction 1 as [s|s key r s' evs s'' E R IH|s x r s' evs s'' H0 Hx Hl E R IH]; intros ns L Hs Ha.
  - exists ns. split_and!; [done..|]. intros Hin. split; [done|cbn; lia].
  - destruct (search_ages dbug s ns key r s' e L E) as (ns1 & L1 & M1 & A1); [set_solver|].
    destruct (IH ns1 L1) as (ns2 & L2 & M2 & A2); [set_solver..|].
    exists ns2. split_and!; [done|congruence|]. exact (aged_trans e 0 _ _ _ _ A1 A2).
  - destruct (add_ages s ns x r s' e L H0 Hx Hl E) as (ns1 & L1 & M1 & A1).
    { destruct r; [by right|left]. set_solver. }
    destruct (IH ns1 L1) as (ns2 & L2 & M2 & A2); [set_solver..|].
    exists ns2. split_and!; [done|congruence|]. destruct r; exact (aged_trans e _ _ _ _ _ A1 A2).
Qed.

(** No entry stays for ever: whatever the clients do, an entry that
    no search returns is out of the cache as soon as as many other entries have
    been added as the cache has places, and the table no longer finds it; the
    cache is then still in order, and in any such run it never held more entries
    than its size. *)
Theorem hash_filo_evicts_unused dbug s evs s' ns e (L : lru s ns) (R : cache_run dbug s evs s')
    (Hs : Searched e ∉ evs) (Ha : Added e ∉ evs) (Hn : m_size s ≤ Z.of_nat (added evs)) :
  e ∉ contents (cache s') ∧ (∀ key, my_hash_search (cache s') key = e → e = 0%N)
  ∧ ∃ ns', lru s' ns' ∧ e ∉ ns' ∧ Z.of_nat (length ns') ≤ m_size s.
Proof.
  destruct (run_ages dbug s evs s' e R ns L Hs Ha) as (ns' & L' & M & A).
  assert (e ∉ ns') as He.
  { intros Hin. destruct (A Hin). pose proof (age_lt e ns' Hin). pose proof (lru_size _ _ L'). lia. }
  assert (e ∉ contents (cache s')) as Hc by by rewrite (lru_in _ _ _ L').
  split_and!; [done| |].
  - intros key <-. destruct (decide (my_hash_search (cache s') key = 0%N)) as [|Hz]; [done|].
    by destruct Hc; apply (search_found _ _ Hz).
  - exists ns'. rewrite <- M. split_and!; [done..|]. apply (lru_size _ _ L').
Qed.
End Filo.

(** ** An instance of the interface *)

(** A table of numbers, whose key is the last decimal digit. *)
Module Table.
Definition find (h : gset N) (k : N) : N :=
  default 0%N (head (filter (λ e, (e mod 10)%N = k ∧ e ≠ 0%N) (elements h))).

#[export] Instance table : HashTable (gset N) N := {
  my_hash_search := find;
  my_hash_insert h e := if (e =? 0)%N then (true, h) else (false, {[e]} ∪ h);
  my_hash_delete h e := h ∖ {[e]};
  my_hash_free h := ∅;
  my_hash_init h n := h;
  records h := Z.of_nat (size (h ∖ {[0%N]})) }.

Lemma find_some h k : find h k ≠ 0%N → find h k ∈ h ∧ (find h k mod 10)%N = k.
Proof.
  unfold find. destruct (filter _ _) as [|e r] eqn:E; [done|]. intros Hz. simpl in *.
  assert (e ∈ filter (λ e, (e mod 10)%N = k ∧ e ≠ 0%N) (elements h)) as He by (rewrite E; by left).
  apply list_elem_of_filter in He as [[Hk _] He]. split; [by apply elem_of_elements in He|done].
Qed.

Lemma find_none h k e : find h k = 0%N → e ∈ h → e ≠ 0%N → (e mod 10)%N ≠ k.
Proof.
  unfold find. destruct (filter _ _) as [|x r] eqn:E; intros Hz He H0 Hk.
  - assert (e ∈ @nil N) as Hin; [|by apply elem_of_nil in Hin].
    rewrite <- E. apply list_elem_of_filter. split; [done|by apply elem_of_elements].
  - simpl in Hz. subst x. assert (0%N ∈ filter (λ e, (e mod 10)%N = k ∧ e ≠ 0%N) (elements h)) as H1 by (rewrite E; by left).
    by apply list_elem_of_filter in H1 as [[_ ?] _].
Qed.

#[export] Instance table_laws : HashLaws (gset N) N.
Proof.
  refine {| contents h := h ∖ {[0%N]}; key_of e := (e mod 10)%N |}; simpl.
  - intros h k Hz. destruct (find_some h k Hz) as [? ?]. split; [set_solver|done].
  - intros h k Hz e He. apply elem_of_difference in He as [He H0]. apply (find_none h k); set_solver.
  - intros h e h'. destruct (N.eqb_spec e 0); [done|]. intros [= <-]. set_solver.
  - intros h e h'. destruct (e =? 0)%N; [|done]. by intros [= <-].
  - intros h e He. set_solver.
  - done.
  - intros h n. set_solver.
Defined.

(** A cache of two entries, 13 used after 27, and the element 35, not in it. *)
Definition sample : hash_filo (H := gset N) :=
  Filo {[13%N := LNode 27 0; 27%N := LNode 0 13; 35%N := LNode 0 0]} 13 27 {[13%N; 27%N]} 2 true [] true MutexHeld.

Lemma sample_lru : lru sample [13%N; 27%N].
Proof.
  split; [done|done|by vm_compute| | | |done].
  all: apply (bool_decide_unpack _); by vm_compute.
Qed.
End Table.
Import (hints) Table.

(** At the cache of two entries: searching key 7 brings 27 to the front, and
    adding 35 drops 27. *)
Lemma hash_filo_lru_witness :
  (∃ s', search true 7%N Table.sample = Some (27%N, s') ∧ first_link s' = 27%N ∧ last_link s' = 13%N) ∧
  ∃ r s', add 35%N Table.sample = Some (r, s') ∧ lru s' (if r : bool then [13%N] else [35%N; 13%N]).
Proof.
  destruct (hash_filo_lru true Table.sample [13%N; 27%N] 7%N 35%N Table.sample_lru (or_intror eq_refl))
    as (_ & _ & Hadd).
  split; [eexists; split; [vm_compute; reflexivity|by vm_compute]|].
  destruct Hadd as (r & s' & E & _ & L & _); [done|done| |by eexists|].
  - apply (bool_decide_unpack _). by vm_compute.
  - exists r, s'. split; [exact E|]. exact L.
Defined.

Lemma hash_filo_clear_resize_witness :
  ∃ s', clear false (ctor (H := gset N) ∅ ∅ 4 true) = Some (tt, s') ∧ lru s' [] ∧ m_size s' = 4.
Proof.
  destruct (hash_filo_clear_resize (K := N) ∅ (∅ : gset N) 4 true 8 Table.sample) as (_ & (s' & E & L & Hm & _) & _);
    [lia|lia|]. by exists s'.
Defined.

(** At the cache of two entries: after adding 35 and 44, with a search for key 5
    between them, 27 and 13 are out. *)
Definition sample_linked : hash_filo (H := gset N) :=
  with_links Table.sample (<[44%N := LNode 0 0]> (links Table.sample)).

Lemma sample_linked_lru : lru sample_linked [13%N; 27%N].
Proof.
  split; [done|done|by vm_compute| | | |done].
  all: apply (bool_decide_unpack _); by vm_compute.
Qed.

Definition sample_events : list cache_event := [Added 35%N; Searched 35%N; Added 44%N].

Lemma sample_run : ∃ s', cache_run true sample_linked sample_events s'.
Proof.
  eexists. refine (run_add true _ 35%N false _ _ _ _ _ _ _ _);
    [done|apply (bool_decide_unpack _); by vm_compute|by eexists|vm_compute; reflexivity|].
  refine (run_search true _ 5%N 35%N _ _ _ _ _); [vm_compute; reflexivity|].
  refine (run_add true _ 44%N false _ _ _ _ _ _ _ _);
    [done|apply (bool_decide_unpack _); by vm_compute|by eexists|vm_compute; reflexivity|].
  apply run_done.
Defined.

Lemma hash_filo_evicts_unused_witness :
  ∃ s', cache_run true sample_linked sample_events s' ∧ 27%N ∉ contents (cache s').
Proof.
  destruct sample_run as [s' R]. exists s'. split; [exact R|].
  refine (proj1 (hash_filo_evicts_unused true sample_linked sample_events s' [13%N; 27%N]
    27%N sample_linked_lru R _ _ _)).
  - unfold sample_events. set_solver.
  - unfold sample_events. set_solver.
  - done.
Defined.
