(* ===== verification/MemRootArray.v ===== *)
(** [mem_root_array.h], [class Mem_root_array]: a growing array of objects that
    are copied, not moved as bytes, when the storage grows, and destroyed when
    they leave the array.  The storage is a sequence of slots, each raw or
    holding a live object: reading or destroying an object where there is none
    is undefined.  The storage that the array leaves when it grows stays, since a
    [MEM_ROOT] frees nothing before its end: the elements given to [push_back] and
    [resize] are references, to an object elsewhere or to a slot of some storage
    of the array.  [alloc_root] is code of another library: whether each of its
    calls succeeds is given by a sequence of outcomes. *)
From S2P Require Import Prelude CMonad.

Section Array.
(** The element type and its size; whether its destructor is trivial; whether
    [DBUG_ASSERT] is active. *)
Context {E : Type} (element_size : Z) (has_trivial_destructor dbug : bool).

(** [destroyed] are the objects whose destructor ran and [constructed] the
    number of objects constructed; [outcomes] is for [alloc_root]; [forgotten] are
    the storages the array had before, in order. *)
Record mem_root_array := Mra {
  m_array : option (list (option E));
  m_size : Z;
  m_capacity : Z;
  destroyed : list E;
  constructed : nat;
  outcomes : list bool;
  forgotten : list (list (option E)) }.

(** ** The storage *)

Definition set_array (a : list (option E)) : M mem_root_array unit :=
  modify (λ s, Mra (Some a) (m_size s) (m_capacity s) (destroyed s) (constructed s) (outcomes s) (forgotten s)).
Definition set_size (n : Z) : M mem_root_array unit :=
  modify (λ s, Mra (m_array s) n (m_capacity s) (destroyed s) (constructed s) (outcomes s) (forgotten s)).
Definition set_capacity (n : Z) : M mem_root_array unit :=
  modify (λ s, Mra (m_array s) (m_size s) n (destroyed s) (constructed s) (outcomes s) (forgotten s)).
Definition count_construct : M mem_root_array unit :=
  modify (λ s, Mra (m_array s) (m_size s) (m_capacity s) (destroyed s) (S (constructed s)) (outcomes s) (forgotten s)).
Definition log_destroy (v : E) : M mem_root_array unit :=
  modify (λ s, Mra (m_array s) (m_size s) (m_capacity s) (v :: destroyed s) (constructed s) (outcomes s) (forgotten s)).

(** "Forget the old array": the new storage is the array. *)
Definition replace_array (a : list (option E)) : M mem_root_array unit :=
  modify (λ s, Mra (Some a) (m_size s) (m_capacity s) (destroyed s) (constructed s) (outcomes s)
                   (forgotten s ++ match m_array s with Some a => [a] | None => [] end)).

(** A reference: to an object outside the array, or to slot [ix] of one of its
    storages, counted from the first. *)
Inductive reference := Outside (v : E) | Slot (storage ix : nat).

(** The storages, and the number of the one in use. *)
Definition storages (s : mem_root_array) : list (list (option E)) :=
  forgotten s ++ match m_array s with Some a => [a] | None => [] end.
Definition in_use (s : mem_root_array) : nat := length (forgotten s).
Definition referent (s : mem_root_array) (r : reference) : option E :=
  match r with
  | Outside v => Some v
  | Slot g ix => a ← storages s !! g; o ← a !! ix; o
  end.
(** Reading through a reference where no object is live is undefined. *)
Definition deref (r : reference) : M mem_root_array E := gets_opt (λ s, referent s r).

(** The storage, and the object of slot [ix]. *)
Definition get_slots : M mem_root_array (list (option E)) := gets_opt m_array.
Definition get_object (ix : Z) : M mem_root_array E :=
  a <- get_slots ;;
  match a !! Z.to_nat ix with Some (Some v) => ret v | _ => ub end.

(** [new (p) Element_type(v)] in slot [ix] of [a]. *)
Definition construct (a : list (option E)) (ix : Z) (v : E) : M mem_root_array (list (option E)) :=
  assert_that (bool_decide (Z.to_nat ix < length a)%nat) ;;
  count_construct ;;
  ret (<[Z.to_nat ix := Some v]> a).

(** [p->~Element_type()] at slot [ix]. *)
Definition destroy (ix : Z) : M mem_root_array unit :=
  v <- get_object ix ;;
  a <- get_slots ;;
  set_array (<[Z.to_nat ix := None]> a) ;;
  log_destroy v.

(** [alloc_root]: raw storage, of as many slots as the bytes hold. *)
Definition alloc_root (bytes : Z) : M mem_root_array (option (list (option E))) :=
  λ s, match outcomes s with
       | true :: r => Some (Some (replicate (Z.to_nat (bytes / element_size)) None),
                            Mra (m_array s) (m_size s) (m_capacity s) (destroyed s) (constructed s) r (forgotten s))
       | _ :: r => Some (None, Mra (m_array s) (m_size s) (m_capacity s) (destroyed s) (constructed s) r (forgotten s))
       | [] => Some (None, s)
       end.

(** ** Operations *)

Definition ctor (o : list bool) : mem_root_array := Mra None 0 0 [] 0 o [].

Definition at_ (n : Z) : M mem_root_array E :=
  s <- gets m_size ;;
  assert_that (negb dbug || (n <? s)) ;;
  get_object n.

Definition back : M mem_root_array E := s <- gets m_size ;; at_ (to_ulonglong (s - 1)).
Definition empty : M mem_root_array bool := s <- gets m_size ;; ret (s =? 0).

(** The loop of [chop]: [k] slots from [ix]. *)
Fixpoint destroy_from (k : nat) (ix : Z) : M mem_root_array unit :=
  match k with
  | O => ret tt
  | S k => destroy ix ;; destroy_from k (ix + 1)
  end.

Definition chop (pos : Z) : M mem_root_array unit :=
  s <- gets m_size ;;
  assert_that (negb dbug || (pos <? s)) ;;
  (if negb has_trivial_destructor then destroy_from (Z.to_nat (s - pos)) pos else ret tt) ;;
  set_size pos.

Definition clear : M mem_root_array unit := e <- empty ;; if negb e then chop 0 else ret tt.

(** The copying loop of [reserve]: [k] objects from slot [ix], into [a]. *)
Fixpoint copy_from (k : nat) (ix : Z) (a : list (option E)) : M mem_root_array (list (option E)) :=
  match k with
  | O => ret a
  | S k =>
      v <- get_object ix ;;
      a <- construct a ix v ;;
      (if negb has_trivial_destructor then destroy ix else ret tt) ;;
      copy_from k (ix + 1) a
  end.

Definition reserve (n : Z) : M mem_root_array bool :=
  s <- gets id ;;
  if n <=? m_capacity s then ret false else
  mem <- alloc_root (to_ulonglong (n * element_size)) ;;
  match mem with
  | None => ret true
  | Some array =>
      array <- copy_from (Z.to_nat (m_size s)) 0 array ;;
      replace_array array ;;
      set_capacity n ;;
      ret false
  end.

(** The new object is a copy of what [element] refers to when the storage has
    grown; constructing an object from itself is undefined. *)
Definition push_back (element : reference) : M mem_root_array bool :=
  c <- gets m_capacity ;;
  r <- (if 0 =? c then reserve 20 else ret false) ;;
  if r : bool then ret true else
  s <- gets id ;;
  r <- (if m_size s =? m_capacity s then reserve (to_ulonglong (m_capacity s * 2)) else ret false) ;;
  if r : bool then ret true else
  s <- gets m_size ;;
  a <- get_slots ;;
  set_size (to_ulonglong (s + 1)) ;;
  g <- gets in_use ;;
  assert_that (match element with Slot g' ix => negb ((g' =? g)%nat && (Z.of_nat ix =? s)) | Outside _ => true end) ;;
  v <- deref element ;;
  a <- construct a s v ;;
  set_array a ;;
  ret false.

Definition pop_back : M mem_root_array unit :=
  s <- gets m_size ;;
  assert_that (negb dbug || negb (s =? 0)) ;;
  (if negb has_trivial_destructor then
     assert_that (negb dbug || (to_ulonglong (s - 1) <? s)) ;; destroy (to_ulonglong (s - 1))
   else ret tt) ;;
  set_size (to_ulonglong (s - 1)).

Definition resize (fuel : nat) (n : Z) (val : reference) : M mem_root_array unit :=
  s <- gets m_size ;;
  if n =? s then ret tt else
  if s <? n then
    r <- reserve n ;;
    if negb r then
      while_loop fuel (s <- gets m_size ;; ret (negb (n =? s))) (push_back val ;; ret tt)
    else ret tt
  else
    (if negb has_trivial_destructor then
       while_loop fuel (s <- gets m_size ;; ret (negb (n =? s))) pop_back
     else ret tt) ;;
    set_size n.

(** The constructor with a size. *)
Definition ctor_n (fuel : nat) (o : list bool) (n : Z) (val : E) : option mem_root_array :=
  snd <$> resize fuel n (Outside val) (ctor o).

(** ** Specification: the sequence of the elements *)

Definition raw (r : list (option E)) : Prop := r = replicate (length r) None.

(** The array holds the objects [l]: in the first slots, and, when objects are
    destroyed, nothing else is live and none is lost or destroyed twice. *)
Record rep (s : mem_root_array) (l : list E) : Prop := {
  rep_size : m_size s = Z.of_nat (length l);
  rep_slots : match m_array s with
    | None => m_capacity s = 0 ∧ l = []
    | Some a => ∃ r, a = (Some <$> l) ++ r ∧ Z.of_nat (length a) = m_capacity s ∧ 0 < m_capacity s ∧
                     (has_trivial_destructor = false → raw r)
    end;
  rep_life : has_trivial_destructor = false → (constructed s = length (destroyed s) + length l)%nat }.

(** [r] refers to the live object [v]: outside the array, one of its elements, or
    in a storage it has left. *)
Definition names (s : mem_root_array) (r : reference) (v : E) : Prop :=
  referent s r = Some v ∧
  match r with Slot g ix => g = in_use s → Z.of_nat ix < m_size s | Outside _ => True end.
(** Only what [alloc_root] will do differs. *)
Definition same_array (s s' : mem_root_array) : Prop :=
  s' = Mra (m_array s) (m_size s) (m_capacity s) (destroyed s) (constructed s) (outcomes s') (forgotten s).
(** The object of [r] is not destroyed when the storage is replaced. *)
Definition survives (s : mem_root_array) (r : reference) : Prop :=
  match r with Slot g _ => has_trivial_destructor = true ∨ g ≠ in_use s | Outside _ => True end.

(** The storage of [n] elements is less than the address space. *)
Definition addressable (n : Z) : Prop := n * element_size < 2 ^ 64.

(** *** Slots *)

Lemma insert_middle {A} (a b : list A) x y : <[length a := y]> (a ++ x :: b) = a ++ y :: b.
Proof. rewrite <- (Nat.add_0_r (length a)) at 1. by rewrite insert_app_r. Qed.

Lemma raw_replicate n : raw (replicate n None).
Proof. unfold raw. by rewrite length_replicate. Qed.

Lemma raw_cons r : raw r → raw (None :: r).
Proof. unfold raw. intros H. simpl. by f_equal. Qed.

Lemma raw_app a b : raw a → raw b → raw (a ++ b).
Proof. unfold raw. intros Ha Hb. by rewrite length_app, replicate_add, <- Ha, <- Hb. Qed.

(** The slots with [k] more objects, when objects are destroyed or not. *)
Definition after_destroy (l : list E) : list (option E) :=
  if has_trivial_destructor then Some <$> l else replicate (length l) None.
Definition destroyed_now (l d : list E) : list E := if has_trivial_destructor then d else rev l ++ d.

Lemma length_after_destroy l : length (after_destroy l) = length l.
Proof. unfold after_destroy. destruct has_trivial_destructor; [apply length_fmap|apply length_replicate]. Qed.

Lemma get_object_ok s a v b : m_array s = Some (a ++ Some v :: b) →
  get_object (Z.of_nat (length a)) s = Some (v, s).
Proof.
  intros Ha. unfold get_object, get_slots. erewrite bind_ok by (by apply gets_opt_ok).
  by rewrite Nat2Z.id, list_lookup_middle.
Qed.

Lemma destroy_ok s a v b : m_array s = Some (a ++ Some v :: b) →
  destroy (Z.of_nat (length a)) s =
  Some (tt, Mra (Some (a ++ None :: b)) (m_size s) (m_capacity s) (v :: destroyed s) (constructed s) (outcomes s) (forgotten s)).
Proof.
  intros Ha. unfold destroy, get_slots. erewrite bind_ok by (by eapply get_object_ok).
  erewrite bind_ok by (by apply gets_opt_ok). erewrite bind_ok by reflexivity.
  by rewrite Nat2Z.id, insert_middle.
Qed.

Lemma construct_ok s a x b v : construct (a ++ x :: b) (Z.of_nat (length a)) v s =
  Some (a ++ Some v :: b, Mra (m_array s) (m_size s) (m_capacity s) (destroyed s) (S (constructed s)) (outcomes s) (forgotten s)).
Proof.
  unfold construct. rewrite Nat2Z.id, bool_decide_true by (rewrite length_app; simpl; lia).
  erewrite bind_ok by reflexivity. erewrite bind_ok by reflexivity. by rewrite insert_middle.
Qed.

(** The loops over the slots. *)
Lemma destroy_from_ok l s a b : m_array s = Some (a ++ (Some <$> l) ++ b) →
  destroy_from (length l) (Z.of_nat (length a)) s =
  Some (tt, Mra (Some (a ++ replicate (length l) None ++ b)) (m_size s) (m_capacity s) (rev l ++ destroyed s)
                (constructed s) (outcomes s) (forgotten s)).
Proof.
  revert s a. induction l as [|v l IH]; intros s a Ha; simpl.
  - unfold ret. destruct s. simpl in *. by rewrite Ha.
  - simpl in Ha. erewrite bind_ok by (by apply destroy_ok).
    replace (Z.of_nat (length a) + 1) with (Z.of_nat (length (a ++ [None : option E]))) by (rewrite length_app; simpl; lia).
    rewrite IH by (simpl; by rewrite <- app_assoc). simpl. by rewrite <- !app_assoc.
Qed.

Lemma copy_from_ok l2 l1 s b n : m_array s = Some (after_destroy l1 ++ (Some <$> l2) ++ b) → (length l2 ≤ n)%nat →
  copy_from (length l2) (Z.of_nat (length l1)) ((Some <$> l1) ++ replicate n None) s =
  Some ((Some <$> l1 ++ l2) ++ replicate (n - length l2) None,
        Mra (Some (after_destroy (l1 ++ l2) ++ b)) (m_size s) (m_capacity s) (destroyed_now l2 (destroyed s))
            (length l2 + constructed s) (outcomes s) (forgotten s)).
Proof.
  revert l1 s n. induction l2 as [|v l2 IH]; intros l1 s n Ha Hn.
  - simpl. unfold ret, destroyed_now. rewrite app_nil_r, Nat.sub_0_r. destruct s. simpl in *. rewrite Ha.
    by destruct has_trivial_destructor.
  - destruct n as [|n]; [simpl in Hn; lia|]. simpl in Ha, Hn. simpl copy_from.
    erewrite bind_ok by (rewrite <- length_after_destroy; by eapply get_object_ok).
    erewrite bind_ok by (rewrite <- (length_fmap Some l1); apply construct_ok).
    replace (Z.of_nat (length l1) + 1) with (Z.of_nat (length (l1 ++ [v]))) by (rewrite length_app; simpl; lia).
    replace ((Some <$> l1) ++ Some v :: replicate n None) with ((Some <$> l1 ++ [v]) ++ replicate n None)
      by (by rewrite fmap_app, <- app_assoc).
    specialize (IH (l1 ++ [v])). rewrite <- (app_assoc l1 [v] l2) in IH. cbn [app] in IH.
    unfold destroyed_now, after_destroy in *. destruct has_trivial_destructor; cbn [negb].
    + erewrite bind_ok by reflexivity. rewrite IH by (lia || (simpl; by rewrite fmap_app, <- app_assoc)).
      simpl. by rewrite Nat.add_succ_r.
    + erewrite bind_ok by (rewrite <- (length_replicate (length l1) (None : option E)); by apply destroy_ok).
      rewrite IH; [|simpl; by rewrite length_app, replicate_add, <- app_assoc|lia].
      simpl. by rewrite <- app_assoc, Nat.add_succ_r.
Qed.

(** *** The operations on the sequence *)

Hypothesis size_pos : 0 < element_size.

Lemma rep_le s l : rep s l → Z.of_nat (length l) ≤ m_capacity s.
Proof.
  intros R. pose proof (rep_slots _ _ R) as Hs. destruct (m_array s) as [a|].
  - destruct Hs as (r & -> & <- & _). rewrite length_app, length_fmap. lia.
  - destruct Hs as [-> ->]. simpl. lia.
Qed.

Lemma slots_of n : 0 ≤ n → addressable n → to_ulonglong (n * element_size) / element_size = n.
Proof.
  intros Hn Ha. unfold addressable in Ha. unfold to_ulonglong. rewrite wrap_id by (unfold in_u; nia).
  apply Z.div_mul. lia.
Qed.

(** *** References *)

Lemma storages_lookup s g : g ≠ in_use s → storages s !! g = forgotten s !! g.
Proof.
  unfold storages, in_use. intros Hg. destruct (decide (g < length (forgotten s))%nat); [by apply lookup_app_l|].
  rewrite (lookup_ge_None_2 (forgotten s) g) by lia. apply lookup_ge_None_2. rewrite length_app.
  destruct (m_array s); simpl; lia.
Qed.

Lemma storages_in_use s a : m_array s = Some a → storages s !! in_use s = Some a.
Proof. intros Ha. unfold storages, in_use. rewrite Ha. by apply list_lookup_middle. Qed.

(** The elements of the array can be referred to. *)
Lemma names_element s l k v : rep s l → l !! k = Some v → names s (Slot (in_use s) k) v.
Proof.
  intros R Hk. pose proof (lookup_lt_Some _ _ _ Hk) as Hlt. pose proof (rep_slots _ _ R) as Ra.
  destruct (m_array s) as [a|] eqn:Ea; [|destruct Ra as [_ ->]; done]. destruct Ra as (r & Ha & _).
  split; [|rewrite (rep_size _ _ R); lia]. unfold referent. rewrite (storages_in_use s a Ea). cbn [mbind option_bind].
  by rewrite Ha, lookup_app_l, list_lookup_fmap, Hk by (rewrite length_fmap; lia).
Qed.

(** Only the forgotten storages of another state matter to a reference into an
    earlier one. *)
Lemma forgotten_names s s' g ix v o : names s (Slot g ix) v → g ≠ in_use s → forgotten s' = forgotten s ++ o →
  names s' (Slot g ix) v.
Proof.
  intros [Hr _] Hg Hf. unfold referent in *. rewrite storages_lookup in Hr by done.
  destruct (forgotten s !! g) as [b|] eqn:Eb; [|done]. pose proof (lookup_lt_Some _ _ _ Eb) as Hlt.
  assert (g ≠ in_use s') as Hg' by (unfold in_use; rewrite Hf, length_app; lia).
  split; [|intros ->; done]. unfold referent. by rewrite storages_lookup, Hf, lookup_app_l, Eb by done.
Qed.

(** When the storage is replaced, an element of the array is destroyed, unless the
    destructor is trivial. *)
Definition replaced (l : list E) (s s' : mem_root_array) : Prop :=
  forgotten s' = forgotten s ++ match m_array s with Some a => [after_destroy l ++ drop (length l) a] | None => [] end.

Lemma replaced_names l s s' r v : rep s l → replaced l s s' → names s r v → survives s r → names s' r v.
Proof.
  intros R Hf Hn Hs. destruct r as [v'|g ix]; [done|]. destruct (decide (g = in_use s)) as [->|Hg].
  - destruct Hs as [Ht|]; [|done]. pose proof (rep_slots _ _ R) as Ra. unfold replaced in Hf.
    unfold after_destroy in Hf. rewrite Ht in Hf. destruct Hn as [Hn _]. unfold referent in Hn.
    destruct (m_array s) as [a|] eqn:Ea.
    + destruct Ra as (b & Hab & _). rewrite Hab, <- (length_fmap Some l), drop_app_length, <- Hab in Hf.
      rewrite (storages_in_use s a Ea) in Hn. 
      assert (in_use s < in_use s')%nat by (unfold in_use; rewrite Hf, length_app; simpl; lia).
      split; [|lia]. unfold referent. rewrite storages_lookup, Hf by lia. unfold in_use. by rewrite list_lookup_middle.
    + unfold storages, in_use in Hn. rewrite Ea, lookup_ge_None_2 in Hn; [done|]. rewrite app_nil_r. lia.
  - by eapply forgotten_names.
Qed.

Lemma replaced_dangles l s s' k : rep s l → replaced l s s' → has_trivial_destructor = false → (k < length l)%nat →
  referent s' (Slot (in_use s) k) = None.
Proof.
  intros R Hf Ht Hk. unfold replaced, after_destroy in Hf. rewrite Ht in Hf.
  pose proof (rep_slots _ _ R) as Ra. destruct (m_array s) as [a|]; [|destruct Ra as [_ ->]; simpl in Hk; lia].
  assert (in_use s < in_use s')%nat by (unfold in_use; rewrite Hf, length_app; simpl; lia).
  unfold referent. rewrite storages_lookup, Hf by lia. unfold in_use. rewrite list_lookup_middle by done.
  cbn [mbind option_bind]. rewrite lookup_app_l, lookup_replicate_2 by (rewrite ?length_replicate; lia). done.
Qed.

(** The copy of the objects into new storage of [n] slots. *)
Lemma grow_ok s l n o : rep s l → m_capacity s < n →
  ∃ s', (array <- copy_from (Z.to_nat (m_size s)) 0 (replicate (Z.to_nat n) None) ;;
         replace_array array ;; set_capacity n ;; ret false)
        (Mra (m_array s) (m_size s) (m_capacity s) (destroyed s) (constructed s) o (forgotten s)) = Some (false, s') ∧
    rep s' l ∧ m_capacity s' = n ∧ outcomes s' = o ∧ replaced l s s'.
Proof.
  intros R Hn. pose proof (rep_le _ _ R) as Hle. destruct R as [Rs Ra Rl]. rewrite Rs, Nat2Z.id.
  destruct (m_array s) as [a|] eqn:Ea.
  - destruct Ra as (r & -> & Hc & Hp & Hr).
    set (s0 := Mra _ _ _ _ _ _ _).
    pose proof (copy_from_ok l [] s0 r (Z.to_nat n)) as Hcp. simpl in Hcp.
    erewrite bind_ok by (apply Hcp; [unfold after_destroy; by destruct has_trivial_destructor|lia]).
    do 2 erewrite bind_ok by reflexivity. eexists. split; [reflexivity|]. split_and!; [|done|done|].
    2:{ unfold replaced. rewrite Ea. simpl. by rewrite <- (length_fmap Some l), drop_app_length. }
    split; simpl; [done| |].
    + eexists. split; [reflexivity|]. rewrite length_app, length_fmap, length_replicate.
      split_and!; [lia|lia|]. intros _. apply raw_replicate.
    + intros Ht. specialize (Rl Ht). unfold destroyed_now. rewrite Ht, length_app, length_rev. lia.
  - destruct Ra as [Hc ->]. simpl. erewrite bind_ok by reflexivity. do 2 erewrite bind_ok by reflexivity.
    eexists. split; [reflexivity|]. split_and!; [|done|done|unfold replaced; by rewrite Ea].
    split; simpl; [done| |done].
    exists (replicate (Z.to_nat n) None). rewrite length_replicate. split_and!; [done|lia|lia|].
    intros _. apply raw_replicate.
Qed.

Lemma rep_outcomes s l o : rep s l →
  rep (Mra (m_array s) (m_size s) (m_capacity s) (destroyed s) (constructed s) o (forgotten s)) l.
Proof. by intros [? ? ?]. Qed.

(** [reserve]: storage for [n] elements, unless the allocation fails. *)
Lemma reserve_ok s l n : rep s l → 0 ≤ n → addressable n →
  ∃ r s', reserve n s = Some (r, s') ∧ rep s' l ∧
    r = (m_capacity s <? n) && negb (default false (head (outcomes s))) ∧
    m_capacity s' = (if r then m_capacity s else Z.max n (m_capacity s)) ∧
    (n ≤ m_capacity s → s' = s) ∧
    (∀ e v, names s e v → survives s e → names s' e v) ∧
    (r = false → m_capacity s < n → replaced l s s') ∧ (r = true → same_array s s').
Proof.
  intros R Hn Ha. unfold reserve. erewrite bind_ok by reflexivity. unfold id.
  destruct (Z.leb_spec n (m_capacity s)) as [Hc|Hc].
  - exists false, s. split_and!; try done; [|lia..]. by rewrite (proj2 (Z.ltb_ge _ _)).
  - rewrite (proj2 (Z.ltb_lt _ _)) by done.
    unfold alloc_root. destruct (outcomes s) as [|[] o] eqn:Eo; simpl default.
    + erewrite bind_ok by (by rewrite Eo). exists true, s. split_and!; try done; [lia..|]. intros _. by destruct s.
    + erewrite bind_ok by (by rewrite Eo). rewrite slots_of by done. cbn [andb negb].
      destruct (grow_ok s l n o R Hc) as (s' & E1 & R' & C' & _ & Hr). exists false, s'.
      split_and!; try done; [lia|lia|]. intros e v. by apply (replaced_names l).
    + erewrite bind_ok by (by rewrite Eo). eexists true, _. split; [reflexivity|].
      split_and!; try done; [by apply rep_outcomes|lia].
Qed.

(** The end of [push_back]: there is a free slot. *)
Definition append (e : reference) : M mem_root_array bool :=
  s <- gets m_size ;;
  a <- get_slots ;;
  set_size (to_ulonglong (s + 1)) ;;
  g <- gets in_use ;;
  assert_that (match e with Slot g' ix => negb ((g' =? g)%nat && (Z.of_nat ix =? s)) | Outside _ => true end) ;;
  v <- deref e ;;
  a <- construct a s v ;;
  set_array a ;;
  ret false.

Lemma addressable_u s l : rep s l → addressable (m_capacity s) → in_u 64 (m_capacity s).
Proof. intros R. pose proof (rep_le _ _ R). unfold addressable, in_u. nia. Qed.

(** Writing a slot behind the elements changes no object that is referred to. *)
Lemma append_names s e v l x r y d c o : rep s l → m_array s = Some ((Some <$> l) ++ x :: r) → names s e v →
  names (Mra (Some ((Some <$> l) ++ y :: r)) (Z.of_nat (length l) + 1) (m_capacity s) d c o (forgotten s)) e v.
Proof.
  intros R Ha Hn. destruct e as [v'|g ix]; [done|]. destruct (decide (g = in_use s)) as [->|Hg].
  - destruct Hn as [Hr Hlt]. specialize (Hlt eq_refl). rewrite (rep_size _ _ R) in Hlt.
    unfold referent in Hr. rewrite (storages_in_use _ _ Ha) in Hr. cbn [mbind option_bind] in Hr.
    split; [|simpl; lia]. unfold referent. set (s2 := Mra _ _ _ _ _ _ _).
    assert (storages s2 !! in_use s = Some ((Some <$> l) ++ y :: r)) as -> by (by apply (storages_in_use s2)).
    cbn [mbind option_bind]. rewrite lookup_app_l in Hr |- * by (rewrite length_fmap; lia). done.
  - eapply forgotten_names; [exact Hn|done|]. cbn [forgotten]. symmetry. apply app_nil_r.
Qed.

Lemma mra_append_ok s l e v : rep s l → Z.of_nat (length l) < m_capacity s → in_u 64 (m_capacity s) → names s e v →
  ∃ s', append e s = Some (false, s') ∧ rep s' (l ++ [v]) ∧
    m_capacity s' = m_capacity s ∧ outcomes s' = outcomes s ∧ names s' e v.
Proof.
  intros R Hlt Hu Hn. pose proof R as [Rs Ra Rl].
  destruct (m_array s) as [a|] eqn:Ea; [|destruct Ra as [? ->]; simpl in *; lia].
  destruct Ra as (r & -> & Hc & Hp & Hr). rewrite length_app, length_fmap in Hc.
  destruct r as [|x r]; [simpl in Hc; lia|].
  unfold append. erewrite bind_ok by reflexivity. erewrite bind_ok by (by apply gets_opt_ok).
  do 2 erewrite bind_ok by reflexivity.
  assert (match e with Slot g' ix => negb ((g' =? in_use s)%nat && (Z.of_nat ix =? m_size s)) | Outside _ => true end = true) as Hself.
  { destruct e as [|g ix]; [done|]. destruct (Nat.eqb_spec g (in_use s)) as [->|]; [|done].
    rewrite (proj2 (Z.eqb_neq _ _)); [done|]. destruct Hn as [_ Hn]. specialize (Hn eq_refl). lia. }
  unfold in_use in Hself |- *. cbn [forgotten]. rewrite Hself. erewrite bind_ok by reflexivity.
  erewrite bind_ok by (unfold deref; apply gets_opt_ok; exact (proj1 Hn)).
  rewrite Rs. erewrite bind_ok by (rewrite <- (length_fmap Some l); apply construct_ok).
  erewrite bind_ok by reflexivity.
  assert (to_ulonglong (Z.of_nat (length l) + 1) = Z.of_nat (length l) + 1) as Ew
    by (unfold to_ulonglong; apply wrap_id; unfold in_u in *; lia).
  eexists. split; [reflexivity|]. split_and!; [|done|done|cbn [m_array m_size m_capacity destroyed constructed outcomes forgotten]; rewrite length_fmap, Ew; by apply (append_names s e v l x r)].
  split; simpl.
  - rewrite ?length_fmap, length_app. simpl. unfold to_ulonglong in *. rewrite Ew. lia.
  - exists r. rewrite fmap_app, <- app_assoc. split_and!; [done|rewrite length_app, length_fmap; simpl in *; lia|done|].
    intros Ht. specialize (Hr Ht). unfold raw in Hr. simpl in Hr. by injection Hr.
  - intros Ht. rewrite length_app. simpl. specialize (Rl Ht). lia.
Qed.

(** [push_back] on an array with a free slot, and on one without. *)
Lemma push_back_free s l e : rep s l → Z.of_nat (length l) < m_capacity s → push_back e s = append e s.
Proof.
  intros R Hlt. unfold push_back. erewrite bind_ok by reflexivity. rewrite (proj2 (Z.eqb_neq _ _)) by lia.
  erewrite bind_ok by reflexivity. cbn iota. erewrite bind_ok by reflexivity. unfold id.
  rewrite (rep_size _ _ R), (proj2 (Z.eqb_neq _ _)) by lia. by erewrite bind_ok by reflexivity.
Qed.

Lemma push_back_full s l e r s1 (c := if m_capacity s =? 0 then 20 else 2 * m_capacity s) :
  rep s l → Z.of_nat (length l) = m_capacity s → in_u 64 (2 * m_capacity s) → reserve c s = Some (r, s1) →
  (r = false → rep s1 l ∧ m_capacity s1 = c) →
  push_back e s = if r then Some (true, s1) else append e s1.
Proof.
  intros R Hf Hu E1 H1. pose proof (rep_le _ _ R). unfold push_back. erewrite bind_ok by reflexivity. subst c. rewrite Z.eqb_sym.
  destruct (Z.eqb_spec (m_capacity s) 0) as [H0|H0].
  - erewrite bind_ok by exact E1. destruct r; [done|]. destruct (H1 eq_refl) as [R1 C1]. cbn iota.
    erewrite bind_ok by reflexivity. unfold id. rewrite (rep_size _ _ R1), (proj2 (Z.eqb_neq _ _)) by lia.
    by erewrite bind_ok by reflexivity.
  - erewrite bind_ok by reflexivity. cbn iota. erewrite bind_ok by reflexivity. unfold id.
    rewrite (rep_size _ _ R), (proj2 (Z.eqb_eq _ _)) by done.
    replace (to_ulonglong (m_capacity s * 2)) with (2 * m_capacity s)
      by (unfold to_ulonglong; rewrite wrap_id; [lia|by rewrite Z.mul_comm]).
    erewrite bind_ok by exact E1. by destruct r.
Qed.

Lemma mra_push_free_ok s l e v : rep s l → Z.of_nat (length l) < m_capacity s → in_u 64 (m_capacity s) → names s e v →
  ∃ s', push_back e s = Some (false, s') ∧ rep s' (l ++ [v]) ∧ m_capacity s' = m_capacity s ∧ outcomes s' = outcomes s ∧
    names s' e v.
Proof. intros R Hlt Hu Hn. rewrite (push_back_free s l) by done. by apply mra_append_ok. Qed.

(** The growth that [push_back] makes when the array is full. *)
Lemma push_growth_ok s l e : rep s l → addressable 20 → addressable (2 * m_capacity s) → Z.of_nat (length l) = m_capacity s →
  let c := if m_capacity s =? 0 then 20 else 2 * m_capacity s in
  let r := negb (default false (head (outcomes s))) in
  ∃ s1, push_back e s = (if r then Some (true, s1) else append e s1) ∧ rep s1 l ∧
    m_capacity s1 = (if r then m_capacity s else c) ∧ m_capacity s < c ∧ in_u 64 c ∧
    (∀ v, names s e v → survives s e → names s1 e v) ∧ (r = false → replaced l s s1) ∧ (r = true → same_array s s1).
Proof.
  intros R H20 H2 Hf c r. pose proof (rep_le _ _ R) as Hle.
  assert (in_u 64 (2 * m_capacity s)) as Hu by (unfold addressable, in_u in *; nia).
  assert (m_capacity s < c ∧ addressable c ∧ in_u 64 c) as (Hc & Ha & Huc).
  { subst c. destruct (Z.eqb_spec (m_capacity s) 0); split_and!; try done; lia. }
  destruct (reserve_ok s l c R) as (r' & s1 & E1 & R1 & Er & C1 & _ & Hn & Hr & Hs); [lia|done|].
  rewrite (proj2 (Z.ltb_lt _ _)) in Er by done. cbn [andb] in Er. fold r in Er. subst r'.
  replace (Z.max c (m_capacity s)) with c in C1 by lia.
  exists s1. split_and!; try done; [|intros v; apply Hn|intros Hr'; by apply Hr].
  apply (push_back_full s l e r s1); try done. intros Er. by rewrite Er in C1.
Qed.

(** [push_back]: the storage grows exactly when it is full. *)
Lemma mra_push_back_ok s l e v : rep s l → addressable 20 → addressable (2 * m_capacity s) → names s e v →
  let full := Z.of_nat (length l) =? m_capacity s in
  (full = true → survives s e) →
  ∃ r s', push_back e s = Some (r, s') ∧ r = full && negb (default false (head (outcomes s))) ∧
    rep s' (if r : bool then l else l ++ [v]) ∧
    m_capacity s' = (if full && negb r then (if m_capacity s =? 0 then 20 else 2 * m_capacity s) else m_capacity s) ∧
    (r = true → same_array s s').
Proof.
  intros R H20 H2 Hn full Hsv. pose proof (rep_le _ _ R) as Hle. subst full.
  destruct (Z.eqb_spec (Z.of_nat (length l)) (m_capacity s)) as [Hf|Hf].
  2:{ destruct (mra_push_free_ok s l e v R) as (s' & E1 & R' & C' & _); [lia|unfold addressable, in_u in *; nia|done|].
      exists false, s'. split_and!; done. }
  destruct (push_growth_ok s l e R H20 H2 Hf) as (s1 & E1 & R1 & C1 & Hc & Huc & Hn1 & _ & Hs).
  rewrite E1. cbn [andb]. destruct (negb (default false (head (outcomes s)))).
  - exists true, s1. split_and!; done.
  - destruct (mra_append_ok s1 l e v R1) as (s' & E2 & R' & C' & _); [lia|by rewrite C1|apply Hn1; [done|by apply Hsv]|].
    exists false, s'. split_and!; try done. by rewrite C', C1.
Qed.

(** A full array that gives up its storage has destroyed the element that
    [push_back] was to copy. *)
Lemma push_back_dangles s l k : rep s l → addressable 20 → addressable (2 * m_capacity s) →
  Z.of_nat (length l) = m_capacity s → head (outcomes s) = Some true → has_trivial_destructor = false → (k < length l)%nat →
  push_back (Slot (in_use s) k) s = None.
Proof.
  intros R H20 H2 Hf Ho Ht Hk.
  destruct (push_growth_ok s l (Slot (in_use s) k) R H20 H2 Hf) as (s1 & E1 & R1 & C1 & Hc & Huc & _ & Hr & _).
  rewrite Ho in *. cbn [default from_option id negb] in *. rewrite E1.
  pose proof (replaced_dangles l s s1 k R (Hr eq_refl) Ht Hk) as Hd.
  pose proof (rep_slots _ _ R1) as Ra. destruct (m_array s1) as [a|] eqn:Ea; [|destruct Ra as [_ ->]; simpl in Hk; lia].
  unfold append. erewrite bind_ok by reflexivity. unfold get_slots. erewrite bind_ok by (by apply gets_opt_ok).
  do 2 erewrite bind_ok by reflexivity. unfold bind at 1. destruct (assert_that _ _) as [[u s2]|] eqn:Eassert; [|done].
  unfold assert_that in Eassert. destruct (negb _) in Eassert; [|done]. injection Eassert as <- <-.
  unfold bind at 1, deref, gets_opt. 
  assert (referent (Mra (m_array s1) (to_ulonglong (m_size s1 + 1)) (m_capacity s1) (destroyed s1) (constructed s1) (outcomes s1) (forgotten s1))
            (Slot (in_use s) k) = None) as -> by exact Hd. done.
Qed.

Lemma pop_back_ok s l v : rep s (l ++ [v]) → in_u 64 (m_capacity s) →
  ∃ s', pop_back s = Some (tt, s') ∧ rep s' l ∧ m_capacity s' = m_capacity s ∧ outcomes s' = outcomes s.
Proof.
  intros R Hu. pose proof (rep_le _ _ R) as Hle. rewrite length_app in Hle. simpl in Hle.
  destruct R as [Rs Ra Rl]. rewrite length_app in Rs. simpl in Rs.
  destruct (m_array s) as [a|] eqn:Ea; [|destruct Ra as [_ Ra]; by destruct l].
  destruct Ra as (r & Ha & Hc & Hp & Hr). rewrite fmap_app, <- app_assoc in Ha. simpl in Ha.
  assert (to_ulonglong (m_size s - 1) = Z.of_nat (length l)) as Es.
  { unfold to_ulonglong. rewrite Rs, wrap_id by (unfold in_u in *; lia). lia. }
  unfold pop_back. erewrite bind_ok by reflexivity.
  rewrite (proj2 (Z.eqb_neq (m_size s) 0)), orb_true_r by lia. erewrite bind_ok by reflexivity. rewrite Es.
  rewrite (proj2 (Z.ltb_lt _ (m_size s))), orb_true_r by lia.
  unfold raw in *. destruct has_trivial_destructor eqn:Ht; cbn [negb].
  - erewrite bind_ok by reflexivity. eexists. split; [reflexivity|]. split_and!; [|done|done].
    split; simpl; [done| |by rewrite Ht]. rewrite Ea. exists (Some v :: r). by rewrite Ht.
  - rewrite bind_assoc. erewrite bind_ok by reflexivity.
    erewrite bind_ok by (rewrite <- (length_fmap Some l); apply destroy_ok; by rewrite Ea, Ha).
    eexists. split; [reflexivity|]. split_and!; [|done|done]. split; simpl; [done| |].
    + exists (None :: r). split_and!; [done| |done|]. { rewrite <- Hc, Ha, !length_app. done. }
      intros _. apply raw_cons, Hr. done.
    + intros _. specialize (Rl eq_refl). rewrite length_app in Rl. simpl in Rl. lia.
Qed.

Lemma chop_ok s l1 l2 : rep s (l1 ++ l2) → (l2 = [] → dbug = false) →
  ∃ s', chop (Z.of_nat (length l1)) s = Some (tt, s') ∧ rep s' l1 ∧ m_capacity s' = m_capacity s ∧ outcomes s' = outcomes s.
Proof.
  intros [Rs Ra Rl] Hd. rewrite length_app in Rs. unfold chop. erewrite bind_ok by reflexivity.
  assert (negb dbug || (Z.of_nat (length l1) <? m_size s) = true) as ->.
  { destruct l2; [by rewrite Hd|]. rewrite (proj2 (Z.ltb_lt _ _)) by (rewrite Rs; simpl; lia). apply orb_true_r. }
  erewrite bind_ok by reflexivity.
  replace (Z.to_nat (m_size s - Z.of_nat (length l1))) with (length l2) by (rewrite Rs; lia).
  destruct (m_array s) as [a|] eqn:Ea.
  - destruct Ra as (r & Ha & Hc & Hp & Hr). rewrite fmap_app, <- app_assoc in Ha.
    unfold raw in *. destruct has_trivial_destructor eqn:Ht; cbn [negb].
    + erewrite bind_ok by reflexivity. eexists. split; [reflexivity|]. split_and!; [|done|done].
      split; simpl; [done| |by rewrite Ht]. rewrite Ea. exists ((Some <$> l2) ++ r). by rewrite Ht.
    + erewrite bind_ok by (rewrite <- (length_fmap Some l1); apply destroy_from_ok; by rewrite Ea, Ha).
      eexists. split; [reflexivity|]. split_and!; [|done|done]. split; simpl; [by rewrite ?length_fmap| |].
      * eexists. split_and!; [done| |done|].
        { rewrite <- Hc, Ha, !length_app, length_replicate, !length_fmap. lia. }
        intros _. apply raw_app; [apply raw_replicate|by apply Hr].
      * intros _. specialize (Rl eq_refl). rewrite length_app in Rl. rewrite length_app, length_rev. lia.
  - destruct Ra as [Hc Hl]. apply app_eq_nil in Hl as [-> ->]. simpl.
    destruct has_trivial_destructor eqn:Ht; cbn [negb]; erewrite bind_ok by reflexivity;
      (eexists; split; [reflexivity|]; split_and!; [|done|done]; split; simpl; [done|by rewrite Ea|by rewrite ?Ht]).
Qed.

(** The loops of [resize]. *)
Lemma fill_loop_ok k s l n e v fuel : rep s l → n = Z.of_nat (length l + k) → n ≤ m_capacity s → in_u 64 (m_capacity s) →
  names s e v → (k < fuel)%nat →
  ∃ s', while_loop fuel (s <- gets m_size ;; ret (negb (n =? s))) (push_back e ;; ret tt) s = Some (tt, s') ∧
    rep s' (l ++ replicate k v).
Proof.
  revert s l fuel. induction k as [|k IH]; intros s l fuel R Hn Hc Hu Hv Hf; (destruct fuel as [|fuel]; [lia|]).
  - exists s. simpl replicate. rewrite app_nil_r. split; [|done]. apply while_stop.
    erewrite bind_ok by reflexivity. rewrite (rep_size _ _ R), (proj2 (Z.eqb_eq _ _)) by lia. done.
  - destruct (mra_push_free_ok s l e v R) as (s1 & E1 & R1 & C1 & _ & Hv1); [lia|done|done|].
    destruct (IH s1 (l ++ [v]) fuel R1) as (s' & E2 & R2); [rewrite length_app; simpl; lia|lia|by rewrite C1|done|lia|].
    exists s'. split; [|by rewrite <- app_assoc in R2]. erewrite while_step; [exact E2| |].
    + erewrite bind_ok by reflexivity. rewrite (rep_size _ _ R), (proj2 (Z.eqb_neq _ _)) by lia. done.
    + erewrite bind_ok by exact E1. done.
Qed.

Lemma drop_loop_ok l2 s l n fuel : rep s (l ++ l2) → n = Z.of_nat (length l) → in_u 64 (m_capacity s) →
  (length l2 < fuel)%nat →
  ∃ s', while_loop fuel (s <- gets m_size ;; ret (negb (n =? s))) pop_back s = Some (tt, s') ∧ rep s' l.
Proof.
  revert s fuel. induction l2 as [|v l2 IH] using rev_ind; intros s fuel R Hn Hu Hf; (destruct fuel as [|fuel]; [lia|]).
  - rewrite app_nil_r in R. exists s. split; [|done]. apply while_stop. erewrite bind_ok by reflexivity.
    rewrite (rep_size _ _ R), (proj2 (Z.eqb_eq _ _)) by lia. done.
  - rewrite length_app in Hf. simpl in Hf. rewrite app_assoc in R.
    destruct (pop_back_ok s (l ++ l2) v R Hu) as (s1 & E1 & R1 & C1 & _).
    destruct (IH s1 fuel R1 Hn) as (s' & E2 & R2); [by rewrite C1|lia|].
    exists s'. split; [|done]. erewrite while_step; [exact E2| |exact E1].
    erewrite bind_ok by reflexivity. rewrite (rep_size _ _ R), !length_app, (proj2 (Z.eqb_neq _ _)) by (simpl; lia). done.
Qed.

Lemma rep_set_size s l : rep s l → set_size (Z.of_nat (length l)) s = Some (tt, s).
Proof. intros R. unfold set_size, modify. rewrite <- (rep_size _ _ R). by destruct s. Qed.

(** Dropping the tail by setting the size, for a trivial destructor. *)
Lemma rep_shorten s l1 l2 : has_trivial_destructor = true → rep s (l1 ++ l2) →
  rep (Mra (m_array s) (Z.of_nat (length l1)) (m_capacity s) (destroyed s) (constructed s) (outcomes s) (forgotten s)) l1.
Proof.
  intros Ht [Rs Ra Rl]. split; simpl; [done| |by rewrite Ht]. destruct (m_array s) as [a|].
  - destruct Ra as (r & -> & Hc & Hp & _). exists ((Some <$> l2) ++ r).
    rewrite fmap_app, <- app_assoc in *. by rewrite Ht.
  - destruct Ra as [? Hl]. by apply app_eq_nil in Hl as [-> ->].
Qed.

(** The sequence [resize] gives. *)
Definition resized (l : list E) (n : nat) (v : E) : list E := take n l ++ replicate (n - length l) v.

Lemma resize_ok s l n e v fuel : rep s l → addressable (Z.of_nat n) → addressable (m_capacity s) →
  (n + length l < fuel)%nat → names s e v → (m_capacity s < Z.of_nat n → survives s e) →
  ∃ s', resize fuel (Z.of_nat n) e s = Some (tt, s') ∧
    rep s' (if (m_capacity s <? Z.of_nat n) && negb (default false (head (outcomes s))) then l else resized l n v).
Proof.
  intros R Hn Hcap Hf Hv Hsv. pose proof (addressable_u _ _ R Hcap) as Hu. pose proof (rep_le _ _ R) as Hle.
  unfold resize, resized. erewrite bind_ok by reflexivity. rewrite (rep_size _ _ R).
  destruct (Z.eqb_spec (Z.of_nat n) (Z.of_nat (length l))) as [He|He].
  { exists s. split; [done|]. rewrite (proj2 (Z.ltb_ge _ _)) by lia. cbn [andb].
    replace n with (length l) by lia. by rewrite firstn_all, Nat.sub_diag, app_nil_r. }
  destruct (Z.ltb_spec (Z.of_nat (length l)) (Z.of_nat n)) as [Hlt|Hlt].
  - destruct (reserve_ok s l (Z.of_nat n) R) as (r & s1 & E1 & R1 & Er & C1 & Hid & Hn1 & _); [lia|done|].
    assert (names s1 e v) as Hv1.
    { destruct (Z.le_gt_cases (Z.of_nat n) (m_capacity s)); [by rewrite Hid by done|]. apply Hn1; [done|]. apply Hsv. lia. }
    erewrite bind_ok by exact E1. rewrite <- Er. destruct r; cbn [negb]; [by exists s1|].
    rewrite take_ge by lia. apply fill_loop_ok; [done|lia|lia| |done|lia].
    rewrite C1. unfold in_u, addressable in *. nia.
  - rewrite (proj2 (Z.ltb_ge (m_capacity s) _)) by lia. cbn [andb].
    replace (n - length l)%nat with 0%nat by lia. simpl replicate. rewrite app_nil_r.
    assert (length (take n l) = n) as Hl by (rewrite length_take; lia).
    rewrite <- (take_drop n l) in R. destruct has_trivial_destructor eqn:Ht; cbn [negb].
    + erewrite bind_ok by reflexivity. eexists. split; [reflexivity|]. simpl. rewrite <- Hl at 1.
      by eapply rep_shorten.
    + destruct (drop_loop_ok (drop n l) s (take n l) (Z.of_nat n) fuel R) as (s' & E1 & R1); [by rewrite Hl|done|rewrite length_drop; lia|].
      erewrite bind_ok by exact E1. exists s'. split; [|done]. rewrite <- Hl at 1. by apply rep_set_size.
Qed.

Lemma at_ok s l n v : rep s l → l !! n = Some v → at_ (Z.of_nat n) s = Some (v, s).
Proof.
  intros R Hl. unfold at_. erewrite bind_ok by reflexivity.
  pose proof (lookup_lt_Some _ _ _ Hl) as Hlt.
  rewrite (rep_size _ _ R), (proj2 (Z.ltb_lt _ _)), orb_true_r by lia. erewrite bind_ok by reflexivity.
  pose proof (rep_slots _ _ R) as Ra. destruct (m_array s) as [a|] eqn:Ea; [|destruct Ra as [_ ->]; done].
  destruct Ra as (r & -> & _). apply list_elem_of_split_length in Hl as (l1 & l2 & -> & ->).
  rewrite <- (length_fmap Some l1). eapply get_object_ok. rewrite Ea, fmap_app. simpl. by rewrite <- app_assoc.
Qed.

Lemma clear_ok s l : rep s l → ∃ s', clear s = Some (tt, s') ∧ rep s' [] ∧ m_capacity s' = m_capacity s.
Proof.
  intros R. unfold clear, empty. rewrite bind_assoc. erewrite bind_ok by reflexivity. erewrite bind_ok by reflexivity.
  rewrite (rep_size _ _ R). destruct l as [|x l]; [by exists s|].
  destruct (chop_ok s [] (x :: l) R) as (s' & E1 & R' & C' & _); [done|]. exists s'. split; [exact E1|done].
Qed.

(** C7: [Mem_root_array] implements a sequence, in debug and release builds.
    [push_back] appends a copy of the object its reference names, which may be
    an element of the array itself; the storage grows only when it is full, to 20
    slots or to twice the slots, and when that allocation fails it reports so and
    changes nothing.  The exception is an element of the array, with a
    destructor that is not trivial, given to a full array: the storage grows,
    which destroys the element before it is copied, and [push_back] is
    undefined.  [pop_back] removes the last element, [chop] the tail, [clear]
    all, and the storage stays; [at] and [back] read the elements.  But for the exception no operation
    reads or destroys an object that is not live, and with a destructor that is
    not trivial the objects constructed are exactly those in the array and those
    destroyed. *)
Theorem mem_root_array_operations s l e v k : rep s l → addressable 20 → addressable (2 * m_capacity s) → names s e v →
  let full := Z.of_nat (length l) =? m_capacity s in
  ((full = true → survives s e) → ∃ r s', push_back e s = Some (r, s') ∧
     r = full && negb (default false (head (outcomes s))) ∧
     rep s' (if r : bool then l else l ++ [v]) ∧
     m_capacity s' = (if full && negb r
                      then (if m_capacity s =? 0 then 20 else 2 * m_capacity s) else m_capacity s) ∧
     (r = true → same_array s s')) ∧
  (full = true → head (outcomes s) = Some true → has_trivial_destructor = false → (k < length l)%nat →
     push_back (Slot (in_use s) k) s = None) ∧
  (l ≠ [] → ∃ s', pop_back s = Some (tt, s') ∧ rep s' (removelast l) ∧ m_capacity s' = m_capacity s) ∧
  ((k < length l)%nat → (∃ s', chop (Z.of_nat k) s = Some (tt, s') ∧ rep s' (take k l) ∧ m_capacity s' = m_capacity s) ∧
     (∃ x, l !! k = Some x ∧ at_ (Z.of_nat k) s = Some (x, s))) ∧
  (l ≠ [] → ∃ x, list.last l = Some x ∧ back s = Some (x, s)) ∧
  (∃ s', clear s = Some (tt, s') ∧ rep s' [] ∧ m_capacity s' = m_capacity s).
Proof.
  intros R H20 H2 Hv full. pose proof (rep_le _ _ R) as Hle.
  assert (in_u 64 (m_capacity s)) as Hu by (unfold in_u, addressable in *; nia).
  split_and!; [by apply mra_push_back_ok| | | | |by eapply clear_ok].
  { intros Hf Ho Ht Hk. apply (push_back_dangles s l); try done. by apply Z.eqb_eq. }
  - intros Hl. destruct l as [|x l _] using rev_ind; [done|]. rewrite removelast_last.
    destruct (pop_back_ok s l x R Hu) as (s' & E1 & R' & C' & _). by exists s'.
  - intros Hk. split.
    + rewrite <- (take_drop k l) in R. destruct (chop_ok s (take k l) (drop k l) R) as (s' & E1 & R' & C' & _).
      { intros Hd. apply (f_equal length) in Hd. rewrite length_drop in Hd. simpl in Hd. lia. }
      exists s'. split; [|done]. rewrite <- E1, length_take. repeat f_equal. lia.
    + destruct (lookup_lt_is_Some_2 l k Hk) as [x Hx]. exists x. split; [done|by apply (at_ok s l)].
  - intros Hl. destruct l as [|x l _] using rev_ind; [done|]. exists x. split; [apply last_snoc|].
    unfold back. erewrite bind_ok by reflexivity. rewrite (rep_size _ _ R), length_app in *.
    unfold to_ulonglong. simpl in *. rewrite wrap_id by (unfold in_u in *; lia).
    replace (Z.of_nat (length l + 1) - 1) with (Z.of_nat (length l)) by lia.
    apply (at_ok s (l ++ [x])); [done|]. by apply list_lookup_middle.
Qed.

(** [resize] gives the first [n] elements, followed by copies of the value
    up to [n] elements, and always ends, when the value is not an element that the
    growth of the storage destroys; when the storage has to grow and the
    allocation fails, it leaves the array as it was and reports nothing, so that
    the caller sees it only in [size]. *)
Theorem mem_root_array_resize s l n e v fuel : rep s l → addressable (Z.of_nat n) → addressable (m_capacity s) →
  (n + length l < fuel)%nat → names s e v → (m_capacity s < Z.of_nat n → survives s e) →
  ∃ s', resize fuel (Z.of_nat n) e s = Some (tt, s') ∧
    rep s' (if (m_capacity s <? Z.of_nat n) && negb (default false (head (outcomes s))) then l else resized l n v).
Proof. intros R Hn Hc Hf Hv Hs. by apply resize_ok. Qed.
End Array.

(** Arrays of objects of 8 bytes with a destructor. *)
Lemma rep_ctor (o : list bool) : rep (E := N) false (ctor o) [].
Proof. by split. Qed.

(** Twenty elements fill the first storage: an element given to [push_back] then
    is destroyed first, another object is appended. *)
Definition full_array : mem_root_array (E := N) := Mra (Some (replicate 20 (Some 7%N))) 20 20 [] 20 [true] [].
Lemma rep_full_array : rep false full_array (replicate 20 7%N).
Proof. split; [done| |done]. exists []. split_and!; [done|done|done|]. by intros _. Qed.

Lemma mem_root_array_operations_witness :
  (∃ r s', push_back 8 false (Outside 5%N) full_array = Some (r, s') ∧
     rep false s' (if r : bool then replicate 20 7%N else replicate 20 7%N ++ [5%N]) ∧
     m_capacity s' = (if negb r then 40 else 20)) ∧
  push_back 8 false (Slot 0 3) full_array = None ∧
  ∃ r s', push_back 8 true (Slot 0 3) full_array = Some (r, s') ∧ r = false.
Proof.
  split; [|split].
  - destruct (mem_root_array_operations 8 false true ltac:(lia) full_array _ (Outside 5%N) 5%N 0 rep_full_array)
      as (Hp & _); [by vm_compute..|]. 
    destruct (Hp (λ _, I)) as (r & s' & E1 & _ & R' & C' & _). exists r, s'. split_and!; [exact E1|exact R'|exact C'].
  - destruct (mem_root_array_operations 8 false true ltac:(lia) full_array _ (Outside 5%N) 5%N 3 rep_full_array)
      as (_ & Hd & _); [by vm_compute..|]. apply Hd; (done || (simpl; lia)).
  - eexists _, _. split; [vm_compute; reflexivity|done].
Defined.

Lemma mem_root_array_resize_witness :
  ∃ s', resize 8 false true 10 3 (Outside 7%N) (ctor [true]) = Some (tt, s') ∧ rep false s' [7%N; 7%N; 7%N].
Proof.
  destruct (mem_root_array_resize 8 false true ltac:(lia) (ctor [true]) [] 3 (Outside 7%N) 7%N 10 (rep_ctor _)) as (s' & E1 & R');
    [by vm_compute|by vm_compute|simpl; lia|done|done|].
  exists s'. split; [exact E1|exact R'].
Defined.
