(* ===== verification/SelArg.v ===== *)
(** [opt_range.h], [class SEL_ARG]: the elementary intervals of the range
    optimizer.  An object is one interval over one key part, with flags that say
    whether each end is open or absent; intervals over the same key part are
    chained, and each may lead to the intervals of the next key part.  The
    operations combine intervals and linearise a graph to the two keys of an
    index range, taking descending key parts into account.

    [SEL_ARG::sel_cmp], [Field::key_cmp], the constructor with an interval and
    the tree functions [first] and [last] are defined elsewhere: they are
    parameters, with what is documented of them as hypotheses. *)
From S2P Require Import Prelude.

(** ** Flags ([my_base.h]) *)

Definition NO_MIN_RANGE : Z := 1.
Definition NO_MAX_RANGE : Z := 2.
Definition NEAR_MIN : Z := 4.
Definition NEAR_MAX : Z := 8.
Definition GEOM_FLAG : Z := 128.
Definition HA_REVERSE_SORT : Z := 128.

(** [flag & mask] as a condition. *)
Definition has (flag mask : Z) : bool := truth (Z.land flag mask).

Definition invert_min_flag (min_flag : Z) : Z :=
  let out := Z.land min_flag (unot 32 (Z.lor NEAR_MIN NO_MIN_RANGE)) in
  let out := if has min_flag NEAR_MIN then Z.lor out NEAR_MAX else out in
  if has min_flag NO_MIN_RANGE then Z.lor out NO_MAX_RANGE else out.

Definition invert_max_flag (max_flag : Z) : Z :=
  let out := Z.land max_flag (unot 32 (Z.lor NEAR_MAX NO_MAX_RANGE)) in
  let out := if has max_flag NEAR_MAX then Z.lor out NEAR_MIN else out in
  if has max_flag NO_MAX_RANGE then Z.lor out NO_MIN_RANGE else out.

(** ** Intervals *)

(** [enum Type]. *)
Inductive sel_type := IMPOSSIBLE | MAYBE | MAYBE_KEY | KEY_RANGE.
#[export] Instance sel_type_eq_dec : EqDecision sel_type.
Proof. solve_decision. Defined.

(** The objects; a key value is its image, a sequence of bytes that starts with
    the NULL indicator when the key part may be NULL.  Objects refer to each
    other by address, 0 for none. *)
Record SEL_ARG := SelArg {
  type : sel_type;
  part : Z;
  maybe_null : bool;
  min_flag : Z;
  max_flag : Z;
  maybe_flag : Z;
  min_value : list Z;
  max_value : list Z;
  next : N;
  prev : N;
  next_key_part : N;
  elements : Z }.

Definition with_min (a : SEL_ARG) (v : list Z) (f : Z) : SEL_ARG :=
  SelArg (type a) (part a) (maybe_null a) f (max_flag a) (maybe_flag a) v (max_value a)
         (next a) (prev a) (next_key_part a) (elements a).
Definition with_max (a : SEL_ARG) (v : list Z) (f : Z) : SEL_ARG :=
  SelArg (type a) (part a) (maybe_null a) (min_flag a) f (maybe_flag a) (min_value a) v
         (next a) (prev a) (next_key_part a) (elements a).
Definition with_maybe (a : SEL_ARG) (f : Z) : SEL_ARG :=
  SelArg (type a) (part a) (maybe_null a) (min_flag a) (max_flag a) f (min_value a) (max_value a)
         (next a) (prev a) (next_key_part a) (elements a).

(** Code defined elsewhere, for one key part; [nullable] is
    [field->real_maybe_null()]. *)
Class SelCode := {
  nullable : bool;
  sel_cmp : list Z → list Z → Z → Z → Z;
  key_cmp : list Z → list Z → Z;
  new_SEL_ARG : Z → list Z → list Z → Z → Z → Z → SEL_ARG }.

Section Ops.
Context {SC : SelCode}.

Definition cmp_min_to_min (this arg : SEL_ARG) : Z :=
  sel_cmp (min_value this) (min_value arg) (min_flag this) (min_flag arg).
Definition cmp_min_to_max (this arg : SEL_ARG) : Z :=
  sel_cmp (min_value this) (max_value arg) (min_flag this) (max_flag arg).
Definition cmp_max_to_max (this arg : SEL_ARG) : Z :=
  sel_cmp (max_value this) (max_value arg) (max_flag this) (max_flag arg).
Definition cmp_max_to_min (this arg : SEL_ARG) : Z :=
  sel_cmp (max_value this) (min_value arg) (max_flag this) (min_flag arg).

Definition is_same (this arg : SEL_ARG) : bool :=
  if bool_decide (type this ≠ type arg) || negb (part this =? part arg) then false else
  if bool_decide (type this ≠ KEY_RANGE) then true else
  (cmp_min_to_min this arg =? 0) && (cmp_max_to_max this arg =? 0).

Definition merge_flags (this arg : SEL_ARG) : SEL_ARG :=
  with_maybe this (Z.lor (maybe_flag this) (maybe_flag arg)).
Definition maybe_smaller (this : SEL_ARG) : SEL_ARG := with_maybe this 1.

(** [is_null_interval]; a read past the image is undefined. *)
Definition is_null_interval (this : SEL_ARG) : option bool :=
  if maybe_null this then b ← max_value this !! 0%nat; Some (b =? 1) else Some false.

Definition clone_and (this arg : SEL_ARG) : SEL_ARG :=
  let '(new_min, flag_min) :=
    if 0 <=? cmp_min_to_min this arg then (min_value this, min_flag this)
    else (min_value arg, min_flag arg) in
  let '(new_max, flag_max) :=
    if cmp_max_to_max this arg <=? 0 then (max_value this, max_flag this)
    else (max_value arg, max_flag arg) in
  new_SEL_ARG (part this) new_min new_max flag_min flag_max
    (Z.b2z (truth (maybe_flag this) && truth (maybe_flag arg))).

(** min <= X < arg->min *)
Definition clone_first (this arg : SEL_ARG) : SEL_ARG :=
  new_SEL_ARG (part this) (min_value this) (min_value arg) (min_flag this)
    (if has (min_flag arg) NEAR_MIN then 0 else NEAR_MAX) (Z.lor (maybe_flag this) (maybe_flag arg)).

(** min <= X <= key_max *)
Definition clone_last (this arg : SEL_ARG) : SEL_ARG :=
  new_SEL_ARG (part this) (min_value this) (max_value arg) (min_flag this) (max_flag arg)
    (Z.lor (maybe_flag this) (maybe_flag arg)).

(** The test for the full range, of [copy_min] and [copy_max]. *)
Definition full_range (this : SEL_ARG) : bool :=
  Z.land (max_flag this) (Z.lor NO_MAX_RANGE NO_MIN_RANGE) =? Z.lor NO_MAX_RANGE NO_MIN_RANGE.

Definition copy_min (this arg : SEL_ARG) : bool * SEL_ARG :=
  let moved := 0 <? cmp_min_to_min this arg in
  let this := if moved then with_min this (min_value arg) (min_flag arg) else this in
  if moved && full_range this then (true, this)
  else (false, with_maybe this (Z.lor (maybe_flag this) (maybe_flag arg))).

Definition copy_max (this arg : SEL_ARG) : bool * SEL_ARG :=
  let moved := cmp_max_to_max this arg <=? 0 in
  let this := if moved then with_max this (max_value arg) (max_flag arg) else this in
  if moved && full_range this then (true, this)
  else (false, with_maybe this (Z.lor (maybe_flag this) (maybe_flag arg))).

Definition copy_min_to_min (this arg : SEL_ARG) : SEL_ARG := with_min this (min_value arg) (min_flag arg).
Definition copy_min_to_max (this arg : SEL_ARG) : SEL_ARG :=
  with_max this (min_value arg) (if has (min_flag arg) NEAR_MIN then 0 else NEAR_MAX).
Definition copy_max_to_min (this arg : SEL_ARG) : SEL_ARG :=
  with_min this (max_value arg) (if has (max_flag arg) NEAR_MAX then 0 else NEAR_MIN).

Definition is_singlepoint (this : SEL_ARG) : option bool :=
  if truth (min_flag this) || truth (max_flag this) then Some false else
  if maybe_null this then
    b ← min_value this !! 0%nat;
    c ← max_value this !! 0%nat;
    if negb (b =? c) then Some false else
    if truth b then Some true else
    Some (negb (truth (key_cmp (tail (min_value this)) (tail (max_value this)))))
  else Some (negb (truth (key_cmp (min_value this) (max_value this)))).

Definition simple_key (this : SEL_ARG) : bool := (next_key_part this =? 0)%N && (elements this =? 1).
End Ops.

(** ** Linearising a graph *)

(** [KEY_PART]: the length of the image of a key part and its flags. *)
Record KEY_PART := KeyPart { store_length : Z; kp_flag : Z }.

(** The bytes [memcpy] takes from an image. *)
Definition copy_bytes (v : list Z) (n : Z) : option (list Z) :=
  if bool_decide (0 ≤ n ∧ (Z.to_nat n ≤ length v)%nat) then Some (take (Z.to_nat n) v) else None.

(** The bytes stored for a value: NULL as its indicator and zeros. *)
Definition stored_image (maybe_null : bool) (v : list Z) (length : Z) : option (list Z) :=
  if maybe_null then
    b ← v !! 0%nat;
    if truth b then (if 1 <=? length then Some (1 :: replicate (Z.to_nat (length - 1)) 0) else None)
    else copy_bytes v length
  else copy_bytes v length.

(** [store_min] and [store_max]: the key buffer is the bytes written so far; the
    result says whether a value was added. *)
Definition store_min (this : SEL_ARG) (length : Z) (min_key : list Z) (min_key_flag : Z) : option (Z * list Z) :=
  if has (min_flag this) GEOM_FLAG ||
     (negb (has (min_flag this) NO_MIN_RANGE) && negb (has min_key_flag (Z.lor NO_MIN_RANGE NEAR_MIN)))
  then img ← stored_image (maybe_null this) (min_value this) length; Some (1, min_key ++ img)
  else Some (0, min_key).

Definition store_max (this : SEL_ARG) (length : Z) (max_key : list Z) (max_key_flag : Z) : option (Z * list Z) :=
  if negb (has (max_flag this) NO_MAX_RANGE) && negb (has max_key_flag (Z.lor NO_MAX_RANGE NEAR_MAX))
  then img ← stored_image (maybe_null this) (max_value this) length; Some (1, max_key ++ img)
  else Some (0, max_key).

Section Graph.
(** The key parts of the index, the objects, and the tree functions. *)
Context (key : list KEY_PART) (h : gmap N SEL_ARG) (first last : N → N).

Definition reversed (this : SEL_ARG) : option bool :=
  kp ← key !! Z.to_nat (part this); Some (has (kp_flag kp) HA_REVERSE_SORT).

(** The two keys and the numbers of their parts. *)
Definition store_min_max (this : SEL_ARG) (length : Z) (min_key : list Z) (minf : Z) (max_key : list Z) (maxf : Z)
    (min_part max_part : Z) : option (list Z * list Z * Z * Z) :=
  rev ← reversed this;
  if rev : bool then
    '(r, max_key) ← store_min this length max_key minf;
    '(q, min_key) ← store_max this length min_key maxf;
    Some (min_key, max_key, min_part + q, max_part + r)
  else
    '(r, min_key) ← store_min this length min_key minf;
    '(q, max_key) ← store_max this length max_key maxf;
    Some (min_key, max_key, min_part + r, max_part + q).

Definition get_min_flag (this : SEL_ARG) : option Z :=
  rev ← reversed this; Some (if rev : bool then invert_max_flag (max_flag this) else min_flag this).
Definition get_max_flag (this : SEL_ARG) : option Z :=
  rev ← reversed this; Some (if rev : bool then invert_min_flag (min_flag this) else max_flag this).
Definition index_order_prev (this : SEL_ARG) : option N :=
  rev ← reversed this; Some (if rev : bool then next this else prev this).
Definition index_order_next (this : SEL_ARG) : option N :=
  rev ← reversed this; Some (if rev : bool then prev this else next this).

(** [store_min_key] and [store_max_key] call each other; each call is on a
    greater key part, so a fuel above the number of key parts is enough.  The
    result is the number of values added, the key and the flags. *)
Fixpoint store_min_key (fuel : nat) (this : N) (range_key : list Z) (range_key_flag last_part : Z)
    (start_key : bool) {struct fuel} : option (Z * list Z * Z) :=
  match fuel with
  | O => None
  | S fuel =>
      key_tree ← h !! first this;
      kp ← key !! Z.to_nat (part key_tree);
      '(res, range_key) ← store_min key_tree (store_length kp) range_key range_key_flag;
      if res =? 0 then Some (0, range_key, range_key_flag) else
      let flag := Z.lor range_key_flag (min_flag key_tree) in
      if (next_key_part key_tree =? 0)%N then Some (res, range_key, flag) else
      nkp ← h !! next_key_part key_tree;
      if bool_decide (type nkp = KEY_RANGE) && negb (part key_tree =? last_part) &&
         (part nkp =? part key_tree + 1) && negb (has flag (Z.lor NO_MIN_RANGE NEAR_MIN))
      then
        let asc := negb (has (kp_flag kp) HA_REVERSE_SORT) in
        if Bool.eqb start_key asc then
          '(r, range_key, flag) ← store_min_key fuel (next_key_part key_tree) range_key flag last_part start_key;
          Some (res + r, range_key, flag)
        else
          '(r, range_key, flag) ←
             store_max_key fuel (next_key_part key_tree) range_key (invert_min_flag flag) last_part start_key;
          Some (res + r, range_key, invert_max_flag flag)
      else Some (res, range_key, flag)
  end
with store_max_key (fuel : nat) (this : N) (range_key : list Z) (range_key_flag last_part : Z)
    (start_key : bool) {struct fuel} : option (Z * list Z * Z) :=
  match fuel with
  | O => None
  | S fuel =>
      key_tree ← h !! last this;
      kp ← key !! Z.to_nat (part key_tree);
      '(res, range_key) ← store_max key_tree (store_length kp) range_key range_key_flag;
      if res =? 0 then Some (0, range_key, range_key_flag) else
      let flag := Z.lor range_key_flag (max_flag key_tree) in
      if (next_key_part key_tree =? 0)%N then Some (res, range_key, flag) else
      nkp ← h !! next_key_part key_tree;
      if bool_decide (type nkp = KEY_RANGE) && negb (part key_tree =? last_part) &&
         (part nkp =? part key_tree + 1) && negb (has flag (Z.lor NO_MAX_RANGE NEAR_MAX))
      then
        let asc := negb (has (kp_flag kp) HA_REVERSE_SORT) in
        if (negb start_key && asc) || (start_key && negb asc) then
          '(r, range_key, flag) ← store_max_key fuel (next_key_part key_tree) range_key flag last_part start_key;
          Some (res + r, range_key, flag)
        else
          '(r, range_key, flag) ←
             store_min_key fuel (next_key_part key_tree) range_key (invert_max_flag flag) last_part start_key;
          Some (res + r, range_key, invert_min_flag flag)
      else Some (res, range_key, flag)
  end.

(** The loop of [all_same]; [cur_arg] and [cmp_arg] are 0 at the end. *)
Fixpoint same_loop {SC : SelCode} (fuel : nat) (cur_arg cmp_arg : N) : option bool :=
  match fuel with
  | O => None
  | S fuel =>
      if negb (cur_arg =? 0)%N && negb (cmp_arg =? 0)%N then
        a ← h !! cur_arg;
        b ← h !! cmp_arg;
        if is_same a b then same_loop fuel (next a) (next b) else Some false
      else Some ((cur_arg =? 0)%N && (cmp_arg =? 0)%N)
  end.

Definition all_same {SC : SelCode} (fuel : nat) (this arg : N) : option bool :=
  a ← h !! this;
  b ← h !! arg;
  if bool_decide (type a ≠ type b) || negb (part a =? part b) then Some false else
  if bool_decide (type a ≠ KEY_RANGE) then Some true else
  if (arg =? this)%N then Some true else
  same_loop fuel (first this) (first arg).
End Graph.

(** ** Specification: sets of key values *)

(** What is documented of the code defined elsewhere.  [rank] is the position of
    a key image in the order of the key part, NULL first, and [bare_rank] that
    of an image without its NULL indicator.  [sel_cmp] compares end points: an
    absent minimum comes first, an absent maximum last, an open minimum just
    after its value and an open maximum just before. *)
Inductive endpoint := NoMin | At (z : Z) | NoMax.

Definition ep_le (a b : endpoint) : Prop :=
  match a, b with
  | NoMin, _ | _, NoMax => True
  | At x, At y => x ≤ y
  | _, _ => False
  end.

(** The flags of one end: absent on one side at most, and open on one side at most. *)
Definition end_flag (f : Z) : Prop :=
  (has f NO_MIN_RANGE = false ∨ has f NO_MAX_RANGE = false) ∧ (has f NEAR_MIN = false ∨ has f NEAR_MAX = false).

Definition point (rank : list Z → Z) (v : list Z) (f : Z) : endpoint :=
  if has f NO_MIN_RANGE then NoMin else if has f NO_MAX_RANGE then NoMax else
  At (3 * rank v + (if has f NEAR_MIN then 1 else if has f NEAR_MAX then -1 else 0)).

Class SelLaws `{SelCode} := {
  rank : list Z → Z;
  sel_cmp_le : ∀ a b fa fb, end_flag fa → end_flag fb →
    (sel_cmp a b fa fb ≤ 0 ↔ ep_le (point rank a fa) (point rank b fb));
  sel_cmp_ge : ∀ a b fa fb, end_flag fa → end_flag fb →
    (0 ≤ sel_cmp a b fa fb ↔ ep_le (point rank b fb) (point rank a fa));
  bare_rank : list Z → Z;
  key_cmp_eq : ∀ a b, key_cmp a b = 0 ↔ bare_rank a = bare_rank b;
  rank_bare : nullable = false → ∀ a, rank a = bare_rank a;
  rank_null : nullable = true → ∀ a a' b c, a ≠ 0 → a' ≠ 0 → rank (a :: b) = rank (a' :: c);
  rank_null_first : nullable = true → ∀ a b c, a ≠ 0 → rank (a :: b) < rank (0 :: c);
  rank_not_null : nullable = true → ∀ a b, rank (0 :: a) = rank (0 :: b) ↔ bare_rank a = bare_rank b;
  new_fields : ∀ p a b fa fb m, let n := new_SEL_ARG p a b fa fb m in
    type n = KEY_RANGE ∧ part n = p ∧ min_value n = a ∧ max_value n = b ∧ min_flag n = fa ∧
    max_flag n = fb ∧ maybe_flag n = m }.

Section Sets.
Context `{SelLaws}.

(** The keys on the right side of each end, by their rank. *)
Definition above_min (a : SEL_ARG) (x : Z) : Prop :=
  if has (min_flag a) NO_MIN_RANGE then True
  else if has (min_flag a) NEAR_MIN then rank (min_value a) < x else rank (min_value a) ≤ x.
Definition below_max (a : SEL_ARG) (x : Z) : Prop :=
  if has (max_flag a) NO_MAX_RANGE then True
  else if has (max_flag a) NEAR_MAX then x < rank (max_value a) else x ≤ rank (max_value a).
Definition contains (a : SEL_ARG) (x : Z) : Prop := above_min a x ∧ below_max a x.

(** The flags of an interval: those of a minimum at the minimum, and those of a
    maximum at the maximum. *)
Record wf (a : SEL_ARG) : Prop := {
  wf_min : has (min_flag a) NO_MAX_RANGE = false ∧ has (min_flag a) NEAR_MAX = false;
  wf_max : has (max_flag a) NO_MIN_RANGE = false ∧ has (max_flag a) NEAR_MIN = false;
  wf_null : maybe_null a = nullable }.

(** *** End points and keys *)

Lemma above_point a x : wf a → above_min a x ↔ ep_le (point rank (min_value a) (min_flag a)) (At (3 * x)).
Proof.
  intros [[W1 W2] _ _]. unfold above_min, point. rewrite W1, W2.
  destruct (has _ NO_MIN_RANGE); [done|]. destruct (has _ NEAR_MIN); simpl; lia.
Qed.

Lemma below_point a x : wf a → below_max a x ↔ ep_le (At (3 * x)) (point rank (max_value a) (max_flag a)).
Proof.
  intros [_ [W1 W2] _]. unfold below_max, point. rewrite W1, W2.
  destruct (has _ NO_MAX_RANGE); [done|]. destruct (has _ NEAR_MAX); simpl; lia.
Qed.

Lemma ep_le_trans a b c : ep_le a b → ep_le b c → ep_le a c.
Proof. destruct a, b, c; simpl; try done. lia. Qed.
Lemma ep_le_total a b : ep_le a b ∨ ep_le b a.
Proof. destruct a, b; simpl; try tauto. lia. Qed.

Lemma wf_end_min a : wf a → end_flag (min_flag a).
Proof. intros [[W1 W2] _ _]. split; by right. Qed.
Lemma wf_end_max a : wf a → end_flag (max_flag a).
Proof. intros [_ [W1 W2] _]. split; by left. Qed.

(** What the comparisons say of the sets. *)
Lemma min_le a b x : wf a → wf b → cmp_min_to_min a b ≤ 0 → above_min b x → above_min a x.
Proof.
  intros Wa Wb Hc. rewrite !above_point by done. apply ep_le_trans.
  apply sel_cmp_le in Hc; [done|by apply wf_end_min..].
Qed.
Lemma min_ge a b x : wf a → wf b → 0 ≤ cmp_min_to_min a b → above_min a x → above_min b x.
Proof.
  intros Wa Wb Hc. rewrite !above_point by done. apply ep_le_trans.
  apply sel_cmp_ge in Hc; [done|by apply wf_end_min..].
Qed.
Lemma max_le a b x : wf a → wf b → cmp_max_to_max a b ≤ 0 → below_max a x → below_max b x.
Proof.
  intros Wa Wb Hc. rewrite !below_point by done. intros Hx. eapply ep_le_trans; [exact Hx|].
  apply sel_cmp_le in Hc; [done|by apply wf_end_max..].
Qed.
Lemma max_ge a b x : wf a → wf b → 0 ≤ cmp_max_to_max a b → below_max b x → below_max a x.
Proof.
  intros Wa Wb Hc. rewrite !below_point by done. intros Hx. eapply ep_le_trans; [exact Hx|].
  apply sel_cmp_ge in Hc; [done|by apply wf_end_max..].
Qed.
Lemma min_max_disjoint a b x : wf a → wf b → cmp_min_to_max a b > 0 → above_min a x → below_max b x → False.
Proof.
  intros Wa Wb Hc Hl Hr. apply above_point in Hl; [|done]. apply below_point in Hr; [|done].
  assert (cmp_min_to_max a b ≤ 0); [|lia].
  apply sel_cmp_le; [by apply wf_end_min|by apply wf_end_max|]. by eapply ep_le_trans.
Qed.

(** The complement of an end: the flags [copy_min_to_max], [clone_first] and
    [copy_max_to_min] compute. *)
Lemma complement_min b n x : has (min_flag b) NO_MIN_RANGE = false → max_value n = min_value b →
  max_flag n = (if has (min_flag b) NEAR_MIN then 0 else NEAR_MAX) → below_max n x ↔ ¬ above_min b x.
Proof.
  intros Hb Hv Hf. unfold below_max, above_min. rewrite Hb, Hv, Hf.
  destruct (has (min_flag b) NEAR_MIN); simpl; lia.
Qed.
Lemma complement_max b n x : has (max_flag b) NO_MAX_RANGE = false → min_value n = max_value b →
  min_flag n = (if has (max_flag b) NEAR_MAX then 0 else NEAR_MIN) → above_min n x ↔ ¬ below_max b x.
Proof.
  intros Hb Hv Hf. unfold below_max, above_min. rewrite Hb, Hv, Hf.
  destruct (has (max_flag b) NEAR_MAX); simpl; lia.
Qed.

(** The sets of an interval depend on its ends only. *)
Lemma above_ext a b x : min_value a = min_value b → min_flag a = min_flag b → above_min a x ↔ above_min b x.
Proof. intros E1 E2. unfold above_min. by rewrite E1, E2. Qed.
Lemma below_ext a b x : max_value a = max_value b → max_flag a = max_flag b → below_max a x ↔ below_max b x.
Proof. intros E1 E2. unfold below_max. by rewrite E1, E2. Qed.

(** *** Operations *)

Lemma clone_and_ok a b x : wf a → wf b → contains (clone_and a b) x ↔ contains a x ∧ contains b x.
Proof.
  intros Wa Wb. unfold contains, clone_and.
  destruct (Z.leb_spec 0 (cmp_min_to_min a b)) as [Hm|Hm];
    destruct (Z.leb_spec (cmp_max_to_max a b) 0) as [Hx|Hx];
    (match goal with |- context [new_SEL_ARG ?p ?u ?v ?f ?g ?m] =>
       destruct (new_fields p u v f g m) as (_ & _ & Ea & Eb & Ef & Eg & _) end).
  - rewrite (above_ext _ a), (below_ext _ a) by done.
    pose proof (min_ge a b x Wa Wb Hm). pose proof (max_le a b x Wa Wb Hx). tauto.
  - rewrite (above_ext _ a), (below_ext _ b) by done.
    pose proof (min_ge a b x Wa Wb Hm). pose proof (max_ge a b x Wa Wb ltac:(lia)). tauto.
  - rewrite (above_ext _ b), (below_ext _ a) by done.
    pose proof (min_le a b x Wa Wb ltac:(lia)). pose proof (max_le a b x Wa Wb Hx). tauto.
  - rewrite (above_ext _ b), (below_ext _ b) by done.
    pose proof (min_le a b x Wa Wb ltac:(lia)). pose proof (max_ge a b x Wa Wb ltac:(lia)). tauto.
Qed.

Lemma full_range_never a : has (max_flag a) NO_MIN_RANGE = false → full_range a = false.
Proof.
  intros W. unfold full_range. apply Z.eqb_neq. intros E.
  unfold has, truth in W. apply negb_false_iff, Z.eqb_eq in W.
  apply (f_equal (λ z, Z.land z NO_MIN_RANGE)) in E. rewrite <- Z.land_assoc in E.
  change (Z.land (Z.lor NO_MAX_RANGE NO_MIN_RANGE) NO_MIN_RANGE) with NO_MIN_RANGE in E. by rewrite W in E.
Qed.

Lemma copy_min_ok a b x : wf a → wf b →
  (above_min (copy_min a b).2 x ↔ above_min a x ∨ above_min b x) ∧
  (below_max (copy_min a b).2 x ↔ below_max a x) ∧ (copy_min a b).1 = false.
Proof.
  intros Wa Wb. unfold copy_min. destruct (Z.ltb_spec 0 (cmp_min_to_min a b)) as [Hm|Hm].
  - rewrite full_range_never by (apply Wa). cbn [andb fst snd]. pose proof (min_ge a b x Wa Wb ltac:(lia)).
    rewrite (above_ext _ b), (below_ext _ a) by done. tauto.
  - cbn [andb fst snd]. pose proof (min_le a b x Wa Wb Hm).
    rewrite (above_ext _ a), (below_ext _ a) by done. tauto.
Qed.

Lemma copy_max_ok a b x : wf a → wf b →
  (below_max (copy_max a b).2 x ↔ below_max a x ∨ below_max b x) ∧
  (above_min (copy_max a b).2 x ↔ above_min a x) ∧ (copy_max a b).1 = false.
Proof.
  intros Wa Wb. unfold copy_max. destruct (Z.leb_spec (cmp_max_to_max a b) 0) as [Hm|Hm].
  - rewrite full_range_never by (apply Wb). cbn [andb fst snd]. pose proof (max_le a b x Wa Wb Hm).
    rewrite (below_ext _ b), (above_ext _ a) by done. tauto.
  - cbn [andb fst snd]. pose proof (max_ge a b x Wa Wb ltac:(lia)).
    rewrite (below_ext _ a), (above_ext _ a) by done. tauto.
Qed.

Lemma clone_first_ok a b x : has (min_flag b) NO_MIN_RANGE = false →
  contains (clone_first a b) x ↔ above_min a x ∧ ¬ above_min b x.
Proof.
  intros Hb. unfold contains, clone_first. set (f := if has _ _ then _ else _).
  destruct (new_fields (part a) (min_value a) (min_value b) (min_flag a) f
              (Z.lor (maybe_flag a) (maybe_flag b))) as (_ & _ & Ea & Eb & Ef & Eg & _).
  by rewrite (above_ext _ a), (complement_min b).
Qed.

Lemma clone_last_ok a b x : contains (clone_last a b) x ↔ above_min a x ∧ below_max b x.
Proof.
  unfold contains, clone_last.
  destruct (new_fields (part a) (min_value a) (max_value b) (min_flag a) (max_flag b)
              (Z.lor (maybe_flag a) (maybe_flag b))) as (_ & _ & Ea & Eb & Ef & Eg & _).
  by rewrite (above_ext _ a), (below_ext _ b).
Qed.

(** Equal intervals are equal sets. *)
Lemma is_same_ok a b x : wf a → wf b → is_same a b = true → type a = KEY_RANGE →
  part a = part b ∧ (contains a x ↔ contains b x).
Proof.
  intros Wa Wb. unfold is_same. destruct (bool_decide (type a ≠ type b)); [done|]. cbn [orb].
  destruct (Z.eqb_spec (part a) (part b)); [|done]. cbn [negb]. intros Hs Ht.
  rewrite bool_decide_false in Hs by tauto.
  apply andb_true_iff in Hs as [H1%Z.eqb_eq H2%Z.eqb_eq]. split; [done|]. unfold contains.
  pose proof (min_le a b x Wa Wb ltac:(lia)). pose proof (min_ge a b x Wa Wb ltac:(lia)).
  pose proof (max_le a b x Wa Wb ltac:(lia)). pose proof (max_ge a b x Wa Wb ltac:(lia)). tauto.
Qed.

(** A single point is the interval of one key. *)
Lemma is_singlepoint_ok a x : wf a → is_singlepoint a = Some true → contains a x ↔ x = rank (min_value a).
Proof.
  intros [_ _ Wn] Hs. unfold is_singlepoint in Hs.
  destruct (truth (min_flag a)) eqn:E1; [done|]. destruct (truth (max_flag a)) eqn:E2; [done|].
  apply truth_false in E1, E2. cbn [orb] in Hs.
  assert (rank (min_value a) = rank (max_value a)) as Hr.
  { rewrite Wn in Hs. destruct nullable eqn:En.
    - destruct (min_value a) as [|b mv]; [done|]. destruct (max_value a) as [|c xv]; [done|]. simpl in Hs.
      destruct (Z.eqb_spec b c) as [->|]; [|done]. simpl in Hs. destruct (truth c) eqn:Ec.
      + apply truth_true in Ec. by apply rank_null.
      + apply truth_false in Ec. subst c. apply rank_not_null; [done|]. apply key_cmp_eq.
        destruct (truth (key_cmp mv xv)) eqn:Ek; [done|]. by apply truth_false.
    - rewrite !rank_bare by done. apply key_cmp_eq. injection Hs as Hs. by apply negb_true_iff, truth_false in Hs. }
  unfold contains, above_min, below_max. rewrite E1, E2, <- Hr. simpl. lia.
Qed.
End Sets.

(** ** Flags of descending key parts *)

Lemma has_bit f k : 0 ≤ k → has f (2 ^ k) = Z.testbit f k.
Proof.
  intros Hk. unfold has, truth. rewrite (Z.land_comm f).
  destruct (Z.testbit f k) eqn:E.
  - apply negb_true_iff, Z.eqb_neq. intros Hz. apply (f_equal (λ z, Z.testbit z k)) in Hz.
    rewrite Z.land_spec, Z.pow2_bits_true, E, Z.testbit_0_l in Hz by done. done.
  - apply negb_false_iff, Z.eqb_eq. bits i Hi. rewrite Z.pow2_bits_eqb by done.
    destruct (Z.eqb_spec k i) as [->|]; [by rewrite E|done].
Qed.

(** The bits of a small mask, and of its complement. *)
Lemma mask_testbit m i : 0 ≤ m < 16 → 4 ≤ i → Z.testbit m i = false.
Proof. intros Hm Hi. apply (in_u_testbit 4); [unfold in_u; lia|lia]. Qed.

Lemma land_unot_testbit f m i : in_u 32 f → 0 ≤ i →
  Z.testbit (Z.land f (unot 32 m)) i = Z.testbit f i && negb (Z.testbit m i).
Proof.
  intros Hf Hi. unfold unot. rewrite Z.land_spec, wrap_testbit, Z.lnot_spec by lia.
  destruct (Z.ltb_spec i 32); [done|]. by rewrite (in_u_testbit 32 f) by (done || lia).
Qed.

(** A statement on the bits of flags: by cases on the bit. *)
Ltac flag_bits i :=
  destruct (Z.eqb_spec i 0) as [->|?]; [|destruct (Z.eqb_spec i 1) as [->|?]; [|
  destruct (Z.eqb_spec i 2) as [->|?]; [|destruct (Z.eqb_spec i 3) as [->|?]; [|
  assert (4 ≤ i) by lia]]]].

(** Evaluates the bits of constants. *)
Ltac ground_bits :=
  repeat match goal with |- context [Z.testbit ?m ?k] =>
    let b := eval vm_compute in (Z.testbit m k) in
    first [constr_eq b true | constr_eq b false]; change (Z.testbit m k) with b end.

Lemma invert_min_testbit f i : in_u 32 f → 0 ≤ i →
  Z.testbit (invert_min_flag f) i =
    if (i =? 0) || (i =? 2) then false
    else if i =? 1 then Z.testbit f 1 || Z.testbit f 0
    else if i =? 3 then Z.testbit f 3 || Z.testbit f 2
    else Z.testbit f i.
Proof.
  intros Hf Hi. unfold invert_min_flag, NEAR_MIN, NO_MIN_RANGE, NEAR_MAX, NO_MAX_RANGE.
  change (has f 4) with (has f (2 ^ 2)). change (has f 1) with (has f (2 ^ 0)). rewrite !has_bit by lia. cbn zeta.
  destruct (Z.testbit f 2) eqn:E2, (Z.testbit f 0) eqn:E0;
    rewrite ?Z.lor_spec, land_unot_testbit by done; rewrite ?Z.lor_spec; flag_bits i; ground_bits;
    rewrite ?(mask_testbit 1), ?(mask_testbit 2), ?(mask_testbit 4), ?(mask_testbit 8) by lia; cbn [orb andb negb];
    by rewrite ?E2, ?E0, ?andb_false_r, ?andb_true_r, ?orb_false_r, ?orb_true_r.
Qed.

Lemma invert_max_testbit f i : in_u 32 f → 0 ≤ i →
  Z.testbit (invert_max_flag f) i =
    if (i =? 1) || (i =? 3) then false
    else if i =? 0 then Z.testbit f 0 || Z.testbit f 1
    else if i =? 2 then Z.testbit f 2 || Z.testbit f 3
    else Z.testbit f i.
Proof.
  intros Hf Hi. unfold invert_max_flag, NEAR_MIN, NO_MIN_RANGE, NEAR_MAX, NO_MAX_RANGE.
  change (has f 8) with (has f (2 ^ 3)). change (has f 2) with (has f (2 ^ 1)). rewrite !has_bit by lia. cbn zeta.
  destruct (Z.testbit f 3) eqn:E2, (Z.testbit f 1) eqn:E0;
    rewrite ?Z.lor_spec, land_unot_testbit by done; rewrite ?Z.lor_spec; flag_bits i; ground_bits;
    rewrite ?(mask_testbit 1), ?(mask_testbit 2), ?(mask_testbit 4), ?(mask_testbit 8) by lia; cbn [orb andb negb];
    by rewrite ?E2, ?E0, ?andb_false_r, ?andb_true_r, ?orb_false_r, ?orb_true_r.
Qed.

Lemma invert_min_in_u f : in_u 32 f → in_u 32 (invert_min_flag f).
Proof.
  intros Hf. apply in_u_of_bits; [lia| |].
  - unfold invert_min_flag. repeat case_match; rewrite ?Z.lor_nonneg, ?Z.land_nonneg; unfold in_u in Hf; split_and?; try done; lia.
  - intros i Hi. rewrite invert_min_testbit by (done || lia). zcases; try lia. by apply (in_u_testbit 32).
Qed.

(** The flags of a minimum, and of a maximum. *)
Definition min_form (f : Z) : Prop := in_u 32 f ∧ Z.testbit f 1 = false ∧ Z.testbit f 3 = false.
Definition max_form (f : Z) : Prop := in_u 32 f ∧ Z.testbit f 0 = false ∧ Z.testbit f 2 = false.

Lemma invert_min_max f : min_form f → invert_max_flag (invert_min_flag f) = f.
Proof.
  intros (Hu & H1 & H3). apply Z.bits_inj'. intros i Hi.
  rewrite invert_max_testbit by (done || by apply invert_min_in_u).
  rewrite !invert_min_testbit by (done || lia). flag_bits i; cbn [orb Z.eqb Pos.eqb]; rewrite ?H1, ?H3; try done.
Qed.

Lemma invert_max_in_u f : in_u 32 f → in_u 32 (invert_max_flag f).
Proof.
  intros Hf. apply in_u_of_bits; [lia| |].
  - unfold invert_max_flag. repeat case_match; rewrite ?Z.lor_nonneg, ?Z.land_nonneg; unfold in_u in Hf; split_and?; try done; lia.
  - intros i Hi. rewrite invert_max_testbit by (done || lia). zcases; try lia. by apply (in_u_testbit 32).
Qed.

Lemma invert_max_min f : max_form f → invert_min_flag (invert_max_flag f) = f.
Proof.
  intros (Hu & H0 & H2). apply Z.bits_inj'. intros i Hi.
  rewrite invert_min_testbit by (done || by apply invert_max_in_u).
  rewrite !invert_max_testbit by (done || lia). flag_bits i; cbn [orb Z.eqb Pos.eqb]; rewrite ?H0, ?H2; try done.
Qed.

Lemma invert_max_form f : max_form f → min_form (invert_max_flag f).
Proof.
  intros (Hu & H0 & H2). split_and!; [by apply invert_max_in_u|..]; by rewrite invert_max_testbit by (done || lia).
Qed.

Lemma invert_min_form f : min_form f → max_form (invert_min_flag f).
Proof.
  intros (Hu & H0 & H2). split_and!; [by apply invert_min_in_u|..]; by rewrite invert_min_testbit by (done || lia).
Qed.

Lemma lor_min_form f g : min_form f → min_form g → min_form (Z.lor f g).
Proof.
  intros (Hf & H1 & H2) (Hg & H3 & H4). split_and!; [by apply lor_in_u|..];
    rewrite Z.lor_spec; by rewrite ?H1, ?H2, ?H3, ?H4.
Qed.

Lemma invert_min_lor f g : in_u 32 f → in_u 32 g →
  invert_min_flag (Z.lor f g) = Z.lor (invert_min_flag f) (invert_min_flag g).
Proof.
  intros Hf Hg. apply Z.bits_inj'. intros i Hi. assert (in_u 32 (Z.lor f g)) as Hfg by (by apply lor_in_u).
  rewrite Z.lor_spec, !invert_min_testbit, !Z.lor_spec by done.
  flag_bits i; cbn [orb Z.eqb Pos.eqb]; try done; [destruct (Z.testbit f 1), (Z.testbit g 1), (Z.testbit f 0)|
    destruct (Z.testbit f 3), (Z.testbit g 3), (Z.testbit f 2)]; done.
Qed.

(** A test of two flags. *)
Lemma has_lor f m n : has f (Z.lor m n) = has f m || has f n.
Proof.
  unfold has, truth. rewrite Z.land_lor_distr_r. rewrite <- negb_andb. f_equal.
  destruct (Z.eqb_spec (Z.lor (Z.land f m) (Z.land f n)) 0) as [E|E].
  - apply Z.lor_eq_0_iff in E as [-> ->]. done.
  - destruct (Z.eqb_spec (Z.land f m) 0) as [E1|]; [|done]. destruct (Z.eqb_spec (Z.land f n) 0) as [E2|]; [|done].
    by rewrite E1, E2 in E.
Qed.

(** The flags of one end, as bits. *)
Lemma has_bits f : has f NO_MIN_RANGE = Z.testbit f 0 ∧ has f NO_MAX_RANGE = Z.testbit f 1 ∧
  has f NEAR_MIN = Z.testbit f 2 ∧ has f NEAR_MAX = Z.testbit f 3.
Proof.
  split_and!; [apply (has_bit f 0)|apply (has_bit f 1)|apply (has_bit f 2)|apply (has_bit f 3)]; lia.
Qed.

Lemma has_stop_invert f : min_form f →
  has (invert_min_flag f) (Z.lor NO_MAX_RANGE NEAR_MAX) = has f (Z.lor NO_MIN_RANGE NEAR_MIN).
Proof.
  intros (Hu & H1 & H3). rewrite !has_lor. destruct (has_bits f) as (-> & _ & -> & _).
  destruct (has_bits (invert_min_flag f)) as (_ & -> & _ & ->).
  rewrite !invert_min_testbit by (done || lia). cbn [orb Z.eqb Pos.eqb]. by rewrite H1, H3.
Qed.

(** ** What the linearisation computes *)

Section Walk.
Context (key : list KEY_PART) (h : gmap N SEL_ARG) (first last : N → N).

(** The end of an interval that is stored. *)
Inductive side := Min | Max.

(** The end is stored unless it is absent or the flags so far, in the form of a
    minimum, say that the key ends. *)
Definition storable (sd : side) (a : SEL_ARG) (flag : Z) : bool :=
  match sd with
  | Min => has (min_flag a) GEOM_FLAG || (negb (has (min_flag a) NO_MIN_RANGE) && negb (has flag (Z.lor NO_MIN_RANGE NEAR_MIN)))
  | Max => negb (has (max_flag a) NO_MAX_RANGE) && negb (has flag (Z.lor NO_MIN_RANGE NEAR_MIN))
  end.
Definition end_value (sd : side) (a : SEL_ARG) : list Z := match sd with Min => min_value a | Max => max_value a end.
(** The flags of the end, in the form of a minimum. *)
Definition end_flags (sd : side) (a : SEL_ARG) : Z :=
  match sd with Min => min_flag a | Max => invert_max_flag (max_flag a) end.
Definition end_object (sd : side) (this : N) : N := match sd with Min => first this | Max => last this end.

(** One end of each interval list on the way to the last key part: the values
    and the flags, all in the form of a minimum. *)
Fixpoint walk (fuel : nat) (sd : side) (this : N) (flag last_part : Z) (start_key : bool) : option (list (list Z) * Z) :=
  match fuel with
  | O => None
  | S fuel =>
      a ← h !! end_object sd this;
      kp ← key !! Z.to_nat (part a);
      if storable sd a flag then
        img ← stored_image (maybe_null a) (end_value sd a) (store_length kp);
        let flag := Z.lor flag (end_flags sd a) in
        if (next_key_part a =? 0)%N then Some ([img], flag) else
        nkp ← h !! next_key_part a;
        if bool_decide (type nkp = KEY_RANGE) && negb (part a =? last_part) && (part nkp =? part a + 1) &&
           negb (has flag (Z.lor NO_MIN_RANGE NEAR_MIN))
        then
          '(imgs, flag) ← walk fuel (if Bool.eqb start_key (negb (has (kp_flag kp) HA_REVERSE_SORT)) then Min else Max)
                               (next_key_part a) flag last_part start_key;
          Some (img :: imgs, flag)
        else Some ([img], flag)
      else Some ([], flag)
  end.

(** The flags of every interval have the form of their end. *)
Definition flags_ok : Prop := ∀ n a, h !! n = Some a → min_form (min_flag a) ∧ max_form (max_flag a).

Lemma walk_form fuel sd this flag lp st imgs f : flags_ok → min_form flag →
  walk fuel sd this flag lp st = Some (imgs, f) → min_form f.
Proof.
  intros Hok. revert sd this flag imgs f. induction fuel as [|fuel IH]; intros sd this flag imgs f Hf; [done|].
  cbn [walk]. destruct (h !! end_object sd this) as [a|] eqn:Ea; [|done]. simpl.
  destruct (key !! Z.to_nat (part a)) as [kp|]; [|done]. simpl.
  destruct (storable sd a flag); [|by intros [= _ <-]].
  destruct (stored_image _ _ _) as [img|]; [|done]. simpl.
  assert (min_form (Z.lor flag (end_flags sd a))) as Hf'.
  { apply lor_min_form; [done|]. destruct (Hok _ _ Ea) as [? ?]. destruct sd; [done|by apply invert_max_form]. }
  destruct (next_key_part a =? 0)%N; [by intros [= _ <-]|].
  destruct (h !! next_key_part a) as [nkp|]; [|done]. simpl.
  destruct (_ && negb (has _ _)); [|by intros [= _ <-]].
  destruct (walk fuel _ _ _ _ _) as [[imgs' f']|] eqn:Ew; [|done]. intros [= _ <-]. by eapply IH.
Qed.

#[local] Arguments storable : simpl never.
#[local] Arguments end_flags : simpl never.

Lemma store_min_side a n rk flag :
  store_min a n rk flag =
  if storable Min a flag then img ← stored_image (maybe_null a) (min_value a) n; Some (1, rk ++ img) else Some (0, rk).
Proof. done. Qed.
Lemma store_max_side a n rk flag : min_form flag →
  store_max a n rk (invert_min_flag flag) =
  if storable Max a flag then img ← stored_image (maybe_null a) (max_value a) n; Some (1, rk ++ img) else Some (0, rk).
Proof. intros Hf. unfold store_max. by rewrite has_stop_invert. Qed.

(** The flags after a maximum is added. *)
Lemma max_flags_step a flag : min_form flag → max_form (max_flag a) →
  Z.lor (invert_min_flag flag) (max_flag a) = invert_min_flag (Z.lor flag (end_flags Max a)).
Proof.
  intros Hf Hm. unfold end_flags. rewrite invert_min_lor by (apply Hf || by apply invert_max_form).
  by rewrite invert_max_min.
Qed.

(** What [store_min_key] and [store_max_key] return for a walk. *)
Definition min_result (rk : list Z) (w : option (list (list Z) * Z)) : option (Z * list Z * Z) :=
  '(imgs, f) ← w; Some (Z.of_nat (length imgs), rk ++ concat imgs, f).
Definition max_result (rk : list Z) (w : option (list (list Z) * Z)) : option (Z * list Z * Z) :=
  '(imgs, f) ← w; Some (Z.of_nat (length imgs), rk ++ concat imgs, invert_min_flag f).

Lemma next_side_max start asc : (negb start && asc) || (start && negb asc) = negb (Bool.eqb start asc).
Proof. by destruct start, asc. Qed.

Lemma min_result_cons rk img w :
  ('(r, rk', f) ← min_result (rk ++ img) w; Some (1 + r, rk', f)) =
  min_result rk ('(imgs, f) ← w; Some (img :: imgs, f)).
Proof.
  destruct w as [[imgs f]|]; [|done]. simpl. rewrite <- app_assoc. repeat f_equal. lia.
Qed.
Lemma max_result_cons rk img w :
  ('(r, rk', f) ← max_result (rk ++ img) w; Some (1 + r, rk', f)) =
  max_result rk ('(imgs, f) ← w; Some (img :: imgs, f)).
Proof.
  destruct w as [[imgs f]|]; [|done]. simpl. rewrite <- app_assoc. repeat f_equal. lia.
Qed.

(** Crossing from one form of the flags to the other. *)
Lemma max_to_min_result rk img w : (∀ imgs f, w = Some (imgs, f) → min_form f) →
  ('(r, rk', f) ← max_result (rk ++ img) w; Some (1 + r, rk', invert_max_flag f)) =
  min_result rk ('(imgs, f) ← w; Some (img :: imgs, f)).
Proof.
  intros Hw. destruct w as [[imgs f]|]; [|done]. simpl. rewrite invert_min_max by (by eapply Hw).
  rewrite <- app_assoc. repeat f_equal. lia.
Qed.
Lemma min_to_max_result rk img w :
  ('(r, rk', f) ← min_result (rk ++ img) w; Some (1 + r, rk', invert_min_flag f)) =
  max_result rk ('(imgs, f) ← w; Some (img :: imgs, f)).
Proof.
  destruct w as [[imgs f]|]; [|done]. simpl. rewrite <- app_assoc. repeat f_equal. lia.
Qed.

Lemma store_keys_walk fuel this rk flag lp st : flags_ok → min_form flag →
  store_min_key key h first last fuel this rk flag lp st = min_result rk (walk fuel Min this flag lp st) ∧
  store_max_key key h first last fuel this rk (invert_min_flag flag) lp st =
    max_result rk (walk fuel Max this flag lp st).
Proof.
  intros Hok. revert this rk flag. induction fuel as [|fuel IH]; intros this rk flag Hf; [done|]. split.
  - cbn [store_min_key walk end_object]. destruct (h !! first this) as [a|] eqn:Ea; [|done]. simpl mbind.
    destruct (key !! Z.to_nat (part a)) as [kp|]; [|done]. simpl mbind.
    rewrite store_min_side.
    destruct (storable Min a flag); [|unfold min_result, max_result; simpl; by rewrite ?app_nil_r]. cbn [end_value].
    destruct (stored_image _ _ _) as [img|]; [|done]. cbn [mbind option_bind]. cbn [Z.eqb].
    assert (min_form (Z.lor flag (min_flag a))) as Hf' by (apply lor_min_form; [done|apply (Hok _ _ Ea)]).
    change (end_flags Min a) with (min_flag a). destruct (next_key_part a =? 0)%N; [unfold min_result, max_result; simpl; by rewrite ?app_nil_r|].
    destruct (h !! next_key_part a) as [nkp|]; [|done]. cbn [mbind option_bind].
    destruct (_ && negb (has _ _)); [|unfold min_result, max_result; simpl; by rewrite ?app_nil_r].
    destruct (IH (next_key_part a) (rk ++ img) _ Hf') as [IH1 IH2].
    destruct (Bool.eqb _ _).
    + rewrite IH1. apply min_result_cons.
    + rewrite <- max_to_min_result by (intros imgs f Hw; by eapply walk_form). by rewrite <- IH2.
  - cbn [store_max_key walk end_object]. destruct (h !! last this) as [a|] eqn:Ea; [|done]. simpl mbind.
    destruct (key !! Z.to_nat (part a)) as [kp|]; [|done]. simpl mbind.
    rewrite store_max_side by done.
    destruct (storable Max a flag); [|unfold min_result, max_result; simpl; by rewrite ?app_nil_r]. cbn [end_value].
    destruct (stored_image _ _ _) as [img|]; [|done]. cbn [mbind option_bind]. cbn [Z.eqb].
    destruct (Hok _ _ Ea) as [_ Hm].
    assert (min_form (Z.lor flag (end_flags Max a))) as Hf' by (apply lor_min_form; [done|by apply invert_max_form]).
    rewrite max_flags_step by done. rewrite has_stop_invert by done.
    destruct (next_key_part a =? 0)%N; [unfold min_result, max_result; simpl; by rewrite ?app_nil_r|].
    destruct (h !! next_key_part a) as [nkp|]; [|done]. cbn [mbind option_bind].
    destruct (_ && negb (has _ _)); [|unfold min_result, max_result; simpl; by rewrite ?app_nil_r].
    destruct (IH (next_key_part a) (rk ++ img) _ Hf') as [IH1 IH2].
    rewrite next_side_max. destruct (Bool.eqb _ _); cbn [negb].
    + rewrite invert_min_max, <- min_to_max_result by done. by rewrite <- IH1.
    + rewrite IH2. apply max_result_cons.
Qed.

(** A graph the walk can follow: the tree functions stay in an interval list,
    key parts exist, the images are as long as the key parts store. *)
Record graph_ok : Prop := {
  g_ends : ∀ sd n a, h !! n = Some a → ∃ b, h !! end_object sd n = Some b ∧ part b = part a;
  g_part : ∀ n a, h !! n = Some a → 0 ≤ part a < Z.of_nat (length key);
  g_image : ∀ n a kp sd flag, h !! n = Some a → key !! Z.to_nat (part a) = Some kp → storable sd a flag = true →
    is_Some (stored_image (maybe_null a) (end_value sd a) (store_length kp));
  g_next : ∀ n a, h !! n = Some a → next_key_part a = 0%N ∨ is_Some (h !! next_key_part a) }.

(** The walk ends, with at most one value for each key part from the first. *)
Lemma walk_total fuel sd n a flag lp st : graph_ok → h !! n = Some a →
  (length key - Z.to_nat (part a) < fuel)%nat →
  ∃ imgs f, walk fuel sd n flag lp st = Some (imgs, f) ∧ (length imgs ≤ length key - Z.to_nat (part a))%nat.
Proof.
  intros G. revert sd n a flag. induction fuel as [|fuel IH]; intros sd n a flag Ha Hf; [lia|].
  destruct (g_ends G sd n a Ha) as (b & Hb & Hp). pose proof (g_part G _ _ Hb) as Hk.
  destruct (lookup_lt_is_Some_2 key (Z.to_nat (part b))) as [kp Ekp]; [lia|].
  cbn [walk]. rewrite Hb. simpl mbind. rewrite Ekp. simpl mbind. rewrite Hp in Hk.
  destruct (storable sd b flag) eqn:Es; [|eexists _, _; split; [done|simpl; lia]].
  destruct (g_image G _ _ _ _ _ Hb Ekp Es) as [img ->]. cbn [mbind option_bind].
  destruct (N.eqb_spec (next_key_part b) 0); [eexists _, _; split; [done|simpl; lia]|].
  destruct (g_next G _ _ Hb) as [|[nkp En]]; [done|]. rewrite En. cbn [mbind option_bind].
  destruct (_ && negb (has _ _)) eqn:Ec; [|eexists _, _; split; [done|simpl; lia]].
  apply andb_true_iff in Ec as [Ec _]. apply andb_true_iff in Ec as [_ Ec%Z.eqb_eq].
  pose proof (g_part G _ _ En) as Hk2.
  destruct (IH (if Bool.eqb st (negb (has (kp_flag kp) HA_REVERSE_SORT)) then Min else Max)
              _ _ (Z.lor flag (end_flags sd b)) En) as (imgs & f & E1 & Hl); [lia|].
  rewrite E1. eexists _, _. split; [done|]. simpl. lia.
Qed.

(** C4: [store_min_key] and [store_max_key] return, with a fuel above the number
    of key parts, the same walk through the graph: one end of the first or last
    interval of each list on the way, at most one value for each key part, each
    value appended to the key; the number returned is that of the values, and
    the flags returned are those of the stored ends, inverted exactly when the
    form of the flags asks for it, so that the two functions agree when they
    call each other. *)
Theorem sel_arg_store_keys n a rk flag lp st : graph_ok → flags_ok → min_form flag → h !! n = Some a →
  ∃ imgs f imgs' f',
    walk (S (length key)) Min n flag lp st = Some (imgs, f) ∧
    store_min_key key h first last (S (length key)) n rk flag lp st = Some (Z.of_nat (length imgs), rk ++ concat imgs, f) ∧
    walk (S (length key)) Max n flag lp st = Some (imgs', f') ∧
    store_max_key key h first last (S (length key)) n rk (invert_min_flag flag) lp st
      = Some (Z.of_nat (length imgs'), rk ++ concat imgs', invert_min_flag f') ∧
    (length imgs ≤ length key)%nat ∧ (length imgs' ≤ length key)%nat ∧ min_form f ∧ max_form (invert_min_flag f').
Proof.
  intros G Hok Hf Ha. destruct (walk_total (S (length key)) Min n a flag lp st G Ha) as (imgs & f & E1 & L1); [lia|].
  destruct (walk_total (S (length key)) Max n a flag lp st G Ha) as (imgs' & f' & E2 & L2); [lia|].
  destruct (store_keys_walk (S (length key)) n rk flag lp st Hok Hf) as [S1 S2]. rewrite E1 in S1. rewrite E2 in S2.
  exists imgs, f, imgs', f'. split_and!; [done|exact S1|done|exact S2|lia|lia|..].
  - by eapply walk_form.
  - apply invert_min_form. by eapply walk_form.
Qed.
End Walk.

(** ** The order of the index *)

Section IndexOrder.
Context `{SelLaws}.

(** A key is at or after the start of a range, or at or before its end, in the
    order of an index whose key part is descending or not. *)
Definition ord (rev : bool) (x : Z) : Z := if rev then - x else x.
Definition after_start (rev : bool) (v : list Z) (f x : Z) : Prop :=
  if has f NO_MIN_RANGE then True
  else if has f NEAR_MIN then ord rev (rank v) < ord rev x else ord rev (rank v) ≤ ord rev x.
Definition before_end (rev : bool) (v : list Z) (f x : Z) : Prop :=
  if has f NO_MAX_RANGE then True
  else if has f NEAR_MAX then ord rev x < ord rev (rank v) else ord rev x ≤ ord rev (rank v).

Lemma invert_max_has f : max_form f →
  has (invert_max_flag f) NO_MIN_RANGE = has f NO_MAX_RANGE ∧ has (invert_max_flag f) NEAR_MIN = has f NEAR_MAX.
Proof.
  intros (Hu & Hb1 & Hb2). destruct (has_bits f) as (_ & -> & _ & ->).
  destruct (has_bits (invert_max_flag f)) as (-> & _ & -> & _).
  rewrite !invert_max_testbit by (done || lia). cbn [orb Z.eqb Pos.eqb]. by rewrite Hb1, Hb2.
Qed.
Lemma invert_min_has f : min_form f →
  has (invert_min_flag f) NO_MAX_RANGE = has f NO_MIN_RANGE ∧ has (invert_min_flag f) NEAR_MAX = has f NEAR_MIN.
Proof.
  intros (Hu & Hb1 & Hb2). destruct (has_bits f) as (-> & _ & -> & _).
  destruct (has_bits (invert_min_flag f)) as (_ & -> & _ & ->).
  rewrite !invert_min_testbit by (done || lia). cbn [orb Z.eqb Pos.eqb]. by rewrite Hb1, Hb2.
Qed.

(** The interval in the order of the index.  With [get_min_flag] and
    [get_max_flag], and the two ends exchanged when the key part is descending,
    the range between the start and the end holds the keys of the interval; and
    [store_min_max] writes to the first key the end that comes first in the
    index and to the second the other, when both are present. *)
Theorem sel_arg_index_order key a rev n mk xk s e x : reversed key a = Some rev →
  min_form (min_flag a) → max_form (max_flag a) →
  ∃ fs fe, get_min_flag key a = Some fs ∧ get_max_flag key a = Some fe ∧
    (contains a x ↔
       after_start rev (if rev then max_value a else min_value a) fs x ∧
       before_end rev (if rev then min_value a else max_value a) fe x) ∧
    (has (min_flag a) NO_MIN_RANGE = false → has (max_flag a) NO_MAX_RANGE = false →
     stored_image (maybe_null a) (if rev then max_value a else min_value a) n = Some s →
     stored_image (maybe_null a) (if rev then min_value a else max_value a) n = Some e →
     store_min_max key a n mk 0 xk 0 0 0 = Some (mk ++ s, xk ++ e, 1, 1)).
Proof.
  intros Hr Hmin Hmax. unfold get_min_flag, get_max_flag, store_min_max. rewrite Hr. simpl mbind.
  eexists _, _. split; [done|]. split; [done|]. split.
  - unfold contains, above_min, below_max, after_start, before_end, ord.
    destruct (invert_max_has _ Hmax) as [E1 E2], (invert_min_has _ Hmin) as [E3 E4].
    destruct rev; rewrite ?E1, ?E2, ?E3, ?E4; [|done].
    destruct (has (min_flag a) NO_MIN_RANGE), (has (min_flag a) NEAR_MIN),
      (has (max_flag a) NO_MAX_RANGE), (has (max_flag a) NEAR_MAX); lia.
  - intros N1 N2 E1 E2. unfold store_min, store_max. rewrite N1, N2. cbn [negb andb]. rewrite orb_true_r.
    destruct rev; by rewrite E1, E2.
Qed.
End IndexOrder.

(** ** Interval lists *)

Section Lists.
Context `{SelLaws}.

(** The objects [l], chained by [next] from [n]. *)
Fixpoint chain (h : gmap N SEL_ARG) (n : N) (l : list SEL_ARG) : Prop :=
  match l with
  | [] => n = 0%N
  | a :: r => n ≠ 0%N ∧ h !! n = Some a ∧ chain h (next a) r
  end.

Lemma chain_fun h n l k : chain h n l → chain h n k → k = l.
Proof.
  revert n k. induction l as [|a l IH]; intros n [|b k]; simpl; naive_solver.
Qed.

Fixpoint same_list (l k : list SEL_ARG) : bool :=
  match l, k with
  | [], [] => true
  | a :: l, b :: k => is_same a b && same_list l k
  | _, _ => false
  end.

Lemma same_loop_ok h l k n m fuel : chain h n l → chain h m k → (length l < fuel)%nat →
  same_loop h fuel n m = Some (same_list l k).
Proof.
  revert k n m fuel. induction l as [|a l IH]; intros k n m fuel Hn Hm Hf; (destruct fuel as [|fuel]; [simpl in Hf; lia|]); simpl in Hn.
  - subst n. cbn [same_loop N.eqb negb andb]. destruct k as [|b k]; simpl in Hm; [by subst m|].
    destruct Hm as (Hz & _ & _). by rewrite (proj2 (N.eqb_neq _ _)).
  - destruct Hn as (Hz & Ha & Hc). cbn [same_loop]. rewrite (proj2 (N.eqb_neq n 0)) by done. cbn [negb andb].
    destruct k as [|b k]; simpl in Hm; [by subst m|]. destruct Hm as (Hz' & Hb & Hc').
    rewrite (proj2 (N.eqb_neq m 0)) by done. cbn [negb]. rewrite Ha. simpl mbind. rewrite Hb. simpl mbind. cbn [same_list].
    destruct (is_same a b); [|done]. cbn [andb]. apply IH; [done|done|simpl in Hf; lia].
Qed.

Lemma is_same_refl a : wf a → is_same a a = true.
Proof.
  intros W. unfold is_same. rewrite bool_decide_false by tauto. rewrite Z.eqb_refl. cbn [orb negb].
  destruct (bool_decide (type a ≠ KEY_RANGE)); [done|].
  assert (∀ e, ep_le e e) as Hr by (by intros []; simpl).
  pose proof (proj2 (sel_cmp_le (min_value a) (min_value a) _ _ (wf_end_min a W) (wf_end_min a W)) (Hr _)).
  pose proof (proj2 (sel_cmp_ge (min_value a) (min_value a) _ _ (wf_end_min a W) (wf_end_min a W)) (Hr _)).
  pose proof (proj2 (sel_cmp_le (max_value a) (max_value a) _ _ (wf_end_max a W) (wf_end_max a W)) (Hr _)).
  pose proof (proj2 (sel_cmp_ge (max_value a) (max_value a) _ _ (wf_end_max a W) (wf_end_max a W)) (Hr _)).
  unfold cmp_min_to_min, cmp_max_to_max. apply andb_true_iff. rewrite !Z.eqb_eq. lia.
Qed.

Lemma same_list_refl l : Forall wf l → same_list l l = true.
Proof. induction 1 as [|a l Ha Hl IH]; simpl; [done|]. by rewrite is_same_refl, IH. Qed.

Lemma same_list_sets l k x : Forall wf l → Forall wf k → Forall (λ a, type a = KEY_RANGE) l → same_list l k = true →
  Exists (λ a, contains a x) l ↔ Exists (λ b, contains b x) k.
Proof.
  intros Hl. revert k. induction Hl as [|a l Ha Hl IH]; intros k Hk Ht Hs; (destruct k as [|b k]; [done|]); [done|].
  simpl in Hs. apply andb_true_iff in Hs as [H1 H2]. inversion Hk; subst. inversion Ht; subst.
  rewrite !Exists_cons. destruct (is_same_ok a b x) as [_ ->]; try done. by rewrite (IH k).
Qed.
End Lists.

Section Theorems.
Context `{SelLaws}.

(** C3: The operations on intervals are operations on sets of keys.
    [clone_and] is the intersection; [clone_first] is the part of the first
    interval below the second, [clone_last] reaches from the minimum of the
    first to the maximum of the second; [copy_min] and [copy_max] move one end
    outwards and keep the other; [copy_min_to_min], [copy_min_to_max] and
    [copy_max_to_min] give the end of the other interval or its complement;
    intervals whose comparison of minimum to maximum is positive are disjoint;
    and a single point holds exactly its key.  [copy_min] and [copy_max] never
    report a full range. *)
Theorem sel_arg_interval_algebra a b x : wf a → wf b →
  (contains (clone_and a b) x ↔ contains a x ∧ contains b x) ∧
  (has (min_flag b) NO_MIN_RANGE = false →
     (contains (clone_first a b) x ↔ above_min a x ∧ ¬ above_min b x) ∧
     (below_max (copy_min_to_max a b) x ↔ ¬ above_min b x)) ∧
  (contains (clone_last a b) x ↔ above_min a x ∧ below_max b x) ∧
  ((above_min (copy_min a b).2 x ↔ above_min a x ∨ above_min b x) ∧
   (below_max (copy_min a b).2 x ↔ below_max a x) ∧ (copy_min a b).1 = false) ∧
  ((below_max (copy_max a b).2 x ↔ below_max a x ∨ below_max b x) ∧
   (above_min (copy_max a b).2 x ↔ above_min a x) ∧ (copy_max a b).1 = false) ∧
  (above_min (copy_min_to_min a b) x ↔ above_min b x) ∧
  (has (max_flag b) NO_MAX_RANGE = false → (above_min (copy_max_to_min a b) x ↔ ¬ below_max b x)) ∧
  (cmp_min_to_max a b > 0 → ¬ (contains a x ∧ contains b x)) ∧
  (is_singlepoint a = Some true → (contains a x ↔ x = rank (min_value a))).
Proof.
  intros Wa Wb. split; [by apply clone_and_ok|].
  split; [intros Hb; split; [by apply clone_first_ok|by apply complement_min]|].
  split; [apply clone_last_ok|]. split; [by apply copy_min_ok|]. split; [by apply copy_max_ok|].
  split; [by apply above_ext|]. split; [intros Hb; by apply complement_max|]. split.
  - intros Hc [[? _] [_ ?]]. by eapply (min_max_disjoint a b).
  - intros Hs. by apply is_singlepoint_ok.
Qed.

(** [all_same] compares two interval lists.  It returns, and says whether
    the two are of the same type and key part and, for key ranges, equal interval
    by interval; key ranges it finds the same cover the same keys. *)
Theorem sel_arg_all_same h first n m a b l k fuel :
  h !! n = Some a → h !! m = Some b → chain h (first n) l → chain h (first m) k →
  Forall wf l → Forall wf k → Forall (λ c, type c = KEY_RANGE) l → (length l < fuel)%nat →
  ∃ r, all_same h first fuel n m = Some r ∧
    r = bool_decide (type a = type b ∧ part a = part b ∧ (type a = KEY_RANGE → same_list l k = true)) ∧
    (r = true → type a = KEY_RANGE → ∀ x, Exists (λ c, contains c x) l ↔ Exists (λ c, contains c x) k).
Proof.
  intros Ha Hb Hl Hk Wl Wk Tl Hf. unfold all_same. rewrite Ha. simpl mbind. rewrite Hb. simpl mbind.
  assert (∀ r, bool_decide (type a = type b ∧ part a = part b ∧ (type a = KEY_RANGE → same_list l k = true)) = r →
    r = true → type a = KEY_RANGE → ∀ x, Exists (λ c, contains c x) l ↔ Exists (λ c, contains c x) k) as Hsets.
  { intros r <- (_ & _ & Hs)%bool_decide_eq_true Ht x. apply same_list_sets; auto. }
  destruct (decide (type a = type b)) as [Et|Et].
  2:{ rewrite bool_decide_true by done. eexists. split; [done|]. rewrite bool_decide_false by tauto. done. }
  rewrite bool_decide_false by tauto. destruct (Z.eqb_spec (part a) (part b)) as [Ep|Ep].
  2:{ eexists. split; [done|]. rewrite bool_decide_false by tauto. done. }
  cbn [orb negb]. destruct (decide (type a = KEY_RANGE)) as [Hkr|Hkr].
  2:{ rewrite bool_decide_true by done. eexists. split; [done|]. split; [|done]. symmetry. by apply bool_decide_true. }
  rewrite bool_decide_false by tauto. destruct (N.eqb_spec m n) as [->|Hmn].
  - assert (k = l) as -> by (by eapply chain_fun).
    eexists. split; [done|]. split; [|done]. symmetry. apply bool_decide_true. split_and!; [done..|].
    intros _. by apply same_list_refl.
  - rewrite (same_loop_ok h l k) by done. eexists. split; [done|].
    assert (same_list l k = bool_decide (type a = type b ∧ part a = part b ∧ (type a = KEY_RANGE → same_list l k = true))) as E1.
    { destruct (same_list l k) eqn:Es; symmetry; [by apply bool_decide_true|apply bool_decide_false; naive_solver]. }
    split; [done|]. by apply Hsets.
Qed.
End Theorems.

(** ** An instance: keys of one byte *)

Module ByteKeys.
Definition ep_cmp (a b : endpoint) : Z :=
  match a, b with
  | NoMin, NoMin | NoMax, NoMax => 0
  | NoMin, _ | _, NoMax => -1
  | _, NoMin | NoMax, _ => 1
  | At x, At y => x - y
  end.
Definition byte_rank (v : list Z) : Z := default 0 (head v).

#[export] Instance code : SelCode := {
  nullable := false;
  sel_cmp a b fa fb := ep_cmp (point byte_rank a fa) (point byte_rank b fb);
  key_cmp a b := byte_rank a - byte_rank b;
  new_SEL_ARG p a b fa fb m := SelArg KEY_RANGE p false fa fb m a b 0 0 0 1 }.

#[export] Instance laws : SelLaws.
Proof.
  refine {| rank := byte_rank; bare_rank := byte_rank |}; try done.
  - intros a b fa fb _ _. simpl. generalize (point byte_rank a fa) (point byte_rank b fb). intros [] []; simpl; lia.
  - intros a b fa fb _ _. simpl. generalize (point byte_rank a fa) (point byte_rank b fb). intros [] []; simpl; lia.
  - intros a b. simpl. lia.
Defined.

(** 10 <= kp1 <= 20, then 30 < kp2 <= 40. *)
Definition kp1 : SEL_ARG := SelArg KEY_RANGE 0 false 0 0 0 [10] [20] 0 0 2 1.
Definition kp2 : SEL_ARG := SelArg KEY_RANGE 1 false NEAR_MIN 0 0 [30] [40] 0 0 0 1.
Definition graph : gmap N SEL_ARG := {[1%N := kp1; 2%N := kp2]}.
(** An index with an ascending key part, then a descending one. *)
Definition index : list KEY_PART := [KeyPart 1 0; KeyPart 1 HA_REVERSE_SORT].

Lemma graph_lookup n a : graph !! n = Some a → (n = 1%N ∧ a = kp1) ∨ (n = 2%N ∧ a = kp2).
Proof.
  unfold graph. intros [[-> <-]|[_ Hn]]%lookup_insert_Some; [by left|].
  apply lookup_singleton_Some in Hn as [-> <-]. by right.
Qed.

Lemma graph_graph_ok : graph_ok index graph id id.
Proof.
  split.
  - intros sd n a Ha. exists a. by destruct sd.
  - intros n a Ha. destruct (graph_lookup n a Ha) as [[_ ->]|[_ ->]]; simpl; lia.
  - intros n a kp sd flag Ha Hk _. destruct (graph_lookup n a Ha) as [[_ ->]|[_ ->]]; simpl in Hk;
      injection Hk as <-; destruct sd; by eexists.
  - intros n a Ha. destruct (graph_lookup n a Ha) as [[_ ->]|[_ ->]]; [right; by eexists|by left].
Qed.

Lemma graph_flags_ok : flags_ok graph.
Proof. intros n a Ha. destruct (graph_lookup n a Ha) as [[_ ->]|[_ ->]]; by vm_compute. Qed.
End ByteKeys.
Import (hints) ByteKeys.

Lemma sel_arg_store_keys_witness :
  ∃ imgs f, walk ByteKeys.index ByteKeys.graph id id 3 Min 1 0 9 true = Some (imgs, f) ∧ imgs = [[10]; [30]] ∧
    store_min_key ByteKeys.index ByteKeys.graph id id 3 1 [] 0 9 true = Some (2, [10; 30], f).
Proof.
  destruct (sel_arg_store_keys ByteKeys.index ByteKeys.graph id id 1 ByteKeys.kp1 [] 0 9 true
    ByteKeys.graph_graph_ok ByteKeys.graph_flags_ok) as (imgs & f & imgs' & f' & E1 & E2 & _); [by vm_compute|done|].
  exists imgs, f. assert (imgs = [[10]; [30]]) as -> by (vm_compute in E1; by injection E1).
  split_and!; [exact E1|done|exact E2].
Defined.

Lemma sel_arg_index_order_witness :
  contains ByteKeys.kp2 35 ∧
  ∃ fs, get_min_flag ByteKeys.index ByteKeys.kp2 = Some fs ∧ after_start true [40] fs 35.
Proof.
  destruct (sel_arg_index_order ByteKeys.index ByteKeys.kp2 true 1 [] [] [40] [30] 35 eq_refl)
    as (fs & fe & E1 & E2 & Hc & _); [by vm_compute|by vm_compute|].
  assert (contains ByteKeys.kp2 35) as H35 by (split; vm_compute; done).
  split; [exact H35|]. exists fs. split; [exact E1|]. apply Hc in H35 as [Hs _]. exact Hs.
Defined.

Lemma sel_arg_interval_algebra_witness :
  contains (clone_and ByteKeys.kp1 ByteKeys.kp1) 12 ∧
  (contains (clone_first ByteKeys.kp1 ByteKeys.kp2) 12 ↔ above_min ByteKeys.kp1 12 ∧ ¬ above_min ByteKeys.kp2 12).
Proof.
  assert (wf ByteKeys.kp1 ∧ wf ByteKeys.kp2) as [W1 W2] by (split; split; done).
  destruct (sel_arg_interval_algebra ByteKeys.kp1 ByteKeys.kp1 12 W1 W1) as [Ha _].
  destruct (sel_arg_interval_algebra ByteKeys.kp1 ByteKeys.kp2 12 W1 W2) as (_ & Hf & _).
  split; [apply Ha; split; split; vm_compute; done|]. apply Hf. reflexivity.
Defined.

Lemma sel_arg_all_same_witness :
  ∃ r, all_same ByteKeys.graph id 3 2 2 = Some r ∧ r = true.
Proof.
  destruct (sel_arg_all_same ByteKeys.graph id 2 2 ByteKeys.kp2 ByteKeys.kp2 [ByteKeys.kp2] [ByteKeys.kp2] 3)
    as (r & E1 & E2 & _); try (by vm_compute).
  - by repeat constructor.
  - by repeat constructor.
  - by repeat constructor.
  - simpl. lia.
  - exists r. split; [exact E1|]. rewrite E2. apply bool_decide_eq_true. split_and!; [done|done|]. intros _. by vm_compute.
Defined.

(** The end stored for the next key part is chosen by the order of the current
    one: at an index whose second key part is descending, the start key of
    10 <= kp1 <= 20 and 30 < kp2 <= 40 is (10, 30), although 40 is the value of
    kp2 that comes first in the index. *)
Theorem store_min_key_uses_current_part_order :
  store_min_key ByteKeys.index ByteKeys.graph id id 3 1 [] 0 9 true = Some (2, [10; 30], NEAR_MIN) ∧
  get_min_flag ByteKeys.index ByteKeys.kp2 = Some 0 ∧
  store_min_max ByteKeys.index ByteKeys.kp2 1 [] 0 [] 0 0 0 = Some ([40], [30], 1, 1).
Proof. by vm_compute. Qed.
