(* ===== verification/BoundedQueue.v ===== *)
(** [bounded_queue.h], [class Bounded_queue]: the queue that keeps the best N of
    the elements pushed, for ORDER BY with LIMIT.  It is a priority queue of
    pointers to slots of [m_sort_keys], into which the keys of the elements are
    written.  [QUEUE] and the functions [init_queue], [queue_insert],
    [queue_replace_top], [queue_remove] are code of another library: they are
    parameters, with what they promise as hypotheses.

    The heap of [QUEUE] is [root[1]] to [root[elements]] ([queues.h]: the macros
    [queue_first_element], [queue_top], [queue_end], [queue_remove_top]), while
    [pop] removes index 0: it is modelled as written, and undefined. *)
From Stdlib Require Import Sorting.Sorted.
From S2P Require Import Prelude.

(** ** Interface of the priority queue *)

(** [QUEUE] over slot numbers; [above a b] says that slot [a] may be nearer to
    the top than slot [b].  [queue_remove] takes an index of [root]; it is none
    where removing is undefined. *)
Class Queue (Q : Type) := {
  init_queue : Z → option Q;
  q_elements : Q → Z;
  q_max_elements : Q → Z;
  queue_top : Q → option nat;
  queue_insert : (nat → nat → bool) → Q → nat → Q;
  queue_replace_top : (nat → nat → bool) → Q → Q;
  queue_remove : (nat → nat → bool) → Q → Z → option (nat * Q) }.

Definition total_order (above : nat → nat → bool) : Prop :=
  (∀ a b, above a b = true ∨ above b a = true) ∧
  (∀ a b c, above a b = true → above b c = true → above a c = true).

(** [slots] are the slots in the queue, and [ordered] says that the queue is in
    the order [above]. *)
Class QueueLaws (Q : Type) `{Queue Q} := {
  slots : Q → list nat;
  ordered : (nat → nat → bool) → Q → Prop;
  elements_slots : ∀ q, q_elements q = Z.of_nat (length (slots q));
  ordered_ext : ∀ above above' q, ordered above q →
    (∀ a b, a ∈ slots q → b ∈ slots q → above' a b = above a b) → ordered above' q;
  init_ok : ∀ n q above, init_queue n = Some q → slots q = [] ∧ q_max_elements q = n ∧ ordered above q;
  top_ok : ∀ above q, total_order above → ordered above q → slots q ≠ [] →
    ∃ t r, queue_top q = Some t ∧ slots q ≡ₚ t :: r ∧ ∀ x, x ∈ r → above t x = true;
  insert_ok : ∀ above q s, total_order above → ordered above q → q_elements q < q_max_elements q →
    let q' := queue_insert above q s in
    slots q' ≡ₚ s :: slots q ∧ q_max_elements q' = q_max_elements q ∧ ordered above q';
  replace_ok : ∀ above above' q t r, total_order above' → ordered above q → queue_top q = Some t → slots q ≡ₚ t :: r →
    (∀ a b, a ∈ r → b ∈ r → above' a b = above a b) →
    let q' := queue_replace_top above' q in
    slots q' ≡ₚ slots q ∧ q_max_elements q' = q_max_elements q ∧ ordered above' q';
  (* [root[idx]] is an element only from 1 to [elements] *)
  remove_outside : ∀ above q idx, ¬ 1 ≤ idx ≤ q_elements q → queue_remove above q idx = None }.

(** ** The bounded queue *)

Section Bounded.
Context {Q : Type} {QC : Queue Q}.
(** The keys, the function that compares them, the function that makes the key of
    an element, which end is at the top, and whether [DBUG_ASSERT] is active. *)
Context {E K : Type} (compare : K → K → Z) (m_keymaker : E → K) (max_at_top dbug : bool).

(** [m_sort_keys]: the keys in the slots, and the queue. *)
Record bounded_queue := BQ { m_sort_keys : list K; m_queue : Q }.

(** The order of the queue, through the slots. *)
Definition key_above (a b : K) : bool := if max_at_top then 0 <=? compare a b else compare a b <=? 0.
Definition above (keys : list K) (a b : nat) : bool :=
  match keys !! a, keys !! b with
  | Some x, Some y => key_above x y
  | Some _, None => true
  | None, Some _ => false
  | None, None => true
  end.

Definition queue_is_full (q : Q) : bool := q_elements q =? q_max_elements q.
Definition is_initialized (b : bounded_queue) : bool := 0 <? q_max_elements (m_queue b).
Definition num_elements (b : bounded_queue) : Z := q_elements (m_queue b).

(** [init]: the returned error, and the queue. *)
Definition UINT_MAX : Z := 2 ^ 32 - 1.
Definition init (max_elements : Z) (sort_keys : list K) : Z * option bounded_queue :=
  if UINT_MAX - 1 <=? max_elements then (1, None) else
  match init_queue (to_uint32 (to_uint32 max_elements + 1)) with
  | None => (1, None)
  | Some q => (0, Some (BQ sort_keys q))
  end.

(** Writing the key of an element to a slot. *)
Definition write_key (keys : list K) (slot : nat) (e : E) : option (list K) :=
  if bool_decide (slot < length keys)%nat then Some (<[slot := m_keymaker e]> keys) else None.

Definition push (element : E) (b : bounded_queue) : option bounded_queue :=
  if dbug && negb (is_initialized b) then None else
  if queue_is_full (m_queue b) then
    pq_top ← queue_top (m_queue b);
    keys ← write_key (m_sort_keys b) pq_top element;
    Some (BQ keys (queue_replace_top (above keys) (m_queue b)))
  else
    let slot := Z.to_nat (num_elements b) in
    keys ← write_key (m_sort_keys b) slot element;
    Some (BQ keys (queue_insert (above keys) (m_queue b) slot)).

(** [pop]: the key of the removed element, none when the queue is empty. *)
Definition pop (b : bounded_queue) : option (option K * bounded_queue) :=
  q ← (if queue_is_full (m_queue b)
       then '(_, q) ← queue_remove (above (m_sort_keys b)) (m_queue b) 0; Some q
       else Some (m_queue b));
  if dbug && negb (0 <? q_elements q) then None else
  if q_elements q =? 0 then Some (None, BQ (m_sort_keys b) q) else
  '(slot, q) ← queue_remove (above (m_sort_keys b)) q 0;
  k ← m_sort_keys b !! slot;
  Some (Some k, BQ (m_sort_keys b) q).

(** A client: it pushes elements, then reads the keys in the slots in use. *)
Fixpoint push_all (es : list E) (b : bounded_queue) : option bounded_queue :=
  match es with [] => Some b | e :: es => b ← push e b; push_all es b end.
Definition kept (b : bounded_queue) : list K := take (Z.to_nat (num_elements b)) (m_sort_keys b).

(** ** Specification: the best of the keys pushed *)

Context {QL : QueueLaws Q}.
(** [compare] is a total order on the keys. *)
Hypothesis compare_total : ∀ a b, key_above a b = true ∨ key_above b a = true.
Hypothesis compare_trans : ∀ a b c, key_above a b = true → key_above b c = true → key_above a c = true.

Fixpoint keys_of (keys : list K) (ss : list nat) : list K :=
  match ss with
  | [] => []
  | s :: r => match keys !! s with Some k => k :: keys_of keys r | None => keys_of keys r end
  end.

(** A queue of at most [n] keys after the keys [ks] were pushed: the slots in use
    are the first ones, the keys in them and the keys [dropped] are those pushed,
    and no key dropped is better than one kept, the top apart. *)
Record inv (n : nat) (b : bounded_queue) (ks dropped : list K) : Prop := {
  inv_max : q_max_elements (m_queue b) = Z.of_nat n + 1;
  inv_room : (n < length (m_sort_keys b))%nat;
  inv_slots : slots (m_queue b) ≡ₚ seq 0 (length (slots (m_queue b)));
  inv_size : (length (slots (m_queue b)) ≤ n + 1)%nat;
  inv_full : dropped ≠ [] → length (slots (m_queue b)) = (n + 1)%nat;
  inv_ordered : ordered (above (m_sort_keys b)) (m_queue b);
  inv_keys : keys_of (m_sort_keys b) (slots (m_queue b)) ++ dropped ≡ₚ ks;
  inv_best : ∀ t r d, slots (m_queue b) ≡ₚ t :: r → (∀ x, x ∈ r → above (m_sort_keys b) t x = true) →
    d ∈ dropped → ∀ y k, y ∈ r → m_sort_keys b !! y = Some k → key_above d k = true }.

(** *** Lemmas *)

Lemma above_total keys : total_order (above keys).
Proof.
  split.
  - intros a b. unfold above. destruct (keys !! a), (keys !! b); auto.
  - intros a b c. unfold above. destruct (keys !! a), (keys !! b), (keys !! c); try done. apply compare_trans.
Qed.

Lemma above_keys keys a b x y : keys !! a = Some x → keys !! b = Some y → above keys a b = key_above x y.
Proof. intros Ha Hb. unfold above. by rewrite Ha, Hb. Qed.

Lemma keys_of_perm keys a b : a ≡ₚ b → keys_of keys a ≡ₚ keys_of keys b.
Proof.
  induction 1; simpl; [done|by case_match; [constructor|]| |by etrans].
  repeat case_match; [constructor|done..].
Qed.

(** A slot written is outside the others. *)
Lemma keys_of_insert keys s v r : s ∉ r → keys_of (<[s := v]> keys) r = keys_of keys r.
Proof.
  induction r as [|x r IH]; simpl; [done|]. intros Hs. apply not_elem_of_cons in Hs as [Hx Hr].
  by rewrite list_lookup_insert_ne, IH by done.
Qed.

Lemma above_insert keys s v (r : list nat) a b : s ∉ r → a ∈ r → b ∈ r → above (<[s := v]> keys) a b = above keys a b.
Proof. intros Hs Ha Hb. unfold above. rewrite !list_lookup_insert_ne by (by intros ->). done. Qed.

Lemma write_key_ok keys s e : (s < length keys)%nat → write_key keys s e = Some (<[s := m_keymaker e]> keys).
Proof. intros Hs. unfold write_key. by rewrite bool_decide_true. Qed.

Lemma slots_lookup n b ks dropped s : inv n b ks dropped → s ∈ slots (m_queue b) →
  (s < length (slots (m_queue b)))%nat ∧ is_Some (m_sort_keys b !! s).
Proof.
  intros I Hs. rewrite (inv_slots _ _ _ _ I), elem_of_seq in Hs. split; [lia|].
  apply lookup_lt_is_Some_2. pose proof (inv_size _ _ _ _ I). pose proof (inv_room _ _ _ _ I). lia.
Qed.

(** Pushing on a queue that is not full. *)
Lemma push_free_ok n b ks dropped e : inv n b ks dropped → (length (slots (m_queue b)) < n + 1)%nat →
  ∃ b', push e b = Some b' ∧ inv n b' (m_keymaker e :: ks) dropped ∧
    length (slots (m_queue b')) = S (length (slots (m_queue b))) ∧ drop (n + 1) (m_sort_keys b') = drop (n + 1) (m_sort_keys b).
Proof.
  intros I Hlt. pose proof (elements_slots (m_queue b)) as He. unfold push, num_elements, is_initialized, queue_is_full.
  rewrite (inv_max _ _ _ _ I), He, (proj2 (Z.ltb_lt _ _)), andb_false_r, (proj2 (Z.eqb_neq _ _)), Nat2Z.id by lia.
  set (s := length (slots (m_queue b))) in *. pose proof (inv_room _ _ _ _ I) as Hr.
  rewrite write_key_ok by lia. simpl. set (keys := <[s := m_keymaker e]> (m_sort_keys b)).
  assert (s ∉ slots (m_queue b)) as Hs.
  { intros Hs. destruct (slots_lookup _ _ _ _ _ I Hs) as [? _]. subst s. lia. }
  destruct (insert_ok (above keys) (m_queue b) s (above_total keys)) as (Hp & Hm & Ho).
  { apply (ordered_ext _ _ _ (inv_ordered _ _ _ _ I)). intros x y Hx Hy. by eapply above_insert. }
  { rewrite He, (inv_max _ _ _ _ I). lia. }
  pose proof (Permutation_length Hp) as Hl. simpl in Hl. fold s in Hl.
  assert (dropped = []) as ->. { destruct dropped; [done|]. pose proof (inv_full _ _ _ _ I ltac:(done)). subst s. lia. }
  eexists. split; [done|]. split; [|split; [done|]; cbn [m_sort_keys]; unfold keys; apply drop_insert_lt; lia].
  split; cbn [m_queue m_sort_keys]; try done.
  - by rewrite Hm, (inv_max _ _ _ _ I).
  - unfold keys. rewrite length_insert. done.
  - rewrite Hl, Hp, seq_S. simpl. rewrite <- Permutation_cons_append. constructor. apply (inv_slots _ _ _ _ I).
  - lia.
  - pose proof (inv_keys _ _ _ _ I) as Hk. rewrite app_nil_r in *. rewrite (keys_of_perm keys _ _ Hp). simpl. unfold keys.
    rewrite list_lookup_insert_eq by lia. constructor. by rewrite keys_of_insert.
  - intros t r d _ _ Hd. by apply elem_of_nil in Hd.
Qed.

Lemma slots_nodup n b ks dropped : inv n b ks dropped → NoDup (slots (m_queue b)).
Proof. intros I. rewrite (inv_slots _ _ _ _ I). apply NoDup_seq. Qed.

(** The top of the queue, and what no key dropped is better than. *)
Lemma top_split n b ks dropped : inv n b ks dropped → slots (m_queue b) ≠ [] →
  ∃ t r kt, queue_top (m_queue b) = Some t ∧ slots (m_queue b) ≡ₚ t :: r ∧ t ∉ r ∧ m_sort_keys b !! t = Some kt ∧
    (t < length (m_sort_keys b))%nat ∧
    (∀ x, x ∈ r → above (m_sort_keys b) t x = true) ∧
    (∀ d y k, d ∈ kt :: dropped → y ∈ r → m_sort_keys b !! y = Some k → key_above d k = true).
Proof.
  intros I Hne. destruct (top_ok _ _ (above_total _) (inv_ordered _ _ _ _ I) Hne) as (t & r & Et & Hp & Ha).
  pose proof (slots_nodup _ _ _ _ I) as Hnd. rewrite Hp in Hnd. apply NoDup_cons in Hnd as [Htr _].
  assert (t ∈ slots (m_queue b)) as Ht by (rewrite Hp; by left).
  destruct (slots_lookup _ _ _ _ _ I Ht) as [Hlt [kt Hkt]].
  exists t, r, kt. split_and!; try done; [by eapply lookup_lt_Some|].
  intros d y k [->|Hd]%elem_of_cons Hy Hk.
  - rewrite <- (above_keys _ t y _ _ Hkt Hk). by apply Ha.
  - by eapply (inv_best _ _ _ _ I).
Qed.

(** Pushing on a full queue: the top is dropped. *)
Lemma push_full_ok n b ks dropped e : inv n b ks dropped → length (slots (m_queue b)) = (n + 1)%nat →
  ∃ b' kt, push e b = Some b' ∧ inv n b' (m_keymaker e :: ks) (kt :: dropped) ∧
    length (slots (m_queue b')) = (n + 1)%nat ∧ drop (n + 1) (m_sort_keys b') = drop (n + 1) (m_sort_keys b).
Proof.
  intros I Hlen. pose proof (elements_slots (m_queue b)) as He.
  destruct (top_split _ _ _ _ I) as (t & r & kt & Et & Hp & Htr & Hkt & Hlt & Ha & Hbest).
  { intros E0. rewrite E0 in Hlen. simpl in Hlen. lia. }
  assert (t < n + 1)%nat as Htn.
  { destruct (slots_lookup _ _ _ _ t I) as [? _]; [rewrite Hp; by left|lia]. }
  unfold push, is_initialized, queue_is_full.
  rewrite (inv_max _ _ _ _ I), He, (proj2 (Z.ltb_lt _ _)), andb_false_r, (proj2 (Z.eqb_eq _ _)) by lia.
  rewrite Et. simpl. rewrite write_key_ok by done. simpl. set (keys := <[t := m_keymaker e]> (m_sort_keys b)).
  destruct (replace_ok (above (m_sort_keys b)) (above keys) (m_queue b) t r (above_total keys)
              (inv_ordered _ _ _ _ I) Et Hp) as (Hs & Hm & Ho).
  { intros x y Hx Hy. by eapply above_insert. }
  pose proof (Permutation_length Hs) as Hl.
  assert (∀ y k, y ∈ r → keys !! y = Some k → m_sort_keys b !! y = Some k) as Hother.
  { intros y k Hy. unfold keys. by rewrite list_lookup_insert_ne by (by intros ->). }
  eexists _, kt. split; [done|]. split; [|cbn [m_queue m_sort_keys]; split; [lia|unfold keys; apply drop_insert_lt; lia]].
  split; cbn [m_queue m_sort_keys]; try done.
  - by rewrite Hm, (inv_max _ _ _ _ I).
  - unfold keys. rewrite length_insert. apply (inv_room _ _ _ _ I).
  - rewrite Hl, Hs. apply (inv_slots _ _ _ _ I).
  - lia.
  - lia.
  - rewrite (keys_of_perm keys _ (t :: r)) by (by rewrite Hs). rewrite <- (inv_keys _ _ _ _ I).
    rewrite (keys_of_perm (m_sort_keys b) _ _ Hp). simpl. rewrite Hkt. unfold keys.
    rewrite list_lookup_insert_eq, keys_of_insert by done. simpl. constructor. by rewrite Permutation_middle.
  - intros t' r' d Hp' Ha' Hd y k Hy Hk. rewrite Hs, Hp in Hp'.
    destruct (decide (y = t)) as [->|Hyt].
    + assert (t' ∈ r) as Ht'.
      { assert (t' ∈ t :: r) as Hin by (rewrite Hp'; by left). apply elem_of_cons in Hin as [->|]; [|done].
        pose proof (slots_nodup _ _ _ _ I) as Hnd. rewrite Hp, Hp' in Hnd. by apply NoDup_cons in Hnd as [? _]. }
      assert (t' ∈ slots (m_queue b)) as Hin by (rewrite Hp; by right).
      destruct (slots_lookup _ _ _ _ _ I Hin) as [_ [k' Hk']].
      apply (compare_trans _ k'); [by eapply Hbest|].
      rewrite <- (above_keys keys t' t); [by apply Ha'| |done]. unfold keys. by rewrite list_lookup_insert_ne by (by intros ->).
    + assert (y ∈ r) as Hyr.
      { assert (y ∈ t :: r) as Hin by (rewrite Hp'; by right). by apply elem_of_cons in Hin as [->|]. }
      eapply Hbest; [done|exact Hyr|by apply Hother].
Qed.

Lemma push_all_ok n es b ks dropped : inv n b ks dropped →
  ∃ b' ks' dropped', push_all es b = Some b' ∧ inv n b' ks' dropped' ∧ ks' ≡ₚ (m_keymaker <$> es) ++ ks ∧
    length (slots (m_queue b')) = Nat.min (n + 1) (length (slots (m_queue b)) + length es) ∧
    drop (n + 1) (m_sort_keys b') = drop (n + 1) (m_sort_keys b).
Proof.
  revert b ks dropped. induction es as [|e es IH]; intros b ks dropped I; simpl.
  - exists b, ks, dropped. pose proof (inv_size _ _ _ _ I). split_and!; try done. lia.
  - assert (∃ b1 d1, push e b = Some b1 ∧ inv n b1 (m_keymaker e :: ks) d1 ∧
      length (slots (m_queue b1)) = Nat.min (n + 1) (S (length (slots (m_queue b)))) ∧
      drop (n + 1) (m_sort_keys b1) = drop (n + 1) (m_sort_keys b)) as (b1 & d1 & E1 & I1 & L1 & F1).
    { pose proof (inv_size _ _ _ _ I). destruct (decide (length (slots (m_queue b)) < n + 1)%nat).
      - destruct (push_free_ok n b ks dropped e I) as (b1 & E1 & I1 & L1 & F1); [done|]. exists b1, dropped. split_and!; (done || lia).
      - destruct (push_full_ok n b ks dropped e I) as (b1 & kt & E1 & I1 & L1 & F1); [lia|]. exists b1, (kt :: dropped). split_and!; (done || lia). }
    rewrite E1. simpl. destruct (IH b1 _ _ I1) as (b' & ks' & d' & E2 & I2 & P2 & L2 & F2).
    exists b', ks', d'. split_and!; [done|done| |lia|by rewrite F2]. rewrite P2. by rewrite Permutation_middle.
Qed.

(** *** The keys kept *)

Lemma keys_of_seq keys m : (m ≤ length keys)%nat → keys_of keys (seq 0 m) = take m keys.
Proof.
  induction m as [|m IH]; intros Hm; [done|]. rewrite seq_S.
  assert (∀ a b, keys_of keys (a ++ b) = keys_of keys a ++ keys_of keys b) as Happ.
  { intros a b. induction a as [|x a IHa]; simpl; [done|]. by destruct (keys !! x); simpl; rewrite IHa. }
  rewrite Happ, IH by lia. destruct (lookup_lt_is_Some_2 keys m) as [k Ek]; [lia|]. simpl. rewrite Ek.
  by rewrite (take_S_r _ _ _ Ek).
Qed.

Lemma kept_slots n b ks dropped : inv n b ks dropped → keys_of (m_sort_keys b) (slots (m_queue b)) ≡ₚ kept b.
Proof.
  intros I. unfold kept, num_elements. rewrite elements_slots, Nat2Z.id.
  pose proof (inv_size _ _ _ _ I). pose proof (inv_room _ _ _ _ I).
  rewrite <- keys_of_seq by lia. apply keys_of_perm, (inv_slots _ _ _ _ I).
Qed.

Lemma elem_of_keys_of keys ss k : k ∈ keys_of keys ss → ∃ s, s ∈ ss ∧ keys !! s = Some k.
Proof.
  induction ss as [|s ss IH]; simpl; [by intros ?%elem_of_nil|]. intros Hk.
  destruct (keys !! s) as [k'|] eqn:Es.
  - apply elem_of_cons in Hk as [->|Hk]; [exists s; split; [by left|done]|].
    destruct (IH Hk) as (x & Hx & E1). exists x. split; [by right|done].
  - destruct (IH Hk) as (x & Hx & E1). exists x. split; [by right|done].
Qed.

(** The key of the top is the worst kept, and no key dropped is better than the
    others. *)
Lemma kept_top n b ks dropped : inv n b ks dropped → kept b ≠ [] →
  ∃ t kt r, queue_top (m_queue b) = Some t ∧ m_sort_keys b !! t = Some kt ∧ kept b ≡ₚ kt :: r ∧
    (∀ k, k ∈ r → key_above kt k = true) ∧ (∀ d k, d ∈ dropped → k ∈ r → key_above d k = true).
Proof.
  intros I Hne. pose proof (kept_slots _ _ _ _ I) as Hk.
  destruct (top_split _ _ _ _ I) as (t & r & kt & Et & Hp & _ & Hkt & _ & _ & Hbest).
  { intros E0. rewrite E0 in Hk. simpl in Hk. by apply Permutation_nil_l in Hk. }
  exists t, kt, (keys_of (m_sort_keys b) r). split; [done|]. split; [done|]. split.
  - rewrite <- Hk, (keys_of_perm _ _ _ Hp). simpl. by rewrite Hkt.
  - split.
    + intros k (x & Hx & Ex)%elem_of_keys_of. eapply Hbest; [by left|done|done].
    + intros d k Hd (x & Hx & Ex)%elem_of_keys_of. eapply Hbest; [by right|done|done].
Qed.

(** The best first. *)
Definition best_first (l : list K) : Prop := StronglySorted (λ a b, key_above b a = true) l.

Lemma best_first_split l1 l2 : best_first (l1 ++ l2) → ∀ a b, a ∈ l1 → b ∈ l2 → key_above b a = true.
Proof.
  unfold best_first. induction l1 as [|x l1 IH]; intros Hs a b Ha Hb; [by apply elem_of_nil in Ha|].
  simpl in Hs. apply StronglySorted_inv in Hs as [Hs Hx]. apply elem_of_cons in Ha as [->|Ha]; [|by apply IH].
  eapply Forall_forall in Hx; [exact Hx|]. apply elem_of_app. by right.
Qed.

(** The first [n] of the keys kept, the best first, are the best of all. *)
Lemma kept_best n b ks dropped l : inv n b ks dropped → l ≡ₚ kept b → best_first l →
  ∀ d k, d ∈ drop n l ++ dropped → k ∈ take n l → key_above d k = true.
Proof.
  intros I Hl Hs d k [Hd|Hd]%elem_of_app Hk.
  { rewrite <- (take_drop n l) in Hs. by eapply best_first_split. }
  assert (dropped ≠ []) as Hne by (intros E0; rewrite E0 in Hd; by apply elem_of_nil in Hd).
  pose proof (inv_full _ _ _ _ I Hne) as Hfull. pose proof (kept_slots _ _ _ _ I) as Hks.
  assert (length l = n + 1)%nat as Hlen.
  { rewrite Hl. unfold kept, num_elements. rewrite length_take, elements_slots, Hfull. pose proof (inv_room _ _ _ _ I). lia. }
  destruct (kept_top _ _ _ _ I) as (t & kt & r & _ & _ & Hp & Hw & Hb).
  { intros E0. rewrite E0 in Hl. apply Permutation_nil_r in Hl. subst l. simpl in Hlen. lia. }
  destruct l as [|z l _] using rev_ind; [simpl in Hlen; lia|].
  rewrite length_app in Hlen. simpl in Hlen. rewrite take_app_le, take_ge in Hk by lia.
  rewrite Hp in Hl.
  assert (k ∈ kt :: r) as Hkin by (rewrite <- Hl; apply elem_of_app; by left).
  apply elem_of_cons in Hkin as [->|Hkin]; [|by apply Hb].
  assert (z ∈ kt :: r) as Hz by (rewrite <- Hl; apply elem_of_app; right; by left).
  apply elem_of_cons in Hz as [->|Hz].
  - rewrite <- Permutation_cons_append in Hl. apply Permutation_cons_inv in Hl. apply Hb; [done|]. by rewrite <- Hl.
  - apply (compare_trans _ z); [by apply Hb|]. apply (best_first_split l [z] Hs); [done|by left].
Qed.

Lemma init_inv n sort_keys b : init n sort_keys = (0, Some b) → 0 ≤ n → n < Z.of_nat (length sort_keys) →
  inv (Z.to_nat n) b [] [] ∧ slots (m_queue b) = [] ∧ m_sort_keys b = sort_keys.
Proof.
  unfold init. destruct (Z.leb_spec (UINT_MAX - 1) n) as [|Hn]; [done|]. intros Hi H0 Hl.
  unfold to_uint32, UINT_MAX in *. rewrite !wrap_id in Hi by (rewrite ?wrap_id; unfold in_u; lia).
  destruct (init_queue (n + 1)) as [q|] eqn:Eq; [|done]. injection Hi as <-.
  destruct (init_ok _ _ (above sort_keys) Eq) as (Hs & Hm & Ho). split; [|done].
  split; cbn [m_queue m_sort_keys]; rewrite ?Hs; try done; try lia.
  - simpl. lia.
  - intros t r d _ _ Hd. by apply elem_of_nil in Hd.
Qed.

(** C15: The bounded queue keeps the best N.  After [init] for [n] keys and the
    push of any elements, the slots in use are as many as the elements, [n + 1]
    at most; the keys in them are keys of the elements pushed, and the first [n]
    of them, when they are sorted with the best first, are the best of all: no
    other key pushed is better than one of them.  The top of the queue is a
    slot whose key is the worst of those kept.  No push writes outside the
    [n + 1] slots. *)
Theorem bounded_queue_keeps_best n sort_keys b es :
  init n sort_keys = (0, Some b) → 0 ≤ n → n < Z.of_nat (length sort_keys) →
  ∃ b' dropped, push_all es b = Some b' ∧
    num_elements b' = Z.min (n + 1) (Z.of_nat (length es)) ∧
    kept b' ++ dropped ≡ₚ m_keymaker <$> es ∧
    (∀ l, l ≡ₚ kept b' → best_first l →
       ∀ d k, d ∈ drop (Z.to_nat n) l ++ dropped → k ∈ take (Z.to_nat n) l → key_above d k = true) ∧
    (es ≠ [] → ∃ t kt r, queue_top (m_queue b') = Some t ∧ kept b' !! t = Some kt ∧ kept b' ≡ₚ kt :: r ∧
       ∀ k, k ∈ r → key_above kt k = true) ∧
    length (m_sort_keys b') = length sort_keys ∧
    drop (Z.to_nat n + 1) (m_sort_keys b') = drop (Z.to_nat n + 1) sort_keys.
Proof.
  intros Hi H0 Hl. destruct (init_inv _ _ _ Hi H0 Hl) as (I & Hs & Hkeys).
  destruct (push_all_ok _ es _ _ _ I) as (b' & ks' & d' & E1 & I' & P1 & L1 & F1).
  rewrite Hs in L1. simpl in L1. rewrite app_nil_r in P1. rewrite Hkeys in F1.
  pose proof (inv_room _ _ _ _ I') as Hroom. pose proof (elements_slots (m_queue b')) as He.
  assert (length (kept b') = Nat.min (Z.to_nat n + 1) (length es)) as Hlen.
  { unfold kept, num_elements. rewrite length_take, He. lia. }
  exists b', d'. split_and!; [done| | | | | |done].
  - unfold num_elements. rewrite He. lia.
  - rewrite <- P1, <- (inv_keys _ _ _ _ I'). by rewrite (kept_slots _ _ _ _ I').
  - intros l Hp Hb. by apply (kept_best _ _ _ _ l I').
  - intros Hne. destruct (kept_top _ _ _ _ I') as (t & kt & r & Et & Ekt & Hp & Hw & _).
    { intros E0. rewrite E0 in Hlen. destruct es; [done|]. simpl in Hlen. lia. }
    exists t, kt, r. split_and!; try done. unfold kept. rewrite lookup_take_lt; [done|].
    destruct (top_split _ _ _ _ I') as (t' & r' & _ & Et' & Hp' & _).
    { intros E0. rewrite E0 in L1. destruct es; [done|]. simpl in L1. lia. }
    rewrite Et in Et'. injection Et' as <-.
    destruct (slots_lookup _ _ _ _ t I') as [Hlt _]; [rewrite Hp'; by left|]. unfold num_elements. rewrite He. lia.
  - apply (f_equal length) in F1. rewrite !length_drop in F1. lia.
Qed.

(** [pop] of a queue that holds an element is undefined: it removes index 0 of a
    heap whose elements start at index 1.  Nothing is lost, since no code calls
    it. *)
Theorem bounded_queue_pop_undefined b : 0 < num_elements b → pop b = None.
Proof.
  unfold num_elements, pop. intros H0.
  assert (∀ ab, queue_remove ab (m_queue b) 0 = None) as Hr by (intros ab; apply remove_outside; lia).
  rewrite Hr. destruct (queue_is_full (m_queue b)); [done|]. cbn [mbind option_bind].
  rewrite (proj2 (Z.ltb_lt _ _)), andb_false_r, (proj2 (Z.eqb_neq _ _)) by lia. by rewrite Hr.
Qed.
End Bounded.

(** ** An instance: a sorted list *)

Module SortedQueue.
Fixpoint place (above : nat → nat → bool) (s : nat) (l : list nat) : list nat :=
  match l with
  | [] => [s]
  | x :: r => if above s x then s :: l else x :: place above s r
  end.

#[export] Instance queue : Queue (Z * list nat) := {
  init_queue n := Some (n, []);
  q_elements q := Z.of_nat (length q.2);
  q_max_elements q := q.1;
  queue_top q := head q.2;
  queue_insert above q s := (q.1, place above s q.2);
  queue_replace_top above q := match q.2 with [] => q | s :: r => (q.1, place above s r) end;
  queue_remove above q idx :=
    if bool_decide (1 ≤ idx ≤ Z.of_nat (length q.2)) then
      s ← q.2 !! Z.to_nat (idx - 1); Some (s, (q.1, delete (Z.to_nat (idx - 1)) q.2))
    else None }.

Lemma place_perm above s l : place above s l ≡ₚ s :: l.
Proof.
  induction l as [|x r IH]; simpl; [done|]. destruct (above s x); [done|]. rewrite IH. constructor.
Qed.

Definition sorted (above : nat → nat → bool) (l : list nat) : Prop := StronglySorted (λ a b, above a b = true) l.

Lemma place_sorted above s l : total_order above → sorted above l → sorted above (place above s l).
Proof.
  intros [Ht Htr]. induction 1 as [|x r Hs IH Hx]; simpl; [by repeat constructor|].
  destruct (above s x) eqn:E.
  - repeat constructor; try done. eapply Forall_impl; [exact Hx|]. intros y Hy. by eapply Htr.
  - constructor; [done|]. rewrite place_perm. constructor; [|done]. destruct (Ht s x); [congruence|done].
Qed.

Lemma sorted_ext above above' l : sorted above l → (∀ a b, a ∈ l → b ∈ l → above' a b = above a b) → sorted above' l.
Proof.
  induction 1 as [|x r Hs IH Hx]; intros Hag; constructor.
  - apply IH. intros a b Ha Hb. apply Hag; by right.
  - apply Forall_forall. intros y Hy. rewrite Hag; [|by left|by right]. by eapply Forall_forall in Hx.
Qed.

#[export] Instance laws : QueueLaws (Z * list nat).
Proof.
  refine {| slots q := q.2; ordered above q := sorted above q.2 |}.
  - done.
  - intros above above' q Ho Hag. by eapply sorted_ext.
  - intros n q above [= <-]. split_and!; try done. constructor.
  - intros above [m [|t r]] _ Ho Hne; [done|]. simpl in *. exists t, r. split_and!; try done.
    apply StronglySorted_inv in Ho as [_ Ho]. intros x Hx. by eapply Forall_forall in Ho.
  - intros above [m l] s Ht Ho _. simpl in *. split_and!; [apply place_perm|done|by apply place_sorted].
  - intros above above' [m [|x l]] t r Ht Ho Et Hp Hag; [done|]. simpl in *. injection Et as ->.
    apply StronglySorted_inv in Ho as [Ho _]. split_and!; [apply place_perm|done|].
    apply place_sorted; [done|]. eapply sorted_ext; [exact Ho|]. apply Permutation_cons_inv in Hp.
    intros a b Ha Hb. apply Hag; by rewrite <- Hp.
  - intros above [m l] idx Hi. simpl in *. by rewrite bool_decide_false.
Defined.
End SortedQueue.
Import (hints) SortedQueue.

(** The three smallest of five numbers: 4 is dropped when 3 is pushed. *)
Definition sample_queue : bounded_queue := BQ [0; 0; 0; 0; 9] (4, @nil nat).

Lemma bounded_queue_keeps_best_witness :
  ∃ b', push_all Z.sub id true true [5; 1; 4; 2; 3] sample_queue = Some b' ∧ kept b' = [3; 1; 4; 2] ∧
    ∀ d k, d ∈ [4; 5] → k ∈ [1; 2; 3] → key_above Z.sub true d k = true.
Proof.
  destruct (bounded_queue_keeps_best (E := Z) Z.sub id true true) with (n := 3) (sort_keys := [0; 0; 0; 0; 9])
    (b := sample_queue) (es := [5; 1; 4; 2; 3]) as (b' & dropped & E1 & _ & P & B & _).
  - intros a b. unfold key_above. rewrite !Z.leb_le. lia.
  - intros a b c. unfold key_above. rewrite !Z.leb_le. lia.
  - reflexivity.
  - lia.
  - simpl. lia.
  - exists b'. split; [exact E1|]. vm_compute in E1. injection E1 as <-. split; [reflexivity|].
    assert (dropped = [5]) as ->.
    { apply Permutation_singleton_r. apply (Permutation_app_inv_l [3; 1; 4; 2]).
      etrans; [exact P|]. vm_compute. solve_Permutation. }
    apply (B [1; 2; 3; 4]).
    + vm_compute. solve_Permutation.
    + unfold best_first. repeat constructor.
Defined.
