(* ===== verification/Views.v ===== *)
(** Views of a part of an array: [span.h], [class span], and [sql_array.h],
    [class Bounds_checked_array].  A view is a pointer and a size; it owns
    nothing.  The memory is one array of elements and a pointer is an offset
    into it; reading outside the array is undefined, and so is a failed
    assertion. *)
From S2P Require Import Prelude.

Section Views.
(** The memory, and whether assertions are active. *)
Context {E : Type} (mem : list E) (dbug : bool).

Definition assert_ (b : bool) : option unit := if dbug && negb b then None else Some tt.
Definition deref (p : Z) : option E := if p <? 0 then None else mem !! Z.to_nat p.

(** ** [class span] *)

Record span := Span { data_ : Z; size_ : Z }.

Definition span_range (first last : Z) : span := Span first (to_ulonglong (last - first)).
Definition size (s : span) : Z := size_ s.
Definition empty (s : span) : bool := size s =? 0.
Definition data (s : span) : Z := data_ s.
Definition assign (s other : span) : span := Span (data other) (size other).

(** [first(count)] and [last(count)], and those with the count as a template
    argument. *)
Definition first (s : span) (count : Z) : option span := assert_ (negb (empty s));; Some (Span (data s) 1).
Definition last (s : span) (count : Z) : option span :=
  assert_ (negb (empty s));; Some (Span (data s + size s - 1) 1).

Definition subspan (s : span) (offset count : Z) : option span :=
  assert_ (negb (empty s));;
  assert_ (to_ulonglong (offset + count) <=? size s);;
  Some (Span (data s + offset) count).

Definition index (s : span) (idx : Z) : option E := assert_ (idx <? size s);; deref (data s + idx).
Definition front (s : span) : option E := assert_ (negb (empty s));; deref (data s).
Definition back (s : span) : option E := assert_ (negb (empty s));; deref (data s + to_ulonglong (size s - 1)).
Definition begin_ (s : span) : Z := data_ s.
Definition end_ (s : span) : Z := data_ s + size_ s.

(** The loop [for (p= begin(); p != end(); ++p)], and the one of the reverse
    iterators, that reads the element before its position. *)
Fixpoint forward (fuel : nat) (p e : Z) : option (list E) :=
  match fuel with
  | O => None
  | S fuel => if p =? e then Some [] else x ← deref p; l ← forward fuel (p + 1) e; Some (x :: l)
  end.
Fixpoint backward (fuel : nat) (p e : Z) : option (list E) :=
  match fuel with
  | O => None
  | S fuel => if p =? e then Some [] else x ← deref (p - 1); l ← backward fuel (p - 1) e; Some (x :: l)
  end.

(** ** [class Bounds_checked_array] *)

(** The null pointer is none. *)
Record bounds_checked_array := Bca { m_array : option Z; m_size : Z }.

Definition bca_default : bounds_checked_array := Bca None 0.
Definition bca_reset : bounds_checked_array := Bca None 0.
Definition bca_reset_to (array_arg : Z) (size_arg : Z) : bounds_checked_array := Bca (Some array_arg) size_arg.
Definition bca_resize (a : bounds_checked_array) (new_size : Z) : option bounds_checked_array :=
  assert_ (new_size <=? m_size a);; Some (Bca (m_array a) new_size).
Definition bca_index (a : bounds_checked_array) (n : Z) : option E :=
  assert_ (n <? m_size a);; p ← m_array a; deref (p + n).
Definition bca_is_null (a : bounds_checked_array) : bool := bool_decide (m_array a = None).
Definition bca_pop_front (a : bounds_checked_array) : option bounds_checked_array :=
  assert_ (0 <? m_size a);; p ← m_array a; Some (Bca (Some (p + 1)) (to_ulonglong (m_size a - 1))).
Definition bca_eq (a rhs : bounds_checked_array) : bool :=
  bool_decide (m_array a = m_array rhs) && (m_size a =? m_size rhs).
Definition bca_ne (a rhs : bounds_checked_array) : bool :=
  bool_decide (m_array a ≠ m_array rhs) || negb (m_size a =? m_size rhs).

(** ** Specification: the part of the array *)

(** [n] elements of the memory from [p] are [l]. *)
Definition part (p n : Z) (l : list E) : Prop :=
  0 ≤ p ∧ n = Z.of_nat (length l) ∧ take (length l) (drop (Z.to_nat p) mem) = l ∧ in_u 64 n.
Definition view (s : span) (l : list E) : Prop := part (data_ s) (size_ s) l.
Definition bca_view (a : bounds_checked_array) (l : list E) : Prop := ∃ p, m_array a = Some p ∧ part p (m_size a) l.

Lemma assert_true b : b = true → assert_ b = Some tt.
Proof. intros ->. unfold assert_. by rewrite andb_false_r. Qed.

Lemma part_lookup p n l i : part p n l → (i < length l)%nat → deref (p + Z.of_nat i) = l !! i.
Proof.
  intros (Hp & Hn & Hl & _) Hi. unfold deref. rewrite (proj2 (Z.ltb_ge _ _)) by lia.
  rewrite <- Hl, lookup_take_lt, lookup_drop by done. f_equal. lia.
Qed.

Lemma part_sub p n l i k : part p n l → (i + k ≤ length l)%nat → part (p + Z.of_nat i) (Z.of_nat k) (take k (drop i l)).
Proof.
  intros (Hp & Hn & Hl & Hu) Hk.
  assert (length (take k (drop i l)) = k) as Hlen by (rewrite length_take, length_drop; lia).
  split; [lia|]. rewrite Hlen. split; [done|]. split; [|unfold in_u in *; lia].
  replace (Z.to_nat (p + Z.of_nat i)) with (Z.to_nat p + i)%nat by lia.
  assert (drop i l = take (length l - i) (drop (Z.to_nat p + i) mem)) as ->.
  { rewrite <- Hl at 1. by rewrite skipn_firstn_comm, drop_drop. }
  rewrite take_take. f_equal. lia.
Qed.

Lemma span_forward_ok fuel p n l : part p n l → (length l < fuel)%nat → forward fuel p (p + n) = Some l.
Proof.
  revert p n l. induction fuel as [|fuel IH]; intros p n l H Hf; [lia|]. simpl. pose proof H as (Hp & Hn & Hl & Hu).
  destruct l as [|x l]; simpl in *.
  - subst n. by rewrite Z.add_0_r, Z.eqb_refl.
  - rewrite (proj2 (Z.eqb_neq _ _)) by lia. pose proof (part_lookup p n (x :: l) 0 H) as Hx. simpl in Hx.
    rewrite Z.add_0_r in Hx. rewrite Hx by lia. simpl.
    pose proof (part_sub p n (x :: l) 1 (length l) H) as Hs. simpl in Hs. rewrite drop_0, firstn_all in Hs.
    replace (p + n) with (p + 1 + Z.of_nat (length l)) by lia. rewrite (IH _ _ l); [done| |lia].
    apply Hs. lia.
Qed.

Lemma span_backward_ok fuel p n l : part p n l → (length l < fuel)%nat → backward fuel (p + n) p = Some (rev l).
Proof.
  revert n l. induction fuel as [|fuel IH]; intros n l H Hf; [lia|]. simpl. pose proof H as (Hp & Hn & Hl & Hu).
  destruct l as [|x l _] using rev_ind; simpl in *.
  - subst n. by rewrite Z.add_0_r, Z.eqb_refl.
  - rewrite length_app in *. simpl in *. rewrite (proj2 (Z.eqb_neq _ _)) by lia.
    pose proof (part_lookup p n (l ++ [x]) (length l) H) as Hx. rewrite list_lookup_middle in Hx by done.
    replace (p + n - 1) with (p + Z.of_nat (length l)) by lia. rewrite Hx by (rewrite length_app; simpl; lia). simpl.
    pose proof (part_sub p n (l ++ [x]) 0 (length l) H) as Hs. simpl in Hs. rewrite drop_0, take_app_length, Z.add_0_r in Hs.
    rewrite (IH _ l); [|apply Hs; rewrite length_app; lia|lia]. simpl. by rewrite rev_app_distr.
Qed.

(** A span is a window of the array.  [subspan] of a range inside the span is
    the window of that range, [index], [front] and [back] read its elements, and
    the forward and reverse iterations read all of them, in order and in reverse
    order; no access is outside the array and no assertion fails. *)
Theorem span_window s l i k fuel : view s l → (length l < fuel)%nat →
  (l ≠ [] → (i + k ≤ length l)%nat →
     ∃ s', subspan s (Z.of_nat i) (Z.of_nat k) = Some s' ∧ view s' (take k (drop i l))) ∧
  ((i < length l)%nat → index s (Z.of_nat i) = l !! i) ∧
  (l ≠ [] → front s = head l ∧ back s = list.last l) ∧
  forward fuel (begin_ s) (end_ s) = Some l ∧ backward fuel (end_ s) (begin_ s) = Some (rev l).
Proof.
  intros V Hf. pose proof V as (Hp & Hn & _ & Hu). unfold view in V.
  assert (l ≠ [] → empty s = false) as He.
  { intros Hl. unfold empty, size. rewrite Hn. destruct l; [done|]. apply Z.eqb_neq. simpl. lia. }
  split_and!.
  - intros Hl Hk. unfold subspan. rewrite He, (assert_true (negb false)) by done. simpl.
    rewrite assert_true; [simpl; eexists; split; [done|]; exact (part_sub _ _ _ _ _ V Hk)|].
    apply Z.leb_le. unfold to_ulonglong, size. rewrite wrap_id by (unfold in_u in *; lia). lia.
  - intros Hi. unfold index, size, data. rewrite assert_true by (apply Z.ltb_lt; lia). simpl. by eapply part_lookup.
  - intros Hl. unfold front, back, data, size. rewrite He, (assert_true (negb false)) by done. simpl.
    assert (0 < length l)%nat by (destruct l; [done|simpl; lia]). split.
    + replace (data_ s) with (data_ s + Z.of_nat 0) by lia. rewrite (part_lookup _ _ l) by done. by destruct l.
    + unfold to_ulonglong. rewrite wrap_id by (unfold in_u in *; lia).
      replace (size_ s - 1) with (Z.of_nat (length l - 1)) by lia. rewrite (part_lookup _ _ l) by (done || lia).
      by rewrite last_lookup, Nat.sub_1_r.
  - by apply span_forward_ok.
  - by apply span_backward_ok.
Qed.

(** [first] and [last] of any count give a span of one element. *)
Theorem span_counts_ignored s count : empty s = false →
  first s count = Some (Span (data s) 1) ∧ last s count = Some (Span (data s + size s - 1) 1).
Proof. intros He. unfold first, last. rewrite He. by rewrite !(assert_true (negb false)). Qed.

(** [subspan] accepts a range whose end is past the largest size: the sum of
    offset and count is reduced modulo [2^64]. *)
Theorem span_subspan_wraps s : empty s = false → 0 ≤ size s →
  subspan s (2 ^ 64 - 1) 1 = Some (Span (data s + (2 ^ 64 - 1)) 1).
Proof.
  intros He Hs. unfold subspan. rewrite He, (assert_true (negb false)) by done. simpl. rewrite assert_true; [done|].
  apply Z.leb_le. exact Hs.
Qed.

(** A bounds-checked array is a window of the array whose start and size
    move: [resize] keeps a prefix, [pop_front] drops the first element, indexing
    reads the elements, and two are equal exactly when they are the same window.
    With assertions active an index outside the window, a [resize] to a greater
    size and a [pop_front] of an empty window abort. *)
Theorem bounds_checked_array_window a l n : bca_view a l →
  ((n ≤ length l)%nat → ∃ a', bca_resize a (Z.of_nat n) = Some a' ∧ bca_view a' (take n l)) ∧
  ((n < length l)%nat → bca_index a (Z.of_nat n) = l !! n) ∧
  (l ≠ [] → ∃ a', bca_pop_front a = Some a' ∧ bca_view a' (tail l)) ∧
  (∀ b, (bca_eq a b = true ↔ a = b) ∧ bca_ne a b = negb (bca_eq a b)) ∧
  (dbug = true → (length l ≤ n)%nat → bca_index a (Z.of_nat n) = None ∧
     ((length l < n)%nat → bca_resize a (Z.of_nat n) = None) ∧ (l = [] → bca_pop_front a = None)).
Proof.
  intros (p & Ep & V). pose proof V as (Hp & Hn & _ & Hu). split_and!.
  - intros Hle. unfold bca_resize. rewrite assert_true by (apply Z.leb_le; lia). simpl. eexists. split; [done|].
    exists p. split; [done|]. pose proof (part_sub p _ l 0 n V Hle) as Hs. by rewrite drop_0, Z.add_0_r in Hs.
  - intros Hlt. unfold bca_index. rewrite assert_true by (apply Z.ltb_lt; lia). simpl. rewrite Ep. simpl. by eapply part_lookup.
  - intros Hl. destruct l as [|x l]; [done|]. simpl in Hn. unfold bca_pop_front.
    rewrite assert_true by (apply Z.ltb_lt; lia). simpl. rewrite Ep. simpl. eexists. split; [done|].
    exists (p + 1). split; [done|]. cbn [m_size]. pose proof (part_sub p _ (x :: l) 1 (length l) V) as Hs.
    simpl in Hs. rewrite drop_0, firstn_all in Hs. unfold to_ulonglong. rewrite wrap_id by (unfold in_u in *; lia).
    replace (m_size a - 1) with (Z.of_nat (length l)) by lia. apply Hs. lia.
  - intros b. destruct a as [pa na], b as [pb nb]. unfold bca_eq, bca_ne. simpl. split.
    + rewrite andb_true_iff, bool_decide_eq_true, Z.eqb_eq. naive_solver.
    + rewrite negb_andb, bool_decide_not. done.
  - intros Hd Hge. unfold bca_index, bca_resize, bca_pop_front, assert_. rewrite Hn, Hd. split_and!.
    + by rewrite (proj2 (Z.ltb_ge _ _)) by lia.
    + intros Hgt. by rewrite (proj2 (Z.leb_gt _ _)) by lia.
    + by intros ->.
Qed.
End Views.

(** The window 2, 3, 5 of an array. *)
Lemma span_window_witness :
  view [1; 2; 3; 5; 8] (Span 1 3) [2; 3; 5] ∧
  (∃ s', subspan true (Span 1 3) 1 2 = Some s' ∧ view [1; 2; 3; 5; 8] s' [3; 5]) ∧
  forward [1; 2; 3; 5; 8] 5 1 4 = Some [2; 3; 5].
Proof.
  assert (view [1; 2; 3; 5; 8] (Span 1 3) [2; 3; 5]) as V by (split_and!; done).
  destruct (span_window [1; 2; 3; 5; 8] true (Span 1 3) [2; 3; 5] 1 2 5 V) as (Hs & _ & _ & Hf & _); [simpl; lia|].
  split; [exact V|]. split; [apply Hs; [done|simpl; lia]|exact Hf].
Defined.

Lemma bounds_checked_array_window_witness :
  bca_view [1; 2; 3; 5; 8] (Bca (Some 1) 3) [2; 3; 5] ∧
  ∃ a', bca_pop_front true (Bca (Some 1) 3) = Some a' ∧ bca_view [1; 2; 3; 5; 8] a' [3; 5].
Proof.
  assert (bca_view [1; 2; 3; 5; 8] (Bca (Some 1) 3) [2; 3; 5]) as V by (exists 1; split_and!; done).
  destruct (bounds_checked_array_window [1; 2; 3; 5; 8] true (Bca (Some 1) 3) [2; 3; 5] 0 V) as (_ & _ & Hp & _).
  split; [exact V|]. apply Hp. done.
Defined.
