(* ===== verification/CMemory.v ===== *)
(** Flat memory: the accessible bytes by address, and the blocks that
    [my_malloc] has handed out.  An access to an address that is not in [cells]
    is undefined, and so is freeing a pointer that is not the start of a
    block.  Address 0 is the null pointer. *)
From S2P Require Import Prelude.

Record mem := Mem { cells : gmap Z Z; heap : gmap Z Z }.

(** Reading [n] bytes, and writing the bytes [l], at address [p]. *)
Fixpoint load (c : gmap Z Z) (p : Z) (n : nat) : option (list Z) :=
  match n with
  | O => Some []
  | S n => x ← c !! p; l ← load c (p + 1) n; Some (x :: l)
  end.

Fixpoint store (c : gmap Z Z) (p : Z) (l : list Z) : option (gmap Z Z) :=
  match l with
  | [] => Some c
  | x :: l => _ ← c !! p; store (<[p := x]> c) (p + 1) l
  end.

(** [memcpy(p, q, n)]: undefined when the regions overlap. *)
Definition mem_copy (c : gmap Z Z) (p q n : Z) : option (gmap Z Z) :=
  if bool_decide (p + n ≤ q ∨ q + n ≤ p)
  then l ← load c q (Z.to_nat n); store c p l else None.

Fixpoint del_range (c : gmap Z Z) (p : Z) (n : nat) : gmap Z Z :=
  match n with O => c | S n => del_range (delete p c) (p + 1) n end.

(** [my_free(p)]: nothing for a null pointer. *)
Definition my_free (p : Z) (m : mem) : option mem :=
  if p =? 0 then Some m else
  size ← heap m !! p;
  Some (Mem (del_range (cells m) p (Z.to_nat size)) (delete p (heap m))).

(** [strlen]; [fuel] bounds the number of bytes looked at. *)
Fixpoint strlen (fuel : nat) (c : gmap Z Z) (p : Z) : option Z :=
  match fuel with
  | O => None
  | S f => x ← c !! p; if x =? 0 then Some 0 else n ← strlen f c (p + 1); Some (n + 1)
  end.

(** ** Contents *)

(** The bytes [l] are at [p]; [n] bytes at [p] are accessible. *)
Definition arr (c : gmap Z Z) (p : Z) (l : list Z) : Prop :=
  ∀ i x, l !! i = Some x → c !! (p + Z.of_nat i) = Some x.

Definition room (c : gmap Z Z) (p n : Z) : Prop := ∀ a, p ≤ a < p + n → is_Some (c !! a).

(** A C string: the bytes [l] and a terminator. *)
Definition cstring (c : gmap Z Z) (p : Z) (l : list Z) : Prop := arr c p (l ++ [0]).

Lemma arr_nil c p : arr c p [].
Proof. intros i x. by rewrite lookup_nil. Qed.

Lemma arr_app c p l k : arr c p (l ++ k) ↔ arr c p l ∧ arr c (p + Z.of_nat (length l)) k.
Proof.
  unfold arr. split.
  - intros H. split; intros i x Hx.
    + apply H. by apply lookup_app_l_Some.
    + rewrite <- Z.add_assoc, <- Nat2Z.inj_add. apply H.
      rewrite lookup_app_r by lia. by rewrite Nat.add_comm, Nat.add_sub.
  - intros [Hl Hk] i x [Hx|[Hi Hx]]%lookup_app_Some; [by apply Hl|].
    apply Hk in Hx. rewrite <- Hx. f_equal. lia.
Qed.

Lemma arr_cons c p x l : arr c p (x :: l) ↔ c !! p = Some x ∧ arr c (p + 1) l.
Proof.
  rewrite (arr_app c p [x] l). apply and_iff_compat_r. unfold arr. split.
  - intros H. by rewrite <- (H 0%nat x eq_refl), Z.add_0_r.
  - intros H [|i] y; [|done]. intros [= <-]. by rewrite Z.add_0_r.
Qed.

(** Contents depend on the bytes of their range only. *)
Lemma arr_ext c c' p l : arr c p l →
  (∀ a x, p ≤ a < p + Z.of_nat (length l) → c !! a = Some x → c' !! a = Some x) → arr c' p l.
Proof.
  intros H Hc i x Hx. apply Hc; [|by apply H]. apply lookup_lt_Some in Hx. lia.
Qed.

Lemma arr_sub c p l o n : arr c p l → arr c (p + Z.of_nat o) (take n (drop o l)).
Proof.
  intros H i x Hx. rewrite <- Z.add_assoc, <- Nat2Z.inj_add. apply H.
  apply lookup_take_Some in Hx as [Hx _]. by rewrite lookup_drop in Hx.
Qed.

Lemma arr_room c p l : arr c p l → room c p (Z.of_nat (length l)).
Proof.
  intros H a Ha. destruct (lookup_lt_is_Some_2 l (Z.to_nat (a - p))) as [x Hx]; [lia|].
  exists x. rewrite <- (H _ _ Hx). f_equal. lia.
Qed.

Lemma room_sub c p n q k : room c p n → p ≤ q → q + k ≤ p + n → room c q k.
Proof. intros H Hq Hk a Ha. apply H. lia. Qed.

Lemma room_ext c c' p n : room c p n →
  (∀ a, p ≤ a < p + n → is_Some (c !! a) → is_Some (c' !! a)) → room c' p n.
Proof. unfold room. auto. Qed.

(** What is accessible has contents. *)
Lemma room_arr c p n : room c p (Z.of_nat n) → ∃ l, length l = n ∧ arr c p l.
Proof.
  revert p. induction n as [|n IH]; intros p H.
  - exists []. split; [done|apply arr_nil].
  - destruct (H p) as [x Hx]; [lia|]. destruct (IH (p + 1)) as (l & Hl & Ha).
    { intros a Ha. apply H. lia. }
    exists (x :: l). simpl. rewrite Hl. split; [done|]. by apply arr_cons.
Qed.

Lemma load_ok c p l n : arr c p l → n = length l → load c p n = Some l.
Proof.
  intros H ->. revert p H. induction l as [|x l IH]; intros p H; [done|].
  apply arr_cons in H as [Hx H]. simpl. rewrite Hx. simpl. by rewrite IH.
Qed.

(** Deciding contents and accessibility of a concrete memory. *)
Lemma load_arr c p l : load c p (length l) = Some l → arr c p l.
Proof.
  revert p. induction l as [|x l IH]; intros p E; [apply arr_nil|]. simpl in E.
  destruct (c !! p) as [y|] eqn:Ey; [|done]. simpl in E.
  destruct (load c (p + 1) (length l)) as [k|] eqn:Ek; [|done]. simpl in E. simplify_eq.
  apply arr_cons. auto.
Qed.

Lemma room_check c p n :
  forallb (λ i, bool_decide (is_Some (c !! (p + Z.of_nat i)))) (seq 0 (Z.to_nat n)) = true → room c p n.
Proof.
  intros E a Ha. rewrite forallb_forall in E. specialize (E (Z.to_nat (a - p))).
  rewrite bool_decide_eq_true in E. replace (p + Z.of_nat (Z.to_nat (a - p))) with a in E by lia.
  apply E. apply in_seq. lia.
Qed.

Lemma store_ok c p l : room c p (Z.of_nat (length l)) →
  ∃ c', store c p l = Some c' ∧ arr c' p l ∧
    (∀ a, ¬ (p ≤ a < p + Z.of_nat (length l)) → c' !! a = c !! a) ∧
    (∀ a, is_Some (c' !! a) ↔ is_Some (c !! a)).
Proof.
  revert c p. induction l as [|x l IH]; intros c p H; simpl in *.
  { exists c. split_and!; done. }
  destruct (H p) as [y Hy]; [lia|]. rewrite Hy. simpl.
  assert (∀ a, is_Some ((<[p:=x]> c) !! a) ↔ is_Some (c !! a)) as Hs.
  { intros a. destruct (decide (a = p)) as [->|]; [|by rewrite lookup_insert_ne].
    rewrite lookup_insert_eq, Hy. split; eauto. }
  destruct (IH (<[p := x]> c) (p + 1)) as (c' & Hc & Ha & Ho & Hd).
  { intros a Ha. apply Hs, H. lia. }
  exists c'. split_and!; [done| | |].
  - apply arr_cons. split; [|done]. rewrite Ho by lia. by rewrite lookup_insert_eq.
  - intros a Hn. rewrite Ho by lia. rewrite lookup_insert_ne by lia. done.
  - intros a. by rewrite Hd, Hs.
Qed.

Lemma mem_copy_ok c p q l n : n = Z.of_nat (length l) → arr c q l → room c p n →
  p + n ≤ q ∨ q + n ≤ p →
  ∃ c', mem_copy c p q n = Some c' ∧ arr c' p l ∧
    (∀ a, ¬ (p ≤ a < p + n) → c' !! a = c !! a) ∧ (∀ a, is_Some (c' !! a) ↔ is_Some (c !! a)).
Proof.
  intros -> Hl Hr Hd. unfold mem_copy. rewrite bool_decide_true by done.
  rewrite (load_ok _ _ l) by (done || lia). simpl. by apply store_ok.
Qed.

Lemma del_range_lookup c p n a :
  del_range c p n !! a = if decide (p ≤ a < p + Z.of_nat n) then None else c !! a.
Proof.
  revert c p. induction n as [|n IH]; intros c p; simpl.
  { by rewrite decide_False by lia. }
  rewrite IH. destruct (decide (a = p)) as [->|Hne].
  - rewrite decide_False, decide_True by lia. apply lookup_delete_eq.
  - rewrite lookup_delete_ne by done. repeat case_decide; lia || done.
Qed.

Lemma my_free_ok p n m : p ≠ 0 → heap m !! p = Some n →
  my_free p m = Some (Mem (del_range (cells m) p (Z.to_nat n)) (delete p (heap m))).
Proof. intros Hp Hn. unfold my_free. apply Z.eqb_neq in Hp. by rewrite Hp, Hn. Qed.

(** [strlen] finds the first terminator. *)
Lemma strlen_ok c p l f : arr c p (l ++ [0]) → Forall (λ x, x ≠ 0) l → (length l < f)%nat →
  strlen f c p = Some (Z.of_nat (length l)).
Proof.
  revert p f. induction l as [|x l IH]; intros p [|f] H Hf Hl; simpl in *; try lia.
  - apply arr_cons in H as [H _]. by rewrite H.
  - apply arr_cons in H as [Hx H]. apply Forall_cons in Hf as [Hn Hf].
    apply Z.eqb_neq in Hn. rewrite Hx. simpl. rewrite Hn, (IH _ f) by (done || lia). simpl. f_equal. lia.
Qed.

(** It stops at a terminator inside the string. *)
Lemma strlen_embedded c p l k f : arr c p (l ++ 0 :: k) → Forall (λ x, x ≠ 0) l → (length l < f)%nat →
  strlen f c p = Some (Z.of_nat (length l)).
Proof.
  intros H. apply strlen_ok. change (0 :: k) with ([0] ++ k) in H. rewrite app_assoc in H.
  by apply arr_app in H as [H _].
Qed.
