(* ===== verification/SqlString.v ===== *)
(** [sql_string.h]: [Binary_string], the growing byte string of the server,
    with its buffer that may be owned (on the heap), borrowed and writable, or
    borrowed and constant ([Alloced_length] is 0), and the parts of [String],
    [StringBuffer] and [BinaryStringBuffer] that the header defines.

    The object is the record [bstr]; a member function is a computation on the
    memory and the object.  [realloc_raw] and [real_alloc] are defined in
    [sql_string.cc] and are the operations of the class [StringAlloc]; what the
    theorems need of them is [StringAllocLaws]. *)
From S2P Require Import Prelude CMonad CMemory ByteOrder.

Record bstr := Bstr {
  Ptr : Z; str_length : Z; Alloced_length : Z; extra_alloc : Z;
  alloced : bool; thread_specific : bool }.

Record st := St { mm : mem; this : bstr }.

(** Access to the members, and to the bytes [Ptr[i]]. *)
Definition get {A} (f : bstr → A) : M st A := gets (λ s, f (this s)).
Definition put (f : bstr → bstr) : M st unit := modify (λ s, St (mm s) (f (this s))).

Definition with_cells (f : gmap Z Z → option (gmap Z Z)) : M st unit :=
  λ s, c ← f (cells (mm s)); Some (tt, St (Mem c (heap (mm s))) (this s)).

Definition read_byte (i : Z) : M st Z := gets_opt (λ s, cells (mm s) !! (Ptr (this s) + i)).
Definition set_byte (i v : Z) : M st unit :=
  p <- get Ptr ;; with_cells (λ c, store c (p + i) [v]).

(** A store macro of [ByteOrder] that writes [n] bytes at address [p]. *)
Definition store_with (n : nat) (f : list Z → nat → option (list Z)) (p : Z) : M st unit :=
  with_cells (λ c, T ← load c p n; T' ← f T 0%nat; store c p T').

Definition set_Ptr (p : Z) (s : bstr) : bstr :=
  Bstr p (str_length s) (Alloced_length s) (extra_alloc s) (alloced s) (thread_specific s).
Definition set_str_length (n : Z) (s : bstr) : bstr :=
  Bstr (Ptr s) n (Alloced_length s) (extra_alloc s) (alloced s) (thread_specific s).
Definition set_Alloced_length (n : Z) (s : bstr) : bstr :=
  Bstr (Ptr s) (str_length s) n (extra_alloc s) (alloced s) (thread_specific s).
Definition set_extra_alloc (n : Z) (s : bstr) : bstr :=
  Bstr (Ptr s) (str_length s) (Alloced_length s) n (alloced s) (thread_specific s).
Definition set_is_alloced (b : bool) (s : bstr) : bstr :=
  Bstr (Ptr s) (str_length s) (Alloced_length s) (extra_alloc s) b (thread_specific s).
Definition set_thread (b : bool) (s : bstr) : bstr :=
  Bstr (Ptr s) (str_length s) (Alloced_length s) (extra_alloc s) (alloced s) b.

(** The members of [sql_string.cc] that the inline code calls. *)
Class StringAlloc := { realloc_raw : Z → M st bool; real_alloc : Z → M st bool }.

Section Operations.
Context `{StringAlloc} (dbug : bool).

Definition dbug_assert (b : bool) : M st unit := assert_that (negb dbug || b).

(** [ASSERT_LENGTH]: the sum is of type [uint32]. *)
Definition ASSERT_LENGTH (A : Z) : M st unit :=
  n <- get str_length ;; a <- get Alloced_length ;;
  dbug_assert (to_uint32 (n + to_uint32 A) <=? a).

(** ** Construction and release *)

Definition init_private_data : M st unit := put (λ _, Bstr 0 0 0 0 false false).

Definition free_buffer : M st unit :=
  a <- get alloced ;;
  if a : bool then
    put (set_is_alloced false) ;;
    (λ s, m ← my_free (Ptr (this s)) (mm s); Some (tt, St m (this s)))
  else ret tt.

Definition Binary_string_alloc (length_arg : Z) : M st unit :=
  init_private_data ;; real_alloc length_arg ;; ret tt.

(** From [const char*] and from [char*]. *)
Definition Binary_string_const (str len : Z) : bstr := Bstr str (to_uint32 len) 0 0 false false.
Definition Binary_string_buf (str len : Z) : bstr :=
  Bstr str (to_uint32 len) (to_uint32 len) 0 false false.
Definition Binary_string_copy (s : bstr) : bstr :=
  Bstr (Ptr s) (str_length s) (Alloced_length s) 0 false false.

Definition free : M st unit :=
  free_buffer ;;
  put (set_Ptr 0) ;; put (set_str_length 0) ;; put (set_extra_alloc 0) ;; put (set_Alloced_length 0).

(** ** Queries and small updates *)

Definition set_length (len : Z) : M st unit := put (set_str_length (to_uint32 len)).
Definition is_empty (s : bstr) : bool := str_length s =? 0.

(** [my_isascii] *)
Definition my_isascii (c : Z) : bool := negb (truth (Z.land c (Z.lnot 127))).

(** The loop over [ptr() .. end()], [n] bytes from [p]. *)
Fixpoint has_8bit_from (c : gmap Z Z) (p : Z) (n : nat) : option bool :=
  match n with
  | O => Some false
  | S n => x ← c !! p; if negb (my_isascii x) then Some true else has_8bit_from c (p + 1) n
  end.
Definition has_8bit_bytes (m : mem) (s : bstr) : option bool :=
  has_8bit_from (cells m) (Ptr s) (Z.to_nat (str_length s)).

(** [!memcmp(p, q, n)] *)
Fixpoint mem_eq (c : gmap Z Z) (p q : Z) (n : nat) : option bool :=
  match n with
  | O => Some true
  | S n => x ← c !! p; y ← c !! q; if x =? y then mem_eq c (p + 1) (q + 1) n else Some false
  end.
Definition bin_eq (m : mem) (s other : bstr) : option bool :=
  if str_length s =? str_length other
  then mem_eq (cells m) (Ptr s) (Ptr other) (Z.to_nat (str_length s)) else Some false.

(** The assertion on [strlen(Ptr)] is evaluated in debug builds only. *)
Definition chop : M st unit :=
  n <- get str_length ;;
  if truth n then
    put (set_str_length (n - 1)) ;; set_byte (n - 1) 0 ;;
    (if dbug then
       k <- gets_opt (λ s, strlen (Z.to_nat n) (cells (mm s)) (Ptr (this s))) ;;
       assert_that (k =? n - 1)
     else ret tt)
  else ret tt.

Definition set_thread_specific : M st unit :=
  a <- get alloced ;; if negb a then put (set_thread true) else ret tt.
Definition extra_allocation (len : Z) : M st unit := put (set_extra_alloc (to_uint32 len)).
Definition mark_as_const : M st unit := put (set_Alloced_length 0).

Definition uses_buffer_owned_by (t s : bstr) : bool :=
  alloced s && (Ptr s <=? Ptr t) && (Ptr t <? Ptr s + Alloced_length s).

(** ** Writes that do not extend the buffer *)

Definition q_append_char (c : Z) : M st unit :=
  ASSERT_LENGTH 1 ;; n <- get str_length ;;
  put (set_str_length (to_uint32 (n + 1))) ;; set_byte n c.
Definition q_append2b (v : Z) : M st unit :=
  ASSERT_LENGTH 2 ;; p <- get Ptr ;; n <- get str_length ;;
  store_with 2 (λ T o, X86_64.int2store T o v) (p + n) ;; put (set_str_length (to_uint32 (n + 2))).
Definition q_append_uint32 (v : Z) : M st unit :=
  ASSERT_LENGTH 4 ;; p <- get Ptr ;; n <- get str_length ;;
  store_with 4 (λ T o, X86_64.int4store T o v) (p + n) ;; put (set_str_length (to_uint32 (n + 4))).
(** A double is the 64-bit image that [float8store] copies. *)
Definition q_append_double (d : Z) : M st unit :=
  ASSERT_LENGTH 8 ;; p <- get Ptr ;; n <- get str_length ;;
  with_cells (λ c, store c (p + n) (le_bytes 8 d)) ;; put (set_str_length (to_uint32 (n + 8))).
Definition q_append (data data_len : Z) : M st unit :=
  ASSERT_LENGTH data_len ;; p <- get Ptr ;; n <- get str_length ;;
  (if truth data_len then with_cells (λ c, mem_copy c (p + n) data data_len) else ret tt) ;;
  dbug_assert (n <=? 2 ^ 32 - 1 - data_len) ;;
  put (set_str_length (to_uint32 (n + to_uint32 data_len))).
Definition qs_append_char (c : Z) : M st unit :=
  ASSERT_LENGTH 1 ;; n <- get str_length ;;
  set_byte n c ;; put (set_str_length (to_uint32 (n + 1))).
Definition write_at_position (position value : Z) : M st unit :=
  n <- get str_length ;; dbug_assert (to_uint32 (position + 4) <=? n) ;;
  p <- get Ptr ;; store_with 4 (λ T o, X86_64.int4store T o value) (p + position).

(** ** Growing *)

Definition realloc (arg_length : Z) : M st bool :=
  r <- realloc_raw (to_ulonglong (arg_length + 1)) ;;
  if r : bool then ret true else set_byte arg_length 0 ;; ret false.

Definition next_extra (e : Z) : Z := if e <? 4096 then to_uint32 (e * 2 + 128) else e.

Definition realloc_with_extra (arg_length : Z) : M st bool :=
  e <- get extra_alloc ;; put (set_extra_alloc (next_extra e)) ;;
  r <- realloc_raw (to_ulonglong (arg_length + next_extra e)) ;;
  if r : bool then ret true else set_byte arg_length 0 ;; ret false.

Definition realloc_with_extra_if_needed (arg_length : Z) : M st bool :=
  a <- get Alloced_length ;;
  if arg_length <? a then set_byte arg_length 0 ;; ret false else realloc_with_extra arg_length.

Definition alloc (arg_length : Z) : M st bool :=
  a <- get Alloced_length ;;
  if (arg_length <=? a) && truth a then ret false else real_alloc arg_length.

Definition reserve (space_needed : Z) : M st bool :=
  n <- get str_length ;; dbug_assert (to_ulonglong (n + space_needed) <? 2 ^ 32 - 1) ;;
  realloc (to_ulonglong (n + space_needed)).

(** ** Appending *)

Definition append (s size : Z) : M st bool :=
  if size =? 0 then ret false else
  n <- get str_length ;;
  r <- realloc_with_extra_if_needed (to_ulonglong (n + size)) ;;
  if r : bool then ret true else q_append s size ;; ret false.

Definition append_string (s : bstr) : M st bool := append (Ptr s) (str_length s).

Definition append_char (chr : Z) : M st bool :=
  n <- get str_length ;; a <- get Alloced_length ;;
  if n <? a then
    put (set_str_length (to_uint32 (n + 1))) ;; set_byte n chr ;; ret false
  else
    r <- realloc_with_extra (to_uint32 (n + 1)) ;;
    if r : bool then ret true else
    n <- get str_length ;; put (set_str_length (to_uint32 (n + 1))) ;; set_byte n chr ;; ret false.

(** [_dig_vec_lower] is the array of the 16 digits. *)
Fixpoint append_hex_from (dig : list Z) (src : Z) (n : nat) : M st bool :=
  match n with
  | O => ret false
  | S n =>
      b <- gets_opt (λ s, cells (mm s) !! src) ;;
      d1 <- gets_opt (λ _, dig !! Z.to_nat (Z.shiftr (uchar b) 4)) ;;
      r <- append_char d1 ;;
      if r : bool then ret true else
      b <- gets_opt (λ s, cells (mm s) !! src) ;;
      d2 <- gets_opt (λ _, dig !! Z.to_nat (Z.land (uchar b) 15)) ;;
      r <- append_char d2 ;;
      if r : bool then ret true else append_hex_from dig (src + 1) n
  end.
Definition append_hex (dig : list Z) (src srclen : Z) : M st bool :=
  append_hex_from dig src (Z.to_nat srclen).

(** The sum of the two [uint32] is again one. *)
Definition append_with_step (s arg_length step_alloc : Z) : M st bool :=
  n <- get str_length ;; a <- get Alloced_length ;;
  let new_length := to_uint32 (arg_length + n) in
  if a <? new_length then
    r <- realloc (to_uint32 (new_length + step_alloc)) ;;
    if r : bool then ret true else q_append s arg_length ;; ret false
  else q_append s arg_length ;; ret false.

(** Null when out of memory, otherwise the address of the new area. *)
Definition prep_append (arg_length step_alloc : Z) : M st Z :=
  n <- get str_length ;; a <- get Alloced_length ;;
  let new_length := to_uint32 (arg_length + n) in
  let area :=
    old_length <- get str_length ;; put (set_str_length (to_uint32 (old_length + arg_length))) ;;
    p <- get Ptr ;; ret (p + old_length) in
  if a <? new_length then
    r <- realloc (to_uint32 (new_length + step_alloc)) ;; if r : bool then ret 0 else area
  else area.

(** ** C strings; [empty] is the address of the literal [""] *)

Definition c_ptr (empty : Z) : M st Z :=
  p <- get Ptr ;;
  if p =? 0 then ret empty else
  a <- get alloced ;; n <- get str_length ;;
  terminated <- (if negb a then x <- read_byte n ;; ret (negb (truth x)) else ret false) ;;
  if terminated : bool then ret p else
  al <- get Alloced_length ;;
  if n <? al then set_byte n 0 ;; get Ptr else realloc n ;; get Ptr.

Definition c_ptr_safe : M st Z :=
  p <- get Ptr ;; n <- get str_length ;; al <- get Alloced_length ;;
  (if truth p && (n <? al) then set_byte n 0 else realloc n ;; ret tt) ;; get Ptr.

(** ** Setting the buffer *)

Definition set_alloced (str length alloced_length : Z) : M st unit :=
  free_buffer ;; put (set_Ptr str) ;; put (set_str_length (to_uint32 length)) ;;
  dbug_assert (alloced_length <? 2 ^ 32 - 1) ;; put (set_Alloced_length (to_uint32 alloced_length)).

Definition set_buf (str arg_length : Z) : M st unit := set_alloced str arg_length arg_length.

Definition set_const (str length : Z) : M st unit :=
  free_buffer ;; put (set_Ptr str) ;; put (set_str_length (to_uint32 length)) ;; put (set_Alloced_length 0).

(** From a part of another string (which is not this one). *)
Definition set_sub (str : bstr) (offset length : Z) : M st unit :=
  free_buffer ;; put (set_Ptr (Ptr str + offset)) ;; put (set_str_length (to_uint32 length)) ;;
  put (set_Alloced_length 0) ;;
  (if truth (Alloced_length str)
   then put (set_Alloced_length (to_uint32 (Alloced_length str - offset))) else ret tt).

Definition reset (ptr_arg length_arg alloced_length_arg : Z) : M st unit :=
  set_alloced ptr_arg length_arg alloced_length_arg ;; put (set_is_alloced (truth ptr_arg)).

Definition release : M st Z := old <- get Ptr ;; init_private_data ;; ret old.

(** [str_length] is left for the caller to set. *)
Definition set_buffer_if_not_allocated (str arg_length : Z) : M st unit :=
  a <- get alloced ;;
  if negb a then
    put (set_Ptr str) ;; put (set_Alloced_length (to_uint32 arg_length)) ;;
    put (set_str_length (to_uint32 arg_length))
  else ret tt.

(** [operator=]; [same] says that the argument is this object. *)
Definition assign (same : bool) (s : bstr) : M st unit :=
  if same then ret tt else
  t <- get (λ t, t) ;; dbug_assert (negb (uses_buffer_owned_by s t)) ;;
  set_alloced (Ptr s) (str_length s) (Alloced_length s).

(** Both objects after the exchange; [extra_alloc] and [thread_specific] stay. *)
Definition swap (t s : bstr) : bstr * bstr :=
  (Bstr (Ptr s) (str_length s) (Alloced_length s) (extra_alloc t) (alloced s) (thread_specific t),
   Bstr (Ptr t) (str_length t) (Alloced_length t) (extra_alloc s) (alloced t) (thread_specific s)).

(** Returns the other object, which no longer owns the buffer. *)
Definition move (s : bstr) : M st bstr :=
  set_alloced (Ptr s) (str_length s) (Alloced_length s) ;;
  put (set_extra_alloc (extra_alloc s)) ;; put (set_is_alloced (alloced s)) ;;
  put (set_thread (thread_specific s)) ;;
  ret (set_is_alloced false s).
End Operations.

(** ** Specification *)

(** The heap block the string owns, and all the bytes it may write. *)
Definition own (s : st) (a : Z) : Prop :=
  alloced (this s) = true ∧
  ∃ n, heap (mm s) !! Ptr (this s) = Some n ∧ Ptr (this s) ≤ a < Ptr (this s) + n.
Definition touched (s : st) (a : Z) : Prop :=
  own s a ∨ Ptr (this s) ≤ a < Ptr (this s) + Alloced_length (this s).
Definition untouched (s : st) (p n : Z) : Prop := ∀ a, p ≤ a < p + n → ¬ touched s a.

(** The string has the contents [l]; a buffer that can be written is large
    enough for them, and an owned one is a block of the heap. *)
Record repr (s : st) (l : list Z) : Prop := Repr {
  r_length : str_length (this s) = Z.of_nat (length l);
  r_content : arr (cells (mm s)) (Ptr (this s)) l;
  r_room : room (cells (mm s)) (Ptr (this s)) (Alloced_length (this s));
  r_fits : Alloced_length (this s) = 0 ∨ str_length (this s) ≤ Alloced_length (this s);
  r_null : Ptr (this s) = 0 → alloced (this s) = false ∧ str_length (this s) = 0 ∧ Alloced_length (this s) = 0;
  r_owned : alloced (this s) = true →
    ∃ n, heap (mm s) !! Ptr (this s) = Some n ∧ Alloced_length (this s) ≤ n ∧
      room (cells (mm s)) (Ptr (this s)) n;
  r_len32 : in_u 32 (str_length (this s));
  r_alloced32 : in_u 32 (Alloced_length (this s));
  r_extra32 : in_u 32 (extra_alloc (this s)) }.

(** What an operation leaves alone: every byte and every heap block that is not
    the string's own; these do not become its own either. *)
Record frame (s s' : st) : Prop := Frame {
  f_cells : ∀ a x, cells (mm s) !! a = Some x → ¬ touched s a →
    cells (mm s') !! a = Some x ∧ ¬ touched s' a;
  f_heap : ∀ p n, heap (mm s) !! p = Some n → (alloced (this s) = true → p ≠ Ptr (this s)) →
    heap (mm s') !! p = Some n ∧ (alloced (this s') = true → p ≠ Ptr (this s')) }.

(** What the inline code relies on.  [realloc_raw(n)] makes the buffer at
    least [n] bytes and keeps the contents, or reports an error and changes
    nothing; [real_alloc(n)] empties the string. *)
Class StringAllocLaws `{StringAlloc} := {
  realloc_raw_ok : ∀ s l n, repr s l → in_u 64 n →
    ∃ b s', realloc_raw n s = Some (b, s') ∧ frame s s' ∧ repr s' l ∧
      (b = true → s' = s) ∧ (b = false → n ≤ Alloced_length (this s'));
  real_alloc_ok : ∀ s l n, repr s l → in_u 64 n →
    ∃ b s', real_alloc n s = Some (b, s') ∧ frame s s' ∧
      (b = false → repr s' [] ∧ n ≤ Alloced_length (this s') ∧ Ptr (this s') ≠ 0) }.

(** ** Frames *)

#[export] Instance frame_refl : Reflexive frame.
Proof. intros s. constructor; auto. Qed.

#[export] Instance frame_trans : Transitive frame.
Proof.
  intros s s' s'' [H1 H2] [H3 H4]. constructor.
  - intros a x Hx Ha. destruct (H1 a x Hx Ha). eauto.
  - intros p n Hp Hn. destruct (H2 p n Hp Hn). eauto.
Qed.

(** A step that keeps the buffer and writes to it only. *)
Lemma frame_same_buffer s s' :
  Ptr (this s') = Ptr (this s) → Alloced_length (this s') = Alloced_length (this s) →
  alloced (this s') = alloced (this s) → heap (mm s') = heap (mm s) →
  (∀ a x, cells (mm s) !! a = Some x → ¬ touched s a → cells (mm s') !! a = Some x) → frame s s'.
Proof.
  intros Hp Ha Hal Hh Hc. constructor.
  - intros a x Hx Hn. split; [by apply Hc|]. unfold touched, own in *. by rewrite Hp, Ha, Hal, Hh.
  - intros p n. by rewrite Hh, Hal, Hp.
Qed.

(** Bytes elsewhere in memory survive. *)
Lemma frame_arr s s' p l : frame s s' → arr (cells (mm s)) p l →
  untouched s p (Z.of_nat (length l)) →
  arr (cells (mm s')) p l ∧ untouched s' p (Z.of_nat (length l)).
Proof.
  intros [Hf _] Hl Hu. split.
  - apply (arr_ext (cells (mm s))); [done|]. intros a x Ha Hx. by apply Hf; [|apply Hu].
  - intros a Ha. destruct (arr_room _ _ _ Hl a Ha) as [x Hx]. by apply (Hf a x); [|apply Hu].
Qed.

(** ** Writes to the buffer *)

(** [s'] is [s] with the bytes [k] written at address [q]. *)
Record written (s s' : st) (q : Z) (k : list Z) : Prop := Written {
  w_this : this s' = this s;
  w_heap : heap (mm s') = heap (mm s);
  w_bytes : arr (cells (mm s')) q k;
  w_rest : ∀ a, ¬ (q ≤ a < q + Z.of_nat (length k)) → cells (mm s') !! a = cells (mm s) !! a;
  w_dom : ∀ a, is_Some (cells (mm s') !! a) ↔ is_Some (cells (mm s) !! a) }.

Definition in_buffer (s : st) (q n : Z) : Prop :=
  Ptr (this s) ≤ q ∧ q + n ≤ Ptr (this s) + Alloced_length (this s).

Lemma written_frame s s' q k : written s s' q k → in_buffer s q (Z.of_nat (length k)) → frame s s'.
Proof.
  intros [Ht Hh _ Hr _] Hq. apply frame_same_buffer; try by rewrite Ht. { done. }
  intros a x Hx Ha. rewrite Hr; [done|]. intros Hin. apply Ha. right. unfold in_buffer in Hq. lia.
Qed.

Lemma store_written s q k : room (cells (mm s)) q (Z.of_nat (length k)) →
  ∃ s', with_cells (λ c, store c q k) s = Some (tt, s') ∧ written s s' q k.
Proof.
  intros Hr. destruct (store_ok _ _ _ Hr) as (c & Hc & Ha & Ho & Hd).
  exists (St (Mem c (heap (mm s))) (this s)). unfold with_cells. rewrite Hc. simpl. split; [done|].
  by constructor.
Qed.

Lemma in_buffer_room s l q n : repr s l → in_buffer s q n → room (cells (mm s)) q n.
Proof. intros H [H1 H2]. by eapply room_sub; [apply H| |]. Qed.

Lemma set_byte_written s l i v : repr s l → 0 ≤ i < Alloced_length (this s) →
  ∃ s', set_byte i v s = Some (tt, s') ∧ written s s' (Ptr (this s) + i) [v] ∧ frame s s'.
Proof.
  intros H Hi. assert (in_buffer s (Ptr (this s) + i) 1) as Hb by (unfold in_buffer; lia).
  destruct (store_written s (Ptr (this s) + i) [v]) as (s' & Hs & Hw); [by eapply in_buffer_room|].
  exists s'. split; [done|]. split; [done|]. by eapply written_frame.
Qed.

(** The object after a write: the invariant except for the contents. *)
Lemma written_repr s s' l l' q k : repr s l → written s s' q k →
  length l' = length l → arr (cells (mm s')) (Ptr (this s)) l' → repr s' l'.
Proof.
  intros [H1 H2 H3 H4 H5 H6 H7 H8 H9] [Ht Hh Hb Hr Hd] Hl Ha. constructor; rewrite ?Ht, ?Hh, ?Hl; try done.
  - intros a Hin. by apply Hd, H3.
  - intros E. destruct (H6 E) as (n & Hn & Hle & Hrm). exists n. split_and!; [done..|].
    intros a Hin. by apply Hd, Hrm.
Qed.

(** A write of one byte updates the contents where it is inside them. *)
Lemma set_byte_ok s l i v : repr s l → 0 ≤ i < Alloced_length (this s) →
  ∃ s', set_byte i v s = Some (tt, s') ∧ frame s s' ∧ this s' = this s ∧
    cells (mm s') !! (Ptr (this s) + i) = Some v ∧ repr s' (<[Z.to_nat i := v]> l).
Proof.
  intros H Hi. destruct (set_byte_written s l i v H Hi) as (s' & Hs & Hw & Hf).
  exists s'. split_and!; [done..|by destruct Hw| |].
  { pose proof (w_bytes _ _ _ _ Hw 0%nat v eq_refl) as E. by rewrite Z.add_0_r in E. }
  eapply written_repr; [done..|by rewrite length_insert|].
  intros j x Hx. destruct (decide (j = Z.to_nat i)) as [->|Hne].
  - rewrite list_lookup_insert_eq in Hx
      by (apply lookup_lt_Some in Hx; by rewrite length_insert in Hx).
    injection Hx as <-. pose proof (w_bytes _ _ _ _ Hw 0%nat v eq_refl) as E.
    rewrite <- E. f_equal. lia.
  - rewrite list_lookup_insert_ne in Hx by done. rewrite (w_rest _ _ _ _ Hw) by (simpl; lia).
    by apply (r_content _ _ H).
Qed.

(** Bytes written behind the contents become contents when the length grows. *)
Lemma extend_repr s s' l k : repr s l → written s s' (Ptr (this s) + Z.of_nat (length l)) k →
  Z.of_nat (length l) + Z.of_nat (length k) ≤ Alloced_length (this s) →
  repr (St (mm s') (set_str_length (to_uint32 (Z.of_nat (length l) + Z.of_nat (length k))) (this s)))
       (l ++ k).
Proof.
  intros H Hw Hle.
  assert (to_uint32 (Z.of_nat (length l) + Z.of_nat (length k)) = Z.of_nat (length (l ++ k))) as ->.
  { rewrite length_app, Nat2Z.inj_add. apply wrap_id. destruct (r_alloced32 _ _ H). unfold in_u. lia. }
  assert (arr (cells (mm s')) (Ptr (this s)) l) as Hl.
  { eapply arr_ext; [apply H|]. intros a x Ha Hx. rewrite (w_rest _ _ _ _ Hw); [done|]. lia. }
  destruct (written_repr s s' l l _ _ H Hw eq_refl Hl) as [H1 H2 H3 H4 H5 H6 H7 H8 H9].
  pose proof (w_this _ _ _ _ Hw) as Et. rewrite Et in *.
  constructor; simpl; rewrite ?length_app, ?Nat2Z.inj_add; try done.
  - apply arr_app. split; [done|]. apply Hw.
  - right. done.
  - intros E. destruct (H5 E) as (? & E1 & E2). split_and!; [done|lia|done].
  - unfold in_u in *. lia.
Qed.

(** One step of a computation whose result is known. *)
Ltac step := erewrite bind_ok by (eassumption || reflexivity); cbv beta.

(** Changing the length or the increment only. *)
Lemma frame_set_length s n : frame s (St (mm s) (set_str_length n (this s))).
Proof. by apply frame_same_buffer. Qed.
Lemma frame_set_extra s n : frame s (St (mm s) (set_extra_alloc n (this s))).
Proof. by apply frame_same_buffer. Qed.

Lemma repr_set_extra s l n : repr s l → in_u 32 n → repr (St (mm s) (set_extra_alloc n (this s))) l.
Proof. intros [H1 H2 H3 H4 H5 H6 H7 H8 H9] Hn. by constructor. Qed.

Lemma frame_grown s s' n : this s' = this s → frame s s' →
  frame s (St (mm s') (set_str_length n (this s))).
Proof. intros Ht Hf. transitivity s'; [done|]. rewrite <- Ht. apply frame_set_length. Qed.

Lemma next_extra_bounds e : in_u 32 e → 128 ≤ next_extra e ∧ in_u 32 (next_extra e).
Proof.
  unfold next_extra, in_u. intros He. destruct (Z.ltb_spec e 4096); [|lia].
  unfold to_uint32. rewrite wrap_id by (unfold in_u; lia). lia.
Qed.

Section Correctness.
Context `{StringAllocLaws} (dbug : bool).

Lemma assert_length_ok s l n : repr s l → 0 ≤ n → Z.of_nat (length l) + n ≤ Alloced_length (this s) →
  ASSERT_LENGTH dbug n s = Some (tt, s).
Proof.
  intros Hs Hn Hle. unfold ASSERT_LENGTH. do 2 step. rewrite (r_length _ _ Hs).
  pose proof (r_alloced32 _ _ Hs) as [_ Ha].
  unfold to_uint32. rewrite !wrap_id by (rewrite ?wrap_id; unfold in_u; lia).
  unfold dbug_assert, assert_that. rewrite (proj2 (Z.leb_le _ _) Hle). by rewrite orb_true_r.
Qed.

(** *** Writes that do not extend the buffer *)

(** The result of appending [k] inside the buffer. *)
Definition appended (s s' : st) (l k : list Z) : Prop :=
  frame s s' ∧ repr s' (l ++ k) ∧ Ptr (this s') = Ptr (this s) ∧
  Alloced_length (this s') = Alloced_length (this s).

Lemma written_appended s s' l k n : repr s l →
  written s s' (Ptr (this s) + str_length (this s)) k → n = Z.of_nat (length k) →
  Z.of_nat (length l) + n ≤ Alloced_length (this s) →
  appended s (St (mm s') (set_str_length (to_uint32 (str_length (this s) + n)) (this s'))) l k.
Proof.
  intros Hs Hw -> Hle. rewrite (r_length _ _ Hs) in *. rewrite (w_this _ _ _ _ Hw). split_and!; [|by apply extend_repr|done..].
  apply frame_grown; [by destruct Hw|]. eapply written_frame; [done|]. unfold in_buffer. lia.
Qed.

Lemma q_append_char_ok s l c : repr s l → Z.of_nat (length l) + 1 ≤ Alloced_length (this s) →
  ∃ s', q_append_char dbug c s = Some (tt, s') ∧ appended s s' l [c].
Proof.
  intros Hs Hle. unfold q_append_char. erewrite bind_ok by (eapply assert_length_ok; [done|lia|done]).
  do 2 step. unfold set_byte. step. simpl Ptr.
  destruct (store_written s (Ptr (this s) + str_length (this s)) [c]) as (s' & Es & Hw).
  { eapply in_buffer_room; [done|]. rewrite (r_length _ _ Hs). unfold in_buffer. simpl. lia. }
  unfold with_cells in *. simpl in Es |- *.
  destruct (cells (mm s) !! _); simpl in *; [|done]. injection Es as <-.
  eexists. split; [done|]. by apply (written_appended _ _ _ _ 1 Hs Hw).
Qed.

Lemma qs_append_char_ok s l c : repr s l → Z.of_nat (length l) + 1 ≤ Alloced_length (this s) →
  ∃ s', qs_append_char dbug c s = Some (tt, s') ∧ appended s s' l [c].
Proof.
  intros Hs Hle. unfold qs_append_char. erewrite bind_ok by (eapply assert_length_ok; [done|lia|done]).
  step. destruct (set_byte_written s l (str_length (this s)) c Hs) as (s' & Es & Hw & _).
  { rewrite (r_length _ _ Hs). lia. }
  step. eexists. split; [done|]. by apply (written_appended _ _ _ _ 1 Hs Hw).
Qed.

(** A store macro writes the little-endian bytes of its argument. *)
Lemma store_with_written s q n f v : room (cells (mm s)) q (Z.of_nat n) →
  (∀ T, f T 0%nat = store_le n T 0 v) →
  ∃ s', store_with n f q s = Some (tt, s') ∧ written s s' q (le_bytes n v).
Proof.
  intros Hr Hf. destruct (room_arr _ _ _ Hr) as (T & HT & Ha).
  destruct (store_written s q (le_bytes n v)) as (s' & Es & Hw); [by rewrite length_le_bytes|].
  exists s'. split; [|done]. unfold store_with, with_cells in *.
  rewrite (load_ok _ _ T n) by done. simpl. rewrite Hf. unfold store_le.
  rewrite decide_True by lia. simpl.
  rewrite drop_ge by (simpl; lia). by rewrite app_nil_r.
Qed.

Lemma int4_le T v : X86_64.int4store T 0 v = store_le 4 T 0 v.
Proof. by apply (store_le_wrap 4). Qed.
Lemma int2_le T v : X86_64.int2store T 0 v = store_le 2 T 0 v.
Proof. by apply (store_le_wrap 2). Qed.

(** The three fixed-size appends have the same shape. *)
Lemma q_append_int_ok s l n f v : repr s l →
  Z.of_nat (length l) + Z.of_nat n ≤ Alloced_length (this s) →
  (∀ T, f T 0%nat = store_le n T 0 v) →
  ∃ s', (ASSERT_LENGTH dbug (Z.of_nat n) ;; p <- get Ptr ;; m <- get str_length ;;
         store_with n f (p + m) ;; put (set_str_length (to_uint32 (m + Z.of_nat n)))) s = Some (tt, s') ∧
    appended s s' l (le_bytes n v).
Proof.
  intros Hs Hle Hf. erewrite bind_ok by (eapply assert_length_ok; [done|lia|done]). do 2 step.
  destruct (store_with_written s (Ptr (this s) + str_length (this s)) n f v) as (s' & Es & Hw); [|done|].
  { eapply in_buffer_room; [done|]. rewrite (r_length _ _ Hs). unfold in_buffer. lia. }
  step. eexists. split; [done|].
  apply (written_appended _ _ _ _ _ Hs Hw); [by rewrite length_le_bytes|done].
Qed.

Lemma q_append2b_ok s l v : repr s l → Z.of_nat (length l) + 2 ≤ Alloced_length (this s) →
  ∃ s', q_append2b dbug v s = Some (tt, s') ∧ appended s s' l (le_bytes 2 v).
Proof. intros Hs Hle. apply (q_append_int_ok s l 2); [done|done|]. intros T. apply int2_le. Qed.

Lemma q_append_uint32_ok s l v : repr s l → Z.of_nat (length l) + 4 ≤ Alloced_length (this s) →
  ∃ s', q_append_uint32 dbug v s = Some (tt, s') ∧ appended s s' l (le_bytes 4 v).
Proof. intros Hs Hle. apply (q_append_int_ok s l 4); [done|done|]. intros T. apply int4_le. Qed.

Lemma q_append_double_ok s l d : repr s l → Z.of_nat (length l) + 8 ≤ Alloced_length (this s) →
  ∃ s', q_append_double dbug d s = Some (tt, s') ∧ appended s s' l (le_bytes 8 d).
Proof.
  intros Hs Hle. unfold q_append_double.
  erewrite bind_ok by (eapply assert_length_ok; [done|lia|done]). do 2 step.
  destruct (store_written s (Ptr (this s) + str_length (this s)) (le_bytes 8 d)) as (s' & Es & Hw).
  { eapply in_buffer_room; [done|]. rewrite (r_length _ _ Hs). unfold in_buffer. rewrite length_le_bytes. lia. }
  step. eexists. split; [done|].
  apply (written_appended _ _ _ _ _ Hs Hw); [by rewrite length_le_bytes|done].
Qed.

(** Two ranges of the same length, one outside the buffer. *)
Lemma untouched_disjoint s q p n : untouched s q n → in_buffer s p n → p + n ≤ q ∨ q + n ≤ p.
Proof.
  intros Hu [H1 H2]. destruct (decide (p + n ≤ q ∨ q + n ≤ p)) as [|Hn]; [done|]. exfalso.
  destruct (decide (p ≤ q)).
  - apply (Hu q); [lia|]. right. lia.
  - apply (Hu p); [lia|]. right. lia.
Qed.

Lemma q_append_ok s l q data : repr s l → arr (cells (mm s)) q data →
  untouched s q (Z.of_nat (length data)) →
  Z.of_nat (length l) + Z.of_nat (length data) ≤ Alloced_length (this s) →
  ∃ s', q_append dbug q (Z.of_nat (length data)) s = Some (tt, s') ∧ appended s s' l data.
Proof.
  intros Hs Hd Hu Hle. pose proof (r_alloced32 _ _ Hs) as [_ Ha]. unfold q_append.
  erewrite bind_ok by (eapply assert_length_ok; [done|lia|done]). do 2 step.
  assert (in_buffer s (Ptr (this s) + str_length (this s)) (Z.of_nat (length data))) as Hb
    by (rewrite (r_length _ _ Hs); unfold in_buffer; lia).
  destruct (mem_copy_ok (cells (mm s)) (Ptr (this s) + str_length (this s)) q data _ eq_refl Hd)
    as (c & Ec & H1 & H2 & H3); [by eapply in_buffer_room|by eapply untouched_disjoint|].
  assert (written s (St (Mem c (heap (mm s))) (this s)) (Ptr (this s) + str_length (this s)) data) as Hw
    by by constructor.
  assert ((if truth (Z.of_nat (length data))
           then with_cells (λ c, mem_copy c (Ptr (this s) + str_length (this s)) q (Z.of_nat (length data)))
           else ret tt) s = Some (tt, St (Mem c (heap (mm s))) (this s))) as Es.
  { destruct (truth _) eqn:E.
    - unfold with_cells. by rewrite Ec.
    - destruct data; [|done]. unfold mem_copy in Ec. simpl in Ec.
      case_bool_decide; [|done]. injection Ec as <-. by destruct s as [[] ?]. }
  step. assert (dbug_assert dbug (str_length (this s) <=? 2 ^ 32 - 1 - Z.of_nat (length data))
    (St (Mem c (heap (mm s))) (this s)) = Some (tt, St (Mem c (heap (mm s))) (this s))) as Ea.
  { unfold dbug_assert, assert_that. rewrite (r_length _ _ Hs).
    replace (_ <=? _) with true by (symmetry; apply Z.leb_le; lia). by rewrite orb_true_r. }
  step. eexists. split; [done|]. simpl.
  replace (to_uint32 (Z.of_nat (length data))) with (Z.of_nat (length data))
    by (symmetry; apply wrap_id; unfold in_u; lia).
  by apply (written_appended _ _ _ _ _ Hs Hw).
Qed.

Lemma write_at_position_ok s l i v : repr s l → 0 ≤ i → i + 4 ≤ Z.of_nat (length l) →
  Alloced_length (this s) ≠ 0 →
  ∃ s', write_at_position dbug i v s = Some (tt, s') ∧ frame s s' ∧ this s' = this s ∧
    repr s' (take (Z.to_nat i) l ++ le_bytes 4 v ++ drop (Z.to_nat (i + 4)) l).
Proof.
  intros Hs Hi Hle Hal. pose proof (r_len32 _ _ Hs) as Hn. rewrite (r_length _ _ Hs) in Hn.
  assert (Z.of_nat (length l) ≤ Alloced_length (this s)) as Hfit
    by (rewrite <- (r_length _ _ Hs); by destruct (r_fits _ _ Hs)).
  unfold write_at_position. step. rewrite (r_length _ _ Hs).
  assert (dbug_assert dbug (to_uint32 (i + 4) <=? Z.of_nat (length l)) s = Some (tt, s)) as Ea.
  { unfold dbug_assert, assert_that, to_uint32. rewrite wrap_id by (unfold in_u in *; lia).
    replace (_ <=? _) with true by (symmetry; apply Z.leb_le; lia). by rewrite orb_true_r. }
  do 2 step. assert (in_buffer s (Ptr (this s) + i) 4) as Hb by (unfold in_buffer; lia).
  destruct (store_with_written s (Ptr (this s) + i) 4 (λ T o, X86_64.int4store T o v) v)
    as (s' & Es & Hw); [by eapply (in_buffer_room s l)|intros; apply int4_le|].
  exists s'. split_and!; [done|by eapply written_frame|by destruct Hw|].
  assert (length (take (Z.to_nat i) l) = Z.to_nat i) as El by (rewrite length_take; lia).
  eapply written_repr; [done..| |].
  { rewrite !length_app, El, length_le_bytes, length_drop. lia. }
  rewrite arr_app, arr_app, length_le_bytes, El. split_and!.
  - eapply (arr_ext (cells (mm s))).
    { pose proof (r_content _ _ Hs) as Hc. rewrite <- (take_drop (Z.to_nat i) l), arr_app in Hc. apply Hc. }
    rewrite El. intros a x Ha Hx. rewrite (w_rest _ _ _ _ Hw); [done|]. lia.
  - rewrite Z2Nat.id by done. apply Hw.
  - eapply (arr_ext (cells (mm s))).
    + pose proof (arr_sub _ _ l (Z.to_nat (i + 4)) (length l) (r_content _ _ Hs)) as Ha.
      rewrite take_ge in Ha by (rewrite length_drop; lia). intros j x Hj. rewrite <- (Ha j x Hj). f_equal. lia.
    + intros a x Ha Hx. rewrite (w_rest _ _ _ _ Hw); [done|]. rewrite length_le_bytes. lia.
Qed.

(** *** Growing *)

(** The bytes behind [arg_length] do not matter; the one at it is cleared. *)
Lemma after_realloc s l n b s' m : repr s l → 0 ≤ n < m → in_u 64 m →
  realloc_raw m s = Some (b, s') →
  ∃ s'', (if b : bool then ret true else set_byte n 0 ;; ret false) s' = Some (b, s'') ∧ frame s s'' ∧
    (b = true → s'' = s) ∧
    (b = false → repr s'' (<[Z.to_nat n := 0]> l) ∧ m ≤ Alloced_length (this s'') ∧
       cells (mm s'') !! (Ptr (this s'') + n) = Some 0).
Proof.
  intros Hs Hn Hm E. destruct (realloc_raw_ok s l m Hs Hm) as (b' & s1 & E' & Hf & Hr & Ht & Hfalse).
  rewrite E in E'. injection E' as <- <-. destruct b.
  - exists s'. by split_and!; [..|intros].
  - destruct (set_byte_ok s' l n 0 Hr) as (s2 & E2 & Hf2 & Ht2 & Hc2 & Hr2); [specialize (Hfalse eq_refl); lia|].
    exists s2. step. split_and!; [done|by transitivity s'|done|]. intros _. rewrite Ht2. auto.
Qed.

Lemma realloc_ok s l n : repr s l → 0 ≤ n < 2 ^ 64 - 1 →
  ∃ b s', realloc n s = Some (b, s') ∧ frame s s' ∧ (b = true → s' = s) ∧
    (b = false → repr s' (<[Z.to_nat n := 0]> l) ∧ n < Alloced_length (this s') ∧
       cells (mm s') !! (Ptr (this s') + n) = Some 0).
Proof.
  intros Hs Hn. unfold realloc, to_ulonglong. rewrite wrap_id by (unfold in_u; lia).
  destruct (realloc_raw_ok s l (n + 1) Hs) as (b & s1 & E & _); [unfold in_u; lia|].
  destruct (after_realloc s l n b s1 (n + 1) Hs) as (s2 & E2 & Hf & Ht & Hb); [lia|unfold in_u; lia|done|].
  step. exists b, s2. split_and!; [done..|]. intros Hbf. destruct (Hb Hbf) as (? & ? & ?). split_and!; [done|lia|done].
Qed.

Lemma realloc_with_extra_ok s l n : repr s l → 0 ≤ n < 2 ^ 64 - 2 ^ 32 →
  ∃ b s', realloc_with_extra n s = Some (b, s') ∧ frame s s' ∧
    repr s' (if b then l else <[Z.to_nat n := 0]> l) ∧ (b = false → n < Alloced_length (this s')).
Proof.
  intros Hs Hn. pose proof (next_extra_bounds _ (r_extra32 _ _ Hs)) as [He1 He2].
  assert (2 ^ 64 = 2 ^ 32 * 2 ^ 32) by done. unfold realloc_with_extra. do 2 step.
  pose proof (repr_set_extra s l _ Hs He2) as Hs1.
  pose proof (frame_set_extra s (next_extra (extra_alloc (this s)))) as Hf1.
  set (e := next_extra _) in *. set (s1 := St _ _) in *. unfold to_ulonglong.
  rewrite wrap_id by (unfold in_u in *; lia).
  destruct (realloc_raw_ok s1 l (n + e) Hs1) as (b & s2 & E & _); [unfold in_u in *; lia|].
  destruct (after_realloc s1 l n b s2 (n + e) Hs1) as (s3 & E3 & Hf & Ht & Hb); [lia|unfold in_u in *; lia|done|].
  step. exists b, s3. split_and!; [done|by transitivity s1| |intros Hbf; destruct (Hb Hbf) as (? & ? & ?); lia].
  destruct b; [by rewrite (Ht eq_refl)|by apply Hb].
Qed.

Lemma realloc_with_extra_if_needed_ok s l n : repr s l → 0 ≤ n < 2 ^ 64 - 2 ^ 32 →
  ∃ b s', realloc_with_extra_if_needed n s = Some (b, s') ∧ frame s s' ∧
    repr s' (if b then l else <[Z.to_nat n := 0]> l) ∧ (b = false → n < Alloced_length (this s')).
Proof.
  intros Hs Hn. unfold realloc_with_extra_if_needed. step. destruct (Z.ltb_spec n (Alloced_length (this s))).
  - destruct (set_byte_ok s l n 0 Hs) as (s' & E & Hf & Ht & _ & Hr); [lia|].
    step. exists false, s'. split_and!; [done..|]. by rewrite Ht.
  - by apply realloc_with_extra_ok.
Qed.

Lemma alloc_ok s l n : repr s l → in_u 64 n →
  ∃ b s', alloc n s = Some (b, s') ∧ frame s s' ∧
    (b = false → (s' = s ∨ repr s' []) ∧ n ≤ Alloced_length (this s') ∧ Ptr (this s') ≠ 0).
Proof.
  intros Hs Hn. unfold alloc. step.
  destruct ((n <=? Alloced_length (this s)) && truth (Alloced_length (this s))) eqn:E.
  - exists false, s. split_and!; [done..|]. intros _. apply andb_true_iff in E as [E1 E2].
    apply Z.leb_le in E1. split_and!; [by left|done|]. intros Hp.
    apply (r_null _ _ Hs) in Hp as (_ & _ & Hp). by rewrite Hp in E2.
  - destruct (real_alloc_ok s l n Hs Hn) as (b & s' & E' & Hf & Hb).
    exists b, s'. split_and!; [done..|]. intros Hbf. destruct (Hb Hbf) as (? & ? & ?). auto.
Qed.

(** *** Appending *)

(** Writing just behind the contents leaves them alone. *)
Lemma insert_end (l : list Z) n x : Z.of_nat (length l) ≤ n → <[Z.to_nat n := x]> l = l.
Proof. intros Hn. apply list_insert_ge. lia. Qed.

(** The outcome of an append: the data is there, or memory ran out and the
    contents are as before. *)
Definition append_outcome (s : st) (l k : list Z) (r : option (bool * st)) : Prop :=
  ∃ b s', r = Some (b, s') ∧ frame s s' ∧ repr s' (if b then l else l ++ k).

Lemma str_append_ok s l q data : repr s l → arr (cells (mm s)) q data →
  untouched s q (Z.of_nat (length data)) → Z.of_nat (length data) < 2 ^ 63 →
  append_outcome s l data (append dbug q (Z.of_nat (length data)) s).
Proof.
  intros Hs Hd Hu Hmax. unfold append. destruct (Z.eqb_spec (Z.of_nat (length data)) 0) as [E0|E0].
  { destruct data; [|done]. exists false, s. rewrite app_nil_r. done. }
  pose proof (r_len32 _ _ Hs) as Hl. rewrite (r_length _ _ Hs) in Hl. unfold in_u in Hl.
  assert (2 ^ 64 = 2 * 2 ^ 63) by done. assert (2 ^ 63 = 2 ^ 31 * 2 ^ 32) by done.
  step. rewrite (r_length _ _ Hs). unfold to_ulonglong. rewrite wrap_id by (unfold in_u; lia).
  destruct (realloc_with_extra_if_needed_ok s l (Z.of_nat (length l) + Z.of_nat (length data)) Hs)
    as (b & s1 & E & Hf & Hr & Hb); [lia|].
  step. destruct b; [by exists true, s1|]. rewrite insert_end in Hr by lia.
  destruct (frame_arr _ _ _ _ Hf Hd Hu) as [Hd1 Hu1].
  destruct (q_append_ok s1 l q data Hr Hd1 Hu1) as (s2 & E2 & Hf2 & Hr2 & _); [specialize (Hb eq_refl); lia|].
  step. exists false, s2. split_and!; [done|by transitivity s1|done].
Qed.

Lemma append_char_ok s l c : repr s l → Z.of_nat (length l) < 2 ^ 32 - 1 →
  append_outcome s l [c] (append_char c s).
Proof.
  intros Hs Hl. assert (∀ s l, repr s l → Z.of_nat (length l) < Alloced_length (this s) →
    ∃ s', (put (set_str_length (to_uint32 (str_length (this s) + 1))) ;;
           set_byte (str_length (this s)) c ;; ret false) s = Some (false, s') ∧ appended s s' l [c]) as Hput.
  { clear s l Hs Hl. intros s l Hs Hlt. destruct (q_append_char_ok s l c Hs) as (s' & E & Ha); [lia|].
    exists s'. split; [|done]. unfold q_append_char in E.
    erewrite bind_ok in E by (eapply assert_length_ok; [done|lia|lia]).
    erewrite bind_ok in E by reflexivity. erewrite bind_ok in E by reflexivity. step. by step. }
  unfold append_char. do 2 step.
  destruct (Z.ltb_spec (str_length (this s)) (Alloced_length (this s))) as [Hlt|Hge].
  - rewrite (r_length _ _ Hs) in Hlt. destruct (Hput s l Hs Hlt) as (s' & E & Hf & Hr & _). rewrite E. by exists false, s'.
  - replace (to_uint32 (str_length (this s) + 1)) with (Z.of_nat (length l) + 1)
      by (rewrite (r_length _ _ Hs); symmetry; apply wrap_id; unfold in_u; lia).
    destruct (realloc_with_extra_ok s l (Z.of_nat (length l) + 1) Hs) as (b & s1 & E & Hf & Hr & Hb); [lia|].
    step. destruct b; [by exists true, s1|]. rewrite insert_end in Hr by lia. step.
    destruct (Hput s1 l Hr) as (s2 & E2 & Hf2 & Hr2 & _); [specialize (Hb eq_refl); lia|].
    rewrite E2. exists false, s2. split_and!; [done|by transitivity s1|done].
Qed.

(** The two digits of each byte. *)
Definition hex_of (dig data : list Z) : list Z :=
  data ≫= λ b, [dig !!! Z.to_nat (Z.shiftr b 4); dig !!! Z.to_nat (Z.land b 15)].

Lemma nibbles b : in_u 8 b → 0 ≤ Z.shiftr b 4 < 16 ∧ 0 ≤ Z.land b 15 < 16.
Proof.
  intros Hb. apply (forall_bytes (λ b, bool_decide (0 ≤ Z.shiftr b 4 < 16 ∧ 0 ≤ Z.land b 15 < 16))) in Hb;
    [by apply bool_decide_eq_true in Hb|by vm_compute].
Qed.

(** A failure in the middle leaves the digits written so far. *)
Lemma append_hex_ok dig s l q data : length dig = 16%nat → bytes data → repr s l →
  arr (cells (mm s)) q data → untouched s q (Z.of_nat (length data)) →
  Z.of_nat (length l) + 2 * Z.of_nat (length data) < 2 ^ 32 →
  ∃ b s' k, append_hex dig q (Z.of_nat (length data)) s = Some (b, s') ∧ frame s s' ∧
    repr s' (l ++ k) ∧ k `prefix_of` hex_of dig data ∧ (b = false → k = hex_of dig data).
Proof.
  intros Hdig. unfold append_hex. rewrite Nat2Z.id. revert s l q.
  induction data as [|x data IH]; intros s l q Hby Hs Hd Hu Hle.
  { exists false, s, []. rewrite app_nil_r. by split_and!. }
  apply Forall_cons in Hby as [Hx Hby]. destruct (nibbles x Hx) as [Hn1 Hn2].
  assert (∀ n, 0 ≤ n < 16 → dig !! Z.to_nat n = Some (dig !!! Z.to_nat n)) as Hlk.
  { intros n Hn. apply list_lookup_lookup_total_lt. lia. }
  pose proof (proj1 (proj1 (arr_cons _ _ _ _) Hd)) as Hx0. cbn [append_hex_from length].
  erewrite bind_ok by (by apply gets_opt_ok). rewrite uchar_byte by done.
  erewrite bind_ok by (apply gets_opt_ok; by apply Hlk).
  destruct (append_char_ok s l (dig !!! Z.to_nat (Z.shiftr x 4)) Hs) as (b1 & s1 & E1 & Hf1 & Hr1); [simpl in Hle; lia|].
  step. destruct b1.
  { exists true, s1, []. rewrite app_nil_r. split_and!; [done..|apply prefix_nil|done]. }
  destruct (frame_arr _ _ _ _ Hf1 Hd Hu) as [Hd1 Hu1].
  pose proof (proj1 (proj1 (arr_cons _ _ _ _) Hd1)) as Hx1.
  erewrite bind_ok by (by apply gets_opt_ok). rewrite uchar_byte by done.
  erewrite bind_ok by (apply gets_opt_ok; by apply Hlk).
  destruct (append_char_ok s1 _ (dig !!! Z.to_nat (Z.land x 15)) Hr1) as (b2 & s2 & E2 & Hf2 & Hr2).
  { rewrite length_app. simpl in *. lia. }
  step. assert (frame s s2) as Hf by by transitivity s1. destruct b2.
  { exists true, s2, [dig !!! Z.to_nat (Z.shiftr x 4)]. split_and!; [done..| |done]. apply prefix_cons, prefix_nil. }
  rewrite <- app_assoc in Hr2. destruct (frame_arr _ _ _ _ Hf Hd Hu) as [Hd2 Hu2].
  destruct (IH s2 _ (q + 1) Hby Hr2) as (b & s3 & k & E3 & Hf3 & Hr3 & Hk & Hb).
  { by apply arr_cons in Hd2 as [_ ?]. }
  { intros a Ha. apply Hu2. simpl. lia. }
  { rewrite length_app. simpl in *. lia. }
  eexists b, s3, (_ :: _ :: k). rewrite <- app_assoc in Hr3. split_and!; [done|by transitivity s2|exact Hr3| |].
  - simpl. by do 2 apply prefix_cons.
  - intros Hbf. simpl. by rewrite (Hb Hbf).
Qed.

(** *** Growing by a step *)

(** When the [uint32] sums do not wrap. *)
Lemma step_realloc_ok s l n stp : repr s l → 0 ≤ n → 0 ≤ stp →
  Z.of_nat (length l) + n + stp < 2 ^ 32 →
  to_uint32 (n + Z.of_nat (length l)) = Z.of_nat (length l) + n ∧
  ∃ b s', realloc (to_uint32 (to_uint32 (n + Z.of_nat (length l)) + stp)) s = Some (b, s') ∧ frame s s' ∧
    (b = true → s' = s) ∧ (b = false → repr s' l ∧ Z.of_nat (length l) + n ≤ Alloced_length (this s')).
Proof.
  intros Hs Hn Hst Hle. assert (to_uint32 (n + Z.of_nat (length l)) = Z.of_nat (length l) + n) as E.
  { rewrite Z.add_comm. apply wrap_id. unfold in_u. lia. }
  split; [done|]. rewrite E. unfold to_uint32. rewrite wrap_id by (unfold in_u; lia).
  destruct (realloc_ok s l (Z.of_nat (length l) + n + stp) Hs) as (b & s' & E' & Hf & Ht & Hb); [lia|].
  exists b, s'. split_and!; [done..|]. intros Hbf. destruct (Hb Hbf) as (Hr & ? & _).
  rewrite insert_end in Hr by lia. split; [done|lia].
Qed.

Lemma append_with_step_ok s l q data stp : repr s l → arr (cells (mm s)) q data →
  untouched s q (Z.of_nat (length data)) → 0 ≤ stp →
  Z.of_nat (length l) + Z.of_nat (length data) + stp < 2 ^ 32 →
  append_outcome s l data (append_with_step dbug q (Z.of_nat (length data)) stp s).
Proof.
  intros Hs Hd Hu Hst Hle. unfold append_with_step. do 2 step. rewrite (r_length _ _ Hs).
  destruct (step_realloc_ok s l (Z.of_nat (length data)) stp Hs) as (En & b & s1 & E & Hf & Ht & Hb); [lia..|].
  cbv zeta. destruct (Z.ltb_spec (Alloced_length (this s)) (to_uint32 (Z.of_nat (length data) + Z.of_nat (length l)))) as [Hlt|Hge].
  - step. destruct b; [rewrite (Ht eq_refl); by exists true, s|]. destruct (Hb eq_refl) as [Hr Ha].
    destruct (frame_arr _ _ _ _ Hf Hd Hu) as [Hd1 Hu1].
    destruct (q_append_ok s1 l q data Hr Hd1 Hu1 Ha) as (s2 & E2 & Hf2 & Hr2 & _).
    step. exists false, s2. split_and!; [done|by transitivity s1|done].
  - rewrite En in Hge. destruct (q_append_ok s l q data Hs Hd Hu Hge) as (s2 & E2 & Hf2 & Hr2 & _).
    step. by exists false, s2.
Qed.

(** The area is the part of the buffer behind the old contents; whatever bytes
    it holds are now contents. *)
Definition area_outcome (s : st) (l : list Z) (n : Z) (r : option (Z * st)) : Prop :=
  (∃ s', r = Some (0, s') ∧ s' = s) ∨
  (∃ s' k, r = Some (Ptr (this s') + Z.of_nat (length l), s') ∧ frame s s' ∧
     Z.of_nat (length k) = n ∧ repr s' (l ++ k)).

Lemma area_ok s l n : repr s l → 0 ≤ n → Z.of_nat (length l) + n ≤ Alloced_length (this s) →
  ∃ k, Z.of_nat (length k) = n ∧
    repr (St (mm s) (set_str_length (to_uint32 (str_length (this s) + n)) (this s))) (l ++ k).
Proof.
  intros Hs Hn Hle. destruct (room_arr (cells (mm s)) (Ptr (this s) + str_length (this s)) (Z.to_nat n))
    as (k & Hk & Ha).
  { rewrite Z2Nat.id by done. eapply in_buffer_room; [done|]. rewrite (r_length _ _ Hs). unfold in_buffer. lia. }
  exists k. split; [lia|]. assert (written s s (Ptr (this s) + str_length (this s)) k) as Hw by by constructor.
  destruct (written_appended s s l k n Hs Hw) as (_ & Hr & _); [lia|lia|done].
Qed.

Lemma prep_append_ok s l n stp : repr s l → 0 ≤ n → 0 ≤ stp →
  Z.of_nat (length l) + n + stp < 2 ^ 32 → area_outcome s l n (prep_append n stp s).
Proof.
  intros Hs Hn Hst Hle. unfold prep_append. do 2 step. rewrite (r_length _ _ Hs).
  destruct (step_realloc_ok s l n stp Hs) as (En & b & s1 & E & Hf & Ht & Hb); [lia..|].
  assert (∀ s1, repr s1 l → Z.of_nat (length l) + n ≤ Alloced_length (this s1) → frame s s1 →
    area_outcome s l n ((old_length <- get str_length;; put (set_str_length (to_uint32 (old_length + n)));;
      p <- get Ptr;; ret (p + old_length)) s1)) as Harea.
  { clear -Hn. intros s1 Hs1 Hle1 Hf1. destruct (area_ok s1 l n Hs1 Hn Hle1) as (k & Hk & Hr).
    right. do 3 step. eexists _, k. split_and!; [|by (etransitivity; [done|apply frame_set_length])|done..].
    simpl. by rewrite (r_length _ _ Hs1). }
  cbv zeta. destruct (Z.ltb_spec (Alloced_length (this s)) (to_uint32 (n + Z.of_nat (length l)))) as [Hlt|Hge].
  - step. destruct b; [left; rewrite (Ht eq_refl); by eexists|]. destruct (Hb eq_refl). by apply Harea.
  - rewrite En in Hge. by apply Harea.
Qed.

(** *** Reserving space, then writing without checks *)

Fixpoint q_append_chars (k : list Z) : M st unit :=
  match k with [] => ret tt | c :: k => q_append_char dbug c ;; q_append_chars k end.

Lemma q_append_chars_ok k s l : repr s l →
  Z.of_nat (length l) + Z.of_nat (length k) ≤ Alloced_length (this s) →
  ∃ s', q_append_chars k s = Some (tt, s') ∧ appended s s' l k.
Proof.
  revert s l. induction k as [|c k IH]; intros s l Hs Hle; simpl in *.
  { exists s. unfold appended. rewrite app_nil_r. done. }
  destruct (q_append_char_ok s l c Hs) as (s1 & E & Hf & Hr & Hp & Ha); [lia|].
  destruct (IH s1 (l ++ [c]) Hr) as (s2 & E2 & Hf2 & Hr2 & Hp2 & Ha2); [rewrite length_app; simpl; lia|].
  step. exists s2. rewrite <- app_assoc in Hr2. split; [done|]. split_and!; [by transitivity s1|done|congruence..].
Qed.

Lemma str_reserve_ok s l n : repr s l → 0 ≤ n → Z.of_nat (length l) + n < 2 ^ 32 - 1 →
  ∃ b s', reserve dbug n s = Some (b, s') ∧ frame s s' ∧ repr s' l ∧
    (b = false → Z.of_nat (length l) + n < Alloced_length (this s')).
Proof.
  intros Hs Hn Hle. unfold reserve. step. rewrite (r_length _ _ Hs). unfold to_ulonglong.
  rewrite wrap_id by (unfold in_u; lia).
  assert (dbug_assert dbug (Z.of_nat (length l) + n <? 2 ^ 32 - 1) s = Some (tt, s)) as Ea.
  { unfold dbug_assert, assert_that. rewrite (proj2 (Z.ltb_lt _ _) Hle). by rewrite orb_true_r. }
  step. destruct (realloc_ok s l (Z.of_nat (length l) + n) Hs) as (b & s' & E & Hf & Ht & Hb); [lia|].
  exists b, s'. split_and!; [done..| |by intros Hbf; apply Hb].
  destruct b; [by rewrite (Ht eq_refl)|]. destruct (Hb eq_refl) as [Hr _]. by rewrite insert_end in Hr by lia.
Qed.

(** *** C strings *)

(** [r] is the terminated contents, or the reallocation failed and [r] is the
    buffer as it was. *)
Definition c_ptr_outcome (s : st) (l : list Z) (r : option (Z * st)) : Prop :=
  ∃ p s', r = Some (p, s') ∧ frame s s' ∧ repr s' l ∧
    (cstring (cells (mm s')) p l ∨
     p = Ptr (this s) ∧ s' = s ∧ realloc (str_length (this s)) s = Some (true, s)).

Lemma cstring_intro s l : repr s l →
  cells (mm s) !! (Ptr (this s) + Z.of_nat (length l)) = Some 0 → cstring (cells (mm s)) (Ptr (this s)) l.
Proof.
  intros Hs E. unfold cstring. apply arr_app. split; [apply Hs|]. apply arr_cons. split; [done|apply arr_nil].
Qed.

Lemma terminate_ok s l : repr s l → Z.of_nat (length l) < Alloced_length (this s) →
  c_ptr_outcome s l ((set_byte (str_length (this s)) 0 ;; get Ptr) s).
Proof.
  intros Hs Hlt. rewrite (r_length _ _ Hs).
  destruct (set_byte_ok s l (Z.of_nat (length l)) 0 Hs) as (s' & E & Hf & Ht & Hc & Hr); [lia|].
  step. rewrite insert_end in Hr by lia. exists (Ptr (this s')), s'. split_and!; [done..|]. left.
  apply cstring_intro; [done|]. by rewrite Ht.
Qed.

Lemma realloc_terminates s l : repr s l →
  c_ptr_outcome s l ((realloc (str_length (this s)) ;; get Ptr) s).
Proof.
  intros Hs. pose proof (r_len32 _ _ Hs) as Hl. unfold in_u in Hl.
  destruct (realloc_ok s l (str_length (this s)) Hs) as (b & s' & E & Hf & Ht & Hb); [lia|].
  step. exists (Ptr (this s')), s'. destruct b.
  - rewrite (Ht eq_refl) in *. split_and!; [done..|]. right. auto.
  - destruct (Hb eq_refl) as (Hr & _ & Hc). rewrite (r_length _ _ Hs) in *. rewrite insert_end in Hr by lia.
    split_and!; [done..|]. left. by apply cstring_intro.
Qed.

Lemma c_ptr_safe_ok s l : repr s l → c_ptr_outcome s l (c_ptr_safe s).
Proof.
  intros Hs. unfold c_ptr_safe. do 3 step.
  destruct (truth (Ptr (this s)) && (str_length (this s) <? Alloced_length (this s))) eqn:E.
  - apply andb_true_iff in E as [_ E]. apply Z.ltb_lt in E. rewrite (r_length _ _ Hs) in E.
    by apply terminate_ok.
  - rewrite bind_assoc. by apply realloc_terminates.
Qed.

(** A buffer that is not owned must have an accessible byte behind the
    contents, as the comment in the code asks. *)
Lemma c_ptr_ok empty s l : repr s l → cells (mm s) !! empty = Some 0 →
  (alloced (this s) = false → Ptr (this s) ≠ 0 →
   is_Some (cells (mm s) !! (Ptr (this s) + Z.of_nat (length l)))) →
  c_ptr_outcome s l (c_ptr empty s).
Proof.
  intros Hs He Hacc. unfold c_ptr. step. destruct (Z.eqb_spec (Ptr (this s)) 0) as [E0|E0].
  { destruct (r_null _ _ Hs E0) as (_ & El & _). rewrite (r_length _ _ Hs) in El.
    destruct l; [|simpl in El; lia]. exists empty, s. split_and!; [done..|]. left.
    unfold cstring. apply arr_cons. split; [done|apply arr_nil]. }
  do 2 step. assert (c_ptr_outcome s l ((al <- get Alloced_length;;
    if str_length (this s) <? al then set_byte (str_length (this s)) 0 ;; get Ptr
    else realloc (str_length (this s)) ;; get Ptr) s)) as Hrest.
  { step. destruct (Z.ltb_spec (str_length (this s)) (Alloced_length (this s))).
    - apply terminate_ok; [done|]. by rewrite <- (r_length _ _ Hs).
    - by apply realloc_terminates. }
  destruct (alloced (this s)) eqn:Eal; simpl negb; cbv iota; [by step|].
  destruct (Hacc eq_refl E0) as [x Hx]. rewrite bind_assoc.
  erewrite bind_ok by (apply gets_opt_ok; rewrite (r_length _ _ Hs); done).
  destruct (Z.eqb_spec x 0) as [->|Hne]; unfold truth.
  - simpl. exists (Ptr (this s)), s. split_and!; [done..|]. left. by apply cstring_intro.
  - apply Z.eqb_neq in Hne. rewrite Hne. simpl. done.
Qed.

(** *** Queries and [chop] *)

Lemma my_isascii_lt x : in_u 8 x → my_isascii x = (x <? 128).
Proof.
  intros Hx. apply Bool.eqb_prop. revert x Hx.
  apply (forall_bytes (λ x, Bool.eqb (my_isascii x) (x <? 128))). by vm_compute.
Qed.

Lemma has_8bit_ok s l : repr s l → bytes l →
  has_8bit_bytes (mm s) (this s) = Some (existsb (λ x, 128 <=? x) l).
Proof.
  intros Hs. unfold has_8bit_bytes. rewrite (r_length _ _ Hs), Nat2Z.id.
  generalize (r_content _ _ Hs). generalize (Ptr (this s)). clear Hs.
  induction l as [|x l IH]; intros p Ha Hb; [done|]. apply arr_cons in Ha as [Hx Ha].
  apply Forall_cons in Hb as [Hbx Hb]. simpl. rewrite Hx. simpl. rewrite my_isascii_lt by done.
  rewrite <- Z.leb_antisym. destruct (128 <=? x); simpl; auto.
Qed.

Lemma mem_eq_ok c p q l k : arr c p l → arr c q k → length l = length k →
  mem_eq c p q (length l) = Some (bool_decide (l = k)).
Proof.
  revert p q k. induction l as [|x l IH]; intros p q [|y k] Hl Hk E; try done.
  apply arr_cons in Hl as [Hx Hl]. apply arr_cons in Hk as [Hy Hk]. simpl. rewrite Hx, Hy. simpl.
  destruct (Z.eqb_spec x y) as [->|Hne].
  - rewrite (IH _ _ k) by (done || (simpl in E; lia)). f_equal. apply bool_decide_ext. naive_solver.
  - rewrite bool_decide_false; [done|]. congruence.
Qed.

Lemma bin_eq_ok s t l k : repr s l → repr (St (mm s) t) k →
  bin_eq (mm s) (this s) t = Some (bool_decide (l = k)).
Proof.
  intros Hs Ht. unfold bin_eq. rewrite (r_length _ _ Hs), (r_length _ _ Ht : str_length t = _).
  destruct (Z.eqb_spec (Z.of_nat (length l)) (Z.of_nat (length k))) as [E|E].
  - rewrite Nat2Z.id. apply mem_eq_ok; [apply Hs|apply Ht|lia].
  - rewrite bool_decide_false; [done|]. intros ->. done.
Qed.

(** [chop] needs a writable buffer and, in debug builds, contents without a
    terminator inside. *)
Lemma str_chop_ok s l x : repr s (l ++ [x]) → Alloced_length (this s) ≠ 0 →
  (dbug = true → Forall (λ y, y ≠ 0) l) →
  ∃ s', chop dbug s = Some (tt, s') ∧ frame s s' ∧ repr s' l ∧ cstring (cells (mm s')) (Ptr (this s')) l.
Proof.
  intros Hs Ha Hz. assert (str_length (this s) = Z.of_nat (length l) + 1) as El.
  { rewrite (r_length _ _ Hs), length_app. simpl. lia. }
  unfold chop. step. rewrite El. unfold truth.
  replace (Z.of_nat (length l) + 1 =? 0) with false by (symmetry; apply Z.eqb_neq; lia). cbn [negb].
  replace (Z.of_nat (length l) + 1 - 1) with (Z.of_nat (length l)) by lia. step.
  set (s1 := St (mm s) _).
  assert (repr s1 l) as Hs1.
  { destruct Hs as [H1 H2 H3 H4 H5 H6 H7 H8 H9]. constructor; simpl; try done.
    - by apply arr_app in H2 as [H2 _].
    - right. destruct H4; lia.
    - intros E. destruct (H5 E) as (? & ? & ?). lia.
    - unfold in_u in *. lia. }
  assert (frame s s1) as Hf1 by apply frame_set_length.
  destruct (set_byte_ok s1 l (Z.of_nat (length l)) 0 Hs1) as (s2 & E2 & Hf2 & Ht2 & Hc2 & Hr2).
  { simpl. destruct (r_fits _ _ Hs); lia. }
  rewrite insert_end in Hr2 by lia. step. exists s2.
  assert (cstring (cells (mm s2)) (Ptr (this s2)) l) as Hcs by (apply cstring_intro; [done|]; by rewrite Ht2).
  split_and!; [|by transitivity s1|done..]. destruct dbug; [|done].
  erewrite bind_ok by (apply gets_opt_ok, strlen_ok; [done|by apply Hz|lia]).
  unfold assert_that. by rewrite Z.eqb_refl.
Qed.

(** C5: Appending bytes that lie outside the string's own buffer gives the
    concatenation, or reports that memory ran out and leaves the contents; all
    other memory is unchanged.  This holds for [append] with any length, for
    [append] of another string, [append_char] and [append_with_step] below
    4 GB; [append_hex] appends the digits of the bytes (on an error, the
    digits written so far). *)
Theorem binary_string_append s l q data : repr s l → arr (cells (mm s)) q data →
  untouched s q (Z.of_nat (length data)) → Z.of_nat (length data) < 2 ^ 63 →
  append_outcome s l data (append dbug q (Z.of_nat (length data)) s) ∧
  (∀ t, repr (St (mm s) t) data → Ptr t = q → append_outcome s l data (append_string dbug t s)) ∧
  (∀ c, Z.of_nat (length l) < 2 ^ 32 - 1 → append_outcome s l [c] (append_char c s)) ∧
  (∀ stp, 0 ≤ stp → Z.of_nat (length l) + Z.of_nat (length data) + stp < 2 ^ 32 →
     append_outcome s l data (append_with_step dbug q (Z.of_nat (length data)) stp s)) ∧
  (∀ dig, length dig = 16%nat → bytes data → Z.of_nat (length l) + 2 * Z.of_nat (length data) < 2 ^ 32 →
     ∃ b s' k, append_hex dig q (Z.of_nat (length data)) s = Some (b, s') ∧ frame s s' ∧
       repr s' (l ++ k) ∧ k `prefix_of` hex_of dig data ∧ (b = false → k = hex_of dig data)).
Proof.
  intros Hs Hd Hu Hm. split_and!.
  - by apply str_append_ok.
  - intros t Ht <-. unfold append_string. rewrite (r_length _ _ Ht : str_length t = _). by apply str_append_ok.
  - intros c Hl. by apply append_char_ok.
  - intros stp H1 H2. by apply append_with_step_ok.
  - intros dig H1 H2 H3. by apply append_hex_ok.
Qed.

(** After [reserve(n)] succeeds, appending [n] bytes with the unchecked
    [q_append] succeeds, in debug builds too, without moving the buffer;
    [prep_append] returns null and changes nothing, or the address of [n] new
    bytes of contents behind the old ones. *)
Theorem binary_string_reserve s l k stp : repr s l → 0 ≤ stp →
  Z.of_nat (length l) + Z.of_nat (length k) + stp < 2 ^ 32 - 1 →
  (∃ b s', reserve dbug (Z.of_nat (length k)) s = Some (b, s') ∧ frame s s' ∧ repr s' l ∧
     (b = false → ∃ s2, q_append_chars k s' = Some (tt, s2) ∧ appended s' s2 l k)) ∧
  area_outcome s l (Z.of_nat (length k)) (prep_append (Z.of_nat (length k)) stp s).
Proof.
  intros Hs Hst Hle. split; [|apply prep_append_ok; done || lia].
  destruct (str_reserve_ok s l (Z.of_nat (length k)) Hs) as (b & s' & E & Hf & Hr & Hb); [lia..|].
  exists b, s'. split_and!; [done..|]. intros Hbf. apply q_append_chars_ok; [done|]. specialize (Hb Hbf). lia.
Qed.

(** [c_ptr] and [c_ptr_safe] return the contents followed by a terminator and
    change neither the contents nor other memory; the only exception is a
    failed reallocation, whose error they ignore: then the result is the
    buffer as it was. *)
Theorem binary_string_c_ptr empty s l : repr s l → cells (mm s) !! empty = Some 0 →
  c_ptr_outcome s l (c_ptr_safe s) ∧
  ((alloced (this s) = false → Ptr (this s) ≠ 0 →
    is_Some (cells (mm s) !! (Ptr (this s) + Z.of_nat (length l)))) →
   c_ptr_outcome s l (c_ptr empty s)).
Proof. intros Hs He. split; [by apply c_ptr_safe_ok|]. intros Hacc. by apply c_ptr_ok. Qed.

End Correctness.
