(* ===== verification/SqlStringOwn.v ===== *)
(** [sql_string.h], second part: who owns the buffer of a [Binary_string] (set,
    reset, release, move, swap, assignment, free), an allocator that satisfies
    [StringAllocLaws], and the theorems on ownership and
    [StringBuffer]. *)
From S2P Require Import Prelude CMonad CMemory ByteOrder SqlString.

(** ** [Charset], [String] and [StringBuffer] *)

(** The members of [CHARSET_INFO] that the header uses. *)
Class CharsetInfo (CS : Type) := {
  my_charset_bin : CS;
  mbminlen : CS → Z;
  cs_numchars : CS → list Z → Z;
  cs_charpos : CS → list Z → Z → Z }.

Section Strings.
Context `{EqDecision CS} `{CharsetInfo CS}.

(** [String]: a [Charset] and a [Binary_string]. *)
Record sstr := Sstr { m_charset : CS; bin : bstr }.

Definition is_good_for_ft (s : sstr) : bool :=
  bool_decide (m_charset s ≠ my_charset_bin) && (mbminlen (m_charset s) =? 1).

Definition String_const (str len : Z) (cs : CS) : sstr := Sstr cs (Binary_string_const str len).
Definition String_buf (str len : Z) (cs : CS) : sstr := Sstr cs (Binary_string_buf str len).
Definition String_copy (s : sstr) : sstr := Sstr (m_charset s) (Binary_string_copy (bin s)).

(** [swap] of both parts. *)
Definition String_swap (t s : sstr) : sstr * sstr :=
  let '(t', s') := swap (bin t) (bin s) in (Sstr (m_charset s) t', Sstr (m_charset t) s').

Definition numchars (m : mem) (s : sstr) : option Z :=
  l ← load (cells m) (Ptr (bin s)) (Z.to_nat (str_length (bin s)));
  Some (to_uint32 (cs_numchars (m_charset s) l)).

Definition charpos (m : mem) (s : sstr) (i offset : Z) : option Z :=
  if i <=? 0 then Some (to_int32 i) else
  l ← load (cells m) (Ptr (bin s) + offset) (Z.to_nat (str_length (bin s) - offset));
  Some (to_int32 (cs_charpos (m_charset s) l i)).

Definition is_ascii (m : mem) (s : sstr) : option bool :=
  if str_length (bin s) =? 0 then Some true else
  if 1 <? mbminlen (m_charset s) then Some false else
  b ← has_8bit_bytes m (bin s); Some (negb b).

(** [StringBuffer<buff_sz>]; [buff] is the address of the inline array. *)
Definition StringBuffer (buff buff_sz : Z) (cs : CS) : sstr :=
  Sstr cs (set_str_length 0 (Binary_string_buf buff buff_sz)).
Definition StringBuffer_default (buff buff_sz : Z) : sstr := StringBuffer buff buff_sz my_charset_bin.

Definition StringBuffer_set_buffer (buff buff_sz : Z) (cs : CS) (s : sstr) : sstr :=
  let b := bin s in
  let b := if negb (alloced b) then set_Alloced_length (to_uint32 buff_sz) (set_Ptr buff b) else b in
  Sstr cs (set_str_length 0 b).
End Strings.
Arguments sstr : clear implicits.

Definition BinaryStringBuffer (buff buff_sz : Z) : bstr := set_str_length 0 (Binary_string_buf buff buff_sz).

(** ** Releasing the buffer *)

(** The memory after the block of [s] is freed; nothing else changes. *)
Definition freed (s : st) (m' : mem) : Prop :=
  (∀ a, own s a → cells m' !! a = None) ∧
  (∀ a, ¬ own s a → cells m' !! a = cells (mm s) !! a) ∧
  heap m' = if alloced (this s) then delete (Ptr (this s)) (heap (mm s)) else heap (mm s).

(** The bytes another string reads or may write, and that they are not in
    the block that [s] owns. *)
Definition extent (s : st) (a : Z) : Prop :=
  touched s a ∨ Ptr (this s) ≤ a < Ptr (this s) + str_length (this s).
Record apart (s : st) (t : bstr) : Prop := Apart {
  ap_bytes : ∀ a, own s a → ¬ extent (St (mm s) t) a;
  ap_blocks : alloced (this s) = true → alloced t = true → Ptr (this s) ≠ Ptr t }.

Lemma free_buffer_ok s l : repr s l →
  ∃ m', free_buffer s = Some (tt, St m' (set_is_alloced false (this s))) ∧ freed s m'.
Proof.
  intros Hs. unfold free_buffer. step. destruct (alloced (this s)) eqn:Ea.
  - destruct (r_owned _ _ Hs Ea) as (n & Hn & Hle & Hr). step.
    assert (Ptr (this s) ≠ 0) as Hp.
    { intros E. destruct (r_null _ _ Hs E) as (E' & _). congruence. }
    simpl. rewrite (my_free_ok _ n) by done. simpl. eexists. split; [done|].
    unfold freed, own. rewrite Ea. simpl. split_and!; [| |done].
    + intros a (_ & k & Hk & Ha). rewrite del_range_lookup. apply decide_True. simplify_eq. lia.
    + intros a Ha. rewrite del_range_lookup. apply decide_False. intros Hin. apply Ha.
      split; [done|]. exists n. split; [done|]. lia.
  - exists (mm s). destruct s as [m [p n a e al th]]. simpl in *. subst al. split; [done|].
    split_and!; [intros a0 [Ha _]; simpl in Ha; done|done|done].
Qed.

Lemma freed_not_owner s m' : freed s m' → alloced (this s) = false → m' = mm s.
Proof.
  intros (_ & Hc & Hh) Ea. rewrite Ea in Hh. destruct m' as [c h], s as [[c0 h0] t]. simpl in *. subst h.
  f_equal. apply map_eq. intros a. apply Hc. intros [E _]. simpl in E. congruence.
Qed.

(** Another string, apart from the freed block, is as before. *)
Lemma freed_repr s t k m' : freed s m' → apart s t → repr (St (mm s) t) k → repr (St m' t) k.
Proof.
  intros (_ & Hc & Hh) [Hb Hbl] [H1 H2 H3 H4 H5 H6 H7 H8 H9]. simpl in *.
  assert (∀ a, extent (St (mm s) t) a → cells m' !! a = cells (mm s) !! a) as Hsame.
  { intros a Ha. apply Hc. intros Ho. by apply (Hb a). }
  constructor; simpl; try done.
  - eapply arr_ext; [done|]. intros a x Ha Hx. rewrite Hsame; [done|]. right. simpl. lia.
  - intros a Ha. rewrite Hsame; [by apply H3|]. left. by right.
  - intros Ea. destruct (H6 Ea) as (n & Hn & Hle & Hr). exists n. split_and!; [|done|].
    + rewrite Hh. destruct (alloced (this s)) eqn:E; [|done]. rewrite lookup_delete_ne; [done|]. by apply Hbl.
    + intros a Ha. rewrite Hsame; [by apply Hr|]. left. left. split; [done|]. by exists n.
Qed.

(** A second object on the same buffer that does not own it. *)
Definition alias (t : bstr) (e : Z) (th : bool) : bstr :=
  Bstr (Ptr t) (str_length t) (Alloced_length t) e false th.

Lemma alias_repr m t k e th : repr (St m t) k → in_u 32 e → repr (St m (alias t e th)) k.
Proof.
  intros [H1 H2 H3 H4 H5 H6 H7 H8 H9] He. constructor; simpl in *; try done.
  intros E. by destruct (H5 E) as (_ & ? & ?).
Qed.

Section Ownership.
Context (dbug : bool).

Lemma set_alloced_ok s l p n a : repr s l → in_u 32 n → in_u 32 a → a < 2 ^ 32 - 1 →
  ∃ m', set_alloced dbug p n a s =
    Some (tt, St m' (Bstr p n a (extra_alloc (this s)) false (thread_specific (this s)))) ∧ freed s m'.
Proof.
  intros Hs Hn Ha Hmax. destruct (free_buffer_ok s l Hs) as (m' & E & Hf). exists m'. split; [|done].
  unfold set_alloced. step. do 2 step. unfold dbug_assert, assert_that.
  replace (a <? 2 ^ 32 - 1) with true by (symmetry; apply Z.ltb_lt; lia). rewrite orb_true_r. step.
  unfold put, modify, to_uint32. simpl. unfold set_Alloced_length, set_str_length, set_Ptr. simpl.
  by rewrite !wrap_id.
Qed.

(** [operator=] makes an alias. *)
Lemma str_assign_ok s l t k : repr s l → repr (St (mm s) t) k → apart s t →
  Alloced_length t < 2 ^ 32 - 1 → uses_buffer_owned_by t (this s) = false →
  ∃ s', assign dbug false t s = Some (tt, s') ∧ freed s (mm s') ∧
    repr s' k ∧ repr (St (mm s') t) k ∧ alloced (this s') = false ∧ Ptr (this s') = Ptr t.
Proof.
  intros Hs Ht Hap Hmax Hnot. unfold assign. step. rewrite Hnot.
  assert (dbug_assert dbug (negb false) s = Some (tt, s)) as Ea
    by (unfold dbug_assert, assert_that; by rewrite orb_true_r).
  step. destruct (set_alloced_ok s l (Ptr t) (str_length t) (Alloced_length t) Hs) as (m' & E & Hf);
    [apply Ht|apply Ht|done|].
  rewrite E. eexists. split; [done|]. simpl. pose proof (freed_repr _ _ _ _ Hf Hap Ht) as Hr.
  split_and!; [done| |done..]. apply (alias_repr m' t); [done|]. apply Hs.
Qed.

(** [move] hands over the ownership. *)
Lemma move_ok s l t k : repr s l → repr (St (mm s) t) k → apart s t → Alloced_length t < 2 ^ 32 - 1 →
  ∃ s' t', move dbug t s = Some (t', s') ∧ freed s (mm s') ∧ repr s' k ∧ this s' = t ∧
    repr (St (mm s') t') k ∧ alloced t' = false.
Proof.
  intros Hs Ht Hap Hmax. unfold move.
  destruct (set_alloced_ok s l (Ptr t) (str_length t) (Alloced_length t) Hs) as (m' & E & Hf);
    [apply Ht|apply Ht|done|].
  pose proof (freed_repr _ _ _ _ Hf Hap Ht) as Hr. step. do 3 step. eexists _, _. split; [done|].
  unfold put, modify. simpl. unfold set_thread, set_is_alloced, set_extra_alloc. simpl.
  split_and!; [done|by destruct t|by destruct t| |done].
  apply (alias_repr m' t _ _ (thread_specific t)); [done|apply Ht].
Qed.

Lemma set_sub_ok s l t k o n : repr s l → repr (St (mm s) t) k → apart s t →
  (o + n ≤ length k)%nat → Ptr t + Z.of_nat o ≠ 0 →
  ∃ s', set_sub t (Z.of_nat o) (Z.of_nat n) s = Some (tt, s') ∧ freed s (mm s') ∧
    repr s' (take n (drop o k)) ∧ alloced (this s') = false.
Proof.
  intros Hs Ht Hap Hle Hnn. destruct (free_buffer_ok s l Hs) as (m' & E & Hf).
  pose proof (freed_repr _ _ _ _ Hf Hap Ht) as Hr. destruct Hr as [H1 H2 H3 H4 H5 H6 H7 H8 H9]. simpl in *.
  unfold set_sub. step. do 3 step.
  assert (in_u 32 (Z.of_nat n)) as Hn by (unfold in_u in *; lia).
  assert (length (take n (drop o k)) = n) as El by (rewrite length_take, length_drop; lia).
  pose proof (arr_sub _ _ k o n H2) as Harr.
  unfold truth. destruct (Z.eqb_spec (Alloced_length t) 0) as [E0|E0]; cbn [negb]; (eexists; split; [done|]);
    unfold put, modify; simpl; unfold to_uint32; (split_and!; [done| |done]); constructor; simpl; unfold to_uint32;
    rewrite ?El, ?wrap_id by (unfold in_u in *; lia); try done; try (by intros ?; lia).
  - by left.
  - apply Hs.
  - eapply room_sub; [done| |]; lia.
  - right. lia.
  - unfold in_u in *. lia.
  - apply Hs.
Qed.

(** [release] and [reset] pass the block on. *)
Lemma release_reset_ok s l m t : repr s l → m = mm s → repr (St m t) [] → Ptr t = 0 → Ptr (this s) ≠ 0 →
  alloced (this s) = true → Alloced_length (this s) < 2 ^ 32 - 1 →
  ∃ p s1 s2, release s = Some (p, s1) ∧ mm s1 = m ∧ this s1 = Bstr 0 0 0 0 false false ∧
    reset dbug p (str_length (this s)) (Alloced_length (this s)) (St m t) = Some (tt, s2) ∧
    mm s2 = m ∧ repr s2 l ∧ alloced (this s2) = true.
Proof.
  intros Hs -> Ht Hp0 Hp Ha Hmax. eexists _, _.
  destruct (set_alloced_ok (St (mm s) t) [] (Ptr (this s)) (str_length (this s)) (Alloced_length (this s)) Ht)
    as (m' & E & Hf); [apply Hs|apply Hs|done|].
  destruct (r_null _ _ Ht Hp0) as (Hta & _ & _). simpl in Hta.
  assert (m' = mm s) as ->.
  { exact (freed_not_owner _ _ Hf Hta). }
  eexists. split_and!; [done|done|done| |..].
  - unfold reset. step. done.
  - done.
  - destruct Hs as [H1 H2 H3 H4 H5 H6 H7 H8 H9]. simpl. constructor; simpl; try done.
    + intros _. by apply H6.
    + apply Ht.
  - simpl. unfold truth. apply Z.eqb_neq in Hp. by rewrite Hp.
Qed.

Lemma free_ok s l : repr s l →
  ∃ s', free s = Some (tt, s') ∧ freed s (mm s') ∧ repr s' [] ∧ Ptr (this s') = 0.
Proof.
  intros Hs. destruct (free_buffer_ok s l Hs) as (m' & E & Hf). unfold free. step. do 3 step.
  eexists. split; [done|]. simpl. split_and!; [done| |done]. constructor; simpl; try done.
  - intros a Ha. lia.
  - by left.
Qed.
End Ownership.

(** [swap] exchanges contents and ownership. *)
Lemma swap_repr m t s l k : repr (St m t) l → repr (St m s) k →
  repr (St m (swap t s).1) k ∧ repr (St m (swap t s).2) l.
Proof.
  intros [H1 H2 H3 H4 H5 H6 H7 H8 H9] [G1 G2 G3 G4 G5 G6 G7 G8 G9]. simpl in *. by split; constructor.
Qed.

(** ** An allocator *)

Module HeapAlloc.

(** An address above everything in use. *)
Definition top (c : gmap Z Z) : Z := map_fold (λ k _ a, Z.max (k + 1) a) 1 c.
Definition fresh_address (m : mem) : Z := Z.max (top (cells m)) (top (heap m)).

Fixpoint put_list (c : gmap Z Z) (p : Z) (l : list Z) : gmap Z Z :=
  match l with [] => c | x :: l => put_list (<[p := x]> c) (p + 1) l end.

(** A new block of [size] bytes that starts with [l]; the old one is freed. *)
Definition fresh_buffer (s : st) (l : list Z) (size : Z) : option st :=
  let t := this s in
  let p := fresh_address (mm s) in
  let m := Mem (put_list (cells (mm s)) p (l ++ replicate (Z.to_nat size - length l) 0)) (<[p := size]> (heap (mm s))) in
  m ← (if alloced t then my_free (Ptr t) m else Some m);
  Some (St m (Bstr p (Z.of_nat (length l)) size (extra_alloc t) true (thread_specific t))).

Definition heap_realloc_raw (n : Z) : M st bool := λ s,
  if n <=? Alloced_length (this s) then Some (false, s) else
  if 2 ^ 32 <=? n then Some (true, s) else
  l ← load (cells (mm s)) (Ptr (this s)) (Z.to_nat (str_length (this s)));
  s ← fresh_buffer s l (Z.max n (str_length (this s))); Some (false, s).

Definition heap_real_alloc (n : Z) : M st bool := λ s,
  if 2 ^ 32 - 1 <=? n then Some (true, s) else
  s ← fresh_buffer s [] (n + 1); Some (false, s).

#[export] Instance heap_alloc : StringAlloc := {| realloc_raw := heap_realloc_raw; real_alloc := heap_real_alloc |}.

Lemma top_above c : 1 ≤ top c ∧ ∀ k x, c !! k = Some x → k < top c.
Proof.
  unfold top. apply (map_fold_weak_ind (λ r m, 1 ≤ r ∧ ∀ k x, m !! k = Some x → k < r)).
  - split; [lia|]. intros k x. by rewrite lookup_empty.
  - intros i y m r _ [H1 Hr]. split; [lia|]. intros k x. destruct (decide (k = i)) as [->|]; [lia|].
    rewrite lookup_insert_ne by done. intros Hx. specialize (Hr k x Hx). lia.
Qed.

Lemma fresh_above m : 0 < fresh_address m ∧
  (∀ a x, cells m !! a = Some x → a < fresh_address m) ∧ (∀ a x, heap m !! a = Some x → a < fresh_address m).
Proof.
  unfold fresh_address. destruct (top_above (cells m)) as [H1 Hc], (top_above (heap m)) as [H2 Hh].
  split_and!; [lia|intros a x Hx; specialize (Hc a x Hx); lia|intros a x Hx; specialize (Hh a x Hx); lia].
Qed.

Lemma put_list_other c p l a : a < p ∨ p + Z.of_nat (length l) ≤ a → put_list c p l !! a = c !! a.
Proof.
  revert c p. induction l as [|x l IH]; intros c p Ha; simpl in *; [done|].
  rewrite IH by lia. apply lookup_insert_ne. lia.
Qed.

Lemma put_list_arr c p l : arr (put_list c p l) p l.
Proof.
  revert c p. induction l as [|x l IH]; intros c p; simpl; [apply arr_nil|]. apply arr_cons. split; [|apply IH].
  rewrite put_list_other by lia. apply lookup_insert_eq.
Qed.

(** The memory of the new buffer, before and after the old one is freed. *)
Lemma fresh_buffer_ok s l0 l size : repr s l0 → Z.of_nat (length l) ≤ size → 0 < size < 2 ^ 32 →
  ∃ s', fresh_buffer s l size = Some s' ∧ frame s s' ∧ repr s' l ∧
    Alloced_length (this s') = size ∧ Ptr (this s') ≠ 0.
Proof.
  intros Hs Hl Hsz. destruct (fresh_above (mm s)) as (Hp & Hpc & Hph). unfold fresh_buffer.
  set (p := fresh_address (mm s)) in *. set (k := l ++ replicate (Z.to_nat size - length l) 0).
  assert (Z.of_nat (length k) = size) as Ek by (unfold k; rewrite length_app, length_replicate; lia).
  pose proof (put_list_arr (cells (mm s)) p k) as Harr. set (c := put_list (cells (mm s)) p k) in *.
  assert (∀ a x, cells (mm s) !! a = Some x → c !! a = Some x) as Hold.
  { intros a x Hx. unfold c. rewrite put_list_other; [done|]. left. by eapply Hpc. }
  assert (∃ c' h', (if alloced (this s) then my_free (Ptr (this s)) (Mem c (<[p:=size]> (heap (mm s))))
                    else Some (Mem c (<[p:=size]> (heap (mm s))))) = Some (Mem c' h') ∧
    (∀ a, ¬ own s a → c' !! a = c !! a) ∧ h' !! p = Some size ∧
    (∀ q n, heap (mm s) !! q = Some n → (alloced (this s) = true → q ≠ Ptr (this s)) → h' !! q = Some n) ∧
    (∀ a, own s a → a < p)) as (c' & h' & Em & Hc' & Hh' & Hhq & Hown).
  { destruct (alloced (this s)) eqn:Ea.
    - destruct (r_owned _ _ Hs Ea) as (n & Hn & _ & Hr). pose proof (Hph _ _ Hn).
      assert (Ptr (this s) ≠ 0) as Hp0 by (intros E; destruct (r_null _ _ Hs E); congruence).
      rewrite (my_free_ok _ n) by (done || (simpl; rewrite lookup_insert_ne by lia; done)).
      eexists _, _. split; [done|]. simpl. split_and!.
      + intros a Ha. rewrite del_range_lookup. apply decide_False. intros Hin. apply Ha.
        split; [done|]. exists n. split; [done|lia].
      + rewrite lookup_delete_ne by lia. apply lookup_insert_eq.
      + intros q n' Hq Hne. rewrite lookup_delete_ne by (specialize (Hne eq_refl); congruence).
        rewrite lookup_insert_ne; [done|]. specialize (Hph _ _ Hq). lia.
      + intros a (_ & n' & Hn' & Ha). simplify_eq. destruct (Hr a Ha) as [x Hx]. by eapply Hpc.
    - eexists _, _. split; [done|]. split_and!; [done|apply lookup_insert_eq| |].
      + intros q n' Hq _. rewrite lookup_insert_ne; [done|]. specialize (Hph _ _ Hq). lia.
      + intros a (E & _). congruence. }
  rewrite Em. simpl. eexists. split; [done|].
  assert (∀ a, p ≤ a → c' !! a = c !! a) as Hnew.
  { intros a Ha. apply Hc'. intros Ho. apply Hown in Ho. lia. }
  assert (arr c' p k) as Hk.
  { eapply arr_ext; [exact Harr|]. intros a x Ha Hx. by rewrite Hnew by lia. }
  split_and!; [| |done|simpl; lia].
  - constructor; simpl.
    + intros a x Hx Hn. split; [rewrite Hc'; [by apply Hold|intros Ho; apply Hn; by left]|].
      specialize (Hpc _ _ Hx). intros [(_ & n & _ & Ha)|Ha]; simpl in Ha; lia.
    + intros q n Hq Hne. split; [by apply Hhq|]. intros _. specialize (Hph _ _ Hq). lia.
  - constructor; simpl; try done.
    + unfold k in Hk. by apply arr_app in Hk as [? _].
    + rewrite <- Ek. by apply arr_room.
    + right. done.
    + lia.
    + intros _. exists size. split_and!; [done|lia|]. rewrite <- Ek. by apply arr_room.
    + unfold in_u. lia.
    + unfold in_u. lia.
    + apply Hs.
Qed.

#[export] Instance heap_alloc_laws : StringAllocLaws.
Proof.
  split.
  - intros s l n Hs Hn. simpl. unfold heap_realloc_raw.
    destruct (Z.leb_spec n (Alloced_length (this s))); [by exists false, s|].
    destruct (Z.leb_spec (2 ^ 32) n); [by exists true, s|].
    rewrite (load_ok _ _ l) by (apply Hs || (rewrite (r_length _ _ Hs); lia)). simpl.
    pose proof (r_len32 _ _ Hs) as [Hl0 Hl]. pose proof (r_alloced32 _ _ Hs) as [Ha _].
    destruct (fresh_buffer_ok s l l (Z.max n (str_length (this s))) Hs) as (s' & E & Hf & Hr & Hal & _);
      [rewrite (r_length _ _ Hs); lia|lia|].
    rewrite E. simpl. exists false, s'. split_and!; [done..|]. lia.
  - intros s l n Hs Hn. simpl. unfold heap_real_alloc.
    destruct (Z.leb_spec (2 ^ 32 - 1) n); [by exists true, s|].
    destruct (fresh_buffer_ok s l [] (n + 1) Hs) as (s' & E & Hf & Hr & Hal & Hp);
      [unfold in_u in Hn; simpl; lia|unfold in_u in Hn; lia|].
    rewrite E. simpl. exists false, s'. split_and!; [done..|]. intros _. split_and!; [done|lia|done].
Qed.
End HeapAlloc.

(** ** Theorems *)

Section Theorems.
Context `{StringAllocLaws} (dbug : bool).

(** An append that fits with one byte to spare stays in the buffer. *)
Lemma append_within s l q data : repr s l → arr (cells (mm s)) q data →
  untouched s q (Z.of_nat (length data)) →
  Z.of_nat (length l) + Z.of_nat (length data) < Alloced_length (this s) →
  ∃ s', append dbug q (Z.of_nat (length data)) s = Some (false, s') ∧ appended s s' l data.
Proof.
  intros Hs Hd Hu Hlt. unfold append. destruct (Z.eqb_spec (Z.of_nat (length data)) 0) as [E0|E0].
  { destruct data; [|done]. exists s. unfold appended. by rewrite app_nil_r. }
  pose proof (r_alloced32 _ _ Hs) as [_ Ha]. step. rewrite (r_length _ _ Hs).
  unfold to_ulonglong. rewrite wrap_id by (unfold in_u; lia).
  unfold realloc_with_extra_if_needed. rewrite bind_assoc. step. rewrite (proj2 (Z.ltb_lt _ _) Hlt), bind_assoc.
  destruct (set_byte_ok s l (Z.of_nat (length l) + Z.of_nat (length data)) 0 Hs) as (s1 & E1 & Hf & Ht & _ & Hr); [lia|].
  rewrite insert_end in Hr by lia. do 2 step. destruct (frame_arr _ _ _ _ Hf Hd Hu) as [Hd1 Hu1].
  destruct (q_append_ok dbug s1 l q data Hr Hd1 Hu1) as (s2 & E2 & Hf2 & Hr2 & Hp2 & Ha2); [rewrite Ht; lia|].
  step. exists s2. rewrite Ht in Hp2, Ha2. split; [done|]. split_and!; [by transitivity s1|done..].
Qed.

(** The pattern of a length that is patched in afterwards. *)
Definition with_header (v : Z) (k : list Z) : M st unit :=
  n <- get str_length ;; q_append_uint32 dbug 0 ;; q_append_chars dbug k ;; write_at_position dbug n v.

(** A prefix and the rest around the header. *)
Lemma patch_header (l h k : list Z) n : length h = 4%nat → n = Z.of_nat (length l) →
  take (Z.to_nat n) ((l ++ h) ++ k) = l ∧ drop (Z.to_nat (n + 4)) ((l ++ h) ++ k) = k.
Proof.
  intros Hh ->. split.
  - rewrite <- app_assoc. apply take_app_length'. lia.
  - apply drop_app_length'. rewrite length_app. lia.
Qed.

Lemma with_header_ok s l v k : repr s l →
  Z.of_nat (length l) + 4 + Z.of_nat (length k) ≤ Alloced_length (this s) →
  ∃ s', with_header v k s = Some (tt, s') ∧ appended s s' l (le_bytes 4 v ++ k).
Proof.
  intros Hs Hle. unfold with_header. step.
  destruct (q_append_uint32_ok dbug s l 0 Hs) as (s1 & E1 & Hf1 & Hr1 & Hp1 & Ha1); [lia|]. step.
  destruct (q_append_chars_ok dbug k s1 _ Hr1) as (s2 & E2 & Hf2 & Hr2 & Hp2 & Ha2).
  { rewrite length_app, length_le_bytes, Ha1. lia. }
  step. rewrite (r_length _ _ Hs).
  destruct (write_at_position_ok dbug s2 _ (Z.of_nat (length l)) v Hr2) as (s3 & E3 & Hf3 & Ht3 & Hr3).
  { lia. } { rewrite !length_app, length_le_bytes. lia. } { lia. }
  destruct (patch_header l (le_bytes 4 0) k _ (length_le_bytes 4 0) eq_refl) as [Et Ed].
  rewrite Et, Ed in Hr3. exists s3. split; [done|].
  split_and!; [by (transitivity s1; [|transitivity s2])|done|congruence..].
Qed.

(** The fixed-size appends write little-endian values inside the buffer, and
    a header of four bytes that is appended first and patched with
    [write_at_position] later holds the value written last. *)
Theorem binary_string_fixed_size s l v k : repr s l →
  Z.of_nat (length l) + 8 + Z.of_nat (length k) ≤ Alloced_length (this s) →
  (∃ s', q_append2b dbug v s = Some (tt, s') ∧ appended s s' l (le_bytes 2 v)) ∧
  (∃ s', q_append_uint32 dbug v s = Some (tt, s') ∧ appended s s' l (le_bytes 4 v)) ∧
  (∃ s', q_append_double dbug v s = Some (tt, s') ∧ appended s s' l (le_bytes 8 v)) ∧
  (∃ s', qs_append_char dbug v s = Some (tt, s') ∧ appended s s' l [v]) ∧
  (∃ s', with_header v k s = Some (tt, s') ∧ appended s s' l (le_bytes 4 v ++ k)).
Proof.
  intros Hs Hle. split_and!.
  - apply q_append2b_ok; [done|lia].
  - apply q_append_uint32_ok; [done|lia].
  - apply q_append_double_ok; [done|lia].
  - apply qs_append_char_ok; [done|lia].
  - apply with_header_ok; [done|lia].
Qed.

(** [chop] drops the last byte and terminates the rest; on the empty string it
    does nothing.  [bin_eq] decides equality of contents, [has_8bit_bytes]
    finds a byte above 127. *)
Theorem binary_string_chop_compare s l t k : repr s l → bytes l → repr (St (mm s) t) k →
  bin_eq (mm s) (this s) t = Some (bool_decide (l = k)) ∧
  has_8bit_bytes (mm s) (this s) = Some (existsb (λ x, 128 <=? x) l) ∧
  (l = [] → chop dbug s = Some (tt, s)) ∧
  (∀ l' x, l = l' ++ [x] → Alloced_length (this s) ≠ 0 → (dbug = true → Forall (λ y, y ≠ 0) l') →
   ∃ s', chop dbug s = Some (tt, s') ∧ frame s s' ∧ repr s' l' ∧
     cstring (cells (mm s')) (Ptr (this s')) l').
Proof.
  intros Hs Hb Ht. split_and!; [by apply bin_eq_ok|by apply has_8bit_ok| |].
  - intros ->. unfold chop. step. by rewrite (r_length _ _ Hs).
  - intros l' x -> Ha Hz. by eapply str_chop_ok.
Qed.

(** C34: A move frees the old buffer, hands over contents and ownership, and leaves
    the other string reading the same bytes without owning them; both objects
    can then be destroyed, so that the block is freed once. *)
Theorem binary_string_move s l t k : repr s l → repr (St (mm s) t) k → apart s t →
  Alloced_length t < 2 ^ 32 - 1 →
  ∃ s' t', move dbug t s = Some (t', s') ∧ freed s (mm s') ∧ repr s' k ∧ this s' = t ∧
    repr (St (mm s') t') k ∧ alloced t' = false ∧
    ∃ s2 s3, free s' = Some (tt, s2) ∧ freed s' (mm s2) ∧
      free (St (mm s2) t') = Some (tt, s3) ∧ mm s3 = mm s2.
Proof.
  intros Hs Ht Hap Hmax. destruct (move_ok dbug s l t k Hs Ht Hap Hmax) as (s' & t' & E & Hf & Hr & Hth & Hr' & Ha').
  exists s', t'. split_and!; [done..|]. destruct (free_ok s' k Hr) as (s2 & E2 & Hf2 & _).
  exists s2. unfold free, free_buffer in *. eexists. split_and!; [done..| |].
  - rewrite bind_assoc. step. simpl. rewrite Ha'. step. by do 3 step.
  - done.
Qed.

(** Assignment and [set] of a part make an alias of the other string's bytes
    and free the buffer that was owned before; [release] followed by [reset]
    of another object passes the block on; [swap] exchanges contents and
    ownership. *)
Theorem binary_string_aliases s l t k : repr s l → repr (St (mm s) t) k → apart s t →
  Alloced_length t < 2 ^ 32 - 1 → uses_buffer_owned_by t (this s) = false →
  (∃ s', assign dbug false t s = Some (tt, s') ∧ freed s (mm s') ∧
     repr s' k ∧ repr (St (mm s') t) k ∧ alloced (this s') = false) ∧
  (∀ o n, (o + n ≤ length k)%nat → Ptr t + Z.of_nat o ≠ 0 →
   ∃ s', set_sub t (Z.of_nat o) (Z.of_nat n) s = Some (tt, s') ∧ freed s (mm s') ∧
     repr s' (take n (drop o k)) ∧ alloced (this s') = false) ∧
  (alloced t = true → Ptr (this s) = 0 →
   ∃ p s1 s2, release (St (mm s) t) = Some (p, s1) ∧ this s1 = Bstr 0 0 0 0 false false ∧
     reset dbug p (str_length t) (Alloced_length t) s = Some (tt, s2) ∧
     mm s2 = mm s ∧ repr s2 k ∧ alloced (this s2) = true) ∧
  (repr (St (mm s) (swap (this s) t).1) k ∧ repr (St (mm s) (swap (this s) t).2) l).
Proof.
  intros Hs Ht Hap Hmax Hu. split_and!.
  - destruct (str_assign_ok dbug s l t k Hs Ht Hap Hmax Hu) as (s' & ? & ? & ? & ? & ? & _). by exists s'.
  - intros o n Ho Hn. by eapply set_sub_ok.
  - intros Ha Hp. destruct (r_null _ _ Hs Hp) as (_ & El & _). rewrite (r_length _ _ Hs) in El.
    destruct l; [|simpl in El; lia]. destruct s as [m ts]. simpl in *.
    destruct (release_reset_ok dbug (St m t) k m ts Ht eq_refl Hs Hp) as (p & s1 & s2 & E1 & _ & E2 & E3 & E4 & E5 & E6); simpl; try done.
    { intros E. destruct (r_null _ _ Ht E) as (E' & _). simpl in E'. congruence. }
    by exists p, s1, s2.
  - eapply proj1, swap_repr; [by destruct s|done].
  - eapply proj2, (swap_repr _ _ _ l k); [by destruct s|done].
Qed.

(** A [StringBuffer] starts empty on its inline array, and appends that leave
    one byte free stay there: no memory is allocated. *)
Theorem string_buffer_inline {CS : Type} (cs : CS) m buff buff_sz q data :
  buff ≠ 0 → 0 < buff_sz < 2 ^ 32 → room (cells m) buff buff_sz → arr (cells m) q data →
  q + Z.of_nat (length data) ≤ buff ∨ buff + buff_sz ≤ q → Z.of_nat (length data) < buff_sz →
  let s := St m (bin (StringBuffer buff buff_sz cs)) in
  repr s [] ∧ this s = BinaryStringBuffer buff buff_sz ∧
  ∃ s', append dbug q (Z.of_nat (length data)) s = Some (false, s') ∧
    repr s' data ∧ Ptr (this s') = buff ∧ Alloced_length (this s') = buff_sz ∧ frame s s'.
Proof.
  intros Hb Hsz Hr Hd Hq Hlt s.
  assert (this s = Bstr buff 0 buff_sz 0 false false) as Et.
  { simpl. unfold Binary_string_buf, set_str_length, to_uint32. simpl. by rewrite wrap_id by (unfold in_u; lia). }
  assert (repr s []) as Hs.
  { constructor; rewrite ?Et; simpl; try done; [right; lia|unfold in_u; lia]. }
  split_and!; [done|done|].
  destruct (append_within s [] q data Hs) as (s' & E & Hf & Hrp & Hp & Ha).
  - done.
  - intros a Ha. unfold touched, own. rewrite Et. simpl. intros [(? & _)|?]; [done|lia].
  - rewrite Et. simpl. lia.
  - exists s'. rewrite Et in Hp, Ha. split_and!; done.
Qed.

(** [prep_append] computes the new length in 32 bits: when the sum wraps and
    the wrapped value fits, it returns an area of which nothing is known to be
    in the buffer, and sets the length to the wrapped value. *)
Theorem prep_append_wraps s l n stp : repr s l → in_u 32 n → 2 ^ 32 ≤ Z.of_nat (length l) + n →
  Z.of_nat (length l) + n - 2 ^ 32 ≤ Alloced_length (this s) →
  prep_append n stp s =
    Some (Ptr (this s) + Z.of_nat (length l),
          St (mm s) (set_str_length (Z.of_nat (length l) + n - 2 ^ 32) (this s))) ∧
  Alloced_length (this s) < Z.of_nat (length l) + n.
Proof.
  intros Hs Hn Hw Hle. pose proof (r_len32 _ _ Hs) as Hl. pose proof (r_alloced32 _ _ Hs) as Ha.
  rewrite (r_length _ _ Hs) in Hl. unfold in_u in *.
  assert (to_uint32 (Z.of_nat (length l) + n) = Z.of_nat (length l) + n - 2 ^ 32) as E.
  { unfold to_uint32, wrap. rewrite <- (Z.mod_add _ (-1)) by lia.
    rewrite Z.mod_small by lia. lia. }
  split; [|lia]. unfold prep_append. do 2 step. rewrite (r_length _ _ Hs), (Z.add_comm n), E.
  destruct (Z.ltb_spec (Alloced_length (this s)) (Z.of_nat (length l) + n - 2 ^ 32)); [lia|].
  do 3 step. rewrite (r_length _ _ Hs), E. done.
Qed.
(** The constructors and setters that borrow bytes: the string has them as
    contents and does not own them, read-only for [const char*] and writable
    for [char*]; a buffer owned before is freed by the setters, and kept by
    [set_buffer_if_not_allocated]; the copy constructor and [mark_as_const] keep
    the contents. *)
Theorem binary_string_borrow s l p data : repr s l → arr (cells (mm s)) p data →
  (∀ a, own s a → ¬ p ≤ a < p + Z.of_nat (length data)) → p ≠ 0 → Z.of_nat (length data) < 2 ^ 32 - 1 →
  let n := Z.of_nat (length data) in
  (repr (St (mm s) (Binary_string_const p n)) data ∧ repr (St (mm s) (Binary_string_buf p n)) data) ∧
  (∃ s', set_const p n s = Some (tt, s') ∧ freed s (mm s') ∧ repr s' data ∧ Alloced_length (this s') = 0) ∧
  (∃ s', set_buf dbug p n s = Some (tt, s') ∧ freed s (mm s') ∧ repr s' data ∧ Alloced_length (this s') = n) ∧
  (∃ s', set_buffer_if_not_allocated p n s = Some (tt, s') ∧
     if alloced (this s) then s' = s else repr s' data) ∧
  repr (St (mm s) (Binary_string_copy (this s))) l ∧
  (∃ s', mark_as_const s = Some (tt, s') ∧ repr s' l).
Proof.
  intros Hs Hd Ho Hp Hmax n. assert (in_u 32 n) as Hn by (unfold in_u; lia).
  assert (in_u 32 (extra_alloc (this s))) as He by apply Hs.
  assert (∀ m' e th a, arr (cells m') p data → in_u 32 e → a = 0 ∨ a = n →
    repr (St m' (Bstr p n a e false th)) data) as Hborrow.
  { intros m' e th a Ha He' Hal. pose proof (arr_room _ _ _ Ha) as Hr.
    destruct Hal as [-> | ->]; constructor; simpl; first [done|by auto|intros b Hb; lia|right; lia]. }
  assert (∀ m', freed s m' → arr (cells m') p data) as Hfd.
  { intros m' (_ & Hc & _). eapply arr_ext; [done|]. intros a x Ha Hx. rewrite Hc; [done|].
    intros Hown. by apply (Ho a Hown). }
  assert (to_uint32 n = n) as En by by apply wrap_id.
  destruct (free_buffer_ok s l Hs) as (m' & Ef & Hf). split_and!.
  - unfold Binary_string_const. rewrite En. apply Hborrow; auto. done.
  - unfold Binary_string_buf. rewrite En. apply Hborrow; auto. done.
  - unfold set_const. step. do 2 step. eexists. split; [done|]. rewrite En. simpl. split_and!; [done| |done].
    apply Hborrow; auto.
  - unfold set_buf. destruct (set_alloced_ok dbug s l p n n Hs Hn Hn) as (m2 & E & Hf2); [done|].
    rewrite E. eexists. split; [done|]. simpl. split_and!; [done| |done]. apply Hborrow; auto.
  - unfold set_buffer_if_not_allocated. step. destruct (alloced (this s)) eqn:Ea; cbn [negb]; [by exists s|].
    do 2 step. eexists. split; [done|]. rewrite En. simpl. unfold set_str_length, set_Alloced_length, set_Ptr.
    simpl. rewrite Ea. apply Hborrow; auto.
  - destruct s as [m t]. apply (alias_repr m t); done.
  - eexists. split; [done|]. destruct Hs as [H1 H2 H3 H4 H5 H6 H7 H8 H9]. constructor; simpl; try done.
    + intros a Ha. lia.
    + by left.
    + naive_solver.
    + intros Ea. destruct (H6 Ea) as (k & Hk & Hle & Hr). exists k. split_and!; [done| |done].
      unfold in_u in H8. lia.
Qed.

(** Construction with a size allocates an empty string; [alloc] keeps a buffer
    that is large enough. *)
Theorem binary_string_alloc s l n : repr s l → in_u 64 n → alloced (this s) = false →
  (∃ s', Binary_string_alloc n s = Some (tt, s')) ∧
  (∃ b s', alloc n s = Some (b, s') ∧ frame s s' ∧
     (b = false → (s' = s ∨ repr s' []) ∧ n ≤ Alloced_length (this s') ∧ Ptr (this s') ≠ 0)).
Proof.
  intros Hs Hn Ha. split; [|by eapply alloc_ok].
  assert (repr (St (mm s) (Bstr 0 0 0 0 false false)) []) as H0'.
  { constructor; simpl; try done; [intros a Hin; lia|by left]. }
  unfold Binary_string_alloc. step.
  destruct (real_alloc_ok _ _ n H0' Hn) as (b & s' & E & _). step. by exists s'.
Qed.

(** Queries that depend on the character set: the number of characters is that
    of the contents, a position that is not positive is returned as it is, and
    [is_ascii] holds for empty strings and for strings of 7-bit bytes in a
    character set with one-byte characters. *)
Theorem string_charset_queries `{CharsetInfo CS} (cs : CS) s l i o : repr s l → bytes l → (o ≤ length l)%nat →
  numchars (mm s) (Sstr cs (this s)) = Some (to_uint32 (cs_numchars cs l)) ∧
  charpos (mm s) (Sstr cs (this s)) i (Z.of_nat o) =
    Some (to_int32 (if i <=? 0 then i else cs_charpos cs (drop o l) i)) ∧
  is_ascii (mm s) (Sstr cs (this s)) =
    Some (bool_decide (l = []) || (mbminlen cs <=? 1) && forallb (λ x, x <? 128) l).
Proof.
  intros Hs Hb Ho. split_and!.
  - unfold numchars. simpl. by rewrite (load_ok _ _ l) by (apply Hs || (rewrite (r_length _ _ Hs); lia)).
  - unfold charpos. simpl. destruct (i <=? 0); [done|].
    rewrite (load_ok _ _ (drop o l)); [done| |rewrite length_drop, (r_length _ _ Hs); lia].
    pose proof (arr_sub _ _ l o (length l) (r_content _ _ Hs)) as Ha.
    by rewrite take_ge in Ha by (rewrite length_drop; lia).
  - unfold is_ascii. simpl. rewrite (has_8bit_ok s l) by done. rewrite (r_length _ _ Hs).
    destruct l as [|x l]; [done|]. rewrite bool_decide_false by done.
    replace (Z.of_nat (length (x :: l)) =? 0) with false by done. rewrite Z.leb_antisym.
    destruct (1 <? mbminlen cs); [done|]. cbn [negb andb orb mbind option_bind]. f_equal. clear.
    generalize (x :: l). intros k. induction k as [|y k IH]; [done|]. simpl.
    rewrite negb_orb, IH. by rewrite <- Z.ltb_antisym.
Qed.
End Theorems.

(** ** Witnesses *)

Module StringWitness.
Import HeapAlloc.

(** A buffer of 16 bytes at 16 that holds "ab", the bytes 171 and 5 at 40, an
    empty literal at 8, and a heap block of 4 bytes at 64 that starts with "cde". *)
Definition memory : mem :=
  Mem (put_list (put_list (put_list (put_list ∅ 8 [0]) 16 (97 :: 98 :: replicate 14 0)) 40 [171; 5]) 64 [99; 100; 101; 0])
      {[64 := 4]}.
Definition buffer : st := St memory (Bstr 16 2 16 0 false false).
Definition owner : bstr := Bstr 64 3 4 0 true false.
Definition null_string : st := St memory (Bstr 0 0 0 0 false false).

Lemma buffer_repr : repr buffer [97; 98].
Proof.
  constructor; cbn [buffer owner mm this Ptr str_length Alloced_length extra_alloc alloced length];
    try reflexivity; try (unfold in_u; lia); try discriminate.
  - apply load_arr. by vm_compute.
  - apply room_check. by vm_compute.
Qed.

Lemma owner_repr : repr (St memory owner) [99; 100; 101].
Proof.
  constructor; cbn [buffer owner mm this Ptr str_length Alloced_length extra_alloc alloced length];
    try reflexivity; try (unfold in_u; lia); try discriminate.
  - apply load_arr. by vm_compute.
  - apply room_check. by vm_compute.
  - intros _. exists 4. split_and!; [by vm_compute|lia|]. apply room_check. by vm_compute.
Qed.

Lemma data_there : arr (cells (mm buffer)) 40 [171; 5] ∧ untouched buffer 40 2.
Proof.
  split; [apply load_arr; by vm_compute|]. intros a Ha. unfold touched, own. simpl. intros [[? _]|?]; [done|lia].
Qed.

Lemma buffer_apart : apart buffer owner.
Proof. split; [|done]. intros a [E _]. done. Qed.
End StringWitness.
Import StringWitness HeapAlloc.

Definition dig_lower : list Z := [48; 49; 50; 51; 52; 53; 54; 55; 56; 57; 97; 98; 99; 100; 101; 102].

Lemma binary_string_append_witness :
  append_outcome buffer [97; 98] [171; 5] (append true 40 2 buffer) ∧ hex_of dig_lower [171; 5] = [97; 98; 48; 53].
Proof.
  split; [|by vm_compute].
  destruct (binary_string_append true buffer [97; 98] 40 [171; 5] buffer_repr (proj1 data_there) (proj2 data_there))
    as [E _]; [simpl; lia|exact E].
Defined.

Lemma binary_string_reserve_witness :
  ∃ b s', reserve true 3 buffer = Some (b, s') ∧ frame buffer s' ∧ repr s' [97; 98] ∧
    (b = false → ∃ s2, q_append_chars true [1; 2; 3] s' = Some (tt, s2) ∧ appended s' s2 [97; 98] [1; 2; 3]).
Proof.
  destruct (binary_string_reserve true buffer [97; 98] [1; 2; 3] 10 buffer_repr) as [E _]; [lia|simpl; lia|exact E].
Defined.

Lemma binary_string_fixed_size_witness :
  ∃ s', with_header true 258 [7] buffer = Some (tt, s') ∧ appended buffer s' [97; 98] [2; 1; 0; 0; 7].
Proof.
  destruct (binary_string_fixed_size true buffer [97; 98] 258 [7] buffer_repr) as (_ & _ & _ & _ & E);
    [simpl; lia|exact E].
Defined.

Lemma binary_string_c_ptr_witness : c_ptr_outcome buffer [97; 98] (c_ptr 8 buffer).
Proof.
  destruct (binary_string_c_ptr 8 buffer [97; 98] buffer_repr) as [_ E]; [by vm_compute|].
  apply E. intros _ _. exists 0. by vm_compute.
Defined.

Lemma binary_string_chop_compare_witness :
  bin_eq memory (this buffer) owner = Some false ∧ ∃ s', chop true buffer = Some (tt, s') ∧ repr s' [97].
Proof.
  destruct (binary_string_chop_compare true buffer [97; 98] owner [99; 100; 101] buffer_repr) as (H1 & _ & _ & H4).
  - repeat constructor; lia.
  - exact owner_repr.
  - split; [exact H1|]. destruct (H4 [97] 98 eq_refl) as (s' & E & _ & Hr & _); [by simpl|intros _; by constructor|].
    exists s'. by split.
Defined.

Lemma binary_string_move_witness :
  ∃ s' t', move true owner buffer = Some (t', s') ∧ repr s' [99; 100; 101] ∧ alloced t' = false.
Proof.
  destruct (binary_string_move true buffer [97; 98] owner [99; 100; 101] buffer_repr owner_repr buffer_apart)
    as (s' & t' & E & _ & Hr & _ & _ & Ha & _); [simpl; lia|]. by exists s', t'.
Defined.

Lemma binary_string_aliases_witness :
  ∃ s', set_sub owner 1 2 buffer = Some (tt, s') ∧ repr s' [100; 101] ∧ alloced (this s') = false.
Proof.
  destruct (binary_string_aliases true buffer [97; 98] owner [99; 100; 101] buffer_repr owner_repr buffer_apart)
    as (_ & H2 & _); [simpl; lia|done|].
  destruct (H2 1%nat 2%nat) as (s' & E & _ & Hr & Ha); [simpl; lia|done|]. by exists s'.
Defined.

Lemma string_buffer_inline_witness :
  ∃ s', append true 40 2 (St memory (bin (StringBuffer 16 16 tt))) = Some (false, s') ∧ repr s' [171; 5].
Proof.
  destruct (string_buffer_inline true tt memory 16 16 40 [171; 5])
    as (_ & _ & s' & E & Hr & _); [lia|lia|apply room_check; by vm_compute|apply data_there|simpl; lia|simpl; lia|].
  by exists s'.
Defined.

Lemma binary_string_borrow_witness :
  ∃ s', set_const 40 2 (St memory owner) = Some (tt, s') ∧ repr s' [171; 5] ∧ heap (mm s') = ∅.
Proof.
  destruct (binary_string_borrow true (St memory owner) [99; 100; 101] 40 [171; 5] owner_repr) as (_ & E & _).
  - apply data_there.
  - intros a (_ & n & Hn & Ha). vm_compute in Hn. simplify_eq. cbn [owner this Ptr length] in *. lia.
  - lia.
  - simpl. lia.
  - destruct E as (s' & E & Hf & Hr & _). exists s'. split_and!; [exact E|exact Hr|].
    destruct Hf as (_ & _ & ->). by vm_compute.
Defined.

Lemma binary_string_alloc_witness : ∃ s', Binary_string_alloc 10 null_string = Some (tt, s').
Proof.
  destruct (binary_string_alloc null_string [] 10) as [E _]; [|unfold in_u; lia|reflexivity|exact E].
  constructor; cbn [null_string mm this Ptr str_length Alloced_length extra_alloc alloced length];
    first [reflexivity|apply arr_nil|by apply room_check|discriminate|by intros|by left|unfold in_u; lia].
Defined.

(** A character set of one byte per character. *)
Definition bytes_charset : CharsetInfo unit :=
  {| my_charset_bin := tt; mbminlen _ := 1; cs_numchars _ l := Z.of_nat (length l);
     cs_charpos _ l i := Z.min i (Z.of_nat (length l)) |}.

Lemma string_charset_queries_witness : @is_ascii unit bytes_charset memory (Sstr tt (this buffer)) = Some true.
Proof.
  destruct (@string_charset_queries unit bytes_charset tt buffer [97; 98] 1 0 buffer_repr) as (_ & _ & E).
  - repeat constructor; lia.
  - simpl. lia.
  - exact E.
Defined.

Lemma prep_append_wraps_witness :
  prep_append (2 ^ 32 - 1) 0 buffer = Some (18, St memory (set_str_length 1 (this buffer))).
Proof.
  destruct (prep_append_wraps buffer [97; 98] (2 ^ 32 - 1) 0 buffer_repr) as [E _];
    [unfold in_u; lia|simpl; lia|simpl; lia|exact E].
Defined.
