(* ===== verification/CDouble.v ===== *)
(** The type [double]: the IEEE 754 binary64 values of the Standard Library's
    [SpecFloat], with the operations and conversions the code uses, rounded to
    nearest even. *)
From S2P Require Import Prelude.
From Stdlib Require Export SpecFloat.

Definition double_of (z : Z) : spec_float := binary_normalize 53 1024 z 0 false.
Definition dmul : spec_float → spec_float → spec_float := SFmul 53 1024.

(** Conversion to an unsigned type of [w] bits truncates; it is undefined when
    the result does not fit. *)
Definition trunc (w : Z) (d : spec_float) : option Z :=
  match d with
  | S754_zero _ => Some 0
  | S754_finite s m e =>
      let t := if 0 <=? e then Zpos m * 2 ^ e else Zpos m / 2 ^ (- e) in
      let t := if s then - t else t in
      if bool_decide (in_u w t) then Some t else None
  | _ => None
  end.

Definition ddiv : spec_float → spec_float → spec_float := SFdiv 53 1024.
Definition dadd : spec_float → spec_float → spec_float := SFadd 53 1024.
Definition dsub : spec_float → spec_float → spec_float := SFsub 53 1024.

(** [a == b], [a < b], [a <= b]; false when one is not a number. *)
Definition deq : spec_float → spec_float → bool := SFeqb.
Definition dlt : spec_float → spec_float → bool := SFltb.
Definition dle : spec_float → spec_float → bool := SFleb.

Definition dzero : spec_float := S754_zero false.
Definition dunit : spec_float := double_of 1.

(** [floor] and [ceil]; values with a non-negative exponent are integers. *)
Definition dfloor (d : spec_float) : spec_float :=
  match d with
  | S754_finite s m e =>
      if 0 <=? e then d else
      let z := (if s then Zneg m else Zpos m) / 2 ^ (- e) in
      if z =? 0 then S754_zero s else double_of z
  | _ => d
  end.
Definition dceil (d : spec_float) : spec_float :=
  match d with
  | S754_finite s m e =>
      if 0 <=? e then d else
      let z := - ((- (if s then Zneg m else Zpos m)) / 2 ^ (- e)) in
      if z =? 0 then S754_zero s else double_of z
  | _ => d
  end.

(** The operations are compared, not computed, in proofs. *)
Arguments double_of : simpl never. Arguments dmul : simpl never. Arguments ddiv : simpl never.
Arguments dadd : simpl never. Arguments dsub : simpl never. Arguments deq : simpl never.
Arguments dlt : simpl never. Arguments dle : simpl never. Arguments dfloor : simpl never.
Arguments dceil : simpl never. Arguments dunit : simpl never. Arguments dzero : simpl never.

(** ** Order

    A value of the type is a canonical binary64 number; on those that are not NaN
    the comparisons are those of integers. *)
Definition is_num (d : spec_float) : Prop := d ≠ S754_nan ∧ valid_binary 53 1024 d = true.

Definition rank (d : spec_float) : Z :=
  match d with
  | S754_finite s m e => let r := Zpos m + 2 ^ 53 * (e + 1074) in if s then - r else r
  | S754_infinity s => if s then - 2 ^ 53 * 2046 else 2 ^ 53 * 2046
  | _ => 0
  end.

Lemma digits_bound m n : Zpos (digits2_pos m) ≤ n → Zpos m < 2 ^ n.
Proof.
  revert n. induction m as [m IH|m IH|]; cbn [digits2_pos]; intros n H.
  - specialize (IH (n - 1) ltac:(lia)). replace n with (Z.succ (n - 1)) by lia. rewrite Z.pow_succ_r by lia. lia.
  - specialize (IH (n - 1) ltac:(lia)). replace n with (Z.succ (n - 1)) by lia. rewrite Z.pow_succ_r by lia. lia.
  - assert (2 ^ 1 ≤ 2 ^ n) by (apply Z.pow_le_mono_r; lia). lia.
Qed.

Lemma is_num_finite s m e : is_num (S754_finite s m e) → Zpos m < 2 ^ 53 ∧ -1074 ≤ e ≤ 971.
Proof.
  intros [_ H]. cbn in H. unfold bounded, canonical_mantissa in H.
  apply andb_true_iff in H as [Hc%Zeq_bool_eq He%Z.leb_le]. unfold fexp, SpecFloat.emin in Hc. split.
  - apply digits_bound. lia.
  - lia.
Qed.

Lemma rank_compare x y : is_num x → is_num y → SFcompare x y = Some (rank x ?= rank y).
Proof.
  intros Hx Hy. change (2 ^ 53) with 9007199254740992 in *.
  destruct x as [sx|sx| |sx mx ex]; [..|destruct (is_num_finite _ _ _ Hx)]; try (by destruct Hx);
  (destruct y as [sy|sy| |sy my ey]; [..|destruct (is_num_finite _ _ _ Hy)]; try (by destruct Hy));
  change (2 ^ 53) with 9007199254740992 in *; cbn [SFcompare rank];
  try (destruct sx); try (destruct sy); f_equal; symmetry;
  try (by apply Z.compare_eq_iff); try (apply Z.compare_lt_iff; lia); try (apply Z.compare_gt_iff; lia).
  - change (Pos.compare_cont Eq mx my) with (mx ?= my)%positive.
    destruct (Z.compare_spec ex ey); [destruct (Pos.compare_spec mx my); cbn [CompOpp]|..];
      rewrite ?Z.compare_eq_iff, ?Z.compare_lt_iff, ?Z.compare_gt_iff; lia.
  - change (Pos.compare_cont Eq mx my) with (mx ?= my)%positive.
    destruct (Z.compare_spec ex ey); [destruct (Pos.compare_spec mx my)|..];
      rewrite ?Z.compare_eq_iff, ?Z.compare_lt_iff, ?Z.compare_gt_iff; lia.
Qed.

Lemma dlt_rank x y : is_num x → is_num y → dlt x y = (rank x <? rank y).
Proof. intros Hx Hy. unfold dlt, SFltb. rewrite rank_compare by done. unfold Z.ltb. by destruct (_ ?= _). Qed.
Lemma dle_rank x y : is_num x → is_num y → dle x y = (rank x <=? rank y).
Proof. intros Hx Hy. unfold dle, SFleb. rewrite rank_compare by done. unfold Z.leb. by destruct (_ ?= _). Qed.
Lemma deq_rank x y : is_num x → is_num y → deq x y = (rank x =? rank y).
Proof. intros Hx Hy. unfold deq, SFeqb. rewrite rank_compare by done. rewrite Z.eqb_compare. by destruct (_ ?= _). Qed.
