(* ===== verification/Histogram.v ===== *)
(** [sql_statistics.h]: the height-balanced histograms of the column statistics
    ([Histogram_binary]: bucket bounds of one or two bytes, search of the bucket
    of a value), the counters of [Basic_stats_collector] and the NULL bitmap of
    [Column_statistics].  Doubles are those of [CDouble]. *)
From S2P Require Import Prelude ByteOrder CDouble.
From Stdlib Require Import SpecFloat.

(** ** [Histogram_binary] *)

Inductive Histogram_type := SINGLE_PREC_HB | DOUBLE_PREC_HB | JSON_HB | INVALID_HISTOGRAM.

Record Histogram_binary := Histogram { type : Histogram_type; size : Z; values : list Z }.

Section Operations.
Context (dbug : bool).

(** [DBUG_ASSERT(0)] and what is returned without it. *)
Definition unreachable (x : Z) : option Z := if dbug then None else Some x.

Definition prec_factor (h : Histogram_binary) : option Z :=
  match type h with
  | SINGLE_PREC_HB => Some (to_uint32 (Z.shiftl 1 8) - 1)
  | DOUBLE_PREC_HB => Some (to_uint32 (Z.shiftl 1 16) - 1)
  | _ => unreachable 1
  end.

Definition get_width (h : Histogram_binary) : option Z :=
  match type h with
  | SINGLE_PREC_HB => Some (size h)
  | DOUBLE_PREC_HB => Some (size h / 2)
  | _ => unreachable 0
  end.

Definition get_value (h : Histogram_binary) (i : Z) : option Z :=
  w ← get_width h;
  if dbug && negb (i <? w) then None else
  match type h with
  | SINGLE_PREC_HB => values h !! Z.to_nat i
  | DOUBLE_PREC_HB => X86_64.uint2korr (drop (Z.to_nat (i * 2)) (values h))
  | _ => unreachable 0
  end.

(** The search loop of [find_bucket]; [fuel] bounds the iterations. *)
Fixpoint bucket_loop (fuel : nat) (h : Histogram_binary) (val lp rp d i : Z) : option Z :=
  match fuel with
  | O => None
  | S f =>
      if d =? 0 then Some i else
      v ← get_value h i;
      if val =? v then Some i else
      if val <? v then
        let rp := i in let d := (rp - lp) `quot` 2 in bucket_loop f h val lp rp d (lp + d)
      else
        v1 ← get_value h (i + 1);
        if v1 <? val then
          let lp := i + 1 in let d := (rp - lp) `quot` 2 in bucket_loop f h val lp rp d (lp + d)
        else Some i
  end.

(** [while (i && val == get_value(i - 1)) i--;] *)
Fixpoint first_equal (fuel : nat) (h : Histogram_binary) (val i : Z) : option Z :=
  match fuel with
  | O => None
  | S f => if i =? 0 then Some i else
           v ← get_value h (i - 1); if val =? v then first_equal f h val (i - 1) else Some i
  end.

(** [while (i + 1 < get_width() && val == get_value(i + 1)) i++;] *)
Fixpoint last_equal (fuel : nat) (h : Histogram_binary) (val i : Z) : option Z :=
  match fuel with
  | O => None
  | S f => w ← get_width h; if negb (i + 1 <? w) then Some i else
           v ← get_value h (i + 1); if val =? v then last_equal f h val (i + 1) else Some i
  end.

(** [find_bucket] after [pos] is scaled to [val]. *)
Definition find_bucket_val (fuel : nat) (h : Histogram_binary) (val : Z) (first : bool) : option Z :=
  w ← get_width h;
  let lp := 0 in
  let rp := to_int32 (to_uint32 (w - 1)) in
  let d := w / 2 in
  i ← bucket_loop fuel h val lp rp d (lp + d);
  v ← get_value h i;
  let i := if (v <? val) && (i <? to_uint32 (w - 1)) then i + 1 else i in
  v ← get_value h i;
  if val =? v then (if first then first_equal fuel h val i else last_equal fuel h val i) else Some i.

Definition find_bucket (fuel : nat) (h : Histogram_binary) (pos : spec_float) (first : bool) : option Z :=
  p ← prec_factor h;
  val ← trunc 32 (dmul pos (double_of p));
  find_bucket_val fuel h val first.

Definition with_values (h : Histogram_binary) (l : list Z) : Histogram_binary := Histogram (type h) (size h) l.

Definition set_value (h : Histogram_binary) (i : Z) (val : spec_float) : option Histogram_binary :=
  p ← prec_factor h;
  match type h with
  | SINGLE_PREC_HB => v ← trunc 8 (dmul val (double_of p)); with_values h <$> poke (values h) (Z.to_nat i) v
  | DOUBLE_PREC_HB => v ← trunc 16 (dmul val (double_of p));
                      with_values h <$> X86_64.int2store (values h) (Z.to_nat (i * 2)) v
  | _ => if dbug then None else Some h
  end.

Definition set_prev_value (h : Histogram_binary) (i : Z) : option Histogram_binary :=
  match type h with
  | SINGLE_PREC_HB => v ← values h !! Z.to_nat (i - 1); with_values h <$> poke (values h) (Z.to_nat i) v
  | DOUBLE_PREC_HB => v ← X86_64.uint2korr (drop (Z.to_nat (i * 2 - 2)) (values h));
                      with_values h <$> X86_64.int2store (values h) (Z.to_nat (i * 2)) v
  | _ => if dbug then None else Some h
  end.
End Operations.

(** ** [Basic_stats_collector] *)

Record Basic_stats_collector := Stats { count : Z; count_distinct : Z; count_distinct_single_occurence : Z }.

Definition empty_stats : Basic_stats_collector := Stats 0 0 0.

Definition stats_next (c : Basic_stats_collector) (elem_cnt : Z) : Basic_stats_collector :=
  Stats (to_ulonglong (count c + elem_cnt)) (to_ulonglong (count_distinct c + 1))
        (if elem_cnt =? 1 then to_ulonglong (count_distinct_single_occurence c + 1)
         else count_distinct_single_occurence c).

(** ** The NULL bitmap of [Column_statistics] *)

Definition COLUMN_STAT_COLUMN_NAME : Z := 2.
Definition COLUMN_STAT_HISTOGRAM : Z := 10.

Definition no_values_provided_bitmap : Z :=
  to_uint32 (Z.shiftl (Z.shiftl 1 (COLUMN_STAT_HISTOGRAM - COLUMN_STAT_COLUMN_NAME) - 1) (COLUMN_STAT_COLUMN_NAME + 1)).
Definition set_not_null (nulls stat_field_no : Z) : Z :=
  Z.land nulls (to_uint32 (Z.lnot (Z.shiftl 1 stat_field_no))).
Definition is_null (nulls stat_field_no : Z) : bool := truth (Z.land nulls (Z.shiftl 1 stat_field_no)).

(** ** Specification *)

(** The bucket bounds [vs] of a histogram: [w] values, not decreasing. *)
Record bounds_of (h : Histogram_binary) (w : Z) (vs : Z → Z) : Prop := {
  b_width : ∀ dbug, get_width dbug h = Some w;
  b_value : ∀ dbug i, 0 ≤ i < w → get_value dbug h i = Some (vs i);
  b_sorted : ∀ i j, 0 ≤ i → i ≤ j → j < w → vs i ≤ vs j;
  b_range : 0 < w ≤ 255 }.

(** The bucket of [val]: the first or last one equal to it; when none is equal,
    the first one above it, or the last bucket. *)
Record is_bucket (w : Z) (vs : Z → Z) (val : Z) (first : bool) (r : Z) : Prop := {
  ib_range : 0 ≤ r < w;
  ib_equal : (∃ j, 0 ≤ j < w ∧ vs j = val) → vs r = val ∧
    (first = true → ∀ j, 0 ≤ j < r → vs j < val) ∧ (first = false → ∀ j, r < j < w → val < vs j);
  ib_between : (∀ j, 0 ≤ j < w → vs j ≠ val) →
    (∀ j, 0 ≤ j < r → vs j < val) ∧ (val < vs r ∨ r = w - 1) }.

(** A bucket is determined by its specification. *)
Lemma is_bucket_unique w vs val first r r' : is_bucket w vs val first r → is_bucket w vs val first r' → r = r'.
Proof.
  assert (∀ r r', is_bucket w vs val first r → is_bucket w vs val first r' → ¬ r < r') as Hlt.
  { intros a b Ha Hb Hab. pose proof (ib_range _ _ _ _ _ Ha). pose proof (ib_range _ _ _ _ _ Hb).
    destruct (decide (vs a = val)) as [E|Ea]; [|destruct (decide (vs b = val)) as [E|Eb]].
    1, 2: destruct (ib_equal _ _ _ _ _ Ha) as (Ea' & Fa & La); [eexists; split; [|exact E]; lia|];
      destruct (ib_equal _ _ _ _ _ Hb) as (Eb' & Fb & Lb); [eexists; split; [|exact E]; lia|];
      destruct first; [specialize (Fb eq_refl a); lia|specialize (La eq_refl b); lia].
    assert (∀ j, 0 ≤ j < w → vs j ≠ val) as Hne.
    { intros j Hj E. destruct (ib_equal _ _ _ _ _ Ha) as [E' _]; [by exists j|]. done. }
    destruct (ib_between _ _ _ _ _ Ha Hne) as [_ [?|?]]; [|lia].
    destruct (ib_between _ _ _ _ _ Hb Hne) as [Hb' _]. specialize (Hb' a). lia. }
  intros H1 H2. pose proof (Hlt r r' H1 H2). pose proof (Hlt r' r H2 H1). lia.
Qed.

Section Search.
Context (dbug : bool) (h : Histogram_binary) (w : Z) (vs : Z → Z) (Hh : bounds_of h w vs) (val : Z).

Let sorted := b_sorted _ _ _ Hh.
Let value := b_value _ _ _ Hh dbug.

(** Where the loop can stop. *)
Definition loop_post (i : Z) : Prop :=
  0 ≤ i < w ∧ (vs i = val ∨
    (∀ j, 0 ≤ j < i → vs j < val) ∧ (∀ j, i < j < w - 1 → val ≤ vs j)).

Lemma bucket_loop_ok fuel lp rp d i : 0 ≤ lp → lp ≤ rp → rp ≤ w - 1 → i = lp + d → 0 ≤ d →
  (d = (rp - lp) `quot` 2 ∨ 0 < d ∧ i < rp) →
  (lp = 0 ∨ vs lp < val) → (rp = w - 1 ∨ val < vs rp) → rp - lp < Z.of_nat fuel →
  ∃ r, bucket_loop dbug fuel h val lp rp d i = Some r ∧ loop_post r.
Proof.
  revert lp rp d i. induction fuel as [|f IH]; intros lp rp d i H1 H2 H3 -> Hd Hdd Hl Hr Hf; [lia|].
  cbn [bucket_loop]. destruct (Z.eqb_spec d 0) as [->|Hd0].
  { exists (lp + 0). split; [done|]. rewrite Z.add_0_r. assert (rp - lp ≤ 1) as E by (Z.to_euclidean_division_equations; lia).
    split; [lia|]. destruct Hl as [->|Hl].
    - destruct (decide (vs 0 = val)); [by left|]. right. split; [lia|]. intros j Hj.
      destruct Hr as [->|Hr]; [lia|]. pose proof (sorted rp j). lia.
    - right. split.
      + intros j Hj. pose proof (sorted j lp). lia.
      + intros j Hj. destruct Hr as [->|Hr]; [lia|]. destruct (decide (rp = lp)) as [->|]; [lia|].
        pose proof (sorted rp j). lia. }
  assert (lp + d < rp) as Hlt by (Z.to_euclidean_division_equations; lia).
  rewrite (value (lp + d)) by lia. simpl. destruct (Z.eqb_spec val (vs (lp + d))) as [E|E].
  { exists (lp + d). split; [done|]. split; [lia|by left]. }
  destruct (Z.ltb_spec val (vs (lp + d))) as [Hv|Hv].
  { apply IH; Z.to_euclidean_division_equations; lia. }
  rewrite value by lia. simpl. destruct (Z.ltb_spec (vs (lp + d + 1)) val) as [Hv1|Hv1].
  { apply IH; Z.to_euclidean_division_equations; lia. }
  exists (lp + d). split; [done|]. split; [lia|]. right. split.
  - intros j Hj. pose proof (sorted j (lp + d)). lia.
  - intros j Hj. pose proof (sorted (lp + d + 1) j). lia.
Qed.

Lemma first_equal_ok fuel i : 0 ≤ i < w → vs i = val → i < Z.of_nat fuel →
  ∃ r, first_equal dbug fuel h val i = Some r ∧ 0 ≤ r < w ∧ vs r = val ∧ (∀ j, 0 ≤ j < r → vs j < val).
Proof.
  revert i. induction fuel as [|f IH]; intros i Hi E Hf; [lia|]. cbn [first_equal].
  destruct (Z.eqb_spec i 0) as [->|Hi0]; [exists 0; split_and!; try done; lia|].
  rewrite value by lia. simpl. destruct (Z.eqb_spec val (vs (i - 1))) as [E1|E1]; [apply IH; lia|].
  exists i. split_and!; [done|lia|lia|done|]. intros j Hj.
  pose proof (sorted (i - 1) i). pose proof (sorted j (i - 1)). lia.
Qed.

Lemma last_equal_ok fuel i : 0 ≤ i < w → vs i = val → w - i ≤ Z.of_nat fuel →
  ∃ r, last_equal dbug fuel h val i = Some r ∧ 0 ≤ r < w ∧ vs r = val ∧ (∀ j, r < j < w → val < vs j).
Proof.
  revert i. induction fuel as [|f IH]; intros i Hi E Hf; [lia|]. cbn [last_equal].
  rewrite (b_width _ _ _ Hh). simpl. destruct (Z.ltb_spec (i + 1) w) as [Hw|Hw]; simpl.
  2: { exists i. split_and!; try done; lia. }
  rewrite value by lia. simpl. destruct (Z.eqb_spec val (vs (i + 1))) as [E1|E1]; [apply IH; lia|].
  exists i. split_and!; [done|lia|lia|done|]. intros j Hj.
  pose proof (sorted i (i + 1)). pose proof (sorted (i + 1) j). lia.
Qed.
End Search.

Lemma find_bucket_val_ok dbug fuel h w vs val first : bounds_of h w vs → w ≠ 2 → (256 ≤ fuel)%nat →
  ∃ r, find_bucket_val dbug fuel h val first = Some r ∧ is_bucket w vs val first r.
Proof.
  intros Hh Hw2 Hfuel. pose proof (b_range _ _ _ Hh) as Hw. unfold find_bucket_val. rewrite (b_width _ _ _ Hh). cbn [mbind option_bind].
  assert (to_uint32 (w - 1) = w - 1) as E1 by (apply wrap_id; unfold in_u; lia).
  assert (to_int32 (w - 1) = w - 1) as E2 by (apply swrap_id; unfold in_s; lia).
  rewrite E1, E2.
  destruct (bucket_loop_ok dbug h w vs Hh val fuel 0 (w - 1) (w / 2) (0 + w / 2)) as (i & -> & Hi & Hpost);
    try (Z.to_euclidean_division_equations; lia). cbn [mbind option_bind].
  rewrite (b_value _ _ _ Hh) by lia. cbn [mbind option_bind].
  set (k := if (vs i <? val) && (i <? w - 1) then i + 1 else i).
  assert (0 ≤ k < w ∧ (vs k = val ∨ (∀ j, 0 ≤ j < k → vs j < val) ∧ (val < vs k ∨ k = w - 1))) as [Hk Hkpost].
  { unfold k. destruct (Z.ltb_spec (vs i) val), (Z.ltb_spec i (w - 1)); cbn [andb]; (split; [lia|]).
    - destruct Hpost as [?|[Hlo Hhi]]; [lia|]. destruct (decide (vs (i + 1) = val)); [by left|]. right. split.
      + intros j Hj. destruct (decide (j = i)) as [->|]; [lia|]. apply Hlo. lia.
      + destruct (decide (i + 1 = w - 1)); [by right|]. left. specialize (Hhi (i + 1)). lia.
    - destruct Hpost as [?|[Hlo Hhi]]; [by left|]. right. split; [done|lia].
    - destruct Hpost as [?|[Hlo Hhi]]; [by left|]. destruct (decide (vs i = val)); [by left|]. right. split; [done|lia].
    - destruct Hpost as [?|[Hlo Hhi]]; [by left|]. destruct (decide (vs i = val)); [by left|]. right. split; [done|lia]. }
  rewrite (b_value _ _ _ Hh) by lia. cbn [mbind option_bind]. destruct (Z.eqb_spec val (vs k)) as [E|E].
  - destruct first.
    + destruct (first_equal_ok dbug h w vs Hh val fuel k) as (r & -> & Hr & Er & Hmin); [done|done|lia|].
      exists r. split; [done|]. constructor; [done| |]; [done|]. intros Hne. by destruct (Hne k).
    + destruct (last_equal_ok dbug h w vs Hh val fuel k) as (r & -> & Hr & Er & Hmax); [done|done|lia|].
      exists r. split; [done|]. constructor; [done| |]; [done|]. intros Hne. by destruct (Hne k).
  - exists k. split; [done|]. destruct Hkpost as [?|[Hlo Hhi]]; [done|]. constructor; [done| |done].
    intros (j & Hj & Ej). exfalso. destruct (decide (j < k)); [specialize (Hlo j); lia|].
    destruct (decide (j = k)) as [->|]; [done|]. destruct Hhi as [Hhi|]; [|lia].
    pose proof (b_sorted _ _ _ Hh k j). lia.
Qed.

(** Histograms built from a list of bounds. *)
Lemma single_bounds l : (0 < length l ≤ 255)%nat → (∀ i j x y, (i ≤ j)%nat → l !! i = Some x → l !! j = Some y → x ≤ y) →
  bounds_of (Histogram SINGLE_PREC_HB (Z.of_nat (length l)) l) (Z.of_nat (length l)) (λ i, l !!! Z.to_nat i).
Proof.
  intros Hl Hs. split; [done| | |lia].
  - intros dbug i Hi. unfold get_value. simpl. destruct (Z.ltb_spec i (Z.of_nat (length l))); [|lia].
    rewrite andb_false_r. apply list_lookup_lookup_total_lt. lia.
  - intros i j Hi Hij Hj. apply (Hs (Z.to_nat i) (Z.to_nat j)); [lia|apply list_lookup_lookup_total_lt; lia..].
Qed.

(** Values that are set are read back, and the others stay. *)
Lemma get_value_single dbug l i n : n = Z.of_nat (length l) → 0 ≤ i < n →
  get_value dbug (Histogram SINGLE_PREC_HB n l) i = l !! Z.to_nat i.
Proof.
  intros -> Hi. unfold get_value. simpl. destruct (Z.ltb_spec i (Z.of_nat (length l))); [|lia]. by rewrite andb_false_r.
Qed.

Lemma get_value_double dbug l i n : n = Z.of_nat (length l) → bytes l → 0 ≤ i → i * 2 + 2 ≤ n →
  get_value dbug (Histogram DOUBLE_PREC_HB n l) i = load_le 2 l (Z.to_nat (i * 2)).
Proof.
  intros -> Hb Hi Hle. unfold get_value. simpl.
  destruct (Z.ltb_spec i (Z.of_nat (length l) / 2)); [|Z.to_euclidean_division_equations; lia].
  rewrite andb_false_r. unfold X86_64.uint2korr, load_le. rewrite length_drop, drop_0.
  rewrite !decide_True by lia. simpl. f_equal.
  assert (length (take 2 (drop (Z.to_nat (i * 2)) l)) = 2%nat) as E by (rewrite length_take, length_drop; lia).
  apply (wrap_id 16). pose proof (le_value_range (take 2 (drop (Z.to_nat (i * 2)) l))) as Hr. rewrite E in Hr.
  apply Hr. by apply Forall_take, Forall_drop.
Qed.

(** ** Theorems *)

(** C12: [find_bucket] ends and returns the bucket of the scaled position: the first
    or the last bound equal to it, otherwise the first bound above it, or the
    last bucket; every read is inside the array, for each width but 2. *)
Theorem find_bucket_correct dbug fuel h w vs pos p val first : bounds_of h w vs → w ≠ 2 → (256 ≤ fuel)%nat →
  prec_factor dbug h = Some p → trunc 32 (dmul pos (double_of p)) = Some val →
  ∃ r, find_bucket dbug fuel h pos first = Some r ∧ is_bucket w vs val first r ∧
    ∀ r', is_bucket w vs val first r' → r' = r.
Proof.
  intros Hh Hw Hf Hp Hv. unfold find_bucket. rewrite Hp. cbn [mbind option_bind]. rewrite Hv. cbn [mbind option_bind].
  destruct (find_bucket_val_ok dbug fuel h w vs val first Hh Hw Hf) as (r & E & Hr).
  exists r. split_and!; [done|done|]. intros r' Hr'. by eapply is_bucket_unique.
Qed.

(** A histogram of four buckets and the position 0.08. *)
Definition four_buckets : list Z := [10; 20; 20; 40].
Definition pos_0_08 : spec_float := SFdiv 53 1024 (double_of 2) (double_of 25).

Lemma four_buckets_bounds :
  bounds_of (Histogram SINGLE_PREC_HB 4 four_buckets) 4 (λ i, four_buckets !!! Z.to_nat i).
Proof.
  apply (single_bounds four_buckets); [simpl; lia|]. unfold four_buckets.
  intros i j x y Hij Hx Hy. do 4 (destruct i as [|i]; [do 4 (destruct j as [|j]; [simplify_eq/=; lia|]); done|]). done.
Qed.

Lemma find_bucket_correct_witness :
  find_bucket true 256 (Histogram SINGLE_PREC_HB 4 four_buckets) pos_0_08 true = Some 1 ∧
  ∃ r, find_bucket true 256 (Histogram SINGLE_PREC_HB 4 four_buckets) pos_0_08 false = Some r ∧
    is_bucket 4 (λ i, four_buckets !!! Z.to_nat i) 20 false r.
Proof.
  split; [vm_compute; reflexivity|].
  assert (trunc 32 (dmul pos_0_08 (double_of 255)) = Some 20) as Ht by (vm_compute; reflexivity).
  destruct (find_bucket_correct true 256 _ 4 _ pos_0_08 255 20 false four_buckets_bounds ltac:(lia) ltac:(lia) eq_refl Ht)
    as (r & E & Hr & _).
  exists r. split; [exact E|exact Hr].
Defined.

(** With two buckets the first step reads at index 2 when the position is above
    both bounds: the assertion fails, and without it the read is outside. *)
Theorem find_bucket_two_buckets dbug fuel a b val first : b < val → (0 < fuel)%nat →
  find_bucket_val dbug fuel (Histogram SINGLE_PREC_HB 2 [a; b]) val first = None.
Proof.
  intros Hb Hf. destruct fuel as [|f]; [lia|]. unfold find_bucket_val. cbn [mbind option_bind get_width type size].
  change (2 / 2) with 1. cbn [bucket_loop]. change (1 =? 0) with false. cbv iota.
  change (0 + 1) with 1.
  replace (get_value dbug (Histogram SINGLE_PREC_HB 2 [a; b]) 1) with (Some b) by (by destruct dbug).
  cbn [mbind option_bind]. destruct (Z.eqb_spec val b); [lia|]. destruct (Z.ltb_spec val b); [lia|].
  by destruct dbug.
Qed.

Lemma find_bucket_two_buckets_witness :
  find_bucket_val false 1 (Histogram SINGLE_PREC_HB 2 [10; 20]) 30 true = None.
Proof. apply find_bucket_two_buckets; lia. Defined.

(** A value that is set is read back truncated to the precision of the
    histogram; the other values, the type and the size do not change. *)
Theorem histogram_set_get dbug h i pos p v : (type h = SINGLE_PREC_HB ∧ i < size h ∨ type h = DOUBLE_PREC_HB ∧ i * 2 + 2 ≤ size h) →
  size h = Z.of_nat (length (values h)) → bytes (values h) → 0 ≤ i → prec_factor dbug h = Some p →
  trunc (if type h is SINGLE_PREC_HB then 8 else 16) (dmul pos (double_of p)) = Some v →
  ∃ h', set_value dbug h i pos = Some h' ∧ get_value dbug h' i = Some v ∧
    type h' = type h ∧ size h' = size h ∧ length (values h') = length (values h) ∧ bytes (values h').
Proof.
  intros Hi Hsz Hb Hi0 Hp Hv. unfold set_value. rewrite Hp. cbn [mbind option_bind].
  assert (∀ w, trunc w (dmul pos (double_of p)) = Some v → 0 ≤ w → in_u w v) as Hin.
  { intros w. unfold trunc. destruct (dmul pos (double_of p)) as [?|?| |s m e]; try done.
    - intros [= <-] Hw. unfold in_u. pose proof (Z.pow_pos_nonneg 2 w). lia.
    - by case_bool_decide; intros [= <-]. }
  destruct h as [t n l]. simpl in *. destruct Hi as [[-> Hi]|[-> Hi]]; rewrite Hv; cbn [mbind option_bind].
  - rewrite poke_defined by lia. simpl. eexists. split; [done|]. unfold with_values. simpl.
    rewrite get_value_single, list_lookup_insert_eq by (rewrite ?length_insert; lia).
    split_and!; [done..|by rewrite length_insert|]. apply Forall_insert; [done|]. by apply Hin.
  - unfold X86_64.int2store, to_uint16. rewrite wrap_id by by apply Hin.
    destruct (store_le 2 l (Z.to_nat (i * 2)) v) as [l'|] eqn:E.
    2: { unfold store_le in E. by rewrite decide_True in E by lia. }
    simpl. eexists. split; [done|]. unfold with_values. simpl.
    pose proof (store_le_bytes _ _ _ _ _ Hb E) as Hb'.
    apply load_store_le in E as (E & El & _). rewrite get_value_double by (done || lia).
    rewrite E, wrap_id by by apply Hin. by split_and!.
Qed.

Definition half : spec_float := SFdiv 53 1024 (double_of 1) (double_of 2).

Lemma histogram_set_get_witness :
  ∃ h', set_value true (Histogram DOUBLE_PREC_HB 4 [0; 0; 0; 0]) 1 half = Some h' ∧ get_value true h' 1 = Some 32767.
Proof.
  assert (trunc 16 (dmul half (double_of 65535)) = Some 32767) as Ht by (vm_compute; reflexivity).
  assert (bytes [0; 0; 0; 0]) as Hb by (repeat constructor; lia).
  assert (1 * 2 + 2 ≤ 4) as Hle by lia.
  destruct (histogram_set_get true (Histogram DOUBLE_PREC_HB 4 [0; 0; 0; 0]) 1 half 65535 32767
    (or_intror (conj eq_refl Hle)) eq_refl Hb ltac:(lia) eq_refl Ht) as (h' & E & Eg & _).
  exists h'. split; [exact E|exact Eg].
Defined.

(** Feeding the collector the multiplicities of the distinct values gives the
    number of values, of distinct values and of those that occur once. *)
Theorem basic_stats_counts cnts : Forall (λ c, 0 ≤ c) cnts → foldr Z.add 0 cnts + Z.of_nat (length cnts) < 2 ^ 64 →
  let c := foldl stats_next empty_stats cnts in
  count c = foldr Z.add 0 cnts ∧ count_distinct c = Z.of_nat (length cnts) ∧
  count_distinct_single_occurence c = Z.of_nat (length (filter (λ x, x = 1) cnts)).
Proof.
  induction cnts as [|x l IH] using rev_ind; intros Hpos Hmax; [done|].
  apply Forall_app in Hpos as [Hl Hx]. apply Forall_cons in Hx as [Hx _].
  assert (∀ k, foldr Z.add 0 (k ++ [x]) = foldr Z.add 0 k + x) as Es.
  { induction k as [|y k IHk]; simpl; [lia|]. rewrite IHk. lia. }
  assert (0 ≤ foldr Z.add 0 l) as Hs.
  { clear -Hl. induction Hl; simpl; lia. }
  rewrite Es, length_app in Hmax. rewrite Es, length_app. cbn [length] in Hmax |- *. destruct IH as (E1 & E2 & E3); [done|lia|].
  assert (length (filter (λ x : Z, x = 1%Z) l) ≤ length l)%nat as Hf by apply length_filter.
  rewrite foldl_app, filter_app. cbn [foldl].
  set (c := foldl stats_next empty_stats l) in *. unfold stats_next. rewrite E1, E2, E3.
  cbn [count count_distinct count_distinct_single_occurence]. unfold to_ulonglong.
  rewrite (wrap_id 64 (foldr Z.add 0 l + x)), (wrap_id 64 (Z.of_nat (length l) + 1)) by (unfold in_u; lia).
  split_and!; [lia|lia|]. rewrite length_app. destruct (Z.eqb_spec x 1) as [->|]; rewrite filter_cons.
  - rewrite decide_True by done. rewrite wrap_id by (unfold in_u; lia). simpl. lia.
  - rewrite decide_False by done. simpl. lia.
Qed.

Lemma basic_stats_counts_witness : count_distinct_single_occurence (foldl stats_next empty_stats [3; 1; 2; 1]) = 2.
Proof. apply (basic_stats_counts [3; 1; 2; 1]); [repeat constructor; lia|simpl; lia]. Defined.

(** The bitmap for a column without statistics marks exactly the columns after
    the column name, up to the histogram, as NULL; providing one of them clears
    its bit and no other. *)
Theorem column_stat_nulls_bits i k nulls : 0 ≤ i < 31 → 0 ≤ k < 31 → in_u 32 nulls →
  is_null no_values_provided_bitmap i = bool_decide (COLUMN_STAT_COLUMN_NAME < i ≤ COLUMN_STAT_HISTOGRAM) ∧
  is_null (set_not_null nulls k) i = is_null nulls i && negb (i =? k).
Proof.
  intros Hi Hk Hn. assert (∀ x j, 0 ≤ j → is_null x j = Z.testbit x j) as Hbit.
  { intros x j Hj. unfold is_null, truth. apply eq_true_iff_eq. rewrite negb_true_iff, Z.eqb_neq. split.
    - intros Hne. apply not_false_iff_true. intros Hf. apply Hne. apply Z.bits_inj'. intros b Hb.
      rewrite Z.land_spec, Z.bits_0, Z.shiftl_1_l, Z.pow2_bits_eqb by lia.
      destruct (Z.eqb_spec j b) as [<-|]; [by rewrite Hf|apply andb_false_r].
    - intros Ht E. apply (f_equal (λ y, Z.testbit y j)) in E.
      rewrite Z.land_spec, Z.bits_0, Z.shiftl_1_l, Z.pow2_bits_true, Ht in E by lia. done. }
  rewrite !Hbit by lia. split.
  - assert (∀ m, (m < 31)%nat → Z.testbit no_values_provided_bitmap (Z.of_nat m)
      = bool_decide (COLUMN_STAT_COLUMN_NAME < Z.of_nat m ≤ COLUMN_STAT_HISTOGRAM)) as Hall.
    { intros m Hm. do 31 (destruct m as [|m]; [by vm_compute|]). lia. }
    rewrite <- (Z2Nat.id i) by lia. apply Hall. lia.
  - unfold set_not_null, to_uint32. rewrite Z.land_spec, wrap_testbit, Z.lnot_spec, Z.shiftl_1_l, Z.pow2_bits_eqb by lia.
    destruct (Z.ltb_spec i 32); [|lia]. by rewrite (Z.eqb_sym k i).
Qed.

Lemma column_stat_nulls_bits_witness : is_null (set_not_null no_values_provided_bitmap 5) 6 = true.
Proof. by rewrite (proj2 (column_stat_nulls_bits 6 5 no_values_provided_bitmap ltac:(lia) ltac:(lia) ltac:(by vm_compute))). Defined.
