(* ===== verification/WindowFunc.v ===== *)
(** [item_windowfunc.h]: the window functions whose computation is in the header
    ([ROW_NUMBER], [NTILE], [CUME_DIST], the value of [PERCENT_RANK],
    [PERCENTILE_DISC], [PERCENTILE_CONT]), the tracker of group bounds, and
    [Item_window_func] with its classification of functions and its three
    phases.  A function sees the rows of a partition one by one: [clear], then
    for each row [add] and a [val] function.  Each function is a module; its
    state is a record, an error is a value. *)
From S2P Require Import Prelude CDouble.

Inductive error := ER_ARGUMENT_OUT_OF_RANGE | ER_ARGUMENT_NOT_CONSTANT | ER_INVALID_NTILE_ARGUMENT.

(** [Partition_row_count]: the value, and whether it is NULL. *)
Definition calc_val_real (partition_row_count current_row_count : Z) : spec_float * bool :=
  if partition_row_count =? 0 then (dzero, true)
  else (ddiv (double_of current_row_count) (double_of partition_row_count), false).

Definition get_row_count (partition_row_count : Z) : Z := to_longlong partition_row_count.

(** ** [Group_bound_tracker] *)

(** [changed] is the result of [test_if_group_changed], the index of the first
    field that changed or -1.  Returns the answer and the flag. *)
Definition check_if_next_group (changed : Z) (first_check : bool) : bool * bool :=
  if (-1 <? changed) || first_check then (true, false) else (false, first_check).

(** [compare_with_cache]; the list holds the results of [cmp_read_only]. *)
Fixpoint compare_with_cache (cmps : list Z) : Z :=
  match cmps with [] => 0 | r :: cmps => if truth r then r else compare_with_cache cmps end.

(** ** [Item_sum_row_number] *)
Module RowNumber.
Definition clear : Z := 0.
Definition add (count : Z) : Z := to_longlong (count + 1).
Definition val_int (count : Z) : Z := count.
End RowNumber.

(** ** [Item_sum_percent_rank]: the value and whether it is NULL *)
Definition percent_rank_val_real (partition_row_count cur_rank : Z) : spec_float * bool :=
  let partition_rows := to_ulonglong (get_row_count partition_row_count) in
  (if 1 <? partition_rows
   then ddiv (double_of (to_longlong (cur_rank - 1))) (double_of (to_ulonglong (partition_rows - 1)))
   else dzero, negb (0 <? partition_rows)).

(** ** [Item_sum_cume_dist] *)
Module CumeDist.
Record cume_dist := CD { current_row_count_ : Z; partition_row_count_ : Z; null_value : bool }.
Definition clear (s : cume_dist) : cume_dist := CD 0 0 (null_value s).
Definition add (s : cume_dist) : cume_dist :=
  CD (to_ulonglong (current_row_count_ s + 1)) (partition_row_count_ s) (null_value s).
Definition set_partition_row_count (count : Z) (s : cume_dist) : cume_dist :=
  CD (current_row_count_ s) count (null_value s).
Definition val_real (s : cume_dist) : spec_float * cume_dist :=
  let '(v, n) := calc_val_real (partition_row_count_ s) (current_row_count_ s) in
  (v, CD (current_row_count_ s) (partition_row_count_ s) n).
End CumeDist.

(** ** [Item_sum_ntile] *)
Module Ntile.
Record ntile := NT { current_row_count_ : Z; partition_row_count_ : Z; n_old_val_ : Z; null_value : bool }.

Definition clear (s : ntile) : ntile := NT 0 0 0 (null_value s).
Definition add (s : ntile) : ntile :=
  NT (to_ulonglong (current_row_count_ s + 1)) (partition_row_count_ s) (n_old_val_ s) (null_value s).
Definition set_partition_row_count (count : Z) (s : ntile) : ntile :=
  NT (current_row_count_ s) count (n_old_val_ s) (null_value s).

(** [num_quantiles] is the value of the argument.  [None] is a division by 0;
    an error is reported with the value [true], that is 1. *)
Definition val_int (num_quantiles : Z) (s : ntile) : option (Z * option error * ntile) :=
  let rows := get_row_count (partition_row_count_ s) in
  if rows =? 0 then
    Some (0, None, NT (current_row_count_ s) (partition_row_count_ s) (n_old_val_ s) true)
  else if (num_quantiles <=? 0) || (negb (to_ulonglong num_quantiles =? n_old_val_ s) && (0 <? n_old_val_ s))
  then Some (1, Some ER_INVALID_NTILE_ARGUMENT, s)
  else
    let s := NT (current_row_count_ s) (partition_row_count_ s) (to_ulonglong num_quantiles) false in
    let quantile_size := to_ulonglong (rows `quot` num_quantiles) in
    let extra_rows := to_ulonglong (rows - to_ulonglong (quantile_size * num_quantiles)) in
    let cur := current_row_count_ s in
    if cur <=? to_ulonglong (extra_rows * to_ulonglong (quantile_size + 1)) then
      if to_ulonglong (quantile_size + 1) =? 0 then None else
      Some (to_longlong (to_ulonglong (cur - 1) / to_ulonglong (quantile_size + 1) + 1), None, s)
    else
      if quantile_size =? 0 then None else
      Some (to_longlong (to_ulonglong (cur - 1 - extra_rows) / quantile_size + 1), None, s).
End Ntile.

(** ** The percentile functions *)

(** A row: the value of the fraction argument and of the ORDER BY expression,
    [None] for NULL. *)
Record row (V : Type) := Row { arg : option spec_float; order_item : option V }.
Arguments Row {_}. Arguments arg {_}. Arguments order_item {_}.

Module PercentileDisc.
Record disc (V : Type) := Disc {
  value : option V; val_calculated : bool; first_call : bool; prev_value : spec_float;
  partition_row_count_ : Z; current_row_count_ : Z; null_value : bool }.
Arguments Disc {_}. Arguments value {_}. Arguments val_calculated {_}. Arguments first_call {_}.
Arguments prev_value {_}. Arguments partition_row_count_ {_}. Arguments current_row_count_ {_}.
Arguments null_value {_}.

Section Operations.
Context {V : Type}.

Definition clear (s : disc V) : disc V := Disc None false true (prev_value s) 0 0 (null_value s).
Definition set_partition_row_count (count : Z) (s : disc V) : disc V :=
  Disc (value s) (val_calculated s) (first_call s) (prev_value s) count (current_row_count_ s) (null_value s).

(** Returns the error, if any, and the new state. *)
Definition add (r : row V) (s : disc V) : option error * disc V :=
  match arg r with
  | None => (None, s)
  | Some arg_val =>
      let check : option error * disc V :=
        if first_call s then
          let s := Disc (value s) (val_calculated s) true arg_val (partition_row_count_ s) (current_row_count_ s) (null_value s) in
          if dlt dunit arg_val || dlt arg_val dzero then (Some ER_ARGUMENT_OUT_OF_RANGE, s)
          else (None, Disc (value s) (val_calculated s) false arg_val (partition_row_count_ s) (current_row_count_ s) (null_value s))
        else (None, s) in
      match check with
      | (Some e, s) => (Some e, s)
      | (None, s) =>
          if negb (deq (prev_value s) arg_val) then (Some ER_ARGUMENT_NOT_CONSTANT, s) else
          if val_calculated s then (None, s) else
          let s := Disc (order_item r) (val_calculated s) (first_call s) (prev_value s) (partition_row_count_ s) (current_row_count_ s) (null_value s) in
          match value s with
          | None => (None, s)
          | Some _ =>
              let cur := to_ulonglong (current_row_count_ s + 1) in
              let '(val, n) := calc_val_real (partition_row_count_ s) cur in
              (None, Disc (value s) (if dle (prev_value s) val && negb (val_calculated s) then true else val_calculated s)
                          (first_call s) (prev_value s) (partition_row_count_ s) cur n)
          end
      end
  end.

(** [val_int], [val_real] and the other accessors: NULL or the cached value. *)
Definition val (arg_is_null : bool) (s : disc V) : option V * disc V :=
  let null := (get_row_count (partition_row_count_ s) =? 0) || arg_is_null in
  (if null then None else value s,
   Disc (value s) (val_calculated s) (first_call s) (prev_value s) (partition_row_count_ s) (current_row_count_ s) null).
End Operations.
End PercentileDisc.

Module PercentileCont.
Record cont := Cont {
  floor_value : option spec_float; ceil_value : option spec_float; first_call : bool; prev_value : spec_float;
  ceil_val_calculated : bool; floor_val_calculated : bool;
  partition_row_count_ : Z; current_row_count_ : Z; null_value : bool }.

Definition clear (s : cont) : cont := Cont None None true (prev_value s) false false 0 0 (null_value s).
Definition set_partition_row_count (count : Z) (s : cont) : cont :=
  Cont (floor_value s) (ceil_value s) (first_call s) (prev_value s) (ceil_val_calculated s) (floor_val_calculated s)
       count (current_row_count_ s) (null_value s).

(** The row number [1 + prev_value * (get_row_count() - 1)]. *)
Definition row_position (s : cont) : spec_float :=
  dadd dunit (dmul (prev_value s) (double_of (to_longlong (get_row_count (partition_row_count_ s) - 1)))).

(** The checks on the fraction; the flag is cleared before the range check. *)
Definition check_fraction (arg_val : spec_float) (s : cont) : option error * cont :=
  if first_call s then
    let s := Cont (floor_value s) (ceil_value s) false arg_val (ceil_val_calculated s) (floor_val_calculated s)
                  (partition_row_count_ s) (current_row_count_ s) (null_value s) in
    if dlt dunit arg_val || dlt arg_val dzero then (Some ER_ARGUMENT_OUT_OF_RANGE, s) else (None, s)
  else (None, s).

(** [null_value] of a cache. *)
Definition is_none (v : option spec_float) : bool := if v is Some _ then false else true.

(** The caches are filled; [true] says that the row is skipped as NULL. *)
Definition store_values (v : option spec_float) (s : cont) : bool * cont :=
  let '(skip, s) :=
    if negb (floor_val_calculated s) then
      (is_none v,
       Cont v (ceil_value s) (first_call s) (prev_value s) (ceil_val_calculated s) (floor_val_calculated s)
            (partition_row_count_ s) (current_row_count_ s) (null_value s))
    else (false, s) in
  if skip : bool then (true, s) else
  if floor_val_calculated s && negb (ceil_val_calculated s) then
    (is_none v,
     Cont (floor_value s) v (first_call s) (prev_value s) (ceil_val_calculated s) (floor_val_calculated s)
          (partition_row_count_ s) (current_row_count_ s) (null_value s))
  else (false, s).

Definition add (r : row spec_float) (s : cont) : option error * cont :=
  match arg r with
  | None => (None, s)
  | Some arg_val =>
      match check_fraction arg_val s with
      | (Some e, s) => (Some e, s)
      | (None, s) =>
          if negb (deq (prev_value s) arg_val) then (Some ER_ARGUMENT_NOT_CONSTANT, s) else
          let '(skip, s) := store_values (order_item r) s in
          if skip : bool then (None, s) else
          let cur := to_ulonglong (current_row_count_ s + 1) in
          let val := row_position s in
          let floor_c := floor_val_calculated s || deq (double_of cur) (dfloor val) in
          let ceil_c := ceil_val_calculated s || deq (double_of cur) (dceil val) in
          (None, Cont (floor_value s) (ceil_value s) (first_call s) (prev_value s) ceil_c floor_c
                      (partition_row_count_ s) cur (null_value s))
      end
  end.

(** The value of a cache that holds NULL is 0. *)
Definition cached (v : option spec_float) : spec_float := default dzero v.

Definition val_real (arg_is_null : bool) (s : cont) : spec_float * cont :=
  let null := (get_row_count (partition_row_count_ s) =? 0) || arg_is_null in
  let s := Cont (floor_value s) (ceil_value s) (first_call s) (prev_value s) (ceil_val_calculated s) (floor_val_calculated s)
                (partition_row_count_ s) (current_row_count_ s) null in
  if null then (dzero, s) else
  let val := row_position s in
  if deq (dceil val) (dfloor val) then (cached (floor_value s), s) else
  (dadd (dmul (dsub val (dfloor val)) (cached (ceil_value s)))
        (dmul (dsub (dceil val) val) (cached (floor_value s))), s).
End PercentileCont.

(** ** [Item_window_func] *)

Inductive Sumfunctype :=
  | COUNT_FUNC | COUNT_DISTINCT_FUNC | SUM_FUNC | SUM_DISTINCT_FUNC | AVG_FUNC
  | AVG_DISTINCT_FUNC | MIN_FUNC | MAX_FUNC | STD_FUNC
  | VARIANCE_FUNC | SUM_BIT_FUNC | UDF_SUM_FUNC | GROUP_CONCAT_FUNC
  | ROW_NUMBER_FUNC | RANK_FUNC | DENSE_RANK_FUNC | PERCENT_RANK_FUNC
  | CUME_DIST_FUNC | NTILE_FUNC | FIRST_VALUE_FUNC | LAST_VALUE_FUNC
  | NTH_VALUE_FUNC | LEAD_FUNC | LAG_FUNC | PERCENTILE_CONT_FUNC
  | PERCENTILE_DISC_FUNC | SP_AGGREGATE_FUNC | JSON_ARRAYAGG_FUNC
  | JSON_OBJECTAGG_FUNC.

Definition is_frame_prohibited (f : Sumfunctype) : bool :=
  match f with
  | ROW_NUMBER_FUNC | RANK_FUNC | DENSE_RANK_FUNC | PERCENT_RANK_FUNC | CUME_DIST_FUNC | NTILE_FUNC
  | PERCENTILE_CONT_FUNC | PERCENTILE_DISC_FUNC => true
  | _ => false
  end.
Definition requires_special_cursors (f : Sumfunctype) : bool :=
  match f with
  | FIRST_VALUE_FUNC | LAST_VALUE_FUNC | NTH_VALUE_FUNC | LAG_FUNC | LEAD_FUNC => true
  | _ => false
  end.
Definition requires_partition_size (f : Sumfunctype) : bool :=
  match f with
  | PERCENT_RANK_FUNC | CUME_DIST_FUNC | NTILE_FUNC | PERCENTILE_CONT_FUNC | PERCENTILE_DISC_FUNC => true
  | _ => false
  end.
Definition requires_peer_size (f : Sumfunctype) : bool :=
  match f with CUME_DIST_FUNC => true | _ => false end.
Definition is_order_list_mandatory (f : Sumfunctype) : bool :=
  match f with
  | RANK_FUNC | DENSE_RANK_FUNC | PERCENT_RANK_FUNC | CUME_DIST_FUNC | LAG_FUNC | LEAD_FUNC
  | PERCENTILE_CONT_FUNC | PERCENTILE_DISC_FUNC => true
  | _ => false
  end.
Definition only_single_element_order_list (f : Sumfunctype) : bool :=
  match f with PERCENTILE_CONT_FUNC | PERCENTILE_DISC_FUNC => true | _ => false end.

(** The two flags that encode the phase. *)
Record window_item := WI { force_return_blank : bool; read_value_from_result_field : bool }.

Definition set_phase_to_initial (_ : window_item) : window_item := WI true false.
Definition set_phase_to_computation (_ : window_item) : window_item := WI false false.
Definition set_phase_to_retrieval (_ : window_item) : window_item := WI false true.

(** A source of values, the window function or the result field: the value
    it returns and whether it is NULL. *)
Definition source (A : Type) : Type := A * bool.

Definition wf_is_null (w : window_item) (field_null func_null : bool) : bool :=
  if force_return_blank w then true else
  if read_value_from_result_field w then field_null else func_null.

(** [val_real] and [val_int]: the value and [null_value]. *)
Definition wf_val_real (w : window_item) (field func : source spec_float) : spec_float * bool :=
  if force_return_blank w then (dzero, true) else
  if read_value_from_result_field w then field else func.
Definition wf_val_int (w : window_item) (field func : source Z) : Z * bool :=
  if force_return_blank w then (0, true) else
  if read_value_from_result_field w then field else func.

(** [val_str] and [val_decimal]: a null pointer when the field is NULL. *)
Definition wf_val_str {A} (w : window_item) (field : source A) (func : source (option A)) : option A * bool :=
  if force_return_blank w then (None, true) else
  if read_value_from_result_field w
  then (if field.2 then (None, true) else (Some field.1, false)) else func.
(** [get_date]: [true] for NULL; the field may fail too. *)
Definition wf_get_date (w : window_item) (field func : source bool) : bool * bool :=
  if force_return_blank w then (true, true) else
  if read_value_from_result_field w then (if field.2 then true else field.1, field.2) else func.

(** ** Specification of [NTILE] *)

(** The number of rows before tile [k] when [n] rows go to [q] tiles: the first
    [n mod q] tiles have one row more than the others. *)
Definition tile_start (n q k : Z) : Z := (k - 1) * (n / q) + Z.min (k - 1) (n mod q).
Definition tile_size (n q k : Z) : Z := n / q + (if k <=? n mod q then 1 else 0).

Definition is_tile (n q r t : Z) : Prop := 1 ≤ t ≤ q ∧ tile_start n q t < r ≤ tile_start n q (t + 1).

Lemma tile_start_step n q k : 1 ≤ k → tile_start n q (k + 1) = tile_start n q k + tile_size n q k.
Proof. intros Hk. unfold tile_start, tile_size. destruct (Z.leb_spec k (n mod q)); lia. Qed.

Lemma tile_start_mono n q k l : 0 ≤ n → 0 < q → 1 ≤ k → k ≤ l → tile_start n q k ≤ tile_start n q l.
Proof.
  intros Hn Hq Hk Hl. unfold tile_start. pose proof (Z.div_pos n q Hn Hq). nia.
Qed.

(** The tile of a row is unique, and tiles grow with the row. *)
Lemma is_tile_mono n q r r' t t' : 0 ≤ n → 0 < q → is_tile n q r t → is_tile n q r' t' → r ≤ r' → t ≤ t'.
Proof.
  intros Hn Hq [Ht Hr] [Ht' Hr'] Hle. destruct (decide (t ≤ t')) as [|Hgt]; [done|].
  pose proof (tile_start_mono n q (t' + 1) t Hn Hq). lia.
Qed.

(** The arithmetic of [val_int]: [a] rows per tile, the first [b] one more. *)
Lemma ntile_arith n q r a b : 0 < q → a = n / q → b = n mod q → 0 < r ≤ n →
  (r ≤ b * (a + 1) → is_tile n q r ((r - 1) / (a + 1) + 1)) ∧
  (b * (a + 1) < r → 0 < a ∧ is_tile n q r ((r - 1 - b) / a + 1)).
Proof.
  intros Hq Ea Eb Hr. pose proof (Z.div_mod n q ltac:(lia)) as En. pose proof (Z.mod_pos_bound n q Hq) as Hb.
  assert (0 ≤ a) as Ha by (subst a; apply Z.div_pos; lia).
  unfold is_tile, tile_start. rewrite <- Ea, <- Eb in *. split.
  - intros Hle. pose proof (Z.div_mod (r - 1) (a + 1) ltac:(lia)) as Ed.
    pose proof (Z.mod_pos_bound (r - 1) (a + 1) ltac:(lia)) as Hm. set (d := (r - 1) / (a + 1)) in *.
    assert (0 ≤ d) by (apply Z.div_pos; lia). assert (d < b) by nia.
    rewrite !Z.min_l by lia. split; [lia|]. nia.
  - intros Hlt. assert (0 < a) as Ha0 by nia. split; [done|].
    pose proof (Z.div_mod (r - 1 - b) a ltac:(lia)) as Ed.
    pose proof (Z.mod_pos_bound (r - 1 - b) a Ha0) as Hm. set (d := (r - 1 - b) / a) in *.
    assert (b ≤ d) by nia. assert (d < q) by nia.
    rewrite !Z.min_r by lia. split; [lia|]. nia.
Qed.

Section NtileRun.
Context (n q : Z) (Hn : 0 < n < 2 ^ 63) (Hq : 0 < q < 2 ^ 63).

Lemma ntile_val_ok r old nv : 0 < r ≤ n → old = 0 ∨ old = q →
  ∃ t, Ntile.val_int q (Ntile.NT r n old nv) = Some (t, None, Ntile.NT r n q false) ∧ is_tile n q r t.
Proof.
  intros Hr Hold. unfold Ntile.val_int, get_row_count. cbn [Ntile.partition_row_count_ Ntile.n_old_val_ Ntile.current_row_count_].
  assert (to_longlong n = n) as -> by (apply swrap_id; unfold in_s; lia).
  assert (to_ulonglong q = q) as Eq by (apply wrap_id; unfold in_u; lia). rewrite Eq.
  destruct (Z.eqb_spec n 0); [lia|]. destruct (Z.leb_spec q 0); [lia|]. cbn [orb].
  replace (negb (q =? old) && (0 <? old)) with false
    by (destruct Hold as [->| ->]; [by rewrite andb_false_r|by rewrite Z.eqb_refl]).
  pose proof (Z.div_mod n q ltac:(lia)) as En. pose proof (Z.mod_pos_bound n q ltac:(lia)) as Hb.
  assert (0 ≤ n / q) as Ha by (apply Z.div_pos; lia).
  destruct (ntile_arith n q r (n / q) (n mod q) ltac:(lia) eq_refl eq_refl Hr) as [H1 H2].
  set (a := n / q) in *. set (b := n mod q) in *. cbv zeta. rewrite Z.quot_div_nonneg by lia. fold a.
  assert (∀ x, 0 ≤ x ≤ 2 ^ 63 → to_ulonglong x = x) as Hw by (intros x Hx; apply wrap_id; unfold in_u; lia).
  assert (a * q ≤ n) by nia. assert (a ≤ n) by nia. assert (b * (a + 1) ≤ n) by nia. 
  rewrite (Hw a), (Hw (a * q)), (Hw (a + 1)) by lia. replace (n - a * q) with b by lia. rewrite (Hw b), (Hw (b * (a + 1))) by nia.
  assert (∀ x, 0 ≤ x < n → to_longlong (x + 1) = x + 1) as Hs by (intros x Hx; apply swrap_id; unfold in_s; lia).
  destruct (Z.leb_spec r (b * (a + 1))) as [Hle|Hgt].
  - destruct (Z.eqb_spec (a + 1) 0); [lia|]. rewrite (Hw (r - 1)) by lia. rewrite Hs.
    + eexists. split; [done|]. by apply H1.
    + split; [apply Z.div_pos; lia|]. apply Z.div_lt_upper_bound; nia.
  - destruct (H2 Hgt) as [Ha0 Ht]. destruct (Z.eqb_spec a 0); [lia|]. rewrite (Hw (r - 1 - b)) by nia. rewrite Hs.
    + eexists. split; [done|]. done.
    + split; [apply Z.div_pos; nia|]. apply Z.div_lt_upper_bound; nia.
Qed.

(** The rows of a partition: for each one [add] and [val_int]; an error ends
    the query. *)
Fixpoint ntile_rows (k : nat) (s : Ntile.ntile) : option (list Z * Ntile.ntile) :=
  match k with
  | O => Some ([], s)
  | S k =>
      '(t, e, s) ← Ntile.val_int q (Ntile.add s);
      if e is Some _ then None else
      '(ts, s) ← ntile_rows k s;
      Some (t :: ts, s)
  end.

Lemma ntile_rows_ok k r old nv : 0 ≤ r → r + Z.of_nat k ≤ n → old = 0 ∨ old = q →
  ∃ ts s', ntile_rows k (Ntile.NT r n old nv) = Some (ts, s') ∧ length ts = k ∧
    ∀ i t, ts !! i = Some t → is_tile n q (r + 1 + Z.of_nat i) t.
Proof.
  revert r old nv. induction k as [|k IH]; intros r old nv Hr Hk Hold; cbn [ntile_rows].
  { eexists [], _. split_and!; [done..|]. intros i t. by rewrite lookup_nil. }
  unfold Ntile.add. cbn [Ntile.current_row_count_ Ntile.partition_row_count_ Ntile.n_old_val_ Ntile.null_value].
  assert (to_ulonglong (r + 1) = r + 1) as -> by (apply wrap_id; unfold in_u; lia).
  destruct (ntile_val_ok (r + 1) old nv) as (t & E & Ht); [lia|done|]. rewrite E. cbn [mbind option_bind].
  destruct (IH (r + 1) q false) as (ts & s' & E' & Hl & Hts); [lia|lia|by right|]. rewrite E'. cbn [mbind option_bind].
  exists (t :: ts), s'. split_and!; [done|simpl; lia|]. intros [|i] u Hu; simpl in Hu.
  - injection Hu as <-. by rewrite Z.add_0_r.
  - apply Hts in Hu. replace (r + 1 + Z.of_nat (S i)) with (r + 1 + 1 + Z.of_nat i) by lia. done.
Qed.
End NtileRun.

(** C38: Over a partition of [n] rows, [NTILE(q)] gives row [r] the tile [t] such
    that [r] is in the range of [t]; tiles start at 1, end at [q] (with [n] rows
    in all), tile [k] has [n/q] rows, one more when it is among the first
    [n mod q], and tiles never decrease. *)
Theorem ntile_distribution n q s : 0 < n < 2 ^ 63 → 0 < q < 2 ^ 63 →
  ∃ ts s', ntile_rows q (Z.to_nat n) (Ntile.set_partition_row_count n (Ntile.clear s)) = Some (ts, s') ∧
    Z.of_nat (length ts) = n ∧
    (∀ i t, ts !! i = Some t → is_tile n q (Z.of_nat i + 1) t) ∧
    (∀ i j t u, ts !! i = Some t → ts !! j = Some u → (i ≤ j)%nat → t ≤ u) ∧
    tile_start n q 1 = 0 ∧ tile_start n q (q + 1) = n ∧
    (∀ k, 1 ≤ k → tile_start n q (k + 1) - tile_start n q k = n / q + (if k <=? n mod q then 1 else 0)).
Proof.
  intros Hn Hq. unfold Ntile.set_partition_row_count, Ntile.clear. cbn [Ntile.current_row_count_ Ntile.n_old_val_ Ntile.null_value].
  destruct (ntile_rows_ok n q Hn Hq (Z.to_nat n) 0 0 (Ntile.null_value s)) as (ts & s' & E & Hl & Hts); [lia|lia|by left|].
  exists ts, s'. pose proof (Z.div_mod n q ltac:(lia)) as En. pose proof (Z.mod_pos_bound n q ltac:(lia)) as Hb.
  assert (∀ i t, ts !! i = Some t → is_tile n q (Z.of_nat i + 1) t) as Htile.
  { intros i t Hi. apply Hts in Hi. by replace (Z.of_nat i + 1) with (0 + 1 + Z.of_nat i) by lia. }
  split_and!; [done|lia|done| | | |].
  - intros i j t u Hi Hj Hij. eapply (is_tile_mono n q); [lia|lia|by apply Htile|by apply Htile|lia].
  - unfold tile_start. lia.
  - unfold tile_start. lia.
  - intros k Hk. rewrite tile_start_step by done. unfold tile_size. lia.
Qed.

Lemma ntile_distribution_witness :
  (∃ s', ntile_rows 3 7 (Ntile.set_partition_row_count 7 (Ntile.clear (Ntile.NT 5 9 2 true))) = Some ([1; 1; 1; 2; 2; 3; 3], s')) ∧
  tile_start 7 3 4 = 7.
Proof.
  split; [by eexists|].
  destruct (ntile_distribution 7 3 (Ntile.NT 5 9 2 true)) as (ts & s' & _ & _ & _ & _ & _ & E & _); [lia..|exact E].
Defined.

(** [NTILE] reports an error for a number of tiles that is not positive or that
    changes within the partition, and is NULL on an empty partition. *)
Theorem ntile_errors r n old nv q : 0 < n < 2 ^ 63 → - 2 ^ 63 ≤ q < 2 ^ 63 →
  q ≤ 0 ∨ 0 < old ∧ to_ulonglong q ≠ old →
  Ntile.val_int q (Ntile.NT r n old nv) = Some (1, Some ER_INVALID_NTILE_ARGUMENT, Ntile.NT r n old nv) ∧
  Ntile.val_int q (Ntile.NT r 0 old nv) = Some (0, None, Ntile.NT r 0 old true).
Proof.
  intros Hn Hq Hbad. split; [|done]. unfold Ntile.val_int, get_row_count. cbn [Ntile.partition_row_count_ Ntile.n_old_val_].
  assert (to_longlong n = n) as -> by (apply swrap_id; unfold in_s; lia).
  destruct (Z.eqb_spec n 0); [lia|]. destruct (Z.leb_spec q 0); [done|]. cbn [orb].
  destruct Hbad as [|[Ho Hne]]; [lia|]. apply Z.eqb_neq in Hne. rewrite Hne.
  by destruct (Z.ltb_spec 0 old); [|lia].
Qed.

Lemma ntile_errors_witness :
  Ntile.val_int 4 (Ntile.NT 2 7 3 false) = Some (1, Some ER_INVALID_NTILE_ARGUMENT, Ntile.NT 2 7 3 false).
Proof. apply (ntile_errors 2 7 3 false 4); [lia|lia|by right]. Defined.

(** ** The percentile functions over a partition *)

(** The rows one by one, up to the first error. *)
Fixpoint disc_rows {V} (rs : list (row V)) (s : PercentileDisc.disc V) : option error * PercentileDisc.disc V :=
  match rs with
  | [] => (None, s)
  | r :: rs => match PercentileDisc.add r s with (Some e, s) => (Some e, s) | (None, s) => disc_rows rs s end
  end.

Fixpoint cont_rows (rs : list (row spec_float)) (s : PercentileCont.cont) : option error * PercentileCont.cont :=
  match rs with
  | [] => (None, s)
  | r :: rs => match PercentileCont.add r s with (Some e, s) => (Some e, s) | (None, s) => cont_rows rs s end
  end.

Lemma disc_rows_app {V} rs rs' (s s1 : PercentileDisc.disc V) :
  disc_rows rs s = (None, s1) → disc_rows (rs ++ rs') s = disc_rows rs' s1.
Proof.
  revert s. induction rs as [|r rs IH]; intros s; simpl; [by intros [= ->]|].
  destruct (PercentileDisc.add r s) as [[e|] s2]; [done|apply IH].
Qed.

Lemma cont_rows_app rs rs' s s1 : cont_rows rs s = (None, s1) → cont_rows (rs ++ rs') s = cont_rows rs' s1.
Proof.
  revert s. induction rs as [|r rs IH]; intros s; simpl; [by intros [= ->]|].
  destruct (PercentileCont.add r s) as [[e|] s2]; [done|apply IH].
Qed.

(** A fraction that passes the checks: a number between 0 and 1. *)
Definition is_fraction (p : spec_float) : Prop :=
  dlt dunit p = false ∧ dlt p dzero = false ∧ deq p p = true.

(** The rows with the fraction [p] and the sort keys [vs]. *)
Definition rows_of {V} (p : spec_float) (vs : list V) : list (row V) := (λ v, Row (Some p) (Some v)) <$> vs.

(** The part [k/n] of the partition, as a double. *)
Definition part (n k : Z) : spec_float := ddiv (double_of k) (double_of n).

Section Disc.
Context {V : Type} (p : spec_float) (Hp : is_fraction p) (n : Z) (Hn : 0 < n < 2 ^ 63).
Import PercentileDisc.

(** States before and after the value is found. *)
Definition disc_state (v : option V) (calc fc : bool) (pv : spec_float) (k : Z) (nv : bool) : disc V :=
  Disc v calc fc pv n k nv.

Lemma disc_add_step v0 fc pv k nv v : fc = true ∨ pv = p → 0 ≤ k < n →
  add (Row (Some p) (Some v)) (disc_state v0 false fc pv k nv)
  = (None, disc_state (Some v) (dle p (part n (k + 1))) false p (k + 1) false).
Proof.
  intros Hfc Hk. destruct Hp as (H1 & H2 & H3). unfold add, disc_state. cbn [arg order_item first_call].
  assert (to_ulonglong (k + 1) = k + 1) as Ek by (apply wrap_id; unfold in_u; lia).
  assert (calc_val_real n (k + 1) = (part n (k + 1), false)) as Ec.
  { unfold calc_val_real. destruct (Z.eqb_spec n 0); [lia|done]. }
  destruct fc; [|destruct Hfc as [Hc| ->]; [done|]]; cbn; rewrite ?H1, ?H2; cbn; rewrite H3; cbn;
    rewrite Ek, Ec, andb_true_r; by destruct (dle p (part n (k + 1))).
Qed.

Lemma disc_add_done v k nv v' : add (Row (Some p) (Some v')) (disc_state (Some v) true false p k nv)
  = (None, disc_state (Some v) true false p k nv).
Proof. destruct Hp as (H1 & H2 & H3). unfold add. cbn. by rewrite H3. Qed.

Lemma disc_rows_done v k nv vs :
  disc_rows (rows_of p vs) (disc_state (Some v) true false p k nv) = (None, disc_state (Some v) true false p k nv).
Proof. induction vs as [|v' vs IH]; [done|]. cbn [rows_of fmap list_fmap disc_rows]. by rewrite disc_add_done. Qed.

(** The rows before the one that reaches the fraction. *)
Lemma disc_rows_before vs v0 fc pv k nv : fc = true ∨ pv = p → 0 ≤ k → k + Z.of_nat (length vs) < n →
  (∀ j, k < j ≤ k + Z.of_nat (length vs) → dle p (part n j) = false) →
  ∃ v1 fc1 pv1 nv1, disc_rows (rows_of p vs) (disc_state v0 false fc pv k nv)
    = (None, disc_state v1 false fc1 pv1 (k + Z.of_nat (length vs)) nv1) ∧ (fc1 = true ∨ pv1 = p).
Proof.
  revert v0 fc pv k nv. induction vs as [|v vs IH]; intros v0 fc pv k nv Hfc Hk Hl Hb.
  { exists v0, fc, pv, nv. rewrite Z.add_0_r. done. }
  cbn [rows_of fmap list_fmap disc_rows]. rewrite disc_add_step by (done || (simpl in Hl; lia)).
  rewrite Hb by (simpl; lia). cbn [length] in *.
  destruct (IH (Some v) false p (k + 1) false) as (v1 & fc1 & pv1 & nv1 & E & H1);
    [by right|lia|lia|intros j Hj; apply Hb; lia|].
  exists v1, fc1, pv1, nv1. split; [|done]. fold (rows_of p vs). rewrite E. do 2 f_equal. lia.
Qed.
End Disc.

(** [PERCENTILE_DISC(p)] over a partition of [n] rows without NULLs returns the
    sort key of the first row [k] with [k/n >= p] (as doubles), whatever rows
    follow. *)
Theorem percentile_disc_selects {V} p n (pre post : list V) v s : is_fraction p → 0 < n < 2 ^ 63 →
  Z.of_nat (length pre) < n →
  (∀ k, 0 < k ≤ Z.of_nat (length pre) → dle p (part n k) = false) →
  dle p (part n (Z.of_nat (length pre) + 1)) = true →
  ∃ s', disc_rows (rows_of p (pre ++ v :: post))
          (PercentileDisc.set_partition_row_count n (PercentileDisc.clear s)) = (None, s') ∧
    (PercentileDisc.val false s').1 = Some v ∧ PercentileDisc.val_calculated s' = true.
Proof.
  intros Hp Hn Hl Hb Hd. unfold PercentileDisc.set_partition_row_count, PercentileDisc.clear.
  cbn [PercentileDisc.value PercentileDisc.val_calculated PercentileDisc.first_call PercentileDisc.prev_value
       PercentileDisc.current_row_count_ PercentileDisc.null_value].
  destruct (disc_rows_before p Hp n Hn pre None true (PercentileDisc.prev_value s) 0 (PercentileDisc.null_value s))
    as (v1 & fc1 & pv1 & nv1 & E & Hfc); [by left|lia|lia|intros j Hj; apply Hb; lia|].
  exists (disc_state n (Some v) true false p (Z.of_nat (length pre) + 1) false). split_and!; [| |done].
  - unfold rows_of. rewrite fmap_app. fold (rows_of p pre).
    erewrite disc_rows_app by exact E. cbn [fmap list_fmap disc_rows].
    rewrite (disc_add_step p Hp n Hn) by (done || lia). rewrite Z.add_0_l, Hd. by apply disc_rows_done.
  - unfold PercentileDisc.val, get_row_count, disc_state. cbn [fst PercentileDisc.partition_row_count_ PercentileDisc.value].
    assert (to_longlong n = n) as -> by (apply swrap_id; unfold in_s; lia). by destruct (Z.eqb_spec n 0); [lia|].
Qed.

(** The fraction 1/2. *)
Definition p_half : spec_float := ddiv (double_of 1) (double_of 2).

Lemma p_half_fraction : is_fraction p_half.
Proof. split_and!; vm_compute; reflexivity. Qed.

Lemma percentile_disc_selects_witness :
  ∃ s', disc_rows (rows_of p_half [10; 20; 30; 40; 50])
          (PercentileDisc.set_partition_row_count 5 (PercentileDisc.clear (PercentileDisc.Disc None true false dzero 9 9 true)))
        = (None, s') ∧ (PercentileDisc.val false s').1 = Some 30.
Proof.
  destruct (percentile_disc_selects p_half 5 [10; 20] [40; 50] 30 (PercentileDisc.Disc None true false dzero 9 9 true)
    p_half_fraction) as (s' & E & Ev & _); [lia|simpl; lia| |vm_compute; reflexivity|].
  - intros k Hk. simpl in Hk. assert (k = 1 ∨ k = 2) as [-> | ->] by lia; vm_compute; reflexivity.
  - exists s'. split; [exact E|exact Ev].
Defined.

(** A NULL fraction skips the row, a fraction outside 0..1 and one that differs
    from the first are errors that leave the value alone. *)
Theorem percentile_disc_errors {V} (s : PercentileDisc.disc V) p o :
  PercentileDisc.add (Row None o) s = (None, s) ∧
  (PercentileDisc.first_call s = true → dlt dunit p || dlt p dzero = true →
   ∃ s', PercentileDisc.add (Row (Some p) o) s = (Some ER_ARGUMENT_OUT_OF_RANGE, s') ∧
     PercentileDisc.first_call s' = true ∧ PercentileDisc.value s' = PercentileDisc.value s) ∧
  (PercentileDisc.first_call s = false → deq (PercentileDisc.prev_value s) p = false →
   PercentileDisc.add (Row (Some p) o) s = (Some ER_ARGUMENT_NOT_CONSTANT, s)).
Proof.
  split_and!; [done| |].
  - intros Hf Hb. unfold PercentileDisc.add. cbn [arg]. rewrite Hf, Hb. by eexists.
  - intros Hf Hne. unfold PercentileDisc.add. cbn [arg]. by rewrite Hf, Hne.
Qed.

(** The position of the percentile among the rows, and its neighbours. *)
Definition position (p : spec_float) (n : Z) : spec_float := dadd dunit (dmul p (double_of (n - 1))).

Section Cont.
Context (p : spec_float) (Hp : is_fraction p) (n : Z) (Hn : 0 < n < 2 ^ 63).
Import PercentileCont.
Let pos := position p n.

Lemma row_position_eq f c fc cc fcalc k nv : row_position (Cont f c fc p cc fcalc n k nv) = pos.
Proof.
  unfold row_position, get_row_count. cbn [partition_row_count_ prev_value].
  assert (to_longlong n = n) as -> by (apply swrap_id; unfold in_s; lia).
  by assert (to_longlong (n - 1) = n - 1) as -> by (apply swrap_id; unfold in_s; lia).
Qed.

(** One row: it is the floor value as long as that is not fixed, then the
    ceiling value; each is fixed at the row with its number. *)
Lemma cont_add_step f c fc pv cc fcalc k nv v : fc = true ∨ pv = p → 0 ≤ k < n →
  add (Row (Some p) (Some v)) (Cont f c fc pv cc fcalc n k nv)
  = (None, Cont (if fcalc then f else Some v) (if fcalc && negb cc then Some v else c) false p
      (cc || deq (double_of (k + 1)) (dceil pos)) (fcalc || deq (double_of (k + 1)) (dfloor pos)) n (k + 1) nv).
Proof.
  intros Hfc Hk. destruct Hp as (H1 & H2 & H3).
  assert (to_ulonglong (k + 1) = k + 1) as Ek by (apply wrap_id; unfold in_u; lia).
  unfold add, check_fraction. cbn [arg order_item first_call floor_value ceil_value prev_value ceil_val_calculated
    floor_val_calculated partition_row_count_ current_row_count_ null_value].
  destruct fc; [rewrite H1, H2|destruct Hfc as [Hc| ->]; [done|]]; cbn [orb prev_value]; rewrite H3;
    unfold store_values; destruct fcalc, cc;
    cbn [is_none negb andb orb floor_value ceil_value first_call prev_value ceil_val_calculated
         floor_val_calculated partition_row_count_ current_row_count_ null_value];
    rewrite ?row_position_eq, ?Ek; done.
Qed.

Lemma cont_rows_before vs f c fc pv k nv : fc = true ∨ pv = p → 0 ≤ k → k + Z.of_nat (length vs) < n →
  (∀ j, k < j ≤ k + Z.of_nat (length vs) →
     deq (double_of j) (dfloor pos) = false ∧ deq (double_of j) (dceil pos) = false) →
  ∃ f1 fc1 pv1, cont_rows (rows_of p vs) (Cont f c fc pv false false n k nv)
    = (None, Cont f1 c fc1 pv1 false false n (k + Z.of_nat (length vs)) nv) ∧ (fc1 = true ∨ pv1 = p).
Proof.
  revert f fc pv k. induction vs as [|v vs IH]; intros f fc pv k Hfc Hk Hl Hb.
  { exists f, fc, pv. rewrite Z.add_0_r. done. }
  cbn [length] in *. cbn [rows_of fmap list_fmap cont_rows]. rewrite cont_add_step by (done || lia).
  destruct (Hb (k + 1)) as [-> ->]; [lia|]. cbn [andb orb].
  destruct (IH (Some v) false p (k + 1)) as (f1 & fc1 & pv1 & E & H1);
    [by right|lia|lia|intros j Hj; apply Hb; lia|].
  exists f1, fc1, pv1. split; [|done]. fold (rows_of p vs). rewrite E. do 2 f_equal. lia.
Qed.

Lemma cont_rows_done vs f c k nv : 0 ≤ k → k + Z.of_nat (length vs) ≤ n →
  cont_rows (rows_of p vs) (Cont f c false p true true n k nv)
  = (None, Cont f c false p true true n (k + Z.of_nat (length vs)) nv).
Proof.
  revert k. induction vs as [|v vs IH]; intros k Hk Hl; [by rewrite Z.add_0_r|].
  cbn [length] in *. cbn [rows_of fmap list_fmap cont_rows]. rewrite cont_add_step by (by right || lia).
  cbn [andb orb negb]. fold (rows_of p vs). rewrite IH by lia. do 2 f_equal. lia.
Qed.
End Cont.

(** The rows before the percentile, as a hypothesis on the row numbers. *)
Definition below (p : spec_float) (n k : Z) : Prop :=
  ∀ j, 0 < j ≤ k → deq (double_of j) (dfloor (position p n)) = false ∧
                   deq (double_of j) (dceil (position p n)) = false.

Definition cont_start (n : Z) (s : PercentileCont.cont) : PercentileCont.cont :=
  PercentileCont.set_partition_row_count n (PercentileCont.clear s).

(** [PERCENTILE_CONT(p)] over a partition of [n] rows without NULLs, at the
    position [1 + p * (n - 1)]: when the position is the number of row [k], the
    result is the value of that row; when it is between the numbers of two
    rows, the result interpolates their values [a] and [b]. *)
Theorem percentile_cont_interpolates p n pre post a b s : is_fraction p → 0 < n < 2 ^ 63 →
  Z.of_nat (length (pre ++ a :: b :: post)) = n → below p n (Z.of_nat (length pre)) →
  let pos := position p n in let k := Z.of_nat (length pre) + 1 in
  deq (double_of k) (dfloor pos) = true →
  (deq (double_of k) (dceil pos) = true → deq (dceil pos) (dfloor pos) = true →
   ∃ s', cont_rows (rows_of p (pre ++ a :: b :: post)) (cont_start n s) = (None, s') ∧
     (PercentileCont.val_real false s').1 = a) ∧
  (deq (double_of k) (dceil pos) = false → deq (double_of (k + 1)) (dceil pos) = true →
   deq (dceil pos) (dfloor pos) = false →
   ∃ s', cont_rows (rows_of p (pre ++ a :: b :: post)) (cont_start n s) = (None, s') ∧
     (PercentileCont.val_real false s').1
     = dadd (dmul (dsub pos (dfloor pos)) b) (dmul (dsub (dceil pos) pos) a)).
Proof.
  intros Hp Hn Hlen Hb pos k Hfl. rewrite length_app in Hlen. cbn [length] in Hlen.
  destruct (cont_rows_before p Hp n Hn pre None None true (PercentileCont.prev_value s) 0 (PercentileCont.null_value s))
    as (f1 & fc1 & pv1 & E & Hfc); [by left|lia|lia|intros j Hj; apply Hb; lia|].
  assert (∀ f c cur nv, (PercentileCont.val_real false (PercentileCont.Cont f c false p true true n cur nv)).1
    = if deq (dceil pos) (dfloor pos) then default dzero f
      else dadd (dmul (dsub pos (dfloor pos)) (default dzero c)) (dmul (dsub (dceil pos) pos) (default dzero f))) as Hval.
  { intros f c cur nv. unfold PercentileCont.val_real, get_row_count.
    cbn [PercentileCont.floor_value PercentileCont.ceil_value PercentileCont.first_call PercentileCont.prev_value
      PercentileCont.ceil_val_calculated PercentileCont.floor_val_calculated PercentileCont.partition_row_count_
      PercentileCont.current_row_count_ PercentileCont.null_value].
    assert (to_longlong n = n) as -> by (apply swrap_id; unfold in_s; lia).
    destruct (Z.eqb_spec n 0); [lia|]. cbn [orb]. cbv zeta. rewrite !(row_position_eq p n Hn). fold pos.
    by destruct (deq (dceil pos) (dfloor pos)). }
  assert (∀ rest, cont_rows (rows_of p (pre ++ rest)) (cont_start n s)
    = cont_rows (rows_of p rest) (PercentileCont.Cont f1 None fc1 pv1 false false n (k - 1) (PercentileCont.null_value s))) as Happ.
  { intros rest. unfold rows_of. rewrite fmap_app. erewrite cont_rows_app by exact E. do 2 f_equal. lia. }
  rewrite Happ. cbn [rows_of fmap list_fmap cont_rows]. rewrite (cont_add_step p Hp n Hn) by (done || lia).
  fold pos. replace (k - 1 + 1) with k by lia. rewrite Hfl. cbn [andb orb negb].
  rewrite (cont_add_step p Hp n Hn) by (by right || lia). fold pos. cbn [andb orb negb]. split.
  - intros Hce Heq. rewrite Hce. cbn [andb orb negb]. fold (rows_of p post).
    rewrite (cont_rows_done p Hp n Hn) by lia. eexists. split; [done|]. by rewrite Hval, Heq.
  - intros Hce Hce1 Hne. rewrite Hce, Hce1. cbn [andb orb negb]. fold (rows_of p post).
    rewrite (cont_rows_done p Hp n Hn) by lia. eexists. split; [done|]. by rewrite Hval, Hne.
Qed.

Lemma percentile_cont_interpolates_witness :
  ∃ s', cont_rows (rows_of p_half (double_of <$> [10; 20; 40; 90]))
          (cont_start 4 (PercentileCont.Cont None None false dzero true true 9 9 true)) = (None, s') ∧
    deq (PercentileCont.val_real false s').1 (double_of 30) = true.
Proof.
  destruct (percentile_cont_interpolates p_half 4 [double_of 10] [double_of 90] (double_of 20) (double_of 40)
    (PercentileCont.Cont None None false dzero true true 9 9 true) p_half_fraction) as [_ H];
    [lia|reflexivity| |vm_compute; reflexivity|].
  - intros j Hj. simpl in Hj. assert (j = 1) as -> by lia. split; vm_compute; reflexivity.
  - destruct H as (s' & E & Ev); [vm_compute; reflexivity..|]. exists s'. split; [exact E|]. rewrite Ev. vm_compute. reflexivity.
Defined.

(** The first row with a fraction outside 0..1 is an error in [PERCENTILE_CONT];
    since the flag is already cleared, the same fraction on a later row passes
    the range check. *)
Theorem percentile_cont_range_checked_once s p o o' : PercentileCont.first_call s = true →
  dlt dunit p = true → deq p p = true →
  ∃ s' s2, PercentileCont.add (Row (Some p) o) s = (Some ER_ARGUMENT_OUT_OF_RANGE, s') ∧
    PercentileCont.add (Row (Some p) o') s' = (None, s2).
Proof.
  intros Hf Hr He.
  assert (∃ s', PercentileCont.add (Row (Some p) o) s = (Some ER_ARGUMENT_OUT_OF_RANGE, s') ∧
    PercentileCont.first_call s' = false ∧ PercentileCont.prev_value s' = p) as (s' & E & Ef & Ep).
  { unfold PercentileCont.add, PercentileCont.check_fraction. cbn [arg]. rewrite Hf, Hr. by eexists. }
  exists s', (PercentileCont.add (Row (Some p) o') s').2. split; [done|].
  unfold PercentileCont.add, PercentileCont.check_fraction. cbn [arg]. rewrite Ef, Ep, He. cbn [negb].
  by destruct (PercentileCont.store_values _ _) as [[] ?].
Qed.

Lemma percentile_cont_range_checked_once_witness :
  ∃ s' s2, PercentileCont.add (Row (Some (double_of 2)) None) (PercentileCont.Cont None None true dzero false false 3 0 false)
      = (Some ER_ARGUMENT_OUT_OF_RANGE, s') ∧
    PercentileCont.add (Row (Some (double_of 2)) (Some dzero)) s' = (None, s2).
Proof. apply percentile_cont_range_checked_once; vm_compute; reflexivity. Defined.

(** ** The window item *)

(** In the initial phase every value is NULL, in the computation phase the
    values are those of the window function, in the retrieval phase those of
    the result field, with no value when that is NULL. *)
Theorem window_item_phases w (fi fu : source Z) (fr ur : source spec_float) (fd ud : source bool) {A} (fs : source A) (us : source (option A)) :
  (let i := set_phase_to_initial w in
   wf_is_null i fi.2 fu.2 = true ∧ wf_val_int i fi fu = (0, true) ∧ wf_val_real i fr ur = (dzero, true) ∧
   wf_val_str i fs us = (None, true) ∧ wf_get_date i fd ud = (true, true)) ∧
  (let c := set_phase_to_computation w in
   wf_is_null c fi.2 fu.2 = fu.2 ∧ wf_val_int c fi fu = fu ∧ wf_val_real c fr ur = ur ∧
   wf_val_str c fs us = us ∧ wf_get_date c fd ud = ud) ∧
  (let r := set_phase_to_retrieval w in
   wf_is_null r fi.2 fu.2 = fi.2 ∧ wf_val_int r fi fu = fi ∧ wf_val_real r fr ur = fr ∧
   (wf_val_str r fs us).2 = fs.2 ∧ ((wf_val_str r fs us).1 = None ↔ fs.2 = true) ∧
   (wf_get_date r fd ud).2 = fd.2 ∧ (fd.2 = true → (wf_get_date r fd ud).1 = true)).
Proof.
  destruct fs as [? []], fd as [? []]; repeat (split || intros); done.
Qed.

(** Functions that need the number of peers need the partition size too; the
    functions with their own cursors allow a frame and do not need it; an ORDER
    BY list of one element is asked only where one is mandatory. *)
Theorem window_function_classes f :
  (requires_peer_size f = true → requires_partition_size f = true) ∧
  (requires_special_cursors f = true → is_frame_prohibited f = false ∧ requires_partition_size f = false) ∧
  (requires_partition_size f = true → is_frame_prohibited f = true) ∧
  (only_single_element_order_list f = true → is_order_list_mandatory f = true ∧ requires_partition_size f = true).
Proof. by destruct f. Qed.

(** The tracker reports a new group exactly at the first row and at the rows
    where a field changed; [compare_with_cache] is 0 exactly when all fields
    compare equal; [ROW_NUMBER] counts the rows. *)
Theorem group_tracker_and_row_number changes cmps k :
  (∀ c first, check_if_next_group c first = ((-1 <? c) || first, negb ((-1 <? c) || first) && first)) ∧
  (compare_with_cache cmps = 0 ↔ Forall (λ r, r = 0) cmps) ∧
  (Z.of_nat k < 2 ^ 63 → RowNumber.val_int (Nat.iter k RowNumber.add RowNumber.clear) = Z.of_nat k) ∧
  (let tracked := foldl (λ '(acc, f) c, let '(b, f) := check_if_next_group c f in (acc ++ [b], f)) ([], true) changes in
   ∀ c cs, changes = c :: cs → tracked.1 = true :: ((λ c, -1 <? c) <$> cs)).
Proof.
  split_and!.
  - intros c first. unfold check_if_next_group. by destruct (-1 <? c), first.
  - induction cmps as [|r l IH]; simpl; [by split|]. rewrite Forall_cons. unfold truth.
    destruct (Z.eqb_spec r 0) as [->|]; simpl; [rewrite IH; tauto|]. split; [done|tauto].
  - intros Hk. unfold RowNumber.val_int. induction k as [|k IH]; [done|]. cbn [Nat.iter nat_rect].
    change (nat_rect _ _ _ k) with (Nat.iter k RowNumber.add RowNumber.clear). rewrite IH by lia.
    unfold RowNumber.add. unfold to_longlong. rewrite swrap_id by (unfold in_s; lia). lia.
  - intros tracked c cs ->. unfold tracked. cbn [foldl]. unfold check_if_next_group at 2. rewrite orb_true_r. cbn [app].
    assert (∀ cs acc, foldl (λ '(acc, f) c, let '(b, f) := check_if_next_group c f in (acc ++ [b], f)) (acc, false) cs
      = (acc ++ ((λ c, -1 <? c) <$> cs), false)) as Hrest.
    { clear. induction cs as [|c cs IH]; intros acc; [by rewrite app_nil_r|]. cbn [foldl].
      unfold check_if_next_group at 2. rewrite orb_false_r.
      destruct (-1 <? c) eqn:E; rewrite IH, <- app_assoc; cbn; by rewrite E. }
    by rewrite Hrest.
Qed.
