(* ===== verification/DateMode.v ===== *)
(** The flags that temporal conversions take, [sql_basic_types.h]:
    [date_conv_mode_t] (which conversions are allowed), [time_round_mode_t]
    (what happens to the digits after the microseconds) and [date_mode_t], the
    mixture of the two.  A mixture is shown to determine its two parts. *)
From S2P Require Import Prelude.

(** ** The values *)

Module ConvValue.
Definition CONV_NONE : Z := 0.
Definition FUZZY_DATES : Z := 1.
Definition TIME_ONLY : Z := 4.
Definition INTERVAL_hhmmssff : Z := 8.
Definition INTERVAL_DAY : Z := 16.
Definition RANGE0_LAST : Z := INTERVAL_DAY.
Definition NO_ZERO_IN_DATE : Z := Z.shiftl 1 23.
Definition NO_ZERO_DATE : Z := Z.shiftl 1 24.
Definition INVALID_DATES : Z := Z.shiftl 1 25.
Definition KNOWN_MODES : Z :=
  foldr Z.lor 0 [FUZZY_DATES; TIME_ONLY; INTERVAL_hhmmssff; INTERVAL_DAY;
                 NO_ZERO_IN_DATE; NO_ZERO_DATE; INVALID_DATES].
End ConvValue.

Module RoundValue.
Definition FRAC_NONE : Z := 0.
Definition FRAC_TRUNCATE : Z := Z.shiftl ConvValue.RANGE0_LAST 1.
Definition FRAC_ROUND : Z := Z.shiftl ConvValue.RANGE0_LAST 2.
Definition KNOWN_MODES : Z := Z.lor FRAC_TRUNCATE FRAC_ROUND.
End RoundValue.

(** The enumerations have no fixed underlying type: it is [int] for one
    compiler and [unsigned int] for another. *)
Section Enum.
Context (enum_signed : bool).

(** A cast of a [ulonglong] to the enumeration, and back. *)
Definition to_value_t (x : Z) : Z := if enum_signed then to_int32 x else to_uint32 x.

(** [~m_mode], converted to [ulonglong]. *)
Definition value_t_not (m : Z) : Z :=
  if enum_signed then to_ulonglong (Z.lnot m) else unot 32 m.

(** ** [class date_conv_mode_t] *)
Record date_conv_mode_t := Conv { conv_mode : Z }.

Definition conv_of (fuzzydate : Z) : date_conv_mode_t := Conv (to_value_t fuzzydate).
Definition conv_ulonglong (c : date_conv_mode_t) : Z := to_ulonglong (conv_mode c).
Definition conv_bool (c : date_conv_mode_t) : bool := truth (conv_mode c).
Definition conv_not (c : date_conv_mode_t) : Z := value_t_not (conv_mode c).
Definition conv_and (c other : date_conv_mode_t) : date_conv_mode_t :=
  conv_of (to_ulonglong (Z.land (conv_mode c) (conv_mode other))).
Definition conv_and_ull (c : date_conv_mode_t) (other : Z) : date_conv_mode_t :=
  conv_of (Z.land (to_ulonglong (conv_mode c)) other).
Definition conv_or (c other : date_conv_mode_t) : date_conv_mode_t :=
  conv_of (to_ulonglong (Z.lor (conv_mode c) (conv_mode other))).
(** [operator&=] and [operator|=]: the new value of the object. *)
Definition conv_and_assign (c other : date_conv_mode_t) : date_conv_mode_t :=
  Conv (to_value_t (Z.land (conv_mode c) (conv_mode other))).
Definition conv_or_assign (c other : date_conv_mode_t) : date_conv_mode_t :=
  Conv (to_value_t (Z.lor (conv_mode c) (conv_mode other))).

(** ** [class time_round_mode_t] *)
Record time_round_mode_t := Round { round_mode : Z }.

(** The constructor asserts that the mode is one of the three; [dbug] says
    whether the assertion is active. *)
Definition round_of (dbug : bool) (mode : Z) : option time_round_mode_t :=
  if dbug && negb ((mode =? RoundValue.FRAC_NONE) || (mode =? RoundValue.FRAC_TRUNCATE)
                   || (mode =? RoundValue.FRAC_ROUND))
  then None else Some (Round (to_value_t mode)).
Definition round_ulonglong (r : time_round_mode_t) : Z := to_ulonglong (round_mode r).
Definition round_eq (r other : time_round_mode_t) : bool := round_mode r =? round_mode other.

(** ** [class date_mode_t] *)
Record date_mode_t := Mode { m_mode : Z }.

Definition mode_of (fuzzydate : Z) : date_mode_t := Mode (to_value_t fuzzydate).
Definition mode_ulonglong (m : date_mode_t) : Z := to_ulonglong (m_mode m).
Definition mode_bool (m : date_mode_t) : bool := truth (m_mode m).
Definition mode_conv (m : date_mode_t) : date_conv_mode_t :=
  conv_of (Z.land (mode_ulonglong m) ConvValue.KNOWN_MODES).
Definition mode_round (dbug : bool) (m : date_mode_t) : option time_round_mode_t :=
  round_of dbug (Z.land (mode_ulonglong m) RoundValue.KNOWN_MODES).
Definition mode_not (m : date_mode_t) : Z := value_t_not (m_mode m).
Definition mode_lnot (m : date_mode_t) : bool := negb (truth (m_mode m)).
Definition mode_and (m other : date_mode_t) : date_mode_t :=
  mode_of (to_ulonglong (Z.land (m_mode m) (m_mode other))).
Definition mode_and_ull (m : date_mode_t) (other : Z) : date_mode_t :=
  mode_of (Z.land (to_ulonglong (m_mode m)) other).
Definition mode_or (m other : date_mode_t) : date_mode_t :=
  mode_of (to_ulonglong (Z.lor (m_mode m) (m_mode other))).
Definition mode_and_assign (m other : date_mode_t) : date_mode_t :=
  Mode (to_value_t (Z.land (m_mode m) (m_mode other))).
Definition mode_or_assign (m other : date_mode_t) : date_mode_t :=
  Mode (to_value_t (Z.lor (m_mode m) (m_mode other))).
Definition mode_or_assign_conv (m : date_mode_t) (other : date_conv_mode_t) : date_mode_t :=
  Mode (to_value_t (Z.lor (to_ulonglong (m_mode m)) (conv_ulonglong other))).

(** ** The operators on mixtures *)
Definition mode_or_conv (a : date_mode_t) (b : date_conv_mode_t) : date_mode_t :=
  mode_of (Z.lor (mode_ulonglong a) (conv_ulonglong b)).
Definition conv_or_round (a : date_conv_mode_t) (b : time_round_mode_t) : date_mode_t :=
  mode_of (Z.lor (conv_ulonglong a) (round_ulonglong b)).
Definition conv_or_mode (a : date_conv_mode_t) (b : date_mode_t) : date_mode_t :=
  mode_of (Z.lor (conv_ulonglong a) (mode_ulonglong b)).
Definition mode_and_conv (a : date_mode_t) (b : date_conv_mode_t) : date_conv_mode_t :=
  conv_of (Z.land (mode_ulonglong a) (conv_ulonglong b)).
Definition conv_and_mode (a : date_conv_mode_t) (b : date_mode_t) : date_conv_mode_t :=
  conv_of (Z.land (conv_ulonglong a) (mode_ulonglong b)).
Definition sql_mode_and_conv (a : Z) (b : date_conv_mode_t) : date_conv_mode_t :=
  conv_of (Z.land a (conv_ulonglong b)).

(** ** The constants *)
Definition TIME_CONV_NONE : date_conv_mode_t := conv_of ConvValue.CONV_NONE.
Definition TIME_FUZZY_DATES : date_conv_mode_t := conv_of ConvValue.FUZZY_DATES.
Definition TIME_TIME_ONLY : date_conv_mode_t := conv_of ConvValue.TIME_ONLY.
Definition TIME_INTERVAL_hhmmssff : date_conv_mode_t := conv_of ConvValue.INTERVAL_hhmmssff.
Definition TIME_INTERVAL_DAY : date_conv_mode_t := conv_of ConvValue.INTERVAL_DAY.
Definition TIME_NO_ZERO_IN_DATE : date_conv_mode_t := conv_of ConvValue.NO_ZERO_IN_DATE.
Definition TIME_NO_ZERO_DATE : date_conv_mode_t := conv_of ConvValue.NO_ZERO_DATE.
Definition TIME_INVALID_DATES : date_conv_mode_t := conv_of ConvValue.INVALID_DATES.
Definition TIME_NO_ZEROS : date_conv_mode_t :=
  conv_of (Z.lor ConvValue.NO_ZERO_DATE ConvValue.NO_ZERO_IN_DATE).
Definition TIME_MODE_FOR_XXX_TO_DATE : date_conv_mode_t :=
  conv_of (Z.lor (Z.lor ConvValue.NO_ZERO_IN_DATE ConvValue.NO_ZERO_DATE)
             ConvValue.INVALID_DATES).
Definition TIME_FRAC_NONE : time_round_mode_t := Round (to_value_t RoundValue.FRAC_NONE).
Definition TIME_FRAC_TRUNCATE : time_round_mode_t := Round (to_value_t RoundValue.FRAC_TRUNCATE).
Definition TIME_FRAC_ROUND : time_round_mode_t := Round (to_value_t RoundValue.FRAC_ROUND).

(** ** Specification *)

(** Conversion flags made of known bits only, and the three rounding modes. *)
Definition known_conv (c : Z) : Prop := 0 ≤ c ∧ Z.land c ConvValue.KNOWN_MODES = c.
Definition known_round (r : Z) : Prop :=
  r = RoundValue.FRAC_NONE ∨ r = RoundValue.FRAC_TRUNCATE ∨ r = RoundValue.FRAC_ROUND.

(** ** Lemmas *)

Lemma known_conv_small c : known_conv c → in_u 26 c.
Proof.
  intros [Hc E]. apply in_u_of_bits; [lia|done|]. intros i Hi. rewrite <- E, Z.land_spec.
  rewrite (in_u_testbit 26 ConvValue.KNOWN_MODES i), andb_false_r by (done || lia). done.
Qed.

Lemma known_round_small r : known_round r → in_u 26 r.
Proof. by intros [->|[->| ->]]; vm_compute. Qed.

Lemma to_value_t_small x : in_u 26 x → to_value_t x = x.
Proof.
  unfold in_u. intros H. unfold to_value_t, to_int32, to_uint32.
  destruct enum_signed; [apply swrap_id|apply wrap_id]; unfold in_s, in_u; simpl in *; lia.
Qed.

Lemma to_ulonglong_small x : in_u 26 x → to_ulonglong x = x.
Proof. unfold in_u. intros H. apply wrap_id. unfold in_u. simpl in *. lia. Qed.

(** The two sets of known bits are disjoint. *)
Lemma conv_round_disjoint c r : known_conv c → known_round r →
  Z.land c RoundValue.KNOWN_MODES = 0 ∧ Z.land r ConvValue.KNOWN_MODES = 0
  ∧ Z.land r RoundValue.KNOWN_MODES = r.
Proof.
  intros [_ E] Hr. split.
  - rewrite <- E, <- Z.land_assoc.
    change (Z.land ConvValue.KNOWN_MODES RoundValue.KNOWN_MODES) with 0. apply Z.land_0_r.
  - by destruct Hr as [->|[->| ->]].
Qed.

Lemma mixture_parts c r : known_conv c → known_round r →
  Z.land (Z.lor c r) ConvValue.KNOWN_MODES = c
  ∧ Z.land (Z.lor c r) RoundValue.KNOWN_MODES = r.
Proof.
  intros Hc Hr. destruct (conv_round_disjoint c r Hc Hr) as (E1 & E2 & E3).
  rewrite !Z.land_lor_distr_l, E1, E2, E3, (proj2 Hc), Z.lor_0_r, Z.lor_0_l. done.
Qed.

Lemma round_of_known dbug r : known_round r → round_of dbug r = Some (Round r).
Proof.
  intros H. unfold round_of. rewrite to_value_t_small by by apply known_round_small.
  by destruct dbug, H as [->|[->| ->]].
Qed.

Lemma mixture_round dbug c r : known_conv c → known_round r →
  conv_or_round (Conv c) (Round r) = Mode (Z.lor c r)
  ∧ mode_round dbug (conv_or_round (Conv c) (Round r)) = Some (Round r).
Proof.
  intros Hc Hr. pose proof (known_conv_small c Hc). pose proof (known_round_small r Hr).
  assert (in_u 26 (Z.lor c r)) as Hm by by apply lor_in_u.
  unfold conv_or_round, conv_ulonglong, round_ulonglong, mode_of. cbn [conv_mode round_mode].
  rewrite !(to_ulonglong_small c), !(to_ulonglong_small r), (to_value_t_small (Z.lor c r)) by done.
  split; [done|]. unfold mode_round, mode_ulonglong. cbn [m_mode].
  rewrite to_ulonglong_small, (proj2 (mixture_parts c r Hc Hr)) by done.
  by apply round_of_known.
Qed.

(** ** Theorems *)

(** A mixture of conversion flags and a rounding mode is split
    back into the flags and the rounding mode it was made of, for either
    underlying type of the enumerations; removing the time-only flag from the
    conversion part with [& ~TIME_TIME_ONLY] clears that flag and keeps the
    others; the two rounding bits together are refused by the assertion. *)
Theorem date_mode_split dbug c r (Hc : known_conv c) (Hr : known_round r) :
  let m := conv_or_round (Conv c) (Round r) in
  m = Mode (Z.lor c r) ∧ mode_conv m = Conv c ∧ mode_round dbug m = Some (Round r)
  ∧ conv_and_ull (mode_conv m) (conv_not TIME_TIME_ONLY)
    = Conv (Z.ldiff c ConvValue.TIME_ONLY)
  ∧ mode_round true (mode_of RoundValue.KNOWN_MODES) = None.
Proof.
  pose proof (known_conv_small c Hc) as Hc'. pose proof (known_round_small r Hr) as Hr'.
  assert (in_u 26 (Z.lor c r)) as Hm by by apply lor_in_u.
  destruct (mixture_parts c r Hc Hr) as [E1 E2].
  unfold conv_or_round, conv_ulonglong, round_ulonglong. cbn [conv_mode round_mode].
  unfold mode_of, mode_conv, mode_round, mode_ulonglong, conv_of. cbn [m_mode].
  rewrite !(to_ulonglong_small c), !(to_ulonglong_small r), (to_value_t_small (Z.lor c r)),
    (to_ulonglong_small (Z.lor c r)), E1, E2, (to_value_t_small c) by done.
  repeat split.
  - by apply round_of_known.
  - unfold conv_and_ull, conv_of. cbn [conv_mode]. rewrite to_ulonglong_small by done.
    replace (Z.land c (conv_not TIME_TIME_ONLY)) with (Z.ldiff c ConvValue.TIME_ONLY).
    + rewrite to_value_t_small; [done|]. apply in_u_of_bits; [lia| |].
      * apply Z.ldiff_nonneg. left. apply Hc'.
      * intros i Hi. rewrite Z.ldiff_spec, (in_u_testbit 26 c i) by (done || lia). done.
    + bits i Hi. destruct (Z.ltb_spec i 26).
      * f_equal. unfold conv_not, value_t_not, TIME_TIME_ONLY, conv_of. cbn [conv_mode].
        rewrite to_value_t_small by done. destruct enum_signed.
        -- unfold to_ulonglong. rewrite wrap_testbit by lia. rewrite Z.lnot_spec by lia.
           destruct (Z.ltb_spec i 64); [done|lia].
        -- unfold unot. rewrite wrap_testbit by lia. rewrite Z.lnot_spec by lia.
           destruct (Z.ltb_spec i 32); [done|lia].
      * by rewrite (in_u_testbit 26 c i) by (done || lia).
  - unfold mode_round, mode_of, mode_ulonglong, to_value_t. by destruct enum_signed; vm_compute.
Qed.

End Enum.

Lemma date_mode_split_witness :
  let m := conv_or_round true (Conv 5) (Round 64) in
  m = Mode 69 ∧ mode_conv true m = Conv 5 ∧ mode_round true true m = Some (Round 64).
Proof.
  assert (known_conv 5) as Hc by (split; [lia|by vm_compute]).
  assert (known_round 64) as Hr by (right; right; by vm_compute).
  destruct (date_mode_split true true 5 64 Hc Hr) as (E1 & E2 & E3 & _).
  exact (conj E1 (conj E2 E3)).
Defined.
