(* ===== verification/MyTime.v ===== *)
(** Broken-down times: [MYSQL_TIME] ([../mysql_time.h]) and the inline code of
    [my_time.h] and [sql_time.h] on it: the conversion status, truncation to a
    number of fractional digits, the rough check of a timestamp, the change of
    type between DATE and DATETIME; and [Timeval] ([structs.h]).

    [long] is 32 bits wide, as [my_config.h] of the bundled server has it.  The
    table [log_10_int] is defined in a file that is not in the repository; it is a parameter,
    and the theorems need it to hold the powers of ten. *)
From S2P Require Import Prelude.

Definition long_bits : Z := 32.
Definition to_ulong (x : Z) : Z := wrap long_bits x.
Definition to_long (x : Z) : Z := swrap long_bits x.

(** ** The structure *)
Inductive timestamp_type :=
  | MYSQL_TIMESTAMP_NONE
  | MYSQL_TIMESTAMP_ERROR
  | MYSQL_TIMESTAMP_DATE
  | MYSQL_TIMESTAMP_DATETIME
  | MYSQL_TIMESTAMP_TIME.

#[export] Instance timestamp_type_eq_dec : EqDecision timestamp_type.
Proof. solve_decision. Defined.

Definition timestamp_code (t : timestamp_type) : Z :=
  match t with
  | MYSQL_TIMESTAMP_NONE => -2
  | MYSQL_TIMESTAMP_ERROR => -1
  | MYSQL_TIMESTAMP_DATE => 0
  | MYSQL_TIMESTAMP_DATETIME => 1
  | MYSQL_TIMESTAMP_TIME => 2
  end.

Record MYSQL_TIME := Mk_TIME {
  year : Z; month : Z; day : Z; hour : Z; minute : Z; second : Z;
  second_part : Z;
  neg : bool;
  time_type : timestamp_type
}.

#[export] Instance MYSQL_TIME_eq_dec : EqDecision MYSQL_TIME.
Proof. solve_decision. Defined.

(** Assignments to the members. *)
Definition set_ymd (y m d : Z) (t : MYSQL_TIME) : MYSQL_TIME :=
  Mk_TIME y m d (hour t) (minute t) (second t) (second_part t) (neg t) (time_type t).
Definition set_day (d : Z) (t : MYSQL_TIME) : MYSQL_TIME := set_ymd (year t) (month t) d t.
Definition set_hms (h m s : Z) (t : MYSQL_TIME) : MYSQL_TIME :=
  Mk_TIME (year t) (month t) (day t) h m s (second_part t) (neg t) (time_type t).
Definition set_hour (h : Z) (t : MYSQL_TIME) : MYSQL_TIME := set_hms h (minute t) (second t) t.
Definition set_minute (m : Z) (t : MYSQL_TIME) : MYSQL_TIME := set_hms (hour t) m (second t) t.
Definition set_second (s : Z) (t : MYSQL_TIME) : MYSQL_TIME := set_hms (hour t) (minute t) s t.
Definition set_second_part (f : Z) (t : MYSQL_TIME) : MYSQL_TIME :=
  Mk_TIME (year t) (month t) (day t) (hour t) (minute t) (second t) f (neg t) (time_type t).
Definition set_neg (b : bool) (t : MYSQL_TIME) : MYSQL_TIME :=
  Mk_TIME (year t) (month t) (day t) (hour t) (minute t) (second t) (second_part t) b (time_type t).
Definition set_type (k : timestamp_type) (t : MYSQL_TIME) : MYSQL_TIME :=
  Mk_TIME (year t) (month t) (day t) (hour t) (minute t) (second t) (second_part t) (neg t) k.

(** [bzero] on the structure: [MYSQL_TIMESTAMP_DATE] is 0. *)
Definition zero_TIME : MYSQL_TIME := Mk_TIME 0 0 0 0 0 0 0 false MYSQL_TIMESTAMP_DATE.

(** ** [my_time.h] *)
Definition MYSQL_TIME_WARN_TRUNCATED : Z := 1.
Definition MYSQL_TIME_WARN_OUT_OF_RANGE : Z := 2.
Definition MYSQL_TIME_WARN_EDOM : Z := 4.
Definition MYSQL_TIME_WARN_ZERO_DATE : Z := 8.
Definition MYSQL_TIME_NOTE_TRUNCATED : Z := 16.
Definition MYSQL_TIME_WARN_WARNINGS : Z :=
  foldr Z.lor 0 [MYSQL_TIME_WARN_TRUNCATED; MYSQL_TIME_WARN_OUT_OF_RANGE;
                 MYSQL_TIME_WARN_EDOM; MYSQL_TIME_WARN_ZERO_DATE].
Definition MYSQL_TIME_WARN_NOTES : Z := MYSQL_TIME_NOTE_TRUNCATED.
Definition MYSQL_TIME_WARN_HAVE_WARNINGS (x : Z) : bool := truth (Z.land x MYSQL_TIME_WARN_WARNINGS).
Definition MYSQL_TIME_WARN_HAVE_NOTES (x : Z) : bool := truth (Z.land x MYSQL_TIME_WARN_NOTES).

Definition SECONDS_IN_24H : Z := 86400.
Definition TIME_MAX_INTERVAL_HOUR : Z := 87649415.
Definition TIME_MAX_INTERVAL_HOUR_CHAR_LENGTH : Z := 8.
Definition TIME_MAX_INTERVAL_DAY : Z := 3652058.
Definition TIME_MAX_INTERVAL_DAY_CHAR_LENGTH : Z := 7.
Definition TIME_MAX_HOUR : Z := 838.
Definition TIME_MAX_MINUTE : Z := 59.
Definition TIME_MAX_SECOND : Z := 59.
Definition TIME_MAX_SECOND_PART : Z := 999999.
Definition TIME_SECOND_PART_FACTOR : Z := TIME_MAX_SECOND_PART + 1.
Definition TIME_SECOND_PART_DIGITS : Z := 6.
Definition TIME_MAX_VALUE : Z := TIME_MAX_HOUR * 10000 + TIME_MAX_MINUTE * 100 + TIME_MAX_SECOND.
Definition TIME_MAX_VALUE_SECONDS : Z := TIME_MAX_HOUR * 3600 + TIME_MAX_MINUTE * 60 + TIME_MAX_SECOND.
Definition YY_PART_YEAR : Z := 70.
Definition TIMESTAMP_MAX_YEAR : Z := 2038.
Definition TIMESTAMP_MIN_YEAR : Z := 1900 + YY_PART_YEAR - 1.
Definition TIMESTAMP_MAX_VALUE : Z := 0x7FFFFFFF.
Definition TIMESTAMP_MIN_VALUE : Z := 0.
Definition IS_TIME_T_VALID_FOR_TIMESTAMP (x : Z) : bool :=
  (x <=? TIMESTAMP_MAX_VALUE) && (TIMESTAMP_MIN_VALUE <=? x).

Record MYSQL_TIME_STATUS := Mk_STATUS { warnings : Z; precision : Z; nanoseconds : Z }.
Definition my_time_status_init : MYSQL_TIME_STATUS := Mk_STATUS 0 0 0.

Definition validate_timestamp_range (t : MYSQL_TIME) : bool :=
  negb (((TIMESTAMP_MAX_YEAR <? year t) || (year t <? TIMESTAMP_MIN_YEAR))
        || ((year t =? TIMESTAMP_MAX_YEAR) && ((1 <? month t) || (19 <? day t)))
        || ((year t =? TIMESTAMP_MIN_YEAR) && ((month t <? 12) || (day t <? 31)))).

(** The table of powers of ten, an array of 20. *)
Class Log10 := log_10_int : list Z.

(** [struct timeval] and [class Timeval] of [structs.h]. *)
Record timeval := Mk_timeval { tv_sec : Z; tv_usec : Z }.

Section Code.
Context {L10 : Log10} (dbug : bool).

(** [DBUG_ASSERT]. *)
Definition dassert (b : bool) : option () := if dbug && negb b then None else Some ().

Definition Timeval (sec usec : Z) : option timeval :=
  _ ← dassert (usec <? 1000000);
  Some (Mk_timeval sec (to_long (to_uint32 usec))).

(** [log_10_int[TIME_SECOND_PART_DIGITS - digits]], the index a [uint]. *)
Definition log_10_at (digits : Z) : option Z :=
  log_10_int !! Z.to_nat (to_uint32 (TIME_SECOND_PART_DIGITS - digits)).

Definition sec_part_shift (second_part digits : Z) : option Z :=
  p ← log_10_at digits; Some (to_longlong (Z.quot second_part (to_longlong p))).
Definition sec_part_unshift (second_part digits : Z) : option Z :=
  p ← log_10_at digits;
  let r := second_part * to_longlong p in
  if decide (in_s 64 r) then Some r else None.

Definition my_time_fraction_remainder (nr decimals : Z) : option Z :=
  _ ← dassert (decimals <=? TIME_SECOND_PART_DIGITS);
  p ← log_10_at decimals;
  Some (Z.rem nr (to_long p)).

Definition my_datetime_trunc (ltime : MYSQL_TIME) (decimals : Z) : option MYSQL_TIME :=
  r ← my_time_fraction_remainder (to_long (second_part ltime)) decimals;
  Some (set_second_part (to_ulong (second_part ltime - r)) ltime).

Definition my_time_trunc (ltime : MYSQL_TIME) (decimals : Z) : option MYSQL_TIME :=
  r ← my_time_fraction_remainder (to_long (second_part ltime)) decimals;
  let ltime := set_second_part (to_ulong (second_part ltime - r)) ltime in
  Some (if (second_part ltime =? 0) && neg ltime && (hour ltime =? 0)
           && (minute ltime =? 0) && (second ltime =? 0)
        then set_neg false ltime else ltime).

Definition my_timeval_trunc (tv : timeval) (decimals : Z) : option timeval :=
  r ← my_time_fraction_remainder (tv_usec tv) decimals;
  let u := tv_usec tv - r in
  if decide (in_s long_bits u) then Some (Mk_timeval (tv_sec tv) u) else None.

(** ** [sql_time.h] *)
Definition is_date_type (t : timestamp_type) : bool :=
  bool_decide (t = MYSQL_TIMESTAMP_DATE) || bool_decide (t = MYSQL_TIMESTAMP_DATETIME).

Definition datetime_to_date (ltime : MYSQL_TIME) : option MYSQL_TIME :=
  _ ← dassert (is_date_type (time_type ltime));
  _ ← dassert (negb (neg ltime));
  Some (set_type MYSQL_TIMESTAMP_DATE (set_second_part 0 (set_hms 0 0 0 ltime))).

Definition date_to_datetime (ltime : MYSQL_TIME) : option MYSQL_TIME :=
  _ ← dassert (is_date_type (time_type ltime));
  _ ← dassert (negb (neg ltime));
  Some (set_type MYSQL_TIMESTAMP_DATETIME ltime).

Definition non_zero_hhmmssuu (ltime : MYSQL_TIME) : bool :=
  truth (hour ltime) || truth (minute ltime) || truth (second ltime) || truth (second_part ltime).
Definition non_zero_YYMMDD (ltime : MYSQL_TIME) : bool :=
  truth (year ltime) || truth (month ltime) || truth (day ltime).
Definition non_zero_date (ltime : MYSQL_TIME) : bool :=
  non_zero_YYMMDD ltime
  || (bool_decide (time_type ltime = MYSQL_TIMESTAMP_DATETIME) && non_zero_hhmmssuu ltime).

End Code.

(** ** Specification *)

Class Log10Laws `{!Log10} : Prop :=
  log_10_spec (i : nat) : (i < 20)%nat → log_10_int !! i = Some (10 ^ Z.of_nat i).

(** Microseconds in the last of [dec] fractional digits. *)
Definition usec_unit (dec : Z) : Z := 10 ^ (TIME_SECOND_PART_DIGITS - dec).

(** The part below the hours is in range. *)
Definition mmssff_ok (t : MYSQL_TIME) : Prop :=
  0 ≤ minute t ≤ 59 ∧ 0 ≤ second t ≤ 59 ∧ 0 ≤ second_part t ≤ 999999.

(** The time of day, or the interval, in microseconds: absolute and signed. *)
Definition usecs (t : MYSQL_TIME) : Z :=
  ((hour t * 60 + minute t) * 60 + second t) * 1000000 + second_part t.
Definition signed_usecs (t : MYSQL_TIME) : Z := if neg t then - usecs t else usecs t.

#[export] Instance mmssff_ok_dec t : Decision (mmssff_ok t).
Proof. unfold mmssff_ok. apply _. Defined.

(** The table of the powers of ten. *)
Definition pow10_table : list Z := (λ i, 10 ^ Z.of_nat i) <$> seq 0 20.
#[export] Instance pow10_Log10 : Log10 | 100 := pow10_table.
#[export] Instance pow10_Log10Laws : @Log10Laws pow10_Log10.
Proof.
  intros i Hi. unfold log_10_int, pow10_Log10, pow10_table.
  rewrite list_lookup_fmap, lookup_seq_lt by done. done.
Qed.

(** ** Lemmas *)

Lemma dassert_true dbug b : b = true → dassert dbug b = Some ().
Proof. intros ->. unfold dassert. by rewrite andb_false_r. Qed.

Lemma usec_unit_pos dec : 0 ≤ dec ≤ 6 → 0 < usec_unit dec ≤ 1000000.
Proof.
  intros H. unfold usec_unit, TIME_SECOND_PART_DIGITS. split.
  - apply Z.pow_pos_nonneg; lia.
  - change 1000000 with (10 ^ 6). apply Z.pow_le_mono_r; lia.
Qed.

(** The unit divides a second. *)
Lemma usec_unit_divides dec : 0 ≤ dec ≤ 6 → 1000000 = 10 ^ dec * usec_unit dec.
Proof.
  intros H. unfold usec_unit, TIME_SECOND_PART_DIGITS.
  rewrite <- Z.pow_add_r by lia. replace (dec + (6 - dec)) with 6 by lia. done.
Qed.

(** A coarser unit is a multiple of a finer one. *)
Lemma usec_unit_coarser d e : 0 ≤ d ≤ e → e ≤ 6 →
  usec_unit d = 10 ^ (e - d) * usec_unit e.
Proof.
  intros H ?. unfold usec_unit, TIME_SECOND_PART_DIGITS.
  rewrite <- Z.pow_add_r by lia. f_equal. lia.
Qed.

Lemma usecs_mod_unit t dec : 0 ≤ dec ≤ 6 →
  usecs t mod usec_unit dec = second_part t mod usec_unit dec.
Proof.
  intros H. pose proof (usec_unit_pos dec H). unfold usecs.
  rewrite (usec_unit_divides dec H) at 1.
  rewrite Z.add_comm, Z.mul_assoc, Z.mod_add by lia. done.
Qed.

Lemma to_long_small x : 0 ≤ x ≤ 999999 → to_long x = x.
Proof. intros H. apply swrap_id; [by vm_compute|]. unfold in_s, long_bits. simpl. lia. Qed.

Lemma to_ulong_small x : 0 ≤ x ≤ 999999 → to_ulong x = x.
Proof. intros H. apply wrap_id. unfold in_u, long_bits. simpl. lia. Qed.

Section Facts.
Context {L10 : Log10} {HL : Log10Laws} (dbug : bool).

Lemma log_10_at_ok dec : 0 ≤ dec ≤ 6 → log_10_at dec = Some (usec_unit dec).
Proof.
  intros H. unfold log_10_at, to_uint32, usec_unit, TIME_SECOND_PART_DIGITS.
  rewrite wrap_id by (unfold in_u; simpl; lia).
  rewrite log_10_spec by lia. do 2 f_equal. lia.
Qed.

Lemma remainder_ok nr dec : 0 ≤ dec ≤ 6 → 0 ≤ nr →
  my_time_fraction_remainder dbug nr dec = Some (nr mod usec_unit dec).
Proof.
  intros H Hn. pose proof (usec_unit_pos dec H) as Hp.
  unfold my_time_fraction_remainder.
  rewrite dassert_true by (apply Z.leb_le; unfold TIME_SECOND_PART_DIGITS; lia).
  cbn [mbind option_bind]. rewrite log_10_at_ok by done. cbn [mbind option_bind].
  unfold to_long. rewrite swrap_id by (unfold in_s, long_bits; simpl; lia).
  by rewrite Z.rem_mod_nonneg by lia.
Qed.

(** What both truncations do to the microseconds. *)
Lemma trunc_part dec f : 0 ≤ dec ≤ 6 → 0 ≤ f ≤ 999999 →
  0 ≤ f mod usec_unit dec ≤ f ∧ f mod usec_unit dec < usec_unit dec
  ∧ to_ulong (f - f mod usec_unit dec) = f - f mod usec_unit dec.
Proof.
  intros H Hf. pose proof (usec_unit_pos dec H).
  pose proof (Z.mod_pos_bound f (usec_unit dec)). pose proof (Z.mod_le f (usec_unit dec)).
  split; [lia|]. split; [lia|]. apply to_ulong_small. lia.
Qed.

Lemma datetime_trunc_eq t dec : 0 ≤ dec ≤ 6 → mmssff_ok t →
  my_datetime_trunc dbug t dec
  = Some (set_second_part (second_part t - second_part t mod usec_unit dec) t).
Proof.
  intros H (? & ? & Hf). unfold my_datetime_trunc.
  rewrite to_long_small, remainder_ok by lia. cbn [mbind option_bind].
  by destruct (trunc_part dec _ H Hf) as (_ & _ & ->).
Qed.

Lemma time_trunc_eq t dec : 0 ≤ dec ≤ 6 → 0 ≤ hour t → mmssff_ok t →
  let t1 := set_second_part (second_part t - second_part t mod usec_unit dec) t in
  my_time_trunc dbug t dec = Some (set_neg (neg t && negb (usecs t1 =? 0)) t1).
Proof.
  intros H Hh Hok. pose proof Hok as (? & ? & Hf).
  unfold my_time_trunc. rewrite to_long_small, remainder_ok by lia. cbn [mbind option_bind].
  destruct (trunc_part dec _ H Hf) as (? & ? & ->).
  unfold usecs. cbn. destruct t as [y m d h mi s f ng k]; cbn in *. f_equal.
  destruct ng; cbn; [|by rewrite !andb_false_r].
  zcases; cbn; try reflexivity; lia.
Qed.

End Facts.

Lemma mod_sub_mod x u : 0 < u → (x - x mod u) mod u = 0.
Proof. intros H. rewrite Zminus_mod_idemp_r, Z.sub_diag. by apply Z.mod_0_l; lia. Qed.

(** Truncating a multiple: first to a fine unit, then to a coarser one. *)
Lemma trunc_twice x u k : 0 < u → 0 < k →
  let y := x - x mod u in y - y mod (k * u) = x - x mod (k * u).
Proof.
  intros Hu Hk y. unfold y.
  assert ((x - x mod u) / (k * u) = x / (k * u)) as E.
  { rewrite (Z.mul_comm k), <- !Z.div_div by lia. f_equal.
    replace (x - x mod u) with (x / u * u) by (pose proof (Z.div_mod x u); lia).
    by rewrite Z.div_mul by lia. }
  pose proof (Z.div_mod (x - x mod u) (k * u)). pose proof (Z.div_mod x (k * u)).
  rewrite E in *. nia.
Qed.

Section TruncFacts.
Context {L10 : Log10} {HL : Log10Laws} (dbug : bool).

(** The truncated value: magnitude, sign and range. *)
Lemma trunc_value t dec : 0 ≤ dec ≤ 6 → mmssff_ok t →
  let f := second_part t - second_part t mod usec_unit dec in
  usecs (set_second_part f t) = usecs t - usecs t mod usec_unit dec ∧ 0 ≤ f ≤ 999999.
Proof.
  intros Hd Hok f. pose proof (usecs_mod_unit t dec Hd) as Em.
  pose proof Hok as (Hm & Hs & Hf).
  destruct (trunc_part dec _ Hd Hf) as (Hr & Hr' & _). split; [|unfold f; lia].
  rewrite Em. unfold usecs, f. cbn. lia.
Qed.

(** Twice the same or another truncation. *)
Lemma time_trunc_twice t t' dec dec' : 0 ≤ dec ≤ 6 → 0 ≤ dec' ≤ 6 →
  0 ≤ hour t → mmssff_ok t → my_time_trunc dbug t dec = Some t' →
  my_time_trunc dbug t' dec' = my_time_trunc dbug t (dec `min` dec').
Proof.
  intros Hd Hd' Hh Hok. pose proof (time_trunc_eq dbug t dec Hd Hh Hok) as E. cbv zeta in E.
  rewrite E. intros [= <-].
  destruct (trunc_value t dec Hd Hok) as [Ev Hf].
  set (f := second_part t - _) in *.
  assert (f - f mod usec_unit dec'
    = second_part t - second_part t mod usec_unit (dec `min` dec')) as Ef.
  { destruct (decide (dec' ≤ dec)).
    - rewrite Z.min_r by lia. rewrite (usec_unit_coarser dec' dec) by lia.
      apply trunc_twice; [apply usec_unit_pos; lia|]. apply Z.pow_pos_nonneg; lia.
    - rewrite Z.min_l by lia. fold f.
      enough (f mod usec_unit dec' = 0) by lia.
      pose proof (usec_unit_pos dec Hd). pose proof (usec_unit_pos dec' Hd').
      unfold f. rewrite (usec_unit_coarser dec dec') by lia.
      set (u := usec_unit dec') in *. set (k := 10 ^ (dec' - dec)).
      assert (0 < k) by (apply Z.pow_pos_nonneg; lia).
      pose proof (Z.div_mod (second_part t) (k * u)).
      replace (second_part t - second_part t mod (k * u))
        with (second_part t / (k * u) * k * u) by nia.
      apply Z.mod_mul. lia. }
  rewrite (time_trunc_eq dbug _ dec' Hd') by (cbn; destruct Hok; unfold mmssff_ok; cbn; lia).
  rewrite (time_trunc_eq dbug t (dec `min` dec')) by (lia || done). cbv zeta.
  cbn [second_part set_neg set_second_part neg]. rewrite Ef.
  unfold usecs. cbn [hour minute second second_part set_second_part set_neg].
  destruct t as [y m d h mi s f0 ng k]; cbn in *. unfold set_neg, set_second_part. cbn.
  do 2 f_equal. destruct ng; cbn; [|done]. 
  rewrite <- Ef. pose proof (Z.mod_pos_bound f (usec_unit dec')).
  pose proof (Z.mod_le f (usec_unit dec')).
  pose proof (usec_unit_pos dec' Hd'). destruct Hok as (?&?&?); cbn in *.
  fold f. zcases; cbn; lia.
Qed.

End TruncFacts.

(** ** Theorems *)
Section Theorems.
Context {L10 : Log10} {HL : Log10Laws} (dbug : bool).

(** Truncating a TIME to [dec] fractional digits moves it
    towards zero to the nearest multiple of its last digit, never leaves a
    negative zero, touches nothing above the microseconds, and truncating again
    to fewer or more digits is truncating once to the fewer. *)
Theorem time_trunc_correct t dec dec' (Hd : 0 ≤ dec ≤ 6) (Hd' : 0 ≤ dec' ≤ 6)
    (Hh : 0 ≤ hour t) (Hok : mmssff_ok t) :
  ∃ t', my_time_trunc dbug t dec = Some t'
    ∧ signed_usecs t' = Z.quot (signed_usecs t) (usec_unit dec) * usec_unit dec
    ∧ (neg t' = true → signed_usecs t' < 0)
    ∧ mmssff_ok t' ∧ set_neg (neg t) (set_second_part (second_part t) t') = t
    ∧ my_time_trunc dbug t' dec' = my_time_trunc dbug t (dec `min` dec').
Proof.
  pose proof (time_trunc_eq dbug t dec Hd Hh Hok) as E. cbv zeta in E.
  destruct (trunc_value t dec Hd Hok) as [Ev Hf].
  pose proof (usec_unit_pos dec Hd) as Hu.
  set (f := second_part t - second_part t mod usec_unit dec) in *.
  assert (0 ≤ usecs t) as H0 by (destruct Hok as (?&?&?); unfold usecs; lia).
  pose proof (Z.mod_pos_bound (usecs t) (usec_unit dec)).
  pose proof (Z.mod_le (usecs t) (usec_unit dec)).
  assert (Z.quot (usecs t) (usec_unit dec) * usec_unit dec
          = usecs (set_second_part f t)) as Eq.
  { rewrite Z.quot_div_nonneg by lia. pose proof (Z.div_mod (usecs t) (usec_unit dec)). lia. }
  eexists. split; [exact E|]. unfold signed_usecs.
  change (usecs (set_neg ?b ?x)) with (usecs x). cbn [neg set_neg].
  split; [|split; [|split; [|split]]].
  - destruct (neg t); cbn [andb]; [|done].
    rewrite Z.quot_opp_l, Z.mul_opp_l, Eq by lia. zcases; cbn [negb]; lia.
  - intros Hn. rewrite Hn. apply andb_true_iff in Hn as [_ Hn].
    apply negb_true_iff, Z.eqb_neq in Hn. lia.
  - destruct Hok as (?&?&?). unfold mmssff_ok. cbn. lia.
  - by destruct t.
  - by apply (time_trunc_twice dbug t _ dec dec').
Qed.

(** Scaling microseconds down to [digits] digits undoes scaling them up, and
    scaling down and up again truncates. *)
Theorem sec_part_shift_unshift f digits (Hd : 0 ≤ digits ≤ 6) (Hf : 0 ≤ f ≤ 999999) :
  (v ← sec_part_unshift f digits; sec_part_shift v digits) = Some f
  ∧ (v ← sec_part_shift f digits; sec_part_unshift v digits)
    = Some (f - f mod usec_unit digits).
Proof.
  pose proof (usec_unit_pos digits Hd) as Hu.
  unfold sec_part_shift, sec_part_unshift. rewrite log_10_at_ok by done.
  cbn [mbind option_bind].
  assert (∀ x, 0 ≤ x ≤ 1000000 * 1000000 → to_longlong x = x) as Hl.
  { intros x Hx. apply swrap_id; [lia|]. unfold in_s. change (2 ^ (64 - 1)) with 9223372036854775808. lia. }
  assert (∀ x, 0 ≤ x ≤ 1000000 * 1000000 → in_s 64 x) as Hi.
  { intros x Hx. unfold in_s. change (2 ^ (64 - 1)) with 9223372036854775808. lia. }
  rewrite (Hl (usec_unit digits)) by lia. split.
  - rewrite decide_True by (apply Hi; nia). cbn [mbind option_bind].
    rewrite Z.quot_mul by lia. by rewrite Hl by lia.
  - rewrite Z.quot_div_nonneg by lia.
    assert (0 ≤ f / usec_unit digits ≤ f) by (split; [apply Z.div_pos; lia|apply Z.div_le_upper_bound; nia]).
    rewrite Hl by lia. pose proof (Z.div_mod f (usec_unit digits)).
    pose proof (Z.mod_pos_bound f (usec_unit digits)).
    rewrite decide_True by (apply Hi; nia). f_equal. lia.
Qed.

(** The rough check of a timestamp accepts exactly the dates
    from 1969-12-31 to 2038-01-19 in the order of the calendar. *)
Theorem validate_timestamp_range_correct t (Hm : 1 ≤ month t ≤ 12) (Hd : 1 ≤ day t ≤ 31) :
  let date := (year t * 100 + month t) * 100 + day t in
  validate_timestamp_range t = true ↔ 19691231 ≤ date ≤ 20380119.
Proof.
  intros date. unfold validate_timestamp_range, TIMESTAMP_MIN_YEAR, TIMESTAMP_MAX_YEAR,
    YY_PART_YEAR. change (1900 + 70 - 1) with 1969. unfold date.
  zcases; cbn; split; intros; first [done | lia].
Qed.

End Theorems.

Lemma time_trunc_correct_witness :
  let t := Mk_TIME 0 0 0 0 0 0 123456 true MYSQL_TIMESTAMP_TIME in
  my_time_trunc true t 2 = Some (set_second_part 120000 t) ∧
  my_time_trunc true (set_second_part 120000 t) 0 = my_time_trunc true t 0.
Proof.
  set (t := Mk_TIME 0 0 0 0 0 0 123456 true MYSQL_TIMESTAMP_TIME).
  assert (my_time_trunc true t 2 = Some (set_second_part 120000 t)) as E by (vm_compute; reflexivity).
  split; [exact E|].
  assert (0 ≤ 2 ≤ 6) as H1 by lia. assert (0 ≤ 0 ≤ 6) as H2 by lia.
  assert (0 ≤ hour t) as H3 by (vm_compute; discriminate).
  assert (mmssff_ok t) as H4 by (unfold mmssff_ok; cbn; lia).
  destruct (time_trunc_correct true t 2 0 H1 H2 H3 H4) as (t' & E' & _ & _ & _ & _ & E2).
  rewrite E in E'. injection E' as <-. exact E2.
Defined.

Lemma validate_timestamp_range_correct_witness :
  validate_timestamp_range (Mk_TIME 2038 1 19 3 14 7 0 false MYSQL_TIMESTAMP_DATETIME) = true.
Proof.
  apply (validate_timestamp_range_correct
    (Mk_TIME 2038 1 19 3 14 7 0 false MYSQL_TIMESTAMP_DATETIME)); cbn; lia.
Defined.
