(* ===== verification/Temporal.v ===== *)
(** Temporal values before they get a type, [sql_type.h]: [Sec6], [Sec9] and
    [VSec9] (numbers with six or nine fractional digits on the way to a time),
    [Sec6_add] (sum and difference of times), [Year], the base class [Temporal],
    [Temporal_hybrid], [Extract_source] and the constants of
    [Interval_DDhhmmssff].

    The functions of [sql_time.cc] and [my_time.c] are a parameter, the class
    [TimeLib]; what the theorems need of them is [TimeLibLaws].  A function that
    writes through a pointer to a time and a pointer to the warnings takes and
    returns both.  The diagnostics written to the session are not modelled. *)
From S2P Require Import Prelude MyTime DateMode SqlTypeInt CDouble.

(** ** The functions of the server that this code calls *)
Class TimeLib := {
  set_zero_time : timestamp_type → MYSQL_TIME → MYSQL_TIME;
  (* neg, nr, sec_part, max_hour, to, was_cut *)
  number_to_time_only : bool → Z → Z → Z → MYSQL_TIME → Z → Z * MYSQL_TIME * Z;
  (* nr, sec_part, to, flags, was_cut *)
  number_to_datetime_or_date : Z → Z → MYSQL_TIME → Z → Z → Z * MYSQL_TIME * Z;
  (* time, dec, warning *)
  check_time_range : MYSQL_TIME → Z → Z → Z * MYSQL_TIME * Z;
  (* l_time1, l_time2, l_sign; the sign, the seconds and the microseconds *)
  calc_time_diff : MYSQL_TIME → MYSQL_TIME → Z → bool * Z * Z;
  calc_time_from_sec : MYSQL_TIME → Z → Z → MYSQL_TIME;
  calc_daynr : Z → Z → Z → Z;
  (* the error, the year, the month and the day *)
  get_date_from_daynr : Z → bool * (Z * Z * Z);
  (* time, dec *)
  adjust_time_range_with_warn : MYSQL_TIME → Z → bool * MYSQL_TIME
}.

(** A signed result that must fit its type. *)
Definition sint (w x : Z) : option Z := if decide (in_s w x) then Some x else None.

(** ** [class Sec6] *)
Record Sec6 := Mk_Sec6 { m_sec : Z; m_usec : Z; m_neg : bool; m_truncated : bool }.

Definition sec6_make_from_int (nr : Hybrid.Longlong_hybrid) : Sec6 :=
  Mk_Sec6 (Hybrid.abs nr) 0 (Hybrid.neg nr) false.
Definition sec6_reset : Sec6 := Mk_Sec6 0 0 false false.
Definition Sec6_hybrid (nr : Hybrid.Longlong_hybrid) : Sec6 := sec6_make_from_int nr.
Definition Sec6_longlong (nr : Z) (unsigned_val : bool) : Sec6 :=
  sec6_make_from_int {| Hybrid.m_value := nr; Hybrid.m_unsigned := unsigned_val |}.

(** ** [class Sec9] *)
Record Sec9 := Mk_Sec9 { sec9_base : Sec6; m_nsec : Z }.
Definition sec9_make_from_int (nr : Hybrid.Longlong_hybrid) : Sec9 :=
  Mk_Sec9 (sec6_make_from_int nr) 0.

(** ** [class Sec6_add] *)
Record Sec6_add := Mk_Sec6_add { add_sec : Z; add_usec : Z; add_neg : bool; add_error : bool }.

(** ** [class Year] *)
Record Year := Mk_Year { m_year : Z; year_truncated : bool }.
Definition Year_default : Year := Mk_Year 0 false.
Definition year_to_YYYYMMDD (y : Year) : Z := to_uint32 (m_year y * 10000).

Section Sec.
Context {L10 : Log10} {TL : TimeLib} (enum_signed dbug : bool).

Definition sec6_add_nanoseconds (s : Sec6) (nanoseconds : Z) : option (bool * Sec6) :=
  _ ← dassert dbug (nanoseconds <=? 1000000000);
  if nanoseconds <? 500 then Some (false, s) else
  let u := to_ulong (m_usec s + to_uint32 (nanoseconds + 500) / 1000) in
  if u <? 1000000 then Some (false, Mk_Sec6 (m_sec s) u (m_neg s) (m_truncated s))
  else Some (true, Mk_Sec6 (m_sec s) (u mod 1000000) (m_neg s) (m_truncated s)).

Definition to_interval_hhmmssff_only (s : Sec6) (to : MYSQL_TIME) (warn : Z)
  : bool * MYSQL_TIME * Z :=
  let '(rc, to, warn) :=
    number_to_time_only (m_neg s) (m_sec s) (m_usec s) TIME_MAX_INTERVAL_HOUR to warn in
  (truth rc, to, warn).

Definition to_datetime_or_date (s : Sec6) (to : MYSQL_TIME) (warn : Z)
    (flags : date_conv_mode_t) : option (bool * MYSQL_TIME * Z) :=
  if m_neg s then Some (true, to, MYSQL_TIME_WARN_OUT_OF_RANGE) else
  let '(rc, to, warn) :=
    number_to_datetime_or_date (m_sec s) (m_usec s) to
      (conv_ulonglong (conv_and enum_signed flags (TIME_MODE_FOR_XXX_TO_DATE enum_signed))) warn in
  let rc := rc =? -1 in
  _ ← dassert dbug (truth warn || negb rc);
  Some (rc, to, warn).

Definition to_datetime_or_to_interval_hhmmssff (s : Sec6) (to : MYSQL_TIME) (warn : Z)
  : option (bool * MYSQL_TIME * Z) :=
  _ ← dassert dbug (TIME_MAX_INTERVAL_HOUR <=? 999999995959);
  if (999999995959 <? m_sec s) && (m_sec s <=? 99991231235959) && negb (m_neg s)
  then to_datetime_or_date s to warn (TIME_INVALID_DATES enum_signed)
  else if TIME_MAX_INTERVAL_HOUR <? m_sec s / 10000
  then Some (true, to, MYSQL_TIME_WARN_OUT_OF_RANGE)
  else Some (to_interval_hhmmssff_only s to warn).

Definition to_datetime_or_time (s : Sec6) (to : MYSQL_TIME) (warn : Z)
    (mode : date_conv_mode_t) : option (bool * MYSQL_TIME * Z) :=
  let '(rc, to, warn) :=
    if (9999999 <? m_sec s) && (m_sec s <=? 99991231235959) && negb (m_neg s)
    then let '(rc, to, warn) :=
           number_to_datetime_or_date (m_sec s) (m_usec s) to
             (conv_ulonglong (conv_and enum_signed mode (TIME_MODE_FOR_XXX_TO_DATE enum_signed)))
             warn in
         (rc <? 0, to, warn)
    else let '(rc, to, warn) :=
           number_to_time_only (m_neg s) (m_sec s) (m_usec s) TIME_MAX_HOUR to warn in
         (truth rc, to, warn) in
  _ ← dassert dbug (truth warn || negb rc);
  Some (rc, to, warn).

(** Convert elapsed seconds to TIME. *)
Definition sec_to_time (s : Sec6) (ltime : MYSQL_TIME) (dec : Z) : option (bool * MYSQL_TIME) :=
  let ltime := set_zero_time MYSQL_TIMESTAMP_TIME ltime in
  let ltime := set_neg (m_neg s) ltime in
  if TIME_MAX_VALUE_SECONDS <? m_sec s then
    let ltime := set_hour (TIME_MAX_HOUR + 1) ltime in
    let '(_, ltime, _) := check_time_range ltime dec 0 in
    Some (true, ltime)
  else
    _ ← dassert dbug (m_usec s <=? TIME_MAX_SECOND_PART);
    let ltime := set_hms (to_uint32 (m_sec s / 3600))
                         (to_uint32 (m_sec s mod 3600) / 60)
                         (to_uint32 (m_sec s) mod 60) ltime in
    Some (false, set_second_part (m_usec s) ltime).

Definition sec6_trunc (s : Sec6) (dec : Z) : option Sec6 :=
  r ← my_time_fraction_remainder dbug (to_long (m_usec s)) dec;
  Some (Mk_Sec6 (m_sec s) (to_ulong (m_usec s - r)) (m_neg s) (m_truncated s)).

Definition sec9_trunc (s : Sec9) (dec : Z) : option Sec9 :=
  b ← sec6_trunc (sec9_base s) dec; Some (Mk_Sec9 b 0).

(** [Sec9::round(dec, mode)]; [round] is [Sec9::round(dec)]. *)
Definition sec9_round_mode (round : Sec9 → Z → option Sec9) (s : Sec9) (dec : Z)
    (mode : time_round_mode_t) : option Sec9 :=
  if round_eq mode (TIME_FRAC_TRUNCATE enum_signed) then sec9_trunc s dec else round s dec.

(** [class VSec9]: a [Sec9] that can be NULL. *)
Definition to_const_sec9 (v : Sec9 * bool) : option Sec9 :=
  _ ← dassert dbug (negb v.2); Some v.1.
Definition vsec9_sec_to_time (v : Sec9 * bool) (ltime : MYSQL_TIME) (dec : Z)
  : option (bool * MYSQL_TIME) :=
  s ← to_const_sec9 v; sec_to_time (sec9_base s) ltime dec.
Definition vsec9_round (round : Sec9 → Z → option Sec9) (v : Sec9 * bool) (dec : Z)
    (mode : time_round_mode_t) : option (Sec9 * bool) :=
  s ← to_const_sec9 v; s ← sec9_round_mode round s dec mode; Some (s, v.2).

(** The constructor of [Sec6_add] leaves the other members of [this] as they
    were when it sets [m_error]. *)
Definition Sec6_add_of (this : Sec6_add) (ltime1 ltime2 : MYSQL_TIME) (sign : Z)
  : option Sec6_add :=
  _ ← dassert dbug ((sign =? -1) || (sign =? 1));
  _ ← dassert dbug (negb (neg ltime1)
                    || bool_decide (time_type ltime1 = MYSQL_TIMESTAMP_TIME));
  if bool_decide (time_type ltime2 ≠ MYSQL_TIMESTAMP_TIME)
  then Some (Mk_Sec6_add (add_sec this) (add_usec this) (add_neg this) true)
  else
    let sign := if eqb (neg ltime1) (neg ltime2) then sign else - sign in
    let '(n, s, u) := calc_time_diff ltime1 ltime2 (- sign) in
    let n := if neg ltime1 && (truth s || truth u) then negb n else n in
    Some (Mk_Sec6_add s u n false).

Definition to_days_abs (a : Sec6_add) : Z := to_long (add_sec a / SECONDS_IN_24H).

Definition to_hh24mmssff (a : Sec6_add) (tstype : timestamp_type) : MYSQL_TIME :=
  let ltime := set_neg (add_neg a) zero_TIME in
  let ltime := calc_time_from_sec ltime (to_ulong (add_sec a mod SECONDS_IN_24H)) (add_usec a) in
  set_type tstype ltime.

(** [to_time] and [to_datetime] return the error and the new [*ltime]. *)
Definition add_to_time (a : Sec6_add) (ltime : MYSQL_TIME) (decimals : Z)
  : option (bool * MYSQL_TIME) :=
  if add_error a then Some (true, ltime) else
  let ltime := to_hh24mmssff a MYSQL_TIMESTAMP_TIME in
  h ← sint long_bits (to_days_abs a * 24);
  let ltime := set_hour (to_uint32 (hour ltime + to_uint32 h)) ltime in
  Some (adjust_time_range_with_warn ltime decimals).

Definition add_to_datetime (a : Sec6_add) (ltime : MYSQL_TIME) : bool * MYSQL_TIME :=
  if add_error a || add_neg a then (true, ltime) else
  let ltime := to_hh24mmssff a MYSQL_TIMESTAMP_DATETIME in
  let '(err, (y, m, d)) := get_date_from_daynr (to_days_abs a) in
  let ltime := set_ymd y m d ltime in
  (err || negb (truth (day ltime)), ltime).

End Sec.

(** ** [class Temporal] *)

(** The parsers of [my_time.c] on an ASCII string: string, flags, the two
    limits on hours where there are any, the status; the error, the time and the
    status. *)
Class StrToTime := {
  str_to_datetime_or_date_or_interval_day :
    list Z → Z → Z → Z → MYSQL_TIME → MYSQL_TIME_STATUS → bool * MYSQL_TIME * MYSQL_TIME_STATUS;
  str_to_datetime_or_date_or_interval_hhmmssff :
    list Z → Z → Z → Z → MYSQL_TIME → MYSQL_TIME_STATUS → bool * MYSQL_TIME * MYSQL_TIME_STATUS;
  str_to_datetime_or_date_or_time :
    list Z → Z → Z → Z → MYSQL_TIME → MYSQL_TIME_STATUS → bool * MYSQL_TIME * MYSQL_TIME_STATUS;
  str_to_datetime_or_date :
    list Z → Z → MYSQL_TIME → MYSQL_TIME_STATUS → bool * MYSQL_TIME * MYSQL_TIME_STATUS
}.

(** The members of [Temporal], [Sec6] and [Sec9] whose bodies are in
    [sql_type.cc]. *)
Class TemporalLib (my_decimal : Type) := {
  (* this, ltime, warn, fuzzydate *)
  convert_to_mysql_time : Sec6 → MYSQL_TIME → Z → date_mode_t → bool * MYSQL_TIME * Z;
  (* this, warn, mode, nsec *)
  add_nanoseconds_with_round : MYSQL_TIME → Z → date_conv_mode_t → Z → bool * MYSQL_TIME * Z;
  Sec9_of_double : spec_float → Sec9;
  Sec9_of_decimal : my_decimal → Sec9
}.

(** [Temporal::Warn]: the status and the value to quote in a warning. *)
Inductive ErrConv (my_decimal : Type) :=
  | ErrNone | ErrDouble (d : spec_float) | ErrLonglong (n : Hybrid.Longlong_hybrid)
  | ErrDecimal (d : my_decimal).
Arguments ErrNone {_}. Arguments ErrDouble {_} d. Arguments ErrLonglong {_} n.
Arguments ErrDecimal {_} d.
Record Warn (my_decimal : Type) := Mk_Warn { warn_status : MYSQL_TIME_STATUS; warn_err : ErrConv my_decimal }.
Arguments Mk_Warn {_}. Arguments warn_status {_}. Arguments warn_err {_}.
Definition set_warnings (w : Z) (st : MYSQL_TIME_STATUS) : MYSQL_TIME_STATUS :=
  Mk_STATUS w (precision st) (nanoseconds st).

Inductive temporal_name := name_date | name_time | name_datetime | name_interval.
Definition type_name_by_timestamp_type (t : timestamp_type) : temporal_name :=
  match t with
  | MYSQL_TIMESTAMP_DATE => name_date
  | MYSQL_TIMESTAMP_TIME => name_time
  | _ => name_datetime
  end.

Definition has_valid_mmssff (t : MYSQL_TIME) : bool :=
  (minute t <=? TIME_MAX_MINUTE) && (second t <=? TIME_MAX_SECOND)
  && (second_part t <=? TIME_MAX_SECOND_PART).
Definition has_zero_YYYYMM (t : MYSQL_TIME) : bool := (year t =? 0) && (month t =? 0).
Definition has_zero_YYYYMMDD (t : MYSQL_TIME) : bool :=
  (year t =? 0) && (month t =? 0) && (day t =? 0).
Definition time_hhmmssff_set_max (max_hour : Z) (t : MYSQL_TIME) : MYSQL_TIME :=
  set_second_part TIME_MAX_SECOND_PART (set_hms max_hour TIME_MAX_MINUTE TIME_MAX_SECOND t).
Definition make_from_out_of_range (t : MYSQL_TIME) : MYSQL_TIME * Z :=
  (set_type MYSQL_TIMESTAMP_NONE t, MYSQL_TIME_WARN_OUT_OF_RANGE).

Definition temporal_to_double (negate : bool) (num frac : Z) : spec_float :=
  let d := dadd (double_of num) (ddiv (double_of frac) (double_of TIME_SECOND_PART_FACTOR)) in
  if negate then SFopp d else d.

Section Temporal.
Context {L10 : Log10} {TL : TimeLib} {SL : StrToTime} {my_decimal : Type}
  {ML : TemporalLib my_decimal} (enum_signed dbug : bool).

Definition temporal_options (flags : date_conv_mode_t) (round_mode : time_round_mode_t)
  : option date_mode_t :=
  _ ← dassert dbug (conv_ulonglong flags <=? 0xFFFFFFFF);
  Some (conv_or_round enum_signed flags round_mode).

(** The name put in a conversion warning, [Warn::push_conversion_warnings]. *)
Definition conversion_typestr (mode : date_mode_t) (tstype : timestamp_type) : temporal_name :=
  if 0 <=? timestamp_code tstype then type_name_by_timestamp_type tstype
  else if conv_bool (mode_and_conv enum_signed mode
                       (conv_or enum_signed (TIME_INTERVAL_hhmmssff enum_signed)
                          (TIME_INTERVAL_DAY enum_signed))) then name_interval
  else if conv_bool (mode_and_conv enum_signed mode (TIME_TIME_ONLY enum_signed)) then name_time
  else name_datetime.

Definition is_valid_temporal (t : MYSQL_TIME) : option bool :=
  _ ← dassert dbug (bool_decide (time_type t ≠ MYSQL_TIMESTAMP_ERROR));
  Some (bool_decide (time_type t ≠ MYSQL_TIMESTAMP_NONE)).

Definition fuzzy_tstype (fuzzydate : date_conv_mode_t) : timestamp_type :=
  if negb (conv_bool (conv_and enum_signed fuzzydate (TIME_FUZZY_DATES enum_signed)))
  then MYSQL_TIMESTAMP_NONE
  else if conv_bool (conv_and enum_signed fuzzydate (TIME_TIME_ONLY enum_signed))
  then MYSQL_TIMESTAMP_TIME
  else MYSQL_TIMESTAMP_DATETIME.
Definition make_fuzzy_date (fuzzydate : date_conv_mode_t) (t : MYSQL_TIME) : MYSQL_TIME :=
  set_zero_time (fuzzy_tstype fuzzydate) t.

Definition add_nanoseconds_ssff (nanoseconds : Z) (t : MYSQL_TIME) : option (bool * MYSQL_TIME) :=
  _ ← dassert dbug (nanoseconds <=? 1000000000);
  if nanoseconds <? 500 then Some (false, t) else
  let t := set_second_part
             (to_ulong (second_part t + to_uint32 (nanoseconds + 500) / 1000)) t in
  if second_part t <? 1000000 then Some (false, t) else
  let t := set_second_part (second_part t mod 1000000) t in
  if second t <? 59 then Some (false, set_second (second t + 1) t)
  else Some (true, set_second 0 t).

Definition add_nanoseconds_mmssff (nanoseconds : Z) (t : MYSQL_TIME) : option (bool * MYSQL_TIME) :=
  '(carry, t) ← add_nanoseconds_ssff nanoseconds t;
  if negb carry then Some (false, t)
  else if minute t <? 59 then Some (false, set_minute (minute t + 1) t)
  else Some (true, set_minute 0 t).

Definition add_nanoseconds (t : MYSQL_TIME) (warn : Z) (mode : date_mode_t) (nsec : Z)
  : option (bool * MYSQL_TIME * Z) :=
  let cmode := mode_conv enum_signed mode in
  r ← mode_round enum_signed dbug mode;
  Some (if round_eq r (TIME_FRAC_ROUND enum_signed)
        then add_nanoseconds_with_round t warn cmode nsec else (false, t, warn)).

Definition make_from_sec6 (t : MYSQL_TIME) (st : MYSQL_TIME_STATUS) (nr : Sec6)
    (mode : date_mode_t) : MYSQL_TIME * MYSQL_TIME_STATUS :=
  let '(err, t, w) := convert_to_mysql_time nr t (warnings st) mode in
  (if err : bool then make_fuzzy_date (mode_conv enum_signed mode) t else t, set_warnings w st).

Definition make_from_sec9 (t : MYSQL_TIME) (st : MYSQL_TIME_STATUS) (nr : Sec9)
    (mode : date_mode_t) : option (MYSQL_TIME * MYSQL_TIME_STATUS) :=
  let '(err, t, w) := convert_to_mysql_time (sec9_base nr) t (warnings st) mode in
  '(err, t, w) ← (if err : bool then Some (true, t, w) else add_nanoseconds t w mode (m_nsec nr));
  Some (if err : bool then make_fuzzy_date (mode_conv enum_signed mode) t else t, set_warnings w st).

(** [if (warn->warnings) warn->set_...(nr)]. *)
Definition warn_set (w : Warn my_decimal) (st : MYSQL_TIME_STATUS) (e : ErrConv my_decimal)
  : Warn my_decimal :=
  Mk_Warn st (if truth (warnings st) then e else warn_err w).

Definition make_from_double (t : MYSQL_TIME) (w : Warn my_decimal) (nr : spec_float)
    (mode : date_mode_t) : option (MYSQL_TIME * Warn my_decimal) :=
  '(t, st) ← make_from_sec9 t (warn_status w) (Sec9_of_double nr) mode;
  Some (t, warn_set w st (ErrDouble nr)).
Definition make_from_longlong_hybrid (t : MYSQL_TIME) (w : Warn my_decimal)
    (nr : Hybrid.Longlong_hybrid) (mode : date_mode_t) : MYSQL_TIME * Warn my_decimal :=
  let '(t, st) := make_from_sec6 t (warn_status w) (Sec6_hybrid nr) mode in
  (t, warn_set w st (ErrLonglong nr)).
Definition make_from_decimal (t : MYSQL_TIME) (w : Warn my_decimal) (nr : my_decimal)
    (mode : date_mode_t) : option (MYSQL_TIME * Warn my_decimal) :=
  '(t, st) ← make_from_sec9 t (warn_status w) (Sec9_of_decimal nr) mode;
  Some (t, warn_set w st (ErrDecimal nr)).

(** Conversion of an ASCII string. *)
Definition date_cflags (mode : date_mode_t) : Z :=
  conv_ulonglong (mode_and_conv enum_signed mode (TIME_MODE_FOR_XXX_TO_DATE enum_signed)).
Definition checked_status (r : bool * MYSQL_TIME * MYSQL_TIME_STATUS)
  : option (bool * MYSQL_TIME * MYSQL_TIME_STATUS) :=
  _ ← dassert dbug (negb r.1.1 || truth (warnings r.2)); Some r.

Definition ascii_to_datetime_or_date_or_interval_DDhhmmssff (t : MYSQL_TIME)
    (st : MYSQL_TIME_STATUS) (str : list Z) (mode : date_mode_t) :=
  let cflags := date_cflags mode in
  checked_status
    (if conv_bool (mode_and_conv enum_signed mode (TIME_INTERVAL_DAY enum_signed))
     then str_to_datetime_or_date_or_interval_day str cflags
            TIME_MAX_INTERVAL_HOUR TIME_MAX_INTERVAL_HOUR t st
     else str_to_datetime_or_date_or_interval_hhmmssff str cflags
            TIME_MAX_INTERVAL_HOUR TIME_MAX_INTERVAL_HOUR t st).
Definition ascii_to_datetime_or_date_or_time (t : MYSQL_TIME)
    (st : MYSQL_TIME_STATUS) (str : list Z) (mode : date_mode_t) :=
  checked_status
    (str_to_datetime_or_date_or_time str (date_cflags mode) TIME_MAX_HOUR 0xFFFFFFFF t st).
Definition ascii_to_datetime_or_date (t : MYSQL_TIME)
    (st : MYSQL_TIME_STATUS) (str : list Z) (mode : date_mode_t) :=
  _ ← dassert dbug
        (negb (conv_bool (mode_and_conv enum_signed mode (TIME_TIME_ONLY enum_signed))));
  checked_status (str_to_datetime_or_date str (date_cflags mode) t st).
Definition ascii_to_temporal (t : MYSQL_TIME) (st : MYSQL_TIME_STATUS) (str : list Z)
    (mode : date_mode_t) :=
  if conv_bool (mode_and_conv enum_signed mode
                  (conv_or enum_signed (TIME_INTERVAL_hhmmssff enum_signed)
                     (TIME_INTERVAL_DAY enum_signed)))
  then ascii_to_datetime_or_date_or_interval_DDhhmmssff t st str mode
  else if conv_bool (mode_and_conv enum_signed mode (TIME_TIME_ONLY enum_signed))
  then ascii_to_datetime_or_date_or_time t st str mode
  else ascii_to_datetime_or_date t st str mode.

(** ** [class Temporal_hybrid] *)

(** Constructors: the storage [this], the warning, the value. *)
Definition hybrid_of_longlong (this : MYSQL_TIME) (w : Warn my_decimal)
    (nr : Hybrid.Longlong_hybrid) (mode : date_mode_t) : MYSQL_TIME * Warn my_decimal :=
  make_from_longlong_hybrid this w nr mode.
Definition hybrid_of_double (this : MYSQL_TIME) (w : Warn my_decimal) (nr : spec_float)
    (mode : date_mode_t) := make_from_double this w nr mode.
Definition hybrid_of_longlong_null (this : MYSQL_TIME) (w : Warn my_decimal)
    (nr : Hybrid.Longlong_hybrid * bool) (mode : date_mode_t) : MYSQL_TIME * Warn my_decimal :=
  if nr.2 then (set_type MYSQL_TIMESTAMP_NONE this, w)
  else make_from_longlong_hybrid this w nr.1 mode.
Definition hybrid_of_double_null (this : MYSQL_TIME) (w : Warn my_decimal)
    (nr : spec_float * bool) (mode : date_mode_t) : option (MYSQL_TIME * Warn my_decimal) :=
  if nr.2 then Some (set_type MYSQL_TIMESTAMP_NONE this, w) else make_from_double this w nr.1 mode.
Definition hybrid_of_decimal (this : MYSQL_TIME) (w : Warn my_decimal)
    (nr : option my_decimal) (mode : date_mode_t) : option (MYSQL_TIME * Warn my_decimal) :=
  match nr with
  | None => Some (set_type MYSQL_TIMESTAMP_NONE this, w)
  | Some nr => make_from_decimal this w nr mode
  end.

Definition copy_valid_value_to_mysql_time (this : MYSQL_TIME) : option (bool * MYSQL_TIME) :=
  v ← is_valid_temporal this; _ ← dassert dbug v; Some (false, this).

(** [-(longlong) v] for a sign and an unsigned 64-bit value. *)
Definition signed_longlong (n : bool) (v : Z) : option Z :=
  if n then sint 64 (- to_longlong v) else Some (to_longlong v).
Definition hybrid_to_longlong (TIME_to_ulonglong : MYSQL_TIME → Z) (t : MYSQL_TIME) : option Z :=
  v ← is_valid_temporal t;
  if negb v then Some 0 else signed_longlong (neg t) (TIME_to_ulonglong t).

(** ** [class Extract_source] *)
Definition time_to_daytime_interval (t : MYSQL_TIME) : option MYSQL_TIME :=
  _ ← dassert dbug (bool_decide (time_type t = MYSQL_TIMESTAMP_TIME));
  _ ← dassert dbug (has_zero_YYYYMMDD t);
  Some (set_hour (hour t mod 24) (set_day (hour t / 24) t)).
Definition is_valid_extract_source_slow (t : MYSQL_TIME) : option bool :=
  v ← is_valid_temporal t;
  Some (v && (hour t <? 24)
        && (has_zero_YYYYMM t || bool_decide (time_type t ≠ MYSQL_TIMESTAMP_TIME))).
Definition extract_valid_value_slow (t : MYSQL_TIME) : option bool :=
  if bool_decide (time_type t = MYSQL_TIMESTAMP_NONE) then Some true
  else is_valid_extract_source_slow t.
(** The constructor, on the value that [Temporal_hybrid] made of the item. *)
Definition Extract_source (t : MYSQL_TIME) : option MYSQL_TIME :=
  t ← (if bool_decide (time_type t = MYSQL_TIMESTAMP_TIME)
       then time_to_daytime_interval t else Some t);
  v ← extract_valid_value_slow t; _ ← dassert dbug v; Some t.
Definition extract_get_mysql_time (t : MYSQL_TIME) : option MYSQL_TIME :=
  v ← is_valid_extract_source_slow t; _ ← dassert dbug v; Some t.

Definition ex_sign (t : MYSQL_TIME) : option Z :=
  t ← extract_get_mysql_time t; Some (if neg t then -1 else 1).
Definition ex_year (t : MYSQL_TIME) : option Z := t ← extract_get_mysql_time t; Some (year t).
Definition ex_month (t : MYSQL_TIME) : option Z := t ← extract_get_mysql_time t; Some (month t).
(** A member as an [int], with the sign. *)
Definition ex_signed (f : MYSQL_TIME → Z) (t : MYSQL_TIME) : option Z :=
  s ← ex_sign t; t ← extract_get_mysql_time t; sint 32 (to_int32 (f t) * s).
Definition ex_day : MYSQL_TIME → option Z := ex_signed day.
Definition ex_hour : MYSQL_TIME → option Z := ex_signed hour.
Definition ex_minute : MYSQL_TIME → option Z := ex_signed minute.
Definition ex_second : MYSQL_TIME → option Z := ex_signed second.
Definition ex_microsecond : MYSQL_TIME → option Z := ex_signed second_part.
Definition ex_year_month (t : MYSQL_TIME) : option Z :=
  y ← ex_year t; m ← ex_month t; Some (to_uint32 (y * 100 + m)).
Definition ex_quarter (t : MYSQL_TIME) : option Z :=
  m ← ex_month t; Some (to_uint32 (m + 2) / 3).

(** [a * k + b] in an integer type of [w] bits. *)
Definition muladd (w : Z) (a : option Z) (k : Z) (b : option Z) : option Z :=
  a ← a; b ← b; p ← sint w (a * k); sint w (p + b).
Definition ex_second_microsecond (t : MYSQL_TIME) := muladd 64 (ex_second t) 1000000 (ex_microsecond t).
Definition ex_day_hour (t : MYSQL_TIME) := muladd 64 (ex_day t) 100 (ex_hour t).
Definition ex_day_minute (t : MYSQL_TIME) := muladd 64 (ex_day_hour t) 100 (ex_minute t).
Definition ex_day_second (t : MYSQL_TIME) := muladd 64 (ex_day_minute t) 100 (ex_second t).
Definition ex_day_microsecond (t : MYSQL_TIME) := muladd 64 (ex_day_second t) 1000000 (ex_microsecond t).
Definition ex_hour_minute (t : MYSQL_TIME) := muladd 32 (ex_hour t) 100 (ex_minute t).
Definition ex_hour_second (t : MYSQL_TIME) := muladd 32 (ex_hour_minute t) 100 (ex_second t).
Definition ex_hour_microsecond (t : MYSQL_TIME) := muladd 64 (ex_hour_second t) 1000000 (ex_microsecond t).
Definition ex_minute_second (t : MYSQL_TIME) := muladd 32 (ex_minute t) 100 (ex_second t).
Definition ex_minute_microsecond (t : MYSQL_TIME) := muladd 64 (ex_minute_second t) 1000000 (ex_microsecond t).

(** ** [class Interval_DDhhmmssff] *)
Definition is_valid_interval_DDhhmmssff_slow (t : MYSQL_TIME) : bool :=
  bool_decide (time_type t = MYSQL_TIMESTAMP_TIME) && has_zero_YYYYMMDD t && has_valid_mmssff t.
Definition interval_valid_value_slow (t : MYSQL_TIME) : bool :=
  bool_decide (time_type t = MYSQL_TIMESTAMP_NONE) || is_valid_interval_DDhhmmssff_slow t.
Definition interval_get_mysql_time (t : MYSQL_TIME) : option MYSQL_TIME :=
  _ ← dassert dbug (is_valid_interval_DDhhmmssff_slow t); Some t.
Definition is_valid_interval_DDhhmmssff (t : MYSQL_TIME) : bool :=
  bool_decide (time_type t = MYSQL_TIMESTAMP_TIME).
Definition interval_valid_value (t : MYSQL_TIME) : bool :=
  bool_decide (time_type t = MYSQL_TIMESTAMP_NONE) || is_valid_interval_DDhhmmssff t.
Definition interval_max_useful_hour : Z := TIME_MAX_INTERVAL_HOUR.
Definition max_int_part_char_length : Z := 1 + TIME_MAX_INTERVAL_DAY_CHAR_LENGTH + 1 + 8.
Definition max_char_length (fsp : Z) : option Z :=
  _ ← dassert dbug (fsp <=? TIME_SECOND_PART_DIGITS);
  Some (max_int_part_char_length + (if truth fsp then 1 else 0) + fsp).

End Temporal.

(** ** Specification *)

(** Nanoseconds rounded to microseconds. *)
Definition rounded_usecs (ns : Z) : Z := (ns + 500) / 1000.

(** Day and time of day in microseconds; the day of a TIME is its [day] member. *)
Definition full_usecs {TL : TimeLib} (t : MYSQL_TIME) : Z :=
  (if bool_decide (time_type t = MYSQL_TIMESTAMP_TIME) then day t
   else calc_daynr (year t) (month t) (day t)) * (SECONDS_IN_24H * 1000000) + usecs t.
Definition signed_full {TL : TimeLib} (t : MYSQL_TIME) : Z :=
  if neg t then - full_usecs t else full_usecs t.

(** The largest TIME with [dec] digits, '838:59:59.999999' truncated. *)
Definition max_part (dec : Z) : Z := TIME_MAX_SECOND_PART - TIME_MAX_SECOND_PART mod usec_unit dec.
Definition max_usecs (dec : Z) : Z := TIME_MAX_VALUE_SECONDS * 1000000 + max_part dec.
Definition max_TIME (dec : Z) (t : MYSQL_TIME) : MYSQL_TIME :=
  set_second_part (max_part dec) (set_hms TIME_MAX_HOUR TIME_MAX_MINUTE TIME_MAX_SECOND t).

Class TimeLibLaws {TL : TimeLib} : Prop := {
  set_zero_time_spec k t : set_zero_time k t = set_type k zero_TIME;
  check_time_range_in t dec w : 0 ≤ dec ≤ 6 → day t = 0 → 0 ≤ hour t → mmssff_ok t →
    usecs t ≤ max_usecs dec → check_time_range t dec w = (0, t, w);
  check_time_range_max t dec w : 0 ≤ dec ≤ 6 → day t = 0 → 0 ≤ hour t → mmssff_ok t →
    max_usecs dec < usecs t →
    check_time_range t dec w = (0, max_TIME dec t, Z.lor w MYSQL_TIME_WARN_OUT_OF_RANGE);
  (* +1: absolute values are subtracted; -1: they are added *)
  calc_time_diff_spec t1 t2 sign : sign = 1 ∨ sign = -1 →
    let d := full_usecs t1 - sign * full_usecs t2 in
    calc_time_diff t1 t2 sign = (d <? 0, Z.abs d / 1000000, Z.abs d mod 1000000);
  calc_time_from_sec_spec t s u : 0 ≤ s < SECONDS_IN_24H → 0 ≤ u < 1000000 →
    let t' := calc_time_from_sec t s u in
    hour t' = s / 3600 ∧ minute t' = s mod 3600 / 60 ∧ second t' = s mod 60
    ∧ second_part t' = u ∧ neg t' = neg t ∧ (year t', month t', day t') = (0, 0, 0)
}.

(** A library that satisfies the laws. *)
Definition demo_TimeLib : TimeLib := {|
  set_zero_time k t := set_type k zero_TIME;
  number_to_time_only n nr f max_hour to w :=
    if max_hour <? nr / 10000
    then (1, time_hhmmssff_set_max max_hour (set_neg n (set_type MYSQL_TIMESTAMP_TIME zero_TIME)),
          MYSQL_TIME_WARN_OUT_OF_RANGE)
    else (0, Mk_TIME 0 0 0 (nr / 10000) ((nr / 100 mod 100) `min` 59) ((nr mod 100) `min` 59)
               f n MYSQL_TIMESTAMP_TIME, w);
  number_to_datetime_or_date nr f to flags w :=
    (0, Mk_TIME ((nr / 10000000000) `min` 9999) ((nr / 100000000 mod 100) `min` 12)
          ((nr / 1000000 mod 100) `min` 31) ((nr / 10000 mod 100) `min` 23)
          ((nr / 100 mod 100) `min` 59) ((nr mod 100) `min` 59)
          f false MYSQL_TIMESTAMP_DATETIME, w);
  check_time_range t dec w :=
    if usecs t <=? max_usecs dec then (0, t, w)
    else (0, max_TIME dec t, Z.lor w MYSQL_TIME_WARN_OUT_OF_RANGE);
  calc_daynr y m d := y * 372 + m * 31 + d;
  calc_time_diff t1 t2 sign :=
    let days t := if bool_decide (time_type t = MYSQL_TIMESTAMP_TIME) then day t
                  else year t * 372 + month t * 31 + day t in
    let full t := days t * (SECONDS_IN_24H * 1000000) + usecs t in
    let d := full t1 - sign * full t2 in
    (d <? 0, Z.abs d / 1000000, Z.abs d mod 1000000);
  calc_time_from_sec t s u :=
    Mk_TIME 0 0 0 (s / 3600) (s mod 3600 / 60) (s mod 60) u (neg t) MYSQL_TIMESTAMP_TIME;
  get_date_from_daynr n := (n <? 0, (n / 372, n / 31 mod 12, n mod 31));
  adjust_time_range_with_warn t dec :=
    if usecs t <=? max_usecs dec then (false, t) else (false, max_TIME dec t)
|}.

#[export] Instance demo_TimeLibLaws : @TimeLibLaws demo_TimeLib.
Proof.
  split; simpl.
  - done.
  - intros t dec w _ _ _ _ H. destruct (Z.leb_spec (usecs t) (max_usecs dec)); [done|lia].
  - intros t dec w _ _ _ _ H. destruct (Z.leb_spec (usecs t) (max_usecs dec)); [lia|done].
  - done.
  - done.
Qed.

(** ** Lemmas *)

Lemma to_uint32_small x : 0 ≤ x < 2 ^ 32 → to_uint32 x = x.
Proof. intros. by apply wrap_id. Qed.

Lemma sint_ok w x : in_s w x → sint w x = Some x.
Proof. intros H. unfold sint. by rewrite decide_True. Qed.

Lemma has_valid_mmssff_ok t : mmssff_ok t → has_valid_mmssff t = true.
Proof.
  intros (?&?&?). unfold has_valid_mmssff, TIME_MAX_MINUTE, TIME_MAX_SECOND, TIME_MAX_SECOND_PART.
  zcases; cbn; lia || done.
Qed.

(** The addition all four [add_nanoseconds] have in common. *)
Lemma add_part f ns : 0 ≤ f ≤ 999999 → 0 ≤ ns ≤ 1000000000 →
  to_ulong (f + to_uint32 (ns + 500) / 1000) = f + rounded_usecs ns
  ∧ 0 ≤ rounded_usecs ns ≤ 1000000.
Proof.
  intros Hf Hn. unfold rounded_usecs.
  rewrite (to_uint32_small (ns + 500)) by lia.
  assert (0 ≤ (ns + 500) / 1000 ≤ 1000000).
  { split; [apply Z.div_pos; lia|]. transitivity (1000000500 / 1000); [apply Z.div_le_mono; lia|done]. }
  split; [|done]. apply wrap_id. unfold in_u, long_bits. change (2 ^ 32) with 4294967296.
  generalize dependent ((ns + 500) / 1000). lia.
Qed.

Lemma rounded_small ns : 0 ≤ ns < 500 → rounded_usecs ns = 0.
Proof. intros. unfold rounded_usecs. apply Z.div_small. lia. Qed.

Lemma mod_million x : 1000000 ≤ x < 2000000 → x mod 1000000 = x - 1000000.
Proof. intros. symmetry. apply (Z.mod_unique _ _ 1); lia. Qed.

(** ** Theorems on [Sec6] and [Temporal] *)
Section SecTheorems.
Context {L10 : Log10} {HL : Log10Laws} {TL : TimeLib} {TLL : TimeLibLaws}
  (enum_signed dbug : bool).

Lemma add_nanoseconds_ssff_value t ns : mmssff_ok t → 0 ≤ ns ≤ 1000000000 →
  ∃ carry t', add_nanoseconds_ssff dbug ns t = Some (carry, t')
    ∧ usecs t' + (if carry : bool then 60000000 else 0) = usecs t + rounded_usecs ns
    ∧ mmssff_ok t' ∧ minute t' = minute t
    ∧ set_second_part (second_part t) (set_second (second t) t') = t.
Proof.
  intros (Hm & Hs & Hf) Hn. unfold add_nanoseconds_ssff.
  rewrite dassert_true by (apply Z.leb_le; lia). cbn [mbind option_bind].
  destruct (add_part _ ns Hf Hn) as [E Hr].
  destruct (Z.ltb_spec ns 500).
  { exists false, t. rewrite rounded_small by lia. repeat split; first [done|lia|by destruct t]. }
  rewrite E. cbn [second_part set_second_part].
  destruct t as [y m d h mi s f n k]; cbn in *.
  destruct (Z.ltb_spec (f + rounded_usecs ns) 1000000).
  { eexists false, _. split; [done|]. unfold usecs, mmssff_ok. cbn. split; [lia|].
    repeat split; lia || done. }
  unfold set_second_part. cbn. rewrite mod_million by lia.
  destruct (Z.ltb_spec s 59).
  - eexists false, _. split; [done|]. unfold usecs, mmssff_ok. cbn. split; [lia|].
    repeat split; lia || done.
  - eexists true, _. split; [done|]. unfold usecs, mmssff_ok. cbn. split; [lia|].
    repeat split; lia || done.
Qed.

Lemma add_nanoseconds_mmssff_value t ns : mmssff_ok t → 0 ≤ ns ≤ 1000000000 →
  ∃ carry t', add_nanoseconds_mmssff dbug ns t = Some (carry, t')
    ∧ usecs t' + (if carry : bool then 3600000000 else 0) = usecs t + rounded_usecs ns
    ∧ mmssff_ok t'
    ∧ set_second_part (second_part t) (set_hms (hour t') (minute t) (second t) t') = t.
Proof.
  intros Hok Hn.
  destruct (add_nanoseconds_ssff_value t ns Hok Hn) as (c & t1 & E & Ev & Hok1 & Em & Et).
  unfold add_nanoseconds_mmssff. rewrite E. cbn [mbind option_bind].
  pose proof Hok1 as (?&?&?).
  destruct t as [y m d h mi sc f n k], t1 as [y1 m1 d1 h1 mi1 sc1 f1 n1 k1].
  injection Et as -> -> -> -> -> -> ->. cbn in *.
  unfold usecs, mmssff_ok in *. cbn in *.
  destruct c; cbn.
  + destruct (Z.ltb_spec mi 59); eexists _, _; (split; [done|]); cbn;
      repeat split; lia || done.
  + eexists _, _; (split; [done|]); cbn; repeat split; lia || done.
Qed.

Lemma sec6_add_nanoseconds_value s ns : 0 ≤ m_usec s ≤ 999999 → 0 ≤ ns ≤ 1000000000 →
  ∃ carry s', sec6_add_nanoseconds dbug s ns = Some (carry, s')
    ∧ m_usec s' + (if carry : bool then 1000000 else 0) = m_usec s + rounded_usecs ns
    ∧ 0 ≤ m_usec s' ≤ 999999 ∧ m_sec s' = m_sec s ∧ m_neg s' = m_neg s.
Proof.
  intros Hu Hn.
  unfold sec6_add_nanoseconds. rewrite dassert_true by (apply Z.leb_le; lia).
  cbn [mbind option_bind]. destruct (add_part _ ns Hu Hn) as [E Hr]. rewrite E.
  destruct (Z.ltb_spec ns 500).
  { exists false, s. rewrite rounded_small by lia. repeat split; lia || done. }
  destruct (Z.ltb_spec (m_usec s + rounded_usecs ns) 1000000);
    eexists _, _; (split; [done|]); cbn; rewrite ?mod_million by lia;
    repeat split; lia || done.
Qed.

(** Adding nanoseconds to the minutes, seconds and
    microseconds of a time adds the nanoseconds rounded to the nearest
    microsecond, modulo an hour; the result says whether the hour overflowed,
    and the parts stay in range.  The microseconds of a [Sec6] carry in the same
    way. *)
Theorem add_nanoseconds_correct t s ns (Hok : mmssff_ok t)
    (Hu : 0 ≤ m_usec s ≤ 999999) (Hn : 0 ≤ ns ≤ 1000000000) :
  (∃ carry t', add_nanoseconds_mmssff dbug ns t = Some (carry, t')
    ∧ usecs t' + (if carry : bool then 3600000000 else 0) = usecs t + rounded_usecs ns
    ∧ mmssff_ok t'
    ∧ set_second_part (second_part t) (set_hms (hour t') (minute t) (second t) t') = t)
  ∧ (∃ carry s', sec6_add_nanoseconds dbug s ns = Some (carry, s')
    ∧ m_usec s' + (if carry : bool then 1000000 else 0) = m_usec s + rounded_usecs ns
    ∧ 0 ≤ m_usec s' ≤ 999999 ∧ m_sec s' = m_sec s ∧ m_neg s' = m_neg s)
  ∧ Z.abs (rounded_usecs ns * 1000 - ns) ≤ 500.
Proof.
  split; [by apply add_nanoseconds_mmssff_value|].
  split; [by apply sec6_add_nanoseconds_value|].
  unfold rounded_usecs. Z.to_euclidean_division_equations; lia.
Qed.

Lemma max_part_range dec : 0 ≤ dec ≤ 6 → 0 ≤ max_part dec ≤ 999999.
Proof.
  intros H. unfold max_part, TIME_MAX_SECOND_PART. pose proof (usec_unit_pos dec H).
  pose proof (Z.mod_pos_bound 999999 (usec_unit dec)).
  pose proof (Z.mod_le 999999 (usec_unit dec)). lia.
Qed.

(** Hours, minutes and seconds of a number of seconds. *)
Lemma hms_of_sec s : 0 ≤ s →
  (s / 3600 * 60 + s mod 3600 / 60) * 60 + s mod 60 = s
  ∧ 0 ≤ s / 3600 ∧ 0 ≤ s mod 3600 / 60 ≤ 59 ∧ 0 ≤ s mod 60 ≤ 59.
Proof. intros. Z.to_euclidean_division_equations. lia. Qed.

Lemma sec_to_time_value s t dec : 0 ≤ dec ≤ 6 → 0 ≤ m_sec s → 0 ≤ m_usec s ≤ 999999 →
  ∃ t', sec_to_time dbug s t dec = Some (bool_decide (TIME_MAX_VALUE_SECONDS < m_sec s), t')
    ∧ time_type t' = MYSQL_TIMESTAMP_TIME ∧ neg t' = m_neg s
    ∧ (year t', month t', day t') = (0, 0, 0) ∧ mmssff_ok t' ∧ 0 ≤ hour t' ≤ TIME_MAX_HOUR
    ∧ usecs t' = if bool_decide (TIME_MAX_VALUE_SECONDS < m_sec s)
                 then max_usecs dec else m_sec s * 1000000 + m_usec s.
Proof.
  intros Hd Hs Hu.
  unfold sec_to_time. rewrite set_zero_time_spec. pose proof (max_part_range dec Hd) as Hp.
  assert (TIME_MAX_VALUE_SECONDS = 3020399) as EM by done.
  destruct (Z.ltb_spec TIME_MAX_VALUE_SECONDS (m_sec s)).
  - rewrite bool_decide_true by done.
    rewrite check_time_range_max; try done.
    2:{ unfold usecs, max_usecs. cbn -[Z.mul Z.add max_part]. unfold TIME_MAX_HOUR. lia. }
    eexists. split; [done|]. unfold max_TIME, mmssff_ok, usecs, max_usecs. cbn -[Z.mul Z.add max_part].
    rewrite EM. unfold TIME_MAX_HOUR, TIME_MAX_MINUTE, TIME_MAX_SECOND.
    repeat split; lia || done.
  - rewrite bool_decide_false by lia.
    rewrite dassert_true by (apply Z.leb_le; unfold TIME_MAX_SECOND_PART; lia).
    cbn [mbind option_bind]. destruct (hms_of_sec (m_sec s) Hs) as (E & H1 & H2 & H3).
    assert (m_sec s / 3600 ≤ 838) by (apply Z.lt_succ_r, Z.div_lt_upper_bound; lia).
    pose proof (Z.mod_pos_bound (m_sec s) 3600).
    rewrite (to_uint32_small (m_sec s / 3600)), (to_uint32_small (m_sec s mod 3600)),
      (to_uint32_small (m_sec s)) by lia.
    eexists. split; [done|]. unfold mmssff_ok, usecs. cbn -[Z.mul Z.add Z.div Z.modulo].
    unfold TIME_MAX_HOUR. repeat split; lia || done.
Qed.

(** Converting elapsed seconds to TIME keeps the sign, the
    seconds and the microseconds of every value within '838:59:59'; a larger one
    becomes the largest TIME with [dec] digits, and the result says so. *)
Theorem sec_to_time_correct s t dec (Hd : 0 ≤ dec ≤ 6) (Hs : 0 ≤ m_sec s)
    (Hu : 0 ≤ m_usec s ≤ 999999) :
  ∃ t', sec_to_time dbug s t dec = Some (bool_decide (TIME_MAX_VALUE_SECONDS < m_sec s), t')
    ∧ time_type t' = MYSQL_TIMESTAMP_TIME ∧ neg t' = m_neg s
    ∧ (year t', month t', day t') = (0, 0, 0) ∧ mmssff_ok t' ∧ 0 ≤ hour t' ≤ TIME_MAX_HOUR
    ∧ usecs t' = if bool_decide (TIME_MAX_VALUE_SECONDS < m_sec s)
                 then max_usecs dec else m_sec s * 1000000 + m_usec s.
Proof. by apply sec_to_time_value. Qed.

(** Splitting seconds in days and a time of day. *)
Lemma days_of_sec s : 0 ≤ s < 2 ^ 31 * 3600 →
  let r := s mod SECONDS_IN_24H in
  0 ≤ r < SECONDS_IN_24H ∧ to_ulong r = r
  ∧ to_long (s / SECONDS_IN_24H) = s / SECONDS_IN_24H
  ∧ sint long_bits (s / SECONDS_IN_24H * 24) = Some (s / SECONDS_IN_24H * 24)
  ∧ r / 3600 + s / SECONDS_IN_24H * 24 = s / 3600
  ∧ r mod 3600 / 60 = s mod 3600 / 60 ∧ r mod 60 = s mod 60
  ∧ 0 ≤ s / 3600 < 2 ^ 31 ∧ 0 ≤ s / SECONDS_IN_24H * 24 < 2 ^ 31.
Proof.
  unfold SECONDS_IN_24H. change (2 ^ 31) with 2147483648. intros Hs. cbv zeta.
  remember (s mod 86400) as r eqn:Er.
  assert (0 ≤ r < 86400 ∧ s = 86400 * (s / 86400) + r) as (Hr & E)
    by (rewrite Er; Z.to_euclidean_division_equations; lia).
  clear Er. set (q := s / 86400) in *.
  assert (0 ≤ q * 24 < 2147483648) as Hq by lia.
  assert (s / 3600 = r / 3600 + q * 24) as E1
    by (rewrite E; replace (86400 * q + r) with (r + q * 24 * 3600) by lia;
        rewrite Z.div_add by lia; done).
  assert (s mod 3600 = r mod 3600) as E2
    by (rewrite E; replace (86400 * q + r) with (r + q * 24 * 3600) by lia;
        rewrite Z.mod_add by lia; done).
  assert (s mod 60 = r mod 60) as E3
    by (rewrite E; replace (86400 * q + r) with (r + q * 1440 * 60) by lia;
        rewrite Z.mod_add by lia; done).
  split; [done|]. unfold to_ulong, to_long, long_bits.
  rewrite wrap_id by (unfold in_u; change (2 ^ 32) with 4294967296; lia).
  rewrite swrap_id by (try done; unfold in_s; change (2 ^ (32 - 1)) with 2147483648; lia).
  rewrite sint_ok by (unfold in_s; change (2 ^ (32 - 1)) with 2147483648; lia).
  assert (0 ≤ s / 3600 < 2147483648) by (split; [apply Z.div_pos; lia|apply Z.div_lt_upper_bound; lia]).
  rewrite E1, E2, E3 in *. repeat split; done || lia.
Qed.

(** The time of day and the hours that [Sec6_add::to_time] computes. *)
Lemma to_hh24mmssff_value a k : 0 ≤ add_sec a < 2 ^ 31 * 3600 → 0 ≤ add_usec a < 1000000 →
  ∃ t, to_hh24mmssff a k = t ∧ time_type t = k ∧ neg t = add_neg a
    ∧ (year t, month t, day t) = (0, 0, 0)
    ∧ hour t + to_days_abs a * 24 = add_sec a / 3600 ∧ 0 ≤ hour t
    ∧ minute t = add_sec a mod 3600 / 60 ∧ second t = add_sec a mod 60
    ∧ second_part t = add_usec a.
Proof.
  intros Hs Hu. destruct (days_of_sec _ Hs) as (Hr & Er & El & _ & Eh & Em & Es & Hh & _).
  unfold to_hh24mmssff, to_days_abs. rewrite Er, El.
  destruct (calc_time_from_sec_spec (set_neg (add_neg a) zero_TIME) _ _ Hr Hu)
    as (H1 & H2 & H3 & H4 & H5 & H6).
  set (t0 := calc_time_from_sec _ _ _) in *. exists (set_type k t0). split; [done|].
  destruct t0 as [y m d h mi s f n k0]; cbn -[Z.mul Z.add Z.div Z.modulo] in *. subst.
  injection H6 as -> -> ->. rewrite Em, Es. repeat split; try done. apply Z.div_pos; lia.
Qed.

Lemma add_to_time_value a lt dec :
  0 ≤ add_sec a < 2 ^ 31 * 3600 → 0 ≤ add_usec a < 1000000 → add_error a = false →
  ∃ t, add_to_time a lt dec = Some (adjust_time_range_with_warn t dec)
    ∧ signed_usecs t = (if add_neg a then -1 else 1) * (add_sec a * 1000000 + add_usec a)
    ∧ mmssff_ok t ∧ (year t, month t, day t) = (0, 0, 0).
Proof.
  intros Hs Hu He.
  destruct (to_hh24mmssff_value a MYSQL_TIMESTAMP_TIME Hs Hu)
    as (t & Et & _ & En & Ey & Eh & Hh0 & Em & Esec & Ef).
  destruct (days_of_sec _ Hs) as (_ & _ & El & Esint & _ & _ & _ & Hh & Hd).
  destruct (hms_of_sec (add_sec a)) as (Eall & _ & Hm60 & Hs60); [lia|].
  unfold add_to_time. rewrite He, Et. unfold to_days_abs in *. rewrite El in *. rewrite Esint.
  cbn [mbind option_bind]. change (2 ^ 31) with 2147483648 in *.
  rewrite (to_uint32_small (_ * 24)) by (change (2 ^ 32) with 4294967296; lia).
  rewrite to_uint32_small by (change (2 ^ 32) with 4294967296; lia). rewrite Eh.
  eexists. split; [done|]. destruct t as [y m d h mi s f n k].
  unfold signed_usecs, usecs, mmssff_ok. cbn -[Z.mul Z.add Z.div Z.modulo] in *. subst mi s f n.
  split; [rewrite Eall; destruct (add_neg a); lia|]. split; [lia|done].
Qed.

Lemma sec6_add_of_ok this t1 t2 sign : sign = 1 ∨ sign = -1 →
  (neg t1 = true → time_type t1 = MYSQL_TIMESTAMP_TIME) →
  time_type t2 = MYSQL_TIMESTAMP_TIME →
  let d := full_usecs t1 - - (if eqb (neg t1) (neg t2) then sign else - sign) * full_usecs t2 in
  Sec6_add_of dbug this t1 t2 sign = Some (Mk_Sec6_add (Z.abs d / 1000000) (Z.abs d mod 1000000)
    (if neg t1 && negb (d =? 0) then negb (d <? 0) else d <? 0) false).
Proof.
  intros Hsign H1 H2. cbv zeta. unfold Sec6_add_of.
  assert ((sign =? -1) || (sign =? 1) = true) as E1 by (by destruct Hsign as [-> | ->]).
  assert (negb (neg t1) || bool_decide (time_type t1 = MYSQL_TIMESTAMP_TIME) = true) as E2.
  { destruct (neg t1); [|done]. cbn. by apply bool_decide_eq_true, H1. }
  rewrite (dassert_true dbug _ E1). cbn [mbind option_bind].
  rewrite (dassert_true dbug _ E2). cbn [mbind option_bind].
  rewrite bool_decide_false by (intros Hn; by apply Hn).
  rewrite calc_time_diff_spec by (destruct (eqb _ _), Hsign as [-> | ->]; auto).
  cbv zeta beta. set (d := full_usecs t1 - _).
  assert (truth (Z.abs d / 1000000) || truth (Z.abs d mod 1000000) = negb (d =? 0)) as Et.
  { unfold truth. zcases; cbn; try done; exfalso; Z.to_euclidean_division_equations; lia. }
  by rewrite Et.
Qed.

Lemma sec6_add_of_error this t1 t2 sign a lt dec : time_type t2 ≠ MYSQL_TIMESTAMP_TIME →
  Sec6_add_of dbug this t1 t2 sign = Some a →
  add_to_time a lt dec = Some (true, lt) ∧ add_to_datetime a lt = (true, lt).
Proof.
  intros Hk (? & _ & (? & _ & E)%bind_Some)%bind_Some.
  rewrite bool_decide_true in E by done. by injection E as <-.
Qed.

(** [Sec6_add] of a valid value and a TIME holds the sum or the
    difference of the two, as sign, seconds and microseconds; converted to TIME
    it is the same value, days counted as hours, cut to the range of TIME.  A second
    argument that is not a TIME is an error of both conversions, and a negative
    result is one of the conversion to DATETIME. *)
Theorem sec6_add_correct this t1 t2 sign lt dec (Hsign : sign = 1 ∨ sign = -1)
    (H1 : neg t1 = true → time_type t1 = MYSQL_TIMESTAMP_TIME)
    (H2 : time_type t2 = MYSQL_TIMESTAMP_TIME)
    (Hr : Z.abs (signed_full t1 + sign * signed_full t2) < 2 ^ 31 * 3600000000) :
  ∃ a, Sec6_add_of dbug this t1 t2 sign = Some a ∧ add_error a = false
    ∧ (if add_neg a then -1 else 1) * (add_sec a * 1000000 + add_usec a)
      = signed_full t1 + sign * signed_full t2
    ∧ 0 ≤ add_usec a < 1000000 ∧ 0 ≤ add_sec a
    ∧ (∃ t, add_to_time a lt dec = Some (adjust_time_range_with_warn t dec)
         ∧ signed_usecs t = signed_full t1 + sign * signed_full t2
         ∧ mmssff_ok t ∧ (year t, month t, day t) = (0, 0, 0))
    ∧ (add_neg a = true → add_to_datetime a lt = (true, lt))
    ∧ (∀ t2' a', time_type t2' ≠ MYSQL_TIMESTAMP_TIME →
        Sec6_add_of dbug this t1 t2' sign = Some a' →
        add_to_time a' lt dec = Some (true, lt) ∧ add_to_datetime a' lt = (true, lt)).
Proof.
  set (d := full_usecs t1 - - (if eqb (neg t1) (neg t2) then sign else - sign) * full_usecs t2).
  assert (signed_full t1 + sign * signed_full t2 = if neg t1 then - d else d) as Ed.
  { unfold signed_full, d. destruct (neg t1), (neg t2), Hsign as [-> | ->]; cbn; lia. }
  assert (Z.abs d < 2 ^ 31 * 3600000000) as Hd by (rewrite Ed in Hr; destruct (neg t1); lia).
  assert (Z.abs d / 1000000 * 1000000 + Z.abs d mod 1000000 = Z.abs d
          ∧ 0 ≤ Z.abs d mod 1000000 < 1000000 ∧ 0 ≤ Z.abs d / 1000000) as (Es & Hu & Hs)
    by (Z.to_euclidean_division_equations; lia).
  assert (Z.abs d / 1000000 < 2 ^ 31 * 3600) as Hs'.
  { change (2 ^ 31) with 2147483648 in *. lia. }
  set (n := if neg t1 && negb (d =? 0) then negb (d <? 0) else d <? 0).
  set (a := Mk_Sec6_add (Z.abs d / 1000000) (Z.abs d mod 1000000) n false). exists a.
  assert ((if add_neg a then -1 else 1) * (add_sec a * 1000000 + add_usec a)
          = signed_full t1 + sign * signed_full t2) as Ev.
  { rewrite Ed. unfold a, n. cbn -[Z.mul Z.add Z.div Z.modulo]. rewrite Es.
    destruct (neg t1); cbn; zcases; cbn; lia. }
  split; [by apply sec6_add_of_ok|]. split; [done|]. split; [exact Ev|]. split; [exact Hu|]. split; [exact Hs|].
  split; [|split].
  - destruct (add_to_time_value a lt dec) as (t & E1 & E2 & E3); try done.
    exists t. by rewrite <- Ev, <- E2.
  - intros Hn. unfold add_to_datetime. rewrite Hn. by rewrite orb_true_r.
  - intros t2' a' Hk E. exact (sec6_add_of_error _ _ _ _ _ lt dec Hk E).
Qed.

End SecTheorems.

(** ** Theorems on [Extract_source] *)
Section ExtractTheorems.
Context (dbug : bool).

(** A value that an item returns: a TIME or an interval without a date, or a
    date of the calendar with a time of day. *)
Definition extractable (t : MYSQL_TIME) : Prop :=
  mmssff_ok t ∧ 0 ≤ hour t
  ∧ match time_type t with
    | MYSQL_TIMESTAMP_TIME =>
        (year t, month t, day t) = (0, 0, 0) ∧ hour t ≤ TIME_MAX_INTERVAL_HOUR
    | MYSQL_TIMESTAMP_DATE | MYSQL_TIMESTAMP_DATETIME =>
        hour t < 24 ∧ 0 ≤ day t ≤ 31 ∧ 0 ≤ month t ≤ 12 ∧ 0 ≤ year t ≤ 9999
    | _ => False
    end.

(** What [Extract_source] makes of it. *)
Definition extract_ok (t : MYSQL_TIME) : Prop :=
  mmssff_ok t ∧ 0 ≤ hour t < 24 ∧ 0 ≤ day t ≤ TIME_MAX_INTERVAL_DAY
  ∧ 0 ≤ month t ≤ 12 ∧ 0 ≤ year t ≤ 9999
  ∧ time_type t ≠ MYSQL_TIMESTAMP_NONE ∧ time_type t ≠ MYSQL_TIMESTAMP_ERROR
  ∧ (time_type t = MYSQL_TIMESTAMP_TIME → year t = 0 ∧ month t = 0).

Definition sgn (t : MYSQL_TIME) : Z := if neg t then -1 else 1.

Lemma is_valid_temporal_ok t : time_type t ≠ MYSQL_TIMESTAMP_ERROR →
  is_valid_temporal dbug t = Some (bool_decide (time_type t ≠ MYSQL_TIMESTAMP_NONE)).
Proof.
  intros H. unfold is_valid_temporal.
  rewrite (dassert_true dbug _ (bool_decide_eq_true_2 _ H)). done.
Qed.

Lemma is_valid_extract_ok t : extract_ok t → is_valid_extract_source_slow dbug t = Some true.
Proof.
  intros (_ & Hh & _ & _ & _ & Hn & He & Ht). unfold is_valid_extract_source_slow.
  rewrite is_valid_temporal_ok by done. cbn [mbind option_bind]. f_equal.
  rewrite bool_decide_true by done. apply andb_true_iff. split; [apply Z.ltb_lt; lia|].
  destruct (decide (time_type t = MYSQL_TIMESTAMP_TIME)) as [E|E].
  - destruct (Ht E) as [Hy Hm]. unfold has_zero_YYYYMM. by rewrite Hy, Hm.
  - rewrite (bool_decide_true (time_type t ≠ _)) by done. by rewrite orb_true_r.
Qed.

Lemma Extract_source_ok t : extractable t →
  ∃ s, Extract_source dbug t = Some s ∧ extract_ok s
    ∧ day s * 24 + hour s = day t * 24 + hour t
    ∧ (minute s, second s, second_part s, neg s, year s, month s)
      = (minute t, second t, second_part t, neg t, year t, month t).
Proof.
  intros (Hok & Hh & Hk). unfold Extract_source.
  assert (∃ s, (if bool_decide (time_type t = MYSQL_TIMESTAMP_TIME)
                then time_to_daytime_interval dbug t else Some t) = Some s ∧ extract_ok s
     ∧ day s * 24 + hour s = day t * 24 + hour t
     ∧ (minute s, second s, second_part s, neg s, year s, month s)
      = (minute t, second t, second_part t, neg t, year t, month t)) as (s & -> & Hs & Hrest).
  { unfold extract_ok. destruct (decide (time_type t = MYSQL_TIMESTAMP_TIME)) as [E|E].
    - rewrite E in Hk. destruct Hk as [[= Hy Hm Hd] Hmax]. rewrite bool_decide_true by done.
      unfold time_to_daytime_interval. rewrite (dassert_true dbug _ (bool_decide_eq_true_2 _ E)).
      cbn [mbind option_bind]. rewrite dassert_true by (unfold has_zero_YYYYMMDD; by rewrite Hy, Hm, Hd).
      eexists. split; [done|]. unfold TIME_MAX_INTERVAL_HOUR, TIME_MAX_INTERVAL_DAY in *.
      assert (0 ≤ hour t mod 24 < 24 ∧ 0 ≤ hour t / 24 ≤ 3652058
              ∧ hour t / 24 * 24 + hour t mod 24 = hour t)
        by (Z.to_euclidean_division_equations; lia).
      destruct t as [y m d h mi sc f n k]; cbn -[Z.mul Z.add Z.div Z.modulo] in *. subst.
      unfold mmssff_ok in *. cbn -[Z.mul Z.add Z.div Z.modulo] in *. repeat split; done || lia.
    - rewrite bool_decide_false by done. exists t.
      unfold TIME_MAX_INTERVAL_DAY. destruct (time_type t) eqn:Et; try done;
        destruct Hk as (? & ? & ? & ?); repeat split; done || apply Hok || lia. }
  cbn [mbind option_bind]. unfold extract_valid_value_slow.
  rewrite bool_decide_false by apply Hs. rewrite is_valid_extract_ok by done.
  cbn [mbind option_bind]. rewrite dassert_true by done. eauto.
Qed.

Lemma ex_get_ok t : extract_ok t → extract_get_mysql_time dbug t = Some t.
Proof.
  intros H. unfold extract_get_mysql_time. rewrite is_valid_extract_ok by done.
  cbn [mbind option_bind]. by rewrite dassert_true.
Qed.

Lemma ex_signed_ok f t : extract_ok t → 0 ≤ f t < 2 ^ 31 - 1 →
  ex_signed dbug f t = Some (sgn t * f t).
Proof.
  intros H Hf. change (2 ^ 31) with 2147483648 in Hf.
  unfold ex_signed, ex_sign. rewrite ex_get_ok by done. cbn [mbind option_bind].
  unfold to_int32. rewrite swrap_id by (try done; unfold in_s; change (2 ^ (32 - 1)) with 2147483648; lia).
  unfold sgn. rewrite sint_ok by (unfold in_s; change (2 ^ (32 - 1)) with 2147483648; destruct (neg t); lia).
  f_equal. destruct (neg t); lia.
Qed.

(** One step of a composite. *)
Lemma muladd_ok w a k b : 0 ≤ w → in_s w (a * k) → in_s w (a * k + b) →
  muladd w (Some a) k (Some b) = Some (a * k + b).
Proof.
  intros _ H1 H2. unfold muladd. cbn [mbind option_bind]. rewrite (sint_ok w _ H1).
  cbn [mbind option_bind]. by apply sint_ok.
Qed.

(** [EXTRACT] on any value an item returns: the constructor
    splits the hours of a TIME in days and hours, no later step fails an assertion
    or overflows, and every composite field is the number whose decimal groups
    are the members, with the sign of the value.  The last composite is below
    2^62. *)
Theorem extract_source_correct t (Ht : extractable t) :
  ∃ s, Extract_source dbug t = Some s
    ∧ day s * 24 + hour s = day t * 24 + hour t ∧ 0 ≤ hour s < 24
    ∧ ex_day dbug s = Some (sgn t * day s) ∧ ex_hour dbug s = Some (sgn t * hour s)
    ∧ ex_day_hour dbug s = Some (sgn t * (day s * 100 + hour s))
    ∧ ex_day_minute dbug s = Some (sgn t * ((day s * 100 + hour s) * 100 + minute t))
    ∧ ex_day_second dbug s
      = Some (sgn t * (((day s * 100 + hour s) * 100 + minute t) * 100 + second t))
    ∧ ex_day_microsecond dbug s
      = Some (sgn t * ((((day s * 100 + hour s) * 100 + minute t) * 100 + second t) * 1000000
                       + second_part t))
    ∧ ex_hour_minute dbug s = Some (sgn t * (hour s * 100 + minute t))
    ∧ ex_hour_second dbug s = Some (sgn t * ((hour s * 100 + minute t) * 100 + second t))
    ∧ ex_hour_microsecond dbug s
      = Some (sgn t * (((hour s * 100 + minute t) * 100 + second t) * 1000000 + second_part t))
    ∧ ex_minute_second dbug s = Some (sgn t * (minute t * 100 + second t))
    ∧ ex_minute_microsecond dbug s
      = Some (sgn t * ((minute t * 100 + second t) * 1000000 + second_part t))
    ∧ ex_second_microsecond dbug s = Some (sgn t * (second t * 1000000 + second_part t))
    ∧ ex_year_month dbug s = Some (year t * 100 + month t)
    ∧ ex_quarter dbug s = Some ((month t + 2) / 3)
    ∧ (((day s * 100 + hour s) * 100 + minute t) * 100 + second t) * 1000000 + second_part t < 2 ^ 62.
Proof.
  destruct (Extract_source_ok t Ht) as (s & E & Hs & Ed & [= <- <- <- En <- <-]).
  exists s. split; [done|]. split; [done|].
  pose proof Hs as ((Hmi & Hsec & Hf) & Hh & Hd & Hm & Hy & _). split; [done|].
  assert (sgn t = sgn s) as -> by (unfold sgn; by rewrite En).
  unfold TIME_MAX_INTERVAL_DAY in Hd.
  assert (ex_day dbug s = Some (sgn s * day s)) as E1 by (apply ex_signed_ok; [done|change (2 ^ 31) with 2147483648; lia]).
  assert (ex_hour dbug s = Some (sgn s * hour s)) as E2 by (apply ex_signed_ok; [done|change (2 ^ 31) with 2147483648; lia]).
  assert (ex_minute dbug s = Some (sgn s * minute s)) as E3 by (apply ex_signed_ok; [done|change (2 ^ 31) with 2147483648; lia]).
  assert (ex_second dbug s = Some (sgn s * second s)) as E4 by (apply ex_signed_ok; [done|change (2 ^ 31) with 2147483648; lia]).
  assert (ex_microsecond dbug s = Some (sgn s * second_part s)) as E5 by (apply ex_signed_ok; [done|change (2 ^ 31) with 2147483648; lia]).
  assert (ex_year_month dbug s = Some (year s * 100 + month s)) as E6.
  { unfold ex_year_month, ex_year, ex_month. rewrite ex_get_ok by done. cbn [mbind option_bind].
    by rewrite to_uint32_small by lia. }
  assert (ex_quarter dbug s = Some ((month s + 2) / 3)) as E7.
  { unfold ex_quarter, ex_month. rewrite ex_get_ok by done. cbn [mbind option_bind].
    by rewrite to_uint32_small by lia. }
  unfold ex_day_microsecond, ex_day_second, ex_day_minute, ex_day_hour, ex_hour_microsecond,
    ex_hour_second, ex_hour_minute, ex_minute_microsecond, ex_minute_second, ex_second_microsecond.
  rewrite E1, E2, E3, E4, E5, E6, E7.
  change (2 ^ 62) with 4611686018427387904.
  assert (∀ x, Z.abs x < 9223372036854775808 → in_s 64 x) as I64
    by (intros x ?; unfold in_s; change (2 ^ (64 - 1)) with 9223372036854775808; lia).
  assert (∀ x, Z.abs x < 2147483648 → in_s 32 x) as I32
    by (intros x ?; unfold in_s; change (2 ^ (32 - 1)) with 2147483648; lia).
  unfold sgn. destruct (neg s);
    repeat (rewrite !muladd_ok by (first [apply I64|apply I32|idtac]; lia));
    repeat split; try (f_equal; lia); lia.
Qed.

End ExtractTheorems.

Lemma extract_source_correct_witness :
  ex_day_microsecond true (Mk_TIME 0 0 34 22 59 59 999999 true MYSQL_TIMESTAMP_TIME)
    = Some (-34225959999999).
Proof.
  assert (extractable (Mk_TIME 0 0 0 838 59 59 999999 true MYSQL_TIMESTAMP_TIME)) as H.
  { unfold extractable, mmssff_ok, TIME_MAX_INTERVAL_HOUR. cbn. repeat split; lia || done. }
  destruct (extract_source_correct true _ H) as (s & E & _ & _ & _ & _ & _ & _ & _ & E' & _).
  assert (Extract_source true (Mk_TIME 0 0 0 838 59 59 999999 true MYSQL_TIMESTAMP_TIME)
          = Some (Mk_TIME 0 0 34 22 59 59 999999 true MYSQL_TIMESTAMP_TIME)) as E0
    by (vm_compute; reflexivity).
  rewrite E in E0. injection E0 as ->. exact E'.
Defined.

Lemma add_nanoseconds_correct_witness :
  ∃ carry t', add_nanoseconds_mmssff true 600
      (Mk_TIME 0 0 0 1 59 59 999999 false MYSQL_TIMESTAMP_TIME) = Some (carry, t')
    ∧ usecs t' + (if carry : bool then 3600000000 else 0) = 7200000000.
Proof.
  set (t := Mk_TIME 0 0 0 1 59 59 999999 false MYSQL_TIMESTAMP_TIME).
  assert (mmssff_ok t) as H1 by (unfold mmssff_ok; cbn; lia).
  assert (0 ≤ m_usec sec6_reset ≤ 999999) as H2 by (cbn; lia).
  assert (0 ≤ 600 ≤ 1000000000) as H3 by lia.
  destruct (add_nanoseconds_correct true t sec6_reset 600 H1 H2 H3)
    as [(carry & t' & E & Ev & _) _].
  exists carry, t'. split; [exact E|exact Ev].
Defined.

Lemma sec_to_time_correct_witness :
  ∃ t', @sec_to_time demo_TimeLib true (Mk_Sec6 3020400 0 true false) zero_TIME 2 = Some (true, t')
    ∧ usecs t' = max_usecs 2.
Proof.
  assert (0 ≤ 2 ≤ 6) as H1 by lia.
  assert (0 ≤ m_sec (Mk_Sec6 3020400 0 true false)) as H2 by (cbn; lia).
  assert (0 ≤ m_usec (Mk_Sec6 3020400 0 true false) ≤ 999999) as H3 by (cbn; lia).
  destruct (@sec_to_time_correct demo_TimeLib demo_TimeLibLaws true
    (Mk_Sec6 3020400 0 true false) zero_TIME 2 H1 H2 H3) as (t' & E & _ & _ & _ & _ & _ & Ev).
  exists t'. split; [exact E|exact Ev].
Defined.

Lemma sec6_add_correct_witness :
  ∃ a, @Sec6_add_of demo_TimeLib true (Mk_Sec6_add 0 0 false false)
      (Mk_TIME 0 0 0 1 0 0 0 true MYSQL_TIMESTAMP_TIME)
      (Mk_TIME 0 0 0 2 0 0 500000 false MYSQL_TIMESTAMP_TIME) (-1) = Some a
    ∧ (if add_neg a then -1 else 1) * (add_sec a * 1000000 + add_usec a) = -10800500000.
Proof.
  assert (-1 = 1 ∨ -1 = -1) as H1 by (right; reflexivity).
  destruct (@sec6_add_correct demo_TimeLib demo_TimeLibLaws true (Mk_Sec6_add 0 0 false false)
    (Mk_TIME 0 0 0 1 0 0 0 true MYSQL_TIMESTAMP_TIME)
    (Mk_TIME 0 0 0 2 0 0 500000 false MYSQL_TIMESTAMP_TIME) (-1) zero_TIME 6 H1
    ltac:(reflexivity) ltac:(reflexivity) ltac:(vm_compute; reflexivity))
    as (a & E & _ & Ev & _).
  exists a. split; [exact E|]. rewrite Ev. vm_compute. reflexivity.
Defined.
