(* ===== verification/TimeType.v ===== *)
(** [class Time] of [sql_type.h]: a value that is NULL or a TIME between
    '-838:59:59.999999' and '838:59:59.999999'.  The conversions from DATE and
    DATETIME in their five modes, the constructors, truncation, [ceiling],
    [floor], rounding and comparison.

    [Time] changes itself through [this]: a method takes the value and returns
    the new one, a constructor takes the storage it writes.  The members whose
    bodies are in [sql_type.cc] are the class [TimeMembers]. *)
From S2P Require Import Prelude MyTime DateMode SqlTypeInt CDouble Temporal.

Class TimeMembers := {
  pack_time : MYSQL_TIME → Z;
  TIME_to_ulonglong_time : MYSQL_TIME → Z;
  set_current_date : MYSQL_TIME;
  (* l_time1, l_time2, l_sign, l_time3, fuzzydate *)
  calc_time_diff_TIME : MYSQL_TIME → MYSQL_TIME → Z → MYSQL_TIME → date_mode_t → bool * MYSQL_TIME;
  (* this, dec, warn, nsec *)
  round_or_set_max_nsec : MYSQL_TIME → Z → Z → Z → MYSQL_TIME * Z;
  (* this, dec, warn *)
  round_or_set_max : MYSQL_TIME → Z → Z → MYSQL_TIME * Z;
  (* str, status, mode: the character set aware parser *)
  str_to_time_cs : list Z → MYSQL_TIME → MYSQL_TIME_STATUS → date_mode_t →
    bool * MYSQL_TIME * MYSQL_TIME_STATUS
}.

(** ** Options *)
Inductive datetime_to_time_mode_t :=
  | DATETIME_TO_TIME_DISALLOW
  | DATETIME_TO_TIME_YYYYMMDD_000000DD_MIX_TO_HOURS
  | DATETIME_TO_TIME_YYYYMMDD_TRUNCATE
  | DATETIME_TO_TIME_YYYYMMDD_00000000_ONLY
  | DATETIME_TO_TIME_MINUS_CURRENT_DATE.
#[export] Instance datetime_to_time_mode_eq_dec : EqDecision datetime_to_time_mode_t.
Proof. solve_decision. Defined.

Record Options := Mk_Options {
  opt_mode : date_mode_t;
  m_datetime_to_time_mode : datetime_to_time_mode_t
}.

Definition default_datetime_to_time_mode : datetime_to_time_mode_t :=
  DATETIME_TO_TIME_YYYYMMDD_000000DD_MIX_TO_HOURS.

(** ** Validity *)
Definition is_valid_time_slow (t : MYSQL_TIME) : bool :=
  bool_decide (time_type t = MYSQL_TIMESTAMP_TIME) && has_zero_YYYYMMDD t && has_valid_mmssff t.
Definition is_valid_value_slow (t : MYSQL_TIME) : bool :=
  bool_decide (time_type t = MYSQL_TIMESTAMP_NONE) || is_valid_time_slow t.

Definition hhmmssff_copy (from t : MYSQL_TIME) : MYSQL_TIME :=
  set_second_part (second_part from) (set_hms (hour from) (minute from) (second from) t).

Section Time.
Context {L10 : Log10} {TL : TimeLib} {TM : TimeMembers} (enum_signed dbug : bool).

Definition default_flags_for_get_date : date_conv_mode_t :=
  conv_or enum_signed (TIME_TIME_ONLY enum_signed) (TIME_INVALID_DATES enum_signed).
Definition comparison_flags_for_get_date : date_conv_mode_t :=
  conv_or enum_signed
    (conv_or enum_signed (TIME_TIME_ONLY enum_signed) (TIME_INVALID_DATES enum_signed))
    (TIME_FUZZY_DATES enum_signed).

(** The constructors of [Options]; [round] is the default of the session where
    the code asks the session. *)
Definition options_of (fuzzydate : date_conv_mode_t) (round : time_round_mode_t)
    (dtmode : datetime_to_time_mode_t) : option Options :=
  m ← temporal_options enum_signed dbug fuzzydate round; Some (Mk_Options m dtmode).
Definition options_default (round : time_round_mode_t) : option Options :=
  options_of default_flags_for_get_date round default_datetime_to_time_mode.
Definition options_flags (flags : date_conv_mode_t) (round : time_round_mode_t) : option Options :=
  options_of flags round default_datetime_to_time_mode.
Definition options_for_cast (round : time_round_mode_t) : option Options :=
  options_of default_flags_for_get_date round DATETIME_TO_TIME_YYYYMMDD_TRUNCATE.
Definition options_for_cast_mode (mode : date_mode_t) (round : time_round_mode_t) : option Options :=
  options_of (conv_or enum_signed default_flags_for_get_date
                (mode_and_conv enum_signed mode (TIME_FUZZY_DATES enum_signed)))
    round DATETIME_TO_TIME_YYYYMMDD_TRUNCATE.
Definition options_for_round (round : time_round_mode_t) : option Options :=
  options_of default_flags_for_get_date round DATETIME_TO_TIME_DISALLOW.
Definition options_cmp (round : time_round_mode_t) (dtmode : datetime_to_time_mode_t) : option Options :=
  options_of comparison_flags_for_get_date round dtmode.

Definition is_valid_time (t : MYSQL_TIME) : option bool :=
  _ ← dassert dbug (is_valid_value_slow t);
  Some (bool_decide (time_type t = MYSQL_TIMESTAMP_TIME)).

(** ** From DATE and DATETIME *)
Definition datetime_to_time_YYYYMMDD_000000DD_mix_to_hours (warn from_year from_month from_day : Z)
    (t : MYSQL_TIME) : MYSQL_TIME * Z :=
  if truth from_year || truth from_month then (t, Z.lor warn MYSQL_TIME_NOTE_TRUNCATED)
  else (set_hour (to_uint32 (hour t + from_day * 24)) t, warn).

Definition datetime_to_time_minus_current_date (t : MYSQL_TIME) : option MYSQL_TIME :=
  let '(_, tmp) := calc_time_diff_TIME t set_current_date 1 zero_TIME (mode_of enum_signed 0) in
  let '(_, t, _) := check_time_range tmp TIME_SECOND_PART_DIGITS 0 in
  v ← is_valid_time t; _ ← dassert dbug v; Some t.

Definition valid_datetime_to_valid_time (warn : Z) (opt : Options) (t : MYSQL_TIME)
  : option (MYSQL_TIME * Z) :=
  _ ← dassert dbug (is_date_type (time_type t));
  _ ← dassert dbug (day t <? 32);
  _ ← dassert dbug (hour t <? 24);
  '(t, warn) ←
    (if bool_decide (m_datetime_to_time_mode opt = DATETIME_TO_TIME_MINUS_CURRENT_DATE)
     then t ← datetime_to_time_minus_current_date t; Some (t, warn)
     else
       let '(t, warn) :=
         if bool_decide (m_datetime_to_time_mode opt
                         = DATETIME_TO_TIME_YYYYMMDD_000000DD_MIX_TO_HOURS)
         then datetime_to_time_YYYYMMDD_000000DD_mix_to_hours warn (year t) (month t) (day t) t
         else (t, warn) in
       Some (set_type MYSQL_TIMESTAMP_TIME (set_ymd 0 0 0 t), warn));
  _ ← dassert dbug (is_valid_time_slow t);
  Some (t, warn).

Definition valid_MYSQL_TIME_to_valid_value (warn : Z) (opt : Options) (t : MYSQL_TIME)
  : option (MYSQL_TIME * Z) :=
  match time_type t with
  | MYSQL_TIMESTAMP_DATE | MYSQL_TIMESTAMP_DATETIME =>
      if bool_decide (m_datetime_to_time_mode opt = DATETIME_TO_TIME_YYYYMMDD_00000000_ONLY)
         && (truth (year t) || truth (month t) || truth (day t))
      then Some (make_from_out_of_range t)
      else if bool_decide (m_datetime_to_time_mode opt = DATETIME_TO_TIME_DISALLOW)
      then Some (make_from_out_of_range t)
      else valid_datetime_to_valid_time warn opt t
  | MYSQL_TIMESTAMP_NONE => Some (t, warn)
  | MYSQL_TIMESTAMP_ERROR => Some (set_zero_time MYSQL_TIMESTAMP_TIME t, warn)
  | MYSQL_TIMESTAMP_TIME => _ ← dassert dbug (is_valid_time_slow t); Some (t, warn)
  end.

Definition xxx_to_time_result_to_valid_value (warn : Z) (opt : Options) (t : MYSQL_TIME)
  : option (MYSQL_TIME * Z) :=
  _ ← dassert dbug (bool_decide (time_type t ≠ MYSQL_TIMESTAMP_ERROR));
  valid_MYSQL_TIME_to_valid_value warn opt t.

Definition adjust_time_range_or_invalidate (warn : Z) (t : MYSQL_TIME) : option (MYSQL_TIME * Z) :=
  let '(rc, t, warn) := check_time_range t TIME_SECOND_PART_DIGITS warn in
  let t := if truth rc then set_type MYSQL_TIMESTAMP_NONE t else t in
  _ ← dassert dbug (is_valid_value_slow t);
  Some (t, warn).

(** ** Truncation and rounding; each returns the value and the warnings *)
Definition trunc (dec : Z) (t : MYSQL_TIME) : option MYSQL_TIME :=
  v ← is_valid_time t;
  t ← (if v : bool then my_time_trunc dbug t dec else Some t);
  _ ← dassert dbug (is_valid_value_slow t); Some t.

Definition ceiling (warn : Z) (t : MYSQL_TIME) : option (MYSQL_TIME * Z) :=
  v ← is_valid_time t;
  '(t, warn) ←
    (if negb v then Some (t, warn)
     else if neg t then t ← my_time_trunc dbug t 0; Some (t, warn)
     else if truth (second_part t) then Some (round_or_set_max_nsec t 0 warn 999999999)
     else Some (t, warn));
  _ ← dassert dbug (is_valid_value_slow t); Some (t, warn).

Definition floor (warn : Z) (t : MYSQL_TIME) : option (MYSQL_TIME * Z) :=
  v ← is_valid_time t;
  '(t, warn) ←
    (if negb v then Some (t, warn)
     else if negb (neg t) then t ← my_time_trunc dbug t 0; Some (t, warn)
     else if truth (second_part t) then Some (round_or_set_max_nsec t 0 warn 999999999)
     else Some (t, warn));
  _ ← dassert dbug (is_valid_value_slow t); Some (t, warn).

Definition round_dec (dec warn : Z) (t : MYSQL_TIME) : option (MYSQL_TIME * Z) :=
  v ← is_valid_time t;
  let '(t, warn) := if v : bool then round_or_set_max t dec warn else (t, warn) in
  _ ← dassert dbug (is_valid_value_slow t); Some (t, warn).

Definition time_fraction_remainder (dec : Z) (t : MYSQL_TIME) : option Z :=
  v ← is_valid_time t; _ ← dassert dbug v;
  my_time_fraction_remainder dbug (to_long (second_part t)) dec.

Definition round (dec : Z) (mode : time_round_mode_t) (warn : Z) (t : MYSQL_TIME)
  : option (MYSQL_TIME * Z) :=
  if round_mode mode =? RoundValue.FRAC_NONE then
    (if dbug then r ← time_fraction_remainder dec t; _ ← dassert dbug (r =? 0); Some () else Some ());;
    t ← trunc dec t; Some (t, warn)
  else if round_mode mode =? RoundValue.FRAC_TRUNCATE then t ← trunc dec t; Some (t, warn)
  else if round_mode mode =? RoundValue.FRAC_ROUND then round_dec dec warn t
  else Some (t, warn).

(** ** Constructors *)
Definition Time0 (this : MYSQL_TIME) : MYSQL_TIME := set_type MYSQL_TIMESTAMP_NONE this.

(** [Time(thd, ltime, opt)]. *)
Definition Time_of_TIME (ltime : MYSQL_TIME) (opt : Options) : option MYSQL_TIME :=
  v ← is_valid_temporal dbug ltime; _ ← dassert dbug v;
  '(t, _) ← valid_MYSQL_TIME_to_valid_value 0 opt ltime; Some t.

(** [Time(thd, status, str, len, cs, opt)]. *)
Definition Time_of_str (this : MYSQL_TIME) (status : MYSQL_TIME_STATUS) (str : list Z)
    (opt : Options) : option (MYSQL_TIME * MYSQL_TIME_STATUS) :=
  let '(err, t, status) := str_to_time_cs str this status (opt_mode opt) in
  if err : bool then Some (set_type MYSQL_TIMESTAMP_NONE t, status)
  else '(t, w) ← xxx_to_time_result_to_valid_value (warnings status) opt t;
       Some (t, set_warnings w status).

(** [Time(thd, warn, nr, opt)] for a [Sec6] and for a [Sec9]. *)
Definition Time_of_Sec6 (this : MYSQL_TIME) (warn : Z) (nr : Sec6) (opt : Options)
  : option (MYSQL_TIME * Z) :=
  '(err, t, warn) ← to_datetime_or_time enum_signed dbug nr this warn (TIME_INVALID_DATES enum_signed);
  let t := if err : bool then set_type MYSQL_TIMESTAMP_NONE t else t in
  xxx_to_time_result_to_valid_value warn opt t.
Definition Time_of_Sec9 (this : MYSQL_TIME) (warn : Z) (nr : Sec9) (opt : Options)
  : option (MYSQL_TIME * Z) :=
  '(t, warn) ← Time_of_Sec6 this warn (sec9_base nr) opt;
  v ← is_valid_time t;
  if negb v then Some (t, warn) else
  r ← mode_round enum_signed dbug (opt_mode opt);
  Some (if round_eq r (TIME_FRAC_ROUND enum_signed)
        then round_or_set_max_nsec t 6 warn (m_nsec nr) else (t, warn)).
Definition Time_of_longlong (this : MYSQL_TIME) (warn : Z) (nr : Hybrid.Longlong_hybrid)
    (opt : Options) : option (MYSQL_TIME * Z) :=
  Time_of_Sec6 this warn (Sec6_hybrid nr) opt.

(** The constructors that also bring the value to [dec] digits. *)
Definition Time_of_longlong_dec (this : MYSQL_TIME) (warn : Z) (nr : Hybrid.Longlong_hybrid)
    (opt : Options) (dec : Z) : option (MYSQL_TIME * Z) :=
  '(t, warn) ← Time_of_longlong this warn nr opt; t ← trunc dec t; Some (t, warn).
Definition Time_of_Sec9_dec (this : MYSQL_TIME) (warn : Z) (nr : Sec9) (opt : Options) (dec : Z)
  : option (MYSQL_TIME * Z) :=
  '(t, warn) ← Time_of_Sec9 this warn nr opt;
  r ← mode_round enum_signed dbug (opt_mode opt); round dec r warn t.
Definition Time_of_str_dec (this : MYSQL_TIME) (status : MYSQL_TIME_STATUS) (str : list Z)
    (opt : Options) (dec : Z) : option (MYSQL_TIME * MYSQL_TIME_STATUS) :=
  '(t, status) ← Time_of_str this status str opt;
  r ← mode_round enum_signed dbug (opt_mode opt);
  '(t, w) ← round dec r (warnings status) t; Some (t, set_warnings w status).

(** ** Queries *)
Definition time_get_mysql_time (t : MYSQL_TIME) : option MYSQL_TIME :=
  _ ← dassert dbug (is_valid_time_slow t); Some t.
Definition time_copy_to_mysql_time (t ltime : MYSQL_TIME) : option (bool * MYSQL_TIME) :=
  if bool_decide (time_type t = MYSQL_TIMESTAMP_NONE)
  then Some (true, set_type MYSQL_TIMESTAMP_NONE ltime)
  else _ ← dassert dbug (is_valid_time_slow t); Some (false, t).
Definition to_packed (t : MYSQL_TIME) : option Z :=
  v ← is_valid_time t; Some (if v : bool then pack_time t else 0).
Definition valid_time_to_packed (t : MYSQL_TIME) : option Z :=
  _ ← dassert dbug (is_valid_time_slow t); Some (pack_time t).
Definition cmp (t other : MYSQL_TIME) : option Z :=
  _ ← dassert dbug (is_valid_time_slow t); _ ← dassert dbug (is_valid_time_slow other);
  p0 ← to_packed t; p1 ← to_packed other;
  Some (if p0 <? p1 then -1 else if p1 <? p0 then 1 else 0).
Definition to_seconds_abs (t : MYSQL_TIME) : option Z :=
  _ ← dassert dbug (is_valid_time_slow t);
  Some (to_ulong (to_ulong (hour t * 3600) + to_uint32 (minute t * 60) + second t)).
Definition to_seconds (t : MYSQL_TIME) : option Z :=
  s ← to_seconds_abs t; Some (if neg t then - s else s).
Definition to_longlong (t : MYSQL_TIME) : option Z :=
  v ← is_valid_time t; if negb v then Some 0 else signed_longlong (neg t) (TIME_to_ulonglong_time t).
Definition to_double (t : MYSQL_TIME) : option spec_float :=
  v ← is_valid_time t;
  Some (if negb v then double_of 0
        else temporal_to_double (neg t) (TIME_to_ulonglong_time t) (second_part t)).

End Time.

(** ** Specification *)

(** The class invariant: NULL, or a TIME in the range of the type. *)
Definition time_valid (t : MYSQL_TIME) : Prop :=
  time_type t = MYSQL_TIMESTAMP_TIME ∧ (year t, month t, day t) = (0, 0, 0)
  ∧ mmssff_ok t ∧ 0 ≤ hour t ≤ TIME_MAX_HOUR.
Definition time_ok (t : MYSQL_TIME) : Prop :=
  time_type t = MYSQL_TIMESTAMP_NONE ∨ time_valid t.

(** A valid value of any temporal type, as the conversions take it. *)
Definition datetime_valid (t : MYSQL_TIME) : Prop :=
  is_date_type (time_type t) = true ∧ neg t = false ∧ 0 ≤ year t ≤ 9999 ∧ 0 ≤ month t ≤ 12
  ∧ 0 ≤ day t < 32 ∧ 0 ≤ hour t < 24 ∧ mmssff_ok t.
Definition mysql_time_ok (t : MYSQL_TIME) : Prop :=
  time_ok t ∨ time_type t = MYSQL_TIMESTAMP_ERROR ∨ datetime_valid t.

(** The rounding of a magnitude: add, clamp to the range, drop the digits. *)
Definition clamp_usecs (v : Z) : Z := v `min` max_usecs 6.
Definition rounded_to (dec v : Z) : Z := clamp_usecs v - clamp_usecs v mod usec_unit dec.
Definition rounded_TIME (dec add w : Z) (t t' : MYSQL_TIME) (w' : Z) : Prop :=
  time_valid t' ∧ usecs t' = rounded_to dec (usecs t + add)
  ∧ neg t' = neg t && negb (usecs t' =? 0)
  ∧ w' = if max_usecs 6 <? usecs t + add then Z.lor w MYSQL_TIME_WARN_OUT_OF_RANGE else w.

Class TimeMembersLaws {TL : TimeLib} {TM : TimeMembers} : Prop := {
  (* a difference of two days is a TIME of any size *)
  calc_time_diff_TIME_spec t lt m : is_date_type (time_type t) = true →
    let t' := (calc_time_diff_TIME t set_current_date 1 lt m).2 in
    time_type t' = MYSQL_TIMESTAMP_TIME ∧ (year t', month t', day t') = (0, 0, 0)
    ∧ mmssff_ok t' ∧ 0 ≤ hour t'
    ∧ signed_usecs t' = full_usecs t - full_usecs set_current_date;
  round_or_set_max_nsec_spec t dec w ns : time_valid t → 0 ≤ dec ≤ 6 → 0 ≤ ns ≤ 1000000000 →
    let r := round_or_set_max_nsec t dec w ns in
    rounded_TIME dec (rounded_usecs ns) w t r.1 r.2;
  (* the packed form of a TIME is ordered as the TIME *)
  pack_time_spec t t' : time_valid t → time_valid t' →
    (pack_time t < pack_time t' ↔ signed_usecs t < signed_usecs t');
  (* the parsers of numbers and strings return valid values or an error *)
  number_to_time_only_spec n nr f to w : 0 ≤ nr → 0 ≤ f ≤ 999999 →
    let '(rc, t, w') := number_to_time_only n nr f TIME_MAX_HOUR to w in
    (rc = 0 → time_valid t) ∧ (rc ≠ 0 → w' ≠ 0);
  number_to_datetime_or_date_spec nr f to fl w : 0 ≤ nr → 0 ≤ f ≤ 999999 →
    let '(rc, t, w') := number_to_datetime_or_date nr f to fl w in
    (0 ≤ rc → datetime_valid t) ∧ (rc < 0 → rc = -1 ∧ w' ≠ 0);
  str_to_time_cs_spec str t st m :
    let '(err, t', st') := str_to_time_cs str t st m in
    err = false → time_valid t' ∨ datetime_valid t'
}.

(** ** Lemmas *)

Lemma is_date_type_cases k : is_date_type k = true →
  k = MYSQL_TIMESTAMP_DATE ∨ k = MYSQL_TIMESTAMP_DATETIME.
Proof. by destruct k; [| |left|right|]. Qed.

Lemma time_valid_slow t : time_valid t → is_valid_time_slow t = true.
Proof.
  intros (Hk & [= Hy Hm Hd] & Hok & _). unfold is_valid_time_slow, has_zero_YYYYMMDD.
  rewrite bool_decide_true by done. rewrite Hy, Hm, Hd. by apply has_valid_mmssff_ok.
Qed.

Lemma time_ok_slow t : time_ok t → is_valid_value_slow t = true.
Proof.
  unfold is_valid_value_slow. intros [H|H]; [by rewrite bool_decide_true|].
  rewrite (time_valid_slow t H). apply orb_true_r.
Qed.

Lemma is_valid_time_ok dbug t : time_ok t →
  is_valid_time dbug t = Some (bool_decide (time_type t = MYSQL_TIMESTAMP_TIME)).
Proof. intros H. unfold is_valid_time. by rewrite dassert_true by by apply time_ok_slow. Qed.

Lemma is_valid_time_true dbug t : time_valid t → is_valid_time dbug t = Some true.
Proof.
  intros H. rewrite is_valid_time_ok by by right. by rewrite bool_decide_true by apply H.
Qed.

Lemma max_usecs_6 : max_usecs 6 = 3020399999999.
Proof. done. Qed.

Lemma time_valid_usecs t : time_valid t → 0 ≤ usecs t ≤ max_usecs 6.
Proof.
  intros (_ & _ & (?&?&?) & ?). rewrite max_usecs_6. unfold usecs, TIME_MAX_HOUR in *. lia.
Qed.

(** A TIME is in range as soon as its microseconds are. *)
Lemma time_valid_of_usecs t : time_type t = MYSQL_TIMESTAMP_TIME →
  (year t, month t, day t) = (0, 0, 0) → mmssff_ok t → 0 ≤ hour t →
  usecs t ≤ max_usecs 6 → time_valid t.
Proof.
  intros Hk Hy Hok Hh Hu. split; [done|]. split; [done|]. split; [done|].
  rewrite max_usecs_6 in Hu. destruct Hok as (?&?&?). unfold usecs, TIME_MAX_HOUR in *. lia.
Qed.

(** [check_time_range] with all digits clamps the magnitude. *)
Lemma check_time_range_clamp {TL : TimeLib} {TLL : TimeLibLaws} t w :
  time_type t = MYSQL_TIMESTAMP_TIME → (year t, month t, day t) = (0, 0, 0) →
  mmssff_ok t → 0 ≤ hour t →
  ∃ t' w', check_time_range t 6 w = (0, t', w') ∧ time_valid t'
    ∧ usecs t' = clamp_usecs (usecs t) ∧ neg t' = neg t.
Proof.
  intros Hk Hy Hok Hh. injection Hy as Hy Hm Hd. unfold clamp_usecs.
  destruct (Z.le_gt_cases (usecs t) (max_usecs 6)) as [H|H].
  - rewrite check_time_range_in by (done || lia). eexists _, _. split; [done|].
    rewrite Z.min_l by done. split; [|done].
    apply time_valid_of_usecs; try done. by rewrite Hy, Hm, Hd.
  - rewrite check_time_range_max by (done || lia). eexists _, _. split; [done|].
    rewrite Z.min_r by lia. split; [|done]. destruct t; cbn in *. subst.
    unfold time_valid, mmssff_ok, max_TIME. cbn. repeat split; done.
Qed.

Section Theorems.
Context {L10 : Log10} {HL : Log10Laws} {TL : TimeLib} {TLL : TimeLibLaws}
  {TM : TimeMembers} {TML : TimeMembersLaws} (enum_signed dbug : bool).

Lemma minus_current_date_ok t : datetime_valid t →
  ∃ t', datetime_to_time_minus_current_date enum_signed dbug t = Some t' ∧ time_valid t'
    ∧ usecs t' = clamp_usecs (Z.abs (full_usecs t - full_usecs set_current_date))
    ∧ (neg t' = true → full_usecs t - full_usecs set_current_date ≤ 0)
    ∧ (neg t' = false → 0 ≤ full_usecs t - full_usecs set_current_date).
Proof.
  intros Ht. unfold datetime_to_time_minus_current_date.
  pose proof (calc_time_diff_TIME_spec t zero_TIME (mode_of enum_signed 0) (proj1 Ht)) as H.
  destruct (calc_time_diff_TIME _ _ _ _ _) as [b tmp]. cbn [snd] in H.
  destruct H as (Hk & Hy & Hok & Hh & Hv).
  change TIME_SECOND_PART_DIGITS with 6.
  destruct (check_time_range_clamp tmp 0 Hk Hy Hok Hh) as (t' & w' & E & Ht' & Hu & Hn).
  rewrite E. rewrite is_valid_time_true by done. cbn [mbind option_bind].
  rewrite dassert_true by done. cbn [mbind option_bind].
  exists t'. split; [done|]. split; [done|]. rewrite Hu, Hn.
  assert (0 ≤ usecs tmp) by (destruct Hok as (?&?&?); unfold usecs; lia).
  unfold signed_usecs in Hv. destruct (neg tmp); split; try f_equal; try split; done || lia.
Qed.

(** What each mode makes of a DATE or a DATETIME. *)
Definition datetime_to_time_result (mode : datetime_to_time_mode_t) (t : MYSQL_TIME) (w : Z)
    (t' : MYSQL_TIME) (w' : Z) : Prop :=
  let date_zero := year t = 0 ∧ month t = 0 ∧ day t = 0 in
  match mode with
  | DATETIME_TO_TIME_DISALLOW =>
      time_type t' = MYSQL_TIMESTAMP_NONE ∧ w' = MYSQL_TIME_WARN_OUT_OF_RANGE
  | DATETIME_TO_TIME_YYYYMMDD_00000000_ONLY =>
      (date_zero → time_valid t' ∧ signed_usecs t' = usecs t ∧ w' = w)
      ∧ (¬ date_zero → time_type t' = MYSQL_TIMESTAMP_NONE ∧ w' = MYSQL_TIME_WARN_OUT_OF_RANGE)
  | DATETIME_TO_TIME_YYYYMMDD_TRUNCATE =>
      time_valid t' ∧ signed_usecs t' = usecs t ∧ w' = w
  | DATETIME_TO_TIME_YYYYMMDD_000000DD_MIX_TO_HOURS =>
      time_valid t'
      ∧ (year t = 0 ∧ month t = 0 →
         signed_usecs t' = day t * (SECONDS_IN_24H * 1000000) + usecs t ∧ w' = w)
      ∧ (¬ (year t = 0 ∧ month t = 0) →
         signed_usecs t' = usecs t ∧ w' = Z.lor w MYSQL_TIME_NOTE_TRUNCATED)
  | DATETIME_TO_TIME_MINUS_CURRENT_DATE =>
      let d := full_usecs t - full_usecs set_current_date in
      time_valid t' ∧ signed_usecs t' = (- max_usecs 6) `max` (d `min` max_usecs 6) ∧ w' = w
  end.

Lemma truth_ymd t : truth (year t) || truth (month t) || truth (day t) = false
  ↔ year t = 0 ∧ month t = 0 ∧ day t = 0.
Proof. rewrite !orb_false_iff, !truth_false. tauto. Qed.

Lemma valid_datetime_cases t w opt : datetime_valid t →
  m_datetime_to_time_mode opt ≠ DATETIME_TO_TIME_DISALLOW →
  ∃ t' w', valid_datetime_to_valid_time enum_signed dbug w opt t = Some (t', w')
    ∧ match m_datetime_to_time_mode opt with
      | DATETIME_TO_TIME_YYYYMMDD_00000000_ONLY =>
          time_valid t' ∧ signed_usecs t' = usecs t ∧ w' = w
      | m => datetime_to_time_result m t w t' w'
      end.
Proof.
  intros Ht Hm. pose proof Ht as (Hk & Hn & Hy & Hmo & Hd & Hh & Hok).
  assert ((day t <? 32) = true ∧ (hour t <? 24) = true) as [Hd' Hh']
    by (split; apply Z.ltb_lt; lia).
  unfold valid_datetime_to_valid_time.
  rewrite (dassert_true dbug _ Hk), (dassert_true dbug _ Hd'), (dassert_true dbug _ Hh').
  cbn [mbind option_bind].
  assert (∀ h, 0 ≤ h ≤ 838 →
    let t1 := set_type MYSQL_TIMESTAMP_TIME (set_ymd 0 0 0 (set_hour h t)) in
    time_valid t1 ∧ signed_usecs t1 = usecs t + (h - hour t) * 3600000000) as Hset.
  { intros h Hh0 t1. unfold t1. destruct t; cbn in *. subst. unfold time_valid, mmssff_ok,
      signed_usecs, usecs, TIME_MAX_HOUR in *. cbn in *. repeat split; done || lia. }
  assert (set_hour (hour t) t = t) as Eh by by destruct t.
  destruct (Hset (hour t)) as [Hv Hs]; [lia|]. rewrite Eh in Hv, Hs. rewrite Z.sub_diag in Hs.
  destruct (m_datetime_to_time_mode opt) eqn:Em; try done.
  - rewrite bool_decide_false, bool_decide_true by done.
    unfold datetime_to_time_YYYYMMDD_000000DD_mix_to_hours.
    destruct (truth (year t) || truth (month t)) eqn:Et.
    + cbn [mbind option_bind]. rewrite dassert_true by by apply time_valid_slow.
      cbn [mbind option_bind]. eexists _, _. split; [done|]. split; [done|].
      apply orb_true_iff in Et. rewrite !truth_true in Et.
      split; [intros; lia|]. intros _. split; [lia|done].
    + rewrite to_uint32_small by lia. destruct (Hset (hour t + day t * 24)) as [Hv' Hs']; [lia|].
      cbn [mbind option_bind]. rewrite dassert_true by by apply time_valid_slow.
      cbn [mbind option_bind]. eexists _, _. split; [done|]. split; [done|].
      apply orb_false_iff in Et. rewrite !truth_false in Et. split; [|intros Hx; by exfalso].
      intros _. split; [|done]. rewrite Hs'. unfold SECONDS_IN_24H. lia.
  - rewrite !bool_decide_false by done.
    cbn [mbind option_bind]. rewrite dassert_true by by apply time_valid_slow.
    cbn [mbind option_bind]. eexists _, _. split; [done|]. split; [done|]. split; [lia|done].
  - rewrite !bool_decide_false by done.
    cbn [mbind option_bind]. rewrite dassert_true by by apply time_valid_slow.
    cbn [mbind option_bind]. eexists _, _. split; [done|]. split; [done|]. split; [lia|done].
  - rewrite bool_decide_true by done.
    destruct (minus_current_date_ok t Ht) as (t' & -> & Hv' & Hu & Hneg & Hpos).
    cbn [mbind option_bind]. rewrite dassert_true by by apply time_valid_slow.
    cbn [mbind option_bind]. eexists _, _. split; [done|]. split; [done|]. split; [|done].
    unfold signed_usecs. rewrite Hu. unfold clamp_usecs. rewrite max_usecs_6.
    destruct (neg t'); [specialize (Hneg eq_refl)|specialize (Hpos eq_refl)]; lia.
Qed.

(** C13: Converting a valid temporal value to TIME always ends in
    the class invariant, NULL or a TIME in range, and no assertion fails.  A DATE
    or DATETIME is converted as its mode says: refused, the date dropped, only a
    zero date accepted, the days of a zero month added to the hours, or the
    difference to the current date clamped to the range of TIME; a TIME and NULL
    are kept and the error value becomes '00:00:00'. *)
Theorem datetime_to_time_correct t w opt (Ht : mysql_time_ok t) :
  ∃ t' w', valid_MYSQL_TIME_to_valid_value enum_signed dbug w opt t = Some (t', w')
    ∧ time_ok t'
    ∧ (is_date_type (time_type t) = true →
       datetime_to_time_result (m_datetime_to_time_mode opt) t w t' w')
    ∧ (time_ok t → t' = t ∧ w' = w)
    ∧ (time_type t = MYSQL_TIMESTAMP_ERROR → time_valid t' ∧ usecs t' = 0 ∧ w' = w).
Proof.
  assert (Hz : time_valid (set_zero_time MYSQL_TIMESTAMP_TIME t)
               ∧ usecs (set_zero_time MYSQL_TIMESTAMP_TIME t) = 0).
  { rewrite set_zero_time_spec. unfold time_valid, mmssff_ok, usecs. cbn. repeat split; done. }
  destruct Ht as [Ht|[Ht|Ht]].
  - exists t, w. unfold valid_MYSQL_TIME_to_valid_value. destruct Ht as [E|Hv].
    + rewrite E. repeat split; try done. by left.
    + pose proof (proj1 Hv) as E. rewrite E. rewrite dassert_true by by apply time_valid_slow.
      repeat split; try done. by right.
  - exists (set_zero_time MYSQL_TIMESTAMP_TIME t), w.
    unfold valid_MYSQL_TIME_to_valid_value. rewrite Ht. split; [done|]. split; [right; apply Hz|].
    split; [intros H; by vm_compute in H|]. split; [|by destruct Hz].
    intros [H|[H _]]; by rewrite Ht in H.
  - assert (∃ t' w', valid_MYSQL_TIME_to_valid_value enum_signed dbug w opt t = Some (t', w')
      ∧ time_ok t' ∧ datetime_to_time_result (m_datetime_to_time_mode opt) t w t' w')
      as (t' & w' & E & Hok & Hr).
    { pose proof (truth_ymd t) as Hymd.
      assert (valid_MYSQL_TIME_to_valid_value enum_signed dbug w opt t =
        if bool_decide (m_datetime_to_time_mode opt = DATETIME_TO_TIME_YYYYMMDD_00000000_ONLY)
         && (truth (year t) || truth (month t) || truth (day t))
        then Some (make_from_out_of_range t)
        else if bool_decide (m_datetime_to_time_mode opt = DATETIME_TO_TIME_DISALLOW)
        then Some (make_from_out_of_range t)
        else valid_datetime_to_valid_time enum_signed dbug w opt t) as ->.
      { unfold valid_MYSQL_TIME_to_valid_value. destruct Ht as [Hk _].
        by destruct (time_type t). }
      pose proof (valid_datetime_cases t w opt Ht) as Hc.
      destruct (m_datetime_to_time_mode opt) eqn:Em; cbn [datetime_to_time_result];
        rewrite ?(bool_decide_false (_ = _)) by done; cbn [andb].
      - eexists _, _. split; [done|]. split; [by left|done].
      - destruct Hc as (t' & w' & E & Hr); [done|]. exists t', w'. split; [exact E|].
        split; [right; apply Hr|exact Hr].
      - destruct Hc as (t' & w' & E & Hr); [done|]. exists t', w'. split; [exact E|].
        split; [right; apply Hr|exact Hr].
      - rewrite bool_decide_true by done. cbn [andb].
        destruct (truth (year t) || truth (month t) || truth (day t)).
        + eexists _, _. split; [done|]. split; [by left|]. split; [|done]. intros Hx.
          by apply Hymd in Hx.
        + destruct Hc as (t' & w' & E & Hr); [done|]. exists t', w'. split; [exact E|].
          split; [right; apply Hr|]. split; [done|]. intros Hx. by destruct Hx; apply Hymd.
      - destruct Hc as (t' & w' & E & Hr); [done|]. exists t', w'. split; [exact E|].
        split; [right; apply Hr|exact Hr]. }
    exists t', w'. split; [done|]. split; [done|]. split; [done|].
    destruct Ht as [Hk _]. split.
    + intros [H|[H _]]; by rewrite H in Hk.
    + intros H. by rewrite H in Hk.
Qed.

(** *** Truncation and rounding *)

Lemma trunc_ok t dec : time_valid t → 0 ≤ dec ≤ 6 →
  ∃ t', trunc dbug dec t = Some t' ∧ my_time_trunc dbug t dec = Some t' ∧ time_valid t'
    ∧ signed_usecs t' = Z.quot (signed_usecs t) (usec_unit dec) * usec_unit dec.
Proof.
  intros Ht Hd. pose proof Ht as (Hk & Hy & Hok & Hh).
  assert (0 ≤ hour t) as Hh0 by lia.
  pose proof (time_trunc_eq dbug t dec Hd Hh0 Hok) as E. cbv zeta in E.
  destruct (trunc_value t dec Hd Hok) as [Ev Hf].
  set (f := second_part t - second_part t mod usec_unit dec) in *.
  pose proof (usec_unit_pos dec Hd) as Hu. pose proof (time_valid_usecs t Ht) as H0.
  set (t1 := set_neg _ _) in E. exists t1.
  assert (time_valid t1) as Hv.
  { destruct Hok as (?&?&?). unfold time_valid, mmssff_ok, t1. cbn.
    split; [done|]. split; [done|]. split; [lia|done]. }
  unfold trunc. rewrite is_valid_time_true, E by done. cbn [mbind option_bind].
  rewrite dassert_true by (by apply time_ok_slow; right).
  split; [done|]. split; [done|]. split; [done|].
  pose proof (Z.mod_pos_bound (usecs t) (usec_unit dec)).
  pose proof (Z.mod_le (usecs t) (usec_unit dec)).
  assert (Z.quot (usecs t) (usec_unit dec) * usec_unit dec
          = usecs (set_second_part f t)) as Eq.
  { rewrite Z.quot_div_nonneg by lia. pose proof (Z.div_mod (usecs t) (usec_unit dec)). lia. }
  unfold signed_usecs, t1. change (usecs (set_neg ?b ?x)) with (usecs x). cbn [neg set_neg].
  destruct (neg t); cbn [andb]; [|done].
  rewrite Z.quot_opp_l, Z.mul_opp_l, Eq by lia. zcases; cbn [negb]; lia.
Qed.

(** Rounding the magnitude up to a whole second. *)
Lemma round_up_second t w : time_valid t → second_part t ≠ 0 →
  let r := round_or_set_max_nsec t 0 w 999999999 in
  time_valid r.1 ∧ neg r.1 = neg t
  ∧ usecs r.1 = ((usecs t + 999999) / 1000000 * 1000000) `min` (TIME_MAX_VALUE_SECONDS * 1000000)
  ∧ r.2 = if TIME_MAX_VALUE_SECONDS * 1000000 <? usecs t
          then Z.lor w MYSQL_TIME_WARN_OUT_OF_RANGE else w.
Proof.
  intros Ht Hf. pose proof (time_valid_usecs t Ht) as Hb. pose proof Ht as (_ & _ & (Hmi&Hse&Hfr) & Hh).
  destruct (round_or_set_max_nsec_spec t 0 w 999999999 Ht) as (Hv & Hu & Hn & Hw); [lia..|].
  change (rounded_usecs 999999999) with 1000000 in *.
  assert (usecs t mod 1000000 = second_part t) as Em.
  { unfold usecs. rewrite Z.add_comm, Z.mod_add by lia. apply Z.mod_small. lia. }
  pose proof (Z.div_mod (usecs t) 1000000).
  assert ((usecs t + 999999) / 1000000 = usecs t / 1000000 + 1) as E1.
  { symmetry. apply (Z.div_unique _ _ _ (second_part t - 1)); lia. }
  change TIME_MAX_VALUE_SECONDS with 3020399. rewrite E1.
  unfold rounded_to, clamp_usecs in Hu. rewrite max_usecs_6 in *.
  change (usec_unit 0) with 1000000 in Hu.
  assert (usecs (round_or_set_max_nsec t 0 w 999999999).1
          = ((usecs t / 1000000 + 1) * 1000000) `min` (3020399 * 1000000)) as Eu.
  { rewrite Hu. destruct (Z.le_gt_cases (usecs t + 1000000) 3020399999999).
    - rewrite Z.min_l by lia. rewrite <- (Z.mul_1_l 1000000) at 2.
      rewrite Z.mod_add by lia. lia.
    - rewrite Z.min_r by lia. change (3020399999999 mod 1000000) with 999999. lia. }
  split; [done|]. split; [|split; [done|]].
  - rewrite Hn. destruct (neg t); cbn [andb]; [|done]. rewrite Eu.
    destruct (Z.eqb_spec (((usecs t / 1000000 + 1) * 1000000) `min` (3020399 * 1000000)) 0); [lia|done].
  - rewrite Hw. zcases; lia || done.
Qed.

Lemma quot_second v : Z.quot v 1000000 * 1000000
  = if v <? 0 then - (- v / 1000000) * 1000000 else v / 1000000 * 1000000.
Proof. destruct (Z.ltb_spec v 0); Z.to_euclidean_division_equations; lia. Qed.

(** [floor] and [ceiling] differ in the sign on which they truncate. *)
Lemma floor_ceiling_eq t w : time_valid t →
  let towards : option (MYSQL_TIME * Z) := t' ← my_time_trunc dbug t 0; Some (t', w) in
  let away := if truth (second_part t) then Some (round_or_set_max_nsec t 0 w 999999999)
              else Some (t, w) in
  let check (r : option (MYSQL_TIME * Z)) := '(t, w) ← r; _ ← dassert dbug (is_valid_value_slow t); Some (t, w) in
  floor dbug w t = check (if neg t then away else towards)
  ∧ ceiling dbug w t = check (if neg t then towards else away).
Proof.
  intros Ht. unfold floor, ceiling. rewrite !is_valid_time_true by done.
  cbn [mbind option_bind negb]. by destruct (neg t).
Qed.

Lemma towards_ok t (w : Z) : time_valid t →
  ∃ t', (t1 ← my_time_trunc dbug t 0; Some (t1, w)) = Some (t', w) ∧ time_valid t'
    ∧ signed_usecs t' = Z.quot (signed_usecs t) 1000000 * 1000000.
Proof.
  intros Ht. destruct (trunc_ok t 0 Ht) as (t' & _ & E & Hv & Hs); [lia|].
  exists t'. rewrite E. split; [done|]. split; [done|exact Hs].
Qed.

Lemma away_ok t w : time_valid t →
  ∃ t' w', (if truth (second_part t) then Some (round_or_set_max_nsec t 0 w 999999999)
            else Some (t, w)) = Some (t', w')
    ∧ time_valid t' ∧ neg t' = neg t
    ∧ usecs t' = ((usecs t + 999999) / 1000000 * 1000000) `min` (TIME_MAX_VALUE_SECONDS * 1000000)
    ∧ w' = (if TIME_MAX_VALUE_SECONDS * 1000000 <? usecs t then Z.lor w MYSQL_TIME_WARN_OUT_OF_RANGE else w).
Proof.
  intros Ht. destruct (truth (second_part t)) eqn:Ef.
  - apply truth_true in Ef. destruct (round_up_second t w Ht Ef) as (Hv & Hn & Hu & Hw).
    destruct (round_or_set_max_nsec t 0 w 999999999) as [t' w']. cbn [fst snd] in *.
    by exists t', w'.
  - apply truth_false in Ef. exists t, w. repeat (split; [done|]).
    pose proof (time_valid_usecs t Ht) as Hb. rewrite max_usecs_6 in Hb.
    change TIME_MAX_VALUE_SECONDS with 3020399.
    assert (∃ k, usecs t = k * 1000000) as [k Ek] by (unfold usecs; rewrite Ef; eexists; apply Z.add_0_r).
    rewrite Ek in *. rewrite Z.div_add_l by lia. change (999999 / 1000000) with 0.
    split; [lia|]. rewrite (proj2 (Z.ltb_ge _ _)); [done|lia].
Qed.

Lemma floor_ok t w : time_valid t →
  ∃ t' w', floor dbug w t = Some (t', w') ∧ time_valid t'
    ∧ signed_usecs t' = (signed_usecs t / 1000000 * 1000000) `max` (- (TIME_MAX_VALUE_SECONDS * 1000000))
    ∧ w' = (if signed_usecs t <? - (TIME_MAX_VALUE_SECONDS * 1000000) then Z.lor w MYSQL_TIME_WARN_OUT_OF_RANGE else w).
Proof.
  intros Ht. destruct (floor_ceiling_eq t w Ht) as [-> _].
  pose proof (time_valid_usecs t Ht) as [Hb _]. unfold signed_usecs at 2 3.
  change TIME_MAX_VALUE_SECONDS with 3020399. destruct (neg t) eqn:En.
  - destruct (away_ok t w Ht) as (t' & w' & -> & Hv & Hn & Hu & Hw). cbn [mbind option_bind].
    rewrite (dassert_true dbug _ (time_ok_slow _ (or_intror Hv))). exists t', w'.
    split; [done|]. split; [done|]. change TIME_MAX_VALUE_SECONDS with 3020399 in *.
    unfold signed_usecs. rewrite Hn, En, Hu. split; [|rewrite Hw; zcases; lia || done].
    assert (- usecs t / 1000000 = - ((usecs t + 999999) / 1000000)) as ->
      by (Z.to_euclidean_division_equations; lia). lia.
  - destruct (towards_ok t w Ht) as (t' & -> & Hv & Hs). cbn [mbind option_bind].
    rewrite (dassert_true dbug _ (time_ok_slow _ (or_intror Hv))). exists t', w.
    split; [done|]. split; [done|].
    split; [|zcases; lia || done].
    rewrite Hs, quot_second. unfold signed_usecs. rewrite En.
    destruct (Z.ltb_spec (usecs t) 0); [lia|]. assert (0 ≤ usecs t / 1000000) by (apply Z.div_pos; lia). lia.
Qed.

Lemma ceiling_ok t w : time_valid t →
  ∃ t' w', ceiling dbug w t = Some (t', w') ∧ time_valid t'
    ∧ signed_usecs t' = (- (- signed_usecs t / 1000000) * 1000000) `min` (TIME_MAX_VALUE_SECONDS * 1000000)
    ∧ w' = (if TIME_MAX_VALUE_SECONDS * 1000000 <? signed_usecs t then Z.lor w MYSQL_TIME_WARN_OUT_OF_RANGE else w).
Proof.
  intros Ht. destruct (floor_ceiling_eq t w Ht) as [_ ->].
  pose proof (time_valid_usecs t Ht) as [Hb _]. unfold signed_usecs at 2 3.
  change TIME_MAX_VALUE_SECONDS with 3020399. destruct (neg t) eqn:En.
  - destruct (towards_ok t w Ht) as (t' & -> & Hv & Hs). cbn [mbind option_bind].
    rewrite (dassert_true dbug _ (time_ok_slow _ (or_intror Hv))). exists t', w.
    split; [done|]. split; [done|].
    split; [|zcases; lia || done].
    rewrite Hs, quot_second. unfold signed_usecs. rewrite En.
    assert (0 ≤ usecs t / 1000000) by (apply Z.div_pos; lia).
    rewrite Z.opp_involutive. destruct (Z.ltb_spec (- usecs t) 0); [lia|].
    assert (usecs t = 0) as -> by lia. done.
  - destruct (away_ok t w Ht) as (t' & w' & -> & Hv & Hn & Hu & Hw). cbn [mbind option_bind].
    rewrite (dassert_true dbug _ (time_ok_slow _ (or_intror Hv))). exists t', w'.
    split; [done|]. split; [done|]. change TIME_MAX_VALUE_SECONDS with 3020399 in *.
    unfold signed_usecs. rewrite Hn, En, Hu. split; [|rewrite Hw; zcases; lia || done].
    assert (- (- usecs t / 1000000) = (usecs t + 999999) / 1000000) as ->
      by (Z.to_euclidean_division_equations; lia). lia.
Qed.

Lemma round_modes dec w t :
  round dbug dec (TIME_FRAC_NONE enum_signed) w t
  = ((if dbug then r ← time_fraction_remainder dbug dec t; _ ← dassert dbug (r =? 0); Some () else Some ());;
     t ← trunc dbug dec t; Some (t, w))
  ∧ round dbug dec (TIME_FRAC_TRUNCATE enum_signed) w t = (t ← trunc dbug dec t; Some (t, w))
  ∧ round dbug dec (TIME_FRAC_ROUND enum_signed) w t = round_dec dbug dec w t.
Proof.
  unfold round, TIME_FRAC_NONE, TIME_FRAC_TRUNCATE, TIME_FRAC_ROUND, to_value_t. cbn [round_mode].
  by destruct enum_signed.
Qed.

Lemma signed_mod_unit t dec : 0 ≤ dec ≤ 6 → mmssff_ok t →
  signed_usecs t mod usec_unit dec = 0 ↔ second_part t mod usec_unit dec = 0.
Proof.
  intros Hd Hok. pose proof (usec_unit_pos dec Hd). rewrite <- (usecs_mod_unit t dec Hd).
  unfold signed_usecs. destruct (neg t); [|done].
  rewrite !Z.mod_divide by lia. by rewrite Z.divide_opp_r.
Qed.

(** C14: [trunc], [floor] and [ceiling] of a TIME keep the class
    invariant, fail no assertion, and are on the signed value what their names
    say: towards zero, towards minus and plus infinity to whole seconds.  A
    result of [floor] or [ceiling] outside the range is the last second inside
    it, with a warning added, and there is no new warning otherwise.  [round] in
    the mode [FRAC_TRUNCATE] truncates without a warning; the mode [FRAC_NONE]
    requires that no digit is lost, and then keeps the value. *)
Theorem time_rounding_correct t dec w (Ht : time_valid t) (Hd : 0 ≤ dec ≤ 6) :
  let v := signed_usecs t in let u := usec_unit dec in
  let max := TIME_MAX_VALUE_SECONDS * 1000000 in
  (∃ t', trunc dbug dec t = Some t' ∧ time_valid t' ∧ signed_usecs t' = Z.quot v u * u
     ∧ round dbug dec (TIME_FRAC_TRUNCATE enum_signed) w t = Some (t', w))
  ∧ (∃ t' w', floor dbug w t = Some (t', w') ∧ time_valid t'
     ∧ signed_usecs t' = (v / 1000000 * 1000000) `max` (- max)
     ∧ w' = if v <? - max then Z.lor w MYSQL_TIME_WARN_OUT_OF_RANGE else w)
  ∧ (∃ t' w', ceiling dbug w t = Some (t', w') ∧ time_valid t'
     ∧ signed_usecs t' = (- (- v / 1000000) * 1000000) `min` max
     ∧ w' = if max <? v then Z.lor w MYSQL_TIME_WARN_OUT_OF_RANGE else w)
  ∧ (v mod u = 0 → ∃ t', round dbug dec (TIME_FRAC_NONE enum_signed) w t = Some (t', w)
     ∧ time_valid t' ∧ signed_usecs t' = v)
  ∧ (v mod u ≠ 0 → round true dec (TIME_FRAC_NONE enum_signed) w t = None).
Proof.
  intros v u max. destruct (round_modes dec w t) as (EN & ET & _).
  destruct (trunc_ok t dec Ht Hd) as (t1 & E1 & _ & Hv1 & Hs1).
  pose proof Ht as (_ & _ & Hok & _).
  pose proof (usec_unit_pos dec Hd) as Hu.
  assert (∀ b, time_fraction_remainder b dec t = Some (second_part t mod usec_unit dec)) as Er.
  { intros b. unfold time_fraction_remainder. rewrite is_valid_time_true by done. cbn [mbind option_bind].
    rewrite dassert_true by done. cbn [mbind option_bind].
    destruct Hok as (?&?&?). rewrite to_long_small by lia. apply remainder_ok; lia. }
  split; [by exists t1; rewrite ET, E1|]. split; [by apply floor_ok|]. split; [by apply ceiling_ok|].
  split.
  - intros Hz. rewrite EN. apply (signed_mod_unit t dec Hd Hok) in Hz as Hz'.
    rewrite Er, Hz', E1. exists t1. split.
    + by destruct dbug.
    + split; [done|]. rewrite Hs1. fold u v. apply Z.mod_divide in Hz as [k Hk]; [|lia]. fold u in Hk.
      rewrite Hk. rewrite Z.quot_mul by lia. done.
  - intros Hz. unfold round, TIME_FRAC_NONE, to_value_t. cbn [round_mode].
    replace ((if enum_signed then _ else _) =? _) with true by by destruct enum_signed.
    rewrite Er. cbn [mbind option_bind]. unfold dassert.
    rewrite (proj2 (Z.eqb_neq _ 0)); [done|]. intros E. apply Hz.
    by apply (signed_mod_unit t dec Hd Hok).
Qed.

(** *** Constructors *)

Lemma converted_ok t w opt : time_ok t ∨ datetime_valid t →
  ∃ t' w', xxx_to_time_result_to_valid_value enum_signed dbug w opt t = Some (t', w') ∧ time_ok t'.
Proof.
  intros H. unfold xxx_to_time_result_to_valid_value.
  assert (time_type t ≠ MYSQL_TIMESTAMP_ERROR) as Hne.
  { intros E. destruct H as [[H|[H _]]|[H _]]; rewrite E in H; by vm_compute in H. }
  rewrite (dassert_true dbug _ (bool_decide_eq_true_2 _ Hne)). cbn [mbind option_bind].
  unfold valid_MYSQL_TIME_to_valid_value. destruct H as [[E|Hv]|Ht].
  - rewrite E. eexists _, _. split; [done|]. by left.
  - rewrite (proj1 Hv), (dassert_true dbug _ (time_valid_slow t Hv)). eexists _, _.
    split; [done|]. by right.
  - pose proof (valid_datetime_cases t w opt Ht) as Hc.
    destruct (bool_decide (_ = DATETIME_TO_TIME_YYYYMMDD_00000000_ONLY) && _) eqn:Eo;
      [|destruct (bool_decide_reflect (m_datetime_to_time_mode opt = DATETIME_TO_TIME_DISALLOW))].
    1,2: destruct (is_date_type_cases _ (proj1 Ht)) as [-> | ->];
      eexists _, _; (split; [done|]); by left.
    destruct Hc as (t' & w' & E & Hr); [done|]. exists t', w'. split.
    + by destruct (is_date_type_cases _ (proj1 Ht)) as [-> | ->].
    + right. destruct (m_datetime_to_time_mode opt); try done; apply Hr.
Qed.

Lemma to_datetime_or_time_ok s to w fl : 0 ≤ m_sec s → 0 ≤ m_usec s ≤ 999999 →
  ∃ rc t' w', to_datetime_or_time enum_signed dbug s to w fl = Some (rc, t', w')
    ∧ (rc = false → time_valid t' ∨ datetime_valid t').
Proof.
  intros Hs Hu. unfold to_datetime_or_time.
  destruct (_ && negb (m_neg s)).
  - match goal with |- context [number_to_datetime_or_date ?a ?b ?c ?d ?e] =>
      pose proof (number_to_datetime_or_date_spec a b c d e Hs Hu) as H;
      destruct (number_to_datetime_or_date a b c d e) as [[rc t'] w'] end.
    destruct H as [H1 H2]. assert (truth w' || negb (rc <? 0) = true) as E.
    { destruct (Z.ltb_spec rc 0); [|apply orb_true_r].
      rewrite (proj2 (truth_true w')); [done|]. by apply H2. }
    rewrite (dassert_true dbug _ E). eexists _, _, _. split; [done|].
    intros Hrc. right. apply H1. by apply Z.ltb_ge.
  - match goal with |- context [number_to_time_only ?a ?b ?c TIME_MAX_HOUR ?d ?e] =>
      pose proof (number_to_time_only_spec a b c d e Hs Hu) as H;
      destruct (number_to_time_only a b c TIME_MAX_HOUR d e) as [[rc t'] w'] end.
    destruct H as [H1 H2]. assert (truth w' || negb (truth rc) = true) as E.
    { destruct (truth rc) eqn:Er; [|apply orb_true_r]. apply truth_true in Er.
      rewrite (proj2 (truth_true w')); [done|]. by apply H2. }
    rewrite (dassert_true dbug _ E). eexists _, _, _. split; [done|].
    intros Hrc. left. by apply H1, truth_false.
Qed.

Lemma Time_of_Sec6_ok this w nr opt : 0 ≤ m_sec nr → 0 ≤ m_usec nr ≤ 999999 →
  ∃ t' w', Time_of_Sec6 enum_signed dbug this w nr opt = Some (t', w') ∧ time_ok t'.
Proof.
  intros Hs Hu. unfold Time_of_Sec6.
  destruct (to_datetime_or_time_ok nr this w (TIME_INVALID_DATES enum_signed) Hs Hu)
    as (rc & t' & w' & -> & H). cbn [mbind option_bind].
  apply converted_ok. destruct rc; [left; by left|]. destruct H as [H|H]; [done|..].
  - left. by right.
  - by right.
Qed.

Lemma trunc_any_ok t dec : time_ok t → 0 ≤ dec ≤ 6 →
  ∃ t', trunc dbug dec t = Some t' ∧ time_ok t'.
Proof.
  intros [E|Hv] Hd.
  - exists t. unfold trunc. rewrite is_valid_time_ok by by left. rewrite E.
    rewrite bool_decide_false by done. cbn [mbind option_bind].
    rewrite (dassert_true dbug _ (time_ok_slow _ (or_introl E))). split; [done|]. by left.
  - destruct (trunc_ok t dec Hv Hd) as (t' & E & _ & H & _). exists t'. split; [done|]. by right.
Qed.

Lemma options_round c r m opt : known_conv c → known_round r →
  options_of enum_signed dbug (Conv c) (Round r) m = Some opt →
  mode_round enum_signed dbug (opt_mode opt) = Some (Round r).
Proof.
  intros Hc Hr. unfold options_of, temporal_options.
  destruct (dassert _ _); cbn [mbind option_bind]; [|done]. intros [= <-]. cbn [opt_mode].
  by apply mixture_round.
Qed.

(** Every constructor of [Time] from an integer, a number with
    nanoseconds or a string leaves the class invariant: NULL or a TIME in range,
    and no assertion on the way fails, whatever the number, the string and the
    mode of the conversion, provided the parsers return valid values. *)
Theorem time_constructors_valid this w (nr : Hybrid.Longlong_hybrid) (nr9 : Sec9) str st c r m opt dec
    (Hc : known_conv c) (Hr : known_round r)
    (Hopt : options_of enum_signed dbug (Conv c) (Round r) m = Some opt)
    (Hn : Hybrid.wf nr) (Hs : 0 ≤ m_sec (sec9_base nr9)) (Hu : 0 ≤ m_usec (sec9_base nr9) ≤ 999999)
    (Hns : 0 ≤ m_nsec nr9 ≤ 999) (Hd : 0 ≤ dec ≤ 6) :
  (∃ t' w', Time_of_longlong_dec enum_signed dbug this w nr opt dec = Some (t', w') ∧ time_ok t')
  ∧ (∃ t' w', Time_of_Sec9 enum_signed dbug this w nr9 opt = Some (t', w') ∧ time_ok t')
  ∧ (∃ t' st', Time_of_str enum_signed dbug this st str opt = Some (t', st') ∧ time_ok t').
Proof.
  split; [|split].
  - unfold Time_of_longlong_dec, Time_of_longlong.
    destruct (Time_of_Sec6_ok this w (Sec6_hybrid nr) opt) as (t' & w' & -> & Ht').
    { cbn. unfold Hybrid.abs, to_ulonglong. repeat case_match; apply (wrap_in_u 64); lia. }
    { done. }
    cbn [mbind option_bind]. destruct (trunc_any_ok t' dec Ht' Hd) as (t2 & -> & Ht2). eauto.
  - unfold Time_of_Sec9.
    destruct (Time_of_Sec6_ok this w (sec9_base nr9) opt Hs Hu) as (t' & w' & -> & Ht').
    cbn [mbind option_bind]. rewrite is_valid_time_ok by done. cbn [mbind option_bind].
    case_bool_decide as Ek; cbn [negb]; [|by eauto].
    rewrite (options_round c r m opt Hc Hr Hopt). cbn [mbind option_bind].
    destruct Ht' as [Ht'|Hv]; [by rewrite Ht' in Ek|].
    destruct (round_eq _ _); [|eexists _, _; (split; [done|]); by right].
    destruct (round_or_set_max_nsec_spec t' 6 w' (m_nsec nr9) Hv) as (Hv' & _); [lia..|].
    destruct (round_or_set_max_nsec t' 6 w' (m_nsec nr9)) as [t2 w2].
    eexists _, _. split; [done|]. by right.
  - unfold Time_of_str. pose proof (str_to_time_cs_spec str this st (opt_mode opt)) as H.
    destruct (str_to_time_cs _ _ _ _) as [[[] t'] st'].
    + eexists _, _. split; [done|]. by left.
    + destruct (converted_ok t' (warnings st') opt) as (t2 & w2 & -> & H2).
      { destruct H as [H|H]; [done|left; by right|by right]. }
      cbn [mbind option_bind]. eauto.
Qed.

(** [cmp] orders the TIME values as their signed
    microseconds. *)
Theorem time_cmp_correct t1 t2 (H1 : time_valid t1) (H2 : time_valid t2) :
  cmp dbug t1 t2 = Some (Hybrid.sign (signed_usecs t1 ?= signed_usecs t2)).
Proof.
  unfold cmp, to_packed. rewrite !is_valid_time_true by done.
  rewrite (dassert_true dbug _ (time_valid_slow _ H1)), (dassert_true dbug _ (time_valid_slow _ H2)).
  cbn [mbind option_bind]. f_equal.
  pose proof (pack_time_spec t1 t2 H1 H2). pose proof (pack_time_spec t2 t1 H2 H1).
  destruct (Z.compare_spec (signed_usecs t1) (signed_usecs t2)); zcases; cbn; done || lia.
Qed.

(** [to_seconds] is the signed number of whole seconds, and
    undoes [Sec6::sec_to_time] on every number of seconds in the range of TIME. *)
Theorem time_seconds_roundtrip t s lt dec (Ht : time_valid t)
    (Hs : 0 ≤ m_sec s ≤ TIME_MAX_VALUE_SECONDS) (Hu : 0 ≤ m_usec s ≤ 999999) (Hd : 0 ≤ dec ≤ 6) :
  to_seconds dbug t = Some (Z.quot (signed_usecs t) 1000000)
  ∧ ('(_, t') ← sec_to_time dbug s lt dec; to_seconds dbug t')
    = Some (if m_neg s then - m_sec s else m_sec s).
Proof.
  assert (∀ t, time_valid t → to_seconds dbug t = Some (Z.quot (signed_usecs t) 1000000)) as Hsec.
  { intros u Hv. unfold to_seconds, to_seconds_abs.
    rewrite (dassert_true dbug _ (time_valid_slow _ Hv)). cbn [mbind option_bind].
    pose proof (time_valid_usecs u Hv) as Hb. pose proof Hv as (_ & _ & (Hmi&Hse&Hfr) & Hh).
    unfold TIME_MAX_HOUR in Hh. unfold to_uint32, to_ulong, long_bits.
    rewrite (wrap_id 32 (hour u * 3600)) by (unfold in_u; change (2 ^ 32) with 4294967296; lia).
    rewrite (wrap_id 32 (minute u * 60)) by (unfold in_u; change (2 ^ 32) with 4294967296; lia).
    rewrite wrap_id by (unfold in_u; change (2 ^ 32) with 4294967296; lia).
    f_equal. unfold signed_usecs. destruct (neg u).
    - rewrite Z.quot_opp_l, Z.quot_div_nonneg by lia. f_equal. unfold usecs.
      rewrite Z.div_add_l, (Z.div_small (second_part u)) by lia. lia.
    - rewrite Z.quot_div_nonneg by lia. unfold usecs.
      rewrite Z.div_add_l, (Z.div_small (second_part u)) by lia. lia. }
  split; [by apply Hsec|].
  destruct (sec_to_time_value dbug s lt dec Hd) as (t' & E & Hk & Hn & Hy & Hok & Hh & Eu); [lia..|].
  rewrite bool_decide_false in E, Eu by lia. rewrite E. cbn [mbind option_bind].
  rewrite Hsec by (repeat split; try done; apply Hok || lia).
  f_equal. unfold signed_usecs. rewrite Hn, Eu. destruct (m_neg s).
  - rewrite Z.quot_opp_l, Z.quot_div_nonneg by lia. f_equal.
    rewrite Z.div_add_l, (Z.div_small (m_usec s)) by lia. lia.
  - rewrite Z.quot_div_nonneg by lia.
    rewrite Z.div_add_l, (Z.div_small (m_usec s)) by lia. lia.
Qed.

End Theorems.

(** ** An instance of the parameters *)

Definition demo_round (t : MYSQL_TIME) (dec w ns : Z) : MYSQL_TIME * Z :=
  match add_nanoseconds_mmssff false ns t with
  | None => (t, w)
  | Some (carry, t) =>
      let t := if carry : bool then set_hour (hour t + 1) t else t in
      let '(t, w) := if TIME_MAX_HOUR <? hour t
                     then (time_hhmmssff_set_max TIME_MAX_HOUR t, Z.lor w MYSQL_TIME_WARN_OUT_OF_RANGE)
                     else (t, w) in
      (default t (my_time_trunc false t dec), w)
  end.

Definition demo_TIME_of (d : Z) : MYSQL_TIME :=
  let s := Z.abs d / 1000000 in
  Mk_TIME 0 0 0 (s / 3600) (s mod 3600 / 60) (s mod 60) (Z.abs d mod 1000000) (d <? 0)
    MYSQL_TIMESTAMP_TIME.

Definition demo_today : MYSQL_TIME := Mk_TIME 2022 8 15 0 0 0 0 false MYSQL_TIMESTAMP_DATE.

Definition demo_TimeMembers : TimeMembers := {|
  pack_time := signed_usecs;
  TIME_to_ulonglong_time t := (hour t * 100 + minute t) * 100 + second t;
  set_current_date := demo_today;
  calc_time_diff_TIME t1 t2 _ _ _ :=
    (false, demo_TIME_of (@full_usecs demo_TimeLib t1 - @full_usecs demo_TimeLib t2));
  round_or_set_max_nsec := demo_round;
  round_or_set_max t dec w := demo_round t dec w (usec_unit dec / 2 * 1000);
  str_to_time_cs str t st m := (true, t, set_warnings MYSQL_TIME_WARN_TRUNCATED st)
|}.

Lemma demo_TIME_of_value d : let t := demo_TIME_of d in
  mmssff_ok t ∧ 0 ≤ hour t ∧ signed_usecs t = d.
Proof.
  pose proof (Z.mod_pos_bound (Z.abs d) 1000000). pose proof (Z.div_mod (Z.abs d) 1000000).
  assert (0 ≤ Z.abs d / 1000000) as Hs by (apply Z.div_pos; lia).
  destruct (hms_of_sec _ Hs) as (E & ? & ? & ?).
  unfold demo_TIME_of, mmssff_ok, signed_usecs, usecs.
  cbn -[Z.mul Z.add Z.div Z.modulo Z.ltb Z.abs].
  set (s := Z.abs d / 1000000) in *. split; [lia|]. split; [done|].
  rewrite E. destruct (Z.ltb_spec d 0); lia.
Qed.

Lemma demo_round_ok t dec w ns : time_valid t → 0 ≤ dec ≤ 6 → 0 ≤ ns ≤ 1000000000 →
  let r := demo_round t dec w ns in rounded_TIME dec (rounded_usecs ns) w t r.1 r.2.
Proof.
  intros Ht Hd Hn. pose proof Ht as (Hk & Hy & Hok & Hh).
  destruct (add_nanoseconds_mmssff_value false t ns Hok Hn) as (c & t1 & E & Ev & Hok1 & Et).
  unfold demo_round. rewrite E.
  assert (hour t1 = hour t ∧ neg t1 = neg t ∧ time_type t1 = time_type t
          ∧ (year t1, month t1, day t1) = (year t, month t, day t)) as (Eh & En & Ek & Ey).
  { rewrite <- Et. by destruct t1. }
  set (t2 := if c : bool then set_hour (hour t1 + 1) t1 else t1).
  assert (usecs t2 = usecs t + rounded_usecs ns ∧ mmssff_ok t2 ∧ neg t2 = neg t
          ∧ time_type t2 = MYSQL_TIMESTAMP_TIME ∧ (year t2, month t2, day t2) = (0, 0, 0)
          ∧ 0 ≤ hour t2) as (Eu2 & Hok2 & En2 & Ek2 & Ey2 & Hh2).
  { rewrite Hk in Ek. rewrite Hy in Ey. rewrite <- Ev, <- En. unfold t2. destruct c.
    - unfold usecs, mmssff_ok in *. cbn. repeat split; done || lia.
    - rewrite Z.add_0_r. repeat split; done || lia || apply Hok1. }
  assert (∀ t3, time_type t3 = MYSQL_TIMESTAMP_TIME → (year t3, month t3, day t3) = (0, 0, 0) →
    mmssff_ok t3 → 0 ≤ hour t3 ≤ TIME_MAX_HOUR → neg t3 = neg t →
    usecs t3 = clamp_usecs (usecs t + rounded_usecs ns) →
    let t4 := default t3 (my_time_trunc false t3 dec) in
    time_valid t4 ∧ usecs t4 = rounded_to dec (usecs t + rounded_usecs ns)
    ∧ neg t4 = neg t && negb (usecs t4 =? 0)) as Hfin.
  { intros t3 Hk3 Hy3 Hok3 Hh3 Hn3 Hu3. assert (0 ≤ hour t3) as Hh0 by lia.
    pose proof (time_trunc_eq false t3 dec Hd Hh0 Hok3) as E3. cbv zeta in E3. rewrite E3.
    destruct (trunc_value t3 dec Hd Hok3) as [Ev3 Hf3]. cbn [default from_option id].
    unfold rounded_to. rewrite <- Hu3, <- Hn3. split.
    { destruct Hok3 as (?&?&?). unfold time_valid, mmssff_ok. cbn.
      split; [done|]. split; [done|]. split; [lia|done]. }
    cbn [neg set_neg]. change (usecs (set_neg ?b ?x)) with (usecs x). by rewrite Ev3. }
  assert ((TIME_MAX_HOUR <? hour t2) = (max_usecs 6 <? usecs t + rounded_usecs ns)) as Ew.
  { rewrite <- Eu2, max_usecs_6. destruct Hok2 as (?&?&?). unfold usecs, TIME_MAX_HOUR.
    zcases; done || lia. }
  rewrite Ew. unfold rounded_TIME.
  destruct (Z.ltb_spec (max_usecs 6) (usecs t + rounded_usecs ns)) as [Hb|Hb]; cbn [fst snd].
  - assert (usecs (time_hhmmssff_set_max TIME_MAX_HOUR t2)
            = clamp_usecs (usecs t + rounded_usecs ns)) as Ec
      by (unfold clamp_usecs; by rewrite Z.min_r by lia).
    destruct (Hfin (time_hhmmssff_set_max TIME_MAX_HOUR t2)) as (H1 & H2 & H3); done.
  - rewrite max_usecs_6 in Hb. assert (hour t2 ≤ 838).
    { destruct Hok2 as (?&?&?). rewrite <- Eu2 in Hb. unfold usecs in Hb. lia. }
    assert (usecs t2 = clamp_usecs (usecs t + rounded_usecs ns)) as Ec
      by (unfold clamp_usecs; by rewrite max_usecs_6, Z.min_l by lia).
    destruct (Hfin t2) as (H1 & H2 & H3); done.
Qed.

#[export] Instance demo_TimeMembersLaws : @TimeMembersLaws demo_TimeLib demo_TimeMembers.
Proof.
  split.
  - intros t lt m Hk t'. unfold t'. cbn [calc_time_diff_TIME demo_TimeMembers snd].
    destruct (demo_TIME_of_value (@full_usecs demo_TimeLib t - @full_usecs demo_TimeLib demo_today))
      as (H1 & H2 & H3). by repeat split; try apply H1.
  - intros t dec w ns Ht Hd Hn. by apply demo_round_ok.
  - done.
  - intros n nr f to w Hn Hf. cbn [number_to_time_only demo_TimeLib].
    destruct (Z.ltb_spec TIME_MAX_HOUR (nr / 10000)); (split; [|done]); [done|]. intros _.
    pose proof (Z.mod_pos_bound (nr / 100) 100). pose proof (Z.mod_pos_bound nr 100).
    assert (0 ≤ nr / 10000) by (apply Z.div_pos; lia).
    unfold time_valid, mmssff_ok. cbn -[Z.div Z.modulo Z.min]. repeat split; done || lia.
  - intros nr f to fl w Hn Hf. cbn [number_to_datetime_or_date demo_TimeLib]. split; [|lia]. intros _.
    pose proof (Z.mod_pos_bound (nr / 100) 100). pose proof (Z.mod_pos_bound nr 100).
    pose proof (Z.mod_pos_bound (nr / 10000) 100). pose proof (Z.mod_pos_bound (nr / 1000000) 100).
    pose proof (Z.mod_pos_bound (nr / 100000000) 100).
    assert (0 ≤ nr / 10000000000) by (apply Z.div_pos; lia).
    unfold datetime_valid, mmssff_ok. cbn -[Z.div Z.modulo Z.min]. repeat split; done || lia.
  - done.
Qed.

(** ** Witnesses *)

Definition demo_opt (m : datetime_to_time_mode_t) : Options :=
  Mk_Options (conv_or_round true (default_flags_for_get_date true) (TIME_FRAC_ROUND true)) m.
Definition demo_time (h mi s f : Z) (n : bool) : MYSQL_TIME :=
  Mk_TIME 0 0 0 h mi s f n MYSQL_TIMESTAMP_TIME.
Definition demo_day : MYSQL_TIME := Mk_TIME 0 0 3 4 5 6 7 false MYSQL_TIMESTAMP_DATETIME.

Lemma demo_valid h mi s f n : 0 ≤ h ≤ 838 → 0 ≤ mi ≤ 59 → 0 ≤ s ≤ 59 → 0 ≤ f ≤ 999999 →
  time_valid (demo_time h mi s f n).
Proof. intros. unfold time_valid, mmssff_ok, TIME_MAX_HOUR. cbn. repeat split; done || lia. Qed.

Lemma datetime_to_time_correct_witness :
  ∃ t' w', @valid_MYSQL_TIME_to_valid_value demo_TimeLib demo_TimeMembers true true 0
      (demo_opt DATETIME_TO_TIME_YYYYMMDD_000000DD_MIX_TO_HOURS) demo_day = Some (t', w')
    ∧ signed_usecs t' = 273906000007.
Proof.
  assert (mysql_time_ok demo_day) as H.
  { right. right. unfold datetime_valid, mmssff_ok. cbn. repeat split; lia || done. }
  destruct (@datetime_to_time_correct demo_TimeLib demo_TimeLibLaws demo_TimeMembers
    demo_TimeMembersLaws true true demo_day 0
    (demo_opt DATETIME_TO_TIME_YYYYMMDD_000000DD_MIX_TO_HOURS) H)
    as (t' & w' & E & _ & Hr & _).
  exists t', w'. split; [exact E|].
  destruct (Hr ltac:(vm_compute; reflexivity)) as (_ & Hv & _).
  destruct (Hv (conj eq_refl eq_refl)) as [Ev _]. exact Ev.
Defined.

Lemma time_rounding_correct_witness :
  ∃ t' w', @floor pow10_Log10 demo_TimeMembers true 0 (demo_time 0 0 1 500000 true) = Some (t', w')
    ∧ signed_usecs t' = -2000000.
Proof.
  assert (time_valid (demo_time 0 0 1 500000 true)) as H by (apply demo_valid; lia).
  assert (0 ≤ 6 ≤ 6) as Hd by lia.
  destruct (@time_rounding_correct pow10_Log10 pow10_Log10Laws demo_TimeLib demo_TimeMembers
    demo_TimeMembersLaws true true _ 6 0 H Hd) as (_ & (t' & w' & E & _ & Ev & _) & _).
  exists t', w'. split; [exact E|exact Ev].
Defined.

Lemma time_constructors_valid_witness :
  ∃ t' w', @Time_of_longlong_dec pow10_Log10 demo_TimeLib demo_TimeMembers true true zero_TIME 0
      {| Hybrid.m_value := -1234; Hybrid.m_unsigned := false |}
      (demo_opt DATETIME_TO_TIME_DISALLOW) 2 = Some (t', w') ∧ time_ok t'.
Proof.
  assert (known_conv 33554436) as Hc by (split; [lia|vm_compute; reflexivity]).
  assert (known_round 64) as Hr by (right; right; vm_compute; reflexivity).
  assert (options_of true true (Conv 33554436) (Round 64) DATETIME_TO_TIME_DISALLOW
          = Some (demo_opt DATETIME_TO_TIME_DISALLOW)) as Ho by (vm_compute; reflexivity).
  assert (Hybrid.wf {| Hybrid.m_value := -1234; Hybrid.m_unsigned := false |}) as Hn
    by (vm_compute; split; discriminate || reflexivity).
  destruct (@time_constructors_valid pow10_Log10 pow10_Log10Laws demo_TimeLib demo_TimeLibLaws
    demo_TimeMembers demo_TimeMembersLaws true true zero_TIME 0 _ (Mk_Sec9 sec6_reset 0) []
    my_time_status_init _ _ _ _ 2 Hc Hr Ho Hn ltac:(cbn; lia) ltac:(cbn; lia) ltac:(cbn; lia)
    ltac:(lia)) as (H & _).
  exact H.
Defined.

Lemma time_cmp_correct_witness :
  @cmp demo_TimeMembers true (demo_time 1 0 0 0 true) (demo_time 0 30 0 0 true) = Some (-1).
Proof.
  assert (time_valid (demo_time 1 0 0 0 true)) as H1 by (apply demo_valid; lia).
  assert (time_valid (demo_time 0 30 0 0 true)) as H2 by (apply demo_valid; lia).
  exact (@time_cmp_correct demo_TimeLib demo_TimeMembers demo_TimeMembersLaws true _ _ H1 H2).
Defined.

Lemma time_seconds_roundtrip_witness :
  ('(_, t') ← @sec_to_time demo_TimeLib true (Mk_Sec6 3020399 5 true false) zero_TIME 6;
   to_seconds true t') = Some (-3020399).
Proof.
  assert (time_valid (demo_time 1 0 0 0 true)) as H1 by (apply demo_valid; lia).
  destruct (@time_seconds_roundtrip demo_TimeLib demo_TimeLibLaws true (demo_time 1 0 0 0 true)
    (Mk_Sec6 3020399 5 true false) zero_TIME 6 H1 ltac:(vm_compute; split; discriminate)
    ltac:(cbn; lia) ltac:(lia)) as [_ E].
  exact E.
Defined.
