(* ===== verification/DatetimeType.v ===== *)
(** DATE, DATETIME and TIMESTAMP values, [sql_type.h]: the classes
    [Temporal_with_date], [Date], [Datetime], [Timestamp] and
    [Timestamp_or_zero_datetime].  As in [TimeType], a method takes the value and
    returns the new one; members whose bodies are not in the repository are the
    class [DateMembers]. *)
From S2P Require Import Prelude MyTime DateMode SqlTypeInt CDouble Temporal TimeType.

Class DateMembers := {
  check_datetime_range : MYSQL_TIME → bool;
  (* ltime, not_zero_date, flags, was_cut *)
  check_date_ext : MYSQL_TIME → bool → Z → Z → bool * Z;
  calc_weekday : Z → bool → Z;
  (* the week and the year *)
  calc_week : MYSQL_TIME → Z → Z * Z;
  str_to_date_cs : list Z → MYSQL_TIME → MYSQL_TIME_STATUS → date_mode_t →
    bool * MYSQL_TIME * MYSQL_TIME_STATUS;
  (* this, warn, nsec *)
  datetime_add_nanoseconds_or_invalidate : MYSQL_TIME → Z → Z → bool * MYSQL_TIME * Z;
  (* this, dec, warn, nsec *)
  datetime_round_or_invalidate : MYSQL_TIME → Z → Z → Z → bool * MYSQL_TIME * Z;
  (* [Datetime::round_or_invalidate(thd, dec, warn)] *)
  round_or_invalidate : MYSQL_TIME → Z → Z → bool * MYSQL_TIME * Z;
  TIME_to_ulonglong_date : MYSQL_TIME → Z;
  TIME_to_ulonglong_datetime : MYSQL_TIME → Z
}.

(** ** [class Timestamp], [class Timestamp_or_zero_datetime] *)
Definition timestamp_cmp (t other : timeval) : Z :=
  if tv_sec t <? tv_sec other then -1
  else if tv_sec other <? tv_sec t then 1
  else if tv_usec t <? tv_usec other then -1
  else if tv_usec other <? tv_usec t then 1 else 0.

Record Timestamp_or_zero_datetime := Mk_or_zero {
  or_zero_tm : timeval;
  m_is_zero_datetime : bool
}.

Definition or_zero_of (tm : timeval) (is_zero_datetime : bool) : Timestamp_or_zero_datetime :=
  Mk_or_zero tm is_zero_datetime.
Definition is_zero_datetime (t : Timestamp_or_zero_datetime) : bool := m_is_zero_datetime t.
Definition or_zero_cmp (t other : Timestamp_or_zero_datetime) : Z :=
  if is_zero_datetime t then (if is_zero_datetime other then 0 else -1)
  else if is_zero_datetime other then 1
  else timestamp_cmp (or_zero_tm t) (or_zero_tm other).

Section Code.
Context {L10 : Log10} {TL : TimeLib} {TM : TimeMembers} {DM : DateMembers}
  (enum_signed dbug : bool).

Definition Timestamp (timestamp sec_part : Z) : option timeval := Timeval dbug timestamp sec_part.

Definition add_nanoseconds_usec (nanoseconds : Z) (t : timeval) : option (bool * timeval) :=
  _ ← dassert dbug (nanoseconds <=? 1000000000);
  if nanoseconds <? 500 then Some (false, t) else
  let u := to_long (tv_usec t + to_uint32 (nanoseconds + 500) / 1000) in
  if u <? 1000000 then Some (false, Mk_timeval (tv_sec t) u)
  else Some (true, Mk_timeval (tv_sec t) (Z.rem u 1000000)).

Definition timestamp_fraction_remainder (dec : Z) (t : timeval) : option Z :=
  my_time_fraction_remainder dbug (tv_usec t) dec.
Definition timestamp_trunc (dec : Z) (t : timeval) : option timeval := my_timeval_trunc dbug t dec.

(** [round_or_set_max] is [Timestamp::round_or_set_max]. *)
Definition timestamp_round (round_or_set_max : timeval → Z → Z → timeval * Z)
    (dec : Z) (mode : time_round_mode_t) (warn : Z) (t : timeval) : option (timeval * Z) :=
  if round_mode mode =? RoundValue.FRAC_NONE then
    (if dbug then r ← timestamp_fraction_remainder dec t; dassert dbug (r =? 0) else Some ());;
    t ← timestamp_trunc dec t; Some (t, warn)
  else if round_mode mode =? RoundValue.FRAC_TRUNCATE
  then t ← timestamp_trunc dec t; Some (t, warn)
  else if round_mode mode =? RoundValue.FRAC_ROUND then Some (round_or_set_max t dec warn)
  else Some (t, warn).

(** The default constructor and the one from the native form, where an empty
    string is the zero datetime; [of_native] is the constructor of [Timestamp]. *)
Definition or_zero_default : option Timestamp_or_zero_datetime :=
  tm ← Timestamp 0 0; Some (Mk_or_zero tm true).
Definition or_zero_of_native (of_native : list Z → option timeval) (native : list Z)
  : option Timestamp_or_zero_datetime :=
  tm ← (if truth (Z.of_nat (length native)) then of_native native else Timestamp 0 0);
  Some (Mk_or_zero tm (Z.of_nat (length native) =? 0)).
Definition or_zero_trunc (decimals : Z) (t : Timestamp_or_zero_datetime)
  : option Timestamp_or_zero_datetime :=
  if is_zero_datetime t then Some t
  else tm ← timestamp_trunc decimals (or_zero_tm t); Some (Mk_or_zero tm (m_is_zero_datetime t)).

(** ** [class Temporal_with_date] *)
Definition daynr (t : MYSQL_TIME) : Z := to_ulong (calc_daynr (year t) (month t) (day t)).
Definition weekday (t : MYSQL_TIME) (sunday_first_day_of_week : bool) : Z :=
  calc_weekday (daynr t) sunday_first_day_of_week.
Definition dayofyear (t : MYSQL_TIME) : Z :=
  to_ulong (daynr t - calc_daynr (year t) 1 1 + 1).
Definition quarter (t : MYSQL_TIME) : Z := to_uint32 (month t + 2) / 3.
Definition week (t : MYSQL_TIME) (week_behaviour : Z) : Z := (calc_week t week_behaviour).1.
Definition yearweek (t : MYSQL_TIME) (week_behaviour : Z) : Z :=
  let '(week, year) := calc_week t week_behaviour in to_uint32 (week + to_uint32 (year * 100)).

Definition with_date_default (this : MYSQL_TIME) : MYSQL_TIME := set_type MYSQL_TIMESTAMP_NONE this.
Definition not_time_only (flags : date_mode_t) : bool :=
  negb (conv_bool (mode_and_conv enum_signed flags (TIME_TIME_ONLY enum_signed))).
Definition with_date_of_Sec6 (this : MYSQL_TIME) (warn : Z) (nr : Sec6) (flags : date_mode_t)
  : option (MYSQL_TIME * Z) :=
  _ ← dassert dbug (not_time_only flags);
  '(err, t, warn) ← to_datetime_or_date enum_signed dbug nr this warn (mode_conv enum_signed flags);
  Some (if err : bool then set_type MYSQL_TIMESTAMP_NONE t else t, warn).
Definition with_date_of_str (this : MYSQL_TIME) (status : MYSQL_TIME_STATUS) (str : list Z)
    (flags : date_mode_t) : option (MYSQL_TIME * MYSQL_TIME_STATUS) :=
  _ ← dassert dbug (not_time_only flags);
  let '(err, t, status) := str_to_date_cs str this status flags in
  Some (if err : bool then set_type MYSQL_TIMESTAMP_NONE t else t, status).
Definition with_date_comparison_flags : date_conv_mode_t :=
  conv_or enum_signed (TIME_INVALID_DATES enum_signed) (TIME_FUZZY_DATES enum_signed).

(** [::check_date] with the flags of the session that matter to it. *)
Definition check_date_with (t : MYSQL_TIME) (flags : date_conv_mode_t) (warnings : Z) : bool * Z :=
  check_date_ext t (truth (year t) || truth (month t) || truth (day t))
    (conv_ulonglong (conv_and enum_signed flags (TIME_MODE_FOR_XXX_TO_DATE enum_signed))) warnings.

(** ** [class Date] *)
Definition is_valid_date_slow (t : MYSQL_TIME) : option bool :=
  _ ← dassert dbug (bool_decide (time_type t = MYSQL_TIMESTAMP_DATE));
  Some (negb (check_datetime_range t)).
Definition date_valid_value_slow (t : MYSQL_TIME) : option bool :=
  if bool_decide (time_type t = MYSQL_TIMESTAMP_NONE) then Some true else is_valid_date_slow t.

(** [DBUG_ASSERT] of a check that can itself fail an assertion: it is evaluated
    only where assertions are active. *)
Definition dassert_check (c : option bool) : option () :=
  if dbug then (v ← c; dassert dbug v) else Some ().

(** [Date(thd, item, fuzzydate)], on the value made of the item. *)
Definition Date_of_with_date (t : MYSQL_TIME) : option MYSQL_TIME :=
  t ← (if bool_decide (time_type t = MYSQL_TIMESTAMP_DATETIME)
       then datetime_to_date dbug t else Some t);
  _ ← dassert_check (date_valid_value_slow t); Some t.
(** The constructors of [Date] from a pointer to a [Temporal_with_date] and to a
    [Temporal_hybrid]. *)
Definition Date_of_temporal (d : MYSQL_TIME) : option MYSQL_TIME :=
  t ← datetime_to_date dbug d; _ ← dassert_check (is_valid_date_slow t); Some t.
Definition Date_of_hybrid (from : MYSQL_TIME) : option MYSQL_TIME :=
  '(_, t) ← copy_valid_value_to_mysql_time dbug from;
  _ ← dassert_check (is_valid_date_slow t); Some t.
Definition is_valid_date (t : MYSQL_TIME) : option bool :=
  _ ← dassert_check (date_valid_value_slow t);
  Some (bool_decide (time_type t = MYSQL_TIMESTAMP_DATE)).
Definition date_check_date (t : MYSQL_TIME) (flags : date_conv_mode_t) (warnings : Z)
  : option (bool * Z) :=
  _ ← dassert_check (is_valid_date_slow t); Some (check_date_with t flags warnings).
Definition date_copy_to_mysql_time (t ltime : MYSQL_TIME) : option (bool * MYSQL_TIME) :=
  if bool_decide (time_type t = MYSQL_TIMESTAMP_NONE)
  then Some (true, set_type MYSQL_TIMESTAMP_NONE ltime)
  else _ ← dassert_check (is_valid_date_slow t); Some (false, t).
Definition date_get {A} (f : MYSQL_TIME → A) (t : MYSQL_TIME) : option A :=
  _ ← dassert_check (is_valid_date_slow t); Some (f t).
Definition date_daynr := date_get daynr.
Definition date_dayofyear := date_get dayofyear.
Definition date_quarter := date_get quarter.
Definition date_to_packed := date_get pack_time.
Definition date_to_longlong (t : MYSQL_TIME) : option Z :=
  v ← is_valid_date t; Some (if v : bool then Prelude.to_longlong (TIME_to_ulonglong_date t) else 0).

(** ** [class Datetime] *)
Definition is_valid_datetime_slow (t : MYSQL_TIME) : option bool :=
  _ ← dassert dbug (bool_decide (time_type t = MYSQL_TIMESTAMP_DATETIME));
  Some (negb (check_datetime_range t)).
Definition datetime_valid_value_slow (t : MYSQL_TIME) : option bool :=
  if bool_decide (time_type t = MYSQL_TIMESTAMP_NONE) then Some true else is_valid_datetime_slow t.
Definition is_valid_datetime (t : MYSQL_TIME) : option bool :=
  _ ← dassert_check (datetime_valid_value_slow t);
  Some (bool_decide (time_type t = MYSQL_TIMESTAMP_DATETIME)).
Definition date_to_datetime_if_needed (t : MYSQL_TIME) : option MYSQL_TIME :=
  if bool_decide (time_type t = MYSQL_TIMESTAMP_DATE) then date_to_datetime dbug t else Some t.
Definition datetime_add_nanoseconds (warn nsec : Z) (t : MYSQL_TIME) : option (bool * MYSQL_TIME * Z) :=
  _ ← dassert_check (is_valid_datetime_slow t);
  let '(rc, t, warn) := datetime_add_nanoseconds_or_invalidate t warn nsec in
  _ ← dassert_check (datetime_valid_value_slow t); Some (rc, t, warn).
Definition round_or_invalidate_nsec (dec warn nsec : Z) (t : MYSQL_TIME)
  : option (bool * MYSQL_TIME * Z) :=
  _ ← dassert_check (is_valid_datetime_slow t);
  let '(rc, t, warn) := datetime_round_or_invalidate t dec warn nsec in
  _ ← dassert_check (datetime_valid_value_slow t); Some (rc, t, warn).

Definition checked_datetime (t : MYSQL_TIME) : option MYSQL_TIME :=
  _ ← dassert_check (datetime_valid_value_slow t); Some t.
(** [Datetime(thd, item, fuzzydate)], on the value made of the item. *)
Definition Datetime_of_with_date (t : MYSQL_TIME) : option MYSQL_TIME :=
  t ← date_to_datetime_if_needed t; checked_datetime t.
Definition Datetime_of_str (this : MYSQL_TIME) (status : MYSQL_TIME_STATUS) (str : list Z)
    (fuzzydate : date_mode_t) : option (MYSQL_TIME * MYSQL_TIME_STATUS) :=
  '(t, status) ← with_date_of_str this status str fuzzydate;
  t ← Datetime_of_with_date t; Some (t, status).
Definition Datetime_of_Sec6 (this : MYSQL_TIME) (warn : Z) (nr : Sec6) (flags : date_mode_t)
  : option (MYSQL_TIME * Z) :=
  '(t, warn) ← with_date_of_Sec6 this warn nr flags;
  t ← Datetime_of_with_date t; Some (t, warn).
Definition Datetime_of_longlong (this : MYSQL_TIME) (warn : Z) (nr : Hybrid.Longlong_hybrid)
    (mode : date_mode_t) : option (MYSQL_TIME * Z) :=
  Datetime_of_Sec6 this warn (Sec6_hybrid nr) mode.
Definition Datetime_of_Sec9 (this : MYSQL_TIME) (warn : Z) (nr : Sec9) (fuzzydate : date_mode_t)
  : option (MYSQL_TIME * Z) :=
  '(t, warn) ← Datetime_of_Sec6 this warn (sec9_base nr) fuzzydate;
  v ← is_valid_datetime t;
  '(t, warn) ←
    (if negb v then Some (t, warn) else
     r ← mode_round enum_signed dbug fuzzydate;
     if round_eq r (TIME_FRAC_ROUND enum_signed)
     then '(_, t, warn) ← round_or_invalidate_nsec 6 warn (m_nsec nr) t; Some (t, warn)
     else Some (t, warn));
  t ← checked_datetime t; Some (t, warn).
Definition Datetime_zero (this : MYSQL_TIME) : option MYSQL_TIME :=
  '(t, _) ← Datetime_of_longlong this 0 {| Hybrid.m_value := 0; Hybrid.m_unsigned := false |}
              (mode_of enum_signed 0); Some t.
Definition Datetime_of_hybrid (from : MYSQL_TIME) : option MYSQL_TIME :=
  '(_, t) ← copy_valid_value_to_mysql_time dbug from;
  _ ← dassert_check (is_valid_datetime_slow t); Some t.
Definition Datetime_of_TIME (from : MYSQL_TIME) : option MYSQL_TIME :=
  _ ← dassert_check (is_valid_datetime_slow from); Some from.

Definition datetime_get {A} (f : MYSQL_TIME → A) (t : MYSQL_TIME) : option A :=
  _ ← dassert_check (is_valid_datetime_slow t); Some (f t).
Definition datetime_check_date (t : MYSQL_TIME) (flags : date_conv_mode_t) (warnings : Z)
  : option (bool * Z) := datetime_get (λ t, check_date_with t flags warnings) t.
Definition hhmmssff_is_zero : MYSQL_TIME → option bool :=
  datetime_get (λ t, (hour t =? 0) && (minute t =? 0) && (second t =? 0) && (second_part t =? 0)).
Definition datetime_daynr := datetime_get daynr.
Definition datetime_dayofyear := datetime_get dayofyear.
Definition datetime_quarter := datetime_get quarter.
Definition hhmmss_to_seconds_abs : MYSQL_TIME → option Z :=
  datetime_get (λ t, to_ulong (to_ulong (hour t * 3600) + to_uint32 (minute t * 60) + second t)).
Definition hhmmss_to_seconds (t : MYSQL_TIME) : option Z :=
  s ← hhmmss_to_seconds_abs t; Some (if neg t then - s else s).
Definition datetime_to_seconds (t : MYSQL_TIME) : option Z :=
  s ← hhmmss_to_seconds t; d ← datetime_daynr t; Some (s + d * 24 * 3600).

Definition datetime_copy_to_mysql_time (t ltime : MYSQL_TIME) : option (bool * MYSQL_TIME) :=
  if bool_decide (time_type t = MYSQL_TIMESTAMP_NONE)
  then Some (true, set_type MYSQL_TIMESTAMP_NONE ltime)
  else _ ← dassert_check (is_valid_datetime_slow t); Some (false, t).
Definition datetime_copy_to_type (t ltime : MYSQL_TIME) (type : timestamp_type)
  : option (bool * MYSQL_TIME) :=
  _ ← dassert dbug (is_date_type type);
  '(rc, ltime) ← datetime_copy_to_mysql_time t ltime;
  if rc : bool then Some (true, ltime) else
  _ ← (if bool_decide (type ≠ MYSQL_TIMESTAMP_DATE) then Some ()
       else dassert_check (hhmmssff_is_zero t));
  Some (false, set_type type ltime).
Definition datetime_to_longlong (t : MYSQL_TIME) : option Z :=
  v ← is_valid_datetime t;
  Some (if v : bool then Prelude.to_longlong (TIME_to_ulonglong_datetime t) else 0).
Definition datetime_to_double (t : MYSQL_TIME) : option spec_float :=
  v ← is_valid_datetime t;
  Some (if negb v then double_of 0
        else temporal_to_double (neg t) (TIME_to_ulonglong_datetime t) (second_part t)).
Definition datetime_to_packed (t : MYSQL_TIME) : option Z :=
  v ← is_valid_datetime t; Some (if v : bool then pack_time t else 0).
Definition datetime_fraction_remainder (dec : Z) (t : MYSQL_TIME) : option Z :=
  v ← is_valid_datetime t; _ ← dassert dbug v;
  my_time_fraction_remainder dbug (to_long (second_part t)) dec.

Definition datetime_trunc (dec : Z) (t : MYSQL_TIME) : option MYSQL_TIME :=
  v ← is_valid_datetime t;
  t ← (if v : bool then my_datetime_trunc dbug t dec else Some t);
  checked_datetime t.
Definition datetime_ceiling (warn : Z) (t : MYSQL_TIME) : option (MYSQL_TIME * Z) :=
  v ← is_valid_datetime t;
  '(t, warn) ← (if v && truth (second_part t)
                then '(_, t, warn) ← round_or_invalidate_nsec 0 warn 999999999 t; Some (t, warn)
                else Some (t, warn));
  t ← checked_datetime t; Some (t, warn).
Definition datetime_round_dec (dec warn : Z) (t : MYSQL_TIME) : option (MYSQL_TIME * Z) :=
  v ← is_valid_datetime t;
  let '(t, warn) := if v : bool
                    then let '(_, t, warn) := round_or_invalidate t dec warn in (t, warn)
                    else (t, warn) in
  t ← checked_datetime t; Some (t, warn).
Definition datetime_round (dec : Z) (mode : time_round_mode_t) (warn : Z) (t : MYSQL_TIME)
  : option (MYSQL_TIME * Z) :=
  if round_mode mode =? RoundValue.FRAC_NONE then
    (if dbug then r ← datetime_fraction_remainder dec t; dassert dbug (r =? 0) else Some ());;
    t ← datetime_trunc dec t; Some (t, warn)
  else if round_mode mode =? RoundValue.FRAC_TRUNCATE
  then t ← datetime_trunc dec t; Some (t, warn)
  else if round_mode mode =? RoundValue.FRAC_ROUND then datetime_round_dec dec warn t
  else Some (t, warn).

End Code.

(** ** Specification *)

(** The class invariants of [Date] and [Datetime]. *)
Definition datetime_ok (t : MYSQL_TIME) : Prop :=
  time_type t = MYSQL_TIMESTAMP_NONE
  ∨ time_type t = MYSQL_TIMESTAMP_DATETIME ∧ datetime_valid t.
Definition date_ok (t : MYSQL_TIME) : Prop :=
  time_type t = MYSQL_TIMESTAMP_NONE
  ∨ time_type t = MYSQL_TIMESTAMP_DATE ∧ datetime_valid t.

(** A value invalidated, or the sum cut to [dec] digits. *)
Definition rounded_datetime {TL : TimeLib} (dec add : Z) (t : MYSQL_TIME)
    (r : bool * MYSQL_TIME * Z) : Prop :=
  let '(rc, t', _) := r in
  if rc : bool then time_type t' = MYSQL_TIMESTAMP_NONE
  else time_type t' = MYSQL_TIMESTAMP_DATETIME ∧ datetime_valid t'
    ∧ full_usecs t' = full_usecs t + add - (full_usecs t + add) mod usec_unit dec.

Class DateMembersLaws {TL : TimeLib} {DM : DateMembers} : Prop := {
  check_datetime_range_spec t : datetime_valid t → check_datetime_range t = false;
  calc_daynr_range t : datetime_valid t → 0 ≤ calc_daynr (year t) (month t) (day t) < 2 ^ 31;
  datetime_round_spec t dec w ns : time_type t = MYSQL_TIMESTAMP_DATETIME → datetime_valid t →
    0 ≤ dec ≤ 6 → 0 ≤ ns ≤ 1000000000 →
    rounded_datetime dec (rounded_usecs ns) t (datetime_round_or_invalidate t dec w ns);
  round_or_invalidate_spec t dec w : time_type t = MYSQL_TIMESTAMP_DATETIME → datetime_valid t →
    0 ≤ dec ≤ 6 →
    rounded_datetime dec (usec_unit dec / 2) t (round_or_invalidate t dec w);
  str_to_date_cs_spec str t st m :
    let '(err, t', _) := str_to_date_cs str t st m in err = false → datetime_valid t'
}.

(** Microseconds since the epoch; [None], the zero datetime, is below all. *)
Definition timeval_ok (t : timeval) : Prop := 0 ≤ tv_usec t ≤ 999999.
Definition timeval_usecs (t : timeval) : Z := tv_sec t * 1000000 + tv_usec t.
Definition or_zero_key (t : Timestamp_or_zero_datetime) : option Z :=
  if is_zero_datetime t then None else Some (timeval_usecs (or_zero_tm t)).
Definition key_compare (a b : option Z) : comparison :=
  match a, b with
  | None, None => Eq | None, Some _ => Lt | Some _, None => Gt
  | Some x, Some y => x ?= y
  end.

(** ** Lemmas *)

Lemma timestamp_cmp_spec a b : timeval_ok a → timeval_ok b →
  timestamp_cmp a b = Hybrid.sign (timeval_usecs a ?= timeval_usecs b).
Proof.
  unfold timeval_ok, timeval_usecs, timestamp_cmp. intros Ha Hb.
  destruct (Z.compare_spec (tv_sec a * 1000000 + tv_usec a) (tv_sec b * 1000000 + tv_usec b));
    zcases; cbn; done || lia.
Qed.

Lemma or_zero_cmp_spec a b : timeval_ok (or_zero_tm a) → timeval_ok (or_zero_tm b) →
  or_zero_cmp a b = Hybrid.sign (key_compare (or_zero_key a) (or_zero_key b)).
Proof.
  intros Ha Hb. unfold or_zero_cmp, or_zero_key.
  destruct (is_zero_datetime a), (is_zero_datetime b); try done. by apply timestamp_cmp_spec.
Qed.

Lemma key_compare_eq a b : key_compare a b = Eq ↔ a = b.
Proof.
  destruct a, b; cbn; try done. rewrite Z.compare_eq_iff. split; [by intros ->|by intros [= ->]].
Qed.

Lemma key_compare_sym a b : key_compare b a = CompOpp (key_compare a b).
Proof. destruct a, b; cbn; try done. apply Z.compare_antisym. Qed.

Lemma key_compare_le_trans a b c :
  key_compare a b ≠ Gt → key_compare b c ≠ Gt → key_compare a c ≠ Gt.
Proof. destruct a, b, c; cbn; try done. rewrite !Z.compare_le_iff. lia. Qed.

Section DateTheorems.
Context {L10 : Log10} {HL : Log10Laws} {TL : TimeLib} {TLL : TimeLibLaws}
  {TM : TimeMembers} {TML : TimeMembersLaws} {DM : DateMembers} {DML : DateMembersLaws}
  (enum_signed dbug : bool).

Lemma timeval_trunc_ok t dec : timeval_ok t → 0 ≤ dec ≤ 6 →
  ∃ t', timestamp_trunc dbug dec t = Some t' ∧ timeval_ok t'
    ∧ timeval_usecs t' = timeval_usecs t - timeval_usecs t mod usec_unit dec.
Proof.
  intros Ht Hd. pose proof (usec_unit_pos dec Hd) as Hu. unfold timeval_ok in Ht.
  unfold timestamp_trunc, my_timeval_trunc. rewrite remainder_ok by lia. cbn [mbind option_bind].
  pose proof (Z.mod_pos_bound (tv_usec t) (usec_unit dec)).
  pose proof (Z.mod_le (tv_usec t) (usec_unit dec)).
  rewrite decide_True by (unfold in_s, long_bits; change (2 ^ (32 - 1)) with 2147483648; lia).
  eexists. split; [done|]. unfold timeval_ok, timeval_usecs. cbn [tv_sec tv_usec].
  split; [lia|].
  assert ((tv_sec t * 1000000 + tv_usec t) mod usec_unit dec = tv_usec t mod usec_unit dec) as ->.
  { rewrite (usec_unit_divides dec Hd) at 1.
    by rewrite Z.add_comm, Z.mul_assoc, Z.mod_add by lia. }
  lia.
Qed.

Lemma floor_mono x y u : 0 < u → x ≤ y → x - x mod u ≤ y - y mod u.
Proof.
  intros Hu H. pose proof (Z.div_mod x u). pose proof (Z.div_mod y u).
  assert (x / u ≤ y / u) by (apply Z.div_le_mono; lia). nia.
Qed.

(** [Timestamp::cmp] orders the timestamps as their
    microseconds, and [Timestamp_or_zero_datetime::cmp] puts the zero datetime
    before all of them: a total order, equal only on equal values; truncating to
    [dec] digits gives the largest multiple below, keeps the zero datetime, and
    keeps the order; adding nanoseconds adds them rounded, with the carry into the
    seconds reported. *)
Theorem timestamp_order a b c dec ns
    (Ha : timeval_ok (or_zero_tm a)) (Hb : timeval_ok (or_zero_tm b))
    (Hc : timeval_ok (or_zero_tm c)) (Hd : 0 ≤ dec ≤ 6) (Hn : 0 ≤ ns ≤ 1000000000) :
  or_zero_cmp a b = Hybrid.sign (key_compare (or_zero_key a) (or_zero_key b))
  ∧ (or_zero_cmp a b = 0 ↔ or_zero_key a = or_zero_key b)
  ∧ or_zero_cmp b a = - or_zero_cmp a b
  ∧ (or_zero_cmp a b ≤ 0 → or_zero_cmp b c ≤ 0 → or_zero_cmp a c ≤ 0)
  ∧ (∃ a' b', or_zero_trunc dbug dec a = Some a' ∧ or_zero_trunc dbug dec b = Some b'
     ∧ or_zero_key a' = (λ v, v - v mod usec_unit dec) <$> or_zero_key a
     ∧ (or_zero_cmp a b ≤ 0 → or_zero_cmp a' b' ≤ 0))
  ∧ (∃ carry t', add_nanoseconds_usec dbug ns (or_zero_tm a) = Some (carry, t') ∧ timeval_ok t'
     ∧ timeval_usecs t' + (if carry : bool then 1000000 else 0)
       = timeval_usecs (or_zero_tm a) + rounded_usecs ns).
Proof.
  assert (∀ x y, Hybrid.sign (key_compare x y) ≤ 0 ↔ key_compare x y ≠ Gt) as Hle
    by (intros x y; by destruct (key_compare x y)).
  rewrite !or_zero_cmp_spec by done. split; [done|]. split; [|split; [|split; [|split]]].
  - rewrite <- key_compare_eq. by destruct (key_compare _ _).
  - rewrite (key_compare_sym (or_zero_key a)). by destruct (key_compare _ _).
  - rewrite !Hle. apply key_compare_le_trans.
  - assert (∀ x, timeval_ok (or_zero_tm x) → ∃ x', or_zero_trunc dbug dec x = Some x'
      ∧ timeval_ok (or_zero_tm x')
      ∧ or_zero_key x' = (λ v, v - v mod usec_unit dec) <$> or_zero_key x) as Htr.
    { intros [tm z] Hx. unfold or_zero_trunc, or_zero_key, is_zero_datetime in *. cbn in *.
      destruct z; [by eexists|]. destruct (timeval_trunc_ok tm dec Hx Hd) as (tm' & -> & H1 & H2).
      cbn. eexists. split; [done|]. cbn. by rewrite H2. }
    destruct (Htr a Ha) as (a' & Ea & Ha' & Ka). destruct (Htr b Hb) as (b' & Eb & Hb' & Kb).
    exists a', b'. split; [done|]. split; [done|]. split; [done|].
    rewrite or_zero_cmp_spec by done. rewrite !Hle, Ka, Kb.
    destruct (or_zero_key a), (or_zero_key b); cbn; try done.
    rewrite !Z.compare_le_iff. intros. apply floor_mono; [|done]. by apply usec_unit_pos.
  - unfold add_nanoseconds_usec. rewrite (dassert_true dbug _ (proj2 (Z.leb_le ns 1000000000) (proj2 Hn))).
    cbn [mbind option_bind]. unfold timeval_ok in Ha. destruct (add_part _ ns Ha Hn) as [_ Hr].
    unfold rounded_usecs in *.
    destruct (Z.ltb_spec ns 500).
    { exists false, (or_zero_tm a). split; [done|]. split; [done|].
      rewrite (Z.div_small (ns + 500)) by lia. lia. }
    rewrite to_uint32_small by lia. unfold to_long. rewrite swrap_id
      by (try done; unfold in_s, long_bits; change (2 ^ (32 - 1)) with 2147483648; lia).
    unfold timeval_ok, timeval_usecs.
    destruct (Z.ltb_spec (tv_usec (or_zero_tm a) + (ns + 500) / 1000) 1000000);
      eexists _, _; (split; [done|]); cbn [tv_sec tv_usec]; [lia|].
    rewrite Z.rem_mod_nonneg, mod_million by lia. lia.
Qed.

(** *** Validity *)

Lemma dassert_check_true c : c = Some true → dassert_check dbug c = Some ().
Proof. intros ->. unfold dassert_check. by destruct dbug. Qed.

Lemma datetime_slow t : time_type t = MYSQL_TIMESTAMP_DATETIME → datetime_valid t →
  is_valid_datetime_slow dbug t = Some true.
Proof.
  intros Hk Ht. unfold is_valid_datetime_slow.
  rewrite (dassert_true dbug _ (bool_decide_eq_true_2 _ Hk)). cbn [mbind option_bind].
  by rewrite check_datetime_range_spec.
Qed.

Lemma date_slow t : time_type t = MYSQL_TIMESTAMP_DATE → datetime_valid t →
  is_valid_date_slow dbug t = Some true.
Proof.
  intros Hk Ht. unfold is_valid_date_slow.
  rewrite (dassert_true dbug _ (bool_decide_eq_true_2 _ Hk)). cbn [mbind option_bind].
  by rewrite check_datetime_range_spec.
Qed.

Lemma datetime_ok_slow t : datetime_ok t → datetime_valid_value_slow dbug t = Some true.
Proof.
  unfold datetime_valid_value_slow. intros [H|[Hk Ht]]; [by rewrite bool_decide_true|].
  rewrite bool_decide_false by by rewrite Hk. by apply datetime_slow.
Qed.

Lemma is_valid_datetime_ok t : datetime_ok t →
  is_valid_datetime dbug t = Some (bool_decide (time_type t = MYSQL_TIMESTAMP_DATETIME)).
Proof.
  intros H. unfold is_valid_datetime. by rewrite (dassert_check_true _ (datetime_ok_slow t H)).
Qed.

Lemma checked_datetime_ok t : datetime_ok t → checked_datetime dbug t = Some t.
Proof. intros H. unfold checked_datetime. by rewrite (dassert_check_true _ (datetime_ok_slow t H)). Qed.

Lemma set_type_valid k t : is_date_type k = true → datetime_valid t → datetime_valid (set_type k t).
Proof. intros Hk (_ & H). by split. Qed.

Lemma Datetime_of_with_date_ok t : time_type t = MYSQL_TIMESTAMP_NONE ∨ datetime_valid t →
  ∃ t', Datetime_of_with_date dbug t = Some t' ∧ datetime_ok t'
    ∧ (datetime_valid t → set_type (time_type t) t' = t ∧ time_type t' = MYSQL_TIMESTAMP_DATETIME).
Proof.
  intros H. unfold Datetime_of_with_date, date_to_datetime_if_needed.
  destruct (decide (time_type t = MYSQL_TIMESTAMP_DATE)) as [E|E].
  - rewrite bool_decide_true by done. destruct H as [H|Ht]; [by rewrite E in H|].
    pose proof Ht as (Hk & Hn & _). unfold date_to_datetime.
    rewrite (dassert_true dbug _ Hk), Hn. cbn [negb]. rewrite dassert_true by done.
    cbn [mbind option_bind].
    assert (datetime_ok (set_type MYSQL_TIMESTAMP_DATETIME t)) as Hok
      by (right; split; [done|by apply set_type_valid]).
    rewrite checked_datetime_ok by done. eexists. split; [done|]. split; [done|].
    intros _. by destruct t.
  - rewrite bool_decide_false by done. cbn [mbind option_bind].
    assert (datetime_ok t) as Hok.
    { destruct H as [H|Ht]; [by left|]. right. split; [|done].
      by destruct (is_date_type_cases _ (proj1 Ht)). }
    rewrite checked_datetime_ok by done. exists t. split; [done|]. split; [done|].
    intros Ht. split; [by destruct t|]. by destruct (is_date_type_cases _ (proj1 Ht)).
Qed.

Lemma to_datetime_or_date_ok s to w fl : 0 ≤ m_sec s → 0 ≤ m_usec s ≤ 999999 →
  ∃ rc t' w', to_datetime_or_date enum_signed dbug s to w fl = Some (rc, t', w')
    ∧ (rc = false → datetime_valid t')
    ∧ (m_neg s = true → rc = true ∧ w' = MYSQL_TIME_WARN_OUT_OF_RANGE).
Proof.
  intros Hs Hu. unfold to_datetime_or_date. destruct (m_neg s).
  { eexists _, _, _. split; [done|]. by split. }
  match goal with |- context [number_to_datetime_or_date ?a ?b ?c ?d ?e] =>
    pose proof (number_to_datetime_or_date_spec a b c d e Hs Hu) as H;
    destruct (number_to_datetime_or_date a b c d e) as [[rc t'] w'] end.
  destruct H as [H1 H2]. assert (truth w' || negb (rc =? -1) = true) as E.
  { destruct (Z.eqb_spec rc (-1)); [|apply orb_true_r].
    rewrite (proj2 (truth_true w')); [done|]. apply H2. lia. }
  rewrite (dassert_true dbug _ E). eexists _, _, _. split; [done|]. split; [|done].
  intros Hrc. apply Z.eqb_neq in Hrc. apply H1. destruct (Z.le_gt_cases 0 rc); [done|].
  destruct (H2 ltac:(lia)). lia.
Qed.

Lemma not_time_only_mixture c r : known_conv c → known_round r →
  Z.land c ConvValue.TIME_ONLY = 0 →
  not_time_only enum_signed (conv_or_round enum_signed (Conv c) (Round r)) = true.
Proof.
  intros Hc Hr Ht. rewrite (proj1 (mixture_round enum_signed true c r Hc Hr)).
  unfold not_time_only, mode_and_conv, conv_ulonglong, mode_ulonglong, TIME_TIME_ONLY, conv_of, conv_bool.
  cbn [m_mode conv_mode].
  pose proof (known_conv_small c Hc). pose proof (known_round_small r Hr).
  rewrite (to_ulonglong_small (Z.lor c r)) by (apply lor_in_u; done || lia).
  rewrite (to_value_t_small enum_signed ConvValue.TIME_ONLY), (to_ulonglong_small ConvValue.TIME_ONLY)
    by (by vm_compute).
  rewrite Z.land_lor_distr_l, Ht. replace (Z.land r ConvValue.TIME_ONLY) with 0
    by (by destruct Hr as [->|[->| ->]]).
  by destruct enum_signed.
Qed.

Lemma Datetime_of_Sec6_ok this w nr flags : not_time_only enum_signed flags = true →
  0 ≤ m_sec nr → 0 ≤ m_usec nr ≤ 999999 →
  ∃ t' w', Datetime_of_Sec6 enum_signed dbug this w nr flags = Some (t', w') ∧ datetime_ok t'
    ∧ (m_neg nr = true → time_type t' = MYSQL_TIMESTAMP_NONE ∧ w' = MYSQL_TIME_WARN_OUT_OF_RANGE).
Proof.
  intros Hfl Hs Hu. unfold Datetime_of_Sec6, with_date_of_Sec6.
  rewrite (dassert_true dbug _ Hfl). cbn [mbind option_bind].
  destruct (to_datetime_or_date_ok nr this w (mode_conv enum_signed flags) Hs Hu)
    as (rc & t & w' & -> & H & Hneg). cbn [mbind option_bind]. destruct rc.
  - unfold Datetime_of_with_date, date_to_datetime_if_needed.
    rewrite bool_decide_false by done. cbn [mbind option_bind].
    rewrite checked_datetime_ok by by left. cbn [mbind option_bind].
    eexists _, _. split; [done|]. split; [by left|]. intros Hm. by destruct (Hneg Hm) as [_ ->].
  - destruct (Datetime_of_with_date_ok t (or_intror (H eq_refl))) as (t' & -> & Hok & _).
    cbn [mbind option_bind]. eexists _, _. split; [done|]. split; [done|].
    intros Hm. by destruct (Hneg Hm).
Qed.

Lemma hybrid_abs_nonneg nr : 0 ≤ m_sec (Sec6_hybrid nr).
Proof. cbn. unfold Hybrid.abs, to_ulonglong. repeat case_match; apply (wrap_in_u 64); lia. Qed.

(** The result of a rounding by either member. *)
Lemma rounded_ok dec add t r : rounded_datetime dec add t r → datetime_ok r.1.2.
Proof. destruct r as [[[] t'] w']; cbn; [by left|intros (H1 & H2 & _); by right]. Qed.

Lemma round_or_invalidate_ok t dec w ns : time_type t = MYSQL_TIMESTAMP_DATETIME →
  datetime_valid t → 0 ≤ dec ≤ 6 → 0 ≤ ns ≤ 1000000000 →
  ∃ rc t' w', round_or_invalidate_nsec dbug dec w ns t = Some (rc, t', w') ∧ datetime_ok t'
    ∧ rounded_datetime dec (rounded_usecs ns) t (rc, t', w').
Proof.
  intros Hk Ht Hd Hn. unfold round_or_invalidate_nsec.
  rewrite (dassert_check_true _ (datetime_slow t Hk Ht)). cbn [mbind option_bind].
  pose proof (datetime_round_spec t dec w ns Hk Ht Hd Hn) as H. pose proof (rounded_ok _ _ _ _ H) as Hok.
  destruct (datetime_round_or_invalidate t dec w ns) as [[rc t'] w'].
  rewrite (dassert_check_true _ (datetime_ok_slow t' Hok)). cbn [mbind option_bind]. eauto 10.
Qed.

(** Every constructor of [Datetime] from a number with or
    without nanoseconds, from a string and from another value, and of [Date] from
    a DATE or DATETIME, leaves the class invariant and fails no assertion: NULL or
    a value with all members in range; a DATE gets the time '00:00:00', a
    DATETIME cut to DATE keeps its date.  A negative number is NULL. *)
Theorem datetime_constructors_valid this w nr (nr9 : Sec9) str st c r t
    (Hc : known_conv c) (Hr : known_round r) (Ht : Z.land c ConvValue.TIME_ONLY = 0)
    (Hs : 0 ≤ m_sec (sec9_base nr9)) (Hu : 0 ≤ m_usec (sec9_base nr9) ≤ 999999)
    (Hn : Hybrid.wf nr) (Hns : 0 ≤ m_nsec nr9 ≤ 999) (Hv : datetime_valid t) :
  let mode := conv_or_round enum_signed (Conv c) (Round r) in
  (∃ t' w', Datetime_of_longlong enum_signed dbug this w nr mode = Some (t', w') ∧ datetime_ok t'
     ∧ (Hybrid.neg nr = true → time_type t' = MYSQL_TIMESTAMP_NONE
        ∧ w' = MYSQL_TIME_WARN_OUT_OF_RANGE))
  ∧ (∃ t' w', Datetime_of_Sec9 enum_signed dbug this w nr9 mode = Some (t', w') ∧ datetime_ok t')
  ∧ (∃ t' st', Datetime_of_str enum_signed dbug this st str mode = Some (t', st') ∧ datetime_ok t')
  ∧ (∃ t', Datetime_of_with_date dbug t = Some t' ∧ datetime_ok t'
     ∧ set_type (time_type t) t' = t ∧ time_type t' = MYSQL_TIMESTAMP_DATETIME)
  ∧ (∃ t', Date_of_temporal dbug t = Some t' ∧ date_ok t' ∧ usecs t' = 0
     ∧ (year t', month t', day t') = (year t, month t, day t)).
Proof.
  intros mode. pose proof (not_time_only_mixture c r Hc Hr Ht) as Hfl. fold mode in Hfl.
  split_and!.
  - unfold Datetime_of_longlong.
    destruct (Datetime_of_Sec6_ok this w (Sec6_hybrid nr) mode Hfl) as (t' & w' & E & H1 & H2).
    { apply hybrid_abs_nonneg. }
    { done. }
    eauto 10.
  - unfold Datetime_of_Sec9.
    destruct (Datetime_of_Sec6_ok this w (sec9_base nr9) mode Hfl Hs Hu) as (t' & w' & -> & H1 & _).
    cbn [mbind option_bind]. rewrite is_valid_datetime_ok by done. cbn [mbind option_bind].
    case_bool_decide as Ek; cbn [negb mbind option_bind].
    2:{ rewrite checked_datetime_ok by done. eauto. }
    destruct H1 as [H1|[_ Hv1]]; [by rewrite H1 in Ek|].
    unfold mode at 1. rewrite (proj2 (mixture_round enum_signed dbug c r Hc Hr)).
    cbn [mbind option_bind]. destruct (round_eq _ _); cbn [mbind option_bind].
    2:{ rewrite checked_datetime_ok by by right. eexists _, _. split; [done|]. by right. }
    destruct (round_or_invalidate_ok t' 6 w' (m_nsec nr9) Ek Hv1) as (rc & t2 & w2 & -> & Hok2 & _); [lia..|].
    cbn [mbind option_bind]. rewrite checked_datetime_ok by done. eauto.
  - unfold Datetime_of_str, with_date_of_str. rewrite (dassert_true dbug _ Hfl).
    cbn [mbind option_bind]. pose proof (str_to_date_cs_spec str this st mode) as H.
    destruct (str_to_date_cs _ _ _ _) as [[err t1] st1]. cbn [mbind option_bind].
    destruct (Datetime_of_with_date_ok (if err then set_type MYSQL_TIMESTAMP_NONE t1 else t1))
      as (t' & -> & Hok & _).
    { destruct err; [by left|right; auto]. }
    cbn [mbind option_bind]. eauto.
  - destruct (Datetime_of_with_date_ok t (or_intror Hv)) as (t' & E & Hok & Hsame).
    destruct (Hsame Hv). eauto.
  - pose proof Hv as (Hk & Hng & Hy & Hm & Hd & Hh & Hok). unfold Date_of_temporal, datetime_to_date.
    rewrite (dassert_true dbug _ Hk), Hng. cbn [negb]. rewrite dassert_true by done.
    cbn [mbind option_bind].
    set (t' := set_type MYSQL_TIMESTAMP_DATE _).
    assert (datetime_valid t') as Hv'.
    { destruct t; cbn in *. unfold datetime_valid, mmssff_ok in *. cbn in *.
      repeat split; done || lia. }
    rewrite (dassert_check_true _ (date_slow t' eq_refl Hv')). cbn [mbind option_bind].
    exists t'. split; [done|]. split; [by right|]. by destruct t.
Qed.

(** *** Rounding *)

Lemma full_mod_unit t dec : 0 ≤ dec ≤ 6 →
  full_usecs t mod usec_unit dec = second_part t mod usec_unit dec.
Proof.
  intros Hd. pose proof (usec_unit_pos dec Hd). rewrite <- (usecs_mod_unit t dec Hd).
  unfold full_usecs. rewrite Z.add_comm.
  replace (SECONDS_IN_24H * 1000000) with (86400 * 10 ^ dec * usec_unit dec)
    by (rewrite <- Z.mul_assoc, <- (usec_unit_divides dec Hd); done).
  by rewrite Z.mul_assoc, Z.mod_add by lia.
Qed.

Lemma datetime_trunc_ok t dec : time_type t = MYSQL_TIMESTAMP_DATETIME → datetime_valid t →
  0 ≤ dec ≤ 6 →
  ∃ t', datetime_trunc dbug dec t = Some t' ∧ datetime_ok t'
    ∧ full_usecs t' = full_usecs t - full_usecs t mod usec_unit dec.
Proof.
  intros Hk Ht Hd. pose proof Ht as (Hkt & Hng & Hy & Hm & Hday & Hh & Hok).
  unfold datetime_trunc. rewrite is_valid_datetime_ok by by right.
  rewrite bool_decide_true by done. cbn [mbind option_bind].
  rewrite datetime_trunc_eq by done. cbn [mbind option_bind].
  rewrite full_mod_unit by done. pose proof Hok as (?&?&Hf).
  destruct (trunc_part dec _ Hd Hf) as (? & ? & _).
  set (f := second_part t - second_part t mod usec_unit dec).
  assert (datetime_ok (set_second_part f t)) as Hok'.
  { right. split; [done|]. unfold datetime_valid, mmssff_ok. cbn.
    split_and!; done || lia. }
  rewrite checked_datetime_ok by done. eexists. split; [done|]. split; [done|].
  unfold full_usecs, usecs. cbn [time_type year month day hour minute second second_part set_second_part].
  unfold f. case_bool_decide; lia.
Qed.

Lemma ceil_mult v : v mod 1000000 ≠ 0 →
  v + 1000000 - (v + 1000000) mod 1000000 = - (- v / 1000000) * 1000000.
Proof. intros. Z.to_euclidean_division_equations. lia. Qed.

(** Both roundings, when they do not invalidate the value. *)
Lemma null_or_value dec add t rc t' w' : rounded_datetime dec add t (rc, t', w') →
  time_type t' = MYSQL_TIMESTAMP_NONE
  ∨ full_usecs t' = full_usecs t + add - (full_usecs t + add) mod usec_unit dec.
Proof. destruct rc; cbn; [by left|intros (_ & _ & H); by right]. Qed.

Lemma datetime_ceiling_ok t w : time_type t = MYSQL_TIMESTAMP_DATETIME → datetime_valid t →
  ∃ t' w', datetime_ceiling dbug w t = Some (t', w') ∧ datetime_ok t'
    ∧ (time_type t' = MYSQL_TIMESTAMP_NONE
       ∨ full_usecs t' = - (- full_usecs t / 1000000) * 1000000).
Proof.
  intros Hk Ht. unfold datetime_ceiling. rewrite is_valid_datetime_ok by by right.
  rewrite bool_decide_true by done. cbn [mbind option_bind andb].
  pose proof Ht as (_ & _ & _ & _ & _ & _ & (_ & _ & Hf)).
  assert (full_usecs t mod 1000000 = second_part t) as Em.
  { change 1000000 with (usec_unit 0). rewrite full_mod_unit by lia. apply Z.mod_small.
    change (usec_unit 0) with 1000000. lia. }
  destruct (truth (second_part t)) eqn:Ef.
  - apply truth_true in Ef.
    destruct (round_or_invalidate_ok t 0 w 999999999 Hk Ht) as (rc & t' & w' & -> & Hok & Hr); [lia..|].
    cbn [mbind option_bind]. rewrite checked_datetime_ok by done. eexists _, _.
    split; [done|]. split; [done|]. destruct (null_or_value _ _ _ _ _ _ Hr) as [H|H]; [by left|].
    right. rewrite H. apply ceil_mult. by rewrite Em.
  - apply truth_false in Ef. cbn [mbind option_bind].
    rewrite checked_datetime_ok by by right. eexists _, _. split; [done|].
    split; [by right|]. right. rewrite Ef in Em. Z.to_euclidean_division_equations. lia.
Qed.

Lemma datetime_round_mode_round dec w t :
  datetime_round dbug dec (TIME_FRAC_ROUND enum_signed) w t = datetime_round_dec dbug dec w t
  ∧ (∀ b, datetime_round b dec (TIME_FRAC_NONE enum_signed) w t
     = ((if b then r ← datetime_fraction_remainder b dec t; dassert b (r =? 0) else Some ());;
        t ← datetime_trunc b dec t; Some (t, w))).
Proof.
  unfold datetime_round, TIME_FRAC_ROUND, TIME_FRAC_NONE, to_value_t. cbn [round_mode].
  by destruct enum_signed.
Qed.

(** [trunc], [ceiling] and [round] of a DATETIME keep the class
    invariant and fail no assertion; on the value in microseconds since day 0 they
    are the multiple of the last digit at or below, the whole second at or above
    and the nearest multiple, unless rounding up invalidates the value, which then
    is NULL.  On NULL they do nothing, but [round] in the mode [FRAC_NONE] fails
    the assertion of [fraction_remainder]. *)
Theorem datetime_rounding_correct t n dec w (Hk : time_type t = MYSQL_TIMESTAMP_DATETIME)
    (Ht : datetime_valid t) (Hn : time_type n = MYSQL_TIMESTAMP_NONE) (Hd : 0 ≤ dec ≤ 6) :
  let v := full_usecs t in let u := usec_unit dec in
  (∃ t', datetime_trunc dbug dec t = Some t' ∧ datetime_ok t' ∧ full_usecs t' = v - v mod u)
  ∧ (∃ t' w', datetime_ceiling dbug w t = Some (t', w') ∧ datetime_ok t'
     ∧ (time_type t' = MYSQL_TIMESTAMP_NONE
        ∨ full_usecs t' = - (- v / 1000000) * 1000000))
  ∧ (∃ t' w', datetime_round dbug dec (TIME_FRAC_ROUND enum_signed) w t = Some (t', w')
     ∧ datetime_ok t'
     ∧ (time_type t' = MYSQL_TIMESTAMP_NONE
        ∨ full_usecs t' = v + u / 2 - (v + u / 2) mod u))
  ∧ datetime_trunc dbug dec n = Some n ∧ datetime_ceiling dbug w n = Some (n, w)
  ∧ datetime_round dbug dec (TIME_FRAC_ROUND enum_signed) w n = Some (n, w)
  ∧ datetime_round true dec (TIME_FRAC_NONE enum_signed) w n = None.
Proof.
  intros v u. assert (datetime_ok n) as Hnok by by left.
  destruct (datetime_round_mode_round dec w t) as [ER _].
  destruct (datetime_round_mode_round dec w n) as [ERn ENn].
  assert (is_valid_datetime dbug n = Some false) as Ev.
  { rewrite is_valid_datetime_ok by done. by rewrite bool_decide_false by by rewrite Hn. }
  split; [by apply datetime_trunc_ok|]. split; [by apply datetime_ceiling_ok|].
  split; [|split; [|split; [|split]]].
  - rewrite ER. unfold datetime_round_dec. rewrite is_valid_datetime_ok by by right.
    rewrite bool_decide_true by done. cbn [mbind option_bind].
    pose proof (round_or_invalidate_spec t dec w Hk Ht Hd) as Hr.
    pose proof (rounded_ok _ _ _ _ Hr) as Hok.
    destruct (round_or_invalidate t dec w) as [[rc t'] w']. cbn [mbind option_bind].
    cbn [fst snd] in Hok. rewrite checked_datetime_ok by done. eexists _, _.
    split; [done|]. split; [done|]. by apply null_or_value in Hr.
  - unfold datetime_trunc. rewrite Ev. cbn [mbind option_bind]. by apply checked_datetime_ok.
  - unfold datetime_ceiling. rewrite Ev. cbn [mbind option_bind andb].
    by rewrite checked_datetime_ok.
  - rewrite ERn. unfold datetime_round_dec. rewrite Ev. cbn [mbind option_bind].
    by rewrite checked_datetime_ok.
  - rewrite ENn. unfold datetime_fraction_remainder, is_valid_datetime, dassert_check,
      datetime_valid_value_slow. rewrite Hn. done.
Qed.

(** *** Seconds and days *)

(** The seconds of a DATETIME are its day number and time of
    day, day counted from the calendar; the time part of a value cut to DATE is
    zero, so copying a DATETIME as DATE is allowed exactly then; the day of the
    year is the distance to the first of January plus one. *)
Theorem datetime_seconds_correct t lt (Hk : time_type t = MYSQL_TIMESTAMP_DATETIME)
    (Ht : datetime_valid t)
    (Hjan : 0 ≤ calc_daynr (year t) 1 1 ≤ calc_daynr (year t) (month t) (day t)) :
  datetime_to_seconds dbug t = Some (full_usecs t / 1000000)
  ∧ datetime_dayofyear dbug t
    = Some (calc_daynr (year t) (month t) (day t) - calc_daynr (year t) 1 1 + 1)
  ∧ hhmmssff_is_zero dbug t = Some (bool_decide (usecs t = 0))
  ∧ datetime_copy_to_type dbug t lt MYSQL_TIMESTAMP_DATETIME = Some (false, t)
  ∧ datetime_copy_to_type dbug t lt MYSQL_TIMESTAMP_DATE
    = (if dbug && bool_decide (usecs t ≠ 0) then None
       else Some (false, set_type MYSQL_TIMESTAMP_DATE t)).
Proof.
  pose proof Ht as (Hkt & Hng & Hy & Hm & Hday & Hh & (Hmi & Hse & Hf)).
  pose proof (calc_daynr_range t Ht) as Hr. change (2 ^ 31) with 2147483648 in Hr.
  assert (∀ A (f : MYSQL_TIME → A), datetime_get dbug f t = Some (f t)) as Hget.
  { intros A f. unfold datetime_get. by rewrite (dassert_check_true _ (datetime_slow t Hk Ht)). }
  assert (daynr t = calc_daynr (year t) (month t) (day t)) as Ed.
  { unfold daynr, to_ulong. apply wrap_id. unfold in_u, long_bits. change (2 ^ 32) with 4294967296. lia. }
  assert (hhmmssff_is_zero dbug t = Some (bool_decide (usecs t = 0))) as Ez.
  { unfold hhmmssff_is_zero. rewrite Hget. f_equal. unfold usecs.
    case_bool_decide; zcases; cbn; done || lia. }
  assert (datetime_copy_to_mysql_time dbug t lt = Some (false, t)) as Ec.
  { unfold datetime_copy_to_mysql_time. rewrite bool_decide_false by by rewrite Hk.
    by rewrite (dassert_check_true _ (datetime_slow t Hk Ht)). }
  split; [|split; [|split; [done|split]]].
  - unfold datetime_to_seconds, hhmmss_to_seconds, hhmmss_to_seconds_abs, datetime_daynr.
    rewrite !Hget. cbn [mbind option_bind]. rewrite Hng, Ed. f_equal.
    unfold to_uint32, to_ulong, long_bits.
    rewrite (wrap_id 32 (hour t * 3600)) by (unfold in_u; change (2 ^ 32) with 4294967296; lia).
    rewrite (wrap_id 32 (minute t * 60)) by (unfold in_u; change (2 ^ 32) with 4294967296; lia).
    rewrite wrap_id by (unfold in_u; change (2 ^ 32) with 4294967296; lia).
    unfold full_usecs, usecs, SECONDS_IN_24H. rewrite bool_decide_false by by rewrite Hk.
    apply (Z.div_unique _ _ _ (second_part t)); lia.
  - unfold datetime_dayofyear. rewrite Hget. f_equal. unfold dayofyear. rewrite Ed.
    unfold to_ulong. apply wrap_id. unfold in_u, long_bits. change (2 ^ 32) with 4294967296. lia.
  - unfold datetime_copy_to_type. rewrite dassert_true by done. rewrite Ec.
    cbn [mbind option_bind]. rewrite bool_decide_true by done. cbn [mbind option_bind].
    rewrite <- Hk. by destruct t.
  - unfold datetime_copy_to_type. rewrite dassert_true by done. rewrite Ec.
    cbn [mbind option_bind]. rewrite bool_decide_false by (intros H; by apply H).
    unfold dassert_check. rewrite Ez. destruct dbug; [|done]. cbn [mbind option_bind andb].
    unfold dassert. by repeat case_bool_decide.
Qed.

End DateTheorems.

(** ** An instance of the parameters *)

Definition demo_in_range (t : MYSQL_TIME) : bool :=
  (year t <=? 9999) && (month t <=? 12) && (day t <=? 31) && (hour t <=? 23)
  && has_valid_mmssff t.

Definition demo_round_datetime (t : MYSQL_TIME) (dec w ns : Z) : bool * MYSQL_TIME * Z :=
  match add_nanoseconds_mmssff false ns t with
  | None => (true, set_type MYSQL_TIMESTAMP_NONE t, w)
  | Some (carry, t) =>
      let t := if carry : bool then set_hour (hour t + 1) t else t in
      if 23 <? hour t
      then (true, set_type MYSQL_TIMESTAMP_NONE t, Z.lor w MYSQL_TIME_WARN_OUT_OF_RANGE)
      else (false, default t (my_datetime_trunc false t dec), w)
  end.

Definition demo_DateMembers : DateMembers := {|
  check_datetime_range t := negb (demo_in_range t);
  check_date_ext t nz fl w := (false, w);
  calc_weekday n sunday := (n + if sunday : bool then 1 else 0) mod 7;
  calc_week t b := (day t / 7, year t);
  str_to_date_cs str t st m := (true, t, set_warnings MYSQL_TIME_WARN_TRUNCATED st);
  datetime_add_nanoseconds_or_invalidate t w ns := demo_round_datetime t 6 w ns;
  datetime_round_or_invalidate := demo_round_datetime;
  round_or_invalidate t dec w := demo_round_datetime t dec w (usec_unit dec / 2 * 1000);
  TIME_to_ulonglong_date t := (year t * 100 + month t) * 100 + day t;
  TIME_to_ulonglong_datetime t :=
    ((((year t * 100 + month t) * 100 + day t) * 100 + hour t) * 100 + minute t) * 100 + second t
|}.

Lemma demo_round_datetime_ok t dec w ns : time_type t = MYSQL_TIMESTAMP_DATETIME →
  datetime_valid t → 0 ≤ dec ≤ 6 → 0 ≤ ns ≤ 1000000000 →
  @rounded_datetime demo_TimeLib dec (rounded_usecs ns) t (demo_round_datetime t dec w ns).
Proof.
  intros Hk Ht Hd Hn. pose proof Ht as (Hkt & Hng & Hy & Hm & Hday & Hh & Hok).
  destruct (add_nanoseconds_mmssff_value false t ns Hok Hn) as (c & t1 & E & Ev & Hok1 & Et).
  unfold demo_round_datetime. rewrite E.
  assert (hour t1 = hour t ∧ neg t1 = neg t ∧ time_type t1 = time_type t
          ∧ (year t1, month t1, day t1) = (year t, month t, day t)) as (Eh & En & Ek & Ey).
  { rewrite <- Et. by destruct t1. }
  injection Ey as Ey Em Ed.
  set (t2 := if c : bool then set_hour (hour t1 + 1) t1 else t1).
  destruct (Z.ltb_spec 23 (hour t2)); [done|].
  assert (usecs t2 = usecs t + rounded_usecs ns ∧ mmssff_ok t2 ∧ datetime_valid t2
          ∧ time_type t2 = MYSQL_TIMESTAMP_DATETIME
          ∧ (year t2, month t2, day t2) = (year t, month t, day t)) as (Eu2 & Hok2 & Hv2 & Ek2 & Ey2).
  { rewrite <- Ev. unfold t2 in *. unfold datetime_valid, mmssff_ok, usecs in *.
    destruct c; cbn in *; rewrite Ek, Ey, Em, Ed, En, Hk in *; split_and!; done || lia. }
  rewrite datetime_trunc_eq by done. cbn [default from_option id].
  pose proof Hok2 as (?&?&Hf2). destruct (trunc_part dec _ Hd Hf2) as (? & ? & _).
  set (f := second_part t2 - second_part t2 mod usec_unit dec).
  split; [done|]. split.
  { destruct Hv2 as (V1 & V2 & V3 & V4 & V5 & V6 & V7). unfold datetime_valid, mmssff_ok. cbn.
    split_and!; done || lia. }
  assert (@full_usecs demo_TimeLib t + rounded_usecs ns = @full_usecs demo_TimeLib t2) as ->.
  { unfold full_usecs. rewrite !bool_decide_false by congruence. injection Ey2 as -> -> ->. lia. }
  rewrite full_mod_unit by done. unfold full_usecs, usecs.
  cbn [time_type year month day hour minute second second_part set_second_part].
  rewrite !bool_decide_false by congruence. unfold f. lia.
Qed.

#[export] Instance demo_DateMembersLaws : @DateMembersLaws demo_TimeLib demo_DateMembers.
Proof.
  split.
  - intros t (Hk & Hn & Hy & Hm & Hd & Hh & Hok). cbn. apply negb_false_iff.
    unfold demo_in_range. rewrite has_valid_mmssff_ok by done.
    zcases; cbn; done || lia.
  - intros t (Hk & Hn & Hy & Hm & Hd & Hh & Hok). cbn. lia.
  - intros t dec w ns. apply demo_round_datetime_ok.
  - intros t dec w Hk Ht Hd. pose proof (usec_unit_pos dec Hd) as Hu.
    assert (0 ≤ usec_unit dec / 2 ≤ 500000) by (split; [apply Z.div_pos; lia|apply (Z.div_le_mono _ 1000000 2); lia]).
    assert (rounded_usecs (usec_unit dec / 2 * 1000) = usec_unit dec / 2) as <-.
    { unfold rounded_usecs. rewrite Z.div_add_l by lia. change (500 / 1000) with 0. lia. }
    apply demo_round_datetime_ok; done || lia.
  - done.
Qed.

(** ** Witnesses *)

Definition demo_dt : MYSQL_TIME := Mk_TIME 2022 8 15 23 59 58 999999 false MYSQL_TIMESTAMP_DATETIME.
Definition demo_null : MYSQL_TIME := set_type MYSQL_TIMESTAMP_NONE zero_TIME.

Lemma demo_dt_valid : datetime_valid demo_dt.
Proof. unfold datetime_valid, mmssff_ok. cbn. split_and!; done || lia. Qed.

Lemma timestamp_order_witness :
  or_zero_cmp (Mk_or_zero (Mk_timeval 5 0) true) (Mk_or_zero (Mk_timeval (-7) 999999) false) = -1.
Proof.
  set (a := Mk_or_zero (Mk_timeval 5 0) true). set (b := Mk_or_zero (Mk_timeval (-7) 999999) false).
  assert (timeval_ok (or_zero_tm a)) as Ha by (unfold timeval_ok; cbn; lia).
  assert (timeval_ok (or_zero_tm b)) as Hb by (unfold timeval_ok; cbn; lia).
  assert (0 ≤ 3 ≤ 6) as Hd by lia. assert (0 ≤ 600 ≤ 1000000000) as Hn by lia.
  destruct (@timestamp_order pow10_Log10 pow10_Log10Laws true a b a 3 600 Ha Hb Ha Hd Hn) as [E _].
  exact E.
Defined.

Lemma datetime_constructors_valid_witness :
  ∃ t' w', @Datetime_of_longlong demo_TimeLib demo_DateMembers true true zero_TIME 0
      {| Hybrid.m_value := -1; Hybrid.m_unsigned := false |}
      (conv_or_round true (Conv 33554432) (Round 64)) = Some (t', w')
    ∧ time_type t' = MYSQL_TIMESTAMP_NONE ∧ w' = MYSQL_TIME_WARN_OUT_OF_RANGE.
Proof.
  assert (known_conv 33554432) as Hc by (split; [lia|vm_compute; reflexivity]).
  assert (known_round 64) as Hr by (right; right; vm_compute; reflexivity).
  assert (Hybrid.wf {| Hybrid.m_value := -1; Hybrid.m_unsigned := false |}) as Hn
    by (vm_compute; split; discriminate || reflexivity).
  destruct (@datetime_constructors_valid demo_TimeLib demo_TimeMembers demo_TimeMembersLaws
    demo_DateMembers demo_DateMembersLaws true true zero_TIME 0 _ (Mk_Sec9 sec6_reset 0) []
    my_time_status_init 33554432 64 demo_dt Hc Hr ltac:(vm_compute; reflexivity)
    ltac:(cbn; lia) ltac:(cbn; lia) Hn ltac:(cbn; lia) demo_dt_valid)
    as ((t' & w' & E & _ & H) & _).
  exists t', w'. split; [exact E|]. exact (H eq_refl).
Defined.

Lemma datetime_rounding_correct_witness :
  ∃ t', @datetime_trunc pow10_Log10 demo_DateMembers true 2 demo_dt = Some t' ∧ datetime_ok t'.
Proof.
  assert (0 ≤ 2 ≤ 6) as Hd by lia.
  destruct (@datetime_rounding_correct pow10_Log10 pow10_Log10Laws demo_TimeLib demo_DateMembers
    demo_DateMembersLaws true true demo_dt demo_null 2 0 eq_refl demo_dt_valid eq_refl Hd)
    as ((t' & E & H & _) & _).
  exists t'. split; [exact E|exact H].
Defined.

Lemma datetime_seconds_correct_witness :
  @datetime_to_seconds demo_TimeLib demo_DateMembers true demo_dt
  = Some (@full_usecs demo_TimeLib demo_dt / 1000000).
Proof.
  destruct (@datetime_seconds_correct demo_TimeLib demo_DateMembers demo_DateMembersLaws true
    demo_dt demo_null eq_refl demo_dt_valid ltac:(vm_compute; split; discriminate)) as [E _].
  exact E.
Defined.
