(* ===== verification/TypeAttrs.v ===== *)
(** Attributes of SQL data types, [sql_type.h]: [DTCollation], the length
    attributes [Type_numeric_attributes] to [Type_std_attributes],
    [Type_cast_attributes], [Typelib], [Data_type_statistics], the addresses
    [Bit_addr] and [Record_addr], the attributes of the information schema, and
    the search of [Type_aggregator]. *)
From S2P Require Import Prelude MyTime.

(** ** Character sets and collations *)

(** What this code reads of a [CHARSET_INFO]. *)
Record CHARSET_INFO := { cs_number : Z; state : Z; mbmaxlen : Z }.

Definition MY_CS_PUREASCII : Z := 4096.
Definition MY_REPERTOIRE_NONE : Z := 0.
Definition MY_REPERTOIRE_ASCII : Z := 1.
Definition MY_REPERTOIRE_EXTENDED : Z := 2.
Definition MY_REPERTOIRE_UNICODE30 : Z := 3.
Definition MY_REPERTOIRE_NUMERIC : Z := MY_REPERTOIRE_ASCII.
Definition repertoire_or (a b : Z) : Z := Z.lor (to_uint32 a) (to_uint32 b).

Definition MY_COLL_ALLOW_SUPERSET_CONV : Z := 1.
Definition MY_COLL_ALLOW_COERCIBLE_CONV : Z := 2.
Definition MY_COLL_DISALLOW_NONE : Z := 4.
Definition MY_COLL_ALLOW_NUMERIC_CONV : Z := 8.
Definition MY_COLL_ALLOW_CONV : Z := Z.lor MY_COLL_ALLOW_SUPERSET_CONV MY_COLL_ALLOW_COERCIBLE_CONV.
Definition MY_COLL_CMP_CONV : Z := Z.lor MY_COLL_ALLOW_CONV MY_COLL_DISALLOW_NONE.

Inductive Derivation :=
  | DERIVATION_IGNORABLE | DERIVATION_NUMERIC | DERIVATION_COERCIBLE | DERIVATION_SYSCONST
  | DERIVATION_IMPLICIT | DERIVATION_NONE | DERIVATION_EXPLICIT.
Definition derivation_value (d : Derivation) : Z :=
  match d with
  | DERIVATION_IGNORABLE => 6 | DERIVATION_NUMERIC => 5 | DERIVATION_COERCIBLE => 4
  | DERIVATION_SYSCONST => 3 | DERIVATION_IMPLICIT => 2 | DERIVATION_NONE => 1
  | DERIVATION_EXPLICIT => 0
  end.

Record DTCollation := Mk_DTC { collation : CHARSET_INFO; derivation : Derivation; repertoire : Z }.

(** The objects [my_charset_bin] and [my_charset_numeric], and
    [my_charset_repertoire]. *)
Class Charsets := {
  my_charset_bin : CHARSET_INFO;
  my_charset_numeric : CHARSET_INFO;
  my_charset_repertoire : CHARSET_INFO → Z
}.

Definition repertoire_from_charset (cs : CHARSET_INFO) : Z :=
  if truth (Z.land (state cs) MY_CS_PUREASCII) then MY_REPERTOIRE_ASCII else MY_REPERTOIRE_UNICODE30.
Definition set_repertoire_from_charset (cs : CHARSET_INFO) (d : DTCollation) : DTCollation :=
  Mk_DTC (collation d) (derivation d) (repertoire_from_charset cs).
Definition DTCollation_der (cs : CHARSET_INFO) (der : Derivation) : DTCollation :=
  Mk_DTC cs der (repertoire_from_charset cs).
Definition DTCollation_rep (cs : CHARSET_INFO) (der : Derivation) (rep : Z) : DTCollation :=
  Mk_DTC cs der rep.
Definition dtc_set_dt (dt this : DTCollation) : DTCollation := dt.
Definition dtc_set_cs_der (cs : CHARSET_INFO) (der : Derivation) (this : DTCollation) : DTCollation :=
  set_repertoire_from_charset cs (Mk_DTC cs der (repertoire this)).
Definition dtc_set_all (cs : CHARSET_INFO) (der : Derivation) (rep : Z) (this : DTCollation)
  : DTCollation := Mk_DTC cs der rep.
Definition dtc_set_cs (cs : CHARSET_INFO) (this : DTCollation) : DTCollation :=
  set_repertoire_from_charset cs (Mk_DTC cs (derivation this) (repertoire this)).
Definition dtc_set_der (der : Derivation) (this : DTCollation) : DTCollation :=
  Mk_DTC (collation this) der (repertoire this).
(** [set(dt1, dt2, flags)]; [aggregate] is [DTCollation::aggregate]. *)
Definition dtc_set_pair (aggregate : DTCollation → DTCollation → Z → bool * DTCollation)
    (dt1 dt2 : DTCollation) (flags : Z) (this : DTCollation) : bool * DTCollation :=
  aggregate (dtc_set_dt dt1 this) dt2 flags.

(** ** Lengths *)
Definition TIME_SECOND_PART_DIGITS : Z := MyTime.TIME_SECOND_PART_DIGITS.
Definition NOT_FIXED_DEC : Z := 39.
Definition MAX_DATE_WIDTH : Z := 10.
Definition MIN_TIME_WIDTH : Z := 10.
Definition MAX_DATETIME_WIDTH : Z := 19.
Definition UINT_MAX32 : Z := 0xFFFFFFFF.

Definition char_to_byte_length_safe (char_length_arg mbmaxlen_arg : Z) : Z :=
  let tmp := to_ulonglong (to_ulonglong char_length_arg * mbmaxlen_arg) in
  if UINT_MAX32 <? tmp then UINT_MAX32 else to_uint32 tmp.

Record Type_numeric_attributes := Mk_num { max_length : Z; decimals : Z; unsigned_flag : bool }.
Definition Type_numeric_default : Type_numeric_attributes := Mk_num 0 0 false.

Definition Type_temporal_attributes (int_part_length dec : Z) (unsigned_arg : bool)
  : Type_numeric_attributes :=
  let decimals := if dec <? TIME_SECOND_PART_DIGITS then dec else TIME_SECOND_PART_DIGITS in
  let max_length := to_uint32 (int_part_length + if truth dec then 1 else 0) in
  Mk_num (to_uint32 (max_length + decimals)) decimals unsigned_arg.

Definition Type_temporal_attributes_not_fixed_dec (int_part_length dec : Z) (unsigned_flag : bool)
  : Type_numeric_attributes :=
  if dec =? NOT_FIXED_DEC
  then Mk_num (to_uint32 (int_part_length + (TIME_SECOND_PART_DIGITS + 1))) dec unsigned_flag
  else if truth dec then
    let dec := if TIME_SECOND_PART_DIGITS <? dec then TIME_SECOND_PART_DIGITS else dec in
    Mk_num (to_uint32 (int_part_length + (dec + 1))) dec unsigned_flag
  else Mk_num int_part_length dec unsigned_flag.

Record Type_std_attributes := Mk_std { std_num : Type_numeric_attributes; std_collation : DTCollation }.

(** Assignments to members. *)
Definition set_max_length (n : Z) (a : Type_std_attributes) : Type_std_attributes :=
  Mk_std (Mk_num n (decimals (std_num a)) (unsigned_flag (std_num a))) (std_collation a).

(** [max_length / collation.collation->mbmaxlen]; dividing by zero is undefined. *)
Definition max_char_length (a : Type_std_attributes) : option Z :=
  let m := mbmaxlen (collation (std_collation a)) in
  if m =? 0 then None else Some (max_length (std_num a) / m).
Definition fix_length_and_charset (max_char_length_arg : Z) (cs : CHARSET_INFO)
    (a : Type_std_attributes) : Type_std_attributes :=
  let a := set_max_length (char_to_byte_length_safe max_char_length_arg (mbmaxlen cs)) a in
  let c := std_collation a in
  Mk_std (std_num a) (Mk_DTC cs (derivation c) (repertoire c)).
Definition fix_char_length (max_char_length_arg : Z) (a : Type_std_attributes)
  : Type_std_attributes :=
  set_max_length (char_to_byte_length_safe max_char_length_arg
                    (mbmaxlen (collation (std_collation a)))) a.

Section Std.
Context {CS : Charsets}.

Definition DTCollation_default : DTCollation :=
  Mk_DTC my_charset_bin DERIVATION_NONE MY_REPERTOIRE_UNICODE30.
Definition DTCollation_of (cs : CHARSET_INFO) : DTCollation :=
  Mk_DTC cs DERIVATION_IMPLICIT (my_charset_repertoire cs).
Definition DTCollation_numeric : DTCollation :=
  DTCollation_rep my_charset_numeric DERIVATION_NUMERIC MY_REPERTOIRE_NUMERIC.

Definition Type_std_default : Type_std_attributes :=
  Mk_std Type_numeric_default (DTCollation_der my_charset_bin DERIVATION_COERCIBLE).
Definition fix_attributes_temporal (int_part_length dec : Z) : Type_std_attributes :=
  Mk_std (Type_temporal_attributes int_part_length dec false) DTCollation_numeric.
Definition fix_attributes_date : Type_std_attributes := fix_attributes_temporal MAX_DATE_WIDTH 0.
Definition fix_attributes_time (dec : Z) : Type_std_attributes :=
  fix_attributes_temporal MIN_TIME_WIDTH dec.
Definition fix_attributes_datetime (dec : Z) : Type_std_attributes :=
  fix_attributes_temporal MAX_DATETIME_WIDTH dec.

(** The aggregation over the arguments of an operation: the results of
    [find_max_char_length], [count_unsigned] and [find_max_decimals] on them. *)
Definition aggregate_attributes_int (max_chars n_unsigned : Z) (a : Type_std_attributes)
  : Type_std_attributes :=
  let a := Mk_std (std_num a) DTCollation_numeric in
  let a := fix_char_length max_chars a in
  Mk_std (Mk_num (max_length (std_num a)) 0 (0 <? n_unsigned)) (std_collation a).
Definition aggregate_attributes_temporal (int_part_length max_decimals : Z) : Type_std_attributes :=
  fix_attributes_temporal int_part_length max_decimals.
End Std.

(** The flags with which the three kinds of arguments are aggregated. *)
Definition flags_for_string_result : Z :=
  Z.lor (Z.lor MY_COLL_ALLOW_SUPERSET_CONV MY_COLL_ALLOW_COERCIBLE_CONV) MY_COLL_ALLOW_NUMERIC_CONV.
Definition flags_for_string_result_with_comparison : Z :=
  Z.lor flags_for_string_result MY_COLL_DISALLOW_NONE.
Definition flags_for_comparison : Z :=
  Z.lor (Z.lor MY_COLL_ALLOW_SUPERSET_CONV MY_COLL_ALLOW_COERCIBLE_CONV) MY_COLL_DISALLOW_NONE.
(** [agg_arg_charsets]: collations first, then the converter. *)
Definition agg_arg_charsets (agg_item_collations : DTCollation → Z → bool * DTCollation)
    (agg_item_set_converter : DTCollation → Z → bool) (c : DTCollation) (flags : Z)
  : bool * DTCollation :=
  let '(err, c) := agg_item_collations c flags in
  if err : bool then (true, c) else (agg_item_set_converter c flags, c).

(** ** [class Type_cast_attributes] *)
Record Type_cast_attributes := Mk_cast {
  cast_charset : CHARSET_INFO; cast_length : Z; cast_decimals : Z;
  length_specified : bool; decimals_specified : bool }.
Definition Type_cast_charset (cs : CHARSET_INFO) : Type_cast_attributes := Mk_cast cs 0 0 false false.
(** [strtoll10] is [my_strtoll10]; a null pointer is [None]. *)
Definition set_length_and_dec (strtoll10 : list Z → Z) (c_len c_dec : option (list Z))
    (a : Type_cast_attributes) : Type_cast_attributes :=
  Mk_cast (cast_charset a)
    (match c_len with Some s => to_ulonglong (strtoll10 s) | None => cast_length a end)
    (match c_dec with Some s => to_ulonglong (strtoll10 s) | None => cast_decimals a end)
    (bool_decide (is_Some c_len)) (bool_decide (is_Some c_dec)).
Definition Type_cast_of (strtoll10 : list Z → Z) (c_len c_dec : option (list Z)) (cs : CHARSET_INFO)
  : Type_cast_attributes :=
  set_length_and_dec strtoll10 c_len c_dec (Type_cast_charset cs).

(** ** [class Typelib], [TypelibBuffer] *)
Record Typelib := Mk_typelib { tl_count : Z; type_names : list Z; type_lengths : list Z }.

(** [for (i= 0; i < count; i++)] of [max_octet_length]; the fuel is the number
    of remaining turns. *)
Fixpoint max_octet_loop (lengths : list Z) (i : nat) (turns : nat) (max_length : Z) : option Z :=
  match turns with
  | O => Some max_length
  | S turns =>
      length ← lengths !! i;
      max_octet_loop lengths (S i) turns (if max_length <? length then length else max_length)
  end.
Definition max_octet_length (t : Typelib) : option Z :=
  max_octet_loop (type_lengths t) 0 (Z.to_nat (tl_count t)) 0.

(** The constructor of [TypelibBuffer<sz>] from strings (pointer and length); 0
    is the null pointer, and the two end markers are written at index [sz].  The
    arrays start with the contents of the storage. *)
Fixpoint typelib_fill (dbug : bool) (values : list (Z * Z)) (i : nat) (turns : nat)
    (names lengths : list Z) : option (list Z * list Z) :=
  match turns with
  | O => Some (names, lengths)
  | S turns =>
      '(str, len) ← values !! i;
      _ ← dassert dbug (negb (str =? 0));
      names ← poke names i str;
      lengths ← poke lengths i (to_uint32 len);
      typelib_fill dbug values (S i) turns names lengths
  end.
Definition TypelibBuffer (dbug : bool) (sz : nat) (names lengths : list Z) (count : Z)
    (values : list (Z * Z)) : option Typelib :=
  _ ← dassert dbug (count <=? Z.of_nat sz);
  '(names, lengths) ← typelib_fill dbug values 0 (Z.to_nat count) names lengths;
  names ← poke names sz 0;
  lengths ← poke lengths sz 0;
  Some (Mk_typelib count names lengths).

(** ** [class Data_type_statistics] *)
Record Data_type_statistics := Mk_stat {
  m_uneven_bit_length : Z; m_fixed_string_total_length : Z; m_fixed_string_count : Z;
  m_variable_string_total_length : Z; m_variable_string_count : Z; m_blob_count : Z }.
Definition Data_type_statistics0 : Data_type_statistics := Mk_stat 0 0 0 0 0 0.
Definition string_count (s : Data_type_statistics) : Z :=
  to_uint32 (m_fixed_string_count s + m_variable_string_count s).
Definition string_total_length (s : Data_type_statistics) : Z :=
  to_uint32 (m_fixed_string_total_length s + m_variable_string_total_length s).

(** ** [class Bit_addr], [class Record_addr] *)

(** A pointer is [None] (null) or an index into the record. *)
Record Bit_addr := Mk_bit { m_ptr : option Z; m_offs : Z }.
Definition Bit_addr0 : Bit_addr := Mk_bit None 0.
Definition is_null_ptr (p : option Z) : bool := negb (bool_decide (is_Some p)).
Definition Bit_addr_of (dbug : bool) (ptr : option Z) (offs : Z) : option Bit_addr :=
  _ ← dassert dbug (negb (is_null_ptr ptr) || (offs =? 0));
  _ ← dassert dbug (offs <? 8);
  Some (Mk_bit ptr offs).
Definition bit (b : Bit_addr) : Z :=
  uchar (match m_ptr b with Some _ => to_uint32 (Z.shiftl 1 (m_offs b)) | None => 0 end).
Definition inc (dbug : bool) (b : Bit_addr) : option Bit_addr :=
  _ ← dassert dbug (negb (is_null_ptr (m_ptr b)));
  Some (Mk_bit (match m_ptr b with
                | Some p => Some (p + if m_offs b =? 7 then 1 else 0)
                | None => None
                end)
               (uchar (Z.land (m_offs b + 1) 7))).

Record Record_addr := Mk_rec { rec_ptr : option Z; rec_null : Bit_addr }.
Definition Record_addr_of (dbug : bool) (ptr null_ptr : option Z) (null_bit : Z) : option Record_addr :=
  b ← Bit_addr_of dbug null_ptr null_bit; Some (Mk_rec ptr b).
Definition null_ptr (r : Record_addr) : option Z := m_ptr (rec_null r).
Definition null_bit (r : Record_addr) : Z := bit (rec_null r).

(** ** The attributes of the information schema *)
Definition ATTR_NONE : Z := 0.
Definition ATTR_PRECISION : Z := 1.
Definition ATTR_SCALE : Z := 2.
Definition ATTR_PRECISION_AND_SCALE : Z := Z.lor ATTR_PRECISION ATTR_SCALE.
Record IS_numeric := Mk_isn { is_precision : Z; is_scale : Z; m_available_attributes : Z }.
Definition IS_numeric0 : IS_numeric := Mk_isn 0 0 ATTR_NONE.
Definition IS_numeric1 (precision : Z) : IS_numeric := Mk_isn precision 0 ATTR_PRECISION.
Definition IS_numeric2 (precision scale : Z) : IS_numeric :=
  Mk_isn precision scale ATTR_PRECISION_AND_SCALE.
Definition has_precision (a : IS_numeric) : bool := truth (Z.land (m_available_attributes a) ATTR_PRECISION).
Definition has_scale (a : IS_numeric) : bool := truth (Z.land (m_available_attributes a) ATTR_SCALE).
Definition get_precision (dbug : bool) (a : IS_numeric) : option Z :=
  _ ← dassert dbug (has_precision a); Some (is_precision a).
Definition get_scale (dbug : bool) (a : IS_numeric) : option Z :=
  _ ← dassert dbug (has_scale a); Some (is_scale a).

Record IS_character := Mk_isc { m_octet_length : Z; m_char_length : Z; m_is_set : bool }.
Definition IS_character0 : IS_character := Mk_isc 0 0 false.
Definition IS_character2 (octet_length char_length : Z) : IS_character :=
  Mk_isc octet_length char_length true.
Definition get_octet_length (dbug : bool) (a : IS_character) : option Z :=
  _ ← dassert dbug (m_is_set a); Some (m_octet_length a).
Definition get_char_length (dbug : bool) (a : IS_character) : option Z :=
  _ ← dassert dbug (m_is_set a); Some (m_char_length a).

(** ** [class Type_aggregator]

    A handler is the number of its address; 0 is the null pointer. *)
Record Pair := Mk_pair { m_handler1 : Z; m_handler2 : Z; m_result : Z }.
Definition pair_eq (p : Pair) (handler1 handler2 : Z) : bool :=
  (m_handler1 p =? handler1) && (m_handler2 p =? handler2).

(** The loop ends at the pair without a result; reading past the array is
    undefined. *)
Fixpoint find_handler_in_array (pairs : list Pair) (h1 h2 : Z) (commutative : bool) : option Z :=
  match pairs with
  | [] => None
  | p :: rest =>
      if m_result p =? 0 then Some 0
      else if pair_eq p h1 h2 then Some (m_result p)
      else if commutative && pair_eq p h2 h1 then Some (m_result p)
      else find_handler_in_array rest h1 h2 commutative
  end.

(** [Type_handler_pair::to_base]; [base] is [type_handler_base]. *)
Definition to_base (base : Z → Z) (ab : Z * Z) : bool * (Z * Z) :=
  let na := base ab.1 in let nb := base ab.2 in
  (truth na || truth nb, (if truth na then na else ab.1, if truth nb then nb else ab.2)).

(** ** Specification *)

(** The [n]-th bit from the start of the record. *)
Definition bit_index (b : Bit_addr) : option Z := p ← m_ptr b; Some (8 * p + m_offs b).
Definition bit_ok (b : Bit_addr) : Prop := is_Some (m_ptr b) ∧ 0 ≤ m_offs b < 8.

Fixpoint inc_n (dbug : bool) (n : nat) (b : Bit_addr) : option Bit_addr :=
  match n with O => Some b | S n => b ← inc dbug b; inc_n dbug n b end.

(** The pairs that answer a search. *)
Definition pair_matches (h1 h2 : Z) (commutative : bool) (p : Pair) : bool :=
  pair_eq p h1 h2 || commutative && pair_eq p h2 h1.

(** ** Theorems *)

Lemma inc_ok dbug b i : bit_ok b → bit_index b = Some i →
  ∃ b', inc dbug b = Some b' ∧ bit_ok b' ∧ bit_index b' = Some (i + 1).
Proof.
  intros [[p Hp] Ho]. unfold bit_index, inc. rewrite Hp. cbn [mbind option_bind]. intros [= <-].
  rewrite dassert_true by done. cbn [mbind option_bind]. eexists. split; [done|].
  unfold bit_ok. cbn [m_ptr m_offs].
  assert (Z.land (m_offs b + 1) 7 = (m_offs b + 1) mod 8) as -> by (apply (Z.land_ones _ 3); lia). pose proof (Z.mod_pos_bound (m_offs b + 1) 8).
  unfold uchar, to_uint8. rewrite wrap_id by (unfold in_u; change (2 ^ 8) with 256; lia).
  split; [split; [done|lia]|]. cbn [mbind option_bind]. f_equal.
  destruct (Z.eqb_spec (m_offs b) 7) as [->|].
  - change ((7 + 1) mod 8) with 0. lia.
  - rewrite Z.mod_small by lia. lia.
Qed.

Lemma bit_ok_index b : bit_ok b → ∃ i, bit_index b = Some i ∧ m_ptr b = Some (i / 8) ∧ bit b = 2 ^ (i mod 8).
Proof.
  intros [[p Hp] Ho]. unfold bit_index, bit. rewrite Hp. cbn [mbind option_bind].
  exists (8 * p + m_offs b). split; [done|].
  assert ((8 * p + m_offs b) / 8 = p ∧ (8 * p + m_offs b) mod 8 = m_offs b) as [-> ->].
  { split; symmetry; [apply (Z.div_unique _ _ _ (m_offs b)); lia|apply (Z.mod_unique _ _ p); lia]. }
  split; [done|]. rewrite Z.shiftl_1_l.
  assert (0 < 2 ^ m_offs b ≤ 128).
  { split; [apply Z.pow_pos_nonneg; lia|]. change 128 with (2 ^ 7). apply Z.pow_le_mono_r; lia. }
  unfold uchar, to_uint8, to_uint32. rewrite (wrap_id 32) by (unfold in_u; change (2 ^ 32) with 4294967296; lia).
  apply wrap_id. unfold in_u. change (2 ^ 8) with 256. lia.
Qed.

(** Counting a [Bit_addr] up [n] times moves to the [n]-th bit
    after it in the record: byte [i / 8], mask [2^(i mod 8)], for every [n], and no
    assertion fails; so the null bits of consecutive columns are consecutive and
    never share a bit. *)
Theorem bit_addr_walk dbug b n (H : bit_ok b) :
  ∃ i b', bit_index b = Some i ∧ inc_n dbug n b = Some b' ∧ bit_ok b'
    ∧ m_ptr b' = Some ((i + Z.of_nat n) / 8) ∧ bit b' = 2 ^ ((i + Z.of_nat n) mod 8).
Proof.
  assert (∀ n b i, bit_ok b → bit_index b = Some i →
    ∃ b', inc_n dbug n b = Some b' ∧ bit_ok b' ∧ bit_index b' = Some (i + Z.of_nat n)) as Hwalk.
  { clear. induction n as [|n IH]; intros b i Hb Hi.
    - exists b. split; [done|]. split; [done|]. rewrite Hi. f_equal. lia.
    - destruct (inc_ok dbug b i Hb Hi) as (b1 & E1 & Hb1 & Hi1). cbn [inc_n]. rewrite E1.
      destruct (IH b1 (i + 1) Hb1 Hi1) as (b' & E & Hb' & Hi'). exists b'.
      split; [done|]. split; [done|]. rewrite Hi'. f_equal. lia. }
  destruct (bit_ok_index b H) as (i & Hi & _).
  destruct (Hwalk n b i H Hi) as (b' & E & Hb' & Hi').
  destruct (bit_ok_index b' Hb') as (i' & Hi'' & Hp & Hbit).
  rewrite Hi' in Hi''. injection Hi'' as <-. exists i, b'. done.
Qed.

Lemma char_to_byte_ok n m : in_u 32 n → in_u 32 m →
  char_to_byte_length_safe n m = (n * m) `min` UINT_MAX32.
Proof.
  unfold in_u. change (2 ^ 32) with 4294967296. intros Hn Hm. unfold char_to_byte_length_safe, UINT_MAX32.
  assert (0 ≤ n * m < 2 ^ 64) by (change (2 ^ 64) with (4294967296 * 4294967296); nia).
  unfold to_ulonglong. rewrite (wrap_id 64 n) by (unfold in_u; change (2 ^ 64) with 18446744073709551616; lia).
  rewrite wrap_id by done.
  destruct (Z.ltb_spec 0xFFFFFFFF (n * m)); [lia|]. rewrite Z.min_l by lia.
  apply wrap_id. unfold in_u. change (2 ^ 32) with 4294967296. lia.
Qed.

(** The byte length of a number of characters below 2^32 is the product,
    clamped to 2^32 - 1; the number of characters is recovered from it when the
    product fits, and is never exceeded.  A number of characters of 2^62 is not
    clamped: the 64-bit product wraps to 0. *)
Theorem char_length_correct n a (Hn : in_u 32 n)
    (Hm : 0 < mbmaxlen (collation (std_collation a)) < 2 ^ 32) :
  let m := mbmaxlen (collation (std_collation a)) in
  max_length (std_num (fix_char_length n a)) = (n * m) `min` UINT_MAX32
  ∧ max_char_length (fix_char_length n a) = Some (n `min` (UINT_MAX32 / m))
  ∧ char_to_byte_length_safe (2 ^ 62) 4 = 0.
Proof.
  intros m. assert (in_u 32 m) as Hm' by (unfold in_u; unfold m; lia).
  assert (0 < m) as Hp by (unfold m; lia).
  unfold fix_char_length. fold m. rewrite char_to_byte_ok by done.
  split; [done|]. split; [|by vm_compute].
  unfold max_char_length. cbn [set_max_length std_num std_collation max_length]. fold m.
  destruct (Z.eqb_spec m 0); [lia|]. f_equal. unfold UINT_MAX32.
  destruct (Z.le_gt_cases (n * m) 0xFFFFFFFF) as [H|H].
  - rewrite (Z.min_l (n * m)) by done. rewrite Z.div_mul by lia.
    rewrite Z.min_l; [done|]. apply Z.div_le_lower_bound; lia.
  - rewrite (Z.min_r (n * m)) by lia. rewrite Z.min_r; [done|].
    apply Z.lt_succ_r. apply Z.div_lt_upper_bound; lia.
Qed.

(** The two ways to compute the attributes of a temporal type
    from its integer part and its decimals give the same length for every number
    of decimals, the one that stands for "not fixed" included, and the same
    decimals otherwise: the integer part, then a point and at most six digits when
    there are decimals. *)
Theorem temporal_attributes_equiv int_part dec uns
    (Hi : 0 ≤ int_part < 2 ^ 31) (Hd : 0 ≤ dec < 2 ^ 16) :
  max_length (Type_temporal_attributes int_part dec uns)
    = max_length (Type_temporal_attributes_not_fixed_dec int_part dec uns)
  ∧ max_length (Type_temporal_attributes int_part dec uns)
    = int_part + (if dec =? 0 then 0 else 1 + dec `min` 6)
  ∧ decimals (Type_temporal_attributes int_part dec uns) = dec `min` 6
  ∧ (dec ≠ NOT_FIXED_DEC →
     Type_temporal_attributes int_part dec uns
     = Type_temporal_attributes_not_fixed_dec int_part dec uns)
  ∧ decimals (Type_temporal_attributes_not_fixed_dec int_part NOT_FIXED_DEC uns) = NOT_FIXED_DEC.
Proof.
  change (2 ^ 31) with 2147483648 in Hi. change (2 ^ 16) with 65536 in Hd.
  assert (∀ x, 0 ≤ x < 4294967296 → to_uint32 x = x) as Hw by (intros x ?; by apply wrap_id).
  unfold Type_temporal_attributes, Type_temporal_attributes_not_fixed_dec, NOT_FIXED_DEC,
    TIME_SECOND_PART_DIGITS, MyTime.TIME_SECOND_PART_DIGITS, truth.
  assert ((if dec <? 6 then dec else 6) = dec `min` 6) as E1 by (destruct (Z.ltb_spec dec 6); lia).
  assert ((if 6 <? dec then 6 else dec) = dec `min` 6) as E2 by (destruct (Z.ltb_spec 6 dec); lia).
  rewrite E1, E2. change (39 =? 39) with true. cbn [decimals].
  destruct (Z.eqb_spec dec 39) as [E39|]; destruct (Z.eqb_spec dec 0) as [E0|]; cbn [negb];
    cbn [max_length decimals]; rewrite !Hw; rewrite ?Hw; try lia;
    split_and!; intros; done || lia || (f_equal; lia).
Qed.

(** *** Typelib *)

Lemma max_octet_loop_ok lengths i turns m : (i + turns ≤ length lengths)%nat →
  max_octet_loop lengths i turns m = Some (foldl Z.max m (take turns (drop i lengths))).
Proof.
  revert i m. induction turns as [|turns IH]; intros i m H; [done|]. cbn [max_octet_loop].
  destruct (lookup_lt_is_Some_2 lengths i) as [x Hx]; [lia|]. rewrite Hx. cbn [mbind option_bind].
  rewrite IH by lia. rewrite (drop_S _ _ _ Hx). cbn [take foldl]. do 2 f_equal.
  destruct (Z.ltb_spec m x); lia.
Qed.


Lemma foldl_max_spec l m : (∀ x, x ∈ m :: l → x ≤ foldl Z.max m l) ∧ foldl Z.max m l ∈ m :: l.
Proof.
  revert m. induction l as [|y l IH]; intros m; cbn.
  - split; [|left]. intros x Hx. by apply list_elem_of_singleton in Hx as ->.
  - destruct (IH (Z.max m y)) as [H1 H2]. split.
    + intros x [->|[->|Hx]%elem_of_cons]%elem_of_cons.
      * transitivity (Z.max m y); [lia|]. apply H1. left.
      * transitivity (Z.max m y); [lia|]. apply H1. left.
      * apply H1. by right.
    + apply elem_of_cons in H2 as [H2|H2]; [|right; by right].
      rewrite H2. destruct (Z.max_spec m y) as [[_ ->]|[_ ->]]; [right; left|left].
Qed.

Lemma typelib_fill_ok dbug values i names lengths : (i ≤ length values)%nat →
  (length values < length names)%nat → length lengths = length names →
  Forall (λ v, v.1 ≠ 0 ∧ in_u 32 v.2) values →
  typelib_fill dbug values i (length values - i) names lengths
  = Some (take i names ++ (drop i values).*1 ++ drop (length values) names,
          take i lengths ++ (drop i values).*2 ++ drop (length values) lengths).
Proof.
  intros Hi Hlen Hl Hv. remember (length values - i)%nat as turns eqn:Et.
  revert i names lengths Hi Hlen Hl Et. induction turns as [|turns IH]; intros i names lengths Hi Hlen Hl Et.
  - replace i with (length values) by lia. rewrite drop_all. cbn. by rewrite !take_drop.
  - cbn [typelib_fill]. destruct (lookup_lt_is_Some_2 values i) as [[s n] Hx]; [lia|].
    rewrite Hx. cbn [mbind option_bind].
    destruct (Forall_lookup_1 _ _ _ _ Hv Hx) as [Hs Hn]. cbn in Hs, Hn.
    rewrite dassert_true by by apply negb_true_iff, Z.eqb_neq. cbn [mbind option_bind].
    unfold to_uint32. rewrite (wrap_id 32 n) by done.
    rewrite !poke_defined by lia. cbn [mbind option_bind].
    rewrite IH by (rewrite ?length_insert; lia).
    rewrite (drop_S _ _ _ Hx). cbn [fmap list_fmap fst snd].
    assert (∀ (T : list Z) v, (i < length T)%nat →
      take (S i) (<[i:=v]> T) = take i T ++ [v]) as Ht.
    { intros T v HT. rewrite (take_S_r _ _ v) by by apply list_lookup_insert_eq.
      by rewrite take_insert_ge by lia. }
    rewrite !Ht by lia. rewrite !drop_insert_lt by lia. by rewrite <- !app_assoc.
Qed.

(** Building a [TypelibBuffer<sz>] from at most [sz] strings
    writes only inside its arrays, keeps the strings in order with the end
    markers after them, and [max_octet_length] of it is the length of the longest
    string, 0 when there is none; both loops end. *)
Theorem typelib_correct dbug sz names lengths values
    (Hsz : (length values ≤ sz)%nat) (Hn : length names = S sz) (Hl : length lengths = S sz)
    (Hv : Forall (λ v, v.1 ≠ 0 ∧ in_u 32 v.2) values) :
  ∃ t m, TypelibBuffer dbug sz names lengths (Z.of_nat (length values)) values = Some t
    ∧ tl_count t = Z.of_nat (length values)
    ∧ take (length values) (type_names t) = values.*1
    ∧ take (length values) (type_lengths t) = values.*2
    ∧ type_names t !! sz = Some 0 ∧ type_lengths t !! sz = Some 0
    ∧ length (type_names t) = S sz ∧ length (type_lengths t) = S sz
    ∧ max_octet_length t = Some m
    ∧ (∀ v, v ∈ values → v.2 ≤ m) ∧ (m = 0 ∨ ∃ v, v ∈ values ∧ m = v.2).
Proof.
  unfold TypelibBuffer. rewrite dassert_true by (apply Z.leb_le; lia). cbn [mbind option_bind].
  rewrite Nat2Z.id.
  pose proof (typelib_fill_ok dbug values 0 names lengths) as E. rewrite Nat.sub_0_r in E.
  rewrite E by (lia || done). cbn [mbind option_bind]. clear E.
  rewrite !take_0, !drop_0, !app_nil_l.
  rewrite !poke_defined by (rewrite length_app, length_fmap, length_drop; lia).
  cbn [mbind option_bind]. eexists _, _. split; [done|]. cbn [tl_count type_names type_lengths].
  assert (∀ (T : list Z) (V : list Z), length V = length values → length T = S sz →
    let R := <[sz:=0]> (V ++ drop (length values) T) in
    take (length values) R = V ∧ R !! sz = Some 0 ∧ length R = S sz) as HR.
  { intros T V HV HT R. unfold R. rewrite length_insert, length_app, length_drop. split; [|split; [|lia]].
    - rewrite take_insert_ge by lia. rewrite <- HV. by rewrite take_app_length.
    - apply list_lookup_insert_eq. rewrite length_app, length_drop. lia. }
  destruct (HR names values.*1) as (A1 & A2 & A3); [by rewrite length_fmap|done|].
  destruct (HR lengths values.*2) as (B1 & B2 & B3); [by rewrite length_fmap|done|].
  unfold max_octet_length. cbn [tl_count type_lengths]. rewrite Nat2Z.id.
  rewrite max_octet_loop_ok by (rewrite B3; lia). rewrite drop_0, B1.
  destruct (foldl_max_spec values.*2 0) as [F1 F2].
  repeat (split; [done|]). split.
  - intros v Hin. apply F1. right. by apply list_elem_of_fmap_2.
  - apply elem_of_cons in F2 as [F2|F2]; [by left|]. right.
    apply list_elem_of_fmap in F2 as (v & -> & Hin). eauto.
Qed.

(** *** Aggregation *)

(** The search in a table of pairs that ends with a pair without
    a result stops, returns the result of the first pair that matches, or the null
    pointer when none does, and in a commutative table does not depend on the
    order of the two handlers. *)
Theorem find_handler_correct pairs last rest h1 h2 (commutative : bool)
    (Hp : Forall (λ p, m_result p ≠ 0) pairs) (Hlast : m_result last = 0) :
  find_handler_in_array (pairs ++ last :: rest) h1 h2 commutative
    = Some (match list_find (λ p, pair_matches h1 h2 commutative p = true) pairs with
            | Some (_, p) => m_result p | None => 0 end)
  ∧ find_handler_in_array (pairs ++ last :: rest) h1 h2 true
    = find_handler_in_array (pairs ++ last :: rest) h2 h1 true.
Proof.
  induction Hp as [|p pairs Hr Hp [IH1 IH2]]; cbn.
  - by rewrite Hlast.
  - rewrite (proj2 (Z.eqb_neq _ 0)) by done. split.
    + rewrite IH1. destruct (decide (pair_matches h1 h2 commutative p = true)) as [E|E].
      * unfold pair_matches in E. destruct (pair_eq p h1 h2); [done|]. cbn in E. by rewrite E.
      * apply not_true_is_false in E. unfold pair_matches in E.
        apply orb_false_iff in E as [-> ->]. by destruct (list_find _ pairs) as [[]|].
    + rewrite IH2. destruct (pair_eq p h1 h2), (pair_eq p h2 h1); done.
Qed.

(** ** Witnesses *)

Lemma bit_addr_walk_witness :
  ∃ b', inc_n true 10 (Mk_bit (Some 2) 6) = Some b' ∧ m_ptr b' = Some 4 ∧ bit b' = 1.
Proof.
  assert (bit_ok (Mk_bit (Some 2) 6)) as H by (split; [eexists; reflexivity|cbn; lia]).
  destruct (bit_addr_walk true _ 10 H) as (i & b' & Ei & E & _ & E1 & E2).
  injection Ei as <-. exists b'. split; [exact E|]. split; [exact E1|exact E2].
Defined.

Definition demo_std : Type_std_attributes :=
  let cs := {| cs_number := 45; state := 0; mbmaxlen := 4 |} in
  Mk_std Type_numeric_default (DTCollation_der cs DERIVATION_IMPLICIT).

Lemma char_length_correct_witness : max_char_length (fix_char_length 255 demo_std) = Some 255.
Proof.
  assert (in_u 32 255) as H1 by (vm_compute; split; [discriminate|reflexivity]).
  assert (0 < mbmaxlen (collation (std_collation demo_std)) < 2 ^ 32) as H2 by (vm_compute; split; reflexivity).
  destruct (char_length_correct 255 demo_std H1 H2) as (_ & E & _). exact E.
Defined.

Lemma temporal_attributes_equiv_witness :
  max_length (Type_temporal_attributes MIN_TIME_WIDTH 39 false)
  = max_length (Type_temporal_attributes_not_fixed_dec MIN_TIME_WIDTH 39 false).
Proof.
  destruct (temporal_attributes_equiv MIN_TIME_WIDTH 39 false
    ltac:(vm_compute; split; [discriminate|reflexivity])
    ltac:(vm_compute; split; [discriminate|reflexivity])) as [E _].
  exact E.
Defined.

Lemma typelib_correct_witness :
  ∃ t m, TypelibBuffer true 3 [9; 9; 9; 9] [9; 9; 9; 9] 2 [(100, 3); (200, 5)] = Some t
    ∧ max_octet_length t = Some m ∧ 5 ≤ m.
Proof.
  assert (Forall (λ v : Z * Z, v.1 ≠ 0 ∧ in_u 32 v.2) [(100, 3); (200, 5)]) as Hv.
  { repeat constructor; vm_compute; (discriminate || reflexivity). }
  destruct (typelib_correct true 3 [9; 9; 9; 9] [9; 9; 9; 9] [(100, 3); (200, 5)]
    ltac:(cbn; lia) eq_refl eq_refl Hv)
    as (t & m & E & _ & _ & _ & _ & _ & _ & _ & Em & Hmax & _).
  exists t, m. split; [exact E|]. split; [exact Em|].
  apply (Hmax (200, 5)). right. left.
Defined.

Lemma find_handler_correct_witness :
  find_handler_in_array ([Mk_pair 1 2 7] ++ Mk_pair 0 0 0 :: []) 2 1 true = Some 7.
Proof.
  destruct (find_handler_correct [Mk_pair 1 2 7] (Mk_pair 0 0 0) [] 2 1 true
    ltac:(repeat constructor; discriminate) eq_refl) as [E _].
  exact E.
Defined.
