(* ===== verification/SemiSync.v ===== *)
(** [semisync_master.h], [class Tranx_node_allocator]: the nodes of the active
    transactions of semi-synchronous replication, allocated in blocks of 16 that
    are chained in the order of allocation and reused from the rear.  Blocks are
    at flat addresses, as the search for the block of a node compares addresses;
    [my_malloc] is code of another library, a parameter with what it promises. *)
From S2P Require Import Prelude CMonad.

(** ** State *)

Definition BLOCK_TRANX_NODES : Z := 16.
Definition FN_REFLEN : Z := 512.

(** [struct Tranx_node]: a file name of [FN_REFLEN] bytes, a position and two
    pointers. *)
Record Tranx_node := Mk_node { log_name : list Z; log_pos : Z; nd_next : Z; hash_next : Z }.
Definition sizeof_Tranx_node : Z := FN_REFLEN + 8 + 8 + 8.

Record Block := Mk_block { blk_next : Z; nodes : list Tranx_node }.
Definition sizeof_Block : Z := 8 + BLOCK_TRANX_NODES * sizeof_Tranx_node.

(** [&block->nodes[i]]. *)
Definition node_addr (block i : Z) : Z := block + 8 + i * sizeof_Tranx_node.

(** [my_malloc] on a heap of blocks: the address of a new one and its contents,
    [None] without memory. *)
Class Malloc := my_malloc : gmap Z Block → option (Z * Block).

(** A new block overlaps none of the heap. *)
Definition apart (a b : Z) : Prop := a + sizeof_Block ≤ b ∨ b + sizeof_Block ≤ a.
Class MallocLaws `{Malloc} := {
  malloc_range : ∀ h a blk, my_malloc h = Some (a, blk) → 0 < a ∧ a + sizeof_Block ≤ 2 ^ 64;
  malloc_nodes : ∀ h a blk, my_malloc h = Some (a, blk) → length (nodes blk) = Z.to_nat BLOCK_TRANX_NODES;
  malloc_apart : ∀ h a blk b, my_malloc h = Some (a, blk) → is_Some (h !! b) → apart a b }.

Record Tranx_node_allocator := Allocator {
  heap : gmap Z Block;
  reserved_blocks : Z;
  first_block : Z;
  last_block : Z;
  current_block : Z;
  last_node : Z;
  block_num : Z }.

Section Code.
Context `{MA : Malloc}.

Definition get_block (b : Z) : M Tranx_node_allocator Block := gets_opt (λ s, heap s !! b).
Definition set_heap (f : gmap Z Block → gmap Z Block) : M Tranx_node_allocator unit :=
  modify (λ s, Allocator (f (heap s)) (reserved_blocks s) (first_block s) (last_block s) (current_block s)
                         (last_node s) (block_num s)).
Definition set_first_block (v : Z) : M Tranx_node_allocator unit :=
  modify (λ s, Allocator (heap s) (reserved_blocks s) v (last_block s) (current_block s) (last_node s) (block_num s)).
Definition set_last_block (v : Z) : M Tranx_node_allocator unit :=
  modify (λ s, Allocator (heap s) (reserved_blocks s) (first_block s) v (current_block s) (last_node s) (block_num s)).
Definition set_current_block (v : Z) : M Tranx_node_allocator unit :=
  modify (λ s, Allocator (heap s) (reserved_blocks s) (first_block s) (last_block s) v (last_node s) (block_num s)).
Definition set_last_node (v : Z) : M Tranx_node_allocator unit :=
  modify (λ s, Allocator (heap s) (reserved_blocks s) (first_block s) (last_block s) (current_block s) v (block_num s)).
Definition set_block_num (v : Z) : M Tranx_node_allocator unit :=
  modify (λ s, Allocator (heap s) (reserved_blocks s) (first_block s) (last_block s) (current_block s) (last_node s) v).
(** [b->next] read and assigned; a null or dangling pointer is undefined. *)
Definition get_next (b : Z) : M Tranx_node_allocator Z := k <- get_block b ;; ret (blk_next k).
Definition set_next (b v : Z) : M Tranx_node_allocator unit :=
  k <- get_block b ;; set_heap (<[b := Mk_block v (nodes k)]>).

(** ** Operations *)

Definition ctor (reserved_nodes : Z) : Tranx_node_allocator :=
  Allocator ∅
    (to_uint32 (reserved_nodes / BLOCK_TRANX_NODES
                + if 1 <? reserved_nodes mod BLOCK_TRANX_NODES then 2 else 1))
    0 0 0 (-1) 0.

Definition allocate_block : M Tranx_node_allocator Z :=
  s <- gets id ;;
  match my_malloc (heap s) with
  | Some (block, k) =>
      set_heap (<[block := k]>) ;;
      set_next block 0 ;;
      (if first_block s =? 0 then set_first_block block else set_next (last_block s) block) ;;
      set_last_block block ;;
      set_current_block block ;;
      set_block_num (to_uint32 (block_num s + 1)) ;;
      ret 0
  | None => ret 1
  end.

Definition free_block (block : Z) : M Tranx_node_allocator unit :=
  _ <- get_block block ;;
  set_heap (delete block) ;;
  n <- gets block_num ;; set_block_num (to_uint32 (n - 1)).

(** The loop of [free_blocks]; it returns the last value of [block]. *)
Fixpoint free_loop (fuel : nat) (block : Z) : M Tranx_node_allocator Z :=
  match fuel with
  | O => ub
  | S fuel =>
      s <- gets id ;;
      if (reserved_blocks s <? block_num s) && negb (block =? 0) then
        next <- get_next block ;;
        free_block block ;;
        free_loop fuel next
      else ret block
  end.

Definition free_blocks (fuel : nat) : M Tranx_node_allocator unit :=
  current <- gets current_block ;;
  if current =? 0 then ret tt else
  c1 <- get_next current ;;
  if c1 =? 0 then ret tt else
  block <- get_next c1 ;;
  block <- free_loop fuel block ;;
  set_next c1 block ;;
  (if block =? 0 then set_last_block c1 else ret tt).

(** The four assignments to the members of a node. *)
Definition init_node (block i : Z) : M Tranx_node_allocator unit :=
  k <- get_block block ;;
  match nodes k !! Z.to_nat i with
  | Some n => set_heap (<[block := Mk_block (blk_next k)
                (<[Z.to_nat i := Mk_node (<[0%nat := 0]> (log_name n)) 0 0 0]> (nodes k))]>)
  | None => ub
  end.

(** [None] of C, [NULL], is 0. *)
Definition allocate_node : M Tranx_node_allocator Z :=
  block <- gets current_block ;;
  n <- gets last_node ;;
  (if n =? BLOCK_TRANX_NODES - 1 then
     next <- get_next block ;; set_current_block next ;; set_last_node (-1)
   else ret tt) ;;
  current <- gets current_block ;;
  err <- (if current =? 0 then allocate_block else ret 0) ;;
  if truth err then
    set_current_block block ;;
    (if negb (block =? 0) then set_last_node (BLOCK_TRANX_NODES - 1) else ret tt) ;;
    ret 0
  else
    current <- gets current_block ;;
    n <- gets last_node ;;
    set_last_node (n + 1) ;;
    init_node current (n + 1) ;;
    ret (node_addr current (n + 1)).

Definition free_all_nodes (fuel : nat) : M Tranx_node_allocator Z :=
  f <- gets first_block ;;
  set_current_block f ;;
  set_last_node (-1) ;;
  free_blocks fuel ;;
  ret 0.

(** The loop of [free_nodes_before]. *)
Fixpoint find_block (dbug : bool) (fuel : nat) (node prev_block block : Z) : M Tranx_node_allocator Z :=
  match fuel with
  | O => ub
  | S n =>
      current <- gets current_block ;;
      stop <- get_next current ;;
      if block =? stop then assert_that (negb dbug) ;; ret 1 else
      _ <- get_block block ;;
      if (node_addr block 0 <=? node) && (node <=? node_addr block BLOCK_TRANX_NODES) then
        first <- gets first_block ;;
        (if negb (first =? block) then
           last <- gets last_block ;;
           set_next last first ;;
           set_first_block block ;;
           set_last_block prev_block ;;
           set_next prev_block 0 ;;
           free_blocks fuel
         else ret tt) ;;
        ret 0
      else
        next <- get_next block ;; find_block dbug n node block next
  end.
Definition free_nodes_before (dbug : bool) (fuel : nat) (node : Z) : M Tranx_node_allocator Z :=
  first <- gets first_block ;; find_block dbug fuel node 0 first.

(** The destructor. *)
Fixpoint dtor_loop (fuel : nat) (block : Z) : M Tranx_node_allocator unit :=
  match fuel with
  | O => ub
  | S fuel =>
      if negb (block =? 0) then
        next <- get_next block ;; free_block block ;; dtor_loop fuel next
      else ret tt
  end.
Definition dtor (fuel : nat) : M Tranx_node_allocator unit :=
  first <- gets first_block ;; dtor_loop fuel first.

(** ** Specification *)

(** The blocks of a chain, from [p] to [e]. *)
Fixpoint chain (h : gmap Z Block) (p : Z) (l : list Z) (e : Z) : Prop :=
  match l with
  | [] => p = e
  | b :: r => p = b ∧ ∃ k, h !! b = Some k ∧ length (nodes k) = Z.to_nat BLOCK_TRANX_NODES
                           ∧ chain h (blk_next k) r e
  end.

(** The blocks in the order of the chain: they are the whole heap. *)
Record blocks (s : Tranx_node_allocator) (l : list Z) : Prop := {
  b_chain : chain (heap s) (first_block s) l 0;
  b_nodup : NoDup l;
  b_dom : ∀ b, is_Some (heap s !! b) ↔ b ∈ l;
  b_apart : ∀ a b, a ∈ l → b ∈ l → a ≠ b → apart a b;
  b_range : ∀ b, b ∈ l → 0 < b ∧ b + sizeof_Block ≤ 2 ^ 64;
  b_last : last_block s = List.last l 0;
  b_num : block_num s = Z.of_nat (length l);
  b_small : Z.of_nat (length l) < 2 ^ 32 }.

(** [used] are the blocks with nodes in use, [free] the others. *)
Record rep (s : Tranx_node_allocator) (used free : list Z) : Prop := {
  r_blocks : blocks s (used ++ free);
  r_current : current_block s = List.last used 0;
  r_node : -1 ≤ last_node s ≤ 15;
  r_empty : used = [] → free = [] ∧ last_node s = -1 }.

(** The nodes in use, in the order of their allocation. *)
Definition addrs (b : Z) (n : nat) : list Z := (λ i, node_addr b (Z.of_nat i)) <$> seq 0 n.
Fixpoint live (used : list Z) (n : nat) : list Z :=
  match used with
  | [] => []
  | [b] => addrs b n
  | b :: r => addrs b (Z.to_nat BLOCK_TRANX_NODES) ++ live r n
  end.
Definition in_use (s : Tranx_node_allocator) (used : list Z) : list Z :=
  live used (Z.to_nat (last_node s + 1)).

(** *** Chains *)

Lemma chain_app h p a b e : chain h p (a ++ b) e ↔ ∃ m, chain h p a m ∧ chain h m b e.
Proof.
  revert p. induction a as [|x a IH]; intros p; cbn [app chain].
  - split; [eauto|]. by intros (m & -> & ?).
  - split.
    + intros (-> & k & Hk & Hl & Hc). apply IH in Hc as (m & Ha & Hb). eauto 10.
    + intros (m & (-> & k & Hk & Hl & Hc) & Hb). split; [done|]. exists k.
      split_and!; [done..|]. apply IH. eauto.
Qed.

Lemma chain_ext h h' p l e : (∀ b, b ∈ l → h' !! b = h !! b) → chain h p l e → chain h' p l e.
Proof.
  revert p. induction l as [|x l IH]; intros p He; [done|]. cbn. intros (-> & k & Hk & Hl & Hc).
  split; [done|]. exists k. rewrite He by left. split_and!; [done..|].
  apply IH; [|done]. intros b Hb. apply He. by right.
Qed.

Lemma chain_frame h p l e x k : x ∉ l → chain h p l e → chain (<[x := k]> h) p l e.
Proof. intros Hx. apply chain_ext. intros b Hb. apply lookup_insert_ne. by intros ->. Qed.

Lemma chain_update h p l e x k k' : h !! x = Some k → blk_next k' = blk_next k →
  length (nodes k') = length (nodes k) → chain h p l e → chain (<[x := k']> h) p l e.
Proof.
  intros Hx Hn Hl. revert p. induction l as [|b l IH]; intros p; [done|]. cbn.
  intros (-> & j & Hj & Hj16 & Hc). split; [done|]. destruct (decide (b = x)) as [->|Hb].
  - rewrite Hx in Hj. injection Hj as <-. exists k'. rewrite lookup_insert_eq, Hn, Hl. auto.
  - exists j. rewrite lookup_insert_ne by done. auto.
Qed.

Lemma chain_hd h p l e : chain h p l e → p = default e (head l).
Proof. destruct l; [done|]. by intros [-> _]. Qed.

Lemma chain_at h p a x b e : chain h p (a ++ x :: b) e →
  ∃ k, h !! x = Some k ∧ length (nodes k) = Z.to_nat BLOCK_TRANX_NODES ∧ blk_next k = default e (head b).
Proof.
  intros (m & _ & _ & k & Hk & Hl & Hc)%chain_app. exists k. split_and!; [done..|]. by apply (chain_hd h _ b).
Qed.

Lemma chain_set_next h p a x e k v : chain h p (a ++ [x]) e → NoDup (a ++ [x]) → h !! x = Some k →
  chain (<[x := Mk_block v (nodes k)]> h) p (a ++ [x]) v.
Proof.
  intros (m & Ha & -> & k' & Hk' & Hl & _)%chain_app Hn Hk. rewrite Hk in Hk'. injection Hk' as <-.
  apply NoDup_app in Hn as (_ & Hn & _). apply chain_app. exists x. split.
  - apply chain_frame; [|done]. intros Hx. apply (Hn x Hx). by left.
  - split; [done|]. eexists. rewrite lookup_insert_eq. split_and!; done.
Qed.

Lemma last_snoc_list (a : list Z) x d : List.last (a ++ [x]) d = x.
Proof. induction a as [|y a IH]; [done|]. cbn. by destruct (a ++ [x]) eqn:E; [destruct a|]. Qed.

Lemma last_app_cons (a : list Z) x b d : List.last (a ++ x :: b) d = List.last (x :: b) d.
Proof.
  destruct (exists_last (l := x :: b)) as (c & y & ->); [done|]. by rewrite app_assoc, !last_snoc_list.
Qed.

Lemma get_next_ok s b k : heap s !! b = Some k → get_next b s = Some (blk_next k, s).
Proof.
  intros Hk. unfold get_next, get_block. erewrite bind_ok; [done|]. by apply gets_opt_ok.
Qed.

Lemma set_block_next_ok s b v k : heap s !! b = Some k →
  set_next b v s = set_heap (<[b := Mk_block v (nodes k)]>) s.
Proof.
  intros Hk. unfold set_next, get_block. erewrite bind_ok; [done|]. by apply gets_opt_ok.
Qed.

Lemma b_zero s l : blocks s l → 0 ∉ l.
Proof. intros B H0. destruct (b_range _ _ B 0 H0). lia. Qed.

(** A block found in the chain. *)
Lemma blocks_at s a x b : blocks s (a ++ x :: b) →
  ∃ k, heap s !! x = Some k ∧ length (nodes k) = Z.to_nat BLOCK_TRANX_NODES ∧ blk_next k = default 0 (head b).
Proof. intros B. exact (chain_at _ _ _ _ _ _ (b_chain _ _ B)). Qed.

Context `{ML : !MallocLaws}.

(** *** Allocation *)

(** What a step keeps of the rest of the state. *)
Definition same_nodes (s s' : Tranx_node_allocator) (l : list Z) : Prop :=
  ∀ b, b ∈ l → nodes <$> heap s' !! b = nodes <$> heap s !! b.

Lemma malloc_fresh s l a k : blocks s l → my_malloc (heap s) = Some (a, k) → a ∉ l.
Proof.
  intros B Hm Ha. apply (b_dom _ _ B) in Ha.
  destruct (malloc_apart _ _ _ _ Hm Ha); unfold sizeof_Block, sizeof_Tranx_node, BLOCK_TRANX_NODES, FN_REFLEN in *; lia.
Qed.

(** A new block at the end of the chain. *)
Lemma blocks_snoc s l a k h' : blocks s l → Z.of_nat (S (length l)) < 2 ^ 32 →
  my_malloc (heap s) = Some (a, k) →
  (∀ b, is_Some (h' !! b) ↔ is_Some (heap s !! b) ∨ b = a) →
  chain h' (if first_block s =? 0 then a else first_block s) (l ++ [a]) 0 →
  blocks (Allocator h' (reserved_blocks s) (if first_block s =? 0 then a else first_block s) a a
            (last_node s) (Z.of_nat (S (length l)))) (l ++ [a]).
Proof.
  intros B Hn Hm Hd Hc. pose proof (malloc_fresh _ _ _ _ B Hm) as Hf. pose proof B as [_ Bn Bd Ba Br _ _ _].
  assert (∀ b, b ∈ l → apart a b) as Hap.
  { intros b Hb. apply (malloc_apart _ _ _ _ Hm). by apply Bd. }
  split; cbn; rewrite ?length_app, ?last_snoc_list; cbn; try done; try lia.
  - apply NoDup_app. split_and!; [done|set_solver|apply NoDup_singleton].
  - intros b. rewrite Hd, Bd. set_solver.
  - intros b c [Hb| ->%list_elem_of_singleton]%elem_of_app [Hc'| ->%list_elem_of_singleton]%elem_of_app Hbc;
      [by apply Ba| |by apply Hap|done].
    destruct (Hap b Hb); [by right|by left].
  - intros b [Hb| ->%list_elem_of_singleton]%elem_of_app; [by apply Br|]. by apply (malloc_range _ _ _ Hm).
Qed.

Lemma allocate_block_ok s l : blocks s l → Z.of_nat (S (length l)) < 2 ^ 32 →
  match my_malloc (heap s) with
  | None => allocate_block s = Some (1, s)
  | Some (a, k) => ∃ s', allocate_block s = Some (0, s') ∧ blocks s' (l ++ [a])
      ∧ current_block s' = a ∧ last_node s' = last_node s ∧ reserved_blocks s' = reserved_blocks s
      ∧ a ∉ l ∧ same_nodes s s' l
  end.
Proof.
  intros B Hn. unfold allocate_block. erewrite bind_ok by reflexivity. unfold id.
  destruct (my_malloc (heap s)) as [[a k]|] eqn:Hm; [|done].
  pose proof (malloc_fresh _ _ _ _ B Hm) as Hf. pose proof (malloc_nodes _ _ _ Hm) as Hl.
  erewrite bind_ok by reflexivity. erewrite bind_ok by (erewrite set_block_next_ok by apply lookup_insert_eq; reflexivity).
  cbn [nodes heap]. rewrite insert_insert_eq. set (k0 := Mk_block 0 (nodes k)).
  assert (to_uint32 (block_num s + 1) = Z.of_nat (S (length l))) as Hnum.
  { rewrite (b_num _ _ B). unfold to_uint32. rewrite wrap_id; [lia|]. unfold in_u. lia. }
  destruct l as [|y l0 _] using rev_ind.
  - pose proof (b_chain _ _ B) as Hc. cbn in Hc. rewrite Hc.
    do 4 (erewrite bind_ok by reflexivity). cbn. rewrite Hnum.
    eexists. split; [reflexivity|]. split; [|split_and!; [done..|]].
    + pose proof (blocks_snoc s [] a k (<[a := k0]> (heap s)) B Hn Hm) as Hb. rewrite Hc in Hb. apply Hb.
      * intros b. rewrite lookup_insert_is_Some'. naive_solver.
      * split; [done|]. exists k0. by rewrite lookup_insert_eq.
    + intros b Hb. by apply elem_of_nil in Hb.
  - destruct (blocks_at s l0 y [] B) as (ky & Hy & Hy16 & _).
    assert (first_block s ≠ 0) as Hz.
    { rewrite (chain_hd _ _ _ _ (b_chain _ _ B)). pose proof (b_zero _ _ B) as H0.
      destruct l0; cbn; intros E; apply H0; rewrite E; by left. }
    rewrite (proj2 (Z.eqb_neq _ _)) by done. rewrite (b_last _ _ B), last_snoc_list.
    assert (a ≠ y) as Hay by set_solver.
    erewrite bind_ok by (erewrite set_block_next_ok by (cbn; rewrite lookup_insert_ne by done; exact Hy); reflexivity).
    do 3 (erewrite bind_ok by reflexivity). cbn. rewrite Hnum.
    eexists. split; [reflexivity|]. split; [|split_and!; [done..|]].
    + pose proof (blocks_snoc s _ a k (<[y := Mk_block a (nodes ky)]> (<[a := k0]> (heap s))) B Hn Hm) as Hb.
      rewrite (proj2 (Z.eqb_neq (first_block s) 0)) in Hb by done. apply Hb.
      * intros b. rewrite !lookup_insert_is_Some'. split; [|naive_solver]. intros [ -> |[ -> |]]; eauto.
      * apply chain_app. exists a. split.
        -- apply chain_set_next with 0; [|apply (b_nodup _ _ B)|by rewrite lookup_insert_ne].
           apply chain_frame; [done|]. apply (b_chain _ _ B).
        -- split; [done|]. exists k0. rewrite lookup_insert_ne, lookup_insert_eq by done. done.
    + intros b Hb. cbn. destruct (decide (b = y)) as [->|]; [by rewrite lookup_insert_eq, Hy|].
      rewrite !lookup_insert_ne; [done|set_solver..].
Qed.

(** *** Nodes *)

Definition node_at (s : Tranx_node_allocator) (b i : Z) : option Tranx_node :=
  k ← heap s !! b; nodes k !! Z.to_nat i.

Lemma apart_neq a b i j : apart a b → 0 ≤ i < 16 → 0 ≤ j < 16 → node_addr a i ≠ node_addr b j.
Proof.
  unfold apart, node_addr, sizeof_Block, sizeof_Tranx_node, BLOCK_TRANX_NODES, FN_REFLEN. lia.
Qed.

Lemma addrs_S b n : addrs b (S n) = addrs b n ++ [node_addr b (Z.of_nat n)].
Proof. unfold addrs. by rewrite seq_S, fmap_app. Qed.

Lemma elem_of_addrs x b n : x ∈ addrs b n ↔ ∃ i, 0 ≤ i < Z.of_nat n ∧ x = node_addr b i.
Proof.
  unfold addrs. rewrite list_elem_of_fmap. split.
  - intros (i & -> & Hi%elem_of_seq). exists (Z.of_nat i). split; [lia|done].
  - intros (i & Hi & ->). exists (Z.to_nat i). rewrite Z2Nat.id by lia. split; [done|]. apply elem_of_seq. lia.
Qed.

Lemma live_snoc u c n : live (u ++ [c]) n = (u ≫= λ b, addrs b 16) ++ addrs c n.
Proof.
  induction u as [|b u IH]; [done|]. cbn [app live mbind list_bind]. rewrite <- app_assoc, <- IH.
  by destruct (u ++ [c]) eqn:E; [destruct u|].
Qed.

Lemma live_next_block u f : u ≠ [] → live (u ++ [f]) 0 = live u 16.
Proof.
  intros Hu. destruct (exists_last Hu) as (u0 & c & ->). rewrite !live_snoc, bind_app.
  change (addrs f 0) with (@nil Z). cbn [mbind list_bind]. by rewrite !app_nil_r.
Qed.

Lemma elem_of_live x u n : x ∈ live u n → (n ≤ 16)%nat → ∃ b i, b ∈ u ∧ 0 ≤ i < 16 ∧ x = node_addr b i.
Proof.
  destruct u as [|b0 u0 _] using rev_ind; [intros Hx; by apply elem_of_nil in Hx|]. rewrite live_snoc.
  intros [(b & Hx & Hb)%list_elem_of_bind|Hx]%elem_of_app Hn.
  - apply elem_of_addrs in Hx as (i & Hi & ->).
    exists b, i. split_and!; [set_solver|lia|lia|done].
  - apply elem_of_addrs in Hx as (i & Hi & ->). exists b0, i. split_and!; [set_solver|lia|lia|done].
Qed.

(** The nodes in use are at different addresses. *)
Lemma live_nodup u n : NoDup u → (∀ a b, a ∈ u → b ∈ u → a ≠ b → apart a b) → (n ≤ 16)%nat → NoDup (live u n).
Proof.
  assert (∀ b n, NoDup (addrs b n)) as Ha.
  { intros b m. apply NoDup_fmap_2; [|apply NoDup_seq]. intros i j.
    unfold node_addr, sizeof_Tranx_node, FN_REFLEN. lia. }
  induction u as [|b u IH]; intros Hu Hap Hn; [constructor|]. apply NoDup_cons in Hu as [Hb Hu].
  cbn [live]. destruct u as [|c u]; [done|]. apply NoDup_app. split_and!; [done| |].
  - intros x (i & Hi & ->)%elem_of_addrs Hx.
    apply elem_of_live in Hx as (d & j & Hd & Hj & E); [|done].
    apply (apart_neq b d i j) in E; [done|apply Hap; set_solver|unfold BLOCK_TRANX_NODES in Hi; lia|done].
  - apply IH; [done| |done]. intros x y Hx Hy. apply Hap; set_solver.
Qed.

Lemma bump_ok s l c n : blocks s l → c ∈ l → current_block s = c → last_node s = n → -1 ≤ n < 15 →
  ∃ s', (current <- gets current_block ;; m <- gets last_node ;; set_last_node (m + 1) ;;
         init_node current (m + 1) ;; ret (node_addr current (m + 1))) s = Some (node_addr c (n + 1), s')
  ∧ blocks s' l ∧ current_block s' = c ∧ last_node s' = n + 1 ∧ reserved_blocks s' = reserved_blocks s
  ∧ (∃ v, node_at s' c (n + 1) = Some v ∧ log_pos v = 0 ∧ nd_next v = 0 ∧ hash_next v = 0
          ∧ (log_name v !! 0%nat = Some 0 ∨ log_name v = []))
  ∧ (∀ b i, 0 ≤ i → (b, i) ≠ (c, n + 1) → node_at s' b i = node_at s b i).
Proof.
  intros B Hc Hcur Hn Hr. apply list_elem_of_split in Hc as (a & b & ->).
  destruct (blocks_at s a c b B) as (k & Hk & Hk16 & Hnext).
  destruct (lookup_lt_is_Some_2 (nodes k) (Z.to_nat (n + 1))) as [v Hv]; [rewrite Hk16; unfold BLOCK_TRANX_NODES; lia|].
  do 2 erewrite bind_ok by reflexivity. rewrite Hcur, Hn. erewrite bind_ok by reflexivity.
  unfold init_node, get_block. rewrite bind_assoc.
  erewrite bind_ok by (apply gets_opt_ok; exact Hk). rewrite Hv. erewrite bind_ok by reflexivity.
  eexists. split; [reflexivity|]. split.
  - destruct B as [Bc Bn Bd Ba Br Bl Bm Bs]. split; cbn; try done.
    + apply (chain_update _ _ _ _ _ k); [done..| |done]. cbn. by rewrite length_insert.
    + intros x. rewrite lookup_insert_is_Some', Bd. split; [|naive_solver]. intros [->|]; [set_solver|done].
  - cbn. split_and!; [done..| |].
    + eexists. unfold node_at. cbn. rewrite lookup_insert_eq. cbn.
      rewrite list_lookup_insert_eq by (apply lookup_lt_is_Some; eauto). split; [done|]. cbn.
      split_and!; [done..|]. destruct (log_name v); [by right|by left].
    + intros x i Hi Hne. unfold node_at. cbn. destruct (decide (x = c)) as [->|]; [|by rewrite lookup_insert_ne].
      rewrite lookup_insert_eq, Hk. cbn. apply list_lookup_insert_ne. intros E. apply Hne. f_equal. lia.
Qed.

(** What [allocate_node] promises when it returns [r]. *)
Definition allocated (s s' : Tranx_node_allocator) (used used' : list Z) (r : Z) : Prop :=
  in_use s' used' = in_use s used ++ [r] ∧ r ≠ 0
  ∧ ∃ b i v, r = node_addr b i ∧ 0 ≤ i < 16 ∧ node_at s' b i = Some v
    ∧ log_pos v = 0 ∧ nd_next v = 0 ∧ hash_next v = 0 ∧ (log_name v !! 0%nat = Some 0 ∨ log_name v = [])
    ∧ ∀ c j, c ∈ used → 0 ≤ j → (c, j) ≠ (b, i) → node_at s' c j = node_at s c j.

Definition take_node : M Tranx_node_allocator Z :=
  current <- gets current_block ;; n <- gets last_node ;; set_last_node (n + 1) ;;
  init_node current (n + 1) ;; ret (node_addr current (n + 1)).

Lemma take_node_ok s u f : rep s u f → u ≠ [] → last_node s < 15 →
  ∃ r s', take_node s = Some (r, s') ∧ rep s' u f ∧ reserved_blocks s' = reserved_blocks s
    ∧ allocated s s' u u r.
Proof.
  intros R Hu Hn. destruct (exists_last Hu) as (u0 & c & ->). destruct R as [B Rc Rn _].
  rewrite last_snoc_list in Rc.
  destruct (bump_ok s _ c (last_node s) B) as (s' & E & B' & Hc & Hl & Hr & (v & Hv & Hv') & Hold);
    [set_solver|done|done|lia|].
  eexists _, s'. split; [exact E|]. split; [|split; [done|]].
  { split; [done|by rewrite last_snoc_list|lia|]. intros E0. by destruct u0. }
  split.
  { unfold in_use. rewrite !live_snoc, Hl, <- app_assoc. f_equal.
    replace (Z.to_nat (last_node s + 1 + 1)) with (S (Z.to_nat (last_node s + 1))) by lia.
    rewrite addrs_S. by rewrite Z2Nat.id by lia. }
  split.
  { destruct (b_range _ _ B c); [set_solver|]. unfold node_addr, sizeof_Tranx_node, FN_REFLEN. lia. }
  exists c, (last_node s + 1), v. destruct Hv' as (? & ? & ? & ?). split_and!; try done; [lia..|].
  intros x j _ Hj Hne. by apply Hold.
Qed.

Lemma node_at_same s s' l b i : same_nodes s s' l → b ∈ l → node_at s' b i = node_at s b i.
Proof.
  intros Hs Hb. specialize (Hs b Hb). unfold node_at.
  destruct (heap s' !! b), (heap s !! b); cbn in *; by simplify_eq/=; rewrite ?Hs.
Qed.

(** The block that [allocate_node] takes the node from. *)
Lemma allocated_next s s1 s' used used' r : in_use s1 used' = in_use s used →
  (∀ c j, c ∈ used → node_at s1 c j = node_at s c j) → (∀ c, c ∈ used → c ∈ used') →
  allocated s1 s' used' used' r → allocated s s' used used' r.
Proof.
  intros Hi Hn Hsub (H1 & H2 & b & i & v & H3). split; [by rewrite H1, Hi|]. split; [done|].
  exists b, i, v. destruct H3 as (? & ? & ? & ? & ? & ? & ? & H). split_and!; try (done || lia).
  intros c j Hc Hj Hne. rewrite H, Hn; auto.
Qed.

Lemma new_block_ok s0 u : blocks s0 u → last_node s0 = -1 →
  Z.of_nat (S (length u)) < 2 ^ 32 →
  match my_malloc (heap s0) with
  | None => allocate_block s0 = Some (1, s0)
  | Some _ => ∃ s' a, allocate_block s0 = Some (0, s') ∧ rep s' (u ++ [a]) [] ∧ a ∉ u
      ∧ reserved_blocks s' = reserved_blocks s0 ∧ last_node s' = -1 ∧ same_nodes s0 s' u
  end.
Proof.
  intros B Hl Hn. pose proof (allocate_block_ok s0 u B Hn) as H.
  destruct (my_malloc (heap s0)) as [[a k]|]; [|done].
  destruct H as (s' & E & B' & Hc & Hl' & Hr & Ha & Hs). exists s', a. split; [done|]. split; [|split_and!; (done || congruence)].
  split; [by rewrite app_nil_r|by rewrite last_snoc_list|lia|]. intros E0. by destruct u.
Qed.

(** The part of [allocate_node] after the step to the next block. *)
Definition alloc_rest (block : Z) : M Tranx_node_allocator Z :=
  current <- gets current_block ;;
  err <- (if current =? 0 then allocate_block else ret 0) ;;
  if truth err then
    set_current_block block ;;
    (if negb (block =? 0) then set_last_node (BLOCK_TRANX_NODES - 1) else ret tt) ;;
    ret 0
  else take_node.

Definition move_to (b : Z) (s : Tranx_node_allocator) : Tranx_node_allocator :=
  Allocator (heap s) (reserved_blocks s) (first_block s) (last_block s) b (-1) (block_num s).

Lemma allocate_node_rest s u f : rep s u f →
  allocate_node s = alloc_rest (current_block s)
    (if last_node s =? 15 then move_to (default 0 (head f)) s else s).
Proof.
  intros [B Rc Rn Re]. unfold allocate_node. do 2 erewrite bind_ok by reflexivity.
  unfold BLOCK_TRANX_NODES. change (16 - 1) with 15. destruct (Z.eqb_spec (last_node s) 15) as [E|N].
  - destruct u as [|c u _] using rev_ind; [destruct (Re eq_refl); lia|].
    rewrite last_snoc_list in Rc. rewrite <- app_assoc in B. destruct (blocks_at s u c f B) as (k & Hk & _ & Hnx).
    rewrite bind_assoc. rewrite Rc at 1. erewrite bind_ok by (apply get_next_ok; exact Hk). by rewrite Hnx.
  - by erewrite bind_ok by reflexivity.
Qed.

Lemma alloc_rest_here block s : current_block s ≠ 0 → alloc_rest block s = take_node s.
Proof.
  intros H. unfold alloc_rest. erewrite bind_ok by reflexivity. by rewrite (proj2 (Z.eqb_neq _ _) H).
Qed.

Lemma alloc_rest_new block s s' : current_block s = 0 → allocate_block s = Some (0, s') →
  alloc_rest block s = take_node s'.
Proof.
  intros H E. unfold alloc_rest. erewrite bind_ok by reflexivity. rewrite H. by erewrite bind_ok by exact E.
Qed.

Lemma alloc_rest_fail block s : current_block s = 0 → allocate_block s = Some (1, s) →
  alloc_rest block s
  = Some (0, Allocator (heap s) (reserved_blocks s) (first_block s) (last_block s) block
               (if block =? 0 then last_node s else 15) (block_num s)).
Proof.
  intros H E. unfold alloc_rest. erewrite bind_ok by reflexivity. rewrite H.
  erewrite bind_ok by exact E. change (truth 1) with true. cbv iota beta.
  erewrite bind_ok by reflexivity. by destruct (block =? 0).
Qed.

Lemma rep_current s u f : rep s u f → u ≠ [] → current_block s ≠ 0.
Proof.
  intros R Hu. destruct (exists_last Hu) as (u0 & c & ->). rewrite (r_current _ _ _ R), last_snoc_list.
  intros ->. apply (b_zero _ _ (r_blocks _ _ _ R)). set_solver.
Qed.

Lemma allocate_node_ok s u f : rep s u f → Z.of_nat (S (length (u ++ f))) < 2 ^ 32 →
  (allocate_node s = Some (0, s) ∧ f = [] ∧ (last_node s = 15 ∨ u = []) ∧ my_malloc (heap s) = None)
  ∨ ∃ r s' u' f', allocate_node s = Some (r, s') ∧ rep s' u' f'
      ∧ reserved_blocks s' = reserved_blocks s ∧ allocated s s' u u' r
      ∧ (u' ++ f' = u ++ f ∨ f = [] ∧ f' = [] ∧ ∃ a, u' = u ++ [a]).
Proof.
  intros R Hn. rewrite (allocate_node_rest s u f R).
  set (s1 := if _ : bool then _ else _).
  (* a place in the present block, in the next one, or in a new one *)
  destruct (decide (u ≠ [] ∧ last_node s < 15)) as [[Hu Hl]|Hfull].
  { assert (s1 = s) as -> by (unfold s1; destruct (Z.eqb_spec (last_node s) 15); [lia|done]).
    rewrite (alloc_rest_here _ _ (rep_current _ _ _ R Hu)).
    destruct (take_node_ok s u f R Hu Hl) as (r & s' & E & R' & Hr & A). right. exists r, s', u, f. split_and!; [done..|by left]. }
  assert (last_node s = 15 ∧ u ≠ [] ∨ last_node s = -1 ∧ u = [] ∧ f = []) as Hc.
  { destruct R as [_ _ Rn Re]. destruct u; [right; naive_solver|left]. split; [|done].
    destruct (decide (last_node s = 15)); [done|]. destruct Hfull. split; [done|lia]. }
  assert (last_node s1 = -1 ∧ heap s1 = heap s ∧ reserved_blocks s1 = reserved_blocks s
    ∧ blocks s1 (u ++ f) ∧ current_block s1 = default 0 (head f)) as (Hl1 & Hh1 & Hr1 & B1 & Hc1).
  { unfold s1. destruct R as [B Rc _ _]. destruct Hc as [[E _]|(E & -> & ->)]; rewrite E; [|done].
    split_and!; [done..| |done]. by destruct B. }
  assert (∀ s' b, last_node s' = -1 → in_use s' (u ++ [b]) = in_use s u) as Hlive.
  { intros s' b Hs'. unfold in_use. rewrite Hs'. change (Z.to_nat (-1 + 1)) with 0%nat.
    destruct Hc as [[E Hu]|(E & -> & _)]; rewrite E; [by apply live_next_block|done]. }
  destruct f as [|f0 fr].
  - rewrite app_nil_r in B1. pose proof (new_block_ok s1 u B1 Hl1) as Hnew. rewrite app_nil_r in Hn.
    specialize (Hnew Hn). rewrite Hh1 in Hnew. destruct (my_malloc (heap s)) as [ak|] eqn:Hm.
    + destruct Hnew as (s2 & a & E & R2 & Ha & Hr2 & Hl2 & Hs2). right.
      rewrite (alloc_rest_new _ s1 s2 Hc1 E).
      destruct (take_node_ok s2 (u ++ [a]) [] R2) as (r & s' & E' & R' & Hr' & A); [by destruct u|lia|].
      exists r, s', (u ++ [a]), []. split_and!; [done|done|congruence| |eauto 10].
      apply (allocated_next s s2); [by apply Hlive| | |done].
      * intros c j Hc' . rewrite (node_at_same s1 s2 u) by done. unfold node_at. by rewrite Hh1.
      * intros c. set_solver.
    + left. rewrite (alloc_rest_fail _ s1 Hc1 Hnew). split_and!; [|done|naive_solver|done].
      transitivity (Some (0, Allocator (heap s) (reserved_blocks s) (first_block s) (last_block s)
                               (current_block s) (last_node s) (block_num s))); [|by destruct s].
      unfold s1. destruct Hc as [[E Hu]|(E & -> & _)]; rewrite E; cbn.
      * by rewrite (proj2 (Z.eqb_neq _ _) (rep_current _ _ _ R Hu)).
      * rewrite (r_current _ _ _ R). cbn. by rewrite E.
  - destruct Hc as [[E Hu]|(_ & _ & ?)]; [|done]. right.
    assert (rep s1 (u ++ [f0]) fr) as R1.
    { split; [by rewrite <- app_assoc|by rewrite last_snoc_list|lia|]. intros E0. by destruct u. }
    rewrite (alloc_rest_here _ _ (rep_current _ _ _ R1 ltac:(by destruct u))).
    destruct (take_node_ok s1 (u ++ [f0]) fr R1) as (r & s' & E' & R' & Hr' & A); [by destruct u|lia|].
    exists r, s', (u ++ [f0]), fr. split_and!; [done|done|congruence| |left; by rewrite <- app_assoc].
    apply (allocated_next s s1); [by apply Hlive| |set_solver|done]. intros c j _. unfold node_at. by rewrite Hh1.
Qed.

(** *** Freeing *)

Lemma free_loop_ok r : ∀ s p n0 fuel, chain (heap s) p r 0 → NoDup r → 0 ∉ r → 0 ≤ n0 →
  block_num s = n0 + Z.of_nat (length r) → block_num s < 2 ^ 32 → (length r < fuel)%nat →
  ∃ d r' h', r = d ++ r'
    ∧ free_loop fuel p s = Some (default 0 (head r'),
        Allocator h' (reserved_blocks s) (first_block s) (last_block s) (current_block s) (last_node s)
          (n0 + Z.of_nat (length r')))
    ∧ (∀ b, h' !! b = if bool_decide (b ∈ d) then None else heap s !! b)
    ∧ (r' = [] ∨ n0 + Z.of_nat (length r') ≤ reserved_blocks s)
    ∧ (d = [] ∨ reserved_blocks s ≤ n0 + Z.of_nat (length r')).
Proof.
  induction r as [|x r IH]; intros s p n0 fuel Hc Hn H0 Hn0 Hb Hs Hf.
  - cbn in Hc. subst p. destruct fuel as [|fuel]; [lia|]. exists [], [], (heap s). split; [done|].
    cbn [free_loop]. erewrite bind_ok by reflexivity. rewrite andb_false_r. split; [|by auto].
    destruct s. cbn in *. rewrite Z.add_0_r in *. by subst.
  - destruct fuel as [|fuel]; [lia|]. destruct Hc as (-> & k & Hk & _ & Hc).
    apply NoDup_cons in Hn as [Hx Hn]. apply not_elem_of_cons in H0 as [Hx0 H0]. cbn [length] in *.
    cbn [free_loop]. erewrite bind_ok by reflexivity. unfold id. rewrite (proj2 (Z.eqb_neq x 0)) by done.
    destruct (Z.ltb_spec (reserved_blocks s) (block_num s)) as [Hlt|Hge]; cbn [andb negb].
    + erewrite bind_ok by (apply get_next_ok; exact Hk).
      set (s1 := Allocator (delete x (heap s)) (reserved_blocks s) (first_block s) (last_block s) (current_block s)
                   (last_node s) (block_num s - 1)).
      assert (free_block x s = Some (tt, s1)) as ->%(bind_ok _ (λ _, free_loop fuel (blk_next k))).
      { unfold free_block, get_block. erewrite bind_ok by (apply gets_opt_ok; exact Hk).
        do 2 erewrite bind_ok by reflexivity. unfold s1. cbn. unfold to_uint32.
        rewrite wrap_id; [done|]. unfold in_u. lia. }
      destruct (IH s1 (blk_next k) n0 fuel) as (d & r' & h' & -> & E & Hh & Hr & Hd); [|done|done|done|cbn; lia|cbn; lia|lia|].
      { apply (chain_ext (heap s)); [|done]. intros b Hb'. cbn. apply lookup_delete_ne. set_solver. }
      exists (x :: d), r', h'. split; [done|]. split; [exact E|]. split; [|split; [done|]].
      * intros b. rewrite Hh. cbn. destruct (decide (b = x)) as [->|Hne].
        -- rewrite lookup_delete_eq, bool_decide_true with (P := x ∈ x :: d) by by left. by destruct (bool_decide _).
        -- rewrite lookup_delete_ne by done. erewrite bool_decide_ext; [done|]. set_solver.
      * right. cbn in *. destruct Hd as [->|]; [|done]. cbn in *. lia.
    + exists [], (x :: r), (heap s). split; [done|]. cbn [length]. split; [|split; [done|split; [right; lia|by left]]].
      rewrite <- Hb. cbn. by destruct s.
Qed.

(** [blocks] of another chain of the same blocks, or of fewer. *)
Lemma blocks_of s s' l l' : blocks s l → chain (heap s') (first_block s') l' 0 →
  NoDup l' → (∀ b, b ∈ l' → b ∈ l) → (∀ b, is_Some (heap s' !! b) ↔ b ∈ l') →
  last_block s' = List.last l' 0 → block_num s' = Z.of_nat (length l') → (length l' ≤ length l)%nat →
  blocks s' l'.
Proof.
  intros [Bc Bn Bd Ba Br Bl Bm Bs] Hc Hn Hsub Hd Hl Hm Hle. split; try done; [by auto|by auto|lia].
Qed.

(** The chain after the blocks [d] behind [x] were freed. *)
Lemma freed_tail s l x d r kx h cur ln : blocks s (l ++ x :: d ++ r) → heap s !! x = Some kx →
  (∀ b, h !! b = if bool_decide (b ∈ d) then None else heap s !! b) →
  let s' := Allocator (<[x := Mk_block (default 0 (head r)) (nodes kx)]> h) (reserved_blocks s) (first_block s)
              (if default 0 (head r) =? 0 then x else last_block s) cur ln (Z.of_nat (length l) + 1 + Z.of_nat (length r)) in
  blocks s' (l ++ x :: r) ∧ same_nodes s s' (l ++ x :: r).
Proof.
  intros B Hkx Hh s'. pose proof (b_nodup _ _ B) as Hnd. apply NoDup_app in Hnd as (Hnd1 & Hnd2 & [Hxr Hndr]%NoDup_cons).
  pose proof Hndr as (Hndd & Hdr & Hndr')%NoDup_app.
  pose proof (b_chain _ _ B) as Hch. apply chain_app in Hch as (m & Hac & -> & k' & Hk' & Hk16 & Hr). rewrite Hkx in Hk'. injection Hk' as <-.
  assert (∀ b, b ∈ l ++ x :: r → b ≠ x → heap s' !! b = heap s !! b) as Hsame.
  { intros b Hb Hbx. unfold s'. cbn [heap]. rewrite lookup_insert_ne, Hh, bool_decide_false; [done| |done].
    intros Hbd. apply elem_of_app in Hb as [Hb|[->|Hb]%elem_of_cons]; [|done|].
    - apply (Hnd2 b Hb). set_solver.
    - by apply (Hdr b). }
  split.
  - apply (blocks_of s _ _ _ B); cbn.
    + apply chain_app. exists x. split.
      { apply (chain_ext (heap s)); [|done]. intros b Hb. apply Hsame; [set_solver|]. intros ->.
        apply (Hnd2 x Hb). by left. }
      split; [done|]. eexists. split_and!; [exact (lookup_insert_eq _ _ _)|exact Hk16|].
      apply chain_app in Hr as (m & _ & Hr'). pose proof (chain_hd _ _ _ _ Hr') as ->. cbn.
      apply (chain_ext (heap s)); [|done]. intros b Hb. apply Hsame; set_solver.
    + apply NoDup_app. split_and!; [done|set_solver|]. apply NoDup_cons. split; [set_solver|done].
    + set_solver.
    + intros b. rewrite lookup_insert_is_Some', Hh. destruct (bool_decide_reflect (b ∈ d)) as [Hbd|Hbd].
      * split; [intros [->|[? [=]]]; set_solver|]. intros Hb. exfalso.
        apply elem_of_app in Hb as [Hb|[->|Hb]%elem_of_cons]; [apply (Hnd2 b Hb); set_solver|set_solver|by apply (Hdr b)].
      * rewrite (b_dom _ _ B). set_solver.
    + destruct r as [|y r'].
      * cbn. by rewrite last_snoc_list.
      * cbn [head]. change (default 0 (Some y)) with y. rewrite (proj2 (Z.eqb_neq y 0)).
        { rewrite (b_last _ _ B), app_comm_cons, app_assoc. by rewrite !last_app_cons. }
        intros ->. apply (b_zero _ _ B). set_solver.
    + rewrite !length_app. cbn. lia.
    + rewrite !length_app. cbn. rewrite length_app. lia.
  - intros b Hb. destruct (decide (b = x)) as [->|Hbx]; [|by rewrite Hsame].
    unfold s'. cbn. by rewrite lookup_insert_eq, Hkx.
Qed.

Lemma free_blocks_ok s a c r fuel : blocks s (a ++ c :: r) → current_block s = c → (length r < fuel)%nat →
  ∃ s' r', free_blocks fuel s = Some (tt, s') ∧ blocks s' (a ++ c :: r')
    ∧ current_block s' = c ∧ last_node s' = last_node s ∧ reserved_blocks s' = reserved_blocks s
    ∧ same_nodes s s' (a ++ c :: r')
    ∧ (r' = r ∨ reserved_blocks s ≤ block_num s')
    ∧ (∃ x d, r = x ++ d ++ drop (length x) r' ∧ x = take 1 r ∧ x = take 1 r')
    ∧ block_num s' ≤ reserved_blocks s `max` (Z.of_nat (length a) + 2).
Proof.
  intros B Hc Hf. destruct (blocks_at s a c r B) as (kc & Hkc & _ & Hnc).
  unfold free_blocks. erewrite bind_ok by reflexivity. rewrite Hc.
  rewrite (proj2 (Z.eqb_neq c 0)) by (intros ->; apply (b_zero _ _ B); set_solver).
  erewrite bind_ok by (apply get_next_ok; exact Hkc). rewrite Hnc.
  destruct r as [|x r].
  { exists s, []. split; [done|]. split_and!; try done; [by left|by exists [], []|].
    rewrite (b_num _ _ B), length_app. cbn. lia. }
  change (default 0 (head (x :: r))) with x. pose proof (b_nodup _ _ B) as Hnd.
  rewrite (proj2 (Z.eqb_neq x 0)) by (intros ->; apply (b_zero _ _ B); set_solver).
  assert (a ++ c :: x :: r = (a ++ [c]) ++ x :: r) as El by by rewrite <- app_assoc.
  rewrite El in B. destruct (blocks_at s _ x r B) as (kx & Hkx & Hkx16 & Hnx).
  erewrite bind_ok by (apply get_next_ok; exact Hkx).
  pose proof (b_chain _ _ B) as Hch. apply chain_app in Hch as (m & Hac & -> & k' & Hk' & _ & Hr).
  rewrite Hkx in Hk'. injection Hk' as <-. rewrite El in Hnd. apply NoDup_app in Hnd as (Hnd1 & Hnd2 & Hnd3).
  apply NoDup_cons in Hnd3 as [Hxr Hndr].
  pose proof (b_num _ _ B) as Hm. rewrite length_app in Hm. cbn [length] in Hm.
  destruct (free_loop_ok r s (blk_next kx) (Z.of_nat (length (a ++ [c])) + 1) fuel) as (d & r' & h' & -> & E & Hh & Hs & Hd);
    [done|done| |lia|lia| |cbn in Hf; lia|].
  { intros H0. apply (b_zero _ _ B). set_solver. }
  { pose proof (b_small _ _ B) as Hsm. rewrite length_app in Hsm. cbn [length] in Hsm. lia. }
  erewrite bind_ok by exact E.
  assert (h' !! x = Some kx) as Hx' by (rewrite Hh, bool_decide_false by set_solver; done).
  erewrite bind_ok by (erewrite set_block_next_ok by exact Hx'; reflexivity). cbn [heap].
  destruct (freed_tail s (a ++ [c]) x d r' kx h' (current_block s) (last_node s) B Hkx Hh) as [B' N']. set (s' := Allocator _ _ _ _ _ _ _) in B', N'.
  exists s', (x :: r'). replace (a ++ c :: x :: r') with ((a ++ [c]) ++ x :: r') by by rewrite <- app_assoc.
  split; [by unfold s'; destruct (_ =? 0)|]. split_and!; try done.
  - destruct Hd as [->|Hd]; [by left|right; done].
  - by exists [x], d.
  - cbn. rewrite length_app. cbn. destruct Hs as [->|Hs]; cbn; [lia|]. rewrite length_app in Hs. cbn in Hs. lia.
Qed.

Lemma free_all_nodes_ok s u f fuel : rep s u f → (length (u ++ f) < fuel)%nat →
  ∃ s' u' f', free_all_nodes fuel s = Some (0, s') ∧ rep s' u' f' ∧ in_use s' u' = []
    ∧ reserved_blocks s' = reserved_blocks s
    ∧ block_num s' ≤ reserved_blocks s `max` 2
    ∧ (block_num s' = block_num s ∨ reserved_blocks s ≤ block_num s').
Proof.
  intros [B Rc Rn Re] Hf. unfold free_all_nodes. do 3 erewrite bind_ok by reflexivity.
  destruct (u ++ f) as [|c r] eqn:El.
  - apply app_eq_nil in El as [-> ->]. destruct (Re eq_refl) as [_ Hl].
    pose proof (b_chain _ _ B) as Hc. cbn in Hc. rewrite Hc.
    eexists _, [], []. split; [reflexivity|]. split; [|split_and!; try done; [|by left]].
    + split; [by destruct B|done|cbn; lia|done].
    + cbn. rewrite (b_num _ _ B). cbn. lia.
  - pose proof (chain_hd _ _ _ _ (b_chain _ _ B)) as Hfirst. cbn in Hfirst.
    set (s1 := Allocator (heap s) (reserved_blocks s) (first_block s) (last_block s) c (-1) (block_num s)).
    match goal with |- context [bind (free_blocks fuel) _ ?st] => assert (st = s1) as -> end.
    { unfold s1. cbn. by rewrite Hfirst. }
    assert (blocks s1 ([] ++ c :: r)) as B1 by (by destruct B).
    destruct (free_blocks_ok s1 [] c r fuel B1 eq_refl) as (s' & r' & E & B' & Hc' & Hl' & Hr' & _ & Hk & _ & Hb);
      [cbn in Hf; lia|].
    erewrite bind_ok by exact E.
    exists s', [c], r'. split; [done|]. split; [|split_and!; try done].
    + split; [done|done|rewrite Hl'; cbn; lia|done].
    + unfold in_use. by rewrite Hl'.
    + destruct Hk as [->|]; [left|by right]. by rewrite (b_num _ _ B'), (b_num _ _ B).
Qed.

(** The test of [free_nodes_before] finds exactly the block of the node. *)
Lemma block_test s l x b i : blocks s l → x ∈ l → b ∈ l → 0 ≤ i < 16 →
  (node_addr x 0 <=? node_addr b i) && (node_addr b i <=? node_addr x BLOCK_TRANX_NODES) = bool_decide (x = b).
Proof.
  intros B Hx Hb Hi. destruct (decide (x = b)) as [->|Hne].
  - rewrite bool_decide_true by done. unfold node_addr, sizeof_Tranx_node, FN_REFLEN, BLOCK_TRANX_NODES. lia.
  - rewrite bool_decide_false by done. pose proof (b_apart _ _ B x b Hx Hb Hne) as Ha.
    unfold apart, sizeof_Block, node_addr, sizeof_Tranx_node, FN_REFLEN, BLOCK_TRANX_NODES in *. lia.
Qed.

(** The search passes the blocks before the one of the node. *)
Lemma find_block_pass dbug s b i q f p : ∀ a fuel, rep s (a ++ p ++ b :: q) f → 0 ≤ i < 16 →
  find_block dbug (length p + fuel) (node_addr b i) (List.last a 0) (default 0 (head (p ++ [b]))) s
  = find_block dbug fuel (node_addr b i) (List.last (a ++ p) 0) b s.
Proof.
  induction p as [|x p IH]; intros a fuel R Hi; [by rewrite app_nil_r|].
  replace (a ++ x :: p) with ((a ++ [x]) ++ p) by by rewrite <- app_assoc.
  rewrite <- IH; [|by rewrite <- app_assoc|done]. rewrite last_snoc_list.
  pose proof (r_blocks _ _ _ R) as B.
  assert (∃ u0 c, (a ++ (x :: p) ++ b :: q) = u0 ++ [c]) as (u0 & c & Eu).
  { destruct (exists_last (l := a ++ (x :: p) ++ b :: q)) as (u0 & c & E); [by destruct a|]. eauto. }
  pose proof (r_current _ _ _ R) as Rc. pose proof B as Bc. rewrite Eu in Rc, Bc. rewrite last_snoc_list in Rc.
  rewrite <- app_assoc in Bc. destruct (blocks_at s u0 c f Bc) as (kc & Hkc & _ & Hnc).
  assert ((a ++ (x :: p) ++ b :: q) ++ f = a ++ x :: (p ++ b :: q) ++ f) as E2 by by rewrite <- app_assoc.
  rewrite E2 in B. destruct (blocks_at s a x _ B) as (kx & Hkx & _ & Hnx).
  cbn [length Nat.add app head]. change (default 0 (Some x)) with x. cbn [find_block].
  erewrite bind_ok by reflexivity. rewrite Rc. erewrite bind_ok by (apply get_next_ok; exact Hkc). rewrite Hnc.
  pose proof (b_nodup _ _ B) as Hnd.
  assert (x ≠ default 0 (head f)) as Hstop.
  { destruct f as [|y f]; cbn; [intros ->; apply (b_zero _ _ B); set_solver|]. intros ->.
    apply NoDup_app in Hnd as (_ & _ & Hnd). apply NoDup_cons in Hnd as [Hy _]. apply Hy. set_solver. }
  rewrite (proj2 (Z.eqb_neq _ _)) by done. unfold get_block. erewrite bind_ok by (apply gets_opt_ok; exact Hkx).
  assert (x ≠ b) as Hxb.
  { intros ->. apply NoDup_app in Hnd as (_ & _ & Hnd). apply NoDup_cons in Hnd as [Hy _]. apply Hy. set_solver. }
  rewrite (block_test s _ x b i B), bool_decide_false by (set_solver || done).
  erewrite bind_ok by (apply get_next_ok; exact Hkx). rewrite Hnx. by destruct p.
Qed.

(** The blocks before [b] are moved to the rear. *)
Lemma rotate_ok s p y b q : blocks s ((p ++ [y]) ++ b :: q) →
  ∃ h', (∀ fuel, (last <- gets last_block ;; set_next last (first_block s) ;; set_first_block b ;;
           set_last_block y ;; set_next y 0 ;; free_blocks fuel) s
         = free_blocks fuel (Allocator h' (reserved_blocks s) b y (current_block s) (last_node s) (block_num s)))
    ∧ blocks (Allocator h' (reserved_blocks s) b y (current_block s) (last_node s) (block_num s)) (b :: q ++ p ++ [y])
    ∧ ∀ x, nodes <$> h' !! x = nodes <$> heap s !! x.
Proof.
  intros B. destruct (exists_last (l := b :: q)) as (q0 & z & Eq); [done|].
  pose proof (b_nodup _ _ B) as Hnd. pose proof Hnd as (Hnp & Hpq & Hnq)%NoDup_app.
  pose proof (b_chain _ _ B) as (m & Hcp & Hcq)%chain_app.
  pose proof (chain_hd _ _ _ _ Hcq) as Hm. cbn in Hm. subst m.
  destruct (blocks_at s p y (b :: q)) as (ky & Hky & Hky16 & _); [by rewrite <- app_assoc in B|].
  rewrite Eq in B, Hpq, Hnq, Hcq. rewrite app_assoc in B. destruct (blocks_at s _ z [] B) as (kz & Hkz & Hkz16 & _).
  assert (y ≠ z) as Hyz by (intros ->; apply (Hpq z); set_solver).
  exists (<[y := Mk_block 0 (nodes ky)]> (<[z := Mk_block (first_block s) (nodes kz)]> (heap s))).
  split; [|split].
  - intros fuel. erewrite bind_ok by reflexivity. rewrite (b_last _ _ B), last_snoc_list.
    erewrite bind_ok by (erewrite set_block_next_ok by exact Hkz; reflexivity).
    do 2 (erewrite bind_ok by reflexivity).
    by erewrite bind_ok by (erewrite set_block_next_ok by (cbn; rewrite lookup_insert_ne by done; exact Hky); reflexivity).
  - assert (b :: q ++ p ++ [y] ≡ₚ (p ++ [y]) ++ q0 ++ [z]) as Hp.
    { rewrite <- Eq. rewrite app_comm_cons, Eq. apply Permutation_app_comm. }
    rewrite <- app_assoc in B.
    apply (blocks_of s _ _ _ B); cbn [heap first_block last_block block_num].
    + rewrite app_comm_cons, Eq. apply chain_app. exists (first_block s). split.
      * apply chain_frame; [intros Hy; apply (Hpq y); set_solver|]. by apply (chain_set_next _ _ _ _ 0).
      * apply (chain_set_next _ _ _ _ b); [|done|by rewrite lookup_insert_ne].
        apply chain_frame; [intros Hz; apply (Hpq z); set_solver|done].
    + rewrite Hp. apply (b_nodup _ _ B).
    + intros x. by rewrite Hp.
    + intros x. rewrite !lookup_insert_is_Some', Hp, <- (b_dom _ _ B). naive_solver.
    + rewrite app_comm_cons, app_assoc. by rewrite last_snoc_list.
    + rewrite (b_num _ _ B). by rewrite Hp.
    + by rewrite Hp.
  - intros x. destruct (decide (x = y)) as [->|]; [by rewrite lookup_insert_eq, Hky|].
    rewrite lookup_insert_ne by done. destruct (decide (x = z)) as [->|]; [by rewrite lookup_insert_eq, Hkz|].
    by rewrite lookup_insert_ne.
Qed.

(** What [free_nodes_before] promises. *)
Definition freed_before (s s' : Tranx_node_allocator) (used used' : list Z) (node : Z) : Prop :=
  (∃ dropped, in_use s used = dropped ++ in_use s' used')
  ∧ (∃ k, (k < 16)%nat ∧ in_use s' used' !! k = Some node)
  ∧ (∀ b i, b ∈ used' → node_at s' b i = node_at s b i)
  ∧ (block_num s' = block_num s ∨
     reserved_blocks s ≤ block_num s' ≤ reserved_blocks s `max` (Z.of_nat (length used') + 1)).

Lemma live_app p u n : u ≠ [] → ∃ x, live (p ++ u) n = x ++ live u n.
Proof.
  intros Hu. induction p as [|b p [x IH]]; [by exists []|]. cbn [app live].
  destruct (p ++ u) eqn:E; [by destruct p, u|]. rewrite IH. eexists. by rewrite app_assoc.
Qed.

Lemma elem_of_in_use s u f node : rep s u f → node ∈ in_use s u →
  ∃ p b q i, u = p ++ b :: q ∧ node = node_addr b (Z.of_nat i) ∧ (i < 16)%nat
             ∧ in_use s (b :: q) !! i = Some node.
Proof.
  intros [B _ Rn _]. unfold in_use. set (n := Z.to_nat (last_node s + 1)). assert (n ≤ 16)%nat as Hn by lia. clearbody n.
  assert (∀ b m i r, (i < m)%nat → (addrs b m ++ r) !! i = Some (node_addr b (Z.of_nat i))) as Hat.
  { intros b m i r Hi. unfold addrs. rewrite lookup_app_l by (rewrite length_fmap, length_seq; lia).
    rewrite list_lookup_fmap, lookup_seq_lt by done. done. }
  clear B. induction u as [|b u IH]; [intros H; by apply elem_of_nil in H|]. cbn [live].
  destruct u as [|c u].
  - intros (i & Hi & ->)%elem_of_addrs. exists [], b, [], (Z.to_nat i).
    rewrite Z2Nat.id by lia. split_and!; [done|done|lia|].
    specialize (Hat b n (Z.to_nat i) []). rewrite app_nil_r, Z2Nat.id in Hat by lia. apply Hat. lia.
  - intros [(i & Hi & ->)%elem_of_addrs|H]%elem_of_app.
    + unfold BLOCK_TRANX_NODES in Hi. exists [], b, (c :: u), (Z.to_nat i).
      rewrite Z2Nat.id by lia. split_and!; [done|done|lia|]. cbn [live].
      specialize (Hat b 16%nat (Z.to_nat i) (live (c :: u) n)). rewrite Z2Nat.id in Hat by lia. apply Hat. lia.
    + destruct (IH H) as (p & b' & q & i & E & ? & ? & ?). exists (b :: p), b', q, i. by rewrite E.
Qed.

Lemma free_nodes_before_ok dbug s u f node fuel : rep s u f → node ∈ in_use s u →
  (2 * length (u ++ f) < fuel)%nat →
  ∃ s' u' f', free_nodes_before dbug fuel node s = Some (0, s') ∧ rep s' u' f'
    ∧ reserved_blocks s' = reserved_blocks s ∧ freed_before s s' u u' node.
Proof.
  intros R Hin Hf. destruct (elem_of_in_use s u f node R Hin) as (p & b & q & i & -> & -> & Hi & Hat).
  pose proof R as [B Rc Rn _]. unfold free_nodes_before. erewrite bind_ok by reflexivity.
  assert (first_block s = default 0 (head (p ++ [b]))) as Hfirst.
  { rewrite (chain_hd _ _ _ _ (b_chain _ _ B)), <- app_assoc. by destruct p. }
  rewrite !length_app in Hf. cbn in Hf.
  replace fuel with (length p + (fuel - length p))%nat by lia. set (g := (fuel - length p)%nat).
  assert (length (q ++ f ++ p) < g)%nat as Hg by (rewrite !length_app; lia). clearbody g.
  rewrite Hfirst. pose proof (find_block_pass dbug s b (Z.of_nat i) q f p [] g R ltac:(lia)) as Hp.
  cbn [List.last app] in Hp. rewrite Hp. destruct g as [|g]; [lia|]. cbn [find_block].
  destruct (exists_last (l := b :: q)) as (q0 & c & Eq); [done|].
  assert (p ++ b :: q = (p ++ q0) ++ [c]) as Eu by by rewrite Eq, app_assoc.
  pose proof B as Bc. rewrite Eu in Bc, Rc. rewrite last_snoc_list in Rc. rewrite <- app_assoc in Bc.
  destruct (blocks_at s _ c f Bc) as (kc & Hkc & _ & Hnc).
  pose proof B as Bb. rewrite <- app_assoc in Bb. cbn in Bb. destruct (blocks_at s p b _ Bb) as (kb & Hkb & _ & _).
  erewrite bind_ok by reflexivity. rewrite Rc. erewrite bind_ok by (apply get_next_ok; exact Hkc). rewrite Hnc.
  pose proof (b_nodup _ _ Bb) as Hnd.
  assert (b ≠ default 0 (head f)) as Hstop.
  { destruct f as [|y f]; cbn; [intros ->; apply (b_zero _ _ Bb); set_solver|]. intros ->.
    apply NoDup_app in Hnd as (_ & _ & Hnd). apply NoDup_cons in Hnd as [Hy _]. apply Hy. set_solver. }
  rewrite (proj2 (Z.eqb_neq _ _)) by done. unfold get_block. erewrite bind_ok by (apply gets_opt_ok; exact Hkb).
  rewrite (block_test s _ b b (Z.of_nat i) Bb), bool_decide_true by (set_solver || done || lia).
  erewrite bind_ok by reflexivity.
  destruct p as [|y p _] using rev_ind.
  { rewrite Hfirst. cbn. rewrite Z.eqb_refl. exists s, (b :: q), f. split; [done|].
    split; [done|]. split; [done|]. split_and!; [by exists []|by exists i|done|by left]. }
  assert (first_block s ≠ b) as Hfb.
  { rewrite Hfirst. intros E. apply NoDup_app in Hnd as (_ & Hnd & _). apply (Hnd b); [|by left].
    rewrite <- E. destruct p; cbn; set_solver. }
  rewrite (proj2 (Z.eqb_neq _ _)) by done. cbn [negb]. rewrite last_snoc_list.
  destruct (rotate_ok s p y b (q ++ f) Bb) as (h' & Eh & B1 & Hnodes).
  set (s1 := Allocator h' _ _ _ _ _ _) in *.
  assert (b :: (q ++ f) ++ p ++ [y] = q0 ++ c :: f ++ p ++ [y]) as El.
  { change (b :: (q ++ f) ++ p ++ [y]) with ((b :: q ++ f) ++ p ++ [y]). rewrite app_comm_cons, Eq.
    by rewrite <- !app_assoc. }
  rewrite El in B1.
  destruct (free_blocks_ok s1 q0 c (f ++ p ++ [y]) (S g) B1 Rc) as (s' & r' & E & B' & Hc' & Hl' & Hr' & Hsn & Hk & _ & Hb).
  { rewrite !length_app in *. cbn in *. lia. }
  erewrite bind_ok by (rewrite Eh; exact E). cbn in Hl', Hr', Hk, Hb.
  assert (in_use s' (b :: q) = in_use s (b :: q)) as Hiu by (unfold in_use; by rewrite Hl').
  assert ((b :: q) ++ r' = q0 ++ c :: r') as El' by (rewrite Eq; by rewrite <- app_assoc).
  exists s', (b :: q), r'. split; [done|]. split; [|split; [done|]].
  - split; [by rewrite El'|by rewrite Eq, last_snoc_list|lia|done].
  - split_and!.
    + destruct (live_app (p ++ [y]) (b :: q) (Z.to_nat (last_node s + 1))) as [x Hx]; [done|].
      exists x. by rewrite Hiu.
    + exists i. split; [lia|by rewrite Hiu].
    + intros x j Hx. transitivity (node_at s1 x j).
      * apply (node_at_same _ _ _ _ _ Hsn). rewrite <- El'. set_solver.
      * specialize (Hnodes x). unfold node_at, s1. cbn [heap].
        destruct (h' !! x), (heap s !! x); cbn in *; by simplify_eq/=; rewrite ?Hnodes.
    + assert (length (b :: q) = S (length q0)) as Hlen by (rewrite Eq, length_app; cbn; lia).
      rewrite Hlen. destruct Hk as [->|Hk]; [left|right; lia].
      rewrite (b_num _ _ B'), (b_num _ _ B), <- El. f_equal. cbn. repeat (rewrite length_app; cbn). lia.
Qed.

(** *** The destructor *)

Lemma dtor_ok s l fuel : blocks s l → (length l < fuel)%nat →
  ∃ s', dtor fuel s = Some (tt, s') ∧ heap s' = ∅ ∧ block_num s' = 0.
Proof.
  intros B Hf. unfold dtor. erewrite bind_ok by reflexivity.
  assert (∀ l s p fuel, chain (heap s) p l 0 → NoDup l → 0 ∉ l → (∀ b, is_Some (heap s !! b) ↔ b ∈ l) →
    block_num s = Z.of_nat (length l) → Z.of_nat (length l) < 2 ^ 32 → (length l < fuel)%nat →
    ∃ s', dtor_loop fuel p s = Some (tt, s') ∧ heap s' = ∅ ∧ block_num s' = 0) as Hl.
  { clear. induction l as [|x l IH]; intros s p fuel Hc Hn H0 Hd Hb Hs Hf; (destruct fuel as [|fuel]; [lia|]).
    - cbn in Hc. subst p. exists s. split; [done|]. split; [|done]. apply map_empty. intros b.
      destruct (heap s !! b) eqn:E; [|done]. assert (b ∈ @nil Z) as H by (apply Hd; eauto). by apply elem_of_nil in H.
    - destruct Hc as (-> & k & Hk & _ & Hc). apply NoDup_cons in Hn as [Hx Hn].
      apply not_elem_of_cons in H0 as [Hx0 H0]. cbn [dtor_loop]. rewrite (proj2 (Z.eqb_neq x 0)) by done. cbn [negb].
      erewrite bind_ok by (apply get_next_ok; exact Hk).
      set (s1 := Allocator (delete x (heap s)) (reserved_blocks s) (first_block s) (last_block s) (current_block s)
                   (last_node s) (Z.of_nat (length l))).
      assert (free_block x s = Some (tt, s1)) as E.
      { unfold free_block, get_block. erewrite bind_ok by (apply gets_opt_ok; exact Hk).
        do 2 erewrite bind_ok by reflexivity. unfold s1. cbn. rewrite Hb. unfold to_uint32. cbn [length] in *.
        replace (Z.of_nat (S (length l)) - 1) with (Z.of_nat (length l)) by lia.
        by rewrite wrap_id by (unfold in_u; lia). }
      erewrite bind_ok by exact E. apply (IH s1); [|done|done| |done|cbn [length] in Hs; lia|cbn [length] in Hf; lia].
      + apply (chain_ext (heap s)); [|done]. intros b Hb'. cbn. apply lookup_delete_ne. set_solver.
      + intros b. cbn. destruct (decide (b = x)) as [->|].
        * rewrite lookup_delete_eq. split; [by intros [? [=]]|done].
        * rewrite lookup_delete_ne, Hd by done. set_solver. }
  destruct B as [Bc Bn Bd Ba Br Bl Bm Bs]. apply (Hl l); [done|done| |done..].
  intros H0. destruct (Br 0 H0). lia.
Qed.

Lemma ctor_ok n : in_u 32 n → rep (ctor n) [] [] ∧ n ≤ reserved_blocks (ctor n) * BLOCK_TRANX_NODES.
Proof.
  unfold in_u, BLOCK_TRANX_NODES. change (2 ^ 32) with 4294967296. intros Hn. split.
  - split; [split; cbn|done|cbn; lia|done]; try done.
    + constructor.
    + intros b. rewrite lookup_empty. split; [by intros [? [=]]|intros H; by apply elem_of_nil in H].
    + intros a b H. by apply elem_of_nil in H.
    + intros b H. by apply elem_of_nil in H.
  - cbn [ctor reserved_blocks]. unfold to_uint32, BLOCK_TRANX_NODES. pose proof (Z.div_mod n 16). pose proof (Z.mod_pos_bound n 16).
    rewrite wrap_id.
    + destruct (Z.ltb_spec 1 (n mod 16)); lia.
    + unfold in_u. change (2 ^ 32) with 4294967296. destruct (Z.ltb_spec 1 (n mod 16)); lia.
Qed.

(** ** Theorems *)

(** C8: The allocator implements a queue of nodes.  Allocating gives a
    node at a new address, with its members reset, behind all the nodes in use,
    and touches no other node; it fails only when a block is needed and memory is
    out, and then changes nothing.  [free_all_nodes] empties the queue;
    [free_nodes_before] drops only nodes before the given one, which stays in use
    with at most 15 nodes before it, in whatever block it is, and keeps the
    contents of the rest.  No node is in use twice, the blocks of the chain
    are all the memory there is, blocks are returned only above the reserve, and
    after a block has been moved to the rear at most the reserve or one block
    behind the nodes in use remain; the destructor returns everything, and the
    reserve is large enough for the number of nodes the constructor is given. *)
Theorem tranx_allocator_refines dbug s u f node fuel (R : rep s u f)
    (Hn : Z.of_nat (S (length (u ++ f))) < 2 ^ 32) (Hf : (2 * length (u ++ f) < fuel)%nat) :
  NoDup (in_use s u) ∧ (∀ b, is_Some (heap s !! b) ↔ b ∈ u ++ f)
  ∧ (allocate_node s = Some (0, s) ∧ my_malloc (heap s) = None ∧ f = [] ∧ (last_node s = 15 ∨ u = [])
     ∨ ∃ r s' u' f', allocate_node s = Some (r, s') ∧ rep s' u' f' ∧ allocated s s' u u' r)
  ∧ (∃ s' u' f', free_all_nodes fuel s = Some (0, s') ∧ rep s' u' f' ∧ in_use s' u' = []
     ∧ block_num s' ≤ reserved_blocks s `max` 2
     ∧ (block_num s' = block_num s ∨ reserved_blocks s ≤ block_num s'))
  ∧ (node ∈ in_use s u → ∃ s' u' f', free_nodes_before dbug fuel node s = Some (0, s') ∧ rep s' u' f'
     ∧ freed_before s s' u u' node)
  ∧ (∃ s', dtor fuel s = Some (tt, s') ∧ heap s' = ∅ ∧ block_num s' = 0)
  ∧ (∀ n, in_u 32 n → rep (ctor n) [] [] ∧ n ≤ reserved_blocks (ctor n) * BLOCK_TRANX_NODES).
Proof.
  pose proof (r_blocks _ _ _ R) as B. split_and!.
  - pose proof (b_nodup _ _ B) as Hnd. apply NoDup_app in Hnd as (Hu & _ & _). pose proof (r_node _ _ _ R).
    apply live_nodup; [done| |lia]. intros a b Ha Hb. apply (b_apart _ _ B); set_solver.
  - apply (b_dom _ _ B).
  - destruct (allocate_node_ok s u f R Hn) as [H|(r & s' & u' & f' & H)]; [left; naive_solver|right].
    exists r, s', u', f'. naive_solver.
  - destruct (free_all_nodes_ok s u f fuel R) as (s' & u' & f' & H); [lia|]. exists s', u', f'. naive_solver.
  - intros Hin. destruct (free_nodes_before_ok dbug s u f node fuel R Hin Hf) as (s' & u' & f' & H).
    exists s', u', f'. naive_solver.
  - apply (dtor_ok s (u ++ f)); [done|lia].
  - apply ctor_ok.
Qed.
End Code.

(** ** An instance of the interface *)

(** Memory is given from low to high addresses. *)
Module Bump.
Definition top (h : gmap Z Block) : Z := map_fold (λ b _ m, m `max` (b + sizeof_Block)) 8 h.
#[export] Instance malloc : Malloc := λ h,
  if top h + sizeof_Block <=? 2 ^ 64
  then Some (top h, Mk_block 0 (replicate 16 (Mk_node (replicate 512 0) 0 0 0))) else None.

Lemma bump_top_above h : 0 < top h ∧ ∀ b, is_Some (h !! b) → b + sizeof_Block ≤ top h.
Proof.
  unfold top. apply (map_fold_weak_ind (λ r h, 0 < r ∧ ∀ b, is_Some (h !! b) → b + sizeof_Block ≤ r)).
  - split; [lia|]. intros b. rewrite lookup_empty. by intros [? [=]].
  - intros i x m r _ [H0 H]. split; [lia|]. intros b [->|Hb]%lookup_insert_is_Some'; [lia|].
    specialize (H b Hb). lia.
Qed.

#[export] Instance malloc_laws : MallocLaws.
Proof.
  split; unfold my_malloc, malloc; intros h a blk; destruct (Z.leb_spec (top h + sizeof_Block) (2 ^ 64)); try done.
  - intros [= <- <-]. split; [apply bump_top_above|done].
  - by intros [= <- <-].
  - intros b [= <- <-] Hb. right. by apply (bump_top_above h).
Defined.
End Bump.
Import (hints) Bump.

(** After the constructor, one node is allocated, is the only one in use, and
    [free_nodes_before] it keeps it. *)
Lemma tranx_allocator_refines_witness :
  ∃ r s' u' f', allocate_node (ctor 20) = Some (r, s') ∧ rep s' u' f' ∧ in_use s' u' = [r].
Proof.
  destruct (tranx_allocator_refines true (ctor 20) [] [] 0 1) as (_ & _ & [(_ & Hm & _)|(r & s' & u' & f' & E & R & A & _)] & _).
  - apply ctor_ok. apply (bool_decide_unpack _). by vm_compute.
  - by vm_compute.
  - cbn. lia.
  - by vm_compute in Hm.
  - exists r, s', u', f'. split; [exact E|]. split; [exact R|]. by rewrite A.
Defined.
