(* ===== verification/Filesort.v ===== *)
(** The buffers of filesort: [filesort_utils.h], [class Filesort_buffer], whose
    memory holds the records from the left and the pointers to them from the
    right; [sql_sort.h], [Merge_chunk] and the lengths of packed keys and addon
    fields in [Addon_fields], [Sort_keys] and [Sort_param]. *)
From S2P Require Import Prelude CMonad ByteOrder.

Definition sizeof_pointer : Z := 8.

(** ** [class Filesort_buffer]

    [cells] is the memory that holds pointers, by address; 0 is the null pointer. *)
Record Filesort_buffer := Fsb {
  cells : gmap Z Z;
  m_next_rec_ptr : Z;
  m_rawmem : Z;
  m_record_pointers : Z;
  m_sort_keys : Z;
  m_num_records : Z;
  m_record_length : Z;
  m_sort_length : Z;
  m_size_in_bytes : Z;
  m_idx : Z }.

Definition ctor (mem : gmap Z Z) : Filesort_buffer := Fsb mem 0 0 0 0 0 0 0 0 0.

Definition set_cells (f : gmap Z Z → gmap Z Z) : M Filesort_buffer unit :=
  modify (λ b, Fsb (f (cells b)) (m_next_rec_ptr b) (m_rawmem b) (m_record_pointers b) (m_sort_keys b)
    (m_num_records b) (m_record_length b) (m_sort_length b) (m_size_in_bytes b) (m_idx b)).
Definition set_position (next keys idx : Z) : M Filesort_buffer unit :=
  modify (λ b, Fsb (cells b) next (m_rawmem b) (m_record_pointers b) keys
    (m_num_records b) (m_record_length b) (m_sort_length b) (m_size_in_bytes b) idx).
(** Reading and assigning [p[i]] of a pointer array; a read of memory that holds
    no pointer is undefined. *)
Definition read_cell (p i : Z) : M Filesort_buffer Z := gets_opt (λ b, cells b !! (p + sizeof_pointer * i)).
Definition write_cell (p i v : Z) : M Filesort_buffer unit := set_cells (<[p + sizeof_pointer * i := v]>).

Definition get_sort_keys (b : Filesort_buffer) : Z :=
  if m_idx b =? 0 then 0 else m_record_pointers b + sizeof_pointer * (1 - m_idx b).

(** The loop of [reverse_record_pointers]; the fuel is the number of turns. *)
Fixpoint reverse_loop (turns : nat) (keys count ix : Z) : M Filesort_buffer unit :=
  match turns with
  | O => ret tt
  | S turns =>
      tmp <- read_cell keys (count - ix) ;;
      k <- read_cell keys ix ;;
      write_cell keys (count - ix) k ;;
      write_cell keys ix tmp ;;
      reverse_loop turns keys count (ix + 1)
  end.
Definition reverse_record_pointers : M Filesort_buffer unit :=
  b <- gets id ;;
  if m_idx b <? 2 then ret tt else
  let keys := get_sort_keys b in
  let count := m_idx b - 1 in
  reverse_loop (Z.to_nat (Z.quot count 2 + 1)) keys count 0.

Definition init_next_record_pointer : M Filesort_buffer unit :=
  b <- gets id ;; set_position (m_rawmem b) 0 0.

Definition get_next_record_pointer : M Filesort_buffer Z :=
  b <- gets id ;;
  let retval := m_next_rec_ptr b in
  write_cell (m_record_pointers b) (- m_idx b) (m_next_rec_ptr b) ;;
  set_position (m_next_rec_ptr b + m_record_length b) (m_sort_keys b) (m_idx b + 1) ;;
  ret retval.

(** [while (m_idx < m_num_records)] of [init_record_pointers]. *)
Definition fill_loop (fuel : nat) : M Filesort_buffer unit :=
  while_loop fuel (b <- gets id ;; ret (m_idx b <? m_num_records b))
    (_ <- get_next_record_pointer ;; ret tt).
Definition init_record_pointers (fuel : nat) : M Filesort_buffer unit :=
  init_next_record_pointer ;; fill_loop fuel ;; reverse_record_pointers.

Definition adjust_next_record_pointer (val : Z) : M Filesort_buffer unit :=
  b <- gets id ;;
  set_position (m_next_rec_ptr b - to_uint32 (m_record_length b - val)) (m_sort_keys b) (m_idx b).

Definition space_used_for_data (b : Filesort_buffer) : Z :=
  if truth (m_next_rec_ptr b) then to_ulonglong (m_next_rec_ptr b - m_rawmem b) else 0.
Definition spaceleft (dbug : bool) (b : Filesort_buffer) : option Z :=
  if dbug && negb (m_rawmem b <=? m_next_rec_ptr b) then None else
  let spaceused := to_ulonglong (m_next_rec_ptr b - m_rawmem b + to_ulonglong (m_idx b) * sizeof_pointer) in
  Some (to_ulonglong (m_size_in_bytes b - spaceused)).
Definition isfull (dbug : bool) (b : Filesort_buffer) : option bool :=
  if m_idx b <? m_num_records b then Some false else
  left ← spaceleft dbug b; Some (left <? m_record_length b + sizeof_pointer).
Definition sort_buffer_size (b : Filesort_buffer) : Z := m_size_in_bytes b.
Definition is_allocated (b : Filesort_buffer) : bool := truth (m_rawmem b).
Definition reset (b : Filesort_buffer) : Filesort_buffer :=
  Fsb (cells b) (m_next_rec_ptr b) 0 (m_record_pointers b) (m_sort_keys b)
    (m_num_records b) (m_record_length b) (m_sort_length b) (m_size_in_bytes b) (m_idx b).
Definition get_sorted_record (ix : Z) : M Filesort_buffer Z :=
  b <- gets id ;; read_cell (m_sort_keys b) ix.
(** [get_raw_buf]: the address and the size of the array. *)
Definition get_raw_buf (b : Filesort_buffer) : Z * Z := (m_rawmem b, m_size_in_bytes b).
Definition get_sort_length (b : Filesort_buffer) : Z := m_sort_length b.
Definition set_sort_length (val : Z) (b : Filesort_buffer) : Filesort_buffer :=
  Fsb (cells b) (m_next_rec_ptr b) (m_rawmem b) (m_record_pointers b) (m_sort_keys b)
    (m_num_records b) (m_record_length b) val (m_size_in_bytes b) (m_idx b).

(** ** [struct Merge_chunk] *)
Record Merge_chunk := Mk_chunk {
  m_current_key : Z;
  m_file_position : Z;
  m_buffer_start : Z;
  m_buffer_end : Z;
  m_rowcount : Z;
  m_mem_count : Z;
  m_max_keys : Z }.

Definition Merge_chunk0 : Merge_chunk := Mk_chunk 0 0 0 0 0 0 0.
Definition advance_file_position (val : Z) (c : Merge_chunk) : Merge_chunk :=
  Mk_chunk (m_current_key c) (to_ulonglong (m_file_position c + val)) (m_buffer_start c) (m_buffer_end c)
    (m_rowcount c) (m_mem_count c) (m_max_keys c).
Definition set_buffer (start end_ : Z) (c : Merge_chunk) : Merge_chunk :=
  Mk_chunk (m_current_key c) (m_file_position c) start end_ (m_rowcount c) (m_mem_count c) (m_max_keys c).
Definition set_buffer_start (start : Z) (c : Merge_chunk) : Merge_chunk := set_buffer start (m_buffer_end c) c.
Definition set_buffer_end (dbug : bool) (end_ : Z) (c : Merge_chunk) : option Merge_chunk :=
  if dbug && negb ((m_buffer_end c =? 0) || (end_ <=? m_buffer_end c)) then None
  else Some (set_buffer (m_buffer_start c) end_ c).
Definition init_current_key (c : Merge_chunk) : Merge_chunk :=
  Mk_chunk (m_buffer_start c) (m_file_position c) (m_buffer_start c) (m_buffer_end c)
    (m_rowcount c) (m_mem_count c) (m_max_keys c).
Definition advance_current_key (val : Z) (c : Merge_chunk) : Merge_chunk :=
  Mk_chunk (m_current_key c + val) (m_file_position c) (m_buffer_start c) (m_buffer_end c)
    (m_rowcount c) (m_mem_count c) (m_max_keys c).
Definition set_rowcount (val : Z) (c : Merge_chunk) : Merge_chunk :=
  Mk_chunk (m_current_key c) (m_file_position c) (m_buffer_start c) (m_buffer_end c) val (m_mem_count c) (m_max_keys c).
Definition decrement_rowcount (val : Z) (c : Merge_chunk) : Merge_chunk :=
  set_rowcount (to_ulonglong (m_rowcount c - val)) c.
Definition set_mem_count (val : Z) (c : Merge_chunk) : Merge_chunk :=
  Mk_chunk (m_current_key c) (m_file_position c) (m_buffer_start c) (m_buffer_end c) (m_rowcount c) val (m_max_keys c).
Definition decrement_mem_count (c : Merge_chunk) : Z * Merge_chunk :=
  let n := to_ulonglong (m_mem_count c - 1) in (n, set_mem_count n c).
Definition set_max_keys (val : Z) (c : Merge_chunk) : Merge_chunk :=
  Mk_chunk (m_current_key c) (m_file_position c) (m_buffer_start c) (m_buffer_end c) (m_rowcount c) (m_mem_count c) val.
Definition buffer_size (c : Merge_chunk) : Z := to_ulonglong (m_buffer_end c - m_buffer_start c).

(** [this->merge_freed_buff(mc)]. *)
Definition merge_freed_buff (this mc : Merge_chunk) : bool * Merge_chunk :=
  if m_buffer_end mc =? m_buffer_start this then
    (true, set_max_keys (to_ulonglong (m_max_keys mc + m_max_keys this)) (set_buffer (m_buffer_start mc) (m_buffer_end this) mc))
  else if m_buffer_start mc =? m_buffer_end this then
    (true, set_max_keys (to_ulonglong (m_max_keys mc + m_max_keys this)) (set_buffer (m_buffer_start this) (m_buffer_end mc) mc))
  else (false, mc).

(** ** Lengths: [class Addon_fields], [class Sort_keys], [class Sort_param]

    A record is a list of bytes and an offset. *)
Module Addon_fields.
Record t := Mk { m_addon_buf : Z; m_addon_buf_length : Z; m_using_packed_addons : bool }.
Definition size_of_length_field : Z := 2.
Definition ctor : t := Mk 0 0 false.
(** [buf] is the result of [my_malloc]. *)
Definition allocate_addon_buf (buf sz : Z) (a : t) : Z * t :=
  (buf, Mk buf (if truth buf then sz else m_addon_buf_length a) (m_using_packed_addons a)).
Definition free_addon_buff (a : t) : t := Mk 0 0 (m_using_packed_addons a).
Definition set_using_packed_addons (val : bool) (a : t) : t := Mk (m_addon_buf a) (m_addon_buf_length a) val.
Definition can_pack_addon_fields (record_length : Z) : bool := record_length <=? 0xFFFF.
Definition read_addon_length (T : list Z) (p : nat) : option Z :=
  v ← X86_64.uint2korr (drop p T); Some (to_uint32 (size_of_length_field + v)).
Definition store_addon_length (T : list Z) (p : nat) (sz : Z) : option (list Z) :=
  X86_64.int2store T p (to_uint32 (sz - size_of_length_field)).
End Addon_fields.

Module Sort_keys.
Record t := Mk {
  m_using_packed_sortkeys : bool;
  size_of_packable_fields : Z;
  sort_length_with_original_values : Z;
  sort_length_with_memcmp_values : Z;
  parameters_computed : bool }.
Definition size_of_length_field : Z := 4.
Definition ctor : t := Mk false 0 0 0 false.
Definition set_using_packed_sortkeys (val : bool) (k : t) : t :=
  Mk val (size_of_packable_fields k) (sort_length_with_original_values k) (sort_length_with_memcmp_values k) (parameters_computed k).
Definition increment_size_of_packable_fields (len : Z) (k : t) : t :=
  Mk (m_using_packed_sortkeys k) (to_uint32 (size_of_packable_fields k + len)) (sort_length_with_original_values k)
    (sort_length_with_memcmp_values k) (parameters_computed k).
Definition increment_original_sort_length (len : Z) (k : t) : t :=
  Mk (m_using_packed_sortkeys k) (size_of_packable_fields k) (to_uint32 (sort_length_with_original_values k + len))
    (sort_length_with_memcmp_values k) (parameters_computed k).
Definition store_sortkey_length (T : list Z) (p : nat) (sz : Z) : option (list Z) :=
  X86_64.int4store T p (to_uint32 (sz - size_of_length_field)).
Definition read_sortkey_length (T : list Z) (p : nat) : option Z :=
  v ← X86_64.uint4korr (drop p T); Some (to_uint32 (size_of_length_field + v)).
End Sort_keys.

(** The members of [Sort_param] that the lengths depend on. *)
Record Sort_param := Mk_param {
  rec_length : Z;
  sort_length : Z;
  addon_length : Z;
  res_length : Z;
  addon_fields : option Addon_fields.t;
  sort_keys : option Sort_keys.t;
  m_using_packed_addons : bool;
  m_using_packed_sortkeys : bool;
  m_packed_format : bool }.

Section Lengths.
Context (dbug : bool).

Definition using_packed_addons (p : Sort_param) : option bool :=
  if dbug && negb (eqb (m_using_packed_addons p)
                       (match addon_fields p with Some a => Addon_fields.m_using_packed_addons a | None => false end))
  then None else Some (m_using_packed_addons p).
Definition using_packed_sortkeys (p : Sort_param) : option bool :=
  if dbug && negb (eqb (m_using_packed_sortkeys p)
                       (match sort_keys p with Some k => Sort_keys.m_using_packed_sortkeys k | None => false end))
  then None else Some (m_using_packed_sortkeys p).
Definition using_addon_fields (p : Sort_param) : bool := bool_decide (is_Some (addon_fields p)).

Definition get_result_length (p : Sort_param) (T : list Z) (plen : nat) : option Z :=
  if negb (m_using_packed_addons p) then Some (res_length p) else Addon_fields.read_addon_length T plen.
Definition get_addon_length (p : Sort_param) (T : list Z) (plen : nat) : option Z :=
  b ← using_packed_addons p;
  if b : bool then Addon_fields.read_addon_length T plen else Some (addon_length p).
Definition param_sort_length (p : Sort_param) (T : list Z) (plen : nat) : option Z :=
  b ← using_packed_sortkeys p;
  if b : bool then
    n ← Sort_keys.read_sortkey_length T plen;
    Some (to_uint32 (n + if using_addon_fields p then 0 else res_length p))
  else Some (sort_length p).
Definition get_record_length (p : Sort_param) (T : list Z) (plen : nat) : option Z :=
  if m_packed_format p then
    sort_len ← param_sort_length p T plen;
    addon_len ← get_addon_length p T (plen + Z.to_nat sort_len);
    Some (to_uint32 (sort_len + addon_len))
  else Some (rec_length p).
Definition get_rec_and_res_len (p : Sort_param) (T : list Z) (record_start : nat) : option (Z * Z) :=
  if m_packed_format p then
    sort_len ← param_sort_length p T record_start;
    addon_len ← get_addon_length p T (record_start + Z.to_nat sort_len);
    Some (to_uint32 (sort_len + addon_len), if using_addon_fields p then addon_len else res_length p)
  else Some (rec_length p, res_length p).
End Lengths.

(** ** Specification *)

(** A buffer as [alloc_sort_buffer] makes it: the first pointer is the last
    thing in it, and it has room for [m_num_records] records. *)
Record allocated (b : Filesort_buffer) : Prop := {
  al_raw : 0 < m_rawmem b;
  al_size : 0 ≤ m_size_in_bytes b < 2 ^ 63;
  al_end : m_rawmem b + m_size_in_bytes b ≤ 2 ^ 64;
  al_ptr : m_record_pointers b = m_rawmem b + m_size_in_bytes b - sizeof_pointer;
  al_len : 0 < m_record_length b < 2 ^ 32;
  al_num : 0 ≤ m_num_records b < 2 ^ 32;
  al_room : m_num_records b * (m_record_length b + sizeof_pointer) ≤ m_size_in_bytes b }.

(** The records in the buffer, with their lengths, in the order of insertion. *)
Fixpoint placed (start : Z) (lens : list Z) : list Z :=
  match lens with [] => [] | n :: r => start :: placed (start + n) r end.
Definition total (lens : list Z) : Z := foldr Z.add 0 lens.
Record holds (b : Filesort_buffer) (lens : list Z) : Prop := {
  h_alloc : allocated b;
  h_idx : m_idx b = Z.of_nat (length lens);
  h_next : m_next_rec_ptr b = m_rawmem b + total lens;
  h_lens : Forall (λ n, 0 ≤ n ≤ m_record_length b) lens;
  h_fit : total lens + sizeof_pointer * Z.of_nat (length lens) ≤ m_size_in_bytes b;
  h_cells : ∀ i a, placed (m_rawmem b) lens !! i = Some a →
    cells b !! (m_record_pointers b + sizeof_pointer * - Z.of_nat i) = Some a }.

(** The array of pointers that [get_sort_keys] gives. *)
Definition key_at (b : Filesort_buffer) (j : Z) : option Z :=
  cells b !! (get_sort_keys b + sizeof_pointer * j).

(** *** Lemmas *)

Lemma length_placed s l : length (placed s l) = length l.
Proof. revert s. induction l as [|n l IH]; intros s; [done|]. cbn. by rewrite IH. Qed.

Lemma total_app l n : total (l ++ [n]) = total l + n.
Proof. induction l as [|m l IH]; unfold total in *; cbn; [lia|]. rewrite IH. lia. Qed.

Lemma placed_app s l n : placed s (l ++ [n]) = placed s l ++ [s + total l].
Proof.
  revert s. induction l as [|m l IH]; intros s; cbn; [by rewrite Z.add_0_r|]. rewrite IH.
  unfold total. cbn. by rewrite Z.add_assoc.
Qed.

Lemma total_nonneg (l : list Z) m : Forall (λ n, 0 ≤ n ≤ m) l → 0 ≤ total l ≤ m * Z.of_nat (length l).
Proof. induction 1 as [|n l Hn Hl IH]; unfold total in *; cbn [foldr length]; lia. Qed.

Lemma holds_space dbug b lens : holds b lens →
  spaceleft dbug b = Some (m_size_in_bytes b - total lens - sizeof_pointer * Z.of_nat (length lens)).
Proof.
  intros [[Ar As Ae Ap Al An Am] Hi Hn Hl Hf Hc]. pose proof (total_nonneg _ _ Hl). unfold spaceleft, sizeof_pointer in *.
  rewrite Hn, Hi. assert (m_rawmem b <=? m_rawmem b + total lens = true) as -> by lia. rewrite andb_false_r.
  change (2 ^ 63) with 9223372036854775808 in *. unfold to_ulonglong.
  rewrite (wrap_id 64 (Z.of_nat (length lens))) by (unfold in_u; change (2 ^ 64) with 18446744073709551616; lia).
  rewrite (wrap_id 64 (_ + _)) by (unfold in_u; change (2 ^ 64) with 18446744073709551616; lia).
  rewrite wrap_id by (unfold in_u; change (2 ^ 64) with 18446744073709551616; lia). f_equal. lia.
Qed.

(** [isfull] is exactly when the next record and its pointer may not fit. *)
Lemma isfull_correct dbug b lens : holds b lens →
  isfull dbug b = Some (bool_decide (m_num_records b ≤ Z.of_nat (length lens)
    ∧ m_size_in_bytes b < total lens + m_record_length b + sizeof_pointer * (Z.of_nat (length lens) + 1)))
  ∧ (isfull dbug b = Some false →
     total lens + m_record_length b + sizeof_pointer * (Z.of_nat (length lens) + 1) ≤ m_size_in_bytes b).
Proof.
  intros H. pose proof (holds_space dbug b lens H) as Hs. destruct H as [[Ar As Ae Ap Al An Am] Hi Hn Hl Hf Hc].
  pose proof (total_nonneg _ _ Hl) as Ht. unfold isfull. rewrite Hi, Hs. unfold sizeof_pointer in *.
  destruct (Z.ltb_spec (Z.of_nat (length lens)) (m_num_records b)) as [Hlt|Hge].
  - rewrite bool_decide_false by lia. split; [done|]. intros _.
    assert (m_record_length b * Z.of_nat (length lens) ≤ m_record_length b * (m_num_records b - 1)) by nia. nia.
  - cbn [mbind option_bind]. destruct (Z.ltb_spec (m_size_in_bytes b - total lens - 8 * Z.of_nat (length lens)) (m_record_length b + 8)).
    + rewrite bool_decide_true by lia. done.
    + rewrite bool_decide_false by lia. split; [done|]. intros _. lia.
Qed.

(** One record: its place, and the place of its pointer. *)
Lemma next_record_ok b lens : holds b lens →
  total lens + m_record_length b + sizeof_pointer * (Z.of_nat (length lens) + 1) ≤ m_size_in_bytes b →
  ∃ b', get_next_record_pointer b = Some (m_rawmem b + total lens, b')
    ∧ holds b' (lens ++ [m_record_length b])
    ∧ m_record_length b' = m_record_length b ∧ m_rawmem b' = m_rawmem b ∧ m_num_records b' = m_num_records b
    ∧ m_rawmem b + total lens + m_record_length b ≤ m_record_pointers b + sizeof_pointer * - m_idx b.
Proof.
  intros [[Ar As Ae Ap Al An Am] Hi Hn Hl Hf Hc] Hfit. pose proof (total_nonneg _ _ Hl) as Ht.
  unfold get_next_record_pointer, write_cell. do 3 (erewrite bind_ok by reflexivity). unfold id.
  eexists. split; [unfold ret; rewrite Hn; reflexivity|]. unfold sizeof_pointer in *. split; [|split_and!; [done..|lia]].
  split; cbn; unfold sizeof_pointer; rewrite ?Hi, ?length_app, ?total_app; cbn; try done; try lia.
  - apply Forall_app. split; [done|]. constructor; [lia|done].
  - intros i a. rewrite placed_app. intros [Ha|[Hi' Ha]]%lookup_app_Some.
    + assert (i < length lens)%nat by (rewrite <- (length_placed (m_rawmem b)); by eapply lookup_lt_Some).
      rewrite lookup_insert_ne by lia. by apply Hc.
    + rewrite length_placed in *. destruct (i - length lens)%nat eqn:E; [|done]. injection Ha as <-.
      assert (i = length lens) as -> by lia. by rewrite lookup_insert_eq.
Qed.

(** Shortening the last record. *)
Lemma adjust_ok b lens val : holds b (lens ++ [m_record_length b]) → 0 ≤ val ≤ m_record_length b →
  ∃ b', adjust_next_record_pointer val b = Some (tt, b') ∧ holds b' (lens ++ [val]).
Proof.
  intros [[Ar As Ae Ap Al An Am] Hi Hn Hl Hf Hc] Hv. unfold adjust_next_record_pointer.
  erewrite bind_ok by reflexivity. unfold id. eexists. split; [reflexivity|].
  assert (to_uint32 (m_record_length b - val) = m_record_length b - val) as Hw.
  { unfold to_uint32. rewrite wrap_id; [done|]. unfold in_u. lia. }
  rewrite total_app, length_app in *. cbn in Hi, Hf. apply Forall_app in Hl as [Hl _].
  split; cbn; rewrite ?Hw, ?total_app, ?length_app; cbn; try done; try lia.
  - apply Forall_app. split; [done|]. by constructor.
  - intros i a Ha. apply Hc. rewrite placed_app in *. exact Ha.
Qed.

Lemma push_record_ok b lens val : holds b lens → 0 ≤ val ≤ m_record_length b →
  total lens + m_record_length b + sizeof_pointer * (Z.of_nat (length lens) + 1) ≤ m_size_in_bytes b →
  ∃ b', (p <- get_next_record_pointer ;; adjust_next_record_pointer val ;; ret p) b
        = Some (m_rawmem b + total lens, b')
    ∧ holds b' (lens ++ [val])
    ∧ m_rawmem b + total lens + m_record_length b ≤ m_record_pointers b + sizeof_pointer * - m_idx b.
Proof.
  intros H Hv Hfit. destruct (next_record_ok b lens H Hfit) as (b1 & E1 & H1 & Hl1 & _ & _ & Hlow).
  rewrite <- Hl1 in H1, Hv. destruct (adjust_ok b1 lens val H1 Hv) as (b2 & E2 & H2).
  exists b2. split; [|done]. erewrite bind_ok by exact E1. by erewrite bind_ok by exact E2.
Qed.

Definition with_cells (b : Filesort_buffer) (c : gmap Z Z) : Filesort_buffer :=
  Fsb c (m_next_rec_ptr b) (m_rawmem b) (m_record_pointers b) (m_sort_keys b)
    (m_num_records b) (m_record_length b) (m_sort_length b) (m_size_in_bytes b) (m_idx b).

Lemma reverse_loop_ok keys count (K : Z → Z) turns : ∀ ix b, 0 ≤ ix → 0 ≤ count →
  ix + Z.of_nat turns = count / 2 + 1 →
  (∀ j, 0 ≤ j ≤ count →
     cells b !! (keys + 8 * j) = Some (if (j <? ix) || (count - ix <? j) then K (count - j) else K j)) →
  ∃ c, reverse_loop turns keys count ix b = Some (tt, with_cells b c)
    ∧ (∀ j, 0 ≤ j ≤ count → c !! (keys + 8 * j) = Some (K (count - j)))
    ∧ (∀ p, (∀ j, 0 ≤ j ≤ count → p ≠ keys + 8 * j) → c !! p = cells b !! p).
Proof.
  pose proof (Z.div_mod count 2 ltac:(lia)) as Hdm. pose proof (Z.mod_pos_bound count 2 ltac:(lia)) as Hmb.
  induction turns as [|turns IH]; intros ix b Hix Hc Ht HK.
  - exists (cells b). split; [by destruct b|]. split; [|done]. intros j Hj. rewrite HK by done. f_equal.
    destruct (Z.ltb_spec j ix), (Z.ltb_spec (count - ix) j); cbn; try done. f_equal. lia.
  - assert (ix ≤ count / 2) as Hle by lia. assert (ix ≤ count - ix) as Hle2 by lia.
    cbn [reverse_loop]. unfold read_cell, write_cell, sizeof_pointer.
    pose proof (HK (count - ix) ltac:(lia)) as H1. pose proof (HK ix ltac:(lia)) as H2.
    assert ((count - ix <? ix) || (count - ix <? count - ix) = false) as E1 by lia.
    assert ((ix <? ix) || (count - ix <? ix) = false) as E2 by lia.
    rewrite E1 in H1. rewrite E2 in H2.
    erewrite bind_ok by (apply gets_opt_ok; exact H1). erewrite bind_ok by (apply gets_opt_ok; exact H2).
    do 2 erewrite bind_ok by reflexivity.
    set (c1 := <[keys + 8 * ix := K (count - ix)]> (<[keys + 8 * (count - ix) := K ix]> (cells b))).
    destruct (IH (ix + 1) (with_cells b c1)) as (c & E & Hc1 & Hc2); [lia|done|lia| |].
    + intros j Hj. cbn. unfold c1. destruct (decide (j = ix)) as [->|].
      { rewrite lookup_insert_eq. assert ((ix <? ix + 1) || (count - (ix + 1) <? ix) = true) as -> by lia. done. }
      rewrite lookup_insert_ne by lia. destruct (decide (j = count - ix)) as [->|].
      { rewrite lookup_insert_eq. assert ((count - ix <? ix + 1) || (count - (ix + 1) <? count - ix) = true) as -> by lia.
        do 2 f_equal. lia. }
      rewrite lookup_insert_ne, HK by lia. f_equal.
      assert ((j <? ix + 1) || (count - (ix + 1) <? j) = (j <? ix) || (count - ix <? j)) as -> by lia. done.
    + exists c. split; [exact E|]. split; [done|]. intros p Hp. rewrite Hc2 by done. cbn. unfold c1.
      by rewrite lookup_insert_ne, lookup_insert_ne by (intros <-; eapply Hp; [|reflexivity]; lia).
Qed.

(** The pointers of a buffer with records, read from the left, are in reverse
    order of insertion. *)
Lemma key_at_holds b lens j : holds b lens → (j < length lens)%nat →
  key_at b (Z.of_nat j) = placed (m_rawmem b) lens !! (length lens - 1 - j)%nat.
Proof.
  intros H Hj. destruct (lookup_lt_is_Some_2 (placed (m_rawmem b) lens) (length lens - 1 - j)) as [a Ha].
  { rewrite length_placed. lia. }
  rewrite Ha. apply (h_cells _ _ H) in Ha. rewrite <- Ha. unfold key_at, get_sort_keys.
  rewrite (h_idx _ _ H). rewrite (proj2 (Z.eqb_neq _ _)) by lia. f_equal. unfold sizeof_pointer. lia.
Qed.

Lemma reverse_ok b lens : holds b lens →
  ∃ b', reverse_record_pointers b = Some (tt, b')
    ∧ (∀ j, (j < length lens)%nat → key_at b' (Z.of_nat j) = placed (m_rawmem b) lens !! j)
    ∧ m_idx b' = m_idx b ∧ get_sort_keys b' = get_sort_keys b
    ∧ (∀ p, (∀ j, 0 ≤ j < m_idx b → p ≠ get_sort_keys b + 8 * j) → cells b' !! p = cells b !! p).
Proof.
  intros H. pose proof (h_idx _ _ H) as Hi. unfold reverse_record_pointers. erewrite bind_ok by reflexivity. unfold id.
  destruct (Z.ltb_spec (m_idx b) 2) as [Hlt|Hge].
  - exists b. split; [done|]. split; [|done]. intros j Hj. rewrite (key_at_holds b lens j H Hj). f_equal. lia.
  - set (n := length lens) in *. set (K := λ j, default 0 (placed (m_rawmem b) lens !! Z.to_nat (m_idx b - 1 - j))).
    rewrite Z.quot_div_nonneg by lia. pose proof (Z.div_pos (m_idx b - 1) 2).
    destruct (reverse_loop_ok (get_sort_keys b) (m_idx b - 1) K (Z.to_nat ((m_idx b - 1) / 2 + 1)) 0 b)
      as (c & E & Hc1 & Hc2); [lia|lia|lia| |].
    { intros j Hj. assert ((j <? 0) || (m_idx b - 1 - 0 <? j) = false) as -> by lia.
      pose proof (key_at_holds b lens (Z.to_nat j) H) as Hk. rewrite Z2Nat.id in Hk by lia. unfold key_at in Hk.
      unfold sizeof_pointer in Hk. rewrite Hk by lia. unfold K.
      replace (length lens - 1 - Z.to_nat j)%nat with (Z.to_nat (m_idx b - 1 - j)) by lia.
      destruct (lookup_lt_is_Some_2 (placed (m_rawmem b) lens) (Z.to_nat (m_idx b - 1 - j))) as [a ->]; [|done].
      rewrite length_placed. fold n. lia. }
    exists (with_cells b c). split; [exact E|]. split_and!; [|done..|].
    + intros j Hj. unfold key_at. cbn. change (get_sort_keys (with_cells b c)) with (get_sort_keys b).
      unfold sizeof_pointer. rewrite Hc1 by lia. unfold K.
      replace (Z.to_nat (m_idx b - 1 - (m_idx b - 1 - Z.of_nat j))) with j by lia.
      destruct (lookup_lt_is_Some_2 (placed (m_rawmem b) lens) j) as [a ->]; [by rewrite length_placed|done].
    + intros p Hp. cbn. apply Hc2. intros j Hj. apply Hp. lia.
Qed.

Lemma total_replicate n m : total (replicate n m) = Z.of_nat n * m.
Proof. induction n as [|n IH]; [done|]. cbn [replicate]. unfold total in *. cbn [foldr]. rewrite IH. lia. Qed.

Lemma placed_replicate s n m j : (j < n)%nat → placed s (replicate n m) !! j = Some (s + Z.of_nat j * m).
Proof.
  revert s j. induction n as [|n IH]; intros s j Hj; [lia|]. cbn [replicate placed].
  destruct j as [|j]; [cbn; f_equal; lia|]. cbn [lookup list_lookup]. change (list_lookup j ?l) with (l !! j).
  rewrite IH by lia. f_equal. lia.
Qed.

(** Filling the buffer with the records of a fixed length. *)
Lemma fill_ok fuel : ∀ k b n, holds b (replicate k (m_record_length b)) → m_num_records b = Z.of_nat n →
  (k ≤ n)%nat → (n - k < fuel)%nat →
  ∃ b', fill_loop fuel b = Some (tt, b') ∧ holds b' (replicate n (m_record_length b')) ∧ m_rawmem b' = m_rawmem b
    ∧ m_record_length b' = m_record_length b.
Proof.
  induction fuel as [|fuel IH]; intros k b n H Hn Hk Hf; [lia|].
  pose proof (h_idx _ _ H) as Hi. rewrite length_replicate in Hi. unfold fill_loop.
  destruct (decide (k = n)) as [->|Hne].
  - exists b. split; [|done]. apply while_stop. erewrite bind_ok by reflexivity. unfold id, ret. do 2 f_equal. lia.
  - pose proof (h_alloc _ _ H) as [Ar As Ae Ap Al An Am].
    destruct (next_record_ok b _ H) as (b1 & E1 & H1 & Hl1 & Hr1 & Hn1 & _).
    { rewrite total_replicate, length_replicate. unfold sizeof_pointer in *. rewrite Hn in Am. nia. }
    erewrite while_step; [|erewrite bind_ok by reflexivity; unfold id, ret; do 2 f_equal; lia|by erewrite bind_ok by exact E1].
    rewrite <- Hl1, <- replicate_S_end in H1.
    destruct (IH (S k) b1 n) as (b' & E & H' & Hr & Hl); [done|congruence|lia|lia|].
    exists b'. split; [exact E|]. split; [done|]. split; congruence.
Qed.

Lemma init_pointers_ok fuel b : allocated b → m_num_records b < Z.of_nat fuel →
  ∃ b', init_record_pointers fuel b = Some (tt, b') ∧ m_idx b' = m_num_records b
    ∧ ∀ j, 0 ≤ j < m_num_records b → key_at b' j = Some (m_rawmem b + j * m_record_length b).
Proof.
  intros A Hf. pose proof A as [Ar As Ae Ap Al An Am]. unfold init_record_pointers.
  set (b0 := Fsb (cells b) (m_rawmem b) (m_rawmem b) (m_record_pointers b) 0 (m_num_records b) (m_record_length b)
               (m_sort_length b) (m_size_in_bytes b) 0).
  assert (init_next_record_pointer b = Some (tt, b0)) as E0 by reflexivity. erewrite bind_ok by exact E0.
  assert (holds b0 (replicate 0 (m_record_length b0))) as H0.
  { split; cbn; try done; try lia; unfold total; cbn; lia. }
  destruct (fill_ok fuel 0 b0 (Z.to_nat (m_num_records b)) H0) as (b1 & E1 & H1 & Hr1 & Hl1); [cbn; lia|lia|lia|].
  erewrite bind_ok by exact E1. destruct (reverse_ok b1 _ H1) as (b2 & E2 & Hk & Hi & _).
  pose proof (h_idx _ _ H1) as Hi1. rewrite length_replicate in *. exists b2. split; [done|]. split; [lia|].
  intros j Hj. specialize (Hk (Z.to_nat j)). rewrite Z2Nat.id in Hk by lia. rewrite Hk by lia.
  rewrite placed_replicate by lia. rewrite Z2Nat.id, Hr1, Hl1 by lia. done.
Qed.

(** ** Theorems *)

(** C10: The sort buffer never lets records and pointers meet.  After any
    records whose lengths are at most the maximum, [isfull] answers no exactly
    while another record of maximal length and its pointer are sure to fit; then
    the next record starts where the last one ends, all its bytes are below the
    lowest pointer, and its pointer is stored; the buffer always takes the number
    of records it was allocated for.  Reversing the pointers makes the array that
    is sorted list the records in the order of insertion and touches no other
    memory, and [init_record_pointers] ends with it listing all the records. *)
Theorem filesort_buffer_correct dbug b lens val fuel (H : holds b lens)
    (Hv : 0 ≤ val ≤ m_record_length b) (Hf : m_num_records b < Z.of_nat fuel) :
  (isfull dbug b = Some true ∨ isfull dbug b = Some false)
  ∧ (isfull dbug b = Some false ↔ Z.of_nat (length lens) < m_num_records b
     ∨ total lens + m_record_length b + sizeof_pointer * (Z.of_nat (length lens) + 1) ≤ m_size_in_bytes b)
  ∧ (isfull dbug b = Some false →
     ∃ b', (p <- get_next_record_pointer ;; adjust_next_record_pointer val ;; ret p) b
           = Some (m_rawmem b + total lens, b')
       ∧ holds b' (lens ++ [val])
       ∧ m_rawmem b + total lens + m_record_length b ≤ m_record_pointers b + sizeof_pointer * - m_idx b)
  ∧ (∃ b', reverse_record_pointers b = Some (tt, b')
     ∧ (∀ j, (j < length lens)%nat → key_at b' (Z.of_nat j) = placed (m_rawmem b) lens !! j)
     ∧ (∀ p, (∀ j, 0 ≤ j < m_idx b → p ≠ get_sort_keys b + 8 * j) → cells b' !! p = cells b !! p))
  ∧ (∃ b', init_record_pointers fuel b = Some (tt, b') ∧ m_idx b' = m_num_records b
     ∧ ∀ j, 0 ≤ j < m_num_records b → key_at b' j = Some (m_rawmem b + j * m_record_length b)).
Proof.
  destruct (isfull_correct dbug b lens H) as [Hfull Hfit]. split_and!.
  - rewrite Hfull. destruct (bool_decide _); auto.
  - rewrite Hfull. split.
    + intros [= E%bool_decide_eq_false]. lia.
    + intros Hd. f_equal. apply bool_decide_eq_false. lia.
  - intros E. by apply push_record_ok, Hfit.
  - destruct (reverse_ok b lens H) as (b' & E & Hk & _ & _ & Hp). eauto.
  - apply init_pointers_ok; [apply (h_alloc _ _ H)|done].
Qed.

(** *** Lengths *)

(** The two lengths a record is made of. *)
Definition packed_addons_ok (p : Sort_param) : Prop :=
  m_using_packed_addons p = match addon_fields p with Some a => Addon_fields.m_using_packed_addons a | None => false end
  ∧ m_using_packed_sortkeys p = match sort_keys p with Some k => Sort_keys.m_using_packed_sortkeys k | None => false end.
Definition sort_part (p : Sort_param) (sl : Z) : Z :=
  if m_using_packed_sortkeys p then sl + (if using_addon_fields p then 0 else res_length p) else sort_length p.
Definition addon_part (p : Sort_param) (al : Z) : Z := if m_using_packed_addons p then al else addon_length p.
(** What is written in front of the two parts. *)
Definition write_lengths (p : Sort_param) (T : list Z) (off : nat) (sl al : Z) : option (list Z) :=
  T ← (if m_using_packed_sortkeys p then Sort_keys.store_sortkey_length T off sl else Some T);
  if m_using_packed_addons p
  then Addon_fields.store_addon_length T (off + Z.to_nat (sort_part p sl)) al else Some T.

Lemma load_drop n T off : (off + n ≤ length T)%nat → load_le n (drop off T) 0 = load_le n T off.
Proof. intros H. unfold load_le. rewrite length_drop, !decide_True by lia. by rewrite drop_0. Qed.

Lemma sortkey_roundtrip T off sz T' : Sort_keys.store_sortkey_length T off sz = Some T' → 4 ≤ sz < 2 ^ 32 →
  (off + 4 ≤ length T)%nat ∧ length T' = length T ∧ take off T' = take off T
  ∧ load_le 4 T' off = Some (sz - 4) ∧ Sort_keys.read_sortkey_length T' off = Some sz.
Proof.
  change (2 ^ 32) with 4294967296. intros E Hsz. unfold Sort_keys.store_sortkey_length, X86_64.int4store, Sort_keys.size_of_length_field in E.
  assert (off + 4 ≤ length T)%nat as Hl by (unfold store_le in E; by case_decide).
  destruct (load_store_le _ _ _ _ _ E) as (Ev & Hlen & Ht & _).
  assert (wrap (8 * Z.of_nat 4) (to_uint32 (to_uint32 (sz - 4))) = sz - 4) as Hw.
  { change (8 * Z.of_nat 4) with 32. unfold to_uint32. rewrite !wrap_wrap. apply wrap_id. unfold in_u.
    change (2 ^ 32) with 4294967296. lia. }
  rewrite Hw in Ev. split_and!; [done..|]. unfold Sort_keys.read_sortkey_length, X86_64.uint4korr.
  rewrite load_drop by lia. rewrite Ev. cbn [mbind option_bind]. unfold to_uint32, Sort_keys.size_of_length_field.
  rewrite !wrap_id; [f_equal; lia| |]; unfold in_u; change (2 ^ 32) with 4294967296; [|rewrite wrap_id]; unfold in_u;
    change (2 ^ 32) with 4294967296; lia.
Qed.

Lemma addon_roundtrip T off sz T' : Addon_fields.store_addon_length T off sz = Some T' → 2 ≤ sz < 2 ^ 32 →
  (off + 2 ≤ length T)%nat ∧ length T' = length T ∧ take off T' = take off T
  ∧ Addon_fields.read_addon_length T' off = Some (2 + (sz - 2) mod 2 ^ 16).
Proof.
  change (2 ^ 32) with 4294967296. intros E Hsz.
  unfold Addon_fields.store_addon_length, X86_64.int2store, Addon_fields.size_of_length_field in E.
  assert (off + 2 ≤ length T)%nat as Hl by (unfold store_le in E; by case_decide).
  destruct (load_store_le _ _ _ _ _ E) as (Ev & Hlen & Ht & _). split_and!; [done..|].
  unfold Addon_fields.read_addon_length, X86_64.uint2korr. rewrite load_drop by lia. rewrite Ev. cbn [mbind option_bind].
  unfold to_uint32, to_uint16, Addon_fields.size_of_length_field. change (8 * Z.of_nat 2) with 16. rewrite !wrap_wrap.
  rewrite (wrap_id 32 (sz - 2)) by (unfold in_u; change (2 ^ 32) with 4294967296; lia). unfold wrap at 2.
  pose proof (Z.mod_pos_bound (sz - 2) (2 ^ 16) ltac:(lia)). rewrite wrap_id; [done|].
  unfold in_u. change (2 ^ 32) with 4294967296. change (2 ^ 16) with 65536 in *. lia.
Qed.

Lemma load_take n T T' off k : take k T' = take k T → length T' = length T → (off + n ≤ k)%nat → (k ≤ length T)%nat →
  load_le n T' off = load_le n T off.
Proof.
  intros Ht Hl Hk Hk2. unfold load_le. rewrite Hl. case_decide; [|done]. do 2 f_equal.
  assert (∀ l : list Z, take n (drop off l) = take n (drop off (take k l))) as E.
  { intros l. rewrite !take_drop_commute, take_take. by rewrite Nat.min_l by lia. }
  by rewrite (E T'), (E T), Ht.
Qed.

(** The first length, when there is one, is stored where it is read. *)
Lemma store_sort_part p T off sl : 4 ≤ sl → sl < 2 ^ 32 → 0 ≤ sort_part p sl → 0 ≤ res_length p →
  (off + Z.to_nat (sort_part p sl) ≤ length T)%nat →
  ∃ T1, (if m_using_packed_sortkeys p then Sort_keys.store_sortkey_length T off sl else Some T) = Some T1
    ∧ length T1 = length T ∧ (m_using_packed_sortkeys p = true → load_le 4 T1 off = Some (sl - 4)).
Proof.
  intros Hs Hlt Hpos Hr Hroom. unfold sort_part in *. destruct (m_using_packed_sortkeys p); [|by exists T].
  destruct (Sort_keys.store_sortkey_length T off sl) as [T1|] eqn:E.
  - exists T1. destruct (sortkey_roundtrip _ _ _ _ E) as (_ & ? & _ & ? & _); [lia|done].
  - exfalso. unfold Sort_keys.store_sortkey_length, X86_64.int4store, store_le in E.
    case_decide; [done|]. destruct (using_addon_fields p); lia.
Qed.

Lemma store_addon_part p T k al : 2 ≤ al ≤ 65537 → (k + 2 ≤ length T)%nat →
  ∃ T2, (if m_using_packed_addons p then Addon_fields.store_addon_length T k al else Some T) = Some T2
    ∧ length T2 = length T ∧ take k T2 = take k T
    ∧ (m_using_packed_addons p = true → Addon_fields.read_addon_length T2 k = Some al).
Proof.
  intros Ha Hroom. destruct (m_using_packed_addons p); [|by exists T].
  destruct (Addon_fields.store_addon_length T k al) as [T2|] eqn:E.
  - exists T2. destruct (addon_roundtrip _ _ _ _ E) as (_ & ? & ? & Hv); [lia|]. split_and!; [done|lia|done|].
    intros _. rewrite Hv, Z.mod_small by (change (2 ^ 16) with 65536; lia). f_equal. lia.
  - exfalso. unfold Addon_fields.store_addon_length, X86_64.int2store, store_le in E. case_decide; [done|]. lia.
Qed.

(** The lengths that are written in front of the parts of a packed
    record are those read back: for each of the four formats (packed keys or not,
    packed addon fields or not) [get_rec_and_res_len] and [get_record_length] give
    the sum of the two parts, the result is the addon part when there is one, and
    without addon fields the row reference counts as part of a packed key.  The
    lengths of addon fields survive up to 65535 bytes of data, the bound that
    [can_pack_addon_fields] tests, and no further. *)
Theorem sort_record_lengths dbug p T off sl al (Hp : packed_addons_ok p) (Hfmt : m_packed_format p = true)
    (Hs : 4 ≤ sl) (Ha : 2 ≤ al) (Hpack : Addon_fields.can_pack_addon_fields (al - 2) = true)
    (Hpos : 0 ≤ sort_part p sl) (Hlen : 0 ≤ addon_part p al) (Hr : 0 ≤ res_length p)
    (Hsum : sl + sort_part p sl + addon_part p al < 2 ^ 32)
    (Hroom : (off + Z.to_nat (sort_part p sl) + 2 ≤ length T)%nat) :
  (∃ T', write_lengths p T off sl al = Some T'
     ∧ get_rec_and_res_len dbug p T' off
       = Some (sort_part p sl + addon_part p al, if using_addon_fields p then addon_part p al else res_length p)
     ∧ get_record_length dbug p T' off = Some (sort_part p sl + addon_part p al))
  ∧ (∀ sz T', 2 ≤ sz < 2 ^ 32 → Addon_fields.store_addon_length T off sz = Some T' →
     (Addon_fields.read_addon_length T' off = Some sz ↔ Addon_fields.can_pack_addon_fields (sz - 2) = true)).
Proof.
  unfold Addon_fields.can_pack_addon_fields in *. change (2 ^ 32) with 4294967296 in *. split.
  2:{ intros sz T' Hsz E. destruct (addon_roundtrip _ _ _ _ E Hsz) as (_ & _ & _ & ->).
      change (2 ^ 16) with 65536. split; [intros [= Hm]; pose proof (Z.mod_pos_bound (sz - 2) 65536); lia|].
      intros Hc. rewrite Z.mod_small by lia. f_equal. lia. }
  destruct Hp as [Hp1 Hp2].
  destruct (store_sort_part p T off sl) as (T1 & E1 & Hl1 & Hv1); [lia|unfold addon_part in *; lia|done|done|lia|].
  unfold write_lengths. rewrite E1. cbn [mbind option_bind].
  set (k := (off + Z.to_nat (sort_part p sl))%nat) in *.
  destruct (store_addon_part p T1 k al) as (T2 & E2 & Hl2 & Ht2 & Hv2); [lia|lia|].
  exists T2. split; [done|].
  assert (param_sort_length dbug p T2 off = Some (sort_part p sl)) as Es.
  { unfold param_sort_length, using_packed_sortkeys. rewrite <- Hp2, eqb_reflx, andb_false_r. cbn [mbind option_bind].
    unfold sort_part in *. destruct (m_using_packed_sortkeys p); [|done].
    unfold Sort_keys.read_sortkey_length, X86_64.uint4korr.
    rewrite load_drop, (load_take 4 T1 T2 off k), Hv1 by (done || destruct (using_addon_fields p); lia).
    cbn [mbind option_bind]. unfold to_uint32, Sort_keys.size_of_length_field.
    destruct (using_addon_fields p); rewrite (wrap_id 32 (sl - 4)) by (unfold in_u; change (2 ^ 32) with 4294967296; lia);
      rewrite (wrap_id 32 (4 + _)) by (unfold in_u; change (2 ^ 32) with 4294967296; lia);
      rewrite wrap_id by (unfold in_u; change (2 ^ 32) with 4294967296; lia); f_equal; lia. }
  assert (get_addon_length dbug p T2 k = Some (addon_part p al)) as Ea.
  { unfold get_addon_length, using_packed_addons. rewrite <- Hp1, eqb_reflx, andb_false_r. cbn [mbind option_bind].
    unfold addon_part. destruct (m_using_packed_addons p); [by apply Hv2|done]. }
  unfold get_rec_and_res_len, get_record_length. rewrite Hfmt, Es. cbn [mbind option_bind]. fold k. rewrite Ea. cbn [mbind option_bind].
  unfold to_uint32. rewrite !wrap_id by (unfold in_u; change (2 ^ 32) with 4294967296; lia). done.
Qed.

(** Giving the buffer of a finished chunk to another succeeds exactly when the
    two are adjacent, and then the other has both: one buffer from the lower
    start to the upper end, and room for the keys of both. *)
Theorem merge_freed_buff_union this mc (Ht : m_buffer_start this < m_buffer_end this)
    (Hm : m_buffer_start mc < m_buffer_end mc) (Hs : in_u 63 (m_buffer_end this) ∧ in_u 63 (m_buffer_end mc))
    (Hlow : 0 ≤ m_buffer_start this ∧ 0 ≤ m_buffer_start mc) :
  let r := merge_freed_buff this mc in
  (r.1 = true ↔ m_buffer_end mc = m_buffer_start this ∨ m_buffer_start mc = m_buffer_end this)
  ∧ (r.1 = false → r.2 = mc)
  ∧ (r.1 = true → (∀ a, m_buffer_start r.2 ≤ a < m_buffer_end r.2 ↔
        m_buffer_start this ≤ a < m_buffer_end this ∨ m_buffer_start mc ≤ a < m_buffer_end mc)
      ∧ buffer_size r.2 = buffer_size this + buffer_size mc
      ∧ m_max_keys r.2 = to_ulonglong (m_max_keys mc + m_max_keys this)
      ∧ m_rowcount r.2 = m_rowcount mc ∧ m_current_key r.2 = m_current_key mc).
Proof.
  cbv zeta. unfold merge_freed_buff, in_u in *. change (2 ^ 63) with 9223372036854775808 in *.
  assert (∀ c, 0 ≤ m_buffer_end c - m_buffer_start c < 18446744073709551616 →
    buffer_size c = m_buffer_end c - m_buffer_start c) as Hsz.
  { intros c Hc. unfold buffer_size, to_ulonglong. by apply wrap_id. }
  destruct (Z.eqb_spec (m_buffer_end mc) (m_buffer_start this)) as [E|N];
    [|destruct (Z.eqb_spec (m_buffer_start mc) (m_buffer_end this)) as [E|N2]].
  - cbn [fst snd]. split; [naive_solver|]. split; [done|]. intros _. rewrite !Hsz by (cbn; lia). cbn. split_and!; [lia|lia|done..].
  - cbn [fst snd]. split; [naive_solver|]. split; [done|]. intros _. rewrite !Hsz by (cbn; lia). cbn. split_and!; [lia|lia|done..].
  - split; [split; [done|lia]|done].
Qed.

(** ** Witnesses *)

(** A buffer of 40 bytes at address 1000 for two records of at most 12 bytes;
    records of 5 and 7 bytes are in it. *)
Definition sample : Filesort_buffer :=
  Fsb {[1032 := 1000; 1024 := 1005]} 1012 1000 1032 0 2 12 0 40 2.

Lemma sample_holds : holds sample [5; 7].
Proof.
  split; cbn; try done.
  - repeat constructor; lia.
  - intros i a H. destruct i as [|[|i]]; cbn in H; [injection H as <-|injection H as <-|done]; by vm_compute.
Qed.

(** It is full, so sorting starts; the reversed pointers list both records. *)
Lemma filesort_buffer_correct_witness :
  isfull true sample = Some true ∧ ∃ b, reverse_record_pointers sample = Some (tt, b)
    ∧ key_at b 0 = Some 1000 ∧ key_at b 1 = Some 1005.
Proof.
  destruct (filesort_buffer_correct true sample [5; 7] 12 3 sample_holds) as (_ & _ & _ & (b & E & Hk & _) & _).
  - by vm_compute.
  - by vm_compute.
  - split; [by vm_compute|]. exists b. split; [exact E|].
    split; [exact (Hk 0%nat ltac:(cbn; lia))|exact (Hk 1%nat ltac:(cbn; lia))].
Defined.

(** Packed keys of 9 bytes and packed addon fields of 6 bytes. *)
Definition sample_param : Sort_param :=
  Mk_param 0 0 0 4 (Some (Addon_fields.Mk 0 0 true)) (Some (Sort_keys.Mk true 0 0 0 true)) true true true.

Lemma sort_record_lengths_witness :
  ∃ T, write_lengths sample_param (replicate 20 0) 2 9 6 = Some T
    ∧ get_rec_and_res_len true sample_param T 2 = Some (15, 6).
Proof.
  assert (packed_addons_ok sample_param) as Hp by done.
  destruct (sort_record_lengths true sample_param (replicate 20 0) 2 9 6 Hp eq_refl) as ((T & E & H & _) & _);
    [lia|lia|done|by vm_compute|by vm_compute|by vm_compute|by vm_compute|apply Nat.leb_le; by vm_compute|].
  exists T. split; [exact E|exact H].
Defined.

Lemma merge_freed_buff_union_witness :
  merge_freed_buff (set_buffer 100 200 Merge_chunk0) (set_buffer 200 250 Merge_chunk0)
  = (true, set_buffer 100 250 Merge_chunk0)
  ∧ buffer_size (set_buffer 100 250 Merge_chunk0) = 150.
Proof.
  split; [done|].
  destruct (merge_freed_buff_union (set_buffer 100 200 Merge_chunk0) (set_buffer 200 250 Merge_chunk0))
    as (_ & _ & H); [cbn; lia|cbn; lia|unfold in_u; cbn; lia|cbn; lia|].
  destruct (H eq_refl) as (_ & E & _). exact E.
Defined.
