(* ===== verification/ThreadCache.v ===== *)
(** [thread_cache.h], [class Thread_cache]: threads that have no connection to
    serve are parked, and take new connections from a queue.  A critical section
    of [LOCK_thread_cache] is one step, written as the code between the lock and
    the unlock or wait; what a thread does after it (a signal) is a step of its
    own.  [I_List<CONNECT>] is the queue of its elements, as [ILink] shows of
    [base_ilist]. *)
From S2P Require Import Prelude MyTime.

(** ** The critical sections *)

Record Thread_cache := Tc {
  tc_list : list N;
  cached_thread_count : Z;
  kill_cached_threads : Z }.

Definition init : Thread_cache := Tc [] 0 0.

(** Where a thread is: waiting on [COND_thread_cache] in [park]; woken, by a
    timeout or not, and waiting for the mutex; in [park] after the mutex, with its
    connection and [flushed]; in [enqueue] before the signal; in [final_flush]
    before [flush]; waiting on [COND_flush_thread_cache]; woken from that.  Other
    threads are not in the cache's code. *)
Inductive status :=
  | Waiting
  | Woken (timeout : bool)
  | Leaving (connect : option N) (flushed : bool)
  | Signalling
  | Flushing
  | FlushWaiting
  | FlushWoken.

Section Code.
Context (thread_cache_size : Z).

(** [park], from the lock to the wait or the unlock. *)
Definition park_enter (c : Thread_cache) : Thread_cache * status :=
  match tc_list c with
  | connect :: rest =>
      (Tc rest (to_ulong (cached_thread_count c + 1)) (kill_cached_threads c), Leaving (Some connect) false)
  | [] =>
      if (cached_thread_count c <? thread_cache_size) && negb (truth (kill_cached_threads c))
      then (Tc [] (to_ulong (cached_thread_count c + 1)) (kill_cached_threads c), Waiting)
      else (c, Leaving None false)
  end.

(** [park], one turn of the loop after [mysql_cond_timedwait]. *)
Definition park_wake (timeout : bool) (c : Thread_cache) : Thread_cache * status :=
  let flushed := truth (kill_cached_threads c) in
  match tc_list c with
  | connect :: rest =>
      (Tc rest (cached_thread_count c) (kill_cached_threads c), Leaving (Some connect) flushed)
  | [] =>
      if flushed || timeout
      then (Tc [] (to_ulong (cached_thread_count c - 1)) (kill_cached_threads c), Leaving None flushed)
      else (c, Waiting)
  end.

Definition enqueue (connect : N) (c : Thread_cache) : Thread_cache * bool :=
  if truth (cached_thread_count c)
  then (Tc (tc_list c ++ [connect]) (to_ulong (cached_thread_count c - 1)) (kill_cached_threads c), true)
  else (c, false).

(** [flush], from the lock, and the test of its loop: whether it waits. *)
Definition flush_enter (c : Thread_cache) : Thread_cache :=
  Tc (tc_list c) (cached_thread_count c) (to_uint32 (kill_cached_threads c + 1)).
Definition flush_loop (c : Thread_cache) : Thread_cache * bool :=
  if truth (cached_thread_count c) then (c, true)
  else (Tc (tc_list c) (cached_thread_count c) (to_uint32 (kill_cached_threads c - 1)), false).

(** The increment of [final_flush], which holds no mutex. *)
Definition final_flush (c : Thread_cache) : Thread_cache := flush_enter c.

Definition size (c : Thread_cache) : Z := cached_thread_count c.

(** ** Interleaving *)

Record state := St { cache : Thread_cache; threads : gmap nat status }.
Definition initial : state := St init ∅.

(** [mysql_cond_signal] wakes one of the waiting threads, if there is one, and
    [mysql_cond_broadcast] all. *)
Inductive signal (from to : status) : gmap nat status → gmap nat status → Prop :=
  | signal_one th t : th !! t = Some from → signal from to th (<[t := to]> th)
  | signal_none th : (∀ t, th !! t ≠ Some from) → signal from to th th.
Definition wake (st : status) : status := match st with Waiting => Woken false | st => st end.
Definition broadcast (th : gmap nat status) : gmap nat status := wake <$> th.

(** What a step says to the outside: a connection accepted or refused by
    [enqueue], one taken by a thread, [final_flush], a [flush] that returns, a
    spurious wake-up of a [flush]. *)
Inductive event :=
  | Accepted (connect : N)
  | Refused (connect : N)
  | Took (connect : N)
  | Final
  | Flushed
  | Spurious
  | Silent.

Definition took (st : status) : event :=
  match st with Leaving (Some connect) _ => Took connect | _ => Silent end.

(** The thread [t] goes on from the test of the loop of [flush]. *)
Definition flush_turn (t : nat) (c : Thread_cache) (th : gmap nat status) : event * state :=
  let '(c, wait) := flush_loop c in
  if wait : bool then (Silent, St c (<[t := FlushWaiting]> (broadcast th)))
  else (Flushed, St c (delete t th)).

(** [internal] steps are those of threads that are in the code; the others are
    calls and the passing of time. *)
Inductive internal : state → event → state → Prop :=
  | step_wake s t timeout c st :
      threads s !! t = Some (Woken timeout) → park_wake timeout (cache s) = (c, st) →
      internal s (took st) (St c (<[t := st]> (threads s)))
  | step_leave s t connect (flushed : bool) th :
      threads s !! t = Some (Leaving connect flushed) →
      (if flushed then signal FlushWaiting FlushWoken (delete t (threads s)) th else th = delete t (threads s)) →
      internal s Silent (St (cache s) th)
  | step_signal s t th :
      threads s !! t = Some Signalling → signal Waiting (Woken false) (delete t (threads s)) th →
      internal s Silent (St (cache s) th)
  | step_flush_wake s t e s' :
      threads s !! t = Some FlushWoken → flush_turn t (cache s) (threads s) = (e, s') →
      internal s e s'.

Inductive step : state → event → state → Prop :=
  | step_internal s e s' : internal s e s' → step s e s'
  | step_park s t c st :
      threads s !! t = None → park_enter (cache s) = (c, st) →
      step s (took st) (St c (<[t := st]> (threads s)))
  | step_timeout s t timeout :
      threads s !! t = Some Waiting →
      step s Silent (St (cache s) (<[t := Woken timeout]> (threads s)))
  | step_enqueue s t connect c (b : bool) :
      threads s !! t = None → enqueue connect (cache s) = (c, b) →
      step s (if b then Accepted connect else Refused connect)
        (St c (if b then <[t := Signalling]> (threads s) else threads s))
  | step_flush s t e s' :
      (threads s !! t = None ∨ threads s !! t = Some Flushing) →
      flush_turn t (flush_enter (cache s)) (threads s) = (e, s') →
      step s e s'
  | step_spurious s t :
      threads s !! t = Some FlushWaiting →
      step s Spurious (St (cache s) (<[t := FlushWoken]> (threads s)))
  | step_final s t :
      threads s !! t = None →
      step s Final (St (final_flush (cache s)) (<[t := Flushing]> (threads s))).

(** The states that can be reached, with what was said on the way; [ok] restricts
    the states. *)
Inductive run (ok : state → Prop) : list event → state → Prop :=
  | run_initial : run ok [] initial
  | run_step evs s e s' : run ok evs s → step s e s' → ok s' → run ok (evs ++ [e]) s'.

(** ** Specification *)

(** The sum of a weight over the threads. *)
Definition sum (f : status → nat) (th : gmap nat status) : nat := map_fold (λ _ st n, (f st + n)%nat) 0%nat th.

Definition is_waiting (st : status) : nat := match st with Waiting => 1 | _ => 0 end.
Definition is_woken (st : status) : nat := match st with Woken _ => 1 | _ => 0 end.
Definition is_signalling (st : status) : nat := match st with Signalling => 1 | _ => 0 end.
Definition is_flusher (st : status) : nat := match st with FlushWaiting | FlushWoken => 1 | _ => 0 end.
Definition is_flush_waiting (st : status) : nat := match st with FlushWaiting => 1 | _ => 0 end.
Definition is_flushed (st : status) : nat := match st with Leaving _ true => 1 | _ => 0 end.
Definition parked (st : status) : nat := is_waiting st + is_woken st.

Definition accepted (evs : list event) : list N := omap (λ e, match e with Accepted x => Some x | _ => None end) evs.
Definition taken (evs : list event) : list N := omap (λ e, match e with Took x => Some x | _ => None end) evs.
Definition finals (evs : list event) : nat := length (omap (λ e, match e with Final => Some tt | _ => None end) evs).

(** Every parked thread is counted or has a connection in the queue; every
    connection in the queue has a thread that is awake or a signal on its way. *)
Record inv (evs : list event) (s : state) : Prop := {
  i_count : cached_thread_count (cache s) + Z.of_nat (length (tc_list (cache s))) = Z.of_nat (sum parked (threads s));
  i_pos : 0 ≤ cached_thread_count (cache s);
  i_size : Z.of_nat (sum parked (threads s)) ≤ thread_cache_size;
  i_wake : (length (tc_list (cache s)) ≤ sum is_woken (threads s) + sum is_signalling (threads s))%nat;
  i_kill : kill_cached_threads (cache s) = to_uint32 (Z.of_nat (sum is_flusher (threads s) + finals evs));
  i_fifo : accepted evs = taken evs ++ tc_list (cache s) }.

(** *** Sums *)

Lemma sum_insert f th t st : th !! t = None → sum f (<[t := st]> th) = (f st + sum f th)%nat.
Proof. intros H. unfold sum. rewrite map_fold_insert_L; [done| |done]. intros. lia. Qed.

Lemma sum_delete f th t st : th !! t = Some st → sum f th = (f st + sum f (delete t th))%nat.
Proof. intros H. rewrite <- (insert_delete_id th t st H) at 1. apply sum_insert, lookup_delete_eq. Qed.

Lemma sum_update f th t st st' : th !! t = Some st → (f st + sum f (<[t := st']> th) = f st' + sum f th)%nat.
Proof.
  intros H. rewrite <- insert_delete_eq, sum_insert by apply lookup_delete_eq.
  rewrite (sum_delete f th t st H). lia.
Qed.

Lemma sum_fmap f g th : sum f (g <$> th) = sum (λ st, f (g st)) th.
Proof.
  induction th as [|t st th Ht IH] using map_ind; [done|].
  rewrite fmap_insert, !sum_insert by (done || by rewrite lookup_fmap, Ht). by rewrite IH.
Qed.

Lemma sum_ext f g th : (∀ st, f st = g st) → sum f th = sum g th.
Proof.
  intros H. induction th as [|t st th Ht IH] using map_ind; [done|]. by rewrite !sum_insert, IH, H by done.
Qed.

Lemma sum_zero f th : (∀ t st, th !! t = Some st → f st = 0%nat) ↔ sum f th = 0%nat.
Proof.
  split.
  - induction th as [|t st th Ht IH] using map_ind; [done|]. intros H. rewrite sum_insert by done.
    rewrite (H t st) by apply lookup_insert_eq. apply IH. intros t' st' H'. apply (H t').
    rewrite lookup_insert_ne; [done|]. intros <-. by rewrite Ht in H'.
  - intros H t st Hl. rewrite (sum_delete f th t st Hl) in H. lia.
Qed.

Lemma sum_pos f th : sum f th ≠ 0%nat → ∃ t st, th !! t = Some st ∧ f st ≠ 0%nat.
Proof.
  induction th as [|t st th Ht IH] using map_ind; [done|]. rewrite sum_insert by done. intros H.
  destruct (decide (f st = 0%nat)) as [E|E].
  - destruct IH as (t' & st' & Hl & Hf); [lia|]. exists t', st'. split; [|done].
    rewrite lookup_insert_ne; [done|]. intros <-. by rewrite Ht in Hl.
  - exists t, st. by rewrite lookup_insert_eq.
Qed.

Lemma signal_sum from to th th' : signal from to th th' →
  (∃ t, th !! t = Some from ∧ th' = <[t := to]> th ∧ ∀ f, (f from + sum f th' = f to + sum f th)%nat)
  ∨ (th' = th ∧ ∀ t, th !! t ≠ Some from).
Proof.
  intros [th0 t H|th0 H]; [left|by right]. exists t. split; [done|]. split; [done|].
  intros f. by apply sum_update.
Qed.

Lemma sum_broadcast f th : sum f (broadcast th) = sum (λ st, f (wake st)) th.
Proof. apply sum_fmap. Qed.

(** A wake-up of everybody leaves nobody waiting. *)
Lemma broadcast_sums th :
  sum parked (broadcast th) = sum parked th ∧ sum is_woken (broadcast th) = sum parked th
  ∧ sum is_signalling (broadcast th) = sum is_signalling th ∧ sum is_flusher (broadcast th) = sum is_flusher th
  ∧ sum is_waiting (broadcast th) = 0%nat.
Proof.
  rewrite !sum_broadcast. split_and!; try (apply sum_ext; by intros []).
  apply sum_zero. by intros t [] _.
Qed.

Lemma sum_split f g h th : (∀ st, f st = (g st + h st)%nat) → sum f th = (sum g th + sum h th)%nat.
Proof.
  intros H. induction th as [|t st th Ht IH] using map_ind; [done|]. rewrite !sum_insert, IH, H by done. lia.
Qed.

Lemma parked_split th : sum parked th = (sum is_waiting th + sum is_woken th)%nat.
Proof. by apply sum_split. Qed.

Lemma no_waiting th : (∀ t, th !! t ≠ Some Waiting) → sum is_waiting th = 0%nat.
Proof. intros H. apply sum_zero. intros t st Ht. destruct st; try done. by destruct (H t). Qed.

Context (Hsize : 0 ≤ thread_cache_size < 2 ^ 32).

Lemma events_snoc evs e :
  accepted (evs ++ [e]) = accepted evs ++ accepted [e] ∧ taken (evs ++ [e]) = taken evs ++ taken [e]
  ∧ finals (evs ++ [e]) = (finals evs + finals [e])%nat.
Proof. unfold accepted, taken, finals. rewrite !omap_app, length_app. done. Qed.

(** A turn of [flush] by the thread [t], which the invariant does not count. *)
Lemma flush_turn_inv evs c th t e s' :
  inv evs (St c (delete t th)) →
  flush_turn t (Tc (tc_list c) (cached_thread_count c)
                  (to_uint32 (Z.of_nat (S (sum is_flusher (delete t th) + finals evs))))) th = (e, s') →
  inv (evs ++ [e]) s'.
Proof.
  intros [Ic Ip Is Iw Ik If] E. destruct (events_snoc evs e) as (Ea & Et & Ef). cbn [cache threads] in *.
  unfold flush_turn, flush_loop in E. cbn [cached_thread_count tc_list kill_cached_threads] in E.
  destruct (truth (cached_thread_count c)) eqn:Ht; injection E as <- <-.
  - assert (∀ f, sum f (<[t := FlushWaiting]> (broadcast th)) = (f FlushWaiting + sum f (broadcast (delete t th)))%nat) as Hs.
    { intros f. rewrite <- insert_delete_eq, sum_insert by apply lookup_delete_eq. unfold broadcast. by rewrite fmap_delete. }
    destruct (broadcast_sums (delete t th)) as (B1 & B2 & B3 & B4 & _).
    split; cbn [cache threads cached_thread_count tc_list kill_cached_threads]; rewrite ?Hs, ?B1, ?B2, ?B3, ?B4, ?Ea, ?Et, ?Ef;
      cbn; rewrite ?app_nil_r, ?Nat.add_0_r; try done.
    lia.
  - split; cbn [cache threads cached_thread_count tc_list kill_cached_threads]; rewrite ?Ea, ?Et, ?Ef;
      cbn; rewrite ?app_nil_r, ?Nat.add_0_r; try done.
    unfold to_uint32, wrap. rewrite Zminus_mod_idemp_l. f_equal. lia.
Qed.

(** The invariant without a thread that is neither parked nor about to signal. *)
Lemma inv_delete evs s t st : inv evs s → threads s !! t = Some st →
  parked st = 0%nat → is_signalling st = 0%nat →
  inv evs (St (Tc (tc_list (cache s)) (cached_thread_count (cache s))
                  (to_uint32 (Z.of_nat (sum is_flusher (delete t (threads s)) + finals evs)))) (delete t (threads s))).
Proof.
  intros [Ic Ip Is Iw Ik If] Ht H1 H2. rewrite (sum_delete _ _ _ _ Ht), H1 in Ic, Is.
  rewrite (sum_delete _ _ _ _ Ht), (sum_delete is_signalling _ _ _ Ht), H2 in Iw.
  unfold parked in H1. split; cbn; try done. lia.
Qed.

(** Another critical section by the thread [t]. *)
Lemma inv_update evs s t c st e : inv evs s →
  let old f := match threads s !! t with Some st => f st | None => 0%nat end in
  cached_thread_count c + Z.of_nat (length (tc_list c)) + Z.of_nat (old parked)
    = cached_thread_count (cache s) + Z.of_nat (length (tc_list (cache s))) + Z.of_nat (parked st) →
  0 ≤ cached_thread_count c →
  cached_thread_count c + Z.of_nat (length (tc_list c)) ≤ thread_cache_size →
  (length (tc_list c) + old is_woken + old is_signalling
   ≤ length (tc_list (cache s)) + is_woken st + is_signalling st ∨ length (tc_list c) = 0)%nat →
  kill_cached_threads c = to_uint32 (kill_cached_threads (cache s) + Z.of_nat (finals [e])) →
  old is_flusher = is_flusher st →
  tc_list (cache s) ++ accepted [e] = taken [e] ++ tc_list c →
  inv (evs ++ [e]) (St c (<[t := st]> (threads s))).
Proof.
  intros [Ic Ip Is Iw Ik If] old Hc Hp Hs Hw Hk Hf Ht. destruct (events_snoc evs e) as (Ea & Et & Ef).
  assert (∀ f, old f + sum f (<[t := st]> (threads s)) = f st + sum f (threads s))%nat as Hsum.
  { intros f. unfold old. destruct (threads s !! t) as [st0|] eqn:E; [by apply sum_update|]. by apply sum_insert. }
  pose proof (Hsum parked) as S1. pose proof (Hsum is_woken) as S2. pose proof (Hsum is_signalling) as S3.
  pose proof (Hsum is_flusher) as S4.
  split; cbn [cache threads]; try done; try lia.
  - rewrite Hk, Ik, Ef. unfold to_uint32. rewrite wrap_add_l. f_equal. lia.
  - rewrite Ea, Et, If, <- app_assoc, Ht. by rewrite app_assoc.
Qed.

(** A step that changes no sum that counts. *)
Lemma inv_same evs s th e : inv evs s →
  (∀ f, f ∈ [parked; is_woken; is_signalling; is_flusher] → sum f th = sum f (threads s)) →
  accepted [e] = [] → taken [e] = [] → finals [e] = 0%nat → inv (evs ++ [e]) (St (cache s) th).
Proof.
  intros [Ic Ip Is Iw Ik If] Hs Ha Ht Hf. destruct (events_snoc evs e) as (Ea & Et & Ef).
  split; cbn [cache threads]; rewrite ?Hs by set_solver; try done.
  - rewrite Ef, Hf, Nat.add_0_r. done.
  - by rewrite Ea, Et, Ha, Ht, !app_nil_r.
Qed.

(** The signal of [enqueue] is not lost: nobody waits, or one thread is woken. *)
Lemma inv_signal evs s t th : inv evs s → threads s !! t = Some Signalling →
  signal Waiting (Woken false) (delete t (threads s)) th → inv (evs ++ [Silent]) (St (cache s) th).
Proof.
  intros [Ic Ip Is Iw Ik If] Ht Hs. destruct (events_snoc evs Silent) as (Ea & Et & Ef).
  assert (∀ f, sum f (threads s) = (f Signalling + sum f (delete t (threads s)))%nat) as Hd by (intros f; by apply sum_delete).
  rewrite !Hd in *. cbn in Ea, Et, Ef. rewrite app_nil_r in Ea, Et. rewrite Nat.add_0_r in Ef.
  apply signal_sum in Hs as [(t' & Ht' & -> & Hsum)|[-> Hno]].
  - pose proof (Hsum parked) as S1. pose proof (Hsum is_woken) as S2. pose proof (Hsum is_signalling) as S3.
    pose proof (Hsum is_flusher) as S4. cbn in *.
    split; cbn [cache threads]; rewrite ?Ea, ?Et, ?Ef; try done; try lia. rewrite Ik. do 2 f_equal. lia.
  - pose proof (no_waiting _ Hno) as Hw. rewrite parked_split in *. cbn in *.
    split; cbn [cache threads]; rewrite ?parked_split, ?Ea, ?Et, ?Ef; try done; try lia.
Qed.

Lemma to_ulong_ok x : 0 ≤ x < 2 ^ 32 → to_ulong x = x.
Proof. intros H. unfold to_ulong. by apply wrap_id. Qed.

Lemma inv_step evs s e s' : inv evs s → step s e s' → inv (evs ++ [e]) s'.
Proof.
  intros I Hs. pose proof I as [Ic Ip Is Iw Ik If].
  assert (to_uint32 (kill_cached_threads (cache s) + 0) = kill_cached_threads (cache s)) as Hk0.
  { rewrite Z.add_0_r, Ik. apply wrap_wrap. }
  destruct Hs as [s e s' Hi|s t c st Ht E|s t timeout Ht|s t connect c b Ht E|s t e s' Ht E|s t Ht|s t Ht].
  - destruct Hi as [s t timeout c st Ht E|s t connect flushed th Ht E|s t th Ht E|s t e s' Ht E].
    + pose proof (sum_delete parked _ _ _ Ht) as Hp1. cbn in Hp1. unfold park_wake in E.
      destruct (tc_list (cache s)) as [|x r] eqn:El; [destruct (_ || _)|]; injection E as <- <-;
        apply inv_update; rewrite ?Ht, ?El; cbn in *; rewrite ?to_ulong_ok by lia; try done; try lia; rewrite ?El, ?app_nil_r; try done; lia.
    + apply (inv_same _ _ _ _ I); [|done..]. intros f Hf.
      assert (sum f (threads s) = sum f (delete t (threads s))) as ->.
      { rewrite (sum_delete f _ _ _ Ht). by repeat (apply elem_of_cons in Hf as [->|Hf]; [done|]); apply elem_of_nil in Hf. }
      destruct flushed; [|by rewrite E]. apply signal_sum in E as [(t' & _ & -> & Hsum)|[-> _]]; [|done].
      specialize (Hsum f). repeat (apply elem_of_cons in Hf as [->|Hf]; [cbn in Hsum; lia|]). by apply elem_of_nil in Hf.
    + by apply (inv_signal _ _ t).
    + pose proof (inv_delete _ _ _ _ I Ht eq_refl eq_refl) as Id. apply (flush_turn_inv _ _ _ _ _ _ Id).
      rewrite <- E. f_equal. destruct (cache s); cbn in *. rewrite Ik. do 3 f_equal.
      rewrite (sum_delete is_flusher _ _ _ Ht). cbn. lia.
  - unfold park_enter in E. destruct (tc_list (cache s)) as [|x r] eqn:El.
    + destruct (Z.ltb_spec (cached_thread_count (cache s)) thread_cache_size); cbn [andb] in E;
        [destruct (negb _)|]; injection E as <- <-; apply inv_update; rewrite ?Ht, ?El; cbn in *;
        rewrite ?to_ulong_ok by lia; try done; try lia; rewrite ?El, ?app_nil_r; try done; try lia.
    + injection E as <- <-. apply inv_update; rewrite ?Ht, ?El; cbn in *; rewrite ?to_ulong_ok by lia; rewrite ?app_nil_r; try done; lia.
  - apply inv_update; rewrite ?Ht; cbn in *; try done; try lia. by rewrite app_nil_r.
  - unfold enqueue in E. destruct (truth (cached_thread_count (cache s))) eqn:Hc; injection E as <- <-.
    + apply truth_true in Hc. apply inv_update; rewrite ?Ht; cbn; rewrite ?length_app, ?to_ulong_ok by lia; cbn; try done; lia.
    + by apply (inv_same _ _ _ _ I).
  - assert (inv evs (St (Tc (tc_list (cache s)) (cached_thread_count (cache s))
       (to_uint32 (Z.of_nat (sum is_flusher (delete t (threads s)) + finals evs)))) (delete t (threads s)))
      ∧ sum is_flusher (threads s) = sum is_flusher (delete t (threads s))) as [Id Hfl].
    { destruct Ht as [Ht|Ht].
      - rewrite (delete_id _ _ Ht). split; [|done]. rewrite <- Ik. by destruct s as [[] ?].
      - split; [by apply (inv_delete _ _ _ _ I Ht)|]. by rewrite (sum_delete _ _ _ _ Ht). }
    apply (flush_turn_inv _ _ _ _ _ _ Id). rewrite <- E. f_equal. unfold flush_enter. f_equal; [done..|].
    rewrite Ik, Hfl. unfold to_uint32. rewrite wrap_add_l. f_equal. lia.
  - apply inv_update; rewrite ?Ht; cbn; try done; try lia. by rewrite app_nil_r.
  - apply inv_update; rewrite ?Ht; cbn; try done; try lia. by rewrite app_nil_r.
Qed.

Lemma inv_run ok evs s : run ok evs s → inv evs s.
Proof.
  induction 1 as [|evs s e s' _ IH Hs _]; [|by apply (inv_step _ s)].
  assert (∀ f, sum f ∅ = 0%nat) as H0 by done. split; cbn [cache threads initial]; rewrite ?H0; cbn; try done; lia.
Qed.

(** *** One [flush] at a time *)

Definition one_flush (s : state) : Prop := (sum is_flusher (threads s) ≤ 1)%nat.

(** While a [flush] waits, nobody waits to be woken and somebody is on the way
    to the signal that ends the wait. *)
Record flush_inv (s : state) : Prop := {
  f_nobody : sum is_flusher (threads s) ≠ 0%nat → sum is_waiting (threads s) = 0%nat;
  f_signal : sum is_flush_waiting (threads s) ≠ 0%nat →
    (sum is_woken (threads s) + sum is_flushed (threads s) ≠ 0)%nat }.

Lemma kill_true evs s : inv evs s → sum is_flusher (threads s) ≠ 0%nat →
  one_flush s → Z.of_nat (S (finals evs)) < 2 ^ 32 → truth (kill_cached_threads (cache s)) = true.
Proof.
  intros I Hf Ho Hn. apply truth_true. rewrite (i_kill _ _ I). unfold to_uint32, one_flush in *.
  rewrite wrap_id; [lia|]. unfold in_u. lia.
Qed.

Lemma flush_waiting_le th : (sum is_flush_waiting th ≤ sum is_flusher th)%nat.
Proof.
  induction th as [|t st th Ht IH] using map_ind; [done|]. rewrite !sum_insert by done.
  destruct st; cbn; lia.
Qed.

(** Another status of one thread. *)
Lemma flush_inv_update s t c st : flush_inv s →
  let old f := match threads s !! t with Some st => f st | None => 0%nat end in
  old is_flusher = is_flusher st → old is_flush_waiting = is_flush_waiting st →
  (sum is_flusher (threads s) ≠ 0%nat → old is_waiting = is_waiting st) →
  (sum is_flusher (threads s) ≠ 0%nat → old is_woken + old is_flushed = is_woken st + is_flushed st)%nat →
  flush_inv (St c (<[t := st]> (threads s))).
Proof.
  intros [Hn Hs] old H1 H2 H3 H4.
  assert (∀ f, old f + sum f (<[t := st]> (threads s)) = f st + sum f (threads s))%nat as Hsum.
  { intros f. unfold old. destruct (threads s !! t) as [st0|] eqn:E; [by apply sum_update|]. by apply sum_insert. }
  pose proof (Hsum is_flusher). pose proof (Hsum is_flush_waiting). pose proof (Hsum is_waiting).
  pose proof (Hsum is_woken). pose proof (Hsum is_flushed). pose proof (flush_waiting_le (threads s)).
  split; cbn [threads]; intros Hx; [assert (sum is_flusher (threads s) ≠ 0%nat) as Hf by lia|assert (sum is_flusher (threads s) ≠ 0%nat) as Hf by lia];
    specialize (H3 Hf); specialize (H4 Hf); specialize (Hn Hf); lia.
Qed.

Lemma flush_turn_flush_inv t c th e s' :
  (truth (cached_thread_count c) = true → sum parked (delete t th) ≠ 0%nat) →
  flush_inv (St c (delete t th)) → flush_turn t c th = (e, s') → flush_inv s'.
Proof.
  intros Hp Hd E. unfold flush_turn, flush_loop in E. destruct (truth (cached_thread_count c)); injection E as <- <-; [|by destruct Hd].
  assert (∀ f, sum f (<[t := FlushWaiting]> (broadcast th)) = (f FlushWaiting + sum f (broadcast (delete t th)))%nat) as Hs.
  { intros f. rewrite <- insert_delete_eq, sum_insert by apply lookup_delete_eq. unfold broadcast. by rewrite fmap_delete. }
  destruct (broadcast_sums (delete t th)) as (B1 & B2 & B3 & B4 & B5). specialize (Hp eq_refl).
  split; cbn [threads]; rewrite !Hs, ?B5, ?B2; cbn; lia.
Qed.

Lemma flush_inv_step evs s e s' : inv evs s → flush_inv s → one_flush s → Z.of_nat (S (finals evs)) < 2 ^ 32 →
  step s e s' → flush_inv s'.
Proof.
  intros I J Ho Hn Hs. pose proof (kill_true evs s I) as Hk. pose proof J as [Jn Jw].
  assert (∀ t st, threads s !! t = Some st → parked st = 0%nat → truth (cached_thread_count (cache s)) = true →
    sum parked (delete t (threads s)) ≠ 0%nat) as Hpk.
  { intros t st Ht H0 Hc%truth_true. pose proof (i_count _ _ I) as Ic. pose proof (i_pos _ _ I).
    rewrite (sum_delete _ _ _ _ Ht), H0 in Ic. lia. }
  destruct Hs as [s e s' Hi|s t c st Ht E|s t timeout Ht|s t connect c b Ht E|s t e s' Ht E|s t Ht|s t Ht].
  - destruct Hi as [s t timeout c st Ht E|s t connect flushed th Ht E|s t th Ht E|s t e s' Ht E].
    + unfold park_wake in E. destruct (tc_list (cache s)) as [|x r]; [destruct (truth _) eqn:Hkk; cbn [orb] in E;
        [|destruct timeout]|]; injection E as <- <-; apply flush_inv_update; rewrite ?Ht; cbn; try done;
        intros Hf; specialize (Hk Hf Ho Hn); congruence || (by rewrite Hk).
    + pose proof (λ f, sum_delete f _ _ _ Ht) as Hd.
      destruct flushed; [apply signal_sum in E as [(t' & Ht' & -> & Hsum)|[-> Hno]]|subst th]; split; cbn [threads]; intros Hx.
      * pose proof (Hsum is_flusher). pose proof (Hsum is_waiting). rewrite !Hd in Jn. cbn in *. lia.
      * pose proof (Hsum is_flush_waiting). pose proof (flush_waiting_le (threads s)). unfold one_flush in Ho.
        rewrite !Hd in *. cbn in *. lia.
      * rewrite !Hd in Jn. cbn in *. lia.
      * destruct Hx. apply sum_zero. intros t0 st0 H0. destruct st0; try done. by destruct (Hno t0).
      * rewrite !Hd in Jn. cbn in *. lia.
      * rewrite !Hd in Jw. cbn in *. lia.
    + pose proof (λ f, sum_delete f _ _ _ Ht) as Hd. apply signal_sum in E as [(t' & Ht' & -> & Hsum)|[-> Hno]].
      * assert (sum is_flusher (threads s) = 0%nat) as Hz.
        { destruct (decide (sum is_flusher (threads s) = 0%nat)) as [|Hz]; [done|]. specialize (Jn Hz).
          rewrite Hd in Jn. rewrite (sum_delete is_waiting _ _ _ Ht') in Jn. cbn in Jn. lia. }
        pose proof (Hsum is_flusher). pose proof (Hsum is_flush_waiting). pose proof (flush_waiting_le (threads s)).
        rewrite !Hd in *. cbn in *. split; cbn [threads]; lia.
      * rewrite !Hd in *. cbn in *. by split.
    + apply (flush_turn_flush_inv t (cache s) (threads s) e s'); [by apply (Hpk t FlushWoken)| |done].
      pose proof (λ f, sum_delete f _ _ _ Ht) as Hd. unfold one_flush in Ho. rewrite !Hd in *. cbn in *.
      pose proof (flush_waiting_le (delete t (threads s))). split; cbn [threads]; lia.
  - unfold park_enter in E. destruct (tc_list (cache s)) as [|x r]; [destruct (_ && _) eqn:Hc|]; injection E as <- <-;
      apply flush_inv_update; rewrite ?Ht; cbn; try done; intros Hf; specialize (Hk Hf Ho Hn); rewrite Hk in Hc;
      by rewrite andb_false_r in Hc.
  - apply flush_inv_update; rewrite ?Ht; cbn; try done; intros Hf; specialize (Jn Hf); rewrite (sum_delete _ _ _ _ Ht) in Jn; done.
  - destruct b; [|by destruct J]. apply flush_inv_update; rewrite ?Ht; done.
  - apply (flush_turn_flush_inv t (flush_enter (cache s)) (threads s) e s'); [|  |exact E].
    + cbn. destruct Ht as [Ht|Ht]; [|by apply (Hpk t Flushing)]. rewrite (delete_id _ _ Ht). intros Hc%truth_true.
      pose proof (i_count _ _ I). pose proof (i_pos _ _ I). lia.
    + destruct Ht as [Ht|Ht]; [rewrite (delete_id _ _ Ht); by destruct J|].
      pose proof (λ f, sum_delete f _ _ _ Ht) as Hd. rewrite !Hd in *. by split.
  - pose proof (λ f, sum_update f _ _ _ FlushWoken Ht) as Hu.
    pose proof (Hu is_flusher). pose proof (Hu is_waiting). pose proof (Hu is_woken). pose proof (Hu is_flushed).
    pose proof (Hu is_flush_waiting). cbn in *. split; cbn [threads]; lia.
  - apply flush_inv_update; rewrite ?Ht; done.
Qed.

Lemma flush_inv_run evs s : run one_flush evs s → Z.of_nat (S (finals evs)) < 2 ^ 32 → flush_inv s ∧ one_flush s.
Proof.
  induction 1 as [|evs s e s' R IH Hs Ho]; intros Hn.
  - split; [by split|]. unfold one_flush. cbn. assert (sum is_flusher ∅ = 0%nat) as -> by done. lia.
  - destruct (events_snoc evs e) as (_ & _ & Ef). rewrite Ef in Hn. destruct IH as [J Ho']; [lia|].
    split; [|done]. apply (flush_inv_step evs s e); [by apply (inv_run one_flush)|done..|lia|done].
Qed.

(** What is left to do inside the code, for each thread. *)
Definition work (st : status) : nat :=
  match st with Woken _ => 4 | Leaving _ _ => 2 | Signalling | FlushWoken => 1 | _ => 0 end.

Lemma work_broadcast th : sum is_waiting th = 0%nat → sum work (broadcast th) = sum work th.
Proof.
  intros Hw. rewrite sum_broadcast.
  rewrite (sum_split (λ st, work (wake st)) work (λ st, 4 * is_waiting st)%nat) by by intros [].
  assert (sum (λ st, 4 * is_waiting st)%nat th = 0%nat) as ->; [|lia].
  apply sum_zero. intros t st Ht. pose proof (proj2 (sum_zero is_waiting th) Hw t st Ht). lia.
Qed.

Lemma internal_work evs s e s' : inv evs s → flush_inv s → one_flush s → Z.of_nat (S (finals evs)) < 2 ^ 32 →
  sum is_flusher (threads s) ≠ 0%nat → internal s e s' →
  (sum work (threads s') < sum work (threads s))%nat ∧ one_flush s' ∧ finals [e] = 0%nat.
Proof.
  intros I [Jn Jw] Ho Hn Hf Hi. specialize (Jn Hf). pose proof (kill_true evs s I Hf Ho Hn) as Hk. unfold one_flush in *.
  destruct Hi as [s t timeout c st Ht E|s t connect flushed th Ht E|s t th Ht E|s t e s' Ht E];
    pose proof (λ f, sum_delete f _ _ _ Ht) as Hd.
  - unfold park_wake in E. rewrite Hk in E. cbn [orb] in E.
    pose proof (λ f st, sum_update f _ _ _ st Ht) as Hu.
    destruct (tc_list (cache s)) as [|x r]; injection E as <- <-; cbn [threads];
      match goal with |- context [<[t := ?st]> _] => pose proof (Hu work st); pose proof (Hu is_flusher st) end; cbn in *; lia.
  - destruct flushed; [apply signal_sum in E as [(t' & Ht' & -> & Hsum)|[-> Hno]]|subst th]; cbn [threads];
      try (pose proof (Hsum work); pose proof (Hsum is_flusher)); rewrite !Hd in *; cbn in *; lia.
  - apply signal_sum in E as [(t' & Ht' & -> & Hsum)|[-> Hno]].
    + rewrite Hd, (sum_delete is_waiting _ _ _ Ht') in Jn. cbn in Jn. lia.
    + cbn [threads]. rewrite !Hd in *. cbn in *. lia.
  - unfold flush_turn, flush_loop in E. destruct (truth _); injection E as <- <-; cbn [threads].
    + assert (∀ f, sum f (<[t := FlushWaiting]> (broadcast (threads s))) = (f FlushWaiting + sum f (broadcast (delete t (threads s))))%nat) as Hs.
      { intros f. rewrite <- insert_delete_eq, sum_insert by apply lookup_delete_eq. unfold broadcast. by rewrite fmap_delete. }
      destruct (broadcast_sums (delete t (threads s))) as (_ & _ & _ & B4 & _).
      rewrite !Hs, B4, work_broadcast by (rewrite Hd in Jn; cbn in Jn; lia). rewrite !Hd in *. cbn in *. lia.
    + rewrite !Hd in *. cbn in *. lia.
Qed.

(** [n] internal steps, while a [flush] is in progress. *)
Inductive internal_run : nat → state → state → Prop :=
  | internal_done s : internal_run 0 s s
  | internal_more n s e s1 s2 : sum is_flusher (threads s) ≠ 0%nat → internal s e s1 → internal_run n s1 s2 →
      internal_run (S n) s s2.

Lemma internal_enabled s : flush_inv s → sum is_flusher (threads s) ≠ 0%nat → ∃ e s', internal s e s'.
Proof.
  intros [Jn Jw] Hf. destruct (sum_pos _ _ Hf) as (t & st & Ht & Hst). destruct st; try done.
  - assert (sum is_flush_waiting (threads s) ≠ 0%nat) as Hw by (rewrite (sum_delete _ _ _ _ Ht); cbn; lia).
    specialize (Jw Hw). destruct (decide (sum is_woken (threads s) = 0%nat)) as [Hz|Hz].
    + destruct (sum_pos is_flushed (threads s)) as (t' & st & Ht' & Hs); [lia|]. destruct st as [| |connect []| | | |]; try done.
      eexists _, _. eapply (step_leave s t' connect true); [done|]. apply (signal_one _ _ _ t).
      rewrite lookup_delete_ne; [done|]. intros ->. by rewrite Ht in Ht'.
    + destruct (sum_pos is_woken (threads s)) as (t' & st & Ht' & Hs); [lia|]. destruct st as [|timeout| | | | |]; try done.
      destruct (park_wake timeout (cache s)) as [c st] eqn:E. eexists _, _. by apply (step_wake s t' timeout c st).
  - destruct (flush_turn t (cache s) (threads s)) as [e s'] eqn:E. exists e, s'. by apply (step_flush_wake s t).
Qed.

Lemma flushed_empty evs s s' : inv evs s → step s Flushed s' →
  Z.of_nat (sum parked (threads s')) = Z.of_nat (length (tc_list (cache s'))).
Proof.
  intros I Hs. pose proof (inv_step _ _ _ _ I Hs) as I'. rewrite <- (i_count _ _ I').
  assert (cached_thread_count (cache s') = 0) as ->; [|done].
  assert (∀ t c th, flush_turn t c th = (Flushed, s') → cached_thread_count (cache s') = 0) as Hft.
  { intros t c th. unfold flush_turn, flush_loop. destruct (truth (cached_thread_count c)) eqn:Hc; intros [= <-].
    by apply truth_false in Hc. }
  assert (∀ st, took st ≠ Flushed) as Htook by by intros [| |[]| | | |].
  inversion Hs as [? ? ? Hi|? ? ? ? ? ? Hx|?|? ? ? ? b|? ? ? ? ? ?|?|?]; subst; try done; eauto.
  - inversion Hi; subst; try done; eauto. by destruct (Htook st).
  - by destruct (Htook st).
  - by destruct b.
Qed.

(** Any steps from a state but spurious wake-ups of a [flush]. *)
Inductive steps (s : state) : list event → state → Prop :=
  | steps_done : steps s [] s
  | steps_more evs s1 e s2 : steps s evs s1 → step s1 e s2 → e ≠ Spurious → steps s (evs ++ [e]) s2.

(** Only the thread [t] waits, and it waits for a signal that nobody will send. *)
Definition stuck (t : nat) (s : state) : Prop :=
  cached_thread_count (cache s) = 0 ∧ tc_list (cache s) = [] ∧ threads s !! t = Some FlushWaiting
  ∧ ∀ t' st, t' ≠ t → threads s !! t' = Some st → st = Signalling ∨ st = Flushing ∨ st = Leaving None false.

Lemma stuck_update t t' c s st : stuck t s → t' ≠ t →
  cached_thread_count c = 0 → tc_list c = [] → st = Signalling ∨ st = Flushing ∨ st = Leaving None false →
  stuck t (St c (<[t' := st]> (threads s))).
Proof.
  intros (_ & _ & H3 & H4) Hne Hc Hl Hst. unfold stuck. cbn [cache threads]. split_and!; [done|done|by rewrite lookup_insert_ne|].
  intros t0 st0 Hn. destruct (decide (t0 = t')) as [->|]; [rewrite lookup_insert_eq; by intros [= <-]|].
  rewrite lookup_insert_ne by done. by apply H4.
Qed.

Lemma stuck_delete t t' c s : stuck t s → t' ≠ t → cached_thread_count c = 0 → tc_list c = [] →
  stuck t (St c (delete t' (threads s))).
Proof.
  intros (_ & _ & H3 & H4) Hne Hc Hl. unfold stuck. cbn [cache threads]. split_and!; [done|done|by rewrite lookup_delete_ne|].
  intros t0 st0 Hn. destruct (decide (t0 = t')) as [->|]; [by rewrite lookup_delete_eq|].
  rewrite lookup_delete_ne by done. by apply H4.
Qed.

Lemma stuck_kill evs t s : inv evs s → stuck t s → Z.of_nat (S (finals evs)) < 2 ^ 32 →
  truth (kill_cached_threads (cache s)) = true.
Proof.
  intros I (_ & _ & H3 & H4) Hn. rewrite (kill_true evs s I); [done| | |done].
  - rewrite (sum_delete _ _ _ _ H3). done.
  - unfold one_flush. rewrite (sum_delete _ _ _ _ H3).
    rewrite (proj1 (sum_zero is_flusher (delete t (threads s)))); [done|].
    intros t' st Ht'. destruct (decide (t' = t)) as [->|]; [by rewrite lookup_delete_eq in Ht'|].
    rewrite lookup_delete_ne in Ht' by done. by destruct (H4 t' st) as [->|[->| ->]].
Qed.

Lemma stuck_step evs t s e s' : inv evs s → stuck t s → Z.of_nat (S (finals evs)) < 2 ^ 32 → step s e s' → e ≠ Spurious →
  stuck t s' ∧ accepted [e] = [].
Proof.
  intros I K Hn Hs Hsp. pose proof (stuck_kill evs t s I K Hn) as Hk. pose proof K as (H1 & H2 & H3 & H4).
  assert (∀ t' st, threads s !! t' = Some st → st ≠ FlushWaiting → t' ≠ t) as Hne.
  { intros t' st Ht' Hst ->. congruence. }
  destruct Hs as [s e s' Hi|s t0 c st Ht E|s t0 timeout Ht|s t0 connect c b Ht E|s t0 e s' Ht E|s t0 Ht|s t0 Ht].
  - destruct Hi as [s t0 timeout c st Ht E|s t0 connect flushed th Ht E|s t0 th Ht E|s t0 e s' Ht E];
      (destruct (H4 t0 _ ltac:(by eapply Hne) Ht) as [Hst|[Hst|Hst]]; try done).
    + injection Hst as -> ->. subst th. split; [|done]. by apply stuck_delete; [|by eapply Hne|..].
    + split; [|done]. apply signal_sum in E as [(t' & Ht' & _)|[-> _]].
      * exfalso. destruct (decide (t' = t0)) as [->|]; [by rewrite lookup_delete_eq in Ht'|].
        rewrite lookup_delete_ne in Ht' by done. destruct (H4 t' Waiting) as [?|[?|?]]; try done. by eapply Hne.
      * by apply stuck_delete; [|by eapply Hne|..].
  - assert (t0 ≠ t) by congruence. unfold park_enter in E. rewrite H2, Hk, andb_false_r in E. injection E as <- <-.
    split; [|done]. apply stuck_update; auto.
  - destruct (H4 t0 Waiting) as [?|[?|?]]; try done. by eapply Hne.
  - unfold enqueue in E. rewrite H1 in E. injection E as <- <-. by split; [destruct s|].
  - assert (t0 ≠ t) by (destruct Ht as [Ht|Ht]; congruence). unfold flush_turn, flush_loop in E.
    cbn [flush_enter cached_thread_count] in E. rewrite H1 in E. injection E as <- <-. split; [|done].
    by apply stuck_delete.
  - done.
  - assert (t0 ≠ t) by congruence. split; [|done]. apply stuck_update; auto.
Qed.

(** ** Theorems *)

(** C1: The cache is safe however the threads interleave.  Connections are
    taken in the order in which they were accepted, each exactly once, and the
    rest is in the queue; the counter is the number of parked threads less the
    length of the queue and never wraps, so an accepted connection always has a
    parked thread; no more threads are parked than [thread_cache_size]; and no
    wake-up is lost: there are at least as many threads awake, or signals about to
    be sent, as there are connections in the queue. *)
Theorem thread_cache_safe evs s (R : run (λ _, True) evs s) :
  accepted evs = taken evs ++ tc_list (cache s)
  ∧ cached_thread_count (cache s) = Z.of_nat (sum parked (threads s)) - Z.of_nat (length (tc_list (cache s)))
  ∧ 0 ≤ cached_thread_count (cache s) ∧ Z.of_nat (sum parked (threads s)) ≤ thread_cache_size
  ∧ (length (tc_list (cache s)) ≤ sum is_woken (threads s) + sum is_signalling (threads s))%nat.
Proof. destruct (inv_run _ _ _ R) as [Ic Ip Is Iw Ik If]. split_and!; try done. lia. Qed.

(** C16: A [flush] ends.  In any execution in which calls of [flush] do not
    overlap, while one is in progress some thread in the code can take a step;
    each such step leaves less to do, whichever thread takes it, so a run of these
    steps is bounded by the work there is, and one that cannot go on has left
    [flush].  No timeout is needed: nobody waits any more to be woken.  When a
    [flush] returns, every thread still parked has a connection to serve. *)
Theorem thread_cache_flush_ends evs s (R : run one_flush evs s) (Hn : Z.of_nat (S (finals evs)) < 2 ^ 32)
    (Hf : sum is_flusher (threads s) ≠ 0%nat) :
  sum is_waiting (threads s) = 0%nat ∧ (∃ e s', internal s e s')
  ∧ (∀ n s', internal_run n s s' → (n + sum work (threads s') ≤ sum work (threads s))%nat
     ∧ ((∀ e s2, ¬ internal s' e s2) → sum is_flusher (threads s') = 0%nat))
  ∧ (∀ s', step s Flushed s' → Z.of_nat (sum parked (threads s')) = Z.of_nat (length (tc_list (cache s')))).
Proof.
  destruct (flush_inv_run evs s R Hn) as [J Ho]. split; [by apply J|]. split; [by apply internal_enabled|].
  split; [|intros s' Hs; by apply (flushed_empty evs s s' (inv_run _ _ _ R))]. intros n s' Hr. clear Hf. revert evs R Hn J Ho.
  induction Hr as [s|n s e s1 s2 Hf Hi Hr IH]; intros evs R Hn J Ho.
  - split; [lia|]. intros Hstop. destruct (decide (sum is_flusher (threads s) = 0%nat)) as [|Hz]; [done|].
    destruct (internal_enabled s J Hz) as (e & s' & Hi). by destruct (Hstop e s').
  - pose proof (inv_run _ _ _ R) as I. destruct (internal_work evs s e s1 I J Ho Hn Hf Hi) as (Hw & Ho1 & He).
    destruct (events_snoc evs e) as (_ & _ & Ef). rewrite He, Nat.add_0_r in Ef.
    destruct (IH (evs ++ [e])) as [H1 H2]; [by apply (run_step _ _ s); [|apply step_internal|]|by rewrite Ef| |done|split; [lia|done]].
    apply (flush_inv_step evs s e); [done..|by apply step_internal].
Qed.

(** Two [flush] calls that overlap can lose a wake-up: a thread that leaves the
    cache wakes only one of them.  With one parked thread, one flush returns and
    the other waits for ever, whatever happens after that, unless it is woken
    spuriously or the counter of flush requests overflows; and from then on no thread parks and no connection
    is accepted. *)
Theorem thread_cache_flush_lost_wakeup (Hpos : 0 < thread_cache_size) :
  ∃ evs s t, run (λ _, True) evs s ∧ threads s !! t = Some FlushWaiting
    ∧ ∀ evs' s', steps s evs' s' → Z.of_nat (S (finals evs')) < 2 ^ 32 →
      threads s' !! t = Some FlushWaiting ∧ sum parked (threads s') = 0%nat ∧ accepted evs' = [].
Proof.
  set (c1 := Tc [] 1 0). set (c2 := Tc [] 1 1). set (c3 := Tc [] 1 2). set (c4 := Tc [] 0 2). set (c5 := Tc [] 0 1).
  set (th1 := {[1%nat := Waiting]} : gmap nat status).
  set (th2 := <[2%nat := FlushWaiting]> (broadcast th1)). set (th3 := <[3%nat := FlushWaiting]> (broadcast th2)).
  set (th4 := <[1%nat := Leaving None true]> th3). set (th5 := <[2%nat := FlushWoken]> (delete 1%nat th4)).
  assert (run (λ _, True) [Silent] (St c1 th1)) as R1.
  { eapply (run_step _ [] initial Silent); [constructor| |done].
    apply (step_park initial 1 c1 Waiting); [done|]. unfold park_enter. cbn.
    destruct (Z.ltb_spec 0 thread_cache_size); [done|lia]. }
  assert (run (λ _, True) [Silent; Silent] (St c2 th2)) as R2.
  { apply (run_step _ [Silent] _ _ _ R1); [|done]. apply (step_flush _ 2); [by left|done]. }
  assert (run (λ _, True) [Silent; Silent; Silent] (St c3 th3)) as R3.
  { apply (run_step _ [Silent; Silent] _ _ _ R2); [|done]. apply (step_flush _ 3); [by left|done]. }
  assert (run (λ _, True) [Silent; Silent; Silent; Silent] (St c4 th4)) as R4.
  { apply (run_step _ [Silent; Silent; Silent] _ _ _ R3); [|done]. apply step_internal.
    exact (step_wake (St c3 th3) 1 false c4 (Leaving None true) eq_refl eq_refl). }
  assert (run (λ _, True) [Silent; Silent; Silent; Silent; Silent] (St c4 th5)) as R5.
  { apply (run_step _ [Silent; Silent; Silent; Silent] _ _ _ R4); [|done]. apply step_internal.
    apply (step_leave (St c4 th4) 1 None true); [done|]. by apply (signal_one _ _ _ 2). }
  assert (run (λ _, True) [Silent; Silent; Silent; Silent; Silent; Flushed] (St c5 (delete 2%nat th5))) as R6.
  { apply (run_step _ [Silent; Silent; Silent; Silent; Silent] _ _ _ R5); [|done]. apply step_internal.
    by apply (step_flush_wake (St c4 th5) 2). }
  exists [Silent; Silent; Silent; Silent; Silent; Flushed], (St c5 (delete 2%nat th5)), 3%nat. split; [exact R6|]. split; [done|].
  assert (stuck 3 (St c5 (delete 2%nat th5))) as K.
  { split_and!; [done..|]. intros t' st Hne Ht'. exfalso.
    assert (delete 2%nat th5 = {[3%nat := FlushWaiting]}) as E by (by vm_compute).
    cbn [threads] in Ht'. rewrite E, lookup_singleton_ne in Ht' by done. done. }
  intros evs' s' Hs Hn.
  assert (stuck 3 s' ∧ accepted evs' = [] ∧ inv ([Silent; Silent; Silent; Silent; Silent; Flushed] ++ evs') s') as (K' & Ha & I).
  { induction Hs as [|evs' s1 e s2 Hs IH Hst Hsp].
    - split_and!; [done|done|]. by apply (inv_run (λ _, True)).
    - destruct (events_snoc evs' e) as (Ea & _ & Ef). destruct IH as (K1 & Ha1 & I1); [lia|].
      destruct (stuck_step _ 3 s1 e s2 I1 K1) as [K2 Hae]; [|done|done|].
      { cbn. unfold finals in *. lia. }
      split_and!; [done|by rewrite Ea, Ha1, Hae|]. rewrite app_assoc. by apply (inv_step _ s1). }
  destruct K' as (H1 & H2 & H3 & H4). split; [done|]. split; [|done].
  pose proof (i_count _ _ I) as Hc. rewrite H1, H2 in Hc. cbn in Hc. lia.
Qed.
End Code.

(** ** Witnesses *)

(** One thread parks. *)
Definition one_parked : state := St (Tc [] 1 0) {[1%nat := Waiting]}.
Lemma run_parked ok : ok one_parked → run 2 ok [Silent] one_parked.
Proof.
  intros H. apply (run_step 2 ok [] initial Silent); [constructor| |exact H].
  exact (step_park 2 initial 1 (Tc [] 1 0) Waiting eq_refl eq_refl).
Defined.

(** A connection is accepted; its thread is about to be woken. *)
Lemma thread_cache_safe_witness :
  ∃ s, run 2 (λ _, True) [Silent; Accepted 7%N] s ∧ tc_list (cache s) = [7%N] ∧ sum parked (threads s) = 1%nat.
Proof.
  set (s := St (Tc [7%N] 0 0) (<[2%nat := Signalling]> {[1%nat := Waiting]})).
  assert (run 2 (λ _, True) [Silent; Accepted 7%N] s) as R.
  { apply (run_step 2 (λ _, True) [Silent] one_parked (Accepted 7%N)); [by apply run_parked| |done].
    exact (step_enqueue 2 one_parked 2 7%N (Tc [7%N] 0 0) true eq_refl eq_refl). }
  exists s. split; [exact R|].
  destruct (thread_cache_safe 2 ltac:(lia) _ _ R) as (_ & Hc & _). split; [done|].
  change (0 = Z.of_nat (sum parked (threads s)) - 1) in Hc. lia.
Defined.

(** A flush with one parked thread. *)
Lemma thread_cache_flush_ends_witness :
  ∃ s, run 2 one_flush [Silent; Silent] s ∧ sum is_waiting (threads s) = 0%nat ∧ ∃ e s', internal s e s'.
Proof.
  set (s := St (Tc [] 1 1) (<[2%nat := FlushWaiting]> {[1%nat := Woken false]})).
  assert (run 2 one_flush [Silent; Silent] s) as R.
  { apply (run_step 2 one_flush [Silent] one_parked Silent); [apply run_parked; unfold one_flush; apply Nat.leb_le; by vm_compute| |].
    - exact (step_flush 2 one_parked 2 Silent s (or_introl eq_refl) eq_refl).
    - unfold one_flush. apply Nat.leb_le. by vm_compute. }
  exists s. split; [exact R|].
  destruct (thread_cache_flush_ends 2 ltac:(lia) _ _ R) as (Hw & Hi & _); [by vm_compute|by vm_compute|].
  split; [exact Hw|exact Hi].
Defined.

Lemma thread_cache_flush_lost_wakeup_witness :
  ∃ evs s t, run 1 (λ _, True) evs s ∧ threads s !! t = Some FlushWaiting.
Proof.
  destruct (thread_cache_flush_lost_wakeup 1 ltac:(lia) ltac:(lia)) as (evs & s & t & R & Ht & _).
  exists evs, s, t. split; [exact R|exact Ht].
Defined.
