(* ===== verification/MyCompare.v ===== *)
(** [my_compare.h]: the lengths in front of key parts of variable length, and the
    bits of BIT columns that are kept beside the NULL bits of a record; [field.h]:
    integers of a given number of bytes in either byte order. *)
From S2P Require Import Prelude ByteOrder MyisamPack.

(** ** Key lengths

    A key is a buffer and an index in it, which the macros move. *)

Definition get_key_length (T : list Z) (key : nat) : option (Z * nat) :=
  k ← T !! key;
  if negb (k =? 255) then Some (k, S key)
  else v ← mi_uint2korr (drop (key + 1) T); Some (v, (key + 3)%nat).

Definition get_key_length_rdonly (T : list Z) (key : nat) : option Z :=
  k ← T !! key;
  if negb (k =? 255) then Some k else mi_uint2korr (drop (key + 1) T).

(** The length, [length_pack] and the new [key]. *)
Definition get_key_pack_length (T : list Z) (key : nat) : option (Z * Z * nat) :=
  k ← T !! key;
  if negb (k =? 255) then Some (k, 1, S key)
  else v ← mi_uint2korr (drop (key + 1) T); Some (v, 3, (key + 3)%nat).

Definition store_key_length_inc (T : list Z) (key : nat) (length : Z) : option (list Z * nat) :=
  if length <? 255 then T ← poke T key (uchar length); Some (T, S key)
  else
    T ← poke T key 255;
    T ← mi_int2store T (key + 1) length;
    Some (T, (key + 3)%nat).

Definition size_to_store_key_length (length : Z) : Z := if length <? 255 then 1 else 3.

(** ** Bits beside the NULL bits *)

(** [(1 << n) - 1] in [int]; a shift that does not fit is undefined. *)
Definition low_mask (n : Z) : option Z := if (0 <=? n) && (n <? 31) then Some (Z.shiftl 1 n - 1) else None.

Definition get_rec_bits (T : list Z) (ptr : nat) (ofs len : Z) : option Z :=
  p0 ← T !! ptr;
  val ← (if 8 <? ofs + len then p1 ← T !! S ptr; Some (to_uint16 (Z.lor p0 (to_uint16 (shl32 p1 8)))) else Some p0);
  mask ← low_mask len;
  Some (uchar (Z.land (Z.shiftr val ofs) mask)).

Definition set_rec_bits (bits : Z) (T : list Z) (ptr : nat) (ofs len : Z) : option (list Z) :=
  p0 ← T !! ptr;
  mask ← low_mask len;
  T ← poke T ptr (uchar (Z.lor (Z.land p0 (Z.lnot (Z.shiftl mask ofs))) (Z.shiftl bits ofs)));
  if 8 <? ofs + len then
    p1 ← T !! S ptr;
    mask ← low_mask (len - 8 + ofs);
    poke T (S ptr) (uchar (Z.lor (Z.land p1 (Z.lnot mask)) (Z.shiftr bits (8 - ofs))))
  else Some T.

Definition clr_rec_bits (T : list Z) (ptr : nat) (ofs len : Z) : option (list Z) := set_rec_bits 0 T ptr ofs len.

(** ** Integers of a number of bytes *)

Definition number_storage_requirement (n : Z) : Z :=
  if n <? 256 then 1 else if n <? 65536 then 2 else if n <? 16777216 then 3 else 4.

Section Field.
(** Width of [ulong], and whether assertions are active. *)
Context (w : Z) (dbug : bool).

Definition store_bigendian (num : Z) (T : list Z) (to : nat) (bytes : Z) : option (list Z) :=
  match bytes with
  | 1 => mi_int1store T to num
  | 2 => mi_int2store T to num
  | 3 => mi_int3store w T to num
  | 4 => mi_int4store w T to num
  | 5 => mi_int5store w T to num
  | 6 => mi_int6store w T to num
  | 7 => mi_int7store w T to num
  | 8 => mi_int8store w T to num
  | _ => if dbug then None else Some T
  end.

(** The result of the unsigned macros converted to [longlong]. *)
Definition read_bigendian (T : list Z) (from : nat) (bytes : Z) : option Z :=
  let from := drop from T in
  match bytes with
  | 1 => to_longlong <$> mi_uint1korr from
  | 2 => to_longlong <$> mi_uint2korr from
  | 3 => to_longlong <$> mi_uint3korr from
  | 4 => to_longlong <$> mi_uint4korr from
  | 5 => to_longlong <$> mi_uint5korr from
  | 6 => to_longlong <$> mi_uint6korr from
  | 7 => to_longlong <$> mi_uint7korr from
  | 8 => mi_sint8korr from
  | _ => if dbug then None else Some 0
  end.

Definition store_lowendian (num : Z) (T : list Z) (to : nat) (bytes : Z) : option (list Z) :=
  match bytes with
  | 1 => poke T to (uchar num)
  | 2 => X86_64.int2store T to num
  | 3 => X86_64.int3store T to num
  | 4 => X86_64.int4store T to num
  | 8 => X86_64.int8store T to num
  | _ => if dbug then None else Some T
  end.

Definition read_lowendian (T : list Z) (from : nat) (bytes : Z) : option Z :=
  let from := drop from T in
  match bytes with
  | 1 => head from
  | 2 => to_longlong <$> X86_64.uint2korr from
  | 3 => to_longlong <$> X86_64.uint3korr from
  | 4 => to_longlong <$> X86_64.uint4korr from
  | 8 => X86_64.sint8korr from
  | _ => if dbug then None else Some 0
  end.
End Field.

(** ** Specification *)

(** The bit [k] of a record from the byte [ptr] on, low bits first. *)
Definition rec_bit (T : list Z) (ptr : nat) (k : Z) : bool :=
  Z.testbit (default 0 (T !! (ptr + Z.to_nat (k / 8))%nat)) (k mod 8).

Lemma low_mask_ok n : 0 ≤ n < 31 → low_mask n = Some (Z.ones n).
Proof.
  intros H. unfold low_mask. destruct (Z.leb_spec 0 n); [|lia]. destruct (Z.ltb_spec n 31); [|lia].
  done.
Qed.

(** The bytes of a record that hold the bits from 0 to 15. *)
Lemma rec_bit0 T ptr k : 0 ≤ k < 8 → rec_bit T ptr k = Z.testbit (default 0 (T !! ptr)) k.
Proof. intros H. unfold rec_bit. rewrite Z.div_small, Z.mod_small, Nat.add_0_r by lia. done. Qed.
Lemma rec_bit1 T ptr k : 8 ≤ k < 16 → rec_bit T ptr k = Z.testbit (default 0 (T !! S ptr)) (k - 8).
Proof.
  intros H. unfold rec_bit. assert (k / 8 = 1) as -> by (symmetry; apply (Z.div_unique k 8 1 (k - 8)); lia).
  assert (k mod 8 = k - 8) as -> by (symmetry; apply (Z.mod_unique k 8 1 (k - 8)); lia).
  by rewrite Nat.add_1_r.
Qed.

Lemma length_poke T i v T' : poke T i v = Some T' → length T' = length T.
Proof. intros H. by apply poke_lookup in H as [? _]. Qed.

Lemma poke_bytes T i v T' : bytes T → in_u 8 v → poke T i v = Some T' → bytes T'.
Proof. intros HT Hv. unfold poke. case_decide; [|done]. intros [= <-]. by apply Forall_insert. Qed.

Lemma uchar_testbit x k : 0 ≤ k < 8 → Z.testbit (uchar x) k = Z.testbit x k.
Proof. intros H. unfold uchar, to_uint8. rewrite wrap_testbit by lia. destruct (Z.ltb_spec k 8); [done|lia]. Qed.

Lemma uchar_range x : in_u 8 (uchar x).
Proof. apply wrap_in_u. lia. Qed.

Lemma byte_at T i b : bytes T → T !! i = Some b → in_u 8 b.
Proof. intros HT. by apply Forall_lookup_1. Qed.

(** Two records with the same bits. *)
Lemma rec_bit_ext T T' ptr : bytes T → bytes T' → length T = length T' → take ptr T = take ptr T' →
  (∀ k, 0 ≤ k → rec_bit T ptr k = rec_bit T' ptr k) → T = T'.
Proof.
  intros HT HT' Hl Ht Hk. apply list_eq_same_length with (length T); [done|done|].
  intros i x y Hi Hx Hy. destruct (decide (i < ptr)%nat) as [Hlt|Hge].
  - rewrite <- (lookup_take_lt T ptr i) in Hx by lia. rewrite <- (lookup_take_lt T' ptr i) in Hy by lia.
    rewrite Ht in Hx. congruence.
  - pose proof (byte_at _ _ _ HT Hx) as Bx. pose proof (byte_at _ _ _ HT' Hy) as By.
    apply Z.bits_inj'. intros k Hk0. destruct (decide (k < 8)) as [Hk8|Hk8];
      [|by rewrite !(in_u_testbit 8) by (done || lia)].
    specialize (Hk (8 * Z.of_nat (i - ptr) + k) ltac:(lia)). unfold rec_bit in Hk.
    replace ((8 * Z.of_nat (i - ptr) + k) / 8) with (Z.of_nat (i - ptr)) in Hk by (apply (Z.div_unique _ 8 _ k); lia).
    replace ((8 * Z.of_nat (i - ptr) + k) mod 8) with k in Hk by (apply (Z.mod_unique _ 8 (Z.of_nat (i - ptr))); lia).
    rewrite Nat2Z.id in Hk. replace (ptr + (i - ptr))%nat with i in Hk by lia. by rewrite Hx, Hy in Hk.
Qed.

(** The room that [len] bits from [ofs] on take. *)
Definition rec_room (T : list Z) (ptr : nat) (ofs len : Z) : Prop :=
  (ptr + (if (8 <? ofs + len)%Z then 2 else 1) ≤ length T)%nat.

Lemma get_rec_bits_bits T ptr ofs len : bytes T → 0 ≤ ofs < 8 → 0 ≤ len ≤ 8 → rec_room T ptr ofs len →
  ∃ v, get_rec_bits T ptr ofs len = Some v ∧ in_u len v
    ∧ ∀ k, 0 ≤ k < len → Z.testbit v k = rec_bit T ptr (ofs + k).
Proof.
  intros HT Ho Hlen Hroom. unfold rec_room in Hroom. unfold get_rec_bits.
  destruct (lookup_lt_is_Some_2 T ptr) as [p0 E0]; [destruct (8 <? ofs + len) in Hroom; lia|].
  rewrite E0, low_mask_ok by lia. cbn [mbind option_bind]. pose proof (byte_at _ _ _ HT E0) as B0.
  assert (∃ val, (if 8 <? ofs + len then p1 ← T !! S ptr; Some (to_uint16 (Z.lor p0 (to_uint16 (shl32 p1 8)))) else Some p0)
    = Some val ∧ ∀ k, 0 ≤ k < ofs + len → Z.testbit val k = rec_bit T ptr k) as (val & -> & Hval).
  { destruct (Z.ltb_spec 8 (ofs + len)).
    - destruct (lookup_lt_is_Some_2 T (S ptr)) as [p1 E1]; [lia|]. rewrite E1. cbn [mbind option_bind].
      pose proof (byte_at _ _ _ HT E1) as B1. eexists. split; [done|]. intros k Hk.
      unfold to_uint16, shl32, to_uint32. autorewrite with bits. destruct (Z.ltb_spec k 16); [|lia].
      destruct (Z.ltb_spec k 32); [|lia]. cbn [andb]. destruct (decide (k < 8)).
      + rewrite rec_bit0, E0, (Z.testbit_neg_r p1), orb_false_r by lia. done.
      + by rewrite rec_bit1, E1, (in_u_testbit 8 p0) by (done || lia).
    - exists p0. split; [done|]. intros k Hk. by rewrite rec_bit0, E0 by lia. }
  cbn [mbind option_bind]. eexists. split; [done|].
  assert (∀ k, 0 ≤ k → Z.testbit (uchar (Z.land (Z.shiftr val ofs) (Z.ones len))) k
    = (k <? len) && rec_bit T ptr (ofs + k)) as Hb.
  { intros k Hk. unfold uchar, to_uint8. autorewrite with bits.
    rewrite Z.testbit_ones by lia. destruct (Z.leb_spec 0 k); [|lia].
    destruct (Z.ltb_spec k len); rewrite ?andb_false_r, ?andb_true_r; [|done].
    destruct (Z.ltb_spec k 8); [|lia]. cbn [andb]. rewrite Hval by lia. f_equal. lia. }
  split.
  - apply in_u_of_bits; [lia|apply uchar_range|]. intros k Hk. rewrite Hb by lia. by destruct (Z.ltb_spec k len); [lia|].
  - intros k Hk. rewrite Hb by lia. by destruct (Z.ltb_spec k len); [|lia].
Qed.

Lemma set_rec_bits_bits bits T ptr ofs len : bytes T → 0 ≤ ofs < 8 → 0 ≤ len ≤ 8 → in_u len bits →
  rec_room T ptr ofs len →
  ∃ T', set_rec_bits bits T ptr ofs len = Some T' ∧ bytes T' ∧ length T' = length T ∧ take ptr T' = take ptr T
    ∧ ∀ k, 0 ≤ k → rec_bit T' ptr k = if (ofs <=? k) && (k <? ofs + len) then Z.testbit bits (k - ofs) else rec_bit T ptr k.
Proof.
  intros HT Ho Hlen Hbits Hroom. unfold rec_room in Hroom. unfold set_rec_bits.
  destruct (lookup_lt_is_Some_2 T ptr) as [p0 E0]; [destruct (8 <? ofs + len) in Hroom; lia|].
  rewrite E0, (low_mask_ok len) by lia. cbn [mbind option_bind]. pose proof (byte_at _ _ _ HT E0) as B0.
  set (b0 := uchar _). assert (ptr < length T)%nat as Hp by by apply lookup_lt_Some in E0.
  rewrite poke_defined by done. cbn [mbind option_bind].
  assert (∀ k, 0 ≤ k < 8 → Z.testbit b0 k
    = if (ofs <=? k) && (k <? ofs + len) then Z.testbit bits (k - ofs) else rec_bit T ptr k) as H0.
  { intros k Hk. unfold b0. rewrite uchar_testbit by done. autorewrite with bits.
    rewrite (rec_bit0 T), E0 by done. cbn [default id]. destruct (Z.leb_spec ofs k); cbn [andb].
    - rewrite Z.testbit_ones by lia. destruct (Z.ltb_spec k (ofs + len)).
      + destruct (Z.ltb_spec (k - ofs) len); [|lia]. destruct (Z.leb_spec 0 (k - ofs)); [|lia].
        cbn. by rewrite andb_false_r.
      + destruct (Z.ltb_spec (k - ofs) len); [lia|]. rewrite andb_false_r. cbn.
        rewrite (in_u_testbit len bits) by (done || lia). by rewrite andb_true_r, orb_false_r.
    - rewrite (Z.testbit_neg_r (Z.ones len)), (Z.testbit_neg_r bits) by lia. cbn. by rewrite andb_true_r, orb_false_r. }
  assert (bytes (<[ptr := b0]> T)) as HT1 by (apply Forall_insert; [done|apply uchar_range]).
  assert (∀ U k, 16 ≤ k → (∀ j, (S ptr < j)%nat → U !! j = T !! j) → rec_bit U ptr k = rec_bit T ptr k) as Hfar.
  { intros U k Hk HU. unfold rec_bit. rewrite HU; [done|]. assert (2 ≤ k / 8) by (apply Z.div_le_lower_bound; lia). lia. }
  destruct (Z.ltb_spec 8 (ofs + len)) as [Hs|Hs].
  - rewrite list_lookup_insert_ne by lia. destruct (lookup_lt_is_Some_2 T (S ptr)) as [p1 E1]; [lia|].
    rewrite E1, low_mask_ok by lia. cbn [mbind option_bind]. rewrite poke_defined by (rewrite length_insert; lia).
    set (b1 := uchar _). eexists. split; [done|]. split; [by apply Forall_insert; [done|apply uchar_range]|].
    rewrite !length_insert, !take_insert_ge by lia. split_and!; [done|done|]. intros k Hk.
    destruct (decide (k < 8)); [|destruct (decide (k < 16))].
    + rewrite rec_bit0, list_lookup_insert_ne, list_lookup_insert_eq by lia. cbn. apply H0. lia.
    + rewrite rec_bit1, list_lookup_insert_eq by (rewrite ?length_insert; lia). cbn [default id].
      unfold b1. rewrite uchar_testbit by lia. autorewrite with bits. rewrite (rec_bit1 T), E1 by lia. cbn [default id].
      rewrite Z.testbit_ones by lia. destruct (Z.leb_spec ofs k); [|lia]. destruct (Z.leb_spec 0 (k - 8)); [|lia]. cbn [andb].
      replace (k - 8 + (8 - ofs)) with (k - ofs) by lia. destruct (Z.ltb_spec k (ofs + len)).
      * destruct (Z.ltb_spec (k - 8) (len - 8 + ofs)); [|lia]. cbn. by rewrite andb_false_r.
      * destruct (Z.ltb_spec (k - 8) (len - 8 + ofs)); [lia|]. cbn.
        rewrite (in_u_testbit len bits) by (done || lia). by rewrite andb_true_r, orb_false_r.
    + destruct (Z.ltb_spec k (ofs + len)); [lia|]. rewrite andb_false_r. apply Hfar; [lia|].
      intros j Hj. by rewrite !list_lookup_insert_ne by lia.
  - eexists. split; [done|]. split; [done|]. rewrite length_insert, take_insert_ge by lia. split_and!; [done|done|].
    intros k Hk. destruct (decide (k < 8)); [rewrite rec_bit0, list_lookup_insert_eq by lia; cbn; apply H0; lia|].
    destruct (Z.ltb_spec k (ofs + len)); [lia|]. rewrite andb_false_r. unfold rec_bit.
    rewrite list_lookup_insert_ne; [done|]. assert (1 ≤ k / 8) by (apply Z.div_le_lower_bound; lia). lia.
Qed.

(** *** Key lengths *)

Lemma drop_lookup0 (T : list Z) i : head (drop i T) = T !! i.
Proof. rewrite head_lookup, lookup_drop. f_equal. lia. Qed.

(** The bytes that a stored length occupies. *)
Definition key_room (T : list Z) (key : nat) (n : Z) : Prop :=
  (key + Z.to_nat (size_to_store_key_length n) ≤ length T)%nat.

Lemma store_key_length_ok T key n : bytes T → in_u 16 n → key_room T key n →
  let key' := (key + Z.to_nat (size_to_store_key_length n))%nat in
  ∃ T', store_key_length_inc T key n = Some (T', key') ∧ bytes T' ∧ length T' = length T
    ∧ take key T' = take key T ∧ drop key' T' = drop key' T
    ∧ get_key_length T' key = Some (n, key') ∧ get_key_length_rdonly T' key = Some n
    ∧ get_key_pack_length T' key = Some (n, size_to_store_key_length n, key').
Proof.
  intros HT Hn Hroom. unfold key_room, size_to_store_key_length, store_key_length_inc in *.
  unfold in_u in Hn. change (2 ^ 16) with 65536 in Hn. cbv zeta.
  destruct (Z.ltb_spec n 255); cbn [Z.to_nat Pos.to_nat Pos.iter_op Nat.add] in *.
  - change (Z.to_nat 1) with 1%nat in *. rewrite poke_defined by lia. cbn [mbind option_bind].
    assert (uchar n = n) as -> by (apply wrap_id; unfold in_u; lia).
    rewrite Nat.add_1_r. eexists. split; [done|]. split; [apply Forall_insert; [done|unfold in_u; lia]|].
    rewrite length_insert, take_insert_ge, drop_insert_lt by lia.
    unfold get_key_length, get_key_length_rdonly, get_key_pack_length. rewrite list_lookup_insert_eq by lia.
    cbn [mbind option_bind]. destruct (Z.eqb_spec n 255); [lia|]. done.
  - change (Z.to_nat 3) with 3%nat in *. rewrite poke_defined by lia. cbn [mbind option_bind].
    rewrite mi_store2. set (T1 := <[key := 255]> T).
    assert (bytes T1) as HT1 by (apply Forall_insert; [done|unfold in_u; lia]).
    destruct (store_be_defined 2 T1 (key + 1) n) as [T' E]; [unfold T1; rewrite length_insert; lia|].
    destruct (load_store_be _ _ _ _ _ HT1 E) as (Hld & HT' & Hl & Ht & Hd). rewrite E. cbn [mbind option_bind].
    exists T'. split; [done|]. split; [done|]. split; [rewrite Hl; apply length_insert|].
    assert (T' !! key = Some 255) as Hk.
    { rewrite <- (lookup_take_lt T' (key + 1)), Ht, lookup_take_lt by lia. unfold T1. apply list_lookup_insert_eq. lia. }
    assert (mi_uint2korr (drop (key + 1) T') = Some n) as Hr.
    { rewrite mi_uint2 by by apply Forall_drop. rewrite Hld. f_equal. apply wrap_id. unfold in_u.
      change (2 ^ (8 * Z.of_nat 2)) with 65536. lia. }
    split_and!.
    + assert (take key T' = take key (take (key + 1) T')) as -> by (rewrite take_take; f_equal; lia).
      rewrite Ht, take_take, Nat.min_l by lia. unfold T1. by rewrite take_insert_ge.
    + replace (key + 3)%nat with (key + 1 + 2)%nat by lia. rewrite Hd. unfold T1. apply drop_insert_lt. lia.
    + unfold get_key_length. by rewrite Hk; cbn; rewrite Hr.
    + unfold get_key_length_rdonly. by rewrite Hk; cbn; rewrite Hr.
    + unfold get_key_pack_length. by rewrite Hk; cbn; rewrite Hr.
Qed.

(** *** Integers *)

Lemma swrap_small v n : in_u n v → 0 ≤ n < 64 → to_longlong v = v.
Proof.
  intros H Hn. apply swrap_id; [lia|]. unfold in_u, in_s in *. assert (2 ^ n ≤ 2 ^ (64 - 1)) by (apply Z.pow_le_mono_r; lia). lia.
Qed.

(** What a read of [n] bytes gives back of a number that was stored. *)
Definition read_value (n : Z) (num : Z) : Z := if n =? 8 then to_longlong num else wrap (8 * n) num.

Lemma store_bigendian_be w dbug num T to (n : nat) : 32 ≤ w → (1 ≤ n ≤ 8)%nat →
  store_bigendian w dbug num T to (Z.of_nat n) = store_be n T to num.
Proof.
  intros Hw Hn. destruct n as [|[|[|[|[|[|[|[|[|n]]]]]]]]]; try lia;
    [apply mi_store1|apply mi_store2|by apply mi_store3|by apply mi_store4|by apply mi_store5|by apply mi_store6
    |by apply mi_store7|by apply mi_store8].
Qed.

Lemma read_bigendian_be dbug T from (n : nat) : bytes T → (1 ≤ n ≤ 8)%nat →
  read_bigendian dbug T from (Z.of_nat n) = to_longlong <$> load_be n (drop from T).
Proof.
  intros HT Hn. assert (bytes (drop from T)) as HD by by apply Forall_drop.
  destruct n as [|[|[|[|[|[|[|[|[|n]]]]]]]]]; try lia; unfold read_bigendian; cbn [Z.of_nat Pos.of_succ_nat Pos.succ];
    [by rewrite mi_uint1|by rewrite mi_uint2|by rewrite mi_uint3|by rewrite mi_uint4|by rewrite mi_uint5|by rewrite mi_uint6
    |by rewrite mi_uint7|by apply mi_sint8].
Qed.

(** The sizes of the low-byte-first functions. *)
Lemma low_sizes (P : nat → Prop) : P 1%nat → P 2%nat → P 3%nat → P 4%nat → P 8%nat → ∀ n, n ∈ [1; 2; 3; 4; 8]%nat → P n.
Proof. intros ????? n Hn. repeat (apply elem_of_cons in Hn as [->|Hn]; [done|]). by apply elem_of_nil in Hn. Qed.

Lemma store_lowendian_le dbug num T to (n : nat) : n ∈ [1; 2; 3; 4; 8]%nat →
  store_lowendian dbug num T to (Z.of_nat n) = store_le n T to num.
Proof.
  revert n. apply low_sizes; unfold store_lowendian; cbn [Z.of_nat Pos.of_succ_nat Pos.succ].
  - apply poke_store_le.
  - by apply store_le_wrap.
  - apply x86_store3.
  - by apply store_le_wrap.
  - by apply store_le_wrap.
Qed.

Lemma read_value_range (n : nat) num : (1 ≤ n ≤ 8)%nat → to_longlong (wrap (8 * Z.of_nat n) num) = read_value (Z.of_nat n) num.
Proof.
  intros Hn. unfold read_value. destruct (Z.eqb_spec (Z.of_nat n) 8) as [E|Hne].
  - rewrite E. change (8 * 8) with 64. apply swrap_wrap.
  - apply (swrap_small _ (8 * Z.of_nat n)); [apply wrap_in_u|]; lia.
Qed.

Lemma read_lowendian_le dbug T from (n : nat) : bytes T → n ∈ [1; 2; 3; 4; 8]%nat →
  read_lowendian dbug T from (Z.of_nat n) = to_longlong <$> load_le n (drop from T) 0.
Proof.
  intros HT. assert (bytes (drop from T)) as HD by by apply Forall_drop. revert n.
  apply low_sizes; unfold read_lowendian; cbn [Z.of_nat Pos.of_succ_nat Pos.succ].
  - destruct (drop from T) as [|a l]; [done|]. apply Forall_cons in HD as [Ha _]. unfold load_le.
    rewrite decide_True by (cbn; lia). cbn [drop take le_value fmap option_fmap option_map head]. f_equal.
    rewrite take_0. cbn [le_value]. rewrite Z.mul_0_r, Z.add_0_r. symmetry. apply (swrap_small _ 8); [done|lia].
  - unfold X86_64.uint2korr, to_uint16. by rewrite load_wrap.
  - unfold X86_64.uint3korr. by rewrite generic_uint3.
  - unfold X86_64.uint4korr, to_uint32. by rewrite load_wrap.
  - unfold X86_64.sint8korr, to_longlong. destruct (load_le 8 (drop from T) 0); [|done]. cbn. by rewrite swrap_swrap.
Qed.

Lemma storage_requirement_least m : in_u 32 m → let k := number_storage_requirement m in
  1 ≤ k ≤ 4 ∧ read_value k m = m ∧ ∀ j, 1 ≤ j < k → read_value j m ≠ m.
Proof.
  intros Hm. unfold in_u in Hm. change (2 ^ 32) with 4294967296 in Hm. cbv zeta. unfold number_storage_requirement, read_value, wrap.
  assert (∀ j, 1 ≤ j < 8 → (if j =? 8 then to_longlong m else m mod 2 ^ (8 * j)) = m mod 2 ^ (8 * j)) as E.
  { intros j Hj. by destruct (Z.eqb_spec j 8); [lia|]. }
  assert (∀ j, 1 ≤ j < 8 → 2 ^ (8 * j) ≤ m → m mod 2 ^ (8 * j) ≠ m) as Hbig.
  { intros j Hj Hle. pose proof (Z.mod_pos_bound m (2 ^ (8 * j)) ltac:(lia)). lia. }
  destruct (Z.ltb_spec m 256); [|destruct (Z.ltb_spec m 65536); [|destruct (Z.ltb_spec m 16777216)]];
    (split; [lia|]); (split; [rewrite E, Z.mod_small by lia; done|]);
    intros j Hj; rewrite E by lia; apply Hbig; try lia;
    assert (j = 1 ∨ j = 2 ∨ j = 3) as [->|[->| ->]] by lia; try lia;
    change (2 ^ (8 * 1)) with 256; change (2 ^ (8 * 2)) with 65536; change (2 ^ (8 * 3)) with 16777216; lia.
Qed.

(** ** Theorems *)

(** A key length below 2^16 is written in one byte, or in three when it is 255
    or more, as many as [size_to_store_key_length] says; all three readers give it
    back, move behind it, and no other byte changes.  So lengths written one after
    another are read back one after another. *)
Theorem key_length_roundtrip T key n (HT : bytes T) (Hn : in_u 16 n) (Hroom : key_room T key n) :
  ∃ T' key', store_key_length_inc T key n = Some (T', key')
    ∧ Z.of_nat key' = Z.of_nat key + size_to_store_key_length n
    ∧ bytes T' ∧ length T' = length T ∧ take key T' = take key T ∧ drop key' T' = drop key' T
    ∧ get_key_length T' key = Some (n, key') ∧ get_key_length_rdonly T' key = Some n
    ∧ get_key_pack_length T' key = Some (n, size_to_store_key_length n, key').
Proof.
  destruct (store_key_length_ok T key n HT Hn Hroom) as (T' & H). exists T'. eexists. split; [apply H|].
  split; [unfold size_to_store_key_length; destruct (_ <? _); lia|]. apply H.
Qed.

(** The bits kept beside the NULL bits are a variable of their own: what
    [set_rec_bits] stores at an offset, over one byte or two, [get_rec_bits] reads;
    storing what was read changes nothing; a later store replaces an earlier one;
    [clr_rec_bits] stores zeros; and no other bit of the record changes. *)
Theorem rec_bits_lens T ptr ofs len bits1 bits2 (HT : bytes T) (Ho : 0 ≤ ofs < 8) (Hlen : 0 ≤ len ≤ 8)
    (H1 : in_u len bits1) (H2 : in_u len bits2) (Hroom : rec_room T ptr ofs len) :
  ∃ T1 T2 v, set_rec_bits bits1 T ptr ofs len = Some T1
    ∧ get_rec_bits T1 ptr ofs len = Some bits1
    ∧ get_rec_bits T ptr ofs len = Some v ∧ set_rec_bits v T ptr ofs len = Some T
    ∧ set_rec_bits bits2 T1 ptr ofs len = Some T2 ∧ set_rec_bits bits2 T ptr ofs len = Some T2
    ∧ length T1 = length T ∧ take ptr T1 = take ptr T
    ∧ (∀ k, 0 ≤ k → rec_bit T1 ptr k = if (ofs <=? k) && (k <? ofs + len) then Z.testbit bits1 (k - ofs) else rec_bit T ptr k)
    ∧ ∃ T0, clr_rec_bits T ptr ofs len = Some T0 ∧ get_rec_bits T0 ptr ofs len = Some 0.
Proof.
  destruct (set_rec_bits_bits bits1 T ptr ofs len HT Ho Hlen H1 Hroom) as (T1 & E1 & B1 & L1 & K1 & R1).
  destruct (get_rec_bits_bits T ptr ofs len HT Ho Hlen Hroom) as (v & Ev & Hv & Rv).
  destruct (set_rec_bits_bits bits2 T ptr ofs len HT Ho Hlen H2 Hroom) as (T2 & E2 & B2 & L2 & K2 & R2).
  assert (∀ b U, in_u len b → bytes U → rec_room U ptr ofs len →
    (∀ k, 0 ≤ k < len → rec_bit U ptr (ofs + k) = Z.testbit b k) → get_rec_bits U ptr ofs len = Some b) as Hget.
  { intros b U Hb HU HrU HkU. destruct (get_rec_bits_bits U ptr ofs len HU Ho Hlen HrU) as (x & -> & Hx & Rx).
    f_equal. apply Z.bits_inj'. intros k Hk. destruct (decide (k < len)); [by rewrite Rx, HkU by lia|].
    by rewrite !(in_u_testbit len) by (done || lia). }
  assert (∀ U, length U = length T → rec_room U ptr ofs len) as HrU by (intros U HU; unfold rec_room; by rewrite HU).
  assert (∀ b U, (∀ k, 0 ≤ k → rec_bit U ptr k = if (ofs <=? k) && (k <? ofs + len) then Z.testbit b (k - ofs) else rec_bit T ptr k) →
    ∀ k, 0 ≤ k < len → rec_bit U ptr (ofs + k) = Z.testbit b k) as Hin.
  { intros b U HU k Hk. rewrite HU by lia. destruct (Z.leb_spec ofs (ofs + k)); [|lia].
    destruct (Z.ltb_spec (ofs + k) (ofs + len)); [|lia]. cbn. f_equal. lia. }
  destruct (set_rec_bits_bits v T ptr ofs len HT Ho Hlen Hv Hroom) as (Tv & Ew & Bw & Lw & Kw & Rw).
  destruct (set_rec_bits_bits bits2 T1 ptr ofs len B1 Ho Hlen H2 (HrU T1 L1)) as (T3 & E3 & B3 & L3 & K3 & R3).
  destruct (set_rec_bits_bits 0 T ptr ofs len HT Ho Hlen) as (T0 & E0 & B0 & L0 & _ & R0);
    [unfold in_u; lia|done|].
  assert (Tv = T) as ->.
  { apply (rec_bit_ext Tv T ptr); try done. intros k Hk. rewrite Rw by done.
    destruct ((ofs <=? k) && (k <? ofs + len)) eqn:E; [|done]. apply andb_true_iff in E as [?%Z.leb_le ?%Z.ltb_lt].
    rewrite Rv by lia. f_equal. lia. }
  assert (T3 = T2) as ->.
  { apply (rec_bit_ext T3 T2 ptr); try done; [congruence|congruence|]. intros k Hk. rewrite R3, R2, R1 by done.
    by destruct (_ && _). }
  exists T1, T2, v. split_and!; try done.
  - apply Hget; [done|done|by apply HrU|]. by apply Hin.
  - exists T0. split; [done|]. apply Hget; [unfold in_u; lia|done|by apply HrU|]. by apply Hin.
Qed.

(** Numbers of a given number of bytes survive a store and a read, in either
    byte order and for every size the code accepts: reduced modulo the size,
    signed for eight bytes; nothing else changes, and other sizes are refused.
    [number_storage_requirement] is the least size that holds the number, so that
    a number stored in it is read back unchanged. *)
Theorem field_number_roundtrip w dbug num T to (n : nat) (Hw : 32 ≤ w) (HT : bytes T) (Hn : (1 ≤ n ≤ 8)%nat)
    (Hroom : (to + n ≤ length T)%nat) :
  (∃ T', store_bigendian w dbug num T to (Z.of_nat n) = Some T'
     ∧ read_bigendian dbug T' to (Z.of_nat n) = Some (read_value (Z.of_nat n) num)
     ∧ length T' = length T ∧ take to T' = take to T ∧ drop (to + n) T' = drop (to + n) T)
  ∧ (n ∈ [1; 2; 3; 4; 8]%nat → ∃ T', store_lowendian dbug num T to (Z.of_nat n) = Some T'
     ∧ read_lowendian dbug T' to (Z.of_nat n) = Some (read_value (Z.of_nat n) num)
     ∧ length T' = length T ∧ take to T' = take to T ∧ drop (to + n) T' = drop (to + n) T)
  ∧ (n ∉ [1; 2; 3; 4; 8]%nat → store_lowendian true num T to (Z.of_nat n) = None
     ∧ read_lowendian true T to (Z.of_nat n) = None)
  ∧ (∀ m, in_u 32 m → let k := number_storage_requirement m in
     1 ≤ k ≤ 4 ∧ read_value k m = m ∧ ∀ j, 1 ≤ j < k → read_value j m ≠ m).
Proof.
  split_and!.
  - rewrite store_bigendian_be by lia. destruct (store_be_defined n T to num Hroom) as [T' E].
    destruct (load_store_be _ _ _ _ _ HT E) as (Hl & HT' & Hlen & Ht & Hd). exists T'. split; [done|].
    rewrite read_bigendian_be, Hl by (done || lia). cbn. by rewrite read_value_range.
  - intros Hin. rewrite store_lowendian_le by done.
    destruct (store_le n T to num) as [T'|] eqn:E; [|by unfold store_le in E; case_decide].
    destruct (load_store_le _ _ _ _ _ E) as (Hl & Hlen & Ht & Hd). exists T'. split; [done|]. split; [|done].
    rewrite read_lowendian_le, load_le_drop, Hl by (by eapply store_le_bytes || done || lia). cbn. by rewrite read_value_range.
  - intros Hin. destruct n as [|[|[|[|[|[|[|[|[|n]]]]]]]]]; try lia; try done; by destruct Hin; set_solver.
  - intros m Hm. apply storage_requirement_least, Hm.
Qed.

(** ** Witnesses *)

(** A length of 300 takes three bytes. *)
Lemma key_length_roundtrip_witness :
  ∃ T key, store_key_length_inc [0; 0; 0; 0; 7] 1 300 = Some (T, key) ∧ get_key_length T 1 = Some (300, key).
Proof.
  destruct (key_length_roundtrip [0; 0; 0; 0; 7] 1 300) as (T & key & E & _ & _ & _ & _ & _ & H & _);
    [by repeat (apply List.Forall_cons; [by vm_compute|])|by vm_compute|apply Nat.leb_le; by vm_compute|].
  exists T, key. split; [exact E|exact H].
Defined.

(** Six bits at offset 5 of the byte 1. *)
Lemma rec_bits_lens_witness :
  ∃ T, set_rec_bits 43 [9; 255; 240; 1] 1 5 6 = Some T ∧ get_rec_bits T 1 5 6 = Some 43 ∧ rec_bit T 1 12 = true.
Proof.
  destruct (rec_bits_lens [9; 255; 240; 1] 1 5 6 43 7) as (T & _ & _ & E & G & _ & _ & _ & _ & _ & _ & R & _);
    [by repeat (apply List.Forall_cons; [by vm_compute|])|lia|lia|by vm_compute|by vm_compute|apply Nat.leb_le; by vm_compute|].
  exists T. split; [exact E|]. split; [exact G|]. rewrite R by lia. by vm_compute.
Defined.

Lemma field_number_roundtrip_witness :
  ∃ T, store_bigendian 32 true (-2) [0; 0; 0; 0] 1 3 = Some T ∧ read_bigendian true T 1 3 = Some 16777214.
Proof.
  destruct (field_number_roundtrip 32 true (-2) [0; 0; 0; 0] 1 3) as ((T & E & R & _) & _);
    [lia|by repeat (apply List.Forall_cons; [by vm_compute|])|lia|cbn; lia|].
  exists T. split; [exact E|exact R].
Defined.
