(* ===== verification/Spatial.v ===== *)
(** Spatial values.  [spatial.h], [struct MBR]: minimal bounding rectangles and
    their relations, and the bounds that [class Geometry] checks before it reads;
    [gstream.h], [class Gis_read_stream]: the scanner of well-known text. *)
From S2P Require Import Prelude CDouble.

(** ** [struct MBR] *)

(** The largest finite double. *)
Definition DBL_MAX : spec_float := S754_finite false 9007199254740991 971.
Definition minus_DBL_MAX : spec_float := S754_finite true 9007199254740991 971.

Record MBR := Mbr { xmin : spec_float; ymin : spec_float; xmax : spec_float; ymax : spec_float }.

Definition MBR0 : MBR := Mbr DBL_MAX DBL_MAX minus_DBL_MAX minus_DBL_MAX.

Definition add_xy (x y : spec_float) (b : MBR) : MBR :=
  Mbr (if dlt x (xmin b) then x else xmin b) (if dlt y (ymin b) then y else ymin b)
      (if dlt (xmax b) x then x else xmax b) (if dlt (ymax b) y then y else ymax b).

Definition add_mbr (mbr b : MBR) : MBR :=
  Mbr (if dlt (xmin mbr) (xmin b) then xmin mbr else xmin b) (if dlt (ymin mbr) (ymin b) then ymin mbr else ymin b)
      (if dlt (xmax b) (xmax mbr) then xmax mbr else xmax b) (if dlt (ymax b) (ymax mbr) then ymax mbr else ymax b).

(** The constructor from two rectangles. *)
Definition MBR2 (mbr1 mbr2 : MBR) : MBR := add_mbr mbr2 (Mbr (xmin mbr1) (ymin mbr1) (xmax mbr1) (ymax mbr1)).

Definition buffer (d : spec_float) (b : MBR) : MBR :=
  Mbr (dsub (xmin b) d) (dsub (ymin b) d) (dadd (xmax b) d) (dadd (ymax b) d).

Definition equals (b mbr : MBR) : bool :=
  deq (xmin mbr) (xmin b) && deq (ymin mbr) (ymin b) && deq (xmax mbr) (xmax b) && deq (ymax mbr) (ymax b).

Definition disjoint (b mbr : MBR) : bool :=
  dlt (xmax b) (xmin mbr) || dlt (ymax b) (ymin mbr) || dlt (xmax mbr) (xmin b) || dlt (ymax mbr) (ymin b).

Definition intersects (b mbr : MBR) : bool := negb (disjoint b mbr).

Definition touches (b mbr : MBR) : bool :=
  (deq (xmin mbr) (xmax b) || deq (xmax mbr) (xmin b))
    && (dle (ymin b) (ymin mbr) && dle (ymin mbr) (ymax b) || dle (ymin b) (ymax mbr) && dle (ymax mbr) (ymax b))
  || (deq (ymin mbr) (ymax b) || deq (ymax mbr) (ymin b))
    && (dle (xmin b) (xmin mbr) && dle (xmin mbr) (xmax b) || dle (xmin b) (xmax mbr) && dle (xmax mbr) (xmax b)).

Definition contains (b mbr : MBR) : bool :=
  dle (xmin b) (xmin mbr) && dle (ymin b) (ymin mbr) && dle (xmax mbr) (xmax b) && dle (ymax mbr) (ymax b).

Definition inner_point (b : MBR) (x y : spec_float) : bool :=
  dlt (xmin b) x && dlt x (xmax b) && dlt (ymin b) y && dlt y (ymax b).

Definition dimension (b : MBR) : Z :=
  if dlt (xmax b) (xmin b) then -1 else
  let d := if dlt (xmin b) (xmax b) then 1 else 0 in
  if dlt (ymax b) (ymin b) then -1 else
  if dlt (ymin b) (ymax b) then d + 1 else d.

(** [MBR::within] is defined elsewhere. *)
Section Within.
Context (within : MBR → MBR → bool).

(** [MY_MAX] and [MY_MIN]. *)
Definition my_max (a b : spec_float) : spec_float := if dlt b a then a else b.
Definition my_min (a b : spec_float) : spec_float := if dlt a b then a else b.

Definition overlaps (b mbr : MBR) : bool :=
  let d := dimension b in
  if negb (d =? dimension mbr) || (d <=? 0) || contains b mbr || within b mbr then false else
  let intersection := Mbr (my_max (xmin b) (xmin mbr)) (my_max (ymin b) (ymin mbr))
                          (my_min (xmax b) (xmax mbr)) (my_min (ymax b) (ymax mbr)) in
  d =? dimension intersection.
End Within.

Definition valid (b : MBR) : bool := dle (xmin b) (xmax b) && dle (ymin b) (ymax b).

(** ** [class Geometry]

    The data is a buffer of bytes; pointers are positions in it.  A stored double
    is its 8 bytes. *)
Definition SRID_SIZE : Z := 4.
Definition SIZEOF_STORED_DOUBLE : Z := 8.
Definition POINT_DATA_SIZE : Z := SIZEOF_STORED_DOUBLE * 2.
Definition WKB_HEADER_SIZE : Z := 1 + 4.
Definition wkb_point : Z := 1.
Definition wkb_last : Z := 7.

Record Geometry := Geom { m_data : Z; m_data_end : Z }.
Definition set_data_ptr (data data_len : Z) : Geometry := Geom data (data + data_len).
Definition shift_wkb_header (g : Geometry) : Geometry := Geom (m_data g + WKB_HEADER_SIZE) (m_data_end g).

Definition find_class {A} (ci_collection : list (option A)) (type_id : Z) : option (option A) :=
  if (type_id <? wkb_point) || (wkb_last <? type_id) then Some None else ci_collection !! Z.to_nat type_id.

Definition no_data (g : Geometry) (cur_data data_amount : Z) : bool := m_data_end g <? cur_data + data_amount.

(** The sum of the sizes is a [uint]; a division by zero is undefined. *)
Definition not_enough_points (g : Geometry) (data expected_points extra_point_space : Z) : option bool :=
  if m_data_end g <? data then Some true else
  let size := to_uint32 (POINT_DATA_SIZE + extra_point_space) in
  if size =? 0 then None else Some (Z.quot (m_data_end g - data) size <? expected_points).

(** [float8get], from the buffer [B]. *)
Definition float8get (B : list Z) (p : Z) : option (list Z) :=
  if bool_decide (0 ≤ p ∧ p + SIZEOF_STORED_DOUBLE ≤ Z.of_nat (length B)) then Some (take 8 (drop (Z.to_nat p) B)) else None.

(** [Gis_point]: the result of the functions is [inl] for the error 1. *)
Definition get_xy (B : list Z) (g : Geometry) : option (unit + list Z * list Z) :=
  let data := m_data g in
  if no_data g data (SIZEOF_STORED_DOUBLE * 2) then Some (inl tt) else
  x ← float8get B data; y ← float8get B (data + SIZEOF_STORED_DOUBLE); Some (inr (x, y)).
Definition get_x (B : list Z) (g : Geometry) : option (unit + list Z) :=
  if no_data g (m_data g) SIZEOF_STORED_DOUBLE then Some (inl tt) else x ← float8get B (m_data g); Some (inr x).
Definition get_y (B : list Z) (g : Geometry) : option (unit + list Z) :=
  let data := m_data g in
  if no_data g data (SIZEOF_STORED_DOUBLE * 2) then Some (inl tt) else
  y ← float8get B (data + SIZEOF_STORED_DOUBLE); Some (inr y).

(** ** [class Gis_read_stream]

    The text is a list of bytes, [m_limit] its length; [my_isspace] is the table of
    the character set, a parameter. *)
Section Stream.
Context (isspace : Z → bool) (text : list Z).

(** Turns of the loop of [skip_space]. *)
Fixpoint skip_loop (fuel : nat) (m_cur : nat) : option nat :=
  match fuel with
  | O => None
  | S fuel =>
      if (m_cur <? length text)%nat then
        c ← text !! m_cur; if isspace c then skip_loop fuel (S m_cur) else Some m_cur
      else Some m_cur
  end.
Definition skip_space (m_cur : nat) : option nat := skip_loop (S (length text)) m_cur.

(** The result is whether the character was not found. *)
Definition skip_char (skip : Z) (m_cur : nat) : option (bool * nat) :=
  m_cur ← skip_space m_cur;
  if (length text <=? m_cur)%nat then Some (true, m_cur) else
  c ← text !! m_cur; if negb (c =? skip) then Some (true, m_cur) else Some (false, S m_cur).

Definition next_symbol (m_cur : nat) : option (Z * nat) :=
  m_cur ← skip_space m_cur;
  if (length text <=? m_cur)%nat then Some (0, m_cur) else c ← text !! m_cur; Some (c, m_cur).
End Stream.

(** ** Specification *)

Definition num_box (b : MBR) : Prop := is_num (xmin b) ∧ is_num (ymin b) ∧ is_num (xmax b) ∧ is_num (ymax b).
(** The points of a rectangle. *)
Definition in_box (b : MBR) (x y : spec_float) : bool :=
  dle (xmin b) x && dle x (xmax b) && dle (ymin b) y && dle y (ymax b).
(** The coordinates of points: finite doubles. *)
Definition finite (d : spec_float) : Prop := is_num d ∧ Z.abs (rank d) ≤ rank DBL_MAX.
Definition bounding (ps : list (spec_float * spec_float)) : MBR := foldl (λ b p, add_xy p.1 p.2 b) MBR0 ps.

Lemma my_max_num x y : is_num x → is_num y → is_num (my_max x y).
Proof. unfold my_max. by destruct (dlt _ _). Qed.
Lemma my_min_num x y : is_num x → is_num y → is_num (my_min x y).
Proof. unfold my_min. by destruct (dlt _ _). Qed.
Lemma my_max_rank x y : is_num x → is_num y → rank (my_max x y) = rank x `max` rank y.
Proof. intros Hx Hy. unfold my_max. rewrite dlt_rank by done. destruct (Z.ltb_spec (rank y) (rank x)); lia. Qed.
Lemma my_min_rank x y : is_num x → is_num y → rank (my_min x y) = rank x `min` rank y.
Proof. intros Hx Hy. unfold my_min. rewrite dlt_rank by done. destruct (Z.ltb_spec (rank x) (rank y)); lia. Qed.

(** The comparisons of numbers are those of their ranks. *)
Ltac num := first [assumption | apply my_max_num; num | apply my_min_num; num].
Ltac ranked := repeat match goal with
  | H : context [dlt ?x ?y] |- _ => rewrite (dlt_rank x y) in H by num
  | H : context [dle ?x ?y] |- _ => rewrite (dle_rank x y) in H by num
  | H : context [deq ?x ?y] |- _ => rewrite (deq_rank x y) in H by num
  | |- context [dlt ?x ?y] => rewrite (dlt_rank x y) by num
  | |- context [dle ?x ?y] => rewrite (dle_rank x y) by num
  | |- context [deq ?x ?y] => rewrite (deq_rank x y) by num
  | H : context [rank (my_max ?x ?y)] |- _ => rewrite (my_max_rank x y) in H by num
  | H : context [rank (my_min ?x ?y)] |- _ => rewrite (my_min_rank x y) in H by num
  | |- context [rank (my_max ?x ?y)] => rewrite (my_max_rank x y) by num
  | |- context [rank (my_min ?x ?y)] => rewrite (my_min_rank x y) by num
  end.
Ltac boxes :=
  repeat match goal with H : num_box ?b |- _ => destruct b, H as (? & ? & ? & ?) end;
  unfold equals, intersects, disjoint, touches, contains, inner_point, valid, in_box in *;
  cbn [xmin ymin xmax ymax fst snd] in *.

(** A point of the intersection: its lower corner. *)
Definition corner (a b : MBR) : spec_float * spec_float :=
  (my_max (xmin a) (xmin b), my_max (ymin a) (ymin b)).

Lemma MBR2_eq a b :
  MBR2 a b = Mbr (my_min (xmin b) (xmin a)) (my_min (ymin b) (ymin a)) (my_max (xmax b) (xmax a)) (my_max (ymax b) (ymax a)).
Proof. done. Qed.

Lemma disjoint_points a b : num_box a → num_box b → valid a = true → valid b = true →
  if disjoint a b then ∀ x y, is_num x → is_num y → in_box a x y && in_box b x y = false
  else in_box a (corner a b).1 (corner a b).2 && in_box b (corner a b).1 (corner a b).2 = true.
Proof.
  intros Ha Hb Va Vb. destruct (disjoint a b) eqn:E.
  - intros x y Hx Hy. boxes. ranked. lia.
  - unfold corner. boxes. ranked. lia.
Qed.

Lemma contains_points a b : num_box a → num_box b → valid b = true →
  contains a b = true ↔ ∀ x y, is_num x → is_num y → in_box b x y = true → in_box a x y = true.
Proof.
  intros Ha Hb Vb. split.
  - intros H x y Hx Hy Hin. boxes. ranked. lia.
  - intros H. boxes. ranked.
    pose proof (H xmin0 ymin0 ltac:(assumption) ltac:(assumption)) as K1. pose proof (H xmax0 ymax0 ltac:(assumption) ltac:(assumption)) as K2. clear H. ranked. lia.
Qed.

Lemma equals_contains a b : num_box a → num_box b → equals a b = contains a b && contains b a.
Proof. intros Ha Hb. boxes. ranked. lia. Qed.

(** The dimension counts the coordinates in which two points differ. *)
Lemma dimension_points b : num_box b →
  (dimension b = -1 ↔ valid b = false)
  ∧ (dimension b = 0 ↔ valid b = true ∧ ∀ x1 y1 x2 y2, is_num x1 → is_num y1 → is_num x2 → is_num y2 →
       in_box b x1 y1 = true → in_box b x2 y2 = true → deq x1 x2 && deq y1 y2 = true)
  ∧ (dimension b = 2 ↔ ∃ x1 y1 x2 y2, is_num x1 ∧ is_num y1 ∧ is_num x2 ∧ is_num y2 ∧
       in_box b x1 y1 = true ∧ in_box b x2 y2 = true ∧ dlt x1 x2 && dlt y1 y2 = true)
  ∧ -1 ≤ dimension b ≤ 2.
Proof.
  intros Hb. unfold dimension. boxes. ranked.
  split; [|split; [|split]].
  - zcases; cbn; (split; intros E; [try done; lia|try done; lia]).
  - split.
    + intros E. assert (rank xmin0 = rank xmax0 ∧ rank ymin0 = rank ymax0) as [E1 E2] by (revert E; zcases; lia).
      split; [lia|]. intros x1 y1 x2 y2 N1 N2 N3 N4 I1 I2. ranked. lia.
    + intros [V K]. pose proof (K xmin0 ymin0 xmax0 ymax0 ltac:(assumption) ltac:(assumption) ltac:(assumption) ltac:(assumption)) as K1.
      clear K. ranked. zcases; lia.
  - split.
    + intros E. exists xmin0, ymin0, xmax0, ymax0. ranked. revert E. zcases; intros; split_and!; try done; lia.
    + intros (x1 & y1 & x2 & y2 & N1 & N2 & N3 & N4 & I1 & I2 & K). ranked. zcases; lia.
  - zcases; lia.
Qed.

(** *** The rectangle of some points *)

Lemma DBL_MAX_num : is_num DBL_MAX ∧ is_num minus_DBL_MAX.
Proof. split; (split; [done|by vm_compute]). Qed.

Lemma rank_DBL_MAX : rank minus_DBL_MAX = - rank DBL_MAX.
Proof. by vm_compute. Qed.

Definition finite_points (ps : list (spec_float * spec_float)) : Prop := Forall (λ p, finite p.1 ∧ finite p.2) ps.

Lemma add_xy_eq x y b :
  add_xy x y b = Mbr (my_min x (xmin b)) (my_min y (ymin b)) (my_max x (xmax b)) (my_max y (ymax b)).
Proof. done. Qed.

Lemma add_xy_num x y b : is_num x → is_num y → num_box b → num_box (add_xy x y b).
Proof. intros Hx Hy (? & ? & ? & ?). rewrite add_xy_eq. split_and!; num. Qed.

(** What holds of the rectangle after the points [ps]: it is the first one, or its
    bounds are the least and the greatest coordinates. *)
Definition bounds_of (ps : list (spec_float * spec_float)) (b : MBR) : Prop :=
  num_box b ∧ (∀ p, p ∈ ps → in_box b p.1 p.2 = true)
  ∧ (ps ≠ [] → ∀ c, num_box c → (∀ p, p ∈ ps → in_box c p.1 p.2 = true) → contains c b = true)
  ∧ (ps = [] → b = MBR0).

Lemma bounds_of_snoc ps p b : finite p.1 → finite p.2 → finite_points ps → bounds_of ps b → bounds_of (ps ++ [p]) (add_xy p.1 p.2 b).
Proof.
  intros [Nx Fx] [Ny Fy] Hps (Hb & Hin & Hleast & Hnil). pose proof (add_xy_num p.1 p.2 b Nx Ny Hb) as Hb'.
  assert (ps = [] ∨ valid b = true) as Hv.
  { destruct ps as [|q ps]; [by left|right]. specialize (Hin q ltac:(by left)).
    apply Forall_cons in Hps as [[[Nq _] [Nq2 _]] _]. boxes. ranked. lia. }
  split; [done|]. clear Hb'. split; [|split; [|by destruct ps]].
  - intros q [Hq|Hq%list_elem_of_singleton]%elem_of_app; [|subst q].
    + assert (finite q.1 ∧ finite q.2) as [[Nq _] [Nq2 _]] by (by apply (proj1 (Forall_forall _ _) Hps)).
      specialize (Hin q Hq). rewrite add_xy_eq. boxes. ranked. lia.
    + destruct Hv as [->|Hv].
      * rewrite (Hnil eq_refl). rewrite add_xy_eq. boxes. cbn [MBR0 xmin ymin xmax ymax].
        destruct DBL_MAX_num as [N1 N2]. pose proof rank_DBL_MAX. ranked. lia.
      * rewrite add_xy_eq. boxes. ranked. lia.
  - intros _ c Hc Hcin. pose proof (Hcin p ltac:(set_solver)) as Hp. destruct Hv as [->|Hv].
    + rewrite (Hnil eq_refl). rewrite add_xy_eq. boxes. cbn [MBR0 xmin ymin xmax ymax] in *.
      destruct DBL_MAX_num as [N1 N2]. pose proof rank_DBL_MAX. ranked. lia.
    + assert (ps ≠ []) as Hne by (intros ->; rewrite (Hnil eq_refl) in Hv; by vm_compute in Hv).
      specialize (Hleast Hne c Hc ltac:(intros q Hq; apply Hcin; set_solver)). rewrite add_xy_eq. boxes. ranked. lia.
Qed.

Lemma bounding_bounds ps : finite_points ps → bounds_of ps (bounding ps).
Proof.
  induction ps as [|p ps IH] using rev_ind; intros Hps.
  - unfold bounding. cbn. destruct DBL_MAX_num. split; [done|]. split; [set_solver|]. done.
  - apply Forall_app in Hps as [Hps [[Fx Fy] _]%Forall_cons]. unfold bounding in *. rewrite foldl_snoc.
    by apply bounds_of_snoc; [..|apply IH].
Qed.

(** *** Touching and overlapping rectangles *)

Lemma touches_points a b : num_box a → num_box b → valid a = true → valid b = true → touches a b = true →
  intersects a b = true ∧ ∀ x y, is_num x → is_num y → inner_point a x y && inner_point b x y = false.
Proof.
  intros Ha Hb Va Vb Ht. boxes. ranked.
  rewrite ?andb_true_iff, ?Z.leb_le in Va, Vb. destruct Va, Vb.
  rewrite ?orb_true_iff, ?andb_true_iff, ?orb_true_iff, ?andb_true_iff, ?Z.leb_le, ?Z.eqb_eq in Ht. split.
  - apply negb_true_iff, not_true_iff_false. rewrite !orb_true_iff, !Z.ltb_lt.
    destruct Ht as [[[?|?] [[? ?]|[? ?]]]|[[?|?] [[? ?]|[? ?]]]]; lia.
  - intros x y Hx Hy. ranked. apply not_true_iff_false. rewrite !andb_true_iff, !Z.ltb_lt.
    destruct Ht as [[[?|?] _]|[[?|?] _]]; lia.
Qed.


Definition intersection (a b : MBR) : MBR :=
  Mbr (my_max (xmin a) (xmin b)) (my_max (ymin a) (ymin b)) (my_min (xmax a) (xmax b)) (my_min (ymax a) (ymax b)).

Lemma intersection_points a b x y : num_box a → num_box b → is_num x → is_num y →
  in_box (intersection a b) x y = in_box a x y && in_box b x y.
Proof. intros Ha Hb Hx Hy. unfold intersection. boxes. ranked. lia. Qed.

Lemma intersection_num a b : num_box a → num_box b → num_box (intersection a b).
Proof. intros Ha Hb. unfold intersection. destruct Ha as (?&?&?&?), Hb as (?&?&?&?). split_and!; num. Qed.

(** Two rectangles with the same points, if there are any, have the same dimension. *)
Lemma dimension_ext a b : num_box a → num_box b → valid a = true →
  (∀ x y, is_num x → is_num y → in_box a x y = in_box b x y) → dimension a = dimension b.
Proof.
  intros Ha Hb Va H. unfold dimension. boxes.
  pose proof (H xmin0 ymin0 ltac:(assumption) ltac:(assumption)) as K1.
  pose proof (H xmax0 ymax0 ltac:(assumption) ltac:(assumption)) as K2.
  pose proof (H xmin1 ymin1 ltac:(assumption) ltac:(assumption)) as K3.
  pose proof (H xmax1 ymax1 ltac:(assumption) ltac:(assumption)) as K4. clear H. ranked.
  assert (rank xmin0 = rank xmin1 ∧ rank xmax0 = rank xmax1 ∧ rank ymin0 = rank ymin1 ∧ rank ymax0 = rank ymax1)
    as (-> & -> & -> & ->) by lia. done.
Qed.

Lemma dimension_valid b : num_box b → 0 < dimension b → valid b = true.
Proof. intros Hb H. destruct (dimension_points b Hb) as (Hv & _). destruct (valid b); [done|]. rewrite (proj2 Hv) in H by done. lia. Qed.

Lemma overlaps_points within a b : num_box a → num_box b →
  overlaps within a b = true ↔ 0 < dimension a ∧ dimension a = dimension b ∧ contains a b = false ∧ within a b = false
    ∧ ∃ c, num_box c ∧ dimension c = dimension a ∧ ∀ x y, is_num x → is_num y → in_box c x y = in_box a x y && in_box b x y.
Proof.
  intros Ha Hb. unfold overlaps. cbv zeta. fold (intersection a b).
  destruct (Z.eqb_spec (dimension a) (dimension b)) as [Ed|Nd]; cbn [negb orb]; [|split; [done|naive_solver]].
  destruct (Z.leb_spec (dimension a) 0) as [Hd|Hd]; cbn [orb]; [split; [done|lia]|].
  destruct (contains a b); cbn [orb]; [split; [done|naive_solver]|].
  destruct (within a b); [split; [done|naive_solver]|]. split.
  - intros E%Z.eqb_eq. split_and!; try done. exists (intersection a b). split_and!; [by apply intersection_num|done|].
    intros x y Hx Hy. by apply intersection_points.
  - intros (_ & _ & _ & _ & c & Hc & Hdc & Hp). apply Z.eqb_eq. rewrite <- Hdc. apply dimension_ext; [done|by apply intersection_num| |].
    + apply dimension_valid; [done|lia].
    + intros x y Hx Hy. by rewrite Hp, intersection_points.
Qed.

(** *** Well-known text *)

Lemma skip_loop_spec isspace text fuel m : (length text < fuel + m)%nat → (m ≤ length text)%nat →
  ∃ n, skip_loop isspace text fuel m = Some n ∧ (m ≤ n ≤ length text)%nat
    ∧ (∀ i c, (m ≤ i < n)%nat → text !! i = Some c → isspace c = true)
    ∧ (∀ c, text !! n = Some c → isspace c = false).
Proof.
  revert m. induction fuel as [|fuel IH]; intros m Hf Hm; [lia|]. cbn [skip_loop].
  destruct (Nat.ltb_spec m (length text)) as [Hlt|Hge].
  - destruct (lookup_lt_is_Some_2 text m Hlt) as [c Ec]. rewrite Ec. cbn [mbind option_bind].
    destruct (isspace c) eqn:Es.
    + destruct (IH (S m)) as (n & En & Hn & Hsp & Hend); [lia|lia|]. exists n. split_and!; [done|lia|lia| |done].
      intros i c' Hi Hc'. destruct (decide (i = m)) as [->|]; [congruence|]. apply (Hsp i); [lia|done].
    + exists m. split_and!; [done|lia|lia| |]; [intros; lia|congruence].
  - exists m. split_and!; [done|lia|lia| |]; [intros; lia|]. intros c Hc%lookup_lt_Some. lia.
Qed.

(** ** Theorems *)

(** C39: The relations of two valid rectangles are those of their sets of points:
    equal, disjoint and intersecting rectangles, one that contains another; inner
    points are points; rectangles that touch have a common point but no common
    inner point; they overlap when they have the same dimension, at least 1, none
    is in the other, and their common points are a rectangle of that dimension. *)
Theorem mbr_relations within a b (Ha : num_box a) (Hb : num_box b) (Va : valid a = true) (Vb : valid b = true) :
  let both x y := in_box a x y && in_box b x y in
  (equals a b = true ↔ ∀ x y, is_num x → is_num y → in_box a x y = in_box b x y)
  ∧ (disjoint a b = true ↔ ∀ x y, is_num x → is_num y → both x y = false)
  ∧ (intersects a b = true ↔ ∃ x y, is_num x ∧ is_num y ∧ both x y = true)
  ∧ (contains a b = true ↔ ∀ x y, is_num x → is_num y → in_box b x y = true → in_box a x y = true)
  ∧ (∀ x y, is_num x → is_num y → inner_point a x y = true → in_box a x y = true)
  ∧ (touches a b = true → intersects a b = true ∧ ∀ x y, is_num x → is_num y → inner_point a x y && inner_point b x y = false)
  ∧ (overlaps within a b = true ↔ 0 < dimension a ∧ dimension a = dimension b ∧ contains a b = false ∧ within a b = false
     ∧ ∃ c, num_box c ∧ dimension c = dimension a ∧ ∀ x y, is_num x → is_num y → in_box c x y = both x y).
Proof.
  cbv zeta. pose proof (disjoint_points a b Ha Hb Va Vb) as Hdis.
  assert (is_num (corner a b).1 ∧ is_num (corner a b).2) as [C1 C2].
  { destruct Ha as (?&?&?&?), Hb as (?&?&?&?). by split; apply my_max_num. }
  split_and!.
  - rewrite equals_contains, andb_true_iff by done. rewrite (contains_points a b), (contains_points b a) by done. split.
    + intros [H1 H2] x y Hx Hy. apply eq_true_iff_eq. naive_solver.
    + intros H. split; intros x y Hx Hy; by rewrite H.
  - destruct (disjoint a b); [done|]. split; [done|]. intros H. by rewrite H in Hdis.
  - unfold intersects. destruct (disjoint a b); cbn; (split; [try done|]).
    + intros (x & y & Hx & Hy & E). by rewrite Hdis in E.
    + intros _. by exists (corner a b).1, (corner a b).2.
    + done.
  - by apply contains_points.
  - intros x y Hx Hy Hi. clear Hdis C1 C2. boxes. ranked. lia.
  - by apply touches_points.
  - by apply overlaps_points.
Qed.

(** C40: The rectangle built from points contains them all and is in every rectangle
    that contains them, so the order of the points does not matter; built from two
    rectangles it contains both and is in every one that does; the dimension is
    -1 for a rectangle without points, 0 for one point, 2 for one with two points
    that differ in both coordinates. *)
Theorem mbr_bounding ps a b (Hps : finite_points ps) (Ha : num_box a) (Hb : num_box b) :
  (num_box (bounding ps) ∧ ∀ p, p ∈ ps → in_box (bounding ps) p.1 p.2 = true)
  ∧ (ps ≠ [] → valid (bounding ps) = true
     ∧ (∀ c, num_box c → (∀ p, p ∈ ps → in_box c p.1 p.2 = true) → contains c (bounding ps) = true)
     ∧ ∀ qs, ps ≡ₚ qs → equals (bounding ps) (bounding qs) = true)
  ∧ (contains (MBR2 a b) a = true ∧ contains (MBR2 a b) b = true
     ∧ ∀ c, num_box c → contains c a = true → contains c b = true → contains c (MBR2 a b) = true)
  ∧ (dimension a = -1 ↔ valid a = false)
  ∧ (dimension a = 0 ↔ valid a = true ∧ ∀ x1 y1 x2 y2, is_num x1 → is_num y1 → is_num x2 → is_num y2 →
       in_box a x1 y1 = true → in_box a x2 y2 = true → deq x1 x2 && deq y1 y2 = true)
  ∧ (dimension a = 2 ↔ ∃ x1 y1 x2 y2, is_num x1 ∧ is_num y1 ∧ is_num x2 ∧ is_num y2 ∧
       in_box a x1 y1 = true ∧ in_box a x2 y2 = true ∧ dlt x1 x2 && dlt y1 y2 = true).
Proof.
  destruct (bounding_bounds ps Hps) as (Hn & Hin & Hleast & _). destruct (dimension_points a Ha) as (D1 & D2 & D3 & _).
  split_and!; try done.
  - intros Hne. split_and!.
    + destruct ps as [|p ps]; [done|]. specialize (Hin p ltac:(by left)). apply Forall_cons in Hps as [[[Np _] [Np2 _]] _].
      set (b' := bounding (p :: ps)) in *. clearbody b'. clear Hleast D1 D2 D3. boxes. ranked. lia.
    + by apply Hleast.
    + intros qs Hq. assert (finite_points qs) as Hqs by (by unfold finite_points in *; rewrite <- Hq).
      destruct (bounding_bounds qs Hqs) as (Hn' & Hin' & Hleast' & _).
      rewrite equals_contains, andb_true_iff by done. split.
      * apply Hleast'; [by intros ->; apply Permutation_nil_r in Hq|done|]. intros p Hp. apply Hin. by rewrite Hq.
      * apply Hleast; [done|done|]. intros p Hp. apply Hin'. by rewrite <- Hq.
  - clear D1 D2 D3 Hn Hin Hleast. rewrite MBR2_eq. boxes. ranked. lia.
  - clear D1 D2 D3 Hn Hin Hleast. rewrite MBR2_eq. boxes. ranked. lia.
  - clear D1 D2 D3 Hn Hin Hleast. intros c Hc C1 C2. rewrite MBR2_eq. boxes. ranked. lia.
Qed.

(** [touches] is not symmetric: two rectangles share the line x = 1, but the one
    that is longer there is not said to touch the shorter one by it. *)
Theorem mbr_touches_asymmetric :
  let d := double_of in
  let a := Mbr (d 0) (d 0) (d 1) (d 1) in let b := Mbr (d 1) (d (-1)) (d 2) (d 2) in
  touches a b = false ∧ touches b a = true ∧ intersects a b = true ∧ valid a = true ∧ valid b = true
  ∧ ∀ x y, is_num x → is_num y → inner_point a x y && inner_point b x y = false.
Proof.
  cbv zeta. split_and!; [by vm_compute|by vm_compute|by vm_compute|by vm_compute|by vm_compute|].
  intros x y Hx Hy. rewrite andb_comm. apply touches_points; [..|done|done]; try by vm_compute.
  all: split_and!; (split; [done|by vm_compute]).
Qed.

(** When [not_enough_points] says no, every point of the array is in the data, and
    the sizes do not overflow; coordinates are read only inside the data, and the
    bytes read are those of the two stored doubles. *)
Theorem geometry_bounds B g data n extra (Hn : in_u 32 n) (He : 0 ≤ extra < 2 ^ 32 - 16)
    (Hg : 0 ≤ m_data g ∧ m_data_end g = Z.of_nat (length B)) (Hd : 0 ≤ data) :
  (not_enough_points g data n extra = Some true ∨ not_enough_points g data n extra = Some false)
  ∧ (not_enough_points g data n extra = Some false →
     ∀ i, 0 ≤ i < n → no_data g (data + i * (POINT_DATA_SIZE + extra)) (POINT_DATA_SIZE + extra) = false)
  ∧ (not_enough_points g data n extra = Some true → m_data_end g < data + n * (POINT_DATA_SIZE + extra))
  ∧ (get_xy B g = Some (inl tt) ∧ m_data_end g < m_data g + POINT_DATA_SIZE
     ∨ ∃ x y, get_xy B g = Some (inr (x, y)) ∧ get_x B g = Some (inr x) ∧ get_y B g = Some (inr y)
        ∧ length x = 8%nat ∧ length y = 8%nat ∧ take 16 (drop (Z.to_nat (m_data g)) B) = x ++ y).
Proof.
  unfold in_u in Hn. change (2 ^ 32) with 4294967296 in *. destruct Hg as [Hg0 Hend].
  unfold not_enough_points, no_data, POINT_DATA_SIZE, SIZEOF_STORED_DOUBLE. change (8 * 2) with 16.
  assert (to_uint32 (16 + extra) = 16 + extra) as -> by (apply wrap_id; unfold in_u; change (2 ^ 32) with 4294967296; lia).
  destruct (Z.eqb_spec (16 + extra) 0); [lia|].
  split; [|split; [|split]].
  - destruct (_ <? _); [auto|]. destruct (_ <? _); auto.
  - destruct (Z.ltb_spec (m_data_end g) data); [done|]. rewrite Z.quot_div_nonneg by lia.
    intros [= E%Z.ltb_ge] i Hi. apply Z.ltb_ge.
    pose proof (Z.mul_div_le (m_data_end g - data) (16 + extra) ltac:(lia)). nia.
  - destruct (Z.ltb_spec (m_data_end g) data); [nia|]. rewrite Z.quot_div_nonneg by lia.
    intros [= E%Z.ltb_lt]. pose proof (Z.mul_succ_div_gt (m_data_end g - data) (16 + extra) ltac:(lia)). nia.
  - unfold get_xy, get_x, get_y, no_data, float8get, SIZEOF_STORED_DOUBLE. change (8 * 2) with 16.
    destruct (Z.ltb_spec (m_data_end g) (m_data g + 16)) as [Hlt|Hge]; [left; split; [done|lia]|right].
    destruct (Z.ltb_spec (m_data_end g) (m_data g + 8)); [lia|].
    rewrite !bool_decide_true by lia. cbn [mbind option_bind]. eexists _, _. split; [done|].
    split; [done|]. split; [done|]. rewrite !length_take, !length_drop. split_and!; [lia|lia|].
    replace (Z.to_nat (m_data g + 8)) with (8 + Z.to_nat (m_data g))%nat by lia.
    rewrite Nat.add_comm, <- drop_drop. by rewrite <- (take_take_drop _ 8 8).
Qed.

(** The scanner skips exactly the white space before a character, stops at the end
    of the text, and takes the character only if it is the one asked for. *)
Theorem read_stream_correct isspace text m skip (Hm : (m ≤ length text)%nat) :
  ∃ n, skip_space isspace text m = Some n ∧ (m ≤ n ≤ length text)%nat
    ∧ (∀ i c, (m ≤ i < n)%nat → text !! i = Some c → isspace c = true)
    ∧ (∀ c, text !! n = Some c → isspace c = false)
    ∧ next_symbol isspace text m = Some (default 0 (text !! n), n)
    ∧ skip_char isspace text skip m
      = Some (if bool_decide (text !! n = Some skip) then (false, S n) else (true, n)).
Proof.
  destruct (skip_loop_spec isspace text (S (length text)) m) as (n & En & Hn & Hsp & Hend); [lia|done|].
  exists n. unfold next_symbol, skip_char, skip_space. rewrite En. cbn [mbind option_bind]. split_and!; try done; try lia.
  - destruct (Nat.leb_spec (length text) n); [by rewrite lookup_ge_None_2|].
    by destruct (lookup_lt_is_Some_2 text n) as [c ->].
  - destruct (Nat.leb_spec (length text) n); [by rewrite lookup_ge_None_2|].
    destruct (lookup_lt_is_Some_2 text n) as [c ->]; [done|]. cbn [mbind option_bind].
    destruct (Z.eqb_spec c skip) as [->|Hne]; cbn; [by rewrite bool_decide_true|by rewrite bool_decide_false by congruence].
Qed.

(** ** Witnesses *)

Definition box (a b c d : Z) : MBR := Mbr (double_of a) (double_of b) (double_of c) (double_of d).

Lemma small_num : is_num (double_of 0) ∧ is_num (double_of 1) ∧ is_num (double_of 2) ∧ is_num (double_of 3).
Proof. split_and!; (split; [done|by vm_compute]). Defined.

Lemma mbr_relations_witness :
  overlaps contains (box 0 0 2 2) (box 1 1 3 3) = true ∧ touches (box 0 0 1 1) (box 1 1 2 2) = true
  ∧ ∃ x y, is_num x ∧ is_num y ∧ in_box (box 0 0 2 2) x y && in_box (box 1 1 3 3) x y = true.
Proof.
  destruct small_num as (N0 & N1 & N2 & N3). split; [by vm_compute|]. split; [by vm_compute|].
  destruct (mbr_relations contains (box 0 0 2 2) (box 1 1 3 3)) as (_ & _ & H & _);
    [by split_and!|by split_and!|by vm_compute|by vm_compute|].
  apply H. by vm_compute.
Defined.

Lemma mbr_bounding_witness :
  bounding [(double_of 2, double_of 0); (double_of 1, double_of 3)] = box 1 0 2 3
  ∧ valid (bounding [(double_of 2, double_of 0); (double_of 1, double_of 3)]) = true.
Proof.
  destruct small_num as (N0 & N1 & N2 & N3). split; [by vm_compute|].
  destruct (mbr_bounding [(double_of 2, double_of 0); (double_of 1, double_of 3)] (box 0 0 1 1) (box 0 0 1 1))
    as (_ & H & _); [|by split_and!|by split_and!|by apply H].
  repeat apply Forall_cons_2; try apply Forall_nil_2; (split; (split; [done|by vm_compute])).
Defined.

(** Two points with headers of 5 bytes fit in 42 bytes, three do not. *)
Lemma geometry_bounds_witness :
  not_enough_points (Geom 0 42) 0 2 5 = Some false ∧ no_data (Geom 0 42) (0 + 1 * (POINT_DATA_SIZE + 5)) (POINT_DATA_SIZE + 5) = false
  ∧ not_enough_points (Geom 0 42) 0 3 5 = Some true.
Proof.
  destruct (geometry_bounds (replicate 42 0) (Geom 0 42) 0 2 5) as (_ & H & _);
    [by vm_compute|lia|split; [cbn; lia|by vm_compute]|lia|].
  split; [by vm_compute|]. split; [apply H; [by vm_compute|lia]|by vm_compute].
Defined.

(** Two spaces and a bracket. *)
Lemma read_stream_correct_witness :
  skip_char (λ c, c =? 32) [32; 32; 40; 49] 40 0 = Some (false, 3%nat)
  ∧ ∃ n, next_symbol (λ c, c =? 32) [32; 32; 40; 49] 0 = Some (default 0 ([32; 32; 40; 49] !! n), n).
Proof.
  split; [by vm_compute|].
  destruct (read_stream_correct (λ c, c =? 32) [32; 32; 40; 49] 0 40) as (n & _ & _ & _ & _ & H & _); [lia|].
  exists n. exact H.
Defined.
