(* ===== verification/LexStream.v ===== *)
(** [sql_lex.h], [class Lex_input_stream]: the text of a query and, beside it, the
    pre-processed text without the comments, which the lexer fills as it accepts
    characters. *)
From S2P Require Import Prelude CMonad.

(** ** State

    The two buffers are lists of bytes; pointers are positions in them, and a
    pointer before or behind a buffer is not dereferenced. *)
Record Lex_input_stream := Lis {
  raw : list Z;
  cpp : list Z;
  m_ptr : Z;
  m_cpp_ptr : Z;
  m_tok_start : Z;
  m_tok_start_prev : Z;
  m_tok_end : Z;
  m_cpp_tok_start : Z;
  m_cpp_tok_start_prev : Z;
  m_cpp_tok_end : Z;
  m_echo : bool;
  m_echo_saved : bool;
  in_comment : Z;
  in_comment_saved : Z;
  m_end_of_query : Z;
  lookahead_token : Z }.

Definition set_ptrs (ptr cpp_ptr : Z) (s : Lex_input_stream) : Lex_input_stream :=
  Lis (raw s) (cpp s) ptr cpp_ptr (m_tok_start s) (m_tok_start_prev s) (m_tok_end s) (m_cpp_tok_start s)
    (m_cpp_tok_start_prev s) (m_cpp_tok_end s) (m_echo s) (m_echo_saved s) (in_comment s) (in_comment_saved s)
    (m_end_of_query s) (lookahead_token s).
Definition set_buffers (r c : list Z) (s : Lex_input_stream) : Lex_input_stream :=
  Lis r c (m_ptr s) (m_cpp_ptr s) (m_tok_start s) (m_tok_start_prev s) (m_tok_end s) (m_cpp_tok_start s)
    (m_cpp_tok_start_prev s) (m_cpp_tok_end s) (m_echo s) (m_echo_saved s) (in_comment s) (in_comment_saved s)
    (m_end_of_query s) (lookahead_token s).
Definition set_mode (echo saved : bool) (comment comment_saved : Z) (s : Lex_input_stream) : Lex_input_stream :=
  Lis (raw s) (cpp s) (m_ptr s) (m_cpp_ptr s) (m_tok_start s) (m_tok_start_prev s) (m_tok_end s) (m_cpp_tok_start s)
    (m_cpp_tok_start_prev s) (m_cpp_tok_end s) echo saved comment comment_saved (m_end_of_query s) (lookahead_token s).
Definition set_tokens (start prev end_ cstart cprev cend : Z) (s : Lex_input_stream) : Lex_input_stream :=
  Lis (raw s) (cpp s) (m_ptr s) (m_cpp_ptr s) start prev end_ cstart cprev cend (m_echo s) (m_echo_saved s)
    (in_comment s) (in_comment_saved s) (m_end_of_query s) (lookahead_token s).

(** [*p] and [*p= c] in a buffer. *)
Definition get_at (l : list Z) (p : Z) : option Z := if 0 <=? p then l !! Z.to_nat p else None.
Definition put_at (l : list Z) (p c : Z) : option (list Z) := if 0 <=? p then poke l (Z.to_nat p) c else None.
(** [memcpy] of [n] bytes from one buffer to the other; a negative [n] is a huge
    size. *)
Definition memcpy (dst : list Z) (p : Z) (src : list Z) (q n : Z) : option (list Z) :=
  if bool_decide (0 ≤ p ∧ 0 ≤ q ∧ 0 ≤ n ∧ p + n ≤ Z.of_nat (length dst) ∧ q + n ≤ Z.of_nat (length src))
  then Some (take (Z.to_nat p) dst ++ take (Z.to_nat n) (drop (Z.to_nat q) src) ++ drop (Z.to_nat (p + n)) dst)
  else None.

(** ** Operations *)

Definition set_echo (echo : bool) (s : Lex_input_stream) : Lex_input_stream :=
  set_mode echo (m_echo_saved s) (in_comment s) (in_comment_saved s) s.
Definition save_in_comment_state (s : Lex_input_stream) : Lex_input_stream :=
  set_mode (m_echo s) (m_echo s) (in_comment s) (in_comment s) s.
Definition restore_in_comment_state (s : Lex_input_stream) : Lex_input_stream :=
  set_mode (m_echo_saved s) (m_echo_saved s) (in_comment_saved s) (in_comment_saved s) s.

(** The text of [skip_binary] and [yySkipn]. *)
Definition skip_binary (n : Z) (s : Lex_input_stream) : option Lex_input_stream :=
  if m_echo s then
    c ← memcpy (cpp s) (m_cpp_ptr s) (raw s) (m_ptr s) n;
    Some (set_ptrs (m_ptr s + n) (m_cpp_ptr s + n) (set_buffers (raw s) c s))
  else Some (set_ptrs (m_ptr s + n) (m_cpp_ptr s) s).

Definition yyGet (s : Lex_input_stream) : option (Z * Lex_input_stream) :=
  c ← get_at (raw s) (m_ptr s);
  if m_echo s then
    b ← put_at (cpp s) (m_cpp_ptr s) c;
    Some (c, set_ptrs (m_ptr s + 1) (m_cpp_ptr s + 1) (set_buffers (raw s) b s))
  else Some (c, set_ptrs (m_ptr s + 1) (m_cpp_ptr s) s).

Definition yyGetLast (s : Lex_input_stream) : option Z := get_at (raw s) (m_ptr s - 1).
Definition yyPeek (s : Lex_input_stream) : option Z := get_at (raw s) (m_ptr s).
Definition yyPeekn (n : Z) (s : Lex_input_stream) : option Z := get_at (raw s) (m_ptr s + n).

Definition yyUnget (s : Lex_input_stream) : Lex_input_stream :=
  set_ptrs (m_ptr s - 1) (if m_echo s then m_cpp_ptr s - 1 else m_cpp_ptr s) s.

Definition yySkip (s : Lex_input_stream) : option Lex_input_stream :=
  if m_echo s then
    c ← get_at (raw s) (m_ptr s);
    b ← put_at (cpp s) (m_cpp_ptr s) c;
    Some (set_ptrs (m_ptr s + 1) (m_cpp_ptr s + 1) (set_buffers (raw s) b s))
  else Some (set_ptrs (m_ptr s + 1) (m_cpp_ptr s) s).

Definition yySkipn (n : Z) (s : Lex_input_stream) : option Lex_input_stream :=
  if m_echo s then
    c ← memcpy (cpp s) (m_cpp_ptr s) (raw s) (m_ptr s) n;
    Some (set_ptrs (m_ptr s + n) (m_cpp_ptr s + n) (set_buffers (raw s) c s))
  else Some (set_ptrs (m_ptr s + n) (m_cpp_ptr s) s).

Definition yyUnput (ch : Z) (s : Lex_input_stream) : option (Z * Lex_input_stream) :=
  b ← put_at (raw s) (m_ptr s - 1) ch;
  Some (m_ptr s - 1,
    set_ptrs (m_ptr s - 1) (if m_echo s then m_cpp_ptr s - 1 else m_cpp_ptr s) (set_buffers b (cpp s) s)).

Definition eof_n (n : Z) (s : Lex_input_stream) : bool := m_end_of_query s <=? m_ptr s + n.
Definition eof (s : Lex_input_stream) : bool := m_end_of_query s <=? m_ptr s.

Definition start_token (s : Lex_input_stream) : Lex_input_stream :=
  set_tokens (m_ptr s) (m_tok_start s) (m_ptr s) (m_cpp_ptr s) (m_cpp_tok_start s) (m_cpp_ptr s) s.
Definition restart_token (s : Lex_input_stream) : Lex_input_stream :=
  set_tokens (m_ptr s) (m_tok_start_prev s) (m_tok_end s) (m_cpp_ptr s) (m_cpp_tok_start_prev s) (m_cpp_tok_end s) s.
Definition set_cpp_tok_start (pos : Z) (s : Lex_input_stream) : Lex_input_stream :=
  set_tokens (m_tok_start s) (m_tok_start_prev s) (m_tok_end s) pos (m_cpp_tok_start_prev s) (m_cpp_tok_end s) s.

Definition yyLength (dbug : bool) (s : Lex_input_stream) : option Z :=
  if dbug && negb (m_tok_start s <? m_ptr s) then None else Some (to_uint32 (m_ptr s - m_tok_start s - 1)).

Definition has_lookahead (s : Lex_input_stream) : bool := 0 <=? lookahead_token s.
Definition get_tok_start (s : Lex_input_stream) : Z := if has_lookahead s then m_tok_start_prev s else m_tok_start s.
Definition get_cpp_tok_start (s : Lex_input_stream) : Z :=
  if has_lookahead s then m_cpp_tok_start_prev s else m_cpp_tok_start s.

Section Trim.
Context (isspace : Z → bool).
(** The loop that both functions have: white space before [p] is dropped. *)
Fixpoint rtrim_loop (fuel : nat) (b : list Z) (p : Z) : option Z :=
  match fuel with
  | O => None
  | S fuel =>
      if 0 <? p then c ← get_at b (p - 1); if isspace c then rtrim_loop fuel b (p - 1) else Some p
      else Some p
  end.
Definition get_cpp_tok_end_rtrim (s : Lex_input_stream) : option Z :=
  rtrim_loop (S (length (cpp s))) (cpp s) (m_cpp_tok_end s).
Definition get_cpp_ptr_rtrim (s : Lex_input_stream) : option Z :=
  rtrim_loop (S (length (cpp s))) (cpp s) (m_cpp_ptr s).
End Trim.

(** ** Specification

    The characters accepted so far, each with whether it was echoed. *)
Definition echoed (h : list (Z * bool)) : list Z := (filter (λ p, p.2 = true) h).*1.

Record rep (s : Lex_input_stream) (h : list (Z * bool)) : Prop := {
  h_raw : take (length h) (raw s) = h.*1;
  h_ptr : m_ptr s = Z.of_nat (length h);
  h_len : (length h ≤ length (raw s))%nat;
  h_cpp : take (length (echoed h)) (cpp s) = echoed h;
  h_cpp_ptr : m_cpp_ptr s = Z.of_nat (length (echoed h));
  h_room : (length (raw s) ≤ length (cpp s))%nat;
  h_end : 0 ≤ m_end_of_query s ≤ Z.of_nat (length (raw s)) }.

(** What a sequence of calls does. *)
Inductive op := Get | Skip | Skipn (n : nat) | Binary (n : nat) | Echo (echo : bool) | Save | Restore | Start | Again.
Definition exec (o : op) (s : Lex_input_stream) : option Lex_input_stream :=
  match o with
  | Get => r ← yyGet s; Some r.2
  | Skip => yySkip s
  | Skipn n => yySkipn (Z.of_nat n) s
  | Binary n => skip_binary (Z.of_nat n) s
  | Echo echo => Some (set_echo echo s)
  | Save => Some (save_in_comment_state s)
  | Restore => Some (restore_in_comment_state s)
  | Start => Some (start_token s)
  | Again => Some (restart_token s)
  end.
Fixpoint execs (os : list op) (s : Lex_input_stream) : option Lex_input_stream :=
  match os with [] => Some s | o :: os => s ← exec o s; execs os s end.
(** How many characters it accepts, and which of them it echoes. *)
Definition accepts (o : op) : nat := match o with Get | Skip => 1 | Skipn n | Binary n => n | _ => 0 end.
Fixpoint modes (os : list op) (echo saved : bool) : list bool :=
  match os with
  | [] => []
  | Echo e :: os => modes os e saved
  | Save :: os => modes os echo echo
  | Restore :: os => modes os saved saved
  | o :: os => replicate (accepts o) echo ++ modes os echo saved
  end.
Definition total (os : list op) : nat := sum_list (accepts <$> os).

Definition with_mode (e : bool) (l : list Z) : list (Z * bool) := (λ c, (c, e)) <$> l.

Lemma with_mode_fst e l : (with_mode e l).*1 = l.
Proof. unfold with_mode. rewrite <- list_fmap_compose. apply list_fmap_id. Qed.

Lemma echoed_app h h' : echoed (h ++ h') = echoed h ++ echoed h'.
Proof. unfold echoed. by rewrite filter_app, fmap_app. Qed.

Lemma echoed_mode e l : echoed (with_mode e l) = if e then l else [].
Proof.
  unfold echoed, with_mode. induction l as [|c l IH]; [by destruct e|]. csimpl. rewrite filter_cons.
  case_decide as H; cbn in H; destruct e; try done. cbn. by rewrite IH.
Qed.

Lemma echoed_le h : (length (echoed h) ≤ length h)%nat.
Proof. unfold echoed. rewrite length_fmap. apply length_filter. Qed.

(** The characters that come next. *)
Definition next_chars (s : Lex_input_stream) (n : nat) : list Z := take n (drop (Z.to_nat (m_ptr s)) (raw s)).

Lemma next_chars_len s h n : rep s h → (length h + n ≤ length (raw s))%nat → length (next_chars s n) = n.
Proof. intros R Hn. unfold next_chars. rewrite length_take, length_drop, (h_ptr _ _ R). lia. Qed.

(** Accepting [n] characters at once. *)
Lemma skipn_ok s h n : rep s h → (length h + n ≤ length (raw s))%nat →
  ∃ s', yySkipn (Z.of_nat n) s = Some s' ∧ skip_binary (Z.of_nat n) s = Some s'
    ∧ rep s' (h ++ with_mode (m_echo s) (next_chars s n)) ∧ raw s' = raw s ∧ length (cpp s') = length (cpp s)
    ∧ (∀ e1 e2 c1 c2, set_mode e1 e2 c1 c2 s' = set_ptrs (m_ptr s') (m_cpp_ptr s') (set_buffers (raw s') (cpp s') (set_mode e1 e2 c1 c2 s)))
    ∧ m_echo s' = m_echo s ∧ m_echo_saved s' = m_echo_saved s.
Proof.
  intros R Hn. pose proof (next_chars_len s h n R Hn) as Hl. unfold next_chars in *. destruct R as [Hr Hp Hlen Hc Hcp Hroom Hend].
  rewrite Hp, Nat2Z.id in Hl |- *. set (l := take n (drop (length h) (raw s))) in *.
  assert (take (length h + n) (raw s) = h.*1 ++ l) as Hraw.
  { unfold l. by rewrite <- Hr, take_take_drop. }
  unfold yySkipn, skip_binary. destruct (m_echo s) eqn:Ee.
  - pose proof (echoed_le h) as Hle. unfold memcpy. rewrite Hcp, Hp. rewrite bool_decide_true by lia.
    cbn [mbind option_bind]. eexists. split; [done|]. split; [done|]. rewrite !Nat2Z.id.
    replace (Z.to_nat (Z.of_nat (length (echoed h)) + Z.of_nat n)) with (length (echoed h) + n)%nat by lia.
    fold l. rewrite Hc. split; [|split; [done|split; [|by split_and!]]].
    + split; cbn; rewrite ?length_app, ?fmap_app, ?with_mode_fst, ?echoed_app, ?echoed_mode; unfold with_mode;
        rewrite ?length_fmap, ?length_app, ?Hl; try done; try lia.
      * rewrite app_assoc. apply take_app_length'. by rewrite length_app, Hl.
      * rewrite length_drop. lia.
    + cbn. rewrite !length_app, length_drop, Hl. lia.
  - eexists. split; [done|]. split; [done|]. split; [|by split_and!].
    split; cbn; rewrite ?length_app, ?fmap_app, ?with_mode_fst, ?echoed_app, ?echoed_mode, ?app_nil_r; unfold with_mode;
      rewrite ?length_fmap, ?Hl; try done; lia.
Qed.

Lemma next_char s h c : rep s h → raw s !! length h = Some c → next_chars s 1 = [c] ∧ get_at (raw s) (m_ptr s) = Some c.
Proof.
  intros R Hc. unfold next_chars, get_at. rewrite (h_ptr _ _ R), Nat2Z.id. destruct (Z.leb_spec 0 (Z.of_nat (length h))); [|lia].
  split; [|done]. by rewrite (drop_S _ c _ Hc).
Qed.

(** [yyGet] and [yySkip] accept one character. *)
Lemma get_skipn s h c : rep s h → raw s !! length h = Some c →
  yyGet s = (λ s', (c, s')) <$> yySkipn 1 s ∧ yySkip s = yySkipn 1 s.
Proof.
  intros R Hc. destruct (next_char s h c R Hc) as [Hn Hg]. unfold yyGet, yySkip, yySkipn. rewrite Hg. cbn [mbind option_bind].
  destruct (m_echo s); [|done].
  assert (put_at (cpp s) (m_cpp_ptr s) c = memcpy (cpp s) (m_cpp_ptr s) (raw s) (m_ptr s) 1) as E.
  { pose proof (echoed_le h). pose proof (h_room _ _ R). pose proof (h_cpp_ptr _ _ R) as Hcp. apply lookup_lt_Some in Hc as Hlt.
    unfold put_at, memcpy. rewrite bool_decide_true by (rewrite Hcp, (h_ptr _ _ R); lia).
    destruct (Z.leb_spec 0 (m_cpp_ptr s)); [|lia]. rewrite poke_defined by lia. f_equal.
    rewrite insert_take_drop by lia. unfold next_chars in Hn. change (Z.to_nat 1) with 1%nat. rewrite Hn. cbn [app].
    do 3 f_equal. lia. }
  rewrite E. by destruct (memcpy _ _ _ _ _).
Qed.

Lemma exec_ok o s h : rep s h → (length h + accepts o ≤ length (raw s))%nat →
  ∃ s', exec o s = Some s' ∧ rep s' (h ++ with_mode (m_echo s) (next_chars s (accepts o))) ∧ raw s' = raw s
    ∧ m_echo s' = match o with Echo e => e | Restore => m_echo_saved s | _ => m_echo s end
    ∧ m_echo_saved s' = match o with Save => m_echo s | _ => m_echo_saved s end.
Proof.
  intros R Ha.
  assert (∀ s', raw s' = raw s → m_ptr s' = m_ptr s → cpp s' = cpp s → m_cpp_ptr s' = m_cpp_ptr s →
    m_end_of_query s' = m_end_of_query s → rep s' (h ++ with_mode (m_echo s) (next_chars s 0))) as Hsame.
  { intros s' H1 H2 H3 H4 H5. unfold next_chars. rewrite take_0. cbn. rewrite app_nil_r.
    destruct R. split; by rewrite ?H1, ?H2, ?H3, ?H4, ?H5. }
  destruct o; cbn [accepts exec] in *; try (eexists; split; [done|]; split; [by apply Hsame|done]).
  - destruct (lookup_lt_is_Some_2 (raw s) (length h)) as [c Hc]; [lia|].
    destruct (skipn_ok s h 1 R Ha) as (s' & E & _ & R' & Hr & _ & _ & He & Hs).
    destruct (get_skipn s h c R Hc) as [-> _]. change (Z.of_nat 1) with 1 in E. rewrite E. by exists s'.
  - destruct (lookup_lt_is_Some_2 (raw s) (length h)) as [c Hc]; [lia|].
    destruct (skipn_ok s h 1 R Ha) as (s' & E & _ & R' & Hr & _ & _ & He & Hs).
    destruct (get_skipn s h c R Hc) as [_ ->]. by exists s'.
  - destruct (skipn_ok s h n R Ha) as (s' & E & _ & R' & Hr & _ & _ & He & Hs). by exists s'.
  - destruct (skipn_ok s h n R Ha) as (s' & _ & E & R' & Hr & _ & _ & He & Hs). by exists s'.
Qed.

Lemma modes_length os e sv : length (modes os e sv) = total os.
Proof.
  revert e sv. unfold total. induction os as [|o os IH]; intros e sv; [done|].
  destruct o; cbn; rewrite ?length_app, ?length_replicate, ?IH; done.
Qed.

Lemma modes_step o os e sv : modes (o :: os) e sv
  = replicate (accepts o) e ++ modes os (match o with Echo e => e | Restore => sv | _ => e end)
                                       (match o with Save => e | _ => sv end).
Proof. by destruct o. Qed.

Lemma execs_ok os s h : rep s h → (length h + total os ≤ length (raw s))%nat →
  ∃ s', execs os s = Some s' ∧ raw s' = raw s
    ∧ rep s' (h ++ zip (next_chars s (total os)) (modes os (m_echo s) (m_echo_saved s))).
Proof.
  revert s h. induction os as [|o os IH]; intros s h R Hn.
  - exists s. split_and!; [done..|]. unfold total, next_chars. cbn. by rewrite zip_with_nil_r, app_nil_r.
  - unfold total in Hn. cbn in Hn. fold (total os) in Hn.
    destruct (exec_ok o s h R) as (s1 & E & R1 & Hr1 & He & Hs); [lia|].
    pose proof (next_chars_len s h (accepts o) R ltac:(lia)) as Hl.
    destruct (IH s1 _ R1) as (s' & E' & Hr' & R').
    { rewrite length_app. unfold with_mode. rewrite length_fmap, Hl, Hr1. lia. }
    exists s'. cbn [execs]. rewrite E. cbn [mbind option_bind]. split_and!; [done|congruence|].
    rewrite modes_step. rewrite He, Hs in R'.
    assert (next_chars s (total (o :: os)) = next_chars s (accepts o) ++ next_chars s1 (total os)) as ->.
    { unfold next_chars. rewrite (h_ptr _ _ R1), (h_ptr _ _ R), !Nat2Z.id, Hr1, length_app. unfold with_mode.
      rewrite length_fmap, Hl. unfold total. cbn. fold (total os). symmetry. rewrite <- drop_drop. apply take_take_drop. }
    rewrite zip_with_app by (by rewrite length_replicate). rewrite app_assoc.
    assert (zip (next_chars s (accepts o)) (replicate (accepts o) (m_echo s)) = with_mode (m_echo s) (next_chars s (accepts o))) as ->; [|done].
    rewrite <- Hl at 2. unfold with_mode. clear. induction (next_chars s (accepts o)) as [|c l IH]; [done|]. cbn. by rewrite IH.
Qed.

(** *** Tokens *)

Definition keeps_token (o : op) : Prop := match o with Start | Again => False | _ => True end.
Definition tokens (s : Lex_input_stream) : Z * Z * Z * Z * Z * Z * Z :=
  (m_tok_start s, m_tok_start_prev s, m_tok_end s, m_cpp_tok_start s, m_cpp_tok_start_prev s, m_cpp_tok_end s, lookahead_token s).

Lemma exec_tokens o s s' : keeps_token o → exec o s = Some s' → tokens s' = tokens s.
Proof.
  intros Hk E. destruct o; try done; cbn [exec] in E; unfold yyGet, yySkip, yySkipn, skip_binary in E;
    try (by simplify_eq/=); destruct (m_echo s);
    cbn in E; repeat (match type of E with
      | context [get_at ?l ?p] => destruct (get_at l p)
      | context [put_at ?l ?p ?c] => destruct (put_at l p c)
      | context [memcpy ?d ?p ?l ?q ?n] => destruct (memcpy d p l q n)
      end; cbn in E); simplify_eq; done.
Qed.

Lemma execs_tokens os s s' : Forall keeps_token os → execs os s = Some s' → tokens s' = tokens s.
Proof.
  intros Hk. revert s. induction Hk as [|o os Ho _ IH]; intros s E; [by simplify_eq/=|]. cbn [execs] in E.
  destruct (exec o s) as [s1|] eqn:E1; [|done]. cbn in E. rewrite (IH s1 E). by apply (exec_tokens o).
Qed.

(** The bytes between two positions of a buffer. *)
Definition slice (l : list Z) (p q : Z) : list Z := take (Z.to_nat (q - p)) (drop (Z.to_nat p) l).

Lemma slice_take (l pre mid : list Z) n : take n l = pre ++ mid → n = length (pre ++ mid) →
  slice l (Z.of_nat (length pre)) (Z.of_nat n) = mid.
Proof.
  intros E ->. unfold slice. rewrite length_app. replace (Z.to_nat (_ - _)) with (length mid) by lia. rewrite Nat2Z.id.
  rewrite length_app in E. rewrite take_drop_commute. replace (length mid + length pre)%nat with (length pre + length mid)%nat by lia.
  rewrite E. by apply drop_app_length'.
Qed.

Lemma rtrim_spec isspace b fuel p : (Z.to_nat p < fuel)%nat → 0 ≤ p ≤ Z.of_nat (length b) →
  ∃ r, rtrim_loop isspace fuel b p = Some r ∧ 0 ≤ r ≤ p
    ∧ (∀ i c, r ≤ i < p → b !! Z.to_nat i = Some c → isspace c = true)
    ∧ (∀ c, 0 < r → b !! Z.to_nat (r - 1) = Some c → isspace c = false).
Proof.
  revert p. induction fuel as [|fuel IH]; intros p Hf Hp; [lia|]. cbn [rtrim_loop].
  destruct (Z.ltb_spec 0 p) as [H0|H0]; [|exists p; split_and!; [done|lia|lia|intros; lia|intros; lia]].
  destruct (lookup_lt_is_Some_2 b (Z.to_nat (p - 1))) as [c Hc]; [lia|].
  unfold get_at. destruct (Z.leb_spec 0 (p - 1)); [|lia]. rewrite Hc. cbn [mbind option_bind]. destruct (isspace c) eqn:Es.
  - destruct (IH (p - 1)) as (r & Er & Hr & Hsp & Hns); [lia|lia|]. exists r. split_and!; [done|lia|lia| |done].
    intros i c' Hi Hc'. destruct (decide (i = p - 1)) as [->|]; [congruence|]. apply (Hsp i); [lia|done].
  - exists p. split_and!; [done|lia|lia|intros; lia|]. congruence.
Qed.

(** *** One character *)

Lemma get_ok s h c : rep s h → raw s !! length h = Some c →
  ∃ s', yyGet s = Some (c, s') ∧ yySkip s = Some s' ∧ rep s' (h ++ [(c, m_echo s)]) ∧ raw s' = raw s ∧ m_echo s' = m_echo s
    ∧ m_cpp_ptr s' = m_cpp_ptr s + if m_echo s then 1 else 0.
Proof.
  intros R Hc. destruct (get_skipn s h c R Hc) as [Eg Es]. pose proof (lookup_lt_Some _ _ _ Hc) as Hlt.
  destruct (skipn_ok s h 1 R) as (s' & E & _ & R' & Hraw & _ & _ & He & _); [lia|]. change (Z.of_nat 1) with 1 in E.
  rewrite (proj1 (next_char s h c R Hc)) in R'. cbn in R'. rewrite E in Eg, Es. exists s'. split_and!; try done.
  rewrite (h_cpp_ptr _ _ R'), (h_cpp_ptr _ _ R), echoed_app, length_app.
  change [(c, m_echo s)] with (with_mode (m_echo s) [c]). rewrite echoed_mode. destruct (m_echo s); cbn; lia.
Qed.

(** The last character accepted, in the two buffers. *)
Lemma last_char s h c : rep s (h ++ [(c, m_echo s)]) →
  raw s !! length h = Some c ∧ m_ptr s = Z.of_nat (length h) + 1
  ∧ m_cpp_ptr s = Z.of_nat (length (echoed h)) + (if m_echo s then 1 else 0)
  ∧ take (length (echoed h)) (cpp s) = echoed h ∧ (m_echo s = true → cpp s !! length (echoed h) = Some c).
Proof.
  intros R. pose proof (h_ptr _ _ R) as Hp. pose proof (h_cpp_ptr _ _ R) as Hcp. pose proof (h_cpp _ _ R) as Hc1.
  pose proof (h_raw _ _ R) as Hr. change [(c, m_echo s)] with (with_mode (m_echo s) [c]) in Hcp, Hc1.
  rewrite echoed_app, echoed_mode in Hcp, Hc1. rewrite length_app in Hp, Hr. rewrite fmap_app in Hr. cbn in Hp, Hr. split_and!.
  - rewrite <- (lookup_take_lt _ (length h + 1)), Hr by lia. apply list_lookup_middle. by rewrite length_fmap.
  - lia.
  - rewrite Hcp, length_app. destruct (m_echo s); cbn; lia.
  - set (t := if m_echo s then [c] else []) in *.
    assert (take (length (echoed h)) (cpp s) = take (length (echoed h)) (take (length (echoed h ++ t)) (cpp s))) as ->.
    { rewrite take_take. f_equal. rewrite length_app. lia. }
    rewrite Hc1. by apply take_app_length'.
  - intros Ee. rewrite Ee in Hc1. rewrite <- (lookup_take_lt _ (length (echoed h ++ [c]))), Hc1 by (rewrite length_app; cbn; lia).
    by apply list_lookup_middle.
Qed.

Lemma unget_rep s h c : rep s (h ++ [(c, m_echo s)]) → rep (yyUnget s) h.
Proof.
  intros R. destruct (last_char s h c R) as (Hr & Hp & Hcp & Hc & _). pose proof (h_raw _ _ R) as Hr1.
  pose proof (h_len _ _ R) as Hl. rewrite length_app in Hl, Hr1. rewrite fmap_app in Hr1. cbn in Hl, Hr1.
  split; unfold yyUnget; cbn.
  - assert (take (length h) (raw s) = take (length h) (take (length h + 1) (raw s))) as -> by (rewrite take_take; f_equal; lia).
    rewrite Hr1. apply take_app_length'. by rewrite length_fmap.
  - lia.
  - lia.
  - done.
  - rewrite Hcp. destruct (m_echo s); lia.
  - apply (h_room _ _ R).
  - apply (h_end _ _ R).
Qed.

Lemma reget s h c : rep s (h ++ [(c, m_echo s)]) → yyGet (yyUnget s) = Some (c, s).
Proof.
  intros R. destruct (last_char s h c R) as (Hr & Hp & Hcp & _ & Hcc). unfold yyGet, get_at. cbn [yyUnget set_ptrs m_ptr raw m_echo cpp m_cpp_ptr].
  rewrite Hp. destruct (Z.leb_spec 0 (Z.of_nat (length h) + 1 - 1)); [|lia].
  replace (Z.to_nat (Z.of_nat (length h) + 1 - 1)) with (length h) by lia. rewrite Hr. cbn [mbind option_bind].
  destruct (m_echo s) eqn:Ee.
  - unfold put_at. destruct (Z.leb_spec 0 (m_cpp_ptr s - 1)); [|lia].
    replace (Z.to_nat (m_cpp_ptr s - 1)) with (length (echoed h)) by lia. specialize (Hcc eq_refl).
    rewrite poke_defined by (by apply lookup_lt_Some in Hcc). rewrite list_insert_id by done. cbn [mbind option_bind].
    do 2 f_equal. destruct s; cbn in *. unfold yyUnget, set_ptrs, set_buffers; cbn. f_equal; lia.
  - do 2 f_equal. destruct s; cbn in *. unfold yyUnget, set_ptrs; cbn. f_equal; lia.
Qed.

Lemma unput_ok s h c ch : rep s (h ++ [(c, m_echo s)]) →
  ∃ s2, yyUnput ch s = Some (Z.of_nat (length h), s2) ∧ rep s2 h ∧ yyPeek s2 = Some ch ∧ raw s2 = <[length h := ch]> (raw s).
Proof.
  intros R. destruct (last_char s h c R) as (Hr & Hp & _). pose proof (unget_rep s h c R) as [U1 U2 U3 U4 U5 U6 U7]. cbn in *.
  unfold yyUnput, put_at. destruct (Z.leb_spec 0 (m_ptr s - 1)); [|lia].
  replace (Z.to_nat (m_ptr s - 1)) with (length h) by lia. rewrite poke_defined by (by apply lookup_lt_Some in Hr). cbn [mbind option_bind].
  eexists. split; [do 2 f_equal; lia|]. split; [|split; [|done]].
  - split; cbn; rewrite ?length_insert; try done; try lia. rewrite take_insert_ge; done.
  - unfold yyPeek, get_at. cbn. rewrite U2, Nat2Z.id. destruct (Z.leb_spec 0 (Z.of_nat (length h))); [|lia].
    apply list_lookup_insert_eq. by apply lookup_lt_Some in Hr.
Qed.

(** ** Theorems *)

(** C18: Whatever the lexer accepts and however it switches the echo, saves and restores
    it: every character is accepted once and in order, the pre-processed text is
    exactly the characters accepted while the echo was on, and it never outgrows
    its buffer, which is as large as the text. *)
Theorem lex_stream_refines os s h (R : rep s h) (Hn : (length h + total os ≤ length (raw s))%nat) :
  ∃ s', execs os s = Some s' ∧ rep s' (h ++ zip (next_chars s (total os)) (modes os (m_echo s) (m_echo_saved s)))
    ∧ raw s' = raw s ∧ m_ptr s' = m_ptr s + Z.of_nat (total os)
    ∧ take (Z.to_nat (m_cpp_ptr s')) (cpp s')
      = take (Z.to_nat (m_cpp_ptr s)) (cpp s) ++ echoed (zip (next_chars s (total os)) (modes os (m_echo s) (m_echo_saved s)))
    ∧ m_cpp_ptr s' ≤ m_ptr s' ≤ Z.of_nat (length (cpp s')).
Proof.
  destruct (execs_ok os s h R Hn) as (s' & E & Hr & R'). exists s'. split_and!; try done.
  - rewrite (h_ptr _ _ R'), (h_ptr _ _ R), length_app, length_zip_with, modes_length, (next_chars_len s h) by done. lia.
  - rewrite (h_cpp_ptr _ _ R'), (h_cpp_ptr _ _ R), !Nat2Z.id, (h_cpp _ _ R'), (h_cpp _ _ R). apply echoed_app.
  - rewrite (h_cpp_ptr _ _ R'), (h_ptr _ _ R'). pose proof (echoed_le (h ++ zip (next_chars s (total os)) (modes os (m_echo s) (m_echo_saved s)))). lia.
  - rewrite (h_ptr _ _ R'). pose proof (h_len _ _ R'). pose proof (h_room _ _ R'). lia.
Qed.

(** The text of a token: after [start_token] the raw token is what has been
    accepted since, the pre-processed token the echoed part of it; [yyLength] is
    one less than the characters accepted, as the lexer is one ahead; and the
    trimmed end drops exactly the white space at the end. *)
Theorem lex_token_text dbug isspace os s h (R : rep s h) (Hk : Forall keeps_token os)
    (Hn : (length h + total os ≤ length (raw s))%nat) (H32 : 0 < Z.of_nat (total os) < 2 ^ 32) (Hla : lookahead_token s < 0) :
  let text := zip (next_chars s (total os)) (modes os (m_echo s) (m_echo_saved s)) in
  ∃ s' r, execs (Start :: os) s = Some s'
    ∧ get_tok_start s' = m_ptr s ∧ get_cpp_tok_start s' = m_cpp_ptr s
    ∧ m_tok_start_prev s' = m_tok_start s ∧ m_cpp_tok_start_prev s' = m_cpp_tok_start s
    ∧ slice (raw s') (get_tok_start s') (m_ptr s') = next_chars s (total os)
    ∧ slice (cpp s') (get_cpp_tok_start s') (m_cpp_ptr s') = echoed text
    ∧ yyLength dbug s' = Some (Z.of_nat (total os) - 1)
    ∧ get_cpp_ptr_rtrim isspace s' = Some r ∧ 0 ≤ r ≤ m_cpp_ptr s'
    ∧ (∀ i c, r ≤ i < m_cpp_ptr s' → cpp s' !! Z.to_nat i = Some c → isspace c = true)
    ∧ (∀ c, 0 < r → cpp s' !! Z.to_nat (r - 1) = Some c → isspace c = false).
Proof.
  cbv zeta. set (s1 := start_token s). assert (rep s1 h) as R1 by (by destruct R).
  destruct (execs_ok os s1 h R1 Hn) as (s' & E & Hr & R'). change (m_echo s1) with (m_echo s) in R'.
  change (m_echo_saved s1) with (m_echo_saved s) in R'. change (next_chars s1) with (next_chars s) in R'.
  change (raw s1) with (raw s) in Hr. pose proof (execs_tokens os s1 s' Hk E) as Ht. unfold tokens in Ht. cbn in Ht.
  injection Ht as T1 T2 T3 T4 T5 T6 T7.
  set (text := zip _ _) in *. pose proof (echoed_le (h ++ text)) as Hle. pose proof (h_room _ _ R') as Hroom.
  pose proof (h_len _ _ R') as Hlen.
  assert (text.*1 = next_chars s (total os)) as Htext.
  { unfold text. rewrite fst_zip; [done|]. by rewrite modes_length, (next_chars_len s h). }
  assert (length text = total os) as Hlt by (by rewrite <- (length_fmap fst), Htext, (next_chars_len s h)).
  destruct (rtrim_spec isspace (cpp s') (S (length (cpp s'))) (m_cpp_ptr s')) as (r & Er & Hr1 & Hr2 & Hr3);
    [rewrite (h_cpp_ptr _ _ R'); lia|rewrite (h_cpp_ptr _ _ R'); lia|].
  assert (has_lookahead s' = false) as Hl by (unfold has_lookahead; rewrite T7; lia).
  exists s', r. unfold get_tok_start, get_cpp_tok_start. rewrite Hl. split_and!; try done; try lia.
  - rewrite T1, (h_ptr _ _ R), (h_ptr _ _ R'), <- (length_fmap fst h). apply slice_take.
    + by rewrite (h_raw _ _ R'), fmap_app, Htext.
    + by rewrite <- Htext, <- fmap_app, length_fmap.
  - rewrite T4, (h_cpp_ptr _ _ R), (h_cpp_ptr _ _ R'). apply slice_take.
    + by rewrite (h_cpp _ _ R'), echoed_app.
    + by rewrite echoed_app.
  - unfold yyLength. rewrite T1, (h_ptr _ _ R), (h_ptr _ _ R'), length_app, Hlt.
    destruct (Z.ltb_spec (Z.of_nat (length h)) (Z.of_nat (length h + total os))); [|lia]. rewrite andb_false_r.
    f_equal. unfold to_uint32. rewrite wrap_id; [lia|]. unfold in_u. lia.
Qed.

(** [yyUnget] undoes [yyGet]: the character is next again, and getting it again
    gives the same state; [yyUnput] puts another character in its place.  Both
    need the echo mode of the [yyGet]: after a change of the mode the position in
    the pre-processed text is wrong. *)
Theorem lex_unget s h c ch (R : rep s h) (Hc : raw s !! length h = Some c) :
  ∃ s', yyGet s = Some (c, s') ∧ yySkip s = Some s' ∧ yyGetLast s' = Some c
    ∧ rep (yyUnget s') h ∧ yyPeek (yyUnget s') = Some c ∧ yyGet (yyUnget s') = Some (c, s')
    ∧ (∃ s2, yyUnput ch s' = Some (m_ptr s, s2) ∧ rep s2 h ∧ yyPeek s2 = Some ch ∧ raw s2 = <[length h := ch]> (raw s))
    ∧ m_cpp_ptr (yyUnget (set_echo (negb (m_echo s)) s')) ≠ m_cpp_ptr s.
Proof.
  destruct (get_ok s h c R Hc) as (s' & Eg & Es & R' & Hraw & He & Hcpp). exists s'.
  rewrite <- He in R'. destruct (last_char s' h c R') as (Hl & Hp' & _). pose proof (unget_rep s' h c R') as Ru.
  split_and!; try done.
  - unfold yyGetLast, get_at. rewrite Hp'. destruct (Z.leb_spec 0 (Z.of_nat (length h) + 1 - 1)); [|lia].
    by replace (Z.to_nat (Z.of_nat (length h) + 1 - 1)) with (length h) by lia.
  - apply (proj2 (next_char (yyUnget s') h c Ru Hl)).
  - by apply (reget s' h).
  - destruct (unput_ok s' h c ch R') as (s2 & E & H). exists s2. rewrite (h_ptr _ _ R), <- Hraw. done.
  - unfold yyUnget, set_echo. cbn. rewrite Hcpp. destruct (m_echo s); cbn; lia.
Qed.

(** [eof()] is true exactly when the query is used up.  [eof(n)] is true when
    [n] or fewer characters are left, also when there are exactly [n], where its
    comment says "less than n". *)
Theorem lex_eof_boundary s h n (R : rep s h) :
  let left := m_end_of_query s - Z.of_nat (length h) in
  (eof s = true ↔ left ≤ 0) ∧ (eof_n n s = true ↔ left ≤ n).
Proof. cbv zeta. unfold eof, eof_n. rewrite (h_ptr _ _ R), !Z.leb_le. lia. Qed.

(** ** Witnesses *)

(** The text of [a/* */b] with its terminator. *)
Definition sample_stream : Lex_input_stream :=
  Lis [97; 47; 42; 32; 42; 47; 98; 0] (replicate 8 0) 0 0 0 0 0 0 0 0 true false 0 0 7 (-1).
Lemma sample_rep : rep sample_stream [].
Proof. split; cbn; try done; lia. Defined.

(** The comment is skipped with the echo off. *)
Definition sample_ops : list op := [Get; Save; Echo false; Skipn 5; Restore; Get].

Lemma lex_stream_refines_witness :
  ∃ s', execs sample_ops sample_stream = Some s' ∧ m_ptr s' = 7 ∧ take 2 (cpp s') = [97; 98].
Proof.
  destruct (lex_stream_refines sample_ops sample_stream []) as (s' & E & _ & _ & Hp & Hc & _);
    [exact sample_rep|apply Nat.leb_le; by vm_compute|].
  exists s'. split; [exact E|]. split; [rewrite Hp; by vm_compute|].
  assert (s' = default sample_stream (execs sample_ops sample_stream)) as -> by (by rewrite E). by vm_compute.
Defined.

Lemma lex_token_text_witness :
  ∃ s', execs (Start :: sample_ops) sample_stream = Some s' ∧ slice (cpp s') (get_cpp_tok_start s') (m_cpp_ptr s') = [97; 98].
Proof.
  destruct (lex_token_text true (λ c, c =? 32) sample_ops sample_stream []) as (s' & r & E & _ & _ & _ & _ & _ & H & _);
    [exact sample_rep|by repeat constructor|apply Nat.leb_le; by vm_compute|by vm_compute|by vm_compute|].
  exists s'. split; [exact E|]. rewrite H. by vm_compute.
Defined.

Lemma lex_unget_witness :
  ∃ s', yyGet sample_stream = Some (97, s') ∧ yyPeek (yyUnget s') = Some 97.
Proof.
  destruct (lex_unget sample_stream [] 97 65 sample_rep eq_refl) as (s' & E & _ & _ & _ & P & _).
  exists s'. split; [exact E|exact P].
Defined.

(** With exactly 7 characters left, [eof(7)] holds. *)
Lemma lex_eof_boundary_witness : eof_n 7 sample_stream = true ∧ eof sample_stream = false.
Proof.
  destruct (lex_eof_boundary sample_stream [] 7 sample_rep) as [_ H]. split; [apply H; by vm_compute|by vm_compute].
Defined.
