(* ===== verification/LexState.v ===== *)
(** [sql_lex.h], the state of a statement: what makes it unsafe for the binary log
    and which tables it uses ([class Query_tables_list]), the stack of SELECTs that
    the parser is in ([struct LEX]), the links of the SELECT nodes
    ([class st_select_lex_node]), and the order of declarations of a block
    ([sp_declarations_join], with [Lex_spblock_st] of [structs.h]). *)
From S2P Require Import Prelude CMonad.

(** ** Flags of a statement *)

(** [enum_binlog_stmt_unsafe], from 0. *)
Inductive enum_binlog_stmt_unsafe :=
  | BINLOG_STMT_UNSAFE_LIMIT | BINLOG_STMT_UNSAFE_INSERT_DELAYED | BINLOG_STMT_UNSAFE_SYSTEM_TABLE
  | BINLOG_STMT_UNSAFE_AUTOINC_COLUMNS | BINLOG_STMT_UNSAFE_UDF | BINLOG_STMT_UNSAFE_SYSTEM_VARIABLE
  | BINLOG_STMT_UNSAFE_SYSTEM_FUNCTION | BINLOG_STMT_UNSAFE_NONTRANS_AFTER_TRANS
  | BINLOG_STMT_UNSAFE_MULTIPLE_ENGINES_AND_SELF_LOGGING_ENGINE | BINLOG_STMT_UNSAFE_MIXED_STATEMENT
  | BINLOG_STMT_UNSAFE_INSERT_IGNORE_SELECT | BINLOG_STMT_UNSAFE_INSERT_SELECT_UPDATE
  | BINLOG_STMT_UNSAFE_WRITE_AUTOINC_SELECT | BINLOG_STMT_UNSAFE_REPLACE_SELECT
  | BINLOG_STMT_UNSAFE_CREATE_IGNORE_SELECT | BINLOG_STMT_UNSAFE_CREATE_REPLACE_SELECT
  | BINLOG_STMT_UNSAFE_CREATE_SELECT_AUTOINC | BINLOG_STMT_UNSAFE_UPDATE_IGNORE
  | BINLOG_STMT_UNSAFE_INSERT_TWO_KEYS | BINLOG_STMT_UNSAFE_AUTOINC_NOT_FIRST
  | BINLOG_STMT_UNSAFE_AUTOINC_LOCK_MODE | BINLOG_STMT_UNSAFE_SKIP_LOCKED.
#[export] Instance unsafe_eq_dec : EqDecision enum_binlog_stmt_unsafe.
Proof. solve_decision. Defined.

Definition unsafe_code (u : enum_binlog_stmt_unsafe) : Z :=
  match u with
  | BINLOG_STMT_UNSAFE_LIMIT => 0 | BINLOG_STMT_UNSAFE_INSERT_DELAYED => 1 | BINLOG_STMT_UNSAFE_SYSTEM_TABLE => 2
  | BINLOG_STMT_UNSAFE_AUTOINC_COLUMNS => 3 | BINLOG_STMT_UNSAFE_UDF => 4 | BINLOG_STMT_UNSAFE_SYSTEM_VARIABLE => 5
  | BINLOG_STMT_UNSAFE_SYSTEM_FUNCTION => 6 | BINLOG_STMT_UNSAFE_NONTRANS_AFTER_TRANS => 7
  | BINLOG_STMT_UNSAFE_MULTIPLE_ENGINES_AND_SELF_LOGGING_ENGINE => 8 | BINLOG_STMT_UNSAFE_MIXED_STATEMENT => 9
  | BINLOG_STMT_UNSAFE_INSERT_IGNORE_SELECT => 10 | BINLOG_STMT_UNSAFE_INSERT_SELECT_UPDATE => 11
  | BINLOG_STMT_UNSAFE_WRITE_AUTOINC_SELECT => 12 | BINLOG_STMT_UNSAFE_REPLACE_SELECT => 13
  | BINLOG_STMT_UNSAFE_CREATE_IGNORE_SELECT => 14 | BINLOG_STMT_UNSAFE_CREATE_REPLACE_SELECT => 15
  | BINLOG_STMT_UNSAFE_CREATE_SELECT_AUTOINC => 16 | BINLOG_STMT_UNSAFE_UPDATE_IGNORE => 17
  | BINLOG_STMT_UNSAFE_INSERT_TWO_KEYS => 18 | BINLOG_STMT_UNSAFE_AUTOINC_NOT_FIRST => 19
  | BINLOG_STMT_UNSAFE_AUTOINC_LOCK_MODE => 20 | BINLOG_STMT_UNSAFE_SKIP_LOCKED => 21
  end.
Definition BINLOG_STMT_UNSAFE_COUNT : Z := 22.
Definition BINLOG_STMT_TYPE_ROW_INJECTION : Z := BINLOG_STMT_UNSAFE_COUNT.
Definition BINLOG_STMT_UNSAFE_ALL_FLAGS : Z := to_uint32 (shl32 1 BINLOG_STMT_UNSAFE_COUNT - 1).

Definition get_stmt_unsafe_flags (binlog_stmt_flags : Z) : Z := Z.land binlog_stmt_flags BINLOG_STMT_UNSAFE_ALL_FLAGS.
Definition is_stmt_unsafe (binlog_stmt_flags : Z) : bool := truth (get_stmt_unsafe_flags binlog_stmt_flags).
Definition is_stmt_unsafe_by (unsafe : enum_binlog_stmt_unsafe) (binlog_stmt_flags : Z) : bool :=
  truth (Z.land binlog_stmt_flags (Z.shiftl 1 (unsafe_code unsafe))).
Definition set_stmt_unsafe (unsafe_type : enum_binlog_stmt_unsafe) (binlog_stmt_flags : Z) : Z :=
  Z.lor binlog_stmt_flags (shl32 1 (unsafe_code unsafe_type)).
Definition set_stmt_unsafe_flags (dbug : bool) (flags binlog_stmt_flags : Z) : option Z :=
  if dbug && negb (Z.land flags (unot 32 BINLOG_STMT_UNSAFE_ALL_FLAGS) =? 0) then None
  else Some (Z.lor binlog_stmt_flags flags).
Definition clear_stmt_unsafe (binlog_stmt_flags : Z) : Z :=
  Z.land binlog_stmt_flags (unot 32 BINLOG_STMT_UNSAFE_ALL_FLAGS).
Definition is_stmt_row_injection (binlog_stmt_flags : Z) : bool :=
  truth (Z.land binlog_stmt_flags (shl32 1 BINLOG_STMT_TYPE_ROW_INJECTION)).
Definition set_stmt_row_injection (binlog_stmt_flags : Z) : Z :=
  Z.lor binlog_stmt_flags (shl32 1 BINLOG_STMT_TYPE_ROW_INJECTION).

Inductive enum_stmt_accessed_table :=
  | STMT_READS_TRANS_TABLE | STMT_READS_NON_TRANS_TABLE | STMT_READS_TEMP_TRANS_TABLE
  | STMT_READS_TEMP_NON_TRANS_TABLE | STMT_WRITES_TRANS_TABLE | STMT_WRITES_NON_TRANS_TABLE
  | STMT_WRITES_TEMP_TRANS_TABLE | STMT_WRITES_TEMP_NON_TRANS_TABLE.
#[export] Instance accessed_eq_dec : EqDecision enum_stmt_accessed_table.
Proof. solve_decision. Defined.
Definition accessed_code (t : enum_stmt_accessed_table) : Z :=
  match t with
  | STMT_READS_TRANS_TABLE => 0 | STMT_READS_NON_TRANS_TABLE => 1 | STMT_READS_TEMP_TRANS_TABLE => 2
  | STMT_READS_TEMP_NON_TRANS_TABLE => 3 | STMT_WRITES_TRANS_TABLE => 4 | STMT_WRITES_NON_TRANS_TABLE => 5
  | STMT_WRITES_TEMP_TRANS_TABLE => 6 | STMT_WRITES_TEMP_NON_TRANS_TABLE => 7
  end.

Definition BINLOG_DIRECT_ON : Z := 0xF0.
Definition BINLOG_DIRECT_OFF : Z := 0xF.
Definition TRX_CACHE_EMPTY : Z := 0x33.
Definition TRX_CACHE_NOT_EMPTY : Z := 0xCC.
Definition IL_LT_REPEATABLE : Z := 0xAA.
Definition IL_GTE_REPEATABLE : Z := 0x55.
Definition ISO_REPEATABLE_READ : Z := 2.

Definition set_stmt_accessed_table (t : enum_stmt_accessed_table) (flag : Z) : Z := Z.lor flag (shl32 1 (accessed_code t)).
Definition stmt_accessed_table (t : enum_stmt_accessed_table) (flag : Z) : bool :=
  truth (Z.land flag (shl32 1 (accessed_code t))).
(** The two bits tested at once. *)
Definition stmt_accessed2 (t u : enum_stmt_accessed_table) (flag : Z) : bool :=
  truth (Z.land flag (Z.lor (shl32 1 (accessed_code t)) (shl32 1 (accessed_code u)))).
Definition stmt_accessed_trans_temp_table : Z → bool := stmt_accessed2 STMT_READS_TEMP_TRANS_TABLE STMT_WRITES_TEMP_TRANS_TABLE.
Definition stmt_writes_to_non_temp_table : Z → bool := stmt_accessed2 STMT_WRITES_TRANS_TABLE STMT_WRITES_NON_TRANS_TABLE.
Definition stmt_accessed_non_trans_temp_table : Z → bool :=
  stmt_accessed2 STMT_READS_TEMP_NON_TRANS_TABLE STMT_WRITES_TEMP_NON_TRANS_TABLE.
Definition stmt_accessed_temp_table (flag : Z) : bool :=
  stmt_accessed_non_trans_temp_table flag || stmt_accessed_trans_temp_table flag.

Section Mixed.
(** The table is filled elsewhere. *)
Context (binlog_unsafe_map : list Z).

Definition mixed_condition (binlog_direct trx_cache_is_not_empty : bool) (tx_isolation : Z) : Z :=
  Z.land (Z.land (if binlog_direct then BINLOG_DIRECT_ON else BINLOG_DIRECT_OFF)
                 (if trx_cache_is_not_empty then TRX_CACHE_NOT_EMPTY else TRX_CACHE_EMPTY))
         (if ISO_REPEATABLE_READ <=? tx_isolation then IL_GTE_REPEATABLE else IL_LT_REPEATABLE).

Definition is_mixed_stmt_unsafe (in_multi_stmt_transaction_mode binlog_direct trx_cache_is_not_empty : bool)
    (tx_isolation stmt_accessed_table_flag : Z) : option bool :=
  unsafe ← (if in_multi_stmt_transaction_mode then
              entry ← binlog_unsafe_map !! Z.to_nat stmt_accessed_table_flag;
              Some (truth (Z.land entry (mixed_condition binlog_direct trx_cache_is_not_empty tx_isolation)))
            else Some false);
  Some (if stmt_accessed_table STMT_WRITES_NON_TRANS_TABLE stmt_accessed_table_flag &&
           stmt_accessed_table STMT_READS_TRANS_TABLE stmt_accessed_table_flag && (tx_isolation <? ISO_REPEATABLE_READ)
        then true
        else if stmt_accessed_table STMT_WRITES_TEMP_NON_TRANS_TABLE stmt_accessed_table_flag &&
                stmt_accessed_table STMT_READS_TRANS_TABLE stmt_accessed_table_flag && (tx_isolation <? ISO_REPEATABLE_READ)
        then true else unsafe).
End Mixed.

(** ** Declarations of a block *)

Module Spblock.
Record t := Mk { vars : Z; conds : Z; curs : Z; hndlrs : Z }.
Definition init : t := Mk 0 0 0 0.
Definition init_using_vars (nvars : Z) : t := Mk (to_int32 nvars) 0 0 0.
(** A sum of [int]s; its overflow is undefined. *)
Definition iadd (x y : Z) : option Z := if decide (in_s 32 (x + y)) then Some (x + y) else None.
Definition join (b1 b2 : t) : option t :=
  v ← iadd (vars b1) (vars b2);
  c ← iadd (conds b1) (conds b2);
  h ← iadd (hndlrs b1) (hndlrs b2);
  u ← iadd (curs b1) (curs b2);
  Some (Mk v c u h).

Inductive error := ER_SP_VARCOND_AFTER_CURSHNDLR | ER_SP_CURSOR_AFTER_HANDLER.
Definition sp_declarations_join (b1 b2 : t) : option (error + t) :=
  if (truth (vars b2) || truth (conds b2)) && (truth (curs b1) || truth (hndlrs b1)) then Some (inl ER_SP_VARCOND_AFTER_CURSHNDLR)
  else if truth (curs b2) && truth (hndlrs b1) then Some (inl ER_SP_CURSOR_AFTER_HANDLER)
  else inr <$> join b1 b2.

(** *** Specification *)

(** A declaration of a block: [n] variables, a condition, a cursor, a handler. *)
Inductive decl := Vars (n : nat) | Cond | Cursor | Handler.
Definition block_of (d : decl) : t :=
  match d with
  | Vars n => Mk (Z.of_nat n) 0 0 0 | Cond => Mk 0 1 0 0 | Cursor => Mk 0 0 1 0 | Handler => Mk 0 0 0 1
  end.
(** The place of its kind in a block. *)
Definition place (d : decl) : nat := match d with Vars _ | Cond => 0 | Cursor => 1 | Handler => 2 end%nat.
(** The declarations are joined one by one, up to the first error. *)
Fixpoint join_all (b : t) (l : list decl) : option (error + t) :=
  match l with
  | [] => Some (inr b)
  | d :: r => e ← sp_declarations_join b (block_of d); match e with inl err => Some (inl err) | inr b => join_all b r end
  end.
Definition count_of (l : list decl) : t :=
  foldr (λ d b, Mk (vars (block_of d) + vars b) (conds (block_of d) + conds b) (curs (block_of d) + curs b)
                  (hndlrs (block_of d) + hndlrs b)) (Mk 0 0 0 0) l.
(** Every declaration declares something. *)
Definition proper (d : decl) : Prop := match d with Vars n => (0 < n)%nat | _ => True end.
End Spblock.

(** ** The stack of SELECTs *)

Definition SELECT_NESTING_MAP_SIZE : Z := 64.
Definition MAX_SELECT_NESTING : Z := SELECT_NESTING_MAP_SIZE - 1.

(** [LEX::push_context] and [LEX::pop_context] are defined elsewhere: they work on
    the list of name resolution contexts, and the first fails without memory. *)
Class ContextStack := {
  push_context : Z → list Z → bool * list Z;
  pop_context : list Z → list Z }.
Class ContextLaws `{ContextStack} := {
  push_context_ok : ∀ c l, push_context c l = (false, c :: l) ∨ push_context c l = (true, l);
  pop_context_ok : ∀ c l, pop_context (c :: l) = l }.

Module Select.
(** SELECTs are their addresses, [context] the one of a SELECT; the builtin SELECT
    is a member of LEX. *)
Record LEX := Lex {
  select_stack : list Z;
  select_stack_top : Z;
  select_stack_outer_barrier : Z;
  current_select : Z;
  context_stack : list Z;
  builtin_is_service_select : bool }.

Section Code.
Context `{CS : ContextStack} (dbug : bool) (context : Z → Z) (builtin_select : Z) (is_service_select : Z → bool).

(** [select_stack[i]]: the array has [MAX_SELECT_NESTING + 1] elements. *)
Definition slot (i : Z) (l : LEX) : option Z := if 0 <=? i then select_stack l !! Z.to_nat i else None.

Definition select_stack_head (l : LEX) : option Z :=
  if truth (select_stack_top l) then slot (to_uint32 (select_stack_top l - 1)) l else Some 0.

(** [true] is an error. *)
Definition push_select (select_lex : Z) (l : LEX) : option (bool * LEX) :=
  if MAX_SELECT_NESTING <? select_stack_top l then Some (true, l) else
  let '(err, cs) := push_context (context select_lex) (context_stack l) in
  if err : bool then Some (true, Lex (select_stack l) (select_stack_top l) (select_stack_outer_barrier l) (current_select l) cs
                               (builtin_is_service_select l))
  else
    s ← poke (select_stack l) (Z.to_nat (select_stack_top l)) select_lex;
    Some (false, Lex s (to_uint32 (select_stack_top l + 1)) (select_stack_outer_barrier l) select_lex cs
                   (builtin_is_service_select l)).

Definition pop_select (l : LEX) : option (Z * LEX) :=
  select_lex ← (if truth (select_stack_top l) then slot (to_uint32 (select_stack_top l - 1)) l else Some 0);
  let top := if truth (select_stack_top l) then to_uint32 (select_stack_top l - 1) else select_stack_top l in
  if dbug && (select_lex =? 0) then None else
  let cs := pop_context (context_stack l) in
  if negb (truth top)
  then Some (select_lex, Lex (select_stack l) top (select_stack_outer_barrier l) builtin_select cs false)
  else
    cur ← slot (to_uint32 (top - 1)) l;
    Some (select_lex, Lex (select_stack l) top (select_stack_outer_barrier l) cur cs (builtin_is_service_select l)).

Definition current_select_or_default (l : LEX) : Z := if truth (current_select l) then current_select l else builtin_select.
Definition inc_select_stack_outer_barrier (l : LEX) : LEX :=
  Lex (select_stack l) (select_stack_top l) (to_uint32 (select_stack_outer_barrier l + 1)) (current_select l)
    (context_stack l) (builtin_is_service_select l).
Definition parser_current_outer_select (l : LEX) : option Z :=
  if to_uint32 (select_stack_top l - 1) =? select_stack_outer_barrier l then Some 0
  else slot (to_uint32 (select_stack_top l - 2)) l.
Definition fields_are_impossible (l : LEX) : option bool :=
  h ← select_stack_head l;
  if h =? 0 then Some true
  else if select_stack_top l =? 1 then s ← slot 0 l; Some (is_service_select s) else Some false.
End Code.
End Select.

(** ** The tables of a query *)

Module Query_tables.
(** A pointer to a pointer to a table: the head of the list, or the member
    [next_global] of a table; tables are their addresses, 0 is null. *)
Inductive cell := Head | Next_global (t : Z).
Record TABLE_LIST := Tbl { next_global : Z; prev_global : option cell }.
Record state := St {
  tables : gmap Z TABLE_LIST;
  query_tables : Z;
  query_tables_last : cell;
  query_tables_own_last : option cell }.

Definition get_cell (c : cell) : M state Z :=
  match c with
  | Head => gets query_tables
  | Next_global t => k <- gets_opt (λ s, tables s !! t) ;; ret (next_global k)
  end.
Definition set_cell (c : cell) (v : Z) : M state unit :=
  match c with
  | Head => modify (λ s, St (tables s) v (query_tables_last s) (query_tables_own_last s))
  | Next_global t =>
      k <- gets_opt (λ s, tables s !! t) ;;
      modify (λ s, St (<[t := Tbl v (prev_global k)]> (tables s)) (query_tables s) (query_tables_last s) (query_tables_own_last s))
  end.
Definition set_prev_global (t : Z) (c : cell) : M state unit :=
  k <- gets_opt (λ s, tables s !! t) ;;
  modify (λ s, St (<[t := Tbl (next_global k) (Some c)]> (tables s)) (query_tables s) (query_tables_last s) (query_tables_own_last s)).
Definition set_last (c : cell) : M state unit :=
  modify (λ s, St (tables s) (query_tables s) c (query_tables_own_last s)).
Definition set_own_last (c : option cell) : M state unit :=
  modify (λ s, St (tables s) (query_tables s) (query_tables_last s) c).

Definition add_to_query_tables (table : Z) : M state unit :=
  last <- gets query_tables_last ;;
  set_prev_global table last ;;
  set_cell last table ;;
  set_last (Next_global table).

Definition requires_prelocking (s : state) : bool := bool_decide (is_Some (query_tables_own_last s)).
Definition mark_as_requiring_prelocking (tables_own_last : cell) : M state unit := set_own_last (Some tables_own_last).
Definition first_not_own_table : M state Z :=
  own <- gets query_tables_own_last ;;
  match own with Some c => get_cell c | None => ret 0 end.
Definition chop_off_not_own_tables : M state unit :=
  own <- gets query_tables_own_last ;;
  match own with
  | Some c => set_cell c 0 ;; set_last c ;; set_own_last None
  | None => ret tt
  end.
(** The table whose member [next_global] the last pointer is. *)
Definition last_table (s : state) : option Z :=
  if query_tables s =? 0 then Some 0
  else match query_tables_last s with Next_global t => Some t | Head => None end.

(** *** Specification *)

Fixpoint chain (h : gmap Z TABLE_LIST) (from : cell) (p : Z) (l : list Z) : Prop :=
  match l with
  | [] => p = 0
  | t :: r => p = t ∧ t ≠ 0 ∧ ∃ k, h !! t = Some k ∧ prev_global k = Some from ∧ chain h (Next_global t) (next_global k) r
  end.
Definition end_cell (l : list Z) : cell := match last l with Some t => Next_global t | None => Head end.
(** The tables [l] are in the list, the first [own] of them used by the statement
    itself. *)
Record rep (s : state) (l : list Z) (own : option nat) : Prop := {
  q_chain : chain (tables s) Head (query_tables s) l;
  q_nodup : NoDup l;
  q_last : query_tables_last s = end_cell l;
  q_own : query_tables_own_last s = (λ k, end_cell (take k l)) <$> own;
  q_len : ∀ k, own = Some k → (k ≤ length l)%nat }.
End Query_tables.

(** ** SELECT nodes *)

Module Select_node.
(** The pointers to a node that exist: a list head outside of the nodes (the
    [slave] of the master, or the head of the list of all SELECTs), and the two
    next members of a node. *)
Inductive cell := Slave_head | Global_head | Next (n : Z) | Link_next (n : Z).
Record node := Nd { next : Z; prev : option cell; link_next : Z; link_prev : option cell }.
Record state := St { nodes : gmap Z node; slave_head : Z; global_head : Z }.

Definition get (n : Z) : M state node := gets_opt (λ s, nodes s !! n).
Definition put (n : Z) (f : node → node) : M state unit :=
  k <- get n ;; modify (λ s, St (<[n := f k]> (nodes s)) (slave_head s) (global_head s)).
Definition set_next (n v : Z) : M state unit := put n (λ k, Nd v (prev k) (link_next k) (link_prev k)).
Definition set_prev (n : Z) (v : option cell) : M state unit := put n (λ k, Nd (next k) v (link_next k) (link_prev k)).
Definition set_link_next (n v : Z) : M state unit := put n (λ k, Nd (next k) (prev k) v (link_prev k)).
Definition set_link_prev (n : Z) (v : option cell) : M state unit := put n (λ k, Nd (next k) (prev k) (link_next k) v).
(** [*c= v]; the null pointer is [None]. *)
Definition assign (c : option cell) (v : Z) : M state unit :=
  match c with
  | Some Slave_head => modify (λ s, St (nodes s) v (global_head s))
  | Some Global_head => modify (λ s, St (nodes s) (slave_head s) v)
  | Some (Next n) => set_next n v
  | Some (Link_next n) => set_link_next n v
  | None => ub
  end.

Definition link_neighbour (dbug : bool) (this neighbour : Z) : M state unit :=
  k <- get this ;;
  assert_that (negb dbug || (next k =? 0)) ;;
  assert_that (negb dbug || negb (neighbour =? 0)) ;;
  set_next this neighbour ;;
  set_prev neighbour (Some (Next this)).

Definition exclude_from_global (this : Z) : M state unit :=
  k <- get this ;;
  match link_prev k with
  | None => ret tt
  | Some c =>
      assign (Some c) (link_next k) ;;
      (if negb (link_next k =? 0) then set_link_prev (link_next k) (Some c) else ret tt) ;;
      set_link_next this 0 ;;
      set_link_prev this None
  end.

Definition move_node (this where_to_move : Z) : M state unit :=
  if where_to_move =? this then ret tt else
  k <- get this ;;
  (if negb (next k =? 0) then set_prev (next k) (prev k) else ret tt) ;;
  k <- get this ;;
  assign (prev k) (next k) ;;
  w <- get where_to_move ;;
  assign (prev w) this ;;
  set_next this where_to_move.

(** *** Specification *)

(** The SELECTs [l] from the pointer [p], whose cell is [from], up to [q]. *)
Fixpoint seg (h : gmap Z node) (from : cell) (p : Z) (l : list Z) (q : Z) : Prop :=
  match l with
  | [] => p = q
  | n :: r => p = n ∧ n ≠ 0 ∧ ∃ k, h !! n = Some k ∧ link_prev k = Some from ∧ seg h (Link_next n) (link_next k) r q
  end.
(** The list of all SELECTs. *)
Definition global (h : gmap Z node) (p : Z) (l : list Z) : Prop := seg h Global_head p l 0.
(** The nodes that the next pointers give, up to [fuel] of them. *)
Fixpoint follow (h : gmap Z node) (fuel : nat) (p : Z) : list Z :=
  match fuel with
  | O => []
  | S fuel => if p =? 0 then [] else p :: match h !! p with Some k => follow h fuel (next k) | None => [] end
  end.
End Select_node.

(** * Theorems *)

(** ** Flags of a statement *)

Lemma shl32_pow2 k : 0 ≤ k < 32 → shl32 1 k = 2 ^ k.
Proof.
  intros Hk. rewrite shl32_id; [by rewrite Z.shiftl_mul_pow2, Z.mul_1_l by lia|lia|lia|].
  rewrite Z.mul_1_l. apply Z.pow_lt_mono_r; lia.
Qed.
(** A number that is not 0 has a bit. *)
Lemma nonzero_bit x : x ≠ 0 → 0 ≤ x → ∃ k, 0 ≤ k ∧ Z.testbit x k = true.
Proof. intros Hn Hx. exists (Z.log2 x). split; [apply Z.log2_nonneg|apply Z.bit_log2; lia]. Qed.
Lemma unsafe_code_range u : 0 ≤ unsafe_code u < 22.
Proof. destruct u; simpl; lia. Qed.
Lemma unsafe_code_inj u v : unsafe_code u = unsafe_code v → u = v.
Proof. by destruct u, v. Qed.
Lemma accessed_code_range t : 0 ≤ accessed_code t < 8.
Proof. destruct t; simpl; lia. Qed.
Lemma accessed_code_inj t u : accessed_code t = accessed_code u → t = u.
Proof. by destruct t, u. Qed.
Definition all_unsafe : list enum_binlog_stmt_unsafe :=
  [ BINLOG_STMT_UNSAFE_LIMIT; BINLOG_STMT_UNSAFE_INSERT_DELAYED; BINLOG_STMT_UNSAFE_SYSTEM_TABLE;
    BINLOG_STMT_UNSAFE_AUTOINC_COLUMNS; BINLOG_STMT_UNSAFE_UDF; BINLOG_STMT_UNSAFE_SYSTEM_VARIABLE;
    BINLOG_STMT_UNSAFE_SYSTEM_FUNCTION; BINLOG_STMT_UNSAFE_NONTRANS_AFTER_TRANS;
    BINLOG_STMT_UNSAFE_MULTIPLE_ENGINES_AND_SELF_LOGGING_ENGINE; BINLOG_STMT_UNSAFE_MIXED_STATEMENT;
    BINLOG_STMT_UNSAFE_INSERT_IGNORE_SELECT; BINLOG_STMT_UNSAFE_INSERT_SELECT_UPDATE;
    BINLOG_STMT_UNSAFE_WRITE_AUTOINC_SELECT; BINLOG_STMT_UNSAFE_REPLACE_SELECT;
    BINLOG_STMT_UNSAFE_CREATE_IGNORE_SELECT; BINLOG_STMT_UNSAFE_CREATE_REPLACE_SELECT;
    BINLOG_STMT_UNSAFE_CREATE_SELECT_AUTOINC; BINLOG_STMT_UNSAFE_UPDATE_IGNORE;
    BINLOG_STMT_UNSAFE_INSERT_TWO_KEYS; BINLOG_STMT_UNSAFE_AUTOINC_NOT_FIRST;
    BINLOG_STMT_UNSAFE_AUTOINC_LOCK_MODE; BINLOG_STMT_UNSAFE_SKIP_LOCKED ].
Lemma unsafe_code_surj k : 0 ≤ k < 22 → ∃ u, unsafe_code u = k.
Proof.
  intros Hk. assert (k ∈ (unsafe_code <$> all_unsafe)) as H.
  { change (unsafe_code <$> all_unsafe) with (seqZ 0 22). apply elem_of_seqZ. lia. }
  apply list_elem_of_fmap in H as (u & -> & _). by exists u.
Qed.

Lemma is_unsafe_by_bit u f : is_stmt_unsafe_by u f = Z.testbit f (unsafe_code u).
Proof.
  unfold is_stmt_unsafe_by. pose proof (unsafe_code_range u).
  rewrite Z.shiftl_mul_pow2, Z.mul_1_l by lia. by rewrite truth_land_pow2 by lia.
Qed.
Lemma ALL_FLAGS_ones : BINLOG_STMT_UNSAFE_ALL_FLAGS = Z.ones 22.
Proof. reflexivity. Qed.
Lemma get_flags_bit f i : 0 ≤ i → Z.testbit (get_stmt_unsafe_flags f) i = (i <? 22) && Z.testbit f i.
Proof.
  intros Hi. unfold get_stmt_unsafe_flags. rewrite ALL_FLAGS_ones, Z.land_spec, Z.testbit_ones_nonneg by lia. apply andb_comm.
Qed.
Lemma clear_flags_bit f i : 0 ≤ i < 32 → Z.testbit (clear_stmt_unsafe f) i = (22 <=? i) && Z.testbit f i.
Proof.
  intros Hi. unfold clear_stmt_unsafe, unot. rewrite ALL_FLAGS_ones, Z.land_spec, wrap_testbit, Z.lnot_spec by lia.
  rewrite Z.testbit_ones_nonneg by lia. zcases; simpl; try lia; by destruct (Z.testbit f i).
Qed.
Lemma row_injection_bit f : is_stmt_row_injection f = Z.testbit f 22.
Proof. unfold is_stmt_row_injection. rewrite shl32_pow2 by (vm_compute; done). by apply truth_land_pow2. Qed.
Lemma set_unsafe_bit u f i : 0 ≤ i → Z.testbit (set_stmt_unsafe u f) i = (unsafe_code u =? i) || Z.testbit f i.
Proof.
  intros Hi. unfold set_stmt_unsafe. pose proof (unsafe_code_range u). rewrite shl32_pow2 by lia.
  rewrite Z.lor_spec, Z.pow2_bits_eqb by lia. apply orb_comm.
Qed.
Lemma set_row_injection_bit f i : 0 ≤ i → Z.testbit (set_stmt_row_injection f) i = (22 =? i) || Z.testbit f i.
Proof.
  intros Hi. unfold set_stmt_row_injection. rewrite shl32_pow2 by (vm_compute; done).
  rewrite Z.lor_spec, Z.pow2_bits_eqb by (vm_compute; done). apply orb_comm.
Qed.

(** the flags are a set of reasons why the statement is unsafe, and apart from
    it one bit that says that the statement is a row injection.  A statement is
    unsafe when it has a reason; setting one adds that one only, clearing removes
    all of them, and none of this touches the row injection, nor that one the
    reasons.  The flags of one statement can always be added to those of another. *)
Theorem stmt_flags_set f g : in_u 32 f → in_u 32 g →
  (is_stmt_unsafe f = true ↔ ∃ u, is_stmt_unsafe_by u f = true) ∧
  (∀ u v, is_stmt_unsafe_by v (set_stmt_unsafe u f) = bool_decide (u = v) || is_stmt_unsafe_by v f) ∧
  (∀ u, is_stmt_row_injection (set_stmt_unsafe u f) = is_stmt_row_injection f ∧ in_u 32 (set_stmt_unsafe u f)) ∧
  is_stmt_unsafe (clear_stmt_unsafe f) = false ∧
  is_stmt_row_injection (clear_stmt_unsafe f) = is_stmt_row_injection f ∧
  is_stmt_row_injection (set_stmt_row_injection f) = true ∧
  (∀ u, is_stmt_unsafe_by u (set_stmt_row_injection f) = is_stmt_unsafe_by u f) ∧
  ∀ dbug, ∃ h, set_stmt_unsafe_flags dbug (get_stmt_unsafe_flags g) f = Some h ∧
    is_stmt_row_injection h = is_stmt_row_injection f ∧
    ∀ u, is_stmt_unsafe_by u h = is_stmt_unsafe_by u f || is_stmt_unsafe_by u g.
Proof.
  intros Hf Hg. split_and!.
  - unfold is_stmt_unsafe. rewrite truth_true. split.
    + intros Hn. apply nonzero_bit in Hn as (k & Hk & Hb); [|apply Z.land_nonneg; left; apply Hf].
      rewrite get_flags_bit in Hb by done. apply andb_true_iff in Hb as [Hlt%Z.ltb_lt Hb].
      destruct (unsafe_code_surj k) as [u <-]; [lia|]. exists u. by rewrite is_unsafe_by_bit.
    + intros [u Hu] H0. rewrite is_unsafe_by_bit in Hu. pose proof (unsafe_code_range u).
      assert (Z.testbit (get_stmt_unsafe_flags f) (unsafe_code u) = true) as Hb
        by (rewrite get_flags_bit, Hu by lia; zcases; [done|lia]).
      by rewrite H0, Z.testbit_0_l in Hb.
  - intros u v. rewrite !is_unsafe_by_bit. pose proof (unsafe_code_range v). rewrite set_unsafe_bit by lia.
    f_equal. case_bool_decide as E; [subst; apply Z.eqb_refl|]. apply Z.eqb_neq. by intros ?%unsafe_code_inj.
  - intros u. pose proof (unsafe_code_range u). split.
    + rewrite !row_injection_bit, set_unsafe_bit by lia. zcases; [lia|done].
    + unfold set_stmt_unsafe. apply lor_in_u; [lia|done|]. rewrite shl32_pow2 by lia.
      split; [lia|apply Z.pow_lt_mono_r; lia].
  - apply truth_false, Z.bits_inj'. intros i Hi. rewrite get_flags_bit, Z.testbit_0_l by done.
    zcases; [|done]. rewrite clear_flags_bit by lia. zcases; [lia|done].
  - by rewrite !row_injection_bit, clear_flags_bit by lia.
  - by rewrite row_injection_bit, set_row_injection_bit by lia.
  - intros u. rewrite !is_unsafe_by_bit. pose proof (unsafe_code_range u). rewrite set_row_injection_bit by lia.
    zcases; [lia|done].
  - intros dbug. exists (Z.lor f (get_stmt_unsafe_flags g)). split_and!.
    + unfold set_stmt_unsafe_flags. rewrite (proj2 (Z.eqb_eq (Z.land _ _) 0)); [by rewrite andb_false_r|].
      apply Z.bits_inj'. intros i Hi. unfold unot. rewrite ALL_FLAGS_ones, Z.land_spec, Z.testbit_0_l, get_flags_bit, wrap_testbit,
        Z.lnot_spec, Z.testbit_ones_nonneg by lia. zcases; simpl; rewrite ?andb_false_r; done || lia.
    + by rewrite !row_injection_bit, Z.lor_spec, get_flags_bit, orb_false_r by lia.
    + intros u. pose proof (unsafe_code_range u). rewrite !is_unsafe_by_bit, Z.lor_spec, get_flags_bit by lia. zcases; [done|lia].
Qed.
Lemma stmt_flags_set_witness : let f := set_stmt_row_injection (set_stmt_unsafe BINLOG_STMT_UNSAFE_UDF 0) in
  is_stmt_unsafe f = true ∧ is_stmt_unsafe (clear_stmt_unsafe f) = false.
Proof.
  destruct (stmt_flags_set (set_stmt_row_injection (set_stmt_unsafe BINLOG_STMT_UNSAFE_UDF 0)) 0) as (H1 & _ & _ & H2 & _);
    [by vm_compute..|]. split; [apply H1; by exists BINLOG_STMT_UNSAFE_UDF|exact H2].
Defined.

(** ** Statements that mix tables *)

Lemma accessed_bit t f : stmt_accessed_table t f = Z.testbit f (accessed_code t).
Proof.
  unfold stmt_accessed_table. pose proof (accessed_code_range t). rewrite shl32_pow2 by lia. apply truth_land_pow2; lia.
Qed.
Lemma mixed_condition_pow2 direct notempty iso :
  mixed_condition direct notempty iso =
  2 ^ (4 * Z.b2z direct + 2 * Z.b2z notempty + Z.b2z (iso <? ISO_REPEATABLE_READ)).
Proof.
  unfold mixed_condition. destruct direct, notempty; unfold ISO_REPEATABLE_READ; zcases; try lia; reflexivity.
Qed.
Lemma accessed2_or t u f : stmt_accessed2 t u f = stmt_accessed_table t f || stmt_accessed_table u f.
Proof.
  unfold stmt_accessed2, stmt_accessed_table. rewrite Z.land_lor_distr_r. unfold truth.
  destruct (Z.eqb_spec (Z.land f (shl32 1 (accessed_code t))) 0) as [->|H1]; [done|].
  destruct (Z.eqb_spec (Z.lor (Z.land f (shl32 1 (accessed_code t))) (Z.land f (shl32 1 (accessed_code u)))) 0) as [H|]; [|done].
  by apply Z.lor_eq_0_iff in H as [? _].
Qed.

(** the tables a statement uses are a set of eight kinds, and each test on
    temporary and other tables is the test of the kinds it names.  Whether a
    statement that mixes them is unsafe: in a transaction of several statements,
    the bit of the entry of its set that the three settings select, the settings
    as the digits of a number from 0 to 7 (the option, whether the cache is not
    empty, whether the isolation is below REPEATABLE READ); and always when it
    reads a transactional table and writes one that is not, temporary or not,
    below REPEATABLE READ.  A set of kinds is an index of the table of 256 entries. *)
Theorem mixed_stmt_unsafe tbl f multi direct notempty iso : in_u 8 f → length tbl = 256%nat →
  (∀ t u, stmt_accessed_table u (set_stmt_accessed_table t f) = bool_decide (t = u) || stmt_accessed_table u f) ∧
  (∀ t, in_u 8 (set_stmt_accessed_table t f)) ∧
  (stmt_accessed_temp_table f = true ↔ ∃ t, stmt_accessed_table t f = true ∧
     t ∈ [STMT_READS_TEMP_TRANS_TABLE; STMT_READS_TEMP_NON_TRANS_TABLE; STMT_WRITES_TEMP_TRANS_TABLE; STMT_WRITES_TEMP_NON_TRANS_TABLE]) ∧
  (stmt_writes_to_non_temp_table f = true ↔
     stmt_accessed_table STMT_WRITES_TRANS_TABLE f = true ∨ stmt_accessed_table STMT_WRITES_NON_TRANS_TABLE f = true) ∧
  ∃ e, tbl !! Z.to_nat f = Some e ∧
    is_mixed_stmt_unsafe tbl multi direct notempty iso f =
    Some ((multi && Z.testbit e (4 * Z.b2z direct + 2 * Z.b2z notempty + Z.b2z (iso <? ISO_REPEATABLE_READ))) ||
          ((iso <? ISO_REPEATABLE_READ) && stmt_accessed_table STMT_READS_TRANS_TABLE f &&
           (stmt_accessed_table STMT_WRITES_NON_TRANS_TABLE f || stmt_accessed_table STMT_WRITES_TEMP_NON_TRANS_TABLE f))).
Proof.
  intros Hf Hl. split_and!.
  - intros t u. rewrite !accessed_bit. unfold set_stmt_accessed_table.
    pose proof (accessed_code_range t). pose proof (accessed_code_range u). rewrite shl32_pow2 by lia.
    rewrite Z.lor_spec, Z.pow2_bits_eqb, orb_comm by lia. f_equal.
    case_bool_decide as E; [subst; apply Z.eqb_refl|]. apply Z.eqb_neq. by intros ?%accessed_code_inj.
  - intros t. pose proof (accessed_code_range t). unfold set_stmt_accessed_table. apply lor_in_u; [lia|done|].
    rewrite shl32_pow2 by lia. split; [lia|apply Z.pow_lt_mono_r; lia].
  - unfold stmt_accessed_temp_table, stmt_accessed_non_trans_temp_table, stmt_accessed_trans_temp_table.
    rewrite !accessed2_or, !orb_true_iff. split.
    + intros [[H|H]|[H|H]]; eexists; (split; [exact H|]); set_solver.
    + intros (t & H & Ht). set_unfold in Ht. intuition (subst; auto).
  - unfold stmt_writes_to_non_temp_table. by rewrite accessed2_or, orb_true_iff.
  - destruct (lookup_lt_is_Some_2 tbl (Z.to_nat f)) as [e He].
    { rewrite Hl. unfold in_u in Hf. change 256%nat with (Z.to_nat 256). apply Z2Nat.inj_lt; lia. }
    exists e. split; [done|]. unfold is_mixed_stmt_unsafe. rewrite He. simpl.
    rewrite mixed_condition_pow2, truth_land_pow2 by (destruct direct, notempty, (iso <? _); simpl; lia).
    set (b := Z.testbit e _).
    destruct multi, b, (stmt_accessed_table STMT_WRITES_NON_TRANS_TABLE f), (stmt_accessed_table STMT_READS_TRANS_TABLE f),
      (stmt_accessed_table STMT_WRITES_TEMP_NON_TRANS_TABLE f), (iso <? ISO_REPEATABLE_READ); reflexivity.
Qed.
Lemma mixed_stmt_unsafe_witness : let tbl := replicate 256 4 in
  is_mixed_stmt_unsafe tbl true false true 2 16 = Some true ∧ is_mixed_stmt_unsafe tbl false false true 1 33 = Some true.
Proof.
  destruct (mixed_stmt_unsafe (replicate 256 4) 16 true false true 2) as (_ & _ & _ & _ & e & He & H); [by vm_compute|by vm_compute|].
  destruct (mixed_stmt_unsafe (replicate 256 4) 33 false false true 1) as (_ & _ & _ & _ & e' & He' & H'); [by vm_compute|by vm_compute|].
  split; [rewrite H|rewrite H']; vm_compute in He, He'; injection He as <-; reflexivity.
Defined.

(** ** Declarations of a block *)

Module SpblockFacts.
Import Spblock.

(** [b] has room in [int] for its counts. *)
Definition small (b : t) : Prop := vars b < 2 ^ 31 ∧ conds b < 2 ^ 31 ∧ curs b < 2 ^ 31 ∧ hndlrs b < 2 ^ 31.

Lemma count_of_app l1 l2 : count_of (l1 ++ l2) =
  Mk (vars (count_of l1) + vars (count_of l2)) (conds (count_of l1) + conds (count_of l2))
     (curs (count_of l1) + curs (count_of l2)) (hndlrs (count_of l1) + hndlrs (count_of l2)).
Proof.
  induction l1 as [|d l1 IH]; simpl; [by destruct (count_of l2)|]. rewrite IH. simpl. f_equal; lia.
Qed.
Lemma count_of_nonneg l :
  0 ≤ vars (count_of l) ∧ 0 ≤ conds (count_of l) ∧ 0 ≤ curs (count_of l) ∧ 0 ≤ hndlrs (count_of l).
Proof. induction l as [|[n| | |] l IH]; simpl; lia. Qed.
(** The declarations of a kind are counted. *)
Lemma count_of_place l : Forall proper l →
  (0 < hndlrs (count_of l) ↔ ∃ x, x ∈ l ∧ place x = 2%nat) ∧ (0 < curs (count_of l) ↔ ∃ x, x ∈ l ∧ place x = 1%nat).
Proof.
  induction 1 as [|d l Hd Hl [IH1 IH2]]; simpl; [split; split; try lia; intros (x & []%not_elem_of_nil & _)|].
  setoid_rewrite elem_of_cons. pose proof (count_of_nonneg l).
  destruct d; simpl; split; split; intros Hx; try lia;
    try (destruct IH1 as [IH1 _]; destruct IH1 as (x & ? & ?); [lia|]; by eauto);
    try (destruct IH2 as [IH2 _]; destruct IH2 as (x & ? & ?); [lia|]; by eauto);
    try (exists Handler; by auto); try (exists Cursor; by auto);
    destruct Hx as (x & [->|Hx] & E); try discriminate;
    try (assert (0 < hndlrs (count_of l)) by (apply IH1; eauto); lia);
    try (assert (0 < curs (count_of l)) by (apply IH2; eauto); lia); lia.
Qed.
Lemma iadd_ok x y : 0 ≤ x → 0 ≤ y → x + y < 2 ^ 31 → iadd x y = Some (x + y).
Proof. intros. unfold iadd. rewrite decide_True; [done|]. split; [|done]. change (- 2 ^ (32 - 1)) with (- 2 ^ 31). lia. Qed.
Lemma join_count l d : small (count_of (l ++ [d])) → join (count_of l) (block_of d) = Some (count_of (l ++ [d])).
Proof.
  intros H. unfold small in H. rewrite count_of_app in *. pose proof (count_of_nonneg l).
  assert (count_of [d] = block_of d) as E by (destruct d; simpl; f_equal; lia). rewrite E in *. simpl in H.
  assert (0 ≤ vars (block_of d) ∧ 0 ≤ conds (block_of d) ∧ 0 ≤ curs (block_of d) ∧ 0 ≤ hndlrs (block_of d)) by (destruct d; simpl; lia).
  unfold join. by rewrite !iadd_ok by lia.
Qed.
Lemma join_step l d : Forall proper l → proper d → small (count_of (l ++ [d])) →
  ((∀ x, x ∈ l → (place x ≤ place d)%nat) → sp_declarations_join (count_of l) (block_of d) = Some (inr (count_of (l ++ [d])))) ∧
  ((∃ x, x ∈ l ∧ (place d < place x)%nat) → sp_declarations_join (count_of l) (block_of d) =
     Some (inl (if decide (place d = 0%nat) then ER_SP_VARCOND_AFTER_CURSHNDLR else ER_SP_CURSOR_AFTER_HANDLER))).
Proof.
  intros Hl Hd Hs. pose proof (join_count l d Hs) as Hj. pose proof (count_of_nonneg l) as (Hv & Hc & Hu & Hh).
  destruct (count_of_place l Hl) as [Ph Pu]. unfold sp_declarations_join. rewrite Hj.
  assert ((truth (vars (block_of d)) || truth (conds (block_of d))) = bool_decide (place d = 0%nat)) as ->
    by (destruct d as [[|n]| | |]; simpl in *; done || lia).
  assert (truth (curs (block_of d)) = bool_decide (place d = 1%nat)) as -> by (by destruct d).
  split.
  - intros Hx. assert ((place d < 2)%nat → hndlrs (count_of l) = 0) as H1.
    { intros. destruct (decide (0 < hndlrs (count_of l))) as [(x & Hi & E)%Ph|]; [specialize (Hx x Hi)|]; lia. }
    assert ((place d < 1)%nat → curs (count_of l) = 0) as H2.
    { intros. destruct (decide (0 < curs (count_of l))) as [(x & Hi & E)%Pu|]; [specialize (Hx x Hi)|]; lia. }
    case_bool_decide as E; simpl; [rewrite H1, H2 by lia; simpl; by rewrite bool_decide_eq_false_2 by lia|].
    case_bool_decide; simpl; [by rewrite H1 by lia|done].
  - intros (x & Hi & Hx). assert (place x ≤ 2)%nat by (destruct x; simpl; lia).
    case_bool_decide as E; simpl.
    + rewrite decide_True by done. assert (0 < curs (count_of l) ∨ 0 < hndlrs (count_of l)) as Hn.
      { destruct (decide (place x = 1%nat)); [left; apply Pu|right; apply Ph]; exists x; split; (done || lia). }
      replace (truth (curs (count_of l)) || truth (hndlrs (count_of l))) with true; [done|].
      symmetry. apply orb_true_iff. rewrite !truth_true. lia.
    + rewrite decide_False by done. rewrite bool_decide_eq_true_2 by lia. simpl.
      assert (0 < hndlrs (count_of l)) as Hn by (apply Ph; exists x; split; [done|lia]).
      by rewrite (proj2 (truth_true _)) by lia.
Qed.
Lemma small_prefix l1 l2 : small (count_of (l1 ++ l2)) → small (count_of l1).
Proof. unfold small. rewrite count_of_app. simpl. pose proof (count_of_nonneg l2). lia. Qed.
Lemma join_all_app l1 l2 : Forall proper (l1 ++ l2) → small (count_of (l1 ++ l2)) →
  (∀ k d, l2 !! k = Some d → ∀ x, x ∈ l1 ++ take k l2 → (place x ≤ place d)%nat) →
  ∀ l3, join_all (count_of l1) (l2 ++ l3) = join_all (count_of (l1 ++ l2)) l3.
Proof.
  revert l1. induction l2 as [|d l2 IH]; intros l1 Hp Hs Hx l3; [by rewrite app_nil_r|].
  rewrite (app_assoc l1 [d] l2 : l1 ++ d :: l2 = _) in *. simpl.
  rewrite (proj1 (join_step l1 d ltac:(by apply Forall_app in Hp as [[? ?]%Forall_app ?])
     ltac:(apply Forall_app in Hp as [[? Hd]%Forall_app ?]; by apply Forall_inv in Hd) ltac:(by eapply small_prefix))).
  - simpl. apply IH; [done|done|]. intros k e He x Hi. apply (Hx (S k) e He). simpl. rewrite <- app_assoc in Hi. done.
  - intros x Hi. apply (Hx 0%nat d eq_refl). simpl. by rewrite app_nil_r.
Qed.
End SpblockFacts.

(** a block whose declarations are joined one by one is accepted exactly when
    variables and conditions come before cursors and these before handlers; then
    the counts are those of its declarations.  The first declaration that comes
    after one of a later kind gives the error of its own kind, and nothing after
    it is looked at. *)
Theorem sp_declarations_order l : Forall Spblock.proper l → SpblockFacts.small (Spblock.count_of l) →
  ((∀ i j x y, l !! i = Some x → l !! j = Some y → (i < j)%nat → (Spblock.place x ≤ Spblock.place y)%nat) →
     Spblock.join_all Spblock.init l = Some (inr (Spblock.count_of l))) ∧
  ∀ l1 d l2, l = l1 ++ d :: l2 →
    (∀ i j x y, l1 !! i = Some x → l1 !! j = Some y → (i < j)%nat → (Spblock.place x ≤ Spblock.place y)%nat) →
    (∃ x, x ∈ l1 ∧ (Spblock.place d < Spblock.place x)%nat) →
    Spblock.join_all Spblock.init l = Some (inl (if decide (Spblock.place d = 0%nat)
      then Spblock.ER_SP_VARCOND_AFTER_CURSHNDLR else Spblock.ER_SP_CURSOR_AFTER_HANDLER)).
Proof.
  intros Hp Hs. assert (∀ l1 : list Spblock.decl,
    (∀ i j x y, l1 !! i = Some x → l1 !! j = Some y → (i < j)%nat → (Spblock.place x ≤ Spblock.place y)%nat) →
    ∀ k d, l1 !! k = Some d → ∀ x, x ∈ [] ++ take k l1 → (Spblock.place x ≤ Spblock.place d)%nat) as Hord.
  { intros l1 H k d Hd x [i Hi]%list_elem_of_lookup. simpl in Hi. apply lookup_take_Some in Hi as [Hi Hik]. by apply (H i k). }
  change Spblock.init with (Spblock.count_of []). split.
  - intros H. by rewrite <- (app_nil_r l) at 1; rewrite (SpblockFacts.join_all_app [] l Hp Hs (Hord l H)).
  - intros l1 d l2 -> H Hd. apply Forall_app in Hp as [Hp1 Hp2]. inversion Hp2; subst.
    rewrite (SpblockFacts.join_all_app [] l1 Hp1 (SpblockFacts.small_prefix _ _ Hs) (Hord l1 H)). simpl.
    rewrite (proj2 (SpblockFacts.join_step l1 d Hp1 ltac:(done)
      ltac:(apply (SpblockFacts.small_prefix _ l2); by rewrite <- app_assoc)) Hd). done.
Qed.
Lemma sp_declarations_order_witness :
  Spblock.join_all Spblock.init [Spblock.Vars 2; Spblock.Handler; Spblock.Cursor; Spblock.Vars 1]
  = Some (inl Spblock.ER_SP_CURSOR_AFTER_HANDLER).
Proof.
  refine (proj2 (sp_declarations_order [Spblock.Vars 2; Spblock.Handler; Spblock.Cursor; Spblock.Vars 1] _ _)
    [Spblock.Vars 2; Spblock.Handler] Spblock.Cursor [Spblock.Vars 1] eq_refl _ _).
  - repeat constructor; simpl; lia.
  - by vm_compute.
  - intros [|[|i]] [|[|j]] x y Hx Hy Hij; simpl in *; try lia; try done. injection Hx as <-. injection Hy as <-. simpl. lia.
  - exists Spblock.Handler. split; [set_solver|simpl; lia].
Defined.

(** ** The stack of SELECTs *)

Module SelectFacts.
Import Select.
Section Facts.
Context `{CL : ContextLaws} (dbug : bool) (context : Z → Z) (builtin_select : Z) (is_service_select : Z → bool).

(** The SELECTs [l] are being parsed, the innermost one first, on top of the
    contexts [base]. *)
Record rep (s : LEX) (l : list Z) (base : list Z) : Prop := {
  s_size : length (select_stack s) = 64%nat;
  s_top : select_stack_top s = Z.of_nat (length l);
  s_depth : (length l ≤ 64)%nat;
  s_stack : take (length l) (select_stack s) = reverse l;
  s_nonnull : Forall (λ x, x ≠ 0) l;
  s_context : context_stack s = (context <$> l) ++ base }.

Lemma slot_rep s l base i x : rep s l base → l !! i = Some x →
  slot (to_uint32 (select_stack_top s - 1 - Z.of_nat i)) s = Some x.
Proof.
  intros R Hi. pose proof (lookup_lt_Some _ _ _ Hi). destruct R as [Hsz Ht Hd Hst _ _].
  unfold slot, to_uint32. rewrite wrap_id by (rewrite Ht; unfold in_u; lia). rewrite Ht.
  rewrite (proj2 (Z.leb_le _ _)) by lia.
  rewrite <- (lookup_take_lt _ (length l)), Hst by lia.
  replace (Z.to_nat (Z.of_nat (length l) - 1 - Z.of_nat i)) with (length l - S i)%nat by lia.
  rewrite reverse_lookup by lia. rewrite <- Hi. f_equal. lia.
Qed.
Lemma push_rep s l base x : rep s l base → x ≠ 0 → (length l < 64)%nat →
  push_context (context x) (context_stack s) = (false, context x :: context_stack s) →
  ∃ s', push_select context x s = Some (false, s') ∧ rep s' (x :: l) base ∧ current_select s' = x ∧
    select_stack_outer_barrier s' = select_stack_outer_barrier s.
Proof.
  intros R Hx Hl Hpush. pose proof R as [Hsz Ht Hd Hst Hn Hc]. unfold push_select, MAX_SELECT_NESTING, SELECT_NESTING_MAP_SIZE.
  rewrite (proj2 (Z.ltb_ge _ _)) by lia. rewrite Hpush, Ht, Nat2Z.id.
  rewrite poke_defined by lia. simpl. eexists. split; [done|]. split; [|done].
  split; simpl; rewrite ?length_insert; [done| |lia| |by constructor|by rewrite Hc].
  - unfold to_uint32. rewrite wrap_id by (unfold in_u; lia). lia.
  - rewrite (take_S_r _ _ x) by (apply list_lookup_insert_eq; lia).
    rewrite take_insert_ge by lia. by rewrite Hst, reverse_cons.
Qed.
Lemma pop_rep s x l base : rep s (x :: l) base →
  ∃ s', pop_select dbug builtin_select s = Some (x, s') ∧ rep s' l base ∧
    current_select s' = default builtin_select (head l) ∧
    builtin_is_service_select s' = match l with [] => false | _ => builtin_is_service_select s end ∧
    select_stack_outer_barrier s' = select_stack_outer_barrier s.
Proof.
  intros R. pose proof (slot_rep _ _ _ 0 x R eq_refl) as H0. rewrite Z.sub_0_r in H0.
  pose proof R as [Hsz Ht Hd Hst Hn Hc]. apply Forall_cons in Hn as [Hx Hn].
  assert (to_uint32 (select_stack_top s - 1) = Z.of_nat (length l)) as Htop
    by (rewrite Ht; simpl length in *; unfold to_uint32; rewrite wrap_id; [|unfold in_u]; lia).
  assert (∀ c b, rep (Lex (select_stack s) (Z.of_nat (length l)) (select_stack_outer_barrier s) c (pop_context (context_stack s)) b) l base) as R'.
  { intros c b. simpl in Hd. split; simpl; [done|done|lia| |done|].
    - apply (f_equal (take (length l))) in Hst. rewrite take_take, Nat.min_l in Hst by (simpl; lia).
      rewrite Hst, reverse_cons. rewrite take_app_le by (rewrite length_reverse; lia). apply take_ge. rewrite length_reverse. lia.
    - rewrite Hc. simpl. by rewrite pop_context_ok. }
  unfold pop_select. rewrite (proj2 (truth_true (select_stack_top s))) by (rewrite Ht, length_cons; lia). rewrite H0, Htop. simpl.
  rewrite (proj2 (Z.eqb_neq x 0)), andb_false_r by done.
  destruct l as [|y l]; simpl.
  - eexists. split; [done|]. split; [apply R'|done].
  - pose proof (slot_rep _ _ _ 1 y R eq_refl) as H1.
    replace (to_uint32 (Z.of_nat (S (length l)) - 1)) with (to_uint32 (select_stack_top s - 1 - Z.of_nat 1))
      by (rewrite Ht, !length_cons; f_equal; lia).
    change (slot _ _) with (slot (to_uint32 (select_stack_top s - 1 - Z.of_nat 1)) s). rewrite H1. simpl.
    eexists. split; [done|]. split; [apply R'|done].
Qed.
Lemma slot_out s i : length (select_stack s) = 64%nat → 64 ≤ i → slot i s = None.
Proof.
  intros Hs Hi. unfold slot. rewrite (proj2 (Z.leb_le _ _)) by lia. apply lookup_ge_None_2. lia.
Qed.
Lemma outer_rep s l base : rep s l base →
  parser_current_outer_select s =
  if decide (to_uint32 (Z.of_nat (length l) - 1) = select_stack_outer_barrier s) then Some 0 else l !! 1%nat.
Proof.
  intros R. pose proof R as [Hsz Ht _ _ _ _]. unfold parser_current_outer_select. rewrite Ht.
  case_decide as E; [by rewrite (proj2 (Z.eqb_eq _ _))|]. rewrite (proj2 (Z.eqb_neq _ _)) by done.
  destruct l as [|x [|y l]]; [by apply slot_out..|]. rewrite <- Ht. simpl lookup.
  rewrite <- (slot_rep s (x :: y :: l) base 1 y R eq_refl). f_equal. f_equal. lia.
Qed.
Lemma head_rep s l base : rep s l base → select_stack_head s = Some (default 0 (head l)).
Proof.
  intros R. pose proof R as [_ Ht _ _ _ _]. unfold select_stack_head. destruct l as [|x l]; [by rewrite Ht|].
  rewrite (proj2 (truth_true (select_stack_top s))) by (rewrite Ht, length_cons; lia).
  change (default 0 (head (x :: l))) with x. rewrite <- (slot_rep s (x :: l) base 0 x R eq_refl). by rewrite Z.sub_0_r.
Qed.
Lemma impossible_rep s l base : rep s l base →
  fields_are_impossible is_service_select s = Some match l with [] => true | [x] => is_service_select x | _ => false end.
Proof.
  intros R. unfold fields_are_impossible. rewrite (head_rep _ _ _ R). pose proof R as [_ Ht _ _ Hn _].
  destruct l as [|x l]; [done|]. simpl. apply Forall_cons in Hn as [Hx _]. rewrite (proj2 (Z.eqb_neq x 0)) by done.
  destruct l as [|y l]; rewrite Ht; [|rewrite (proj2 (Z.eqb_neq _ _)); [done|rewrite !length_cons; lia]].
  simpl. pose proof (slot_rep _ _ _ 0 x R eq_refl) as H0. rewrite Ht in H0. change (to_uint32 _) with 0 in H0. by rewrite H0.
Qed.
Lemma push_full s x : MAX_SELECT_NESTING < select_stack_top s → push_select context x s = Some (true, s).
Proof. intros Hfull. unfold push_select. by rewrite (proj2 (Z.ltb_lt _ _)). Qed.
End Facts.
End SelectFacts.

(** C19: the SELECTs that are being parsed are a stack of at most 64, and the
    contexts are pushed and popped with it.  [push_select] puts its SELECT on top
    and makes it the current one, or reports an error, for a full stack or
    without memory for the context, and changes nothing; [pop_select] gives the
    top and makes the one below it current, or the builtin SELECT.  No index is
    outside the array: but [parser_current_outer_select], the SELECT below the
    top or none at the barrier, has no defined result with fewer than two
    SELECTs unless the barrier is there. *)
Theorem select_stack_refines `{CL : ContextLaws} dbug context builtin is_service s l base : SelectFacts.rep context s l base →
  (∀ x, x ≠ 0 →
     (Select.push_select context x s = Some (true, s) ∧
        (length l = 64%nat ∨ push_context (context x) (Select.context_stack s) = (true, Select.context_stack s))) ∨
     ∃ s', Select.push_select context x s = Some (false, s') ∧ SelectFacts.rep context s' (x :: l) base ∧ Select.current_select s' = x) ∧
  (∀ x r, l = x :: r → ∃ s', Select.pop_select dbug builtin s = Some (x, s') ∧ SelectFacts.rep context s' r base ∧
     Select.current_select s' = default builtin (head r)) ∧
  Select.select_stack_head s = Some (default 0 (head l)) ∧
  Select.fields_are_impossible is_service s = Some match l with [] => true | [x] => is_service x | _ => false end ∧
  Select.parser_current_outer_select s =
    if decide (to_uint32 (Z.of_nat (length l) - 1) = Select.select_stack_outer_barrier s) then Some 0 else l !! 1%nat.
Proof.
  intros R. split_and!.
  - intros x Hx. pose proof R as [_ Ht Hd _ _ _]. destruct (decide (length l = 64%nat)) as [E|E].
    + left. split; [|by left]. apply SelectFacts.push_full. rewrite Ht, E. by vm_compute.
    + destruct (push_context_ok (context x) (Select.context_stack s)) as [Hp|Hp].
      * right. destruct (SelectFacts.push_rep context s l base x R Hx ltac:(lia) Hp) as (s' & H1 & H2 & H3 & _). by exists s'.
      * left. split; [|by right]. unfold Select.push_select. rewrite (proj2 (Z.ltb_ge _ _)), Hp; [by destruct s|].
        rewrite Ht. unfold MAX_SELECT_NESTING, SELECT_NESTING_MAP_SIZE. lia.
  - intros x r ->. destruct (SelectFacts.pop_rep dbug context builtin s x r base R) as (s' & H1 & H2 & H3 & _). by exists s'.
  - by eapply SelectFacts.head_rep.
  - by eapply SelectFacts.impossible_rep.
  - by eapply SelectFacts.outer_rep.
Qed.

(** A stack of contexts with room for all of them. *)
#[export] Instance list_contexts : ContextStack := {| push_context c l := (false, c :: l); pop_context l := tail l |}.
#[export] Instance list_contexts_laws : ContextLaws.
Proof. split; [by left|done]. Qed.
Lemma select_stack_refines_witness :
  ∃ s, Select.pop_select true 100 (Select.Lex (<[0%nat:=7]> (<[1%nat:=8]> (replicate 64 0))) 2 0 8 [8; 7] false) = Some (8, s) ∧
    Select.current_select s = 7.
Proof.
  destruct (select_stack_refines true (λ x, x) 100 (λ _, false)
    (Select.Lex (<[0%nat:=7]> (<[1%nat:=8]> (replicate 64 0))) 2 0 8 [8; 7] false) [8; 7] []) as (_ & H & _).
  - split; try done; [simpl; lia|repeat constructor; lia].
  - destruct (H 8 [7] eq_refl) as (s' & -> & _ & E). by exists s'.
Defined.

(** ** The tables of a query *)

Module Query_tables_facts.
Import Query_tables.

Lemma tables_frame h t k c p l : t ∉ l → chain h c p l → chain (<[t := k]> h) c p l.
Proof.
  revert c p. induction l as [|u l IH]; intros c p Ht; [done|]. apply not_elem_of_cons in Ht as [Hu Ht].
  intros (-> & H0 & k' & Hk & Hp & Hc). split; [done|]. split; [done|]. exists k'.
  rewrite lookup_insert_ne by done. auto.
Qed.
Definition end_from (c : cell) (l : list Z) : cell := match last l with Some t => Next_global t | None => c end.
(** The tables and the head once [v] is stored where the list [l] ends. *)
Definition relinked (h : gmap Z TABLE_LIST) (p : Z) (l : list Z) (v : Z) : gmap Z TABLE_LIST * Z :=
  match last l with
  | Some t => (match h !! t with Some k => <[t := Tbl v (prev_global k)]> h | None => h end, p)
  | None => (h, v)
  end.
Lemma last_cons_ne {A} (x y : A) l : last (x :: y :: l) = last (y :: l).
Proof. done. Qed.
Lemma last_elem {A} (l : list A) x : last l = Some x → x ∈ l.
Proof. intros H. apply last_Some in H as [l' ->]. set_solver. Qed.
Lemma end_from_cons c t l : end_from c (t :: l) = end_from (Next_global t) l.
Proof.
  unfold end_from. destruct l as [|u l]; [done|]. rewrite last_cons_ne.
  destruct (last (u :: l)) eqn:E; [done|by apply last_None in E].
Qed.

Lemma chain_relink h c p l1 l2 l3 v : chain h c p (l1 ++ l2) → NoDup l1 → chain h (end_from c l1) v l3 →
  (∀ t, t ∈ l1 → t ∉ l3) → chain (relinked h p l1 v).1 c (relinked h p l1 v).2 (l1 ++ l3).
Proof.
  revert c p. induction l1 as [|t l1 IH]; intros c p Hc Hn H3 Hd; [done|].
  simpl in Hc. destruct Hc as (-> & H0 & k & Hk & Hp & Hc). apply NoDup_cons in Hn as [Ht Hn].
  destruct l1 as [|u l1].
  - unfold relinked. simpl. rewrite Hk. simpl. split; [done|]. split; [done|]. eexists. rewrite lookup_insert_eq.
    split; [done|]. split; [done|]. simpl. apply tables_frame; [apply Hd; set_solver|done].
  - rewrite end_from_cons in H3. specialize (IH (Next_global t) (next_global k) Hc Hn H3 ltac:(set_solver)).
    unfold relinked in *. rewrite last_cons_ne. destruct (last (u :: l1)) as [w|] eqn:Hw;
      [|by apply last_None in Hw]. simpl in *. split; [done|]. split; [done|]. exists k. split; [|by split].
    destruct (h !! w) as [kw|]; [|done]. rewrite lookup_insert_ne; [done|]. intros ->. apply last_elem in Hw. done.
Qed.
(** The value where the first part of the list ends. *)
Lemma chain_end h c p l1 l2 : chain h c p (l1 ++ l2) →
  chain h (end_from c l1) (match last l1 with Some t => match h !! t with Some k => next_global k | None => 0 end | None => p end) l2.
Proof.
  revert c p. induction l1 as [|t l1 IH]; intros c p Hc; [done|].
  simpl in Hc. destruct Hc as (-> & _ & k & Hk & _ & Hc). destruct l1 as [|u l1].
  - unfold end_from. simpl. by rewrite Hk.
  - specialize (IH _ _ Hc). unfold end_from in *. rewrite last_cons_ne.
    destruct (last (u :: l1)) eqn:Hw; [done|by apply last_None in Hw].
Qed.
Lemma chain_defined h c p l t : chain h c p l → t ∈ l → is_Some (h !! t) ∧ t ≠ 0.
Proof.
  revert c p. induction l as [|u l IH]; intros c p Hc Ht; [by apply not_elem_of_nil in Ht|].
  destruct Hc as (-> & H0 & k & Hk & _ & Hc). apply elem_of_cons in Ht as [->|Ht]; [by rewrite Hk|by eapply IH].
Qed.
Lemma chain_first h c p l : chain h c p l → p = default 0 (head l).
Proof. destruct l; [done|]. by intros (-> & _). Qed.

Lemma set_cell_end s l1 l2 v : chain (tables s) Head (query_tables s) (l1 ++ l2) →
  set_cell (end_cell l1) v s = Some (tt, St (relinked (tables s) (query_tables s) l1 v).1 (relinked (tables s) (query_tables s) l1 v).2
                                      (query_tables_last s) (query_tables_own_last s)).
Proof.
  intros Hc. unfold end_cell, set_cell, relinked. destruct (last l1) as [t|] eqn:Ht; [|done].
  destruct (chain_defined _ _ _ _ t Hc) as [[k Hk] _]; [apply elem_of_app; left; by apply last_elem|].
  rewrite (bind_ok _ _ _ _ _ (gets_opt_ok _ s _ Hk)). by rewrite Hk.
Qed.
Lemma get_cell_end s l1 l2 : chain (tables s) Head (query_tables s) (l1 ++ l2) →
  get_cell (end_cell l1) s = Some (default 0 (head l2), s).
Proof.
  intros Hc. pose proof (chain_first _ _ _ _ (chain_end _ _ _ _ _ Hc)) as <-.
  unfold end_cell, get_cell. destruct (last l1) as [t|] eqn:Ht; [|done].
  destruct (chain_defined _ _ _ _ t Hc) as [[k Hk] _]; [apply elem_of_app; left; by apply last_elem|].
  rewrite (bind_ok _ _ _ _ _ (gets_opt_ok _ s _ Hk)). by rewrite Hk.
Qed.
Lemma end_cell_take l t k : (k ≤ length l)%nat → end_cell (take k (l ++ [t])) = end_cell (take k l).
Proof. intros. by rewrite take_app_le. Qed.

Lemma add_rep s l own t k : rep s l own → tables s !! t = Some k → next_global k = 0 → t ≠ 0 → t ∉ l →
  ∃ s', add_to_query_tables t s = Some (tt, s') ∧ rep s' (l ++ [t]) own.
Proof.
  intros [Hc Hn Hl Ho Hk] Ht Hk0 H0 Hni. unfold add_to_query_tables. unfold bind at 1, gets. rewrite Hl.
  unfold set_prev_global. rewrite bind_assoc, (bind_ok _ _ _ _ _ (gets_opt_ok _ s _ Ht)). unfold bind at 1, modify.
  set (h := <[t := Tbl (next_global k) (Some (end_cell l))]> (tables s)).
  set (s1 := St h (query_tables s) (query_tables_last s) (query_tables_own_last s)).
  assert (chain h Head (query_tables s) (l ++ [])) as Hc1 by (rewrite app_nil_r; by apply tables_frame).
  rewrite (bind_ok _ _ _ _ _ (set_cell_end s1 l [] t Hc1)). unfold set_last, modify. eexists. split; [done|].
  split; simpl.
  - apply (chain_relink h Head (query_tables s) l [] [t] t Hc1 Hn); [|set_solver].
    split; [done|]. split; [done|]. exists (Tbl (next_global k) (Some (end_cell l))).
    unfold h. rewrite lookup_insert_eq. by rewrite Hk0.
  - apply NoDup_app. split_and!; [done|set_solver|apply NoDup_singleton].
  - unfold end_cell. by rewrite last_snoc.
  - rewrite Ho. destruct own as [n|]; [|done]. simpl. by rewrite end_cell_take by (by apply Hk).
  - intros n E. rewrite length_app. specialize (Hk n E). lia.
Qed.
Lemma chop_rep s l n : rep s l (Some n) →
  ∃ s', chop_off_not_own_tables s = Some (tt, s') ∧ rep s' (take n l) None.
Proof.
  intros [Hc Hn Hl Ho Hk]. unfold chop_off_not_own_tables. unfold bind at 1, gets. rewrite Ho. simpl.
  assert (chain (tables s) Head (query_tables s) (take n l ++ drop n l)) as Hc1 by by rewrite take_drop.
  assert (NoDup (take n l)) as Hn1 by (rewrite <- (take_drop n l) in Hn; by apply NoDup_app in Hn as [? _]).
  rewrite (bind_ok _ _ _ _ _ (set_cell_end s _ _ 0 Hc1)). unfold set_last, set_own_last, bind, modify. simpl.
  eexists. split; [done|]. split; simpl; try done.
  pose proof (chain_relink _ _ _ _ _ [] 0 Hc1 Hn1 eq_refl ltac:(set_solver)) as H. by rewrite app_nil_r in H.
Qed.
Lemma last_table_rep s l own : rep s l own → last_table s = Some (default 0 (last l)).
Proof.
  intros [Hc _ Hl _ _]. unfold last_table. rewrite (chain_first _ _ _ _ Hc), Hl. unfold end_cell.
  destruct l as [|t l]; [done|]. destruct Hc as (_ & H0 & _). simpl head. simpl default. rewrite (proj2 (Z.eqb_neq t 0)) by done.
  destruct (last (t :: l)) eqn:E; [done|by apply last_None in E].
Qed.
End Query_tables_facts.

(** C20: the list of the tables of a query, with a mark after those the statement
    itself uses.  A table that is added is at the end and the mark stays where it
    is; the first table that is not the statement's own is the one after the mark,
    chopping leaves the own tables and no mark, marking at the end keeps all of
    them; the last table is found through the last pointer. *)
Theorem query_tables_operations s l own : Query_tables.rep s l own →
  (∀ t k, Query_tables.tables s !! t = Some k → Query_tables.next_global k = 0 → t ≠ 0 → t ∉ l →
     ∃ s', Query_tables.add_to_query_tables t s = Some (tt, s') ∧ Query_tables.rep s' (l ++ [t]) own) ∧
  Query_tables.requires_prelocking s = bool_decide (is_Some own) ∧
  Query_tables.first_not_own_table s = Some (match own with Some n => default 0 (l !! n) | None => 0 end, s) ∧
  Query_tables.last_table s = Some (default 0 (last l)) ∧
  (∃ s', Query_tables.chop_off_not_own_tables s = Some (tt, s') ∧
     Query_tables.rep s' (match own with Some n => take n l | None => l end) None) ∧
  (∃ s', Query_tables.mark_as_requiring_prelocking (Query_tables.query_tables_last s) s = Some (tt, s') ∧
     Query_tables.rep s' l (Some (length l))).
Proof.
  intros R. pose proof R as [Hc Hn Hl Ho Hk]. split_and!.
  - intros t k. by apply Query_tables_facts.add_rep.
  - unfold Query_tables.requires_prelocking. rewrite Ho. by destruct own.
  - unfold Query_tables.first_not_own_table. unfold bind, gets at 1. rewrite Ho. destruct own as [n|]; [|done]. simpl.
    rewrite (Query_tables_facts.get_cell_end s (take n l) (drop n l)) by (by rewrite take_drop).
    by rewrite <- (Nat.add_0_r n) at 2; rewrite <- lookup_drop; destruct (drop n l).
  - by eapply Query_tables_facts.last_table_rep.
  - destruct own as [n|]; [by apply Query_tables_facts.chop_rep|].
    unfold Query_tables.chop_off_not_own_tables, bind, gets. rewrite Ho. by exists s.
  - eexists. split; [done|]. split; simpl; try done.
    + by rewrite Hl, take_ge by done.
    + by intros k [= ->].
Qed.
Lemma query_tables_operations_witness :
  ∃ s, Query_tables.add_to_query_tables 5 (Query_tables.St {[5 := Query_tables.Tbl 0 None]} 0 Query_tables.Head None) = Some (tt, s) ∧
    Query_tables.rep s [5] None.
Proof.
  destruct (query_tables_operations (Query_tables.St {[5 := Query_tables.Tbl 0 None]} 0 Query_tables.Head None) [] None) as (H & _).
  - split; try done. constructor.
  - apply (H 5 (Query_tables.Tbl 0 None)); [by vm_compute|done|done|set_solver].
Defined.

(** ** SELECT nodes *)

Module Select_node_facts.
Import Select_node.

Definition end_from (c : cell) (l : list Z) : cell := match last l with Some t => Link_next t | None => c end.
Lemma links_app h c p l1 l2 q : seg h c p (l1 ++ l2) q ↔ ∃ m, seg h c p l1 m ∧ seg h (end_from c l1) m l2 q.
Proof.
  revert c p. induction l1 as [|n l1 IH]; intros c p; simpl.
  { unfold end_from. simpl. split; [intros H; by exists p|by intros (m & -> & H)]. }
  assert (end_from c (n :: l1) = end_from (Link_next n) l1) as ->.
  { unfold end_from. destruct l1 as [|u l1]; [done|]. change (last (n :: u :: l1)) with (last (u :: l1)).
    destruct (last (u :: l1)) eqn:E; [done|by apply last_None in E]. }
  split.
  - intros (-> & H0 & k & Hk & Hp & (m & H1 & H2)%IH). exists m. split; [|done]. split; [done|]. split; [done|]. by exists k.
  - intros (m & (-> & H0 & k & Hk & Hp & H1) & H2). split; [done|]. split; [done|]. exists k. rewrite IH. split_and!; eauto.
Qed.
(** A node may change as long as its links to the other SELECTs stay. *)
Lemma links_frame h h' c p l q : (∀ n k, n ∈ l → h !! n = Some k → ∃ k', h' !! n = Some k' ∧ link_next k' = link_next k ∧ link_prev k' = link_prev k) →
  seg h c p l q → seg h' c p l q.
Proof.
  revert c p. induction l as [|n l IH]; intros c p Hf; [done|].
  intros (-> & H0 & k & Hk & Hp & Hc). destruct (Hf n k ltac:(left) Hk) as (k' & Hk' & E1 & E2).
  split; [done|]. split; [done|]. exists k'. rewrite E1, E2. split_and!; [done..|].
  apply IH; [|done]. intros m km Hm. apply Hf. by right.
Qed.
Lemma links_lookup h c p l q n : seg h c p l q → n ∈ l → is_Some (h !! n) ∧ n ≠ 0.
Proof.
  revert c p. induction l as [|u l IH]; intros c p Hc Hn; [by apply not_elem_of_nil in Hn|].
  destruct Hc as (-> & H0 & k & Hk & _ & Hc). apply elem_of_cons in Hn as [->|Hn]; [by rewrite Hk|by eapply IH].
Qed.
Definition with_link_next (k : node) (v : Z) : node := Nd (next k) (prev k) v (link_prev k).
Definition with_link_prev (k : node) (c : option cell) : node := Nd (next k) (prev k) (link_next k) c.

(** The list [l1] with [v] stored where it ends. *)
Lemma assign_end s l1 m v : seg (nodes s) Global_head (global_head s) l1 m → NoDup l1 →
  ∃ s', assign (Some (end_from Global_head l1)) v s = Some (tt, s') ∧
    seg (nodes s') Global_head (global_head s') l1 v ∧ slave_head s' = slave_head s ∧
    (∀ n, n ∉ l1 → nodes s' !! n = nodes s !! n) ∧
    ∀ n k, nodes s !! n = Some k → ∃ w, nodes s' !! n = Some (with_link_next k w).
Proof.
  intros Hs Hn. destruct l1 as [|t l1' _] using rev_ind.
  - eexists. split; [done|]. split_and!; try done. intros n k Hk. exists (link_next k). by destruct k.
  - unfold end_from. rewrite last_snoc. apply links_app in Hs as (m' & H1 & (-> & H0 & k & Hk & Hp & _)).
    apply NoDup_app in Hn as (_ & Hn & _).
    simpl. unfold set_link_next, put, get. rewrite (bind_ok _ _ _ _ _ (gets_opt_ok _ s _ Hk)). unfold modify.
    eexists. split; [done|]. simpl. split_and!.
    + apply links_app. exists t. split.
      * apply (links_frame (nodes s)); [|done]. intros u ku Hu Hku. exists ku. rewrite lookup_insert_ne; [done|].
        intros ->. apply (Hn u Hu). set_solver.
      * split; [done|]. split; [done|]. eexists. rewrite lookup_insert_eq. done.
    + done.
    + intros u Hu. rewrite lookup_insert_ne; [done|]. set_solver.
    + intros u ku Hu. destruct (decide (u = t)) as [->|].
      * rewrite lookup_insert_eq. rewrite Hk in Hu. injection Hu as <-. by eexists.
      * rewrite lookup_insert_ne by done. exists (link_next ku). rewrite Hu. by destruct ku.
Qed.
(** The first node of the rest gets a new cell. *)
Lemma relink_prev s c0 q l2 c : seg (nodes s) c0 q l2 0 → NoDup l2 →
  ∃ s', (if negb (q =? 0) then set_link_prev q (Some c) else ret tt) s = Some (tt, s') ∧
    seg (nodes s') c q l2 0 ∧ slave_head s' = slave_head s ∧ global_head s' = global_head s ∧
    (∀ n, n ∉ l2 → nodes s' !! n = nodes s !! n) ∧
    ∀ n k, nodes s !! n = Some k → ∃ w, nodes s' !! n = Some (with_link_prev k w).
Proof.
  intros Hs Hn. destruct l2 as [|t l2].
  - simpl in Hs. subst. exists s. split_and!; try done. intros n k Hk. exists (link_prev k). by destruct k.
  - destruct Hs as (-> & H0 & k & Hk & Hp & Hc). apply NoDup_cons in Hn as [Ht Hn].
    rewrite (proj2 (Z.eqb_neq t 0)) by done. simpl. unfold set_link_prev, put, get.
    rewrite (bind_ok _ _ _ _ _ (gets_opt_ok _ s _ Hk)). unfold modify. eexists. split; [done|]. simpl. split_and!; try done.
    + eexists. rewrite lookup_insert_eq. split; [done|]. simpl. split; [done|].
      apply (links_frame (nodes s)); [|done]. intros u ku Hu Hku. exists ku. rewrite lookup_insert_ne; [done|]. set_solver.
    + intros u Hu. rewrite lookup_insert_ne; [done|]. set_solver.
    + intros u ku Hu. destruct (decide (u = t)) as [->|].
      * rewrite lookup_insert_eq. rewrite Hk in Hu. injection Hu as <-. by eexists.
      * rewrite lookup_insert_ne by done. exists (link_prev ku). rewrite Hu. by destruct ku.
Qed.
End Select_node_facts.

(** [exclude_from_global] takes its node out of the list of all SELECTs and
    leaves the others in their order, whatever is before and after it; its
    neighbours and those of the others do not change, its own links to the list
    are null, and excluding it once more does nothing. *)
Theorem exclude_from_global_removes s l1 n l2 : Select_node.global (Select_node.nodes s) (Select_node.global_head s) (l1 ++ n :: l2) →
  NoDup (l1 ++ n :: l2) →
  ∃ s', Select_node.exclude_from_global n s = Some (tt, s') ∧
    Select_node.global (Select_node.nodes s') (Select_node.global_head s') (l1 ++ l2) ∧
    Select_node.slave_head s' = Select_node.slave_head s ∧
    (∀ u k, Select_node.nodes s !! u = Some k → ∃ k', Select_node.nodes s' !! u = Some k' ∧
       Select_node.next k' = Select_node.next k ∧ Select_node.prev k' = Select_node.prev k) ∧
    (∃ k, Select_node.nodes s' !! n = Some k ∧ Select_node.link_next k = 0 ∧ Select_node.link_prev k = None) ∧
    Select_node.exclude_from_global n s' = Some (tt, s').
Proof.
  intros Hg Hn. apply Select_node_facts.links_app in Hg as (m & H1 & (-> & H0 & k & Hk & Hp & H2)).
  apply NoDup_app in Hn as (Hn1 & Hd & [Hni Hn2]%NoDup_cons).
  assert (n ∉ l1) as Hn1' by (intros Hi; apply (Hd n Hi); left).
  destruct (Select_node_facts.assign_end s l1 n (Select_node.link_next k) H1 Hn1) as (s1 & E1 & S1 & A1 & F1 & G1).
  destruct (Select_node_facts.relink_prev s1 (Select_node.Link_next n) (Select_node.link_next k) l2
    (Select_node_facts.end_from Select_node.Global_head l1)) as (s2 & E2 & S2 & A2 & B2 & F2 & G2).
  { apply (Select_node_facts.links_frame (Select_node.nodes s)); [|done]. intros u ku Hu Hku. exists ku. rewrite F1; [done|].
    intros Hi. apply (Hd u Hi). by right. }
  { done. }
  assert (Select_node.nodes s2 !! n = Some k) as Hk2 by (rewrite F2, F1 by done; done).
  set (k3 := Select_node.Nd (Select_node.next k) (Select_node.prev k) 0 None).
  set (s3 := Select_node.St (<[n := k3]> (Select_node.nodes s2)) (Select_node.slave_head s2) (Select_node.global_head s2)).
  assert (Select_node.exclude_from_global n s = Some (tt, s3)) as E.
  { unfold Select_node.exclude_from_global, Select_node.get. rewrite (bind_ok _ _ _ _ _ (gets_opt_ok _ s _ Hk)), Hp.
    rewrite (bind_ok _ _ _ _ _ E1), (bind_ok _ _ _ _ _ E2).
    unfold Select_node.set_link_next, Select_node.set_link_prev, Select_node.put, Select_node.get.
    unfold bind, gets_opt, modify. rewrite Hk2. simpl. rewrite lookup_insert_eq. simpl. by rewrite insert_insert_eq. }
  assert (∀ u, u ∈ l1 ++ l2 → u ≠ n) as Hne by (intros u [Hu|Hu]%elem_of_app ->; done).
  exists s3. split_and!.
  - done.
  - simpl. apply Select_node_facts.links_app. exists (Select_node.link_next k). rewrite B2. split.
    + apply (Select_node_facts.links_frame (Select_node.nodes s1)); [|done]. intros u ku Hu Hku. exists ku.
      rewrite lookup_insert_ne by (intros ->; done). rewrite F2; [done|]. intros Hi. apply (Hd u Hu). by right.
    + apply (Select_node_facts.links_frame (Select_node.nodes s2)); [|done]. intros u ku Hu Hku. exists ku.
      rewrite lookup_insert_ne by (intros ->; done). done.
  - simpl. by rewrite A2, A1.
  - intros u ku Hu. destruct (decide (u = n)) as [->|Hun].
    + simpl. rewrite lookup_insert_eq. rewrite Hk in Hu. injection Hu as <-. by exists k3.
    + destruct (G1 u ku Hu) as [w Hw]. destruct (G2 u _ Hw) as [w' Hw']. simpl. rewrite lookup_insert_ne by done.
      rewrite Hw'. by eexists.
  - exists k3. simpl. by rewrite lookup_insert_eq.
  - unfold Select_node.exclude_from_global, Select_node.get, bind, gets_opt. simpl. by rewrite lookup_insert_eq.
Qed.
Lemma exclude_from_global_removes_witness :
  let h := <[1 := Select_node.Nd 0 None 2 (Some Select_node.Global_head)]> {[2 := Select_node.Nd 0 None 0 (Some (Select_node.Link_next 1))]} in
  ∃ s', Select_node.exclude_from_global 1 (Select_node.St h 0 1) = Some (tt, s') ∧ Select_node.global (Select_node.nodes s') (Select_node.global_head s') [2].
Proof.
  intros h. destruct (exclude_from_global_removes (Select_node.St h 0 1) [] 1 [2]) as (s' & H1 & H2 & _).
  - split; [done|]. split; [done|]. eexists. split; [by vm_compute|]. split; [done|]. split; [done|]. split; [done|].
    eexists. split; [by vm_compute|]. done.
  - repeat constructor; set_solver.
  - by exists s'.
Defined.

(** Three neighbours in order. *)
Definition three_nodes : Select_node.state :=
  Select_node.St (<[1 := Select_node.Nd 2 (Some Select_node.Slave_head) 0 None]>
    (<[2 := Select_node.Nd 3 (Some (Select_node.Next 1)) 0 None]> {[3 := Select_node.Nd 0 (Some (Select_node.Next 2)) 0 None]})) 1 0.
(** [move_node] changes neither the cell of the node it moves nor that of the node
    behind it: of the neighbours 1, 2, 3, moving 3 before 1 gives 3, 1, 2, but the
    cell of 3 is still in 2, and moving it once more, before 2, makes a cycle. *)
Theorem move_node_stale_cell : ∃ s1 s2,
  Select_node.move_node 3 1 three_nodes = Some (tt, s1) ∧
  Select_node.follow (Select_node.nodes s1) 10 (Select_node.slave_head s1) = [3; 1; 2] ∧
  (Select_node.prev <$> Select_node.nodes s1 !! 3) = Some (Some (Select_node.Next 2)) ∧
  Select_node.move_node 3 2 s1 = Some (tt, s2) ∧
  Select_node.follow (Select_node.nodes s2) 7 (Select_node.slave_head s2) = [3; 2; 1; 3; 2; 1; 3].
Proof. do 2 eexists. split_and!; vm_compute; reflexivity. Qed.
