(* ===== verification/AsyncState.v ===== *)
(** [sql_class.h], [struct thd_async_state]: the counter of operations that must
    end before the server answers its client, and the suspension of a connection
    until they do.  Each critical section of [m_mtx] is one step; one thread owns
    the connection, others finish the operations. *)
From S2P Require Import Prelude.

(** ** State *)

Inductive enum_async_state := NONE | SUSPENDED | RESUMED.
#[export] Instance enum_async_state_eq_dec : EqDecision enum_async_state.
Proof. solve_decision. Defined.

(** Threads are numbers; [m_dbg_thread] is there in builds with assertions. *)
Record thd_async_state := Async {
  m_state : enum_async_state;
  m_pending_ops : Z;
  m_dbg_thread : Z }.

Definition init : thd_async_state := Async NONE 0 0.

Section Code.
Context (dbug : bool).

Definition try_suspend (s : thd_async_state) : option (bool * thd_async_state) :=
  if dbug && negb (bool_decide (m_state s = NONE)) then None else
  if dbug && (m_pending_ops s <? 0) then None else
  if truth (m_pending_ops s) then Some (true, Async SUSPENDED (m_pending_ops s) (m_dbg_thread s))
  else Some (false, s).

(** [self] is the thread that calls it; the counter is an atomic [int], which
    wraps. *)
Definition inc_pending_ops (self : Z) (s : thd_async_state) : option thd_async_state :=
  if dbug && truth (m_pending_ops s) && negb (self =? m_dbg_thread s) then None
  else Some (Async (m_state s) (to_int32 (m_pending_ops s + 1))
               (if dbug && negb (truth (m_pending_ops s)) then self else m_dbg_thread s)).

(** The result, the state that was read, and whether [m_cond] is signalled. *)
Definition dec_pending_ops (s : thd_async_state) : Z * enum_async_state * bool * thd_async_state :=
  let ret := to_int32 (m_pending_ops s - 1) in
  (ret, m_state s, ret =? 0, Async (m_state s) ret (m_dbg_thread s)).

Definition pending_ops (s : thd_async_state) : Z := m_pending_ops s.

(** [wait_for_pending_ops] in three parts: the read without the mutex, whether it
    returns at once; the assertion under the mutex; and one test of the loop,
    whether the thread waits. *)
Definition wait_enter (s : thd_async_state) : bool := negb (truth (pending_ops s)).
Definition wait_assert (s : thd_async_state) : option unit := if dbug && (m_pending_ops s <? 0) then None else Some tt.
Definition wait_test (s : thd_async_state) : bool := truth (m_pending_ops s).
End Code.

(** ** Interleaving

    Where the owner is: in its own code, before [mysql_mutex_lock] of a wait, in
    [mysql_cond_wait], woken up, or out of [do_command] after it was suspended. *)
Inductive place := Running | Entering | Waiting | Woken | Away.
#[export] Instance place_eq_dec : EqDecision place.
Proof. solve_decision. Defined.

(** [started] operations have been started and not finished; [log] has what the
    calls of [dec_pending_ops] returned, the latest first; [answers] is how often a
    wait has returned. *)
Record system := Sys {
  async : thd_async_state;
  owner : place;
  started : nat;
  log : list (Z * enum_async_state);
  answers : nat }.
Definition system0 : system := Sys init Running 0 [] 0.

(** One thread is woken by a signal. *)
Definition signal (b : bool) (p : place) : place := if b then match p with Waiting => Woken | _ => p end else p.

Section Steps.
Context (dbug : bool) (self : Z).

(** The owner starts an operation, whose number fits in [int]; it may try to
    suspend itself, or wait; another thread finishes an operation that was
    started; a wait may end without a signal. *)
Inductive step : system → system → Prop :=
  | step_inc a n l k a' : Z.of_nat (S n) < 2 ^ 31 → inc_pending_ops dbug self a = Some a' →
      step (Sys a Running n l k) (Sys a' Running (S n) l k)
  | step_dec a p n l k r st b a' : dec_pending_ops a = (r, st, b, a') →
      step (Sys a p (S n) l k) (Sys a' (signal b p) n ((r, st) :: l) k)
  | step_suspend a n l k r a' : try_suspend dbug a = Some (r, a') →
      step (Sys a Running n l k) (Sys a' (if r : bool then Away else Running) n l k)
  | step_wait_at_once a n l k : wait_enter a = true →
      step (Sys a Running n l k) (Sys a Running n l (S k))
  | step_wait_enter a n l k : wait_enter a = false →
      step (Sys a Running n l k) (Sys a Entering n l k)
  | step_wait_first a n l k : wait_assert dbug a = Some tt →
      step (Sys a Entering n l k) (if wait_test a then Sys a Waiting n l k else Sys a Running n l (S k))
  | step_wait_again a n l k :
      step (Sys a Woken n l k) (if wait_test a then Sys a Waiting n l k else Sys a Running n l (S k))
  | step_spurious a n l k : step (Sys a Waiting n l k) (Sys a Woken n l k).

(** A call that an assertion stops, or that has no defined result. *)
Inductive stops : system → Prop :=
  | stops_inc a n l k : Z.of_nat (S n) < 2 ^ 31 → inc_pending_ops dbug self a = None → stops (Sys a Running n l k)
  | stops_suspend a n l k : try_suspend dbug a = None → stops (Sys a Running n l k)
  | stops_wait a n l k : wait_assert dbug a = None → stops (Sys a Entering n l k).

Inductive reachable : system → Prop :=
  | reach_init : reachable system0
  | reach_step s s' : reachable s → step s s' → reachable s'.

(** *** Invariant *)

(** The returns of [dec_pending_ops] that ask for a resumption. *)
Definition resumes (l : list (Z * enum_async_state)) : nat := length (filter (λ r, r = (0, SUSPENDED)) l).

Record inv (s : system) : Prop := {
  i_pending : m_pending_ops (async s) = Z.of_nat (started s);
  i_fits : Z.of_nat (started s) < 2 ^ 31;
  i_state : m_state (async s) = if decide (owner s = Away) then SUSPENDED else NONE;
  i_thread : dbug = true → started s ≠ 0%nat → m_dbg_thread (async s) = self;
  i_resume : resumes (log s) = if decide (owner s = Away ∧ started s = 0%nat) then 1%nat else 0%nat;
  i_waiting : owner s = Waiting → started s ≠ 0%nat }.

Lemma resumes_cons r l : resumes (r :: l) = ((if decide (r = (0%Z, SUSPENDED)) then 1 else 0) + resumes l)%nat.
Proof. unfold resumes. rewrite filter_cons. by case_decide. Qed.
Lemma async_inv_init : inv system0.
Proof. split; done. Qed.
Lemma async_inv_step s s' : inv s → step s s' → inv s'.
Proof.
  intros [Hp Hf Hs Ht Hr Hw] Hstep. destruct Hstep as [a n l k a' Hn E|a p n l k r st b a' E|a n l k r a' E|a n l k E|a n l k E|a n l k E|a n l k|a n l k]; simpl in *.
  - unfold inc_pending_ops in E. destruct (dbug && _ && _); [done|]. injection E as <-.
    rewrite Hp in *. split; simpl; try done.
    + unfold to_int32. rewrite swrap_id; [lia|done|unfold in_s; lia].
    + intros -> _. destruct n; simpl; [done|]. by apply Ht.
  - unfold dec_pending_ops in E. rewrite Hp in E.
    assert (to_int32 (Z.of_nat (S n) - 1) = Z.of_nat n) as En
      by (unfold to_int32; rewrite swrap_id; [lia|done|unfold in_s; lia]).
    rewrite En in E. injection E as <- <- <- <-. destruct a as [ast apend ath]. simpl in *. subst ast.
    split; simpl; try done.
    + lia.
    + by destruct p, (Z.of_nat n =? 0).
    + intros. by apply Ht.
    + rewrite resumes_cons, Hr. destruct p, n; reflexivity.
    + zcases; [by destruct p|]. intros. lia.
  - unfold try_suspend in E. destruct (dbug && _); [done|]. destruct (dbug && _); [done|]. rewrite Hp in E.
    destruct n as [|n]; simpl in E; injection E as <- <-; split; simpl; try done.
  - split; done.
  - split; done.
  - unfold wait_test. destruct (truth _) eqn:Et; split; simpl; try done.
    intros _. apply truth_true in Et. lia.
  - unfold wait_test. destruct (truth _) eqn:Et; split; simpl; try done.
    intros _. apply truth_true in Et. lia.
  - split; done.
Qed.
Lemma reachable_inv s : reachable s → inv s.
Proof. induction 1; [apply async_inv_init|by eapply async_inv_step]. Qed.
End Steps.

(** ** Waits that end *)

Section Waits.
Context (dbug : bool) (self : Z).

Definition in_wait (s : system) : Prop := owner s = Entering ∨ owner s = Waiting ∨ owner s = Woken.
(** A step while the owner waits, other than a wake-up without a signal. *)
Definition quiet (s s' : system) : Prop :=
  step dbug self s s' ∧ in_wait s ∧ ¬ (owner s = Waiting ∧ owner s' = Woken ∧ started s' = started s).
Inductive quiet_run : nat → system → system → Prop :=
  | quiet_nil s : quiet_run 0 s s
  | quiet_cons n s1 s2 s3 : quiet s1 s2 → quiet_run n s2 s3 → quiet_run (S n) s1 s3.
(** What is left to do: the operations, and the tests of the owner. *)
Definition todo (s : system) : nat :=
  (3 * started s + match owner s with Entering | Woken => 2 | Waiting => 1 | _ => 0 end)%nat.

Lemma quiet_todo s s' : inv dbug self s → quiet s s' → (todo s' < todo s)%nat.
Proof.
  intros [Hp Hf Hs Ht Hr Hw] (Hstep & Hin & Hno).
  destruct Hstep as [a n l k a' Hn E|a p n l k r st b a' E|a n l k r a' E|a n l k E|a n l k E|a n l k E|a n l k|a n l k];
    unfold in_wait, todo in *; simpl in *;
    try (exfalso; by destruct Hin as [|[]]).
  - unfold signal. destruct b, p; lia.
  - destruct (wait_test a); simpl; lia.
  - destruct (wait_test a); simpl; lia.
  - by destruct Hno.
Qed.
Lemma quiet_progress s : inv dbug self s → in_wait s → ∃ s', quiet s s'.
Proof.
  intros I Hin. pose proof I as [Hp Hf Hs Ht Hr Hw]. destruct s as [a p n l k]. simpl in *.
  destruct (decide (n = 0%nat)) as [->|Hn].
  - destruct Hin as [Hin|[Hin|Hin]]; simpl in Hin; subst p; [|by specialize (Hw eq_refl)|];
      (eexists; split; [|split; [by unfold in_wait; auto|by intros (? & _)]]).
    + apply step_wait_first. unfold wait_assert. rewrite Hp. by rewrite andb_false_r.
    + apply step_wait_again.
  - destruct n as [|n]; [done|]. destruct (dec_pending_ops a) as [[[r st] b] a'] eqn:E.
    eexists. split; [by eapply step_dec|]. split; [done|]. simpl. intros (_ & _ & H). lia.
Qed.
Lemma quiet_reachable s s' : reachable dbug self s → quiet s s' → reachable dbug self s'.
Proof. intros H (Hs & _). by econstructor. Qed.

(** C2: in every interleaving no assertion of the struct fails and the counter
    neither wraps nor goes below 0; a wait returns only when all operations that
    were started have ended; a connection suspends itself exactly when operations
    are left, and then exactly one of the calls that end them, the last one,
    returns 0 with [SUSPENDED], which asks its caller to resume the connection;
    without a suspension none does. *)
Theorem async_state_safe s : reachable dbug self s →
  ¬ stops dbug self s ∧
  0 ≤ m_pending_ops (async s) ∧ m_pending_ops (async s) = Z.of_nat (started s) ∧
  (∀ s', step dbug self s s' → answers s' ≠ answers s → started s' = 0%nat) ∧
  (owner s = Running → try_suspend dbug (async s) =
     Some (bool_decide (started s ≠ 0%nat), if decide (started s = 0%nat) then async s else Async SUSPENDED (m_pending_ops (async s)) (m_dbg_thread (async s)))) ∧
  resumes (log s) = if decide (owner s = Away ∧ started s = 0%nat) then 1%nat else 0%nat.
Proof.
  intros Hreach. pose proof (reachable_inv dbug self s Hreach) as I. pose proof I as [Hp Hf Hs Ht Hr Hw]. split_and!.
  - intros Hstop. destruct Hstop as [a n l k Hn E|a n l k E|a n l k E]; simpl in *.
    + unfold inc_pending_ops in E. rewrite Hp in E. destruct dbug; [|done]. simpl in E. destruct n as [|n]; [done|].
      rewrite (Ht eq_refl) in E by done. by rewrite Z.eqb_refl, andb_false_r in E.
    + unfold try_suspend in E. rewrite Hs, Hp in E. rewrite bool_decide_eq_true_2, andb_false_r in E by done.
      destruct (Z.ltb_spec (Z.of_nat n) 0); [lia|]. rewrite andb_false_r in E. by destruct (truth _).
    + unfold wait_assert in E. rewrite Hp in E. destruct (Z.ltb_spec (Z.of_nat n) 0); [lia|]. by rewrite andb_false_r in E.
  - lia.
  - done.
  - intros s' Hstep Ha. destruct Hstep as [a n l k a' Hn E|a p n l k r st b a' E|a n l k r a' E|a n l k E|a n l k E|a n l k E|a n l k|a n l k];
      simpl in *; try done.
    + unfold wait_enter, pending_ops in E. rewrite Hp in E. by destruct n.
    + unfold wait_test in *. rewrite Hp in *. by destruct n.
    + unfold wait_test in *. rewrite Hp in *. by destruct n.
  - intros Ho. unfold try_suspend. rewrite Ho in Hs. simpl in Hs. rewrite Hs, Hp.
    rewrite bool_decide_eq_true_2, andb_false_r by done. destruct (Z.ltb_spec (Z.of_nat (started s)) 0); [lia|].
    rewrite andb_false_r. by destruct (started s).
  - done.
Qed.

(** C17: a wait ends.  While the owner waits there is always a step other than a
    wake-up without a signal, and after at most three steps for each operation
    that is left and two more the wait has returned, in whatever order they
    come: no signal is lost. *)
Theorem async_wait_ends s : reachable dbug self s → in_wait s →
  (∃ s', quiet s s') ∧
  ∀ n s', quiet_run n s s' → (n ≤ 3 * started s + 2)%nat ∧ (in_wait s' ∨ (owner s' = Running ∧ started s' = 0%nat ∧ answers s' = S (answers s))).
Proof.
  intros Hreach Hin. pose proof (reachable_inv dbug self s Hreach) as I. split; [by apply quiet_progress|].
  intros n s' Hrun. assert (todo s ≤ 3 * started s + 2)%nat as Htodo by (unfold todo; destruct (owner s); lia).
  cut (n + todo s' ≤ todo s ∧ (in_wait s' ∧ answers s' = answers s ∨ (owner s' = Running ∧ started s' = 0%nat ∧ answers s' = S (answers s))))%nat.
  { intros [H1 H2]. split; [lia|]. tauto. }
  clear Htodo. revert Hreach I Hin. induction Hrun as [s|n s1 s2 s3 Hq Hrun IH]; intros Hreach I Hin; [split; [lia|]; by left|].
  pose proof (quiet_todo s1 s2 I Hq) as Hlt. pose proof (quiet_reachable s1 s2 Hreach Hq) as Hreach2.
  pose proof (reachable_inv dbug self s2 Hreach2) as I2.
  assert (in_wait s2 ∧ answers s2 = answers s1 ∨ (owner s2 = Running ∧ started s2 = 0%nat ∧ answers s2 = S (answers s1))) as [[Hin2 Ea]|H2].
  { destruct Hq as (Hstep & _ & _). pose proof I as [Hp _ _ _ _ _].
    destruct Hstep as [a m l k a' Hm E|a p m l k r st b a' E|a m l k r a' E|a m l k E|a m l k E|a m l k E|a m l k|a m l k];
      unfold in_wait in *; simpl in *; try (exfalso; by destruct Hin as [|[]]).
    - left. split; [|done]. unfold signal. destruct b, p; naive_solver.
    - unfold wait_test in *. rewrite Hp in *. destruct m; simpl; naive_solver.
    - unfold wait_test in *. rewrite Hp in *. destruct m; simpl; naive_solver.
    - left. split; [by right; right|done]. }
  - destruct (IH Hreach2 I2 Hin2) as [H3 H4]. rewrite Ea in H4. split; [lia|done].
  - inversion Hrun as [|? ? ? ? Hq']; subst.
    + split; [lia|by right].
    + exfalso. destruct Hq' as (_ & Hin' & _), H2 as (Ho & _). unfold in_wait in Hin'. rewrite Ho in Hin'. naive_solver.
Qed.
End Waits.

(** One operation is started and finished while the owner waits. *)
Lemma async_state_safe_witness : reachable true 7 (Sys (Async SUSPENDED 0 7) Away 0 [(0, SUSPENDED)] 0) ∧
  resumes [(0, SUSPENDED)] = 1%nat.
Proof.
  assert (reachable true 7 (Sys (Async SUSPENDED 0 7) Away 0 [(0, SUSPENDED)] 0)) as H.
  { eapply (reach_step _ _ (Sys (Async SUSPENDED 1 7) Away 1 [] 0)).
    - eapply (reach_step _ _ (Sys (Async NONE 1 7) Running 1 [] 0)).
      + eapply reach_step; [apply reach_init|]. apply step_inc; [lia|reflexivity].
      + by apply (step_suspend _ _ _ _ _ _ true).
    - by apply (step_dec _ _ _ Away _ _ _ _ _ true). }
  split; [exact H|]. exact (proj2 (proj2 (proj2 (proj2 (proj2 (async_state_safe true 7 _ H)))))).
Defined.
Lemma async_wait_ends_witness : ∃ s', quiet true 7 (Sys (Async NONE 1 7) Waiting 1 [] 0) s'.
Proof.
  refine (proj1 (async_wait_ends true 7 (Sys (Async NONE 1 7) Waiting 1 [] 0) _ _)); [|by right; left].
  eapply (reach_step _ _ (Sys (Async NONE 1 7) Entering 1 [] 0)).
  - eapply (reach_step _ _ (Sys (Async NONE 1 7) Running 1 [] 0)).
    + eapply reach_step; [apply reach_init|]. apply step_inc; [lia|reflexivity].
    + by apply step_wait_enter.
  - exact (step_wait_first true 7 (Async NONE 1 7) 1 [] 0 eq_refl).
Defined.
