(* ===== verification/Intervals.v ===== *)
(** [structs.h]: the intervals of automatic values that a statement used or that
    were given to it ([Discrete_interval], [Discrete_intervals_list]), and the
    options of DDL statements ([DDL_options_st]). *)
From S2P Require Import Prelude CMonad.

Definition ULONGLONG_MAX : Z := 2 ^ 64 - 1.

(** ** [class Discrete_interval] *)

Module Interval.
(** [interval_max] is excluded; [next] is the address of the next interval. *)
Record t := Mk { interval_min : Z; interval_values : Z; interval_max : Z; next : Z }.

Definition replace (start val incr : Z) (i : t) : t :=
  Mk start val (if val =? ULONGLONG_MAX then val else to_ulonglong (start + to_ulonglong (val * incr))) (next i).
Definition create (start val incr : Z) : t := replace start val incr (Mk 0 0 0 0).
Definition default_interval : t := replace 0 0 0 (Mk 0 0 0 0).
Definition minimum (i : t) : Z := interval_min i.
Definition values (i : t) : Z := interval_values i.
Definition maximum (i : t) : Z := interval_max i.

(** The result is 0, [false], when the intervals were merged. *)
Definition merge_if_contiguous (start val incr : Z) (i : t) : bool * t :=
  if interval_max i =? start then
    if val =? ULONGLONG_MAX then (false, Mk (interval_min i) val val (next i))
    else (false, Mk (interval_min i) (to_ulonglong (interval_values i + val)) (to_ulonglong (start + to_ulonglong (val * incr))) (next i))
  else (true, i).

(** *** Specification *)

(** The values of an interval. *)
Definition members (start val incr : Z) : list Z := (λ k, start + Z.of_nat k * incr) <$> seq 0 (Z.to_nat val).
(** A bounded interval: its bound is not past the largest number. *)
Definition bounded (i : t) (incr : Z) : Prop :=
  0 ≤ interval_min i ∧ 0 ≤ interval_values i < ULONGLONG_MAX ∧ 0 < incr ∧
  interval_max i = interval_min i + interval_values i * incr ∧ interval_max i < 2 ^ 64.
End Interval.

(** ** [class Discrete_intervals_list] *)

Module Intervals_list.
(** A list object: [head], [tail], [current] are addresses, 0 is null. *)
Record t := Lst { head : Z; tail : Z; current : Z; elements : Z }.
(** The intervals and the list objects of the heap. *)
Record mem := Mem { intervals : gmap Z Interval.t; lists : gmap Z t }.

Definition get (this : Z) : M mem t := gets_opt (λ m, lists m !! this).
Definition put (this : Z) (l : t) : M mem unit := modify (λ m, Mem (intervals m) (<[this := l]> (lists m))).
Definition deref (i : Z) : M mem Interval.t := gets_opt (λ m, intervals m !! i).
(** [delete i]: the interval must be there. *)
Definition delete_interval (i : Z) : M mem unit :=
  _ <- deref i ;; modify (λ m, Mem (delete i (intervals m)) (lists m)).

Definition set_members (this h t c el : Z) : M mem unit := put this (Lst h t c el).
(** The constructor leaves [tail] as it was. *)
Definition ctor (this garbage : Z) : M mem unit := put this (Lst 0 garbage 0 0).
Definition empty_no_free (this : Z) : M mem unit := set_members this 0 0 0 0.
Fixpoint empty_loop (fuel : nat) (i : Z) : M mem unit :=
  match fuel with
  | O => ub
  | S fuel =>
      if i =? 0 then ret tt else
      k <- deref i ;; delete_interval i ;; empty_loop fuel (Interval.next k)
  end.
Definition empty (fuel : nat) (this : Z) : M mem unit :=
  l <- get this ;; empty_loop fuel (head l) ;; empty_no_free this.
Definition copy_shallow (this dli : Z) : M mem unit :=
  d <- get dli ;; put this (Lst (head d) (tail d) (current d) (elements d)).
Definition swap (this dli : Z) : M mem unit :=
  d <- get dli ;; copy_shallow dli this ;; set_members this (head d) (tail d) (current d) (elements d).
Definition get_next (this : Z) : M mem Z :=
  l <- get this ;;
  if negb (current l =? 0) then
    k <- deref (current l) ;;
    put this (Lst (head l) (tail l) (Interval.next k) (elements l)) ;; ret (current l)
  else ret (current l).
Definition list_minimum (this : Z) : M mem Z :=
  l <- get this ;; if negb (head l =? 0) then k <- deref (head l) ;; ret (Interval.minimum k) else ret 0.
Definition list_maximum (this : Z) : M mem Z :=
  l <- get this ;; if negb (head l =? 0) then k <- deref (tail l) ;; ret (Interval.maximum k) else ret 0.
Definition nb_elements (this : Z) : M mem Z := l <- get this ;; ret (elements l).

(** *** Specification *)

(** The intervals [l] are linked from [p]. *)
Fixpoint chain (h : gmap Z Interval.t) (p : Z) (l : list Z) : Prop :=
  match l with
  | [] => p = 0
  | i :: r => p = i ∧ i ≠ 0 ∧ ∃ k, h !! i = Some k ∧ chain h (Interval.next k) r
  end.
(** The list object holds the intervals [l], the first [done] of them consumed. *)
Record rep (m : mem) (this : Z) (l : list Z) (done : nat) : Prop := {
  l_obj : ∃ t, lists m !! this = Some (Lst (default 0 (list.head l)) t (default 0 (l !! done)) (Z.of_nat (length l))) ∧
            (∀ i, list.last l = Some i → t = i);
  l_chain : chain (intervals m) (default 0 (list.head l)) l;
  l_nodup : NoDup l;
  l_done : (done ≤ length l)%nat }.
End Intervals_list.

(** ** [struct DDL_options_st] *)

Module DDL_options.
Inductive Options := OPT_NONE | OPT_IF_NOT_EXISTS | OPT_LIKE | OPT_OR_REPLACE | OPT_OR_REPLACE_SLAVE_GENERATED
  | OPT_IF_EXISTS | OPT_CREATE_SELECT.
#[global] Instance Options_eq_dec : EqDecision Options.
Proof. solve_decision. Defined.
Definition code (o : Options) : Z :=
  match o with
  | OPT_NONE => 0 | OPT_IF_NOT_EXISTS => 2 | OPT_LIKE => 4 | OPT_OR_REPLACE => 16
  | OPT_OR_REPLACE_SLAVE_GENERATED => 32 | OPT_IF_EXISTS => 64 | OPT_CREATE_SELECT => 128
  end.
(** An object is its [m_options]. *)
Definition init : Z := code OPT_NONE.
Definition init_with (options : Z) : Z := options.
Definition set (other m_options : Z) : Z := other.
Definition create_like_options (m_options : Z) : Z := Z.land m_options (Z.lor (code OPT_IF_NOT_EXISTS) (code OPT_OR_REPLACE)).
Definition has (o : Options) (m_options : Z) : bool := truth (Z.land m_options (code o)).
Definition if_not_exists : Z → bool := has OPT_IF_NOT_EXISTS.
Definition or_replace : Z → bool := has OPT_OR_REPLACE.
Definition or_replace_slave_generated : Z → bool := has OPT_OR_REPLACE_SLAVE_GENERATED.
Definition like : Z → bool := has OPT_LIKE.
Definition if_exists : Z → bool := has OPT_IF_EXISTS.
Definition is_create_select : Z → bool := has OPT_CREATE_SELECT.
Definition add (other m_options : Z) : Z := Z.lor m_options other.
(** [operator|]: the new value of the object itself, and the copy returned. *)
Definition op_or (this other : Z) : Z * Z := let m := add other this in (m, m).
Definition op_or_assign (this other : Z) : Z * Z := let m := add other this in (m, m).
End DDL_options.

(** * Theorems *)

Module IntervalFacts.
Import Interval.
Lemma members_app start a b incr : 0 ≤ a → 0 ≤ b →
  members start (a + b) incr = members start a incr ++ members (start + a * incr) b incr.
Proof.
  intros Ha Hb. unfold members. rewrite Z2Nat.inj_add, seq_app, fmap_app by done. f_equal.
  pose proof (fmap_add_seq (Z.to_nat a) 0 (Z.to_nat b)) as E. rewrite Nat.add_0_r in E.
  rewrite Nat.add_0_l, <- E, <- list_fmap_compose.
  apply list_fmap_ext. intros i k _. cbn. rewrite Nat2Z.inj_add, Z2Nat.id by done. ring.
Qed.
Lemma wrap_sum start val incr : 0 ≤ start → 0 ≤ val → 0 < incr → start + val * incr < 2 ^ 64 →
  to_ulonglong (start + to_ulonglong (val * incr)) = start + val * incr.
Proof.
  intros. unfold to_ulonglong. rewrite (wrap_id 64 (val * incr)) by (unfold in_u; nia). apply wrap_id. unfold in_u. nia.
Qed.
End IntervalFacts.

(** an interval holds [val] values from [start] on, [incr] apart, and its
    bound is the value after the last.  Merging accepts exactly the values that
    start at that bound: the interval then holds its own values followed by the
    new ones, or has no bound when these have none; any other interval is left
    as it was. *)
Theorem interval_merge i start val incr : Interval.bounded i incr → 0 ≤ start → 0 ≤ val →
  (val < ULONGLONG_MAX → start + val * incr < ULONGLONG_MAX) →
  (val < ULONGLONG_MAX → Interval.bounded (Interval.create start val incr) incr) ∧
  if bool_decide (Interval.maximum i = start) then
    ∃ j, Interval.merge_if_contiguous start val incr i = (false, j) ∧ Interval.minimum j = Interval.minimum i ∧ Interval.next j = Interval.next i ∧
      (val = ULONGLONG_MAX → Interval.values j = ULONGLONG_MAX ∧ Interval.maximum j = ULONGLONG_MAX) ∧
      (val < ULONGLONG_MAX → Interval.bounded j incr ∧
         Interval.members (Interval.minimum j) (Interval.values j) incr =
         Interval.members (Interval.minimum i) (Interval.values i) incr ++ Interval.members start val incr)
  else Interval.merge_if_contiguous start val incr i = (true, i).
Proof.
  intros (H0 & Hv & Hi & Hm & Hb) Hs Hval Hbound. unfold ULONGLONG_MAX in *. split.
  - intros Hlt. specialize (Hbound Hlt). unfold Interval.bounded, Interval.create, Interval.replace. simpl.
    unfold ULONGLONG_MAX. rewrite (proj2 (Z.eqb_neq val _)) by lia. rewrite IntervalFacts.wrap_sum by lia. lia.
  - unfold Interval.maximum, Interval.merge_if_contiguous, ULONGLONG_MAX. case_bool_decide as E; [|by rewrite (proj2 (Z.eqb_neq _ _))].
    rewrite (proj2 (Z.eqb_eq _ _)) by done. destruct (Z.eqb_spec val (2 ^ 64 - 1)) as [->|Hn].
    + eexists. split; [done|]. split_and!; simpl; try done.
    + eexists. split; [done|]. split; [done|]. split; [done|]. split; [done|]. intros Hlt. specialize (Hbound Hlt).
      unfold Interval.bounded, Interval.minimum, Interval.values. simpl. rewrite IntervalFacts.wrap_sum by lia.
      assert (to_ulonglong (Interval.interval_values i + val) = Interval.interval_values i + val) as Ev
        by (unfold to_ulonglong; apply wrap_id; unfold in_u; nia).
      rewrite Ev. split; [unfold ULONGLONG_MAX; nia|]. rewrite IntervalFacts.members_app by lia. do 2 f_equal. lia.
Qed.
Lemma interval_merge_witness :
  Interval.members 1 5 2 = Interval.members 1 2 2 ++ Interval.members 5 3 2 ∧
  ∃ j, Interval.merge_if_contiguous 5 3 2 (Interval.create 1 2 2) = (false, j).
Proof.
  assert (Interval.bounded (Interval.create 1 2 2) 2) as Hb by (unfold Interval.bounded; vm_compute; intuition discriminate).
  destruct (interval_merge (Interval.create 1 2 2) 5 3 2 Hb ltac:(done) ltac:(done) ltac:(done)) as (_ & j & E & Hj & _ & _ & H).
  split; [|by exists j]. vm_compute in E. injection E as <-. apply H. done.
Defined.

Module Intervals_facts.
Import Intervals_list.
Lemma chain_lookup h p l k : chain h p l → chain h (default 0 (l !! k)) (drop k l).
Proof.
  revert p k. induction l as [|i l IH]; intros p k Hc; [by destruct k|].
  destruct k as [|k]; [simpl in *; by destruct Hc as (-> & ?)|]. destruct Hc as (-> & H0 & x & Hx & Hc).
  simpl. by eapply IH.
Qed.
Lemma chain_same h p q l : chain h p l → chain h q l → p = q.
Proof. destruct l; [by intros -> ->|by intros (-> & _) (-> & _)]. Qed.
Lemma chain_frame_delete h p l i : i ∉ l → chain h p l → chain (delete i h) p l.
Proof.
  revert p. induction l as [|j l IH]; intros p Hi; [done|]. apply not_elem_of_cons in Hi as [Hij Hi].
  intros (-> & H0 & x & Hx & Hc). split; [done|]. split; [done|]. exists x. rewrite lookup_delete_ne by done. auto.
Qed.
Lemma empty_loop_ok m p l fuel : chain (intervals m) p l → NoDup l → (length l < fuel)%nat →
  ∃ h, empty_loop fuel p m = Some (tt, Mem h (lists m)) ∧ ∀ i, h !! i = if bool_decide (i ∈ l) then None else intervals m !! i.
Proof.
  revert m p fuel. induction l as [|i l IH]; intros m p fuel Hc Hn Hf; (destruct fuel as [|fuel]; [simpl in Hf; lia|]).
  - simpl in Hc. subst. exists (intervals m). split; [simpl; by destruct m|]. intros i. case_bool_decide as Hi; [by apply elem_of_nil in Hi|done].
  - destruct Hc as (-> & H0 & x & Hx & Hc). apply NoDup_cons in Hn as [Hi Hn]. simpl in Hf. cbn [empty_loop].
    rewrite (proj2 (Z.eqb_neq i 0)) by done. unfold delete_interval, deref.
    rewrite (bind_ok _ _ _ _ _ (gets_opt_ok _ m _ Hx)). rewrite bind_assoc, (bind_ok _ _ _ _ _ (gets_opt_ok _ m _ Hx)).
    unfold bind at 1, modify.
    destruct (IH (Mem (delete i (intervals m)) (lists m)) (Interval.next x) fuel) as (h & E & Hh); [by apply chain_frame_delete|done|lia|].
    exists h. rewrite E. split; [done|]. intros j. rewrite Hh. simpl.
    destruct (decide (j = i)) as [->|Hj].
    + rewrite (bool_decide_eq_true_2 (i ∈ i :: l)) by left. rewrite lookup_delete_eq. by destruct (bool_decide _).
    + rewrite lookup_delete_ne by done. rewrite (bool_decide_ext (j ∈ i :: l) (j ∈ l)); [done|]. set_solver.
Qed.
End Intervals_facts.

(** the list of intervals.  Its object names the first, the last and the next
    one to consume; [get_next] gives the intervals in order and null after the
    last, [minimum] and [maximum] are those of the first and the last, [empty]
    deletes every interval once and only these, and ends; [swap] exchanges the
    contents of two lists, with what was consumed of them. *)
Theorem intervals_list_operations m this l n : Intervals_list.rep m this l n →
  (∃ m', Intervals_list.get_next this m = Some (default 0 (l !! n), m') ∧ Intervals_list.rep m' this l (if decide (n < length l)%nat then S n else n)) ∧
  (∀ i k, head l = Some i → Intervals_list.intervals m !! i = Some k → Intervals_list.list_minimum this m = Some (Interval.minimum k, m)) ∧
  (∀ i k, last l = Some i → Intervals_list.intervals m !! i = Some k → Intervals_list.list_maximum this m = Some (Interval.maximum k, m)) ∧
  (∀ fuel, (length l < fuel)%nat → ∃ m', Intervals_list.empty fuel this m = Some (tt, m') ∧ Intervals_list.rep m' this [] 0 ∧
     ∀ i, Intervals_list.intervals m' !! i = if bool_decide (i ∈ l) then None else Intervals_list.intervals m !! i) ∧
  ∀ other l' n', other ≠ this → Intervals_list.rep m other l' n' →
    ∃ m', Intervals_list.swap this other m = Some (tt, m') ∧ Intervals_list.rep m' this l' n' ∧ Intervals_list.rep m' other l n.
Proof.
  intros R. pose proof R as [(t & Ht & Hlast) Hc Hn Hd]. split_and!.
  - unfold Intervals_list.get_next, Intervals_list.get. rewrite (bind_ok _ _ _ _ _ (gets_opt_ok _ m _ Ht)). simpl.
    pose proof (Intervals_facts.chain_lookup _ _ _ n Hc) as Hcn. destruct (l !! n) as [i|] eqn:Hi; simpl.
    + rewrite (drop_S _ _ _ Hi) in Hcn. destruct Hcn as (_ & H0 & k & Hk & Hcr). pose proof (lookup_lt_Some _ _ _ Hi).
      rewrite (proj2 (Z.eqb_neq i 0)) by done. unfold Intervals_list.deref, Intervals_list.put. simpl.
      rewrite (bind_ok _ _ _ _ _ (gets_opt_ok _ m _ Hk)). eexists. split; [done|].
      rewrite decide_True by done. split; simpl; [|done|done|lia].
      exists t. rewrite lookup_insert_eq. split; [|done]. do 2 f_equal. pose proof (Intervals_facts.chain_lookup _ _ _ (S n) Hc) as Hs.
      by apply (Intervals_facts.chain_same _ _ _ _ Hcr).
    + exists m. split; [done|]. apply lookup_ge_None in Hi. rewrite decide_False by lia. done.
  - intros i k Hi Hk. unfold Intervals_list.list_minimum, Intervals_list.get. rewrite (bind_ok _ _ _ _ _ (gets_opt_ok _ m _ Ht)).
    destruct l as [|j l]; [done|]. injection Hi as ->. destruct Hc as (_ & H0 & _). simpl. rewrite (proj2 (Z.eqb_neq i 0)) by done.
    unfold Intervals_list.deref. simpl. by rewrite (bind_ok _ _ _ _ _ (gets_opt_ok _ m _ Hk)).
  - intros i k Hi Hk. unfold Intervals_list.list_maximum, Intervals_list.get. rewrite (bind_ok _ _ _ _ _ (gets_opt_ok _ m _ Ht)).
    rewrite (Hlast i Hi). destruct l as [|j l]; [done|]. destruct Hc as (_ & H0 & _). simpl. rewrite (proj2 (Z.eqb_neq j 0)) by done.
    unfold Intervals_list.deref. simpl. by rewrite (bind_ok _ _ _ _ _ (gets_opt_ok _ m _ Hk)).
  - intros fuel Hf. unfold Intervals_list.empty, Intervals_list.get. rewrite (bind_ok _ _ _ _ _ (gets_opt_ok _ m _ Ht)). simpl.
    destruct (Intervals_facts.empty_loop_ok m _ l fuel Hc Hn Hf) as (h & E & Hh). rewrite (bind_ok _ _ _ _ _ E).
    eexists. split; [done|]. simpl. split; [|done]. split; simpl; [|done|constructor|done].
    exists 0. rewrite lookup_insert_eq. done.
  - intros other l' n' Hne [(t' & Ht' & Hlast') Hc' Hn' Hd'].
    unfold Intervals_list.swap, Intervals_list.copy_shallow, Intervals_list.get, Intervals_list.set_members, Intervals_list.put.
    rewrite (bind_ok _ _ _ _ _ (gets_opt_ok _ m _ Ht')). rewrite bind_assoc, (bind_ok _ _ _ _ _ (gets_opt_ok _ m _ Ht)).
    eexists. split; [done|]. simpl. split; split; simpl; try done.
    + exists t'. by rewrite lookup_insert_eq.
    + exists t. rewrite lookup_insert_ne, lookup_insert_eq by done. done.
Qed.
Lemma intervals_list_operations_witness : let m := Intervals_list.Mem {[5 := Interval.create 1 2 1]} {[9 := Intervals_list.Lst 5 5 5 1]} in
  ∃ m', Intervals_list.empty 2 9 m = Some (tt, m') ∧ Intervals_list.rep m' 9 [] 0.
Proof.
  intros m. destruct (intervals_list_operations m 9 [5] 0) as (_ & _ & _ & H & _).
  - split; [|simpl; split; [done|split; [done|eexists; split; by vm_compute]]|apply NoDup_singleton|simpl; lia].
    exists 5. split; [by vm_compute|]. by intros i [= <-].
  - destruct (H 2%nat) as (m' & E & R & _); [simpl; lia|]. by exists m'.
Defined.

(** ** Options *)

(** The options are a set; [operator|] returns the union and, unlike the operator
    of numbers, stores it in its left operand. *)
Theorem ddl_options_or o p m : 
  DDL_options.has o (DDL_options.add (DDL_options.code p) m) = (bool_decide (o = p) && negb (bool_decide (o = DDL_options.OPT_NONE))) || DDL_options.has o m
  ∧ DDL_options.op_or m (DDL_options.code p) = DDL_options.op_or_assign m (DDL_options.code p).
Proof.
  split; [|done]. unfold DDL_options.has, DDL_options.add. rewrite Z.land_lor_distr_l.
  destruct (decide (o = p)) as [->|Hne].
  - rewrite bool_decide_eq_true_2 by done. rewrite Z.land_diag. destruct p; simpl; rewrite ?Z.lor_0_r; try done;
      apply truth_true; intros [_ H]%Z.lor_eq_0_iff; discriminate.
  - rewrite bool_decide_eq_false_2 by done. simpl.
    assert (Z.land (DDL_options.code p) (DDL_options.code o) = 0) as -> by (by destruct o, p). by rewrite Z.lor_0_r.
Qed.
