(* ===== verification/HandlerScan.v ===== *)
(** [handler.h], [class handler]: the public functions that start and end scans and
    call the virtual functions of a storage engine, the key that is read without
    the row, the row id filter that was pushed down, and the automatic value of
    the next row. *)
From S2P Require Import Prelude.

Definition MAX_INDEXES : Z := 64.
Definition MAX_KEY : Z := MAX_INDEXES.
Definition HA_EXTRA_KEYREAD : Z := 7.
Definition HA_EXTRA_NO_KEYREAD : Z := 8.

Inductive init_stat := NONE | INDEX | RND.
#[export] Instance init_stat_eq_dec : EqDecision init_stat.
Proof. solve_decision. Defined.

(** ** The virtual functions

    An engine has a state of its own; a call returns an error code, 0 for none,
    and the new state. *)
Class Engine (E : Type) := {
  index_init : Z → bool → E → Z * E;
  index_end : E → Z * E;
  rnd_init : bool → E → Z * E;
  rnd_end : E → Z * E;
  pre_index_init : Z → bool → E → Z * E;
  pre_index_end : E → Z * E;
  pre_rnd_init : bool → E → Z * E;
  pre_rnd_end : E → Z * E;
  extra_opt : Z → Z → E → Z * E;
  extra : Z → E → Z * E;
  position : E → E;
  ha_rnd_pos : E → Z * E }.

(** The calls of a scan an engine sees, with their results. *)
Inductive call :=
  | Index_init (idx : Z) (result : Z) | Index_end | Rnd_init (scan : bool) (result : Z) | Rnd_end
  | Pre_index_init (result : Z) | Pre_index_end | Pre_rnd_init (scan : bool) (result : Z) | Pre_rnd_end
  | Extra (function : Z) | Position | Rnd_pos.

(** The members the functions use; [end_range] is an address, 0 is null.  [calls]
    records what the engine was asked, the latest first. *)
Record handler (E : Type) := Hnd {
  inited : init_stat;
  pre_inited : init_stat;
  active_index : Z;
  end_range : Z;
  keyread : Z;
  engine : E;
  calls : list call }.
Arguments Hnd {E}.
Arguments inited {E}. Arguments pre_inited {E}. Arguments active_index {E}. Arguments end_range {E}.
Arguments keyread {E}. Arguments engine {E}. Arguments calls {E}.

Section Code.
Context {E : Type} `{EN : Engine E} (dbug : bool).

(** The constructor, for the members above. *)
Definition create (e : E) : handler E := Hnd NONE NONE MAX_KEY 0 MAX_KEY e [].

(** [DBUG_ASSERT]. *)
Definition check (b : bool) : option unit := if dbug && negb b then None else Some tt.



Definition ha_rnd_init (scan : bool) (h : handler E) : option (Z * handler E) :=
  _ ← check (bool_decide (inited h = NONE) || bool_decide (inited h = RND) && scan);
  let '(result, e) := rnd_init scan (engine h) in
  Some (result, Hnd (if truth result then NONE else RND) (pre_inited h) (active_index h) 0 (keyread h) e (Rnd_init scan result :: calls h)).

Definition ha_rnd_end (h : handler E) : option (Z * handler E) :=
  _ ← check (bool_decide (inited h = RND));
  let '(result, e) := rnd_end (engine h) in
  Some (result, Hnd NONE (pre_inited h) (active_index h) 0 (keyread h) e (Rnd_end :: calls h)).







Definition keyread_enabled (h : handler E) : bool := keyread h <? MAX_KEY.

(** The table flags say that the primary key is required for a position. *)
Definition rnd_pos_by_record (key_required : bool) (h : handler E) : option (Z * handler E) :=
  _ ← check key_required;
  r ← ha_rnd_init false h;
  let '(error, h) := r in
  if truth error then Some (error, h) else
  let h := Hnd (inited h) (pre_inited h) (active_index h) (end_range h) (keyread h) (position (engine h)) (Position :: calls h) in
  let '(error, e) := ha_rnd_pos (engine h) in
  let h := Hnd (inited h) (pre_inited h) (active_index h) (end_range h) (keyread h) e (Rnd_pos :: calls h) in
  r ← ha_rnd_end h;
  Some (error, snd r).
End Code.

(** Errors of a write that a statement may ignore. *)
Definition HA_ERR_FOUND_DUPP_KEY : Z := 121.
Definition HA_ERR_FOUND_DUPP_UNIQUE : Z := 141.
Definition HA_ERR_NO_REFERENCED_ROW : Z := 151.
Definition HA_ERR_ROW_IS_REFERENCED : Z := 152.
Definition HA_ERR_AUTOINC_ERANGE : Z := 167.
Definition HA_CHECK_DUP_KEY : Z := 1.
Definition HA_CHECK_FK_ERROR : Z := 4.
Definition is_fatal_error (error : Z) (flags : Z) : bool :=
  if negb (truth error) ||
     truth (Z.land flags HA_CHECK_DUP_KEY) && ((error =? HA_ERR_FOUND_DUPP_KEY) || (error =? HA_ERR_FOUND_DUPP_UNIQUE)) ||
     (error =? HA_ERR_AUTOINC_ERANGE) ||
     truth (Z.land flags HA_CHECK_FK_ERROR) && ((error =? HA_ERR_ROW_IS_REFERENCED) || (error =? HA_ERR_NO_REFERENCED_ROW))
  then false else true.

(** The value of [next_insert_id] after a row failed. *)
Definition restore_auto_increment (prev_insert_id insert_id_for_cur_row : Z) : Z :=
  if 0 <? prev_insert_id then prev_insert_id else insert_id_for_cur_row.

(** ** The pushed row id filter: addresses, 0 is null. *)
Module Rowid_filter.
Record t := Mk {
  pushed_rowid_filter : Z;
  rowid_filter_is_active : bool;
  save_pushed_rowid_filter : Z;
  save_rowid_filter_is_active : bool }.
Definition create : t := Mk 0 false 0 false.
Definition cancel_pushed_rowid_filter (f : t) : t := Mk 0 false (save_pushed_rowid_filter f) (save_rowid_filter_is_active f).
Definition disable_pushed_rowid_filter (dbug : bool) (f : t) : option t :=
  if dbug && negb (negb (pushed_rowid_filter f =? 0) && (save_pushed_rowid_filter f =? 0)) then None
  else Some (Mk 0 false (pushed_rowid_filter f)
    (if rowid_filter_is_active f then rowid_filter_is_active f else save_rowid_filter_is_active f)).
Definition enable_pushed_rowid_filter (dbug : bool) (f : t) : option t :=
  if dbug && negb (negb (save_pushed_rowid_filter f =? 0) && (pushed_rowid_filter f =? 0)) then None
  else Some (Mk (save_pushed_rowid_filter f) (if save_rowid_filter_is_active f then true else rowid_filter_is_active f) 0
    (save_rowid_filter_is_active f)).
End Rowid_filter.

(** ** Specification

    What an engine may expect of the calls of scans: a state that each call
    follows, or [None] for a call out of order. *)
Definition follow (st : init_stat * init_stat) (c : call) : option (init_stat * init_stat) :=
  match c, st with
  | Index_init _ r, (NONE, p) => Some (if r =? 0 then INDEX else NONE, p)
  | Index_end, (INDEX, p) => Some (NONE, p)
  | Rnd_init scan r, (NONE, p) => Some (if r =? 0 then RND else NONE, p)
  | Rnd_init true r, (RND, p) => Some (if r =? 0 then RND else NONE, p)
  | Rnd_end, (RND, p) => Some (NONE, p)
  | Pre_index_init r, (i, NONE) => Some (i, if r =? 0 then INDEX else NONE)
  | Pre_index_end, (i, INDEX) => Some (i, NONE)
  | Pre_rnd_init scan r, (i, NONE) => Some (i, if r =? 0 then RND else NONE)
  | Pre_rnd_init true r, (i, RND) => Some (i, if r =? 0 then RND else NONE)
  | Pre_rnd_end, (i, RND) => Some (i, NONE)
  | Extra _, _ => Some st
  | (Position | Rnd_pos), (RND, p) => Some st
  | _, _ => None
  end.
Fixpoint history (l : list call) : option (init_stat * init_stat) :=
  match l with [] => Some (NONE, NONE) | c :: l => st ← history l; follow st c end.

(** How often an engine was told to do something. *)
Fixpoint asked (function : Z) (l : list call) : nat :=
  match l with
  | [] => 0
  | Extra f :: l => (if (f =? function)%Z then 1 else 0) + asked function l
  | _ :: l => asked function l
  end%nat.

(** The public functions as operations, and the states in which they may be
    called. *)
Inductive op := Op_index_init (idx : Z) (sorted : bool) | Op_index_end | Op_rnd_init (scan : bool) | Op_rnd_end | Op_index_or_rnd_end
  | Op_pre_index_init (idx : Z) (sorted : bool) | Op_pre_index_end | Op_pre_rnd_init (scan : bool) | Op_pre_rnd_end | Op_pre_index_or_rnd_end
  | Op_start_keyread (idx : Z) | Op_end_keyread | Op_rnd_pos_by_record (key_required : bool).
Definition legal (o : op) (i p : init_stat) : bool :=
  match o with
  | Op_index_init _ _ => bool_decide (i = NONE)
  | Op_index_end => bool_decide (i = INDEX)
  | Op_rnd_init scan => bool_decide (i = NONE) || bool_decide (i = RND) && scan
  | Op_rnd_end => bool_decide (i = RND)
  | Op_pre_index_init _ _ => bool_decide (p = NONE)
  | Op_pre_index_end => bool_decide (p = INDEX)
  | Op_pre_rnd_init scan => bool_decide (p = NONE) || bool_decide (p = RND) && scan
  | Op_pre_rnd_end => bool_decide (p = RND)
  | Op_rnd_pos_by_record key_required => key_required && bool_decide (i = NONE)
  | _ => true
  end.
Section Runs.
Context {E : Type} `{EN : Engine E} (dbug : bool).
(** The state of a handler agrees with what its engine has seen. *)
Record good (h : handler E) : Prop := {
  g_history : history (calls h) = Some (inited h, pre_inited h);
  g_index : match inited h with INDEX => 0 ≤ active_index h < MAX_KEY | _ => active_index h = MAX_KEY end;
  g_range : end_range h = 0;
  g_keyread : 0 ≤ keyread h ≤ MAX_KEY;
  g_extra : (asked HA_EXTRA_KEYREAD (calls h) = asked HA_EXTRA_NO_KEYREAD (calls h) + Nat.b2n (keyread_enabled h))%nat }.
End Runs.

(** * Theorems *)

Section Facts.
Context {E : Type} `{EN : Engine E} (dbug : bool).

Lemma create_good (e : E) : good (create e).
Proof. by split. Qed.

Lemma check_true b : b = true → check dbug b = Some tt.
Proof. intros ->. unfold check. by rewrite andb_false_r. Qed.


(** [rnd_pos_by_record]: the calls it makes and what it leaves. *)
Lemma rnd_pos_by_record_calls (h : handler E) : inited h = NONE → end_range h = 0 →
  ∃ r e l, rnd_pos_by_record dbug true h = Some (r, Hnd NONE (pre_inited h) (active_index h) 0 (keyread h) e (l ++ calls h)) ∧
    ((r ≠ 0 ∧ l = [Rnd_init false r]) ∨ l = [Rnd_end; Rnd_pos; Position; Rnd_init false 0]).
Proof.
  intros Hi Hr. unfold rnd_pos_by_record, ha_rnd_init, ha_rnd_end. rewrite Hi. simpl. rewrite !check_true by done. simpl.
  destruct (rnd_init false (engine h)) as [z e] eqn:E1. unfold truth. destruct (Z.eqb_spec z 0) as [->|Hz]; simpl.
  - destruct (ha_rnd_pos (position e)) as [y e1] eqn:E2. simpl. rewrite check_true by done. simpl. destruct (rnd_end e1) as [w e2] eqn:E3.
    simpl. exists y, e2, [Rnd_end; Rnd_pos; Position; Rnd_init false 0]. split; [done|by right].
  - exists z, e, [Rnd_init false z]. rewrite (proj2 (Z.eqb_neq z 0)) by done. simpl. split; [done|by left].
Qed.

Lemma rnd_pos_good b (h : handler E) : good h → legal (Op_rnd_pos_by_record b) (inited h) (pre_inited h) = true →
  ∃ r h', rnd_pos_by_record dbug b h = Some (r, h') ∧ good h'.
Proof.
  intros [Hh Hx Hr Hk He] Hl. simpl in Hl. apply andb_true_iff in Hl as [-> Hi%bool_decide_eq_true].
  destruct (rnd_pos_by_record_calls h Hi Hr) as (r & e & l & E1 & Hl). do 2 eexists. split; [exact E1|]. rewrite Hi in *.
  destruct Hl as [[Hz ->]| ->]; split; simpl; rewrite ?Hh; simpl; try done; rewrite ?(proj2 (Z.eqb_neq r 0)) by done; done.
Qed.


End Facts.


(** C37: [rnd_pos_by_record] opens a scan, stores the position, reads the row and
    closes the scan, also when the row is not found; it returns the error of the
    read.  When the scan cannot be opened it returns that error and does
    nothing else.  Afterwards no scan is open. *)
Theorem rnd_pos_by_record_closes {E} `{Engine E} dbug (h : handler E) : good h → inited h = NONE →
  ∃ r h', rnd_pos_by_record dbug true h = Some (r, h') ∧ inited h' = NONE ∧ good h' ∧
    let '(opened, e) := rnd_init false (engine h) in
    if opened =? 0 then r = (ha_rnd_pos (position e)).1 ∧ calls h' = [Rnd_end; Rnd_pos; Position; Rnd_init false 0] ++ calls h
    else r = opened ∧ calls h' = Rnd_init false opened :: calls h.
Proof.
  intros G Hi. destruct (rnd_pos_good dbug true h G) as (r & h' & E1 & G'); [simpl; by rewrite Hi|].
  exists r, h'. split; [done|]. destruct (rnd_pos_by_record_calls dbug h Hi (g_range _ G)) as (r' & e' & l' & E2 & Hl').
  rewrite E1 in E2. injection E2 as -> ->. split; [done|]. split; [done|].
  revert E1. unfold rnd_pos_by_record, ha_rnd_init, ha_rnd_end. rewrite Hi. simpl. rewrite !check_true by done. simpl.
  destruct (rnd_init false (engine h)) as [z e]. unfold truth. destruct (Z.eqb_spec z 0) as [->|Hz]; simpl.
  - destruct (ha_rnd_pos (position e)) as [y e1]. simpl. rewrite check_true by done. simpl.
    destruct (rnd_end e1) as [w e2]. simpl. intros [= -> _ Hc]. split; [done|]. by rewrite <- Hc.
  - rewrite (proj2 (Z.eqb_neq z 0)) by done. simpl. intros [= -> _ Hc]. split; [done|]. by rewrite <- Hc.
Qed.

(** An engine that returns the results of a list, then 0. *)
Definition next_result (l : list Z) : Z * list Z := (default 0 (head l), tail l).
#[export] Instance scripted : Engine (list Z) := {|
  index_init _ _ := next_result; index_end := next_result; rnd_init _ := next_result; rnd_end := next_result;
  pre_index_init _ _ := next_result; pre_index_end := next_result; pre_rnd_init _ := next_result; pre_rnd_end := next_result;
  extra_opt _ _ := next_result; extra _ := next_result; position e := e; ha_rnd_pos := next_result |}.
Lemma rnd_pos_by_record_closes_witness : ∃ r h', rnd_pos_by_record true true (create [0; 120; 0]) = Some (r, h') ∧ inited h' = NONE ∧ r = 120.
Proof.
  destruct (rnd_pos_by_record_closes true (create [0; 120; 0]) (create_good _) eq_refl) as (r & h' & H1 & H2 & _ & H3).
  exists r, h'. split; [exact H1|]. split; [exact H2|]. exact (proj1 H3).
Defined.

(** ** The row id filter *)

(** Disabling and enabling the filter gives it back, active or not, when it was not
    saved as active before; but the flag that says so is never cleared, so a
    filter that is pushed later and not yet active comes back active. *)
Theorem rowid_filter_sticky dbug p a : p ≠ 0 →
  (∃ f g, Rowid_filter.disable_pushed_rowid_filter dbug (Rowid_filter.Mk p a 0 false) = Some f ∧
     Rowid_filter.pushed_rowid_filter f = 0 ∧ Rowid_filter.rowid_filter_is_active f = false ∧
     Rowid_filter.enable_pushed_rowid_filter dbug f = Some g ∧ g = Rowid_filter.Mk p a 0 a) ∧
  ∃ f g, Rowid_filter.disable_pushed_rowid_filter dbug (Rowid_filter.Mk p false 0 true) = Some f ∧
    Rowid_filter.enable_pushed_rowid_filter dbug f = Some g ∧ Rowid_filter.rowid_filter_is_active g = true.
Proof.
  intros Hp. unfold Rowid_filter.disable_pushed_rowid_filter, Rowid_filter.enable_pushed_rowid_filter. simpl.
  rewrite (proj2 (Z.eqb_neq p 0)) by done. simpl. rewrite andb_false_r. split.
  - do 2 eexists. split; [done|]. simpl. rewrite (proj2 (Z.eqb_neq p 0)) by done. rewrite andb_false_r. by destruct a.
  - do 2 eexists. split; [done|]. simpl. rewrite (proj2 (Z.eqb_neq p 0)) by done. rewrite andb_false_r. done.
Qed.

(** The errors a statement may go on after, by the checks it asks for. *)
Theorem is_fatal_error_cases e flags : is_fatal_error e flags = false ↔
  e = 0 ∨ e = HA_ERR_AUTOINC_ERANGE ∨
  (truth (Z.land flags HA_CHECK_DUP_KEY) = true ∧ (e = HA_ERR_FOUND_DUPP_KEY ∨ e = HA_ERR_FOUND_DUPP_UNIQUE)) ∨
  (truth (Z.land flags HA_CHECK_FK_ERROR) = true ∧ (e = HA_ERR_ROW_IS_REFERENCED ∨ e = HA_ERR_NO_REFERENCED_ROW)).
Proof.
  unfold is_fatal_error, truth, HA_ERR_FOUND_DUPP_KEY, HA_ERR_FOUND_DUPP_UNIQUE, HA_ERR_AUTOINC_ERANGE, HA_ERR_ROW_IS_REFERENCED, HA_ERR_NO_REFERENCED_ROW.
  generalize (Z.land flags HA_CHECK_DUP_KEY) as d, (Z.land flags HA_CHECK_FK_ERROR) as r. intros d r. zcases; simpl; split; intros H; try discriminate; try done; naive_solver lia.
Qed.
