(* ===== verification/Transaction.v ===== *)
(** [handler.h]: the identifiers of distributed transactions ([struct xid_t]), the
    engines of a transaction ([THD_TRANS], [Ha_trx_info]); [sql_class.h]: what a
    statement leaves in its transaction, and the time a connection may be idle. *)
From S2P Require Import Prelude CMonad.

(** ** [struct xid_t] *)

Module Xid.
Definition XIDDATASIZE : Z := 128.
(** "MySQLXid" *)
Definition MYSQL_XID_PREFIX : list Z := [77; 121; 83; 81; 76; 88; 105; 100].
Definition MYSQL_XID_PREFIX_LEN : Z := 8.

Record xid_t := Xid { formatID : Z; gtrid_length : Z; bqual_length : Z; data : list Z }.

(** [memcpy(data + off, src, n)] and [memcmp] for equality of [n] bytes; a negative
    size is a huge one. *)
Definition copy_in (T : list Z) (off : Z) (src : list Z) (n : Z) : option (list Z) :=
  if bool_decide (0 ≤ off ∧ 0 ≤ n ≤ Z.of_nat (length src) ∧ off + n ≤ Z.of_nat (length T))
  then Some (take (Z.to_nat off) T ++ take (Z.to_nat n) src ++ drop (Z.to_nat (off + n)) T) else None.
Definition same_bytes (a b : list Z) (n : Z) : option bool :=
  if bool_decide (0 ≤ n ≤ Z.of_nat (length a) ∧ n ≤ Z.of_nat (length b))
  then Some (bool_decide (take (Z.to_nat n) a = take (Z.to_nat n) b)) else None.

Definition is_null (x : xid_t) : bool := formatID x =? -1.
Definition null (x : xid_t) : xid_t := Xid (-1) (gtrid_length x) (bqual_length x) (data x).
Definition eq_parts (g b : Z) (d : list Z) (x : xid_t) : option bool :=
  if negb (is_null x) && (g =? gtrid_length x) && (b =? bqual_length x) then same_bytes d (data x) (g + b) else Some false.
Definition eq (xid x : xid_t) : option bool :=
  if negb (is_null xid) then eq_parts (gtrid_length xid) (bqual_length xid) (data xid) x else Some false.

Section Width.
(** The bytes of a [long], which is also the type of [server_id]. *)
Context (w : nat).

Definition MYSQL_XID_OFFSET : Z := MYSQL_XID_PREFIX_LEN + Z.of_nat w.
Definition MYSQL_XID_GTRID_LEN : Z := MYSQL_XID_OFFSET + 8.

Definition key_length (x : xid_t) : Z := to_uint32 (Z.of_nat w + Z.of_nat w + gtrid_length x + bqual_length x).
Definition length_of (x : xid_t) : Z := to_uint32 (Z.of_nat w + key_length x).
(** The first [length_of] bytes of the object: the three numbers and as many bytes
    of the data as are left. *)
Definition set_copy (xid x : xid_t) : option xid_t :=
  d ← copy_in (data x) 0 (data xid) (length_of xid - 3 * Z.of_nat w);
  Some (Xid (formatID xid) (gtrid_length xid) (bqual_length xid) d).
Definition set_strings (f : Z) (g : list Z) (gl : Z) (b : list Z) (bl : Z) (x : xid_t) : option xid_t :=
  d ← (if truth gl then copy_in (data x) 0 g gl else Some (data x));
  d ← (if truth bl then copy_in d gl b bl else Some d);
  Some (Xid f gl bl d).
Definition set_parts (g b : Z) (d : list Z) (x : xid_t) : option xid_t :=
  t ← copy_in (data x) 0 d (g + b); Some (Xid 1 g b t).
Definition set_my_xid (xid trx_server_id : Z) (x : xid_t) : option xid_t :=
  x ← set_parts MYSQL_XID_PREFIX_LEN 0 MYSQL_XID_PREFIX x;
  d ← store_le w (data x) (Z.to_nat MYSQL_XID_PREFIX_LEN) trx_server_id;
  d ← store_le 8 d (Z.to_nat MYSQL_XID_OFFSET) xid;
  Some (Xid (formatID x) MYSQL_XID_GTRID_LEN (bqual_length x) d).
Definition quick_get_my_xid (x : xid_t) : option Z := load_le 8 (data x) (Z.to_nat MYSQL_XID_OFFSET).
Definition get_my_xid (x : xid_t) : option Z :=
  if (gtrid_length x =? MYSQL_XID_GTRID_LEN) && (bqual_length x =? 0) then
    s ← same_bytes (data x) MYSQL_XID_PREFIX MYSQL_XID_PREFIX_LEN;
    if s : bool then quick_get_my_xid x else Some 0
  else Some 0.
Definition get_trx_server_id (x : xid_t) : option Z := load_le w (data x) (Z.to_nat MYSQL_XID_PREFIX_LEN).
End Width.

(** *** Specification *)

(** The two strings of an identifier. *)
Definition gtrid (x : xid_t) : list Z := take (Z.to_nat (gtrid_length x)) (data x).
Definition bqual (x : xid_t) : list Z := take (Z.to_nat (bqual_length x)) (drop (Z.to_nat (gtrid_length x)) (data x)).
Definition valid (x : xid_t) : Prop :=
  length (data x) = 128%nat ∧ 0 ≤ gtrid_length x ∧ 0 ≤ bqual_length x ∧ gtrid_length x + bqual_length x ≤ 128.
End Xid.

(** ** [THD_TRANS] and [Ha_trx_info] *)

Module Trans.
Definition MODIFIED_NON_TRANS_TABLE : Z := 1.
Definition CREATED_TEMP_TABLE : Z := 2.
Definition DROPPED_TEMP_TABLE : Z := 4.
Definition DID_WAIT : Z := 8.
Definition DID_DDL : Z := 0x10.
Definition EXECUTED_TABLE_ADMIN_CMD : Z := 0x20.

(** [ha_list] is the address of an [Ha_trx_info]. *)
Record THD_TRANS := Tr { no_2pc : bool; ha_list : Z; modified_non_trans_table : bool; m_unsafe_rollback_flags : Z }.
Definition reset (t : THD_TRANS) : THD_TRANS := Tr false (ha_list t) false 0.
Definition is_empty (t : THD_TRANS) : bool := ha_list t =? 0.
Definition mark (flag : Z) (t : THD_TRANS) : THD_TRANS :=
  Tr (no_2pc t) (ha_list t) (modified_non_trans_table t) (Z.lor (m_unsafe_rollback_flags t) flag).
Definition has (flag : Z) (t : THD_TRANS) : bool := truth (Z.land (m_unsafe_rollback_flags t) flag).
Definition mark_modified_non_trans_temp_table : THD_TRANS → THD_TRANS := mark MODIFIED_NON_TRANS_TABLE.
Definition has_modified_non_trans_temp_table : THD_TRANS → bool := has MODIFIED_NON_TRANS_TABLE.
Definition mark_executed_table_admin_cmd : THD_TRANS → THD_TRANS := mark EXECUTED_TABLE_ADMIN_CMD.
Definition trans_executed_admin_cmd : THD_TRANS → bool := has EXECUTED_TABLE_ADMIN_CMD.
Definition mark_created_temp_table : THD_TRANS → THD_TRANS := mark CREATED_TEMP_TABLE.
Definition mark_dropped_temp_table : THD_TRANS → THD_TRANS := mark DROPPED_TEMP_TABLE.
Definition has_created_dropped_temp_table : THD_TRANS → bool := has (Z.lor CREATED_TEMP_TABLE DROPPED_TEMP_TABLE).
Definition mark_trans_did_wait : THD_TRANS → THD_TRANS := mark DID_WAIT.
Definition trans_did_wait : THD_TRANS → bool := has DID_WAIT.
Definition mark_trans_did_ddl : THD_TRANS → THD_TRANS := mark DID_DDL.
Definition trans_did_ddl : THD_TRANS → bool := has DID_DDL.

(** The flags of the statement that outlive it, and [THD::merge_unsafe_rollback_flags]
    on the pair of the statement's and the transaction's members. *)
Definition merged_flags : Z :=
  Z.lor (Z.lor (Z.lor (Z.lor (Z.lor MODIFIED_NON_TRANS_TABLE DID_WAIT) CREATED_TEMP_TABLE) DROPPED_TEMP_TABLE) DID_DDL) EXECUTED_TABLE_ADMIN_CMD.
Definition merge_unsafe_rollback_flags (stmt all : THD_TRANS) : THD_TRANS :=
  Tr (no_2pc all) (ha_list all) (if modified_non_trans_table stmt then true else modified_non_trans_table all)
    (Z.lor (m_unsafe_rollback_flags all) (Z.land (m_unsafe_rollback_flags stmt) merged_flags)).

(** [THD::get_net_wait_timeout]: the four variables, whether the connection is in
    a transaction of several statements, and whether that wrote. *)
Definition get_net_wait_timeout (in_active is_trx_read_write : bool)
    (idle_write idle_readonly idle_transaction net_wait_timeout : Z) : Z :=
  if in_active then
    if is_trx_read_write then
      if 0 <? idle_write then idle_write else if 0 <? idle_transaction then idle_transaction else net_wait_timeout
    else
      if 0 <? idle_readonly then idle_readonly else if 0 <? idle_transaction then idle_transaction else net_wait_timeout
  else net_wait_timeout.

Definition TRX_READ_WRITE : Z := 1.
Record Ha_trx_info := Info { m_next : Z; m_ht : Z; m_flags : Z }.
Record mem := Mem { infos : gmap Z Ha_trx_info; trans : THD_TRANS }.

Definition get (this : Z) : M mem Ha_trx_info := gets_opt (λ m, infos m !! this).
Definition put (this : Z) (i : Ha_trx_info) : M mem unit := modify (λ m, Mem (<[this := i]> (infos m)) (trans m)).

Section Code.
Context (dbug : bool).
Definition started (i : Ha_trx_info) : bool := negb (m_ht i =? 0).
Definition info_reset (this : Z) : M mem unit := put this (Info 0 0 0).
Definition info_is_trx_read_write (this : Z) : M mem bool :=
  i <- get this ;;
  assert_that (negb dbug || started i) ;;
  ret (truth (Z.land (m_flags i) TRX_READ_WRITE)).
Definition info_next (this : Z) : M mem Z :=
  i <- get this ;; assert_that (negb dbug || started i) ;; ret (m_next i).
(** [THD_TRANS::is_trx_read_write]. *)
Fixpoint rw_loop (fuel : nat) (ha_info : Z) : M mem bool :=
  match fuel with
  | O => ub
  | S fuel =>
      if ha_info =? 0 then ret false else
      b <- info_is_trx_read_write ha_info ;;
      if b : bool then ret true else n <- info_next ha_info ;; rw_loop fuel n
  end.
Definition is_trx_read_write (fuel : nat) : M mem bool := t <- gets trans ;; rw_loop fuel (ha_list t).
End Code.

(** *** Specification *)

End Trans.

(** * Theorems *)

Module XidFacts.
Import Xid.
Lemma copy_in_ok T off src n : 0 ≤ off → 0 ≤ n ≤ Z.of_nat (length src) → off + n ≤ Z.of_nat (length T) →
  copy_in T off src n = Some (take (Z.to_nat off) T ++ take (Z.to_nat n) src ++ drop (Z.to_nat (off + n)) T) ∧
  length (take (Z.to_nat off) T ++ take (Z.to_nat n) src ++ drop (Z.to_nat (off + n)) T) = length T.
Proof.
  intros Ho Hn Hl. unfold copy_in. rewrite bool_decide_eq_true_2 by lia. split; [done|].
  rewrite !length_app, !length_take, length_drop. lia.
Qed.
Lemma same_bytes_ok a b n : 0 ≤ n ≤ Z.of_nat (length a) → n ≤ Z.of_nat (length b) →
  same_bytes a b n = Some (bool_decide (take (Z.to_nat n) a = take (Z.to_nat n) b)).
Proof. intros. unfold same_bytes. by rewrite bool_decide_eq_true_2 by lia. Qed.
(** The strings, and the bytes that hold both. *)
Lemma strings_take x : valid x → take (Z.to_nat (gtrid_length x + bqual_length x)) (data x) = gtrid x ++ bqual x.
Proof.
  intros (Hl & Hg & Hb & Hs). unfold gtrid, bqual. rewrite Z2Nat.inj_add by done. by rewrite take_take_drop.
Qed.
Lemma length_gtrid x : valid x → length (gtrid x) = Z.to_nat (gtrid_length x).
Proof. intros (Hl & Hg & Hb & Hs). unfold gtrid. rewrite length_take. lia. Qed.
Lemma length_bqual x : valid x → length (bqual x) = Z.to_nat (bqual_length x).
Proof. intros (Hl & Hg & Hb & Hs). unfold bqual. rewrite length_take, length_drop. lia. Qed.
Lemma eq_strings x y : valid x → valid y → 
  eq x y = Some (bool_decide (is_null x = false ∧ is_null y = false ∧ gtrid x = gtrid y ∧ bqual x = bqual y)).
Proof.
  intros Hx Hy. pose proof (length_gtrid x Hx). pose proof (length_gtrid y Hy). pose proof (length_bqual x Hx). pose proof (length_bqual y Hy).
  pose proof Hx as (Hlx & Hgx & Hbx & Hsx). pose proof Hy as (Hly & Hgy & Hby & Hsy).
  unfold eq, eq_parts. destruct (is_null x); cbn [negb andb]; [by rewrite bool_decide_eq_false_2 by naive_solver|].
  destruct (is_null y); cbn [negb andb]; [by rewrite bool_decide_eq_false_2 by naive_solver|].
  destruct (Z.eqb_spec (gtrid_length x) (gtrid_length y)) as [Eg|Eg]; cbn [andb];
    [|rewrite bool_decide_eq_false_2; [done|intros (_ & _ & E & _); apply Eg; apply (f_equal length) in E; lia]].
  destruct (Z.eqb_spec (bqual_length x) (bqual_length y)) as [Eb|Eb]; cbn [andb];
    [|rewrite bool_decide_eq_false_2; [done|intros (_ & _ & _ & E); apply Eb; apply (f_equal length) in E; lia]].
  rewrite same_bytes_ok by lia. f_equal. apply bool_decide_ext.
  rewrite strings_take by done. rewrite Eg, Eb, strings_take by done. split.
  - intros E. apply app_inj_1 in E as [E1 E2]; [done|]. congruence.
  - by intros (_ & _ & -> & ->).
Qed.
Lemma set_strings_ok f g b x : length (data x) = 128%nat → (length g + length b ≤ 128)%nat →
  ∃ y, set_strings f g (Z.of_nat (length g)) b (Z.of_nat (length b)) x = Some y ∧ valid y ∧ formatID y = f ∧ gtrid y = g ∧ bqual y = b.
Proof.
  intros Hl Hs. unfold set_strings.
  assert (∀ T off src, length T = 128%nat → 0 ≤ off → off + Z.of_nat (length src) ≤ 128 →
    (if truth (Z.of_nat (length src)) then copy_in T off src (Z.of_nat (length src)) else Some T)
    = Some (take (Z.to_nat off) T ++ src ++ drop (Z.to_nat off + length src) T)) as Hc.
  { intros T off src HT Ho Hb. destruct src as [|c src].
    - simpl. by rewrite Nat.add_0_r, take_drop.
    - rewrite (proj2 (truth_true _)) by (rewrite length_cons; lia). rewrite (proj1 (copy_in_ok T off (c :: src) (Z.of_nat (length (c :: src))) ltac:(done) ltac:(lia) ltac:(lia))).
      rewrite Nat2Z.id, Z2Nat.inj_add, Nat2Z.id, (take_ge (c :: src)) by lia. done. }
  rewrite Hc by (simpl; lia). simpl. rewrite Hc by (rewrite ?length_app, ?length_drop; lia). simpl.
  eexists. split; [done|]. rewrite Nat2Z.id. unfold valid, gtrid, bqual. simpl. rewrite !Nat2Z.id.
  rewrite take_app_length. split_and!; try done; try lia.
  - rewrite !length_app, length_drop, length_app, length_drop. lia.
  - by rewrite take_app_length' by done.
  - rewrite drop_app_length' by done. by rewrite take_app_length' by done.
Qed.
(** A load below a store. *)
Lemma load_le_take n off k T T' : (off + n ≤ k)%nat → (k ≤ length T)%nat → length T' = length T → take k T' = take k T →
  load_le n T' off = load_le n T off.
Proof.
  intros Hk Hl Hl' E. unfold load_le. rewrite Hl'. rewrite !decide_True by lia. do 2 f_equal.
  assert (∀ A : list Z, (k ≤ length A)%nat → take n (drop off A) = take n (drop off (take k A))) as Ht.
  { intros A HA. rewrite !take_drop_commute, take_take. do 2 f_equal. lia. }
  rewrite (Ht T'), (Ht T), E by lia. done.
Qed.
Lemma set_my_ok w xid sid x : (w ≤ 8)%nat → length (data x) = 128%nat → in_u 64 xid → in_u (8 * Z.of_nat w) sid →
  ∃ y, set_my_xid w xid sid x = Some y ∧ formatID y = 1 ∧ valid y ∧ get_my_xid w y = Some xid ∧ get_trx_server_id w y = Some sid ∧
    quick_get_my_xid w y = Some xid ∧ bqual y = [] ∧ length (gtrid y) = (16 + w)%nat.
Proof.
  intros Hw Hl Hx Hs. unfold set_my_xid, set_parts, MYSQL_XID_PREFIX_LEN.
  destruct (copy_in_ok (data x) 0 MYSQL_XID_PREFIX (8 + 0)) as [E1 L1]; [done|simpl; lia|lia|].
  rewrite E1. cbn [mbind option_bind data formatID gtrid_length bqual_length].
  set (d1 := _ ++ _ ++ drop (Z.to_nat (0 + (8 + 0))) (data x)) in *. rewrite Hl in L1.
  change (Z.to_nat 8) with 8%nat. unfold MYSQL_XID_OFFSET, MYSQL_XID_PREFIX_LEN.
  replace (Z.to_nat (8 + Z.of_nat w)) with (8 + w)%nat by lia.
  assert (∃ d2, store_le w d1 8 sid = Some d2) as [d2 E2] by (unfold store_le; rewrite decide_True by lia; by eexists).
  destruct (load_store_le _ _ _ _ _ E2) as (R2 & L2 & T2 & D2).
  assert (∃ d3, store_le 8 d2 (8 + w) xid = Some d3) as [d3 E3] by (unfold store_le; rewrite decide_True by lia; by eexists).
  destruct (load_store_le _ _ _ _ _ E3) as (R3 & L3 & T3 & D3).
  rewrite E2. cbn [mbind option_bind]. rewrite E3. cbn [mbind option_bind].
  assert (take 8 d3 = MYSQL_XID_PREFIX) as Hp.
  { replace (take 8 d3) with (take 8 (take (8 + w) d3)) by (rewrite take_take; f_equal; lia).
    rewrite T3, take_take, Nat.min_l, T2 by lia. unfold d1. simpl. by rewrite take_0. }
  change (8 * Z.of_nat 8) with 64 in R3. rewrite wrap_id in R3 by done. rewrite wrap_id in R2 by done.
  eexists. split; [done|]. unfold MYSQL_XID_GTRID_LEN, MYSQL_XID_OFFSET, MYSQL_XID_PREFIX_LEN.
  unfold valid, quick_get_my_xid, get_trx_server_id, bqual, gtrid, MYSQL_XID_OFFSET, MYSQL_XID_PREFIX_LEN.
  cbn [formatID gtrid_length bqual_length data]. replace (Z.to_nat (8 + Z.of_nat w)) with (8 + w)%nat by lia.
  replace (Z.to_nat (8 + Z.of_nat w + 8)) with (16 + w)%nat by lia.
  split; [done|]. split; [lia|]. split.
  { unfold get_my_xid, quick_get_my_xid, MYSQL_XID_GTRID_LEN, MYSQL_XID_OFFSET, MYSQL_XID_PREFIX_LEN.
    cbn [formatID gtrid_length bqual_length data]. rewrite Z.eqb_refl. cbn [andb Z.eqb].
    rewrite same_bytes_ok by (simpl; lia). cbn [mbind option_bind]. change (Z.to_nat 8) with 8%nat.
    rewrite Hp, bool_decide_eq_true_2 by done. replace (Z.to_nat (8 + Z.of_nat w)) with (8 + w)%nat by lia. done. }
  change (Z.to_nat 8) with 8%nat. split; [by rewrite (load_le_take w 8 (8 + w) d2 d3) by (lia || done)|]. split; [done|]. split; [done|].
  rewrite length_take. lia.
Qed.
End XidFacts.

(** C26: identifiers of distributed transactions.  Setting the two strings stores
    them; an identifier is equal to another exactly when neither is null and both
    strings are the same, whatever the format; a copy has the format and the
    strings.  An identifier made from a transaction number and a server gives
    both back, and only identifiers that start with the prefix and have no second
    string give a number other than 0. *)
Theorem xid_identity w x y : (w = 4 ∨ w = 8)%nat → Xid.valid x → Xid.valid y →
  Xid.eq x y = Some (bool_decide (Xid.is_null x = false ∧ Xid.is_null y = false ∧ Xid.gtrid x = Xid.gtrid y ∧ Xid.bqual x = Xid.bqual y)) ∧
  (∀ f g b, (length g + length b ≤ 128)%nat → ∃ z, Xid.set_strings f g (Z.of_nat (length g)) b (Z.of_nat (length b)) x = Some z ∧
     Xid.valid z ∧ Xid.formatID z = f ∧ Xid.gtrid z = g ∧ Xid.bqual z = b) ∧
  (∃ z, Xid.set_copy w y x = Some z ∧ Xid.valid z ∧ Xid.formatID z = Xid.formatID y ∧ Xid.gtrid z = Xid.gtrid y ∧ Xid.bqual z = Xid.bqual y) ∧
  (∀ xid sid, in_u 64 xid → in_u (8 * Z.of_nat w) sid → ∃ z, Xid.set_my_xid w xid sid x = Some z ∧ Xid.valid z ∧ Xid.is_null z = false ∧
     Xid.get_my_xid w z = Some xid ∧ Xid.get_trx_server_id w z = Some sid) ∧
  ∃ n, Xid.get_my_xid w x = Some n ∧ (n ≠ 0 → Xid.bqual x = [] ∧ take 8 (Xid.gtrid x) = Xid.MYSQL_XID_PREFIX ∧ length (Xid.gtrid x) = (16 + w)%nat).
Proof.
  intros Hw Hx Hy. split; [by apply XidFacts.eq_strings|].
  pose proof Hx as (Hl & Hg & Hb & Hs). pose proof Hy as (Hl' & Hg' & Hb' & Hs'). split; [|split; [|split]].
  - intros f g b. by apply XidFacts.set_strings_ok.
  - assert (Xid.length_of w y - 3 * Z.of_nat w = Xid.gtrid_length y + Xid.bqual_length y) as E.
    { unfold Xid.length_of, Xid.key_length, to_uint32. rewrite (wrap_id 32 (_ + _ + _ + _)) by (unfold in_u; lia).
      rewrite wrap_id by (unfold in_u; lia). lia. }
    unfold Xid.set_copy. rewrite E.
    destruct (XidFacts.copy_in_ok (Xid.data x) 0 (Xid.data y) (Xid.gtrid_length y + Xid.bqual_length y)) as [E1 L1]; [done|lia|lia|].
    rewrite E1. simpl. eexists. split; [done|]. rewrite Hl in L1.
    rewrite XidFacts.strings_take in * by done. rewrite <- app_assoc in *.
    pose proof (XidFacts.length_gtrid y Hy) as Lg. pose proof (XidFacts.length_bqual y Hy) as Lb.
    split; [by split|]. split; [done|]. split.
    + unfold Xid.gtrid at 1. cbn [Xid.gtrid_length Xid.data]. by rewrite take_app_length' by done.
    + unfold Xid.bqual at 1. cbn [Xid.gtrid_length Xid.bqual_length Xid.data].
      rewrite drop_app_length' by done. by rewrite take_app_length' by done.
  - intros xid sid Hxid Hsid. destruct (XidFacts.set_my_ok w xid sid x) as (z & E & Hf & Hv & H1 & H2 & _); [lia|done..|].
    exists z. split_and!; try done. unfold Xid.is_null. by rewrite Hf.
  - unfold Xid.get_my_xid, Xid.MYSQL_XID_GTRID_LEN, Xid.MYSQL_XID_OFFSET, Xid.MYSQL_XID_PREFIX_LEN.
    destruct (Z.eqb_spec (Xid.gtrid_length x) (8 + Z.of_nat w + 8)) as [Eg|Eg]; cbn [andb]; [|by exists 0].
    destruct (Z.eqb_spec (Xid.bqual_length x) 0) as [Eb|Eb]; [|by exists 0].
    rewrite XidFacts.same_bytes_ok by (simpl; lia). cbn [mbind option_bind]. case_bool_decide as Ep; [|by exists 0].
    assert (∃ n, Xid.quick_get_my_xid w x = Some n) as [n En].
    { unfold Xid.quick_get_my_xid, load_le, Xid.MYSQL_XID_OFFSET, Xid.MYSQL_XID_PREFIX_LEN. rewrite decide_True by lia. by eexists. }
    exists n. split; [done|]. intros _. split; [|split].
    + unfold Xid.bqual. by rewrite Eb.
    + unfold Xid.gtrid. rewrite take_take, Nat.min_l by lia. exact Ep.
    + rewrite XidFacts.length_gtrid by done. lia.
Qed.
Lemma xid_identity_witness : ∃ z, Xid.set_my_xid 8 77 3 (Xid.Xid (-1) 0 0 (replicate 128 0)) = Some z ∧ Xid.get_my_xid 8 z = Some 77.
Proof.
  assert (Xid.valid (Xid.Xid (-1) 0 0 (replicate 128 0))) as V by (unfold Xid.valid; simpl; lia).
  destruct (xid_identity 8 _ _ ltac:(by right) V V) as (_ & _ & _ & H & _).
  destruct (H 77 3) as (z & E & _ & _ & G & _); [unfold in_u; lia|unfold in_u; lia|]. exists z. split; [exact E|exact G].
Defined.

Module TransFacts.
Import Trans.
End TransFacts.


(** What a statement did that cannot be rolled back stays with the transaction:
    after the merge each of the six kinds is set when it was for either, and so is
    the use of a table without transactions; nothing of the transaction is lost. *)
Theorem merge_flags_union stmt all k : In k [Trans.MODIFIED_NON_TRANS_TABLE; Trans.CREATED_TEMP_TABLE; Trans.DROPPED_TEMP_TABLE; Trans.DID_WAIT; Trans.DID_DDL; Trans.EXECUTED_TABLE_ADMIN_CMD] →
  Trans.has k (Trans.merge_unsafe_rollback_flags stmt all) = Trans.has k all || Trans.has k stmt ∧
  Trans.modified_non_trans_table (Trans.merge_unsafe_rollback_flags stmt all) = Trans.modified_non_trans_table stmt || Trans.modified_non_trans_table all ∧
  Trans.has k (Trans.mark k all) = true ∧ Trans.has k (Trans.reset all) = false.
Proof.
  intros Hk. assert (∃ i, 0 ≤ i < 6 ∧ k = 2 ^ i) as (i & Hi & ->).
  { simpl in Hk. unfold Trans.MODIFIED_NON_TRANS_TABLE, Trans.CREATED_TEMP_TABLE, Trans.DROPPED_TEMP_TABLE, Trans.DID_WAIT, Trans.DID_DDL, Trans.EXECUTED_TABLE_ADMIN_CMD in Hk.
    repeat destruct Hk as [<-|Hk]; [exists 0|exists 1|exists 2|exists 3|exists 4|exists 5|done]; split; (lia || done). }
  unfold Trans.has, Trans.merge_unsafe_rollback_flags, Trans.mark, Trans.reset. simpl. rewrite !truth_land_pow2, Z.testbit_0_l by lia.
  rewrite !Z.lor_spec, Z.land_spec, Z.pow2_bits_true by lia. change Trans.merged_flags with (Z.ones 6).
  rewrite Z.testbit_ones_nonneg by lia. rewrite (proj2 (Z.ltb_lt i 6)), andb_true_r, orb_true_r by lia.
  by destruct (Trans.modified_non_trans_table stmt).
Qed.

(** The time a connection may be idle is the first that is set among those that
    apply to it, and otherwise that of the network. *)
Theorem net_wait_timeout_first in_active rw a b c d :
  Trans.get_net_wait_timeout in_active rw a b c d =
  default d (head (filter (λ x, 0 < x) (if in_active then [if rw : bool then a else b; c] else []))).
Proof.
  unfold Trans.get_net_wait_timeout. destruct in_active, rw; simpl; rewrite ?filter_cons; zcases; simpl;
    repeat (rewrite ?decide_True, ?decide_False by lia; simpl); rewrite ?filter_cons; repeat case_decide; simpl; try done; lia.
Qed.
