(* ===== verification/Names.v ===== *)
(** Names of database objects: [mdl.h], the keys of metadata locks
    ([struct MDL_key]); [sql_class.h], qualified names
    ([class Database_qualified_name]) and [THD::quote_unescape]. *)
From S2P Require Import Prelude.

(** A C string is the list of its bytes before the terminator. *)
Definition c_string (s : list Z) : Prop := Forall (λ c, 0 < c < 256) s.

(** [strmake] of the string library copies at most [n] bytes and a terminator, and
    returns the place of the terminator. *)
Class Strmake := strmake : list Z → nat → list Z → nat → option (list Z * nat).
Class StrmakeLaws `{Strmake} := strmake_ok dst pos src n : c_string src → (pos + length (take n src) < length dst)%nat →
  strmake dst pos src n =
  Some (take pos dst ++ take n src ++ [0] ++ drop (pos + length (take n src) + 1) dst, (pos + length (take n src))%nat).

(** [memcmp] of the first [n] bytes: only the sign of its result is defined. *)
Fixpoint bytes_cmp (a b : list Z) : comparison :=
  match a, b with
  | x :: a, y :: b => match x ?= y with Eq => bytes_cmp a b | c => c end
  | _, _ => Eq
  end.
Definition memcmp (a b : list Z) (n : nat) : option comparison :=
  if bool_decide (n ≤ length a ∧ n ≤ length b)%nat then Some (bytes_cmp (take n a) (take n b)) else None.

(** ** [struct MDL_key] *)

Module Mdl.
Definition NAME_LEN : nat := 192.
Definition MAX_MDLKEY_LENGTH : nat := 1 + NAME_LEN + 1 + NAME_LEN + 1.

Inductive enum_mdl_namespace := BACKUP | SCHEMA | TABLE | FUNCTION | PROCEDURE | PACKAGE_BODY | TRIGGER | EVENT | USER_LOCK.
#[global] Instance namespace_eq_dec : EqDecision enum_mdl_namespace.
Proof. solve_decision. Defined.
Definition code (ns : enum_mdl_namespace) : Z :=
  match ns with
  | BACKUP => 0 | SCHEMA => 1 | TABLE => 2 | FUNCTION => 3 | PROCEDURE => 4 | PACKAGE_BODY => 5 | TRIGGER => 6 | EVENT => 7 | USER_LOCK => 8
  end.

Record MDL_key := Key { m_length : Z; m_db_name_length : Z; m_hash_value : Z; m_ptr : list Z }.

Section Code.
Context `{Strmake} (my_hash_sort : list Z → Z) (dbug : bool).

Definition mdl_key_init (ns : enum_mdl_namespace) (db name_arg : list Z) (k : MDL_key) : option MDL_key :=
  p ← poke (m_ptr k) 0 (uchar (code ns));
  if dbug && negb ((length db <=? NAME_LEN)%nat && (length name_arg <=? NAME_LEN)%nat) then None else
  r ← strmake p 1 db NAME_LEN;
  let '(p, e) := r in
  let dbl := to_uint16 (Z.of_nat e - 1) in
  r ← strmake p (Z.to_nat (dbl + 2)) name_arg NAME_LEN;
  let '(p, e) := r in
  let len := to_uint16 (Z.of_nat e + 1) in
  Some (Key len dbl (my_hash_sort (take (Z.to_nat (len - 1)) (drop 1 p))) p).

Definition mdl_key_copy (rhs k : MDL_key) : option MDL_key :=
  let n := Z.to_nat (m_length rhs) in
  if bool_decide (n ≤ length (m_ptr rhs) ∧ n ≤ length (m_ptr k))%nat
  then Some (Key (m_length rhs) (m_db_name_length rhs) (m_hash_value rhs) (take n (m_ptr rhs) ++ drop n (m_ptr k))) else None.

Definition ptr (k : MDL_key) : list Z := m_ptr k.
Definition length_of (k : MDL_key) : Z := m_length k.
(** A C string in the buffer: the bytes up to the terminator. *)
Fixpoint string_at (p : list Z) : list Z := match p with [] => [] | c :: p => if c =? 0 then [] else c :: string_at p end.
Definition db_name (k : MDL_key) : list Z := string_at (drop 1 (m_ptr k)).
Definition db_name_length (k : MDL_key) : Z := m_db_name_length k.
Definition name (k : MDL_key) : list Z := string_at (drop (Z.to_nat (m_db_name_length k + 2)) (m_ptr k)).
Definition name_length (k : MDL_key) : Z := to_uint32 (m_length k - m_db_name_length k - 3).
Definition mdl_namespace (k : MDL_key) : option Z := m_ptr k !! 0%nat.
Definition is_equal (k rhs : MDL_key) : option bool :=
  if m_length k =? m_length rhs then
    c ← memcmp (m_ptr k) (m_ptr rhs) (Z.to_nat (m_length k)); Some (match c with Eq => true | _ => false end)
  else Some false.
Definition cmp (k rhs : MDL_key) : option comparison :=
  memcmp (m_ptr k) (m_ptr rhs) (Z.to_nat (if m_length k <? m_length rhs then m_length k else m_length rhs)).
Definition hash_value (k : MDL_key) : option Z := n ← mdl_namespace k; Some (to_uint32 (m_hash_value k + n)).
Definition tc_hash_value (k : MDL_key) : Z := m_hash_value k.
End Code.

(** *** Specification *)

(** The bytes of a key. *)
Definition key_bytes (ns : enum_mdl_namespace) (db nm : list Z) : list Z := code ns :: db ++ 0 :: nm ++ [0].
Record rep (k : MDL_key) (ns : enum_mdl_namespace) (db nm : list Z) : Prop := {
  k_size : length (m_ptr k) = MAX_MDLKEY_LENGTH;
  k_db : c_string db;
  k_nm : c_string nm;
  k_fits : (length db ≤ NAME_LEN ∧ length nm ≤ NAME_LEN)%nat;
  k_dblen : m_db_name_length k = Z.of_nat (length db);
  k_len : m_length k = Z.of_nat (length (key_bytes ns db nm));
  k_bytes : take (length (key_bytes ns db nm)) (m_ptr k) = key_bytes ns db nm }.
End Mdl.

(** ** [class Database_qualified_name] *)

Module Qname.
(** "." *)
Definition dot : Z := 46.
Record t := Mk { m_db : list Z; m_name : list Z }.

(** [strchr] in a string and its terminator: the place of the first [c]. *)
Fixpoint strchr (s : list Z) (c : Z) : option nat :=
  match s with [] => None | x :: s => if x =? c then Some 0%nat else S <$> strchr s c end.

(** [cs] compares as the character set does; both arguments have a length. *)
Definition eq (strnncoll : list Z → list Z → Z) (other x : t) : bool :=
  bool_decide (length (m_db x) = length (m_db other)) && bool_decide (length (m_name x) = length (m_name other)) &&
  (strnncoll (m_db x) (m_db other) =? 0) && (strnncoll (m_name x) (m_name other) =? 0).

(** The text is a C string of its length. *)
Definition split (txt : list Z) : t :=
  match strchr txt dot with
  | None => Mk [] txt
  | Some dblen => Mk (take dblen txt) (take (length txt - dblen - 1) (drop (dblen + 1) txt))
  end.

(** [make_qname] on a memory root: [alloc] says whether it has memory; the result
    is whether it failed, and the text of the buffer before its terminator with
    the length that was stored. *)
Definition make_qname (alloc : bool) (x : t) : bool * option (list Z * nat) :=
  let dots := if bool_decide (length (m_db x) ≠ 0%nat) then 1%nat else 0%nat in
  let len := (length (m_db x) + dots + length (m_name x))%nat in
  if alloc then (false, Some (m_db x ++ take dots [dot] ++ m_name x, len)) else (true, None).
End Qname.

(** ** [THD::quote_unescape] *)

Section Unescape.
Context (quote : Z) (src : list Z).
(** The buffer has one byte more than the text. *)
Fixpoint unescape_loop (fuel tmp : nat) (to : list Z) : option (list Z) :=
  match fuel with
  | O => None
  | S fuel =>
      if (tmp <? length src)%nat then
        c ← src !! tmp;
        if (length to <? length src + 1)%nat then
          unescape_loop fuel (if (c =? quote)%Z then tmp + 2 else tmp + 1)%nat (to ++ [c])
        else None
      else if (length to <? length src + 1)%nat then Some to else None
  end.
(** The result is whether it failed, and the text. *)
Definition quote_unescape (alloc : bool) : option (bool * list Z) :=
  if alloc then r ← unescape_loop (S (length src)) 0 []; Some (false, r) else Some (true, []).
End Unescape.

(** *** Specification: every quote doubled. *)
Fixpoint escape (quote : Z) (s : list Z) : list Z :=
  match s with [] => [] | c :: s => if c =? quote then c :: c :: escape quote s else c :: escape quote s end.

(** * Theorems *)

(** ** Keys of metadata locks *)

Module MdlFacts.
Import Mdl.
(** The first terminator ends a string. *)
Lemma split_nul a b x y : c_string a → c_string b → a ++ 0 :: x = b ++ 0 :: y → a = b ∧ x = y.
Proof.
  intros Ha. revert b. induction Ha as [|c a Hc Ha IH]; intros b Hb E.
  - destruct Hb as [|d b Hd Hb]; simpl in E; [by injection E as ->|]. injection E as <- _. lia.
  - destruct Hb as [|d b Hd Hb]; simpl in E; [injection E as -> _; lia|]. injection E as -> E.
    by destruct (IH b Hb E) as [-> ->].
Qed.
Lemma string_at_app s x : c_string s → string_at (s ++ 0 :: x) = s.
Proof. induction 1 as [|c s Hc Hs IH]; [done|]. simpl. rewrite (proj2 (Z.eqb_neq c 0)) by lia. by rewrite IH. Qed.
Lemma code_inj n m : code n = code m → n = m.
Proof. by destruct n, m. Qed.
Lemma code_range n : 0 ≤ code n < 9.
Proof. destruct n; simpl; lia. Qed.
Lemma key_bytes_inj n1 d1 m1 n2 d2 m2 x : c_string d1 → c_string m1 → c_string d2 → c_string m2 →
  key_bytes n1 d1 m1 ++ x = key_bytes n2 d2 m2 → n1 = n2 ∧ d1 = d2 ∧ m1 = m2.
Proof.
  intros H1 H2 H3 H4 E. unfold key_bytes in E. rewrite <- !app_comm_cons in E. injection E as En E.
  rewrite <- app_assoc, <- app_comm_cons in E.
  apply split_nul in E as [-> E]; [|done..]. rewrite <- app_assoc in E. simpl in E.
  apply split_nul in E as [-> _]; [|done..]. split; [by apply code_inj|done].
Qed.
Lemma length_key_bytes n d m : length (key_bytes n d m) = (length d + length m + 3)%nat.
Proof. unfold key_bytes. simpl. rewrite length_app. simpl. rewrite length_app. simpl. lia. Qed.
Lemma rep_key_bytes k n d m : rep k n d m → ∃ r, m_ptr k = key_bytes n d m ++ r.
Proof. intros R. exists (drop (length (key_bytes n d m)) (m_ptr k)). rewrite <- (k_bytes _ _ _ _ R) at 1. by rewrite take_drop. Qed.

Lemma bytes_cmp_refl a : bytes_cmp a a = Eq.
Proof. induction a as [|x a IH]; [done|]. simpl. by rewrite Z.compare_refl. Qed.
Lemma bytes_cmp_eq a b : length a = length b → bytes_cmp a b = Eq ↔ a = b.
Proof.
  revert b. induction a as [|x a IH]; intros [|y b] Hl; simpl in *; try (by split); try lia. split.
  - destruct (Z.compare_spec x y) as [->|Hc|Hc]; try discriminate. intros H. f_equal. apply IH; [lia|done].
  - intros [= -> ->]. rewrite Z.compare_refl. by apply IH.
Qed.
Lemma bytes_cmp_opp a b : bytes_cmp b a = CompOpp (bytes_cmp a b).
Proof.
  revert b. induction a as [|x a IH]; intros [|y b]; simpl; try done. rewrite (Z.compare_antisym x y).
  destruct (x ?= y); simpl; [by rewrite IH|done|done].
Qed.

Section Init.
Context `{SL : StrmakeLaws} (my_hash_sort : list Z → Z).
Lemma init_rep dbug ns db nm k : c_string db → c_string nm → (length db ≤ NAME_LEN)%nat → (length nm ≤ NAME_LEN)%nat →
  length (m_ptr k) = MAX_MDLKEY_LENGTH →
  ∃ k', mdl_key_init my_hash_sort dbug ns db nm k = Some k' ∧ rep k' ns db nm ∧
    tc_hash_value k' = my_hash_sort (db ++ 0 :: nm ++ [0]).
Proof.
  intros Hdb Hnm Hld Hln Hk. unfold mdl_key_init. pose proof (code_range ns) as Hc.
  unfold NAME_LEN, MAX_MDLKEY_LENGTH in *. destruct (m_ptr k) as [|c0 p0] eqn:Ep; [simpl in Hk; lia|]. simpl in Hk.
  rewrite poke_defined by (simpl; lia). cbn [mbind option_bind].
  assert (uchar (code ns) = code ns) as Ec by (unfold uchar, to_uint8; apply wrap_id; unfold in_u; lia). rewrite Ec.
  change (<[0%nat:=code ns]> (c0 :: p0)) with (code ns :: p0).
  rewrite (proj2 (Nat.leb_le (length db) 192)), (proj2 (Nat.leb_le (length nm) 192)), andb_false_r by done.
  rewrite strmake_ok by (done || (rewrite (take_ge db) by done; simpl; lia)). cbn [mbind option_bind].
  rewrite (take_ge db) by done.
  assert (to_uint16 (Z.of_nat (1 + length db) - 1) = Z.of_nat (length db)) as E1 by (unfold to_uint16; rewrite wrap_id; [lia|unfold in_u; lia]).
  rewrite E1. replace (Z.to_nat (Z.of_nat (length db) + 2)) with (length db + 2)%nat by lia.
  cbn [take]. replace (1 + length db + 1)%nat with (S (length db + 1)) by lia. cbn [drop].
  set (p1 := [code ns] ++ db ++ [0] ++ drop (length db + 1) p0).
  assert (length p1 = 387%nat) as Lp1 by (unfold p1; simpl; rewrite length_app; simpl; rewrite length_drop; lia).
  rewrite take_0. fold p1.
  rewrite strmake_ok by (done || (rewrite (take_ge nm) by done; lia)). cbn [mbind option_bind]. rewrite (take_ge nm) by done.
  assert (take (length db + 2) p1 = code ns :: db ++ [0]) as T1.
  { unfold p1. replace (length db + 2)%nat with (S (length db + 1)) by lia. cbn [app take]. f_equal. rewrite (app_assoc db [0] _ : db ++ 0 :: _ = _). apply take_app_length'. rewrite length_app. simpl. lia. }
  rewrite T1. assert (to_uint16 (Z.of_nat (length db + 2 + length nm) + 1) = Z.of_nat (length (key_bytes ns db nm))) as E2.
  { rewrite length_key_bytes. unfold to_uint16. rewrite wrap_id; [lia|unfold in_u; lia]. }
  rewrite E2. set (p2 := (code ns :: db ++ [0]) ++ nm ++ [0] ++ drop (length db + 2 + length nm + 1) p1).
  assert (p2 = key_bytes ns db nm ++ drop (length db + 2 + length nm + 1) p1) as P2.
  { unfold p2, key_bytes. cbn [app]. f_equal. rewrite <- !app_assoc. cbn [app]. do 2 f_equal. by rewrite <- app_assoc. }
  clearbody p2. subst p2. pose proof (length_key_bytes ns db nm) as Lk.
  eexists. split; [done|]. split; [split; cbn [m_ptr m_length m_db_name_length]; try done|].
  - rewrite length_app, length_drop, Lk. unfold MAX_MDLKEY_LENGTH, NAME_LEN. lia.
  - by apply take_app_length'.
  - unfold tc_hash_value. cbn [m_hash_value]. f_equal. rewrite Lk.
    replace (Z.to_nat (Z.of_nat (length db + length nm + 3) - 1)) with (length db + length nm + 2)%nat by lia.
    unfold key_bytes. cbn [app drop]. apply take_app_length'. rewrite length_app. simpl. rewrite length_app. simpl. lia.
Qed.
End Init.

Lemma memcmp_take a b n : (n ≤ length a)%nat → (n ≤ length b)%nat → memcmp a b n = Some (bytes_cmp (take n a) (take n b)).
Proof. intros. unfold memcmp. by rewrite bool_decide_eq_true_2. Qed.
Lemma rep_length k n d m : rep k n d m → (length (key_bytes n d m) ≤ length (m_ptr k))%nat.
Proof. intros R. rewrite <- (k_bytes _ _ _ _ R) at 1. rewrite length_take. lia. Qed.
Lemma read_key k n d m : rep k n d m →
  mdl_namespace k = Some (code n) ∧ db_name k = d ∧ name k = m ∧ db_name_length k = Z.of_nat (length d) ∧ name_length k = Z.of_nat (length m).
Proof.
  intros R. destruct (rep_key_bytes _ _ _ _ R) as [r Er]. pose proof R as [Hs Hd Hm [Hfd Hfm] Hdl Hl Hb].
  unfold mdl_namespace, db_name, name, db_name_length, name_length. rewrite Er, Hdl, Hl, length_key_bytes.
  unfold key_bytes. cbn [app drop]. rewrite <- app_assoc. cbn [app]. split_and!; [done| | |done|].
  - by apply string_at_app.
  - replace (Z.to_nat (Z.of_nat (length d) + 2)) with (S (length d + 1)) by lia. cbn [drop].
    rewrite (app_assoc d [0] _ : d ++ 0 :: _ = _), drop_app_length' by (rewrite length_app; simpl; lia).
    rewrite <- app_assoc. by apply string_at_app.
  - unfold NAME_LEN in *. unfold to_uint32. rewrite wrap_id; [lia|unfold in_u; lia].
Qed.
Lemma is_equal_rep k n d m k' n' d' m' : rep k n d m → rep k' n' d' m' →
  is_equal k k' = Some (bool_decide (n = n' ∧ d = d' ∧ m = m')).
Proof.
  intros R R'. pose proof (rep_length _ _ _ _ R). pose proof (rep_length _ _ _ _ R').
  unfold is_equal. rewrite (k_len _ _ _ _ R), (k_len _ _ _ _ R'). rewrite Nat2Z.id.
  destruct (Z.eqb_spec (Z.of_nat (length (key_bytes n d m))) (Z.of_nat (length (key_bytes n' d' m')))) as [El|El].
  - rewrite memcmp_take by lia. cbn [mbind option_bind]. rewrite (k_bytes _ _ _ _ R).
    replace (length (key_bytes n d m)) with (length (key_bytes n' d' m')) by lia. rewrite (k_bytes _ _ _ _ R').
    f_equal. symmetry. case_bool_decide as Hb.
    + destruct Hb as (-> & -> & ->). by rewrite bytes_cmp_refl.
    + destruct (bytes_cmp _ _) eqn:Ec; [|done..]. apply bytes_cmp_eq in Ec; [|lia]. exfalso. apply Hb.
      apply (key_bytes_inj n d m n' d' m' []); [apply R|apply R|apply R'|apply R'|]. by rewrite app_nil_r.
  - rewrite bool_decide_eq_false_2; [done|]. by intros (-> & -> & ->).
Qed.
Lemma cmp_rep k n d m k' n' d' m' : rep k n d m → rep k' n' d' m' →
  ∃ c, cmp k k' = Some c ∧ cmp k' k = Some (CompOpp c) ∧ (c = Eq ↔ n = n' ∧ d = d' ∧ m = m').
Proof.
  intros R R'. pose proof (rep_length _ _ _ _ R). pose proof (rep_length _ _ _ _ R'). unfold cmp.
  rewrite (k_len _ _ _ _ R), (k_len _ _ _ _ R'). set (K := key_bytes n d m) in *. set (K' := key_bytes n' d' m') in *.
  assert (∀ a b : nat, Z.to_nat (if Z.of_nat a <? Z.of_nat b then Z.of_nat a else Z.of_nat b) = (a `min` b)%nat) as Emin
    by (intros a b; zcases; lia).
  rewrite !Emin, (Nat.min_comm (length K')). set (mn := (length K `min` length K')%nat).
  rewrite !memcmp_take by lia. eexists. split; [done|]. rewrite (bytes_cmp_opp (take mn (m_ptr k))). split; [done|].
  assert (∀ (A : list Z) j, (mn ≤ j)%nat → take mn (take j A) = take mn A) as Ht by (intros A j Hj; rewrite take_take; f_equal; lia).
  rewrite <- (Ht (m_ptr k) (length K)), <- (Ht (m_ptr k') (length K')) by lia.
  pose proof (k_bytes _ _ _ _ R) as B. pose proof (k_bytes _ _ _ _ R') as B'. fold K in B. fold K' in B'. rewrite B, B'. rewrite bytes_cmp_eq by (rewrite !length_take; unfold K, K' in *; lia).
  pose proof R as [_ Hd Hm _ _ _ _]. pose proof R' as [_ Hd' Hm' _ _ _ _]. split; [|by intros (-> & -> & ->)].
  intros E. fold K K' in E. destruct (decide (length K ≤ length K')%nat).
  - rewrite (take_ge K) in E by lia. apply (key_bytes_inj n d m n' d' m' (drop mn K')); try done. fold K K'. by rewrite E, take_drop.
  - rewrite (take_ge K') in E by lia. destruct (key_bytes_inj n' d' m' n d m (drop mn K)) as (-> & -> & ->); try done.
    fold K K'. by rewrite <- E, take_drop.
Qed.
Lemma copy_rep k n d m k0 : rep k n d m → length (m_ptr k0) = MAX_MDLKEY_LENGTH → ∃ k', mdl_key_copy k k0 = Some k' ∧ rep k' n d m.
Proof.
  intros R H0. pose proof (rep_length _ _ _ _ R) as Hl. pose proof R as [Hs Hd Hm Hf Hdl Hkl Hb].
  unfold mdl_key_copy. rewrite Hkl, Nat2Z.id. rewrite bool_decide_eq_true_2 by lia. eexists. split; [done|].
  split; try done; cbn [m_ptr].
  - rewrite length_app, length_take, length_drop. lia.
  - rewrite Hb. by apply take_app_length'.
Qed.
End MdlFacts.

(** C25: a key of a metadata lock says what it was made from.  Making a key from a
    namespace and two names that are not too long stores them, in any buffer: the
    accessors give them back, with their lengths and the hash of the part behind
    the namespace.  Two keys are equal, and compare as equal, exactly when
    namespace and names are the same, even though [cmp] looks only at as many
    bytes as the shorter key has; comparing is antisymmetric; and a copy is
    equal. *)
Theorem mdl_key_identity `{SL : StrmakeLaws} hash dbug ns db nm k ns' db' nm' k0' k' :
  c_string db → c_string nm → (length db ≤ Mdl.NAME_LEN)%nat → (length nm ≤ Mdl.NAME_LEN)%nat →
  length (Mdl.m_ptr k) = Mdl.MAX_MDLKEY_LENGTH → Mdl.rep k' ns' db' nm' → length (Mdl.m_ptr k0') = Mdl.MAX_MDLKEY_LENGTH →
  ∃ k1, Mdl.mdl_key_init hash dbug ns db nm k = Some k1 ∧
    Mdl.mdl_namespace k1 = Some (Mdl.code ns) ∧ Mdl.db_name k1 = db ∧ Mdl.name k1 = nm ∧
    Mdl.db_name_length k1 = Z.of_nat (length db) ∧ Mdl.name_length k1 = Z.of_nat (length nm) ∧
    Mdl.tc_hash_value k1 = hash (db ++ 0 :: nm ++ [0]) ∧
    Mdl.is_equal k1 k' = Some (bool_decide (ns = ns' ∧ db = db' ∧ nm = nm')) ∧
    (∃ c, Mdl.cmp k1 k' = Some c ∧ Mdl.cmp k' k1 = Some (CompOpp c) ∧ (c = Eq ↔ ns = ns' ∧ db = db' ∧ nm = nm')) ∧
    ∃ k2, Mdl.mdl_key_copy k1 k0' = Some k2 ∧ Mdl.is_equal k2 k1 = Some true ∧ Mdl.rep k2 ns db nm.
Proof.
  intros Hdb Hnm Hld Hln Hk R' Hk0. destruct (MdlFacts.init_rep hash dbug ns db nm k) as (k1 & E & R & Hh); [done..|].
  exists k1. split; [done|]. destruct (MdlFacts.rep_key_bytes _ _ _ _ R) as [r Er].
  destruct (MdlFacts.read_key k1 ns db nm R) as (G1 & G2 & G3 & G4 & G5).
  split; [done|]. split; [done|]. split; [done|]. split; [done|]. split; [done|]. split; [done|].
  split; [by apply MdlFacts.is_equal_rep|]. split; [by apply MdlFacts.cmp_rep|].
  destruct (MdlFacts.copy_rep k1 ns db nm k0' R Hk0) as (k2 & E2 & R2). exists k2. split; [done|]. split; [|done].
  rewrite (MdlFacts.is_equal_rep k2 ns db nm k1 ns db nm R2 R). by rewrite bool_decide_eq_true_2.
Qed.

(** A copy as the string library makes it. *)
#[export] Instance copy_strmake : Strmake := λ dst pos src n,
  let t := take n src in
  if bool_decide (pos + length t < length dst)%nat
  then Some (take pos dst ++ t ++ [0] ++ drop (pos + length t + 1) dst, (pos + length t)%nat) else None.
#[export] Instance copy_strmake_laws : StrmakeLaws.
Proof. intros dst pos src n _ H. unfold strmake, copy_strmake. by rewrite bool_decide_eq_true_2. Qed.
Lemma mdl_key_identity_witness :
  let k0 := Mdl.Key 0 0 0 (replicate 387 0) in
  ∃ k1 k2, Mdl.mdl_key_init (foldr Z.add 0) true Mdl.TABLE [100] [116; 49] k0 = Some k1 ∧
    Mdl.mdl_key_init (foldr Z.add 0) true Mdl.TABLE [100] [116] k0 = Some k2 ∧ Mdl.is_equal k1 k2 = Some false.
Proof.
  intros k0. destruct (MdlFacts.init_rep (foldr Z.add 0) true Mdl.TABLE [100] [116] k0) as (k2 & E2 & R2 & _);
    [repeat constructor; lia|repeat constructor; lia|unfold Mdl.NAME_LEN; simpl; lia..|reflexivity|].
  destruct (mdl_key_identity (foldr Z.add 0) true Mdl.TABLE [100] [116; 49] k0 Mdl.TABLE [100] [116] k0 k2)
    as (k1 & E1 & _ & _ & _ & _ & _ & _ & H & _); [repeat constructor; lia|repeat constructor; lia|unfold Mdl.NAME_LEN; simpl; lia..|reflexivity|exact R2|reflexivity|].
  exists k1, k2. split; [exact E1|]. split; [exact E2|]. rewrite H. by rewrite bool_decide_eq_false_2 by (by intros (_ & _ & ?)).
Defined.

(** ** Qualified names *)

Module QnameFacts.
Import Qname.
Lemma strchr_app a c r : c ∉ a → strchr (a ++ c :: r) c = Some (length a).
Proof.
  induction a as [|x a IH]; intros Hc; simpl; [by rewrite Z.eqb_refl|]. apply not_elem_of_cons in Hc as [Hx Hc].
  rewrite (proj2 (Z.eqb_neq x c)) by done. by rewrite IH.
Qed.
Lemma strchr_none a c : c ∉ a → strchr a c = None.
Proof.
  induction a as [|x a IH]; intros Hc; simpl; [done|]. apply not_elem_of_cons in Hc as [Hx Hc].
  rewrite (proj2 (Z.eqb_neq x c)) by done. by rewrite IH.
Qed.
Lemma strchr_spec s c i : strchr s c = Some i → s = take i s ++ c :: drop (i + 1) s ∧ c ∉ take i s.
Proof.
  revert i. induction s as [|x s IH]; intros i; simpl; [done|]. destruct (Z.eqb_spec x c) as [->|Hx].
  - intros [= <-]. simpl. split; [done|apply not_elem_of_nil].
  - destruct (strchr s c) as [j|]; [|done]. intros [= <-]. destruct (IH j eq_refl) as [E Hn]. simpl.
    rewrite <- E. split; [done|]. apply not_elem_of_cons. done.
Qed.
End QnameFacts.

(** a qualified name and its text.  The text of a name with a database is the
    database, a dot and the name, its stored length is that of the text, and
    splitting it gives both back when the database has no dot, whatever the name
    has; without a database the text is the name, and splitting gives it back
    when it has no dot.  Conversely a text that is split gives itself again, unless it
    starts with the dot. *)
Theorem qname_roundtrip db nm :
  (∃ txt, Qname.make_qname true (Qname.Mk db nm) = (false, Some (txt, length txt)) ∧
     (db ≠ [] → Qname.dot ∉ db → Qname.split txt = Qname.Mk db nm) ∧ (db = [] → Qname.dot ∉ nm → Qname.split txt = Qname.Mk [] nm)) ∧
  Qname.make_qname false (Qname.Mk db nm) = (true, None) ∧
  (∀ txt, head txt ≠ Some Qname.dot → (Qname.make_qname true (Qname.split txt)).2 = Some (txt, length txt)) ∧
  ∀ r, (Qname.make_qname true (Qname.split (Qname.dot :: r))).2 = Some (r, length r).
Proof.
  split; [|split; [done|split]].
  - exists (db ++ (if decide (db = []) then [] else [Qname.dot]) ++ nm). unfold Qname.make_qname. cbn [Qname.m_db Qname.m_name].
    destruct db as [|c db]; cbn [decide].
    + simpl. split; [done|]. split; [done|]. intros _ Hn. unfold Qname.split. by rewrite QnameFacts.strchr_none.
    + rewrite decide_False by done. rewrite bool_decide_eq_true_2 by done. split; [|split; [|done]].
      * do 2 f_equal. change (take 1 [Qname.dot]) with [Qname.dot]. f_equal. rewrite !length_app. simpl. lia.
      * intros _ Hd. unfold Qname.split. change ([Qname.dot] ++ nm) with (Qname.dot :: nm). rewrite (QnameFacts.strchr_app (c :: db) Qname.dot nm Hd).
        rewrite take_app_length. f_equal.
        assert (drop (length (c :: db) + 1) ((c :: db) ++ Qname.dot :: nm) = nm) as ->.
        { rewrite (app_assoc (c :: db) [Qname.dot] nm : (c :: db) ++ Qname.dot :: nm = _). apply drop_app_length'. rewrite length_app. simpl. lia. }
        apply take_ge. rewrite length_app. simpl. lia.
  - intros txt Hh. unfold Qname.split. destruct (Qname.strchr txt Qname.dot) as [i|] eqn:E; [|done].
    destruct (QnameFacts.strchr_spec _ _ _ E) as [Et Hni]. unfold Qname.make_qname. cbn [Qname.m_db Qname.m_name].
    assert (length (take i txt) ≠ 0%nat) as Hne.
    { intros H0. apply length_zero_iff_nil in H0. rewrite H0 in Et. simpl in Et. rewrite Et in Hh. done. }
    rewrite bool_decide_eq_true_2 by done. cbn [snd]. change (take 1 [Qname.dot]) with [Qname.dot].
    assert (take (length txt - i - 1) (drop (i + 1) txt) = drop (i + 1) txt) as -> by (apply take_ge; rewrite length_drop; lia).
    cbn [app]. rewrite <- Et. do 2 f_equal. rewrite Et at 3. rewrite length_app. simpl. lia.
  - intros r. unfold Qname.split. simpl. rewrite Nat.sub_0_r, drop_0. by rewrite take_ge.
Qed.

(** [quote_unescape] undoes the doubling of quotes: for the text between the
    quotes of an identifier, in which each quote is doubled, it gives the text with
    single quotes.  For any text it ends, writes no more than its buffer has, and
    fails only without memory. *)
Theorem quote_unescape_correct quote s src :
  quote_unescape quote (escape quote s) true = Some (false, s) ∧
  (∃ to, quote_unescape quote src true = Some (false, to) ∧ (length to ≤ length src)%nat) ∧
  quote_unescape quote src false = Some (true, []).
Proof.
  assert (∀ src fuel tmp to, (length src - tmp < fuel)%nat → (length to ≤ tmp)%nat → (length to ≤ length src)%nat →
    ∃ r, unescape_loop quote src fuel tmp to = Some r ∧ (length r ≤ length src)%nat) as Hgen.
  { clear. intros src fuel. induction fuel as [|fuel IH]; intros tmp to Hf Ht Hl; [lia|]. cbn [unescape_loop].
    destruct (Nat.ltb_spec tmp (length src)) as [Htmp|Htmp].
    - destruct (lookup_lt_is_Some_2 src tmp Htmp) as [c ->]. cbn [mbind option_bind].
      rewrite (proj2 (Nat.ltb_lt _ _)) by lia. apply IH; [destruct (c =? quote); lia|rewrite length_app; simpl; destruct (c =? quote); lia|rewrite length_app; simpl; lia].
    - rewrite (proj2 (Nat.ltb_lt _ _)) by lia. by exists to. }
  assert (∀ s done to fuel, (length (escape quote s) < fuel)%nat → (length to ≤ length done)%nat →
    unescape_loop quote (done ++ escape quote s) fuel (length done) to = Some (to ++ s)) as Hesc.
  { clear. intros s. induction s as [|c s IH]; intros done to fuel Hf Ht; (destruct fuel as [|fuel]; [lia|]); cbn [unescape_loop escape].
    - rewrite app_nil_r. rewrite (proj2 (Nat.ltb_ge (length done) (length done))) by lia. rewrite (proj2 (Nat.ltb_lt _ _)) by lia. by rewrite app_nil_r.
    - cbn [escape] in Hf. destruct (Z.eqb_spec c quote) as [->|Hc]; rewrite (proj2 (Nat.ltb_lt (length done) _)) by (rewrite length_app; simpl; lia);
        rewrite lookup_app_r, Nat.sub_diag by lia; cbn [lookup list_lookup mbind option_bind];
        rewrite (proj2 (Nat.ltb_lt _ _)) by (rewrite length_app; simpl; lia).
      + rewrite Z.eqb_refl. specialize (IH (done ++ [quote; quote]) (to ++ [quote]) fuel). rewrite !length_app in IH. cbn [length] in *.
        rewrite <- !app_assoc in IH. cbn [app] in IH. apply IH; lia.
      + rewrite (proj2 (Z.eqb_neq c quote)) by lia. specialize (IH (done ++ [c]) (to ++ [c]) fuel). rewrite !length_app in IH. cbn [length] in *.
        rewrite <- !app_assoc in IH. cbn [app] in IH. apply IH; lia. }
  split; [|split; [|done]].
  - unfold quote_unescape. by rewrite (Hesc s [] []) by (simpl; lia).
  - unfold quote_unescape. destruct (Hgen src (S (length src)) 0%nat []) as (r & -> & Hr); [lia|simpl; lia..|]. by exists r.
Qed.
