(* ===== verification/ThdState.v ===== *)
(** [sql_class.h], parts of the state of a connection ([class THD]): the time of its
    statements, the state of a kill, the identifiers that were generated, and the
    list of transactions that wait for its commit ([struct wait_for_commit]). *)
From S2P Require Import Prelude CMonad.

(** ** The time of a statement *)

Module Clock.
Definition HRTIME_RESOLUTION : Z := 1000000.
Definition TIME_MAX_SECOND_PART : Z := 999999.
Definition SECTIME_SUPER : Z := 1.
Definition SECTIME_REPL : Z := 2.

(** [system_time] and the time of the statement. *)
Record t := Mk {
  start : Z; sec : Z; sec_part : Z;
  start_time : Z; start_time_sec_part : Z;
  user_time : Z }.

Section Width.
(** The bits of a [long], which is the type of seconds. *)
Context (w : Z).

Definition hrtime_to_my_time (x : Z) : Z := swrap w (x / HRTIME_RESOLUTION).
Definition hrtime_sec_part (x : Z) : Z := x mod HRTIME_RESOLUTION.
Definition hrtime_from_time (x : Z) : Z := to_ulonglong (to_ulonglong x * HRTIME_RESOLUTION).

(** [hrtime] is what [my_hrtime] returns; the overflow of [sec++] is undefined. *)
Definition set_system_time (hrtime : Z) (c : t) : option t :=
  let s := hrtime_to_my_time hrtime in
  let p := hrtime_sec_part hrtime in
  if (sec c <? s) || (s =? sec c) && (sec_part c <? p) || (hrtime <? start c)
  then Some (Mk hrtime s p (start_time c) (start_time_sec_part c) (user_time c))
  else if sec_part c <? TIME_MAX_SECOND_PART
  then Some (Mk (start c) (sec c) (wrap w (sec_part c + 1)) (start_time c) (start_time_sec_part c) (user_time c))
  else if decide (in_s w (sec c + 1))
  then Some (Mk (start c) (sec c + 1) 0 (start_time c) (start_time_sec_part c) (user_time c)) else None.

Definition set_start_time (hrtime : Z) (c : t) : option t :=
  if truth (user_time c)
  then Some (Mk (start c) (sec c) (sec_part c) (hrtime_to_my_time (user_time c)) (hrtime_sec_part (user_time c)) (user_time c))
  else c ← set_system_time hrtime c; Some (Mk (start c) (sec c) (sec_part c) (sec c) (sec_part c) (user_time c)).

(** [set_time()], without the timers of microseconds, and [set_time(my_hrtime_t)]. *)
Definition set_time (hrtime : Z) (c : t) : option t := set_start_time hrtime c.
Definition set_user_time (u hrtime : Z) (c : t) : option t :=
  set_time hrtime (Mk (start c) (sec c) (sec_part c) (start_time c) (start_time_sec_part c) u).
Definition force_set_time (x p : Z) (c : t) : t := Mk (start c) x p x p (user_time c).
(** [set_time(my_time_t, ulong)]. *)
Definition set_time_repl (opt_secure_timestamp : Z) (slave_thread : bool) (x p hrtime : Z) (c : t) : option t :=
  if (if slave_thread then SECTIME_REPL else SECTIME_SUPER) <? opt_secure_timestamp then set_time hrtime c
  else
    let c := if p <=? TIME_MAX_SECOND_PART then force_set_time x p c
             else if negb (x =? sec c) then force_set_time x 0 c
             else let p' := wrap w (sec_part c + 1) in Mk (start c) (sec c) p' x p' (user_time c) in
    Some (Mk (start c) (sec c) (sec_part c) (start_time c) (start_time_sec_part c)
            (to_ulonglong (hrtime_from_time (start_time c) + start_time_sec_part c))).
End Width.

(** *** Specification *)

(** Microseconds of [system_time] and of the statement. *)
Definition now (c : t) : Z := sec c * HRTIME_RESOLUTION + sec_part c.
Definition statement (c : t) : Z := start_time c * HRTIME_RESOLUTION + start_time_sec_part c.
Definition valid (w : Z) (c : t) : Prop := 0 ≤ sec c < 2 ^ (w - 1) - 1 ∧ 0 ≤ sec_part c ≤ TIME_MAX_SECOND_PART.
(** The states after the statements at the readings [l] of the clock. *)
Fixpoint statements (w : Z) (l : list Z) (c : t) : option (list t) :=
  match l with
  | [] => Some []
  | h :: l => c ← set_time w h c; r ← statements w l c; Some (c :: r)
  end.
(** A reading [h] is used when it is later than the last time given, or when the
    clock went back behind the last reading that was used. *)
Definition used (h : Z) (c : t) : bool := (h <? start c) || (now c <? h).
End Clock.

(** ** Kills *)

Module Killed.
Inductive killed_state :=
  | NOT_KILLED | KILL_HARD_BIT | KILL_BAD_DATA | KILL_BAD_DATA_HARD | KILL_QUERY | KILL_QUERY_HARD | ABORT_QUERY | ABORT_QUERY_HARD
  | KILL_TIMEOUT | KILL_TIMEOUT_HARD | KILL_SLAVE_SAME_ID | KILL_CONNECTION | KILL_CONNECTION_HARD | KILL_SYSTEM_THREAD
  | KILL_SYSTEM_THREAD_HARD | KILL_SERVER | KILL_SERVER_HARD | KILL_WAIT_TIMEOUT | KILL_WAIT_TIMEOUT_HARD.
Definition code (k : killed_state) : Z :=
  match k with
  | NOT_KILLED => 0 | KILL_HARD_BIT => 1 | KILL_BAD_DATA => 2 | KILL_BAD_DATA_HARD => 3 | KILL_QUERY => 4 | KILL_QUERY_HARD => 5
  | ABORT_QUERY => 6 | ABORT_QUERY_HARD => 7 | KILL_TIMEOUT => 8 | KILL_TIMEOUT_HARD => 9 | KILL_SLAVE_SAME_ID => 10
  | KILL_CONNECTION => 12 | KILL_CONNECTION_HARD => 13 | KILL_SYSTEM_THREAD => 14 | KILL_SYSTEM_THREAD_HARD => 15
  | KILL_SERVER => 16 | KILL_SERVER_HARD => 17 | KILL_WAIT_TIMEOUT => 18 | KILL_WAIT_TIMEOUT_HARD => 19
  end.
(** [killed_err]: the number and the message, of which 255 bytes are kept. *)
Record t := Mk { killed : killed_state; killed_err : option (Z * list Z) }.
Section Code.
(** What [strmake] keeps of at most so many bytes of a message. *)
Context (strmake : nat → list Z → list Z).
(** [alloc] says whether there is memory for the error. *)
Definition set_killed_no_mutex (alloc : bool) (killed_arg : killed_state) (killed_errno_arg : Z) (killed_err_msg_arg : list Z) (s : t) : t :=
  if code (killed s) <=? code killed_arg then
    Mk killed_arg (if truth killed_errno_arg then if alloc then Some (killed_errno_arg, strmake 255 killed_err_msg_arg) else None
                   else killed_err s)
  else s.

(** *** Specification: a kill and what it asks for. *)
Record request := Req { r_alloc : bool; r_state : killed_state; r_errno : Z; r_msg : list Z }.
Definition kill (s : t) (r : request) : t := set_killed_no_mutex (r_alloc r) (r_state r) (r_errno r) (r_msg r) s.
Definition kills (l : list request) (s : t) : t := foldl kill s l.
End Code.
End Killed.

(** ** Generated identifiers *)

Module Insert_id.
Record t := Mk {
  first_successful_insert_id_in_prev_stmt : Z;
  first_successful_insert_id_in_cur_stmt : Z;
  first_successful_insert_id_in_prev_stmt_for_binlog : Z;
  stmt_depends_on_first_successful_insert_id_in_prev_stmt : bool }.
Definition record_first_successful_insert_id_in_cur_stmt (id_arg : Z) (s : t) : t :=
  if first_successful_insert_id_in_cur_stmt s =? 0
  then Mk (first_successful_insert_id_in_prev_stmt s) id_arg (first_successful_insert_id_in_prev_stmt_for_binlog s)
         (stmt_depends_on_first_successful_insert_id_in_prev_stmt s)
  else s.
Definition read_first_successful_insert_id_in_prev_stmt (s : t) : Z * t :=
  let s := if negb (stmt_depends_on_first_successful_insert_id_in_prev_stmt s)
           then Mk (first_successful_insert_id_in_prev_stmt s) (first_successful_insert_id_in_cur_stmt s)
                  (first_successful_insert_id_in_prev_stmt s) true
           else s in
  (first_successful_insert_id_in_prev_stmt s, s).
End Insert_id.

(** ** Waiting for a commit *)

Module Commit_list.
(** The pointers to a waiter: the list of the one that is waited for, or the link
    of a waiter. *)
Inductive cell := Subsequent (w : Z) | Next (w : Z).
Record wait_for_commit := Wfc {
  subsequent_commits_list : Z;
  next_subsequent_commit : Z;
  waitee : Z;
  wakeup_error : Z }.
Notation mem := (gmap Z wait_for_commit) (only parsing).

Definition get (p : Z) : M mem wait_for_commit := gets_opt (λ m, m !! p).
Definition put (p : Z) (k : wait_for_commit) : M mem unit := modify (λ m, <[p := k]> m).
Definition read (c : cell) : M mem Z :=
  match c with
  | Subsequent p => k <- get p ;; ret (subsequent_commits_list k)
  | Next p => k <- get p ;; ret (next_subsequent_commit k)
  end.
Definition assign (c : cell) (v : Z) : M mem unit :=
  match c with
  | Subsequent p => k <- get p ;; put p (Wfc v (next_subsequent_commit k) (waitee k) (wakeup_error k))
  | Next p => k <- get p ;; put p (Wfc (subsequent_commits_list k) v (waitee k) (wakeup_error k))
  end.
Fixpoint remove_loop (fuel : nat) (this : Z) (next_ptr_ptr : cell) : M mem unit :=
  match fuel with
  | O => ub
  | S fuel =>
      cur <- read next_ptr_ptr ;;
      if cur =? 0 then ret tt else
      if cur =? this then k <- get this ;; assign next_ptr_ptr (next_subsequent_commit k)
      else remove_loop fuel this (Next cur)
  end.
Definition remove_from_list (fuel : nat) (this : Z) (next_ptr_ptr : cell) : M mem unit :=
  remove_loop fuel this next_ptr_ptr ;;
  k <- get this ;;
  put this (Wfc (subsequent_commits_list k) (next_subsequent_commit k) 0 (wakeup_error k)).

(** The inline parts of the waits: whether the slow part is called, and else the
    result; the state is the same. *)
Definition wait_for_prior_commit (k : wait_for_commit) : option Z := if truth (waitee k) then None else Some (wakeup_error k).
Definition wakeup_subsequent_commits (k : wait_for_commit) : bool := truth (subsequent_commits_list k).
Definition unregister_wait_for_prior_commit (k : wait_for_commit) : option wait_for_commit :=
  if truth (waitee k) then None else Some (Wfc (subsequent_commits_list k) (next_subsequent_commit k) (waitee k) 0).

(** *** Specification: the waiters [l] from the pointer [p]. *)
Fixpoint chain (m : mem) (p : Z) (l : list Z) : Prop :=
  match l with
  | [] => p = 0
  | x :: r => p = x ∧ x ≠ 0 ∧ ∃ k, m !! x = Some k ∧ chain m (next_subsequent_commit k) r
  end.
(** Where a cell is. *)
Definition place (c : cell) : Z := match c with Subsequent p | Next p => p end.
(** A waiter after a pointer was stored in it, and the memory then. *)
Definition stored (c : cell) (v : Z) (k : wait_for_commit) : wait_for_commit :=
  match c with
  | Subsequent _ => Wfc v (next_subsequent_commit k) (waitee k) (wakeup_error k)
  | Next _ => Wfc (subsequent_commits_list k) v (waitee k) (wakeup_error k)
  end.
Definition relinked (c : cell) (v : Z) (m : mem) : mem :=
  match m !! place c with Some k => <[place c := stored c v k]> m | None => m end.
(** The cell that leads to what follows the waiters [l]. *)
Definition before (c : cell) (l : list Z) : cell := match list.last l with Some y => Next y | None => c end.
(** A waiter without its waitee. *)
Definition cleared (k : wait_for_commit) : wait_for_commit :=
  Wfc (subsequent_commits_list k) (next_subsequent_commit k) 0 (wakeup_error k).
End Commit_list.

(** * Theorems *)

Module ClockFacts.
Import Clock.
Lemma system_time_step w hr c : 1 < w → valid w c → 0 ≤ hr → hr / HRTIME_RESOLUTION < 2 ^ (w - 1) → 2 ^ 20 < 2 ^ w →
  ∃ c', set_system_time w hr c = Some c' ∧ now c' = (if used hr c then hr else now c + 1) ∧
    start c' = (if used hr c then hr else start c) ∧
    0 ≤ sec c' < 2 ^ (w - 1) ∧ 0 ≤ sec_part c' ≤ TIME_MAX_SECOND_PART ∧ user_time c' = user_time c.
Proof.
  intros Hw [Hs Hp] Hr Hb Hw2. unfold used, set_system_time, hrtime_to_my_time, hrtime_sec_part, now, HRTIME_RESOLUTION, TIME_MAX_SECOND_PART in *.
  pose proof (Z.div_mod hr 1000000 ltac:(lia)) as Ed. pose proof (Z.mod_pos_bound hr 1000000 ltac:(lia)) as Hm.
  pose proof (Z.div_pos hr 1000000 Hr ltac:(lia)) as Hd0.
  rewrite (swrap_id w (hr / 1000000)) by (lia || (unfold in_s; lia)).
  set (q := hr / 1000000) in *. set (r := hr mod 1000000) in *.
  assert ((sec c <? q) || (q =? sec c) && (sec_part c <? r) || (hr <? start c) = (hr <? start c) || (sec c * 1000000 + sec_part c <? hr)) as ->.
  { rewrite (orb_comm _ (hr <? start c)). f_equal. zcases; simpl; lia. }
  destruct ((hr <? start c) || _) eqn:E.
  - eexists. split; [done|]. simpl. lia.
  - destruct (Z.ltb_spec (sec_part c) 999999).
    + eexists. split; [done|]. simpl. rewrite wrap_id by (unfold in_u; lia). lia.
    + rewrite decide_True by (unfold in_s; lia). eexists. split; [done|]. simpl. lia.
Qed.

(** One statement: its time is the reading when that is used, and else a
    microsecond after the last. *)
Lemma set_time_step w h c (B := (2 ^ (w - 1) - 1) * HRTIME_RESOLUTION) : (w = 32 ∨ w = 64) → valid w c → user_time c = 0 →
  0 ≤ h < B → now c + 1 < B →
  ∃ c', set_time w h c = Some c' ∧ valid w c' ∧ user_time c' = 0 ∧ 
    0 ≤ start_time_sec_part c' ≤ TIME_MAX_SECOND_PART ∧ now c' = statement c' ∧
    statement c' = (if used h c then h else now c + 1) ∧ start c' = (if used h c then h else start c).
Proof.
  intros Hw Hv Hu Hh Hn. unfold B, HRTIME_RESOLUTION in *.
  assert (1 < w ∧ 2 ^ 20 < 2 ^ w) as [Hw1 Hw2] by (destruct Hw as [-> | ->]; lia).
  assert (h / HRTIME_RESOLUTION < 2 ^ (w - 1)) as Hq by (apply Z.div_lt_upper_bound; unfold HRTIME_RESOLUTION; lia).
  destruct (system_time_step w h c Hw1 Hv (proj1 Hh) Hq Hw2) as (c' & E & En & Es & Hsec & Hpart & Hu').
  unfold set_time, set_start_time. rewrite Hu. cbn [truth Z.eqb negb]. rewrite E. cbn [mbind option_bind].
  eexists. split; [done|]. assert (now c' < (2 ^ (w - 1) - 1) * 1000000) by (rewrite En; by destruct (used h c); lia).
  unfold valid. cbn [sec sec_part user_time start_time_sec_part start]. split_and!; try (done || lia || congruence).
  unfold now, HRTIME_RESOLUTION in *. lia.
Qed.

(** Any statements: no overflow, and each is one step from the one before. *)
Lemma statements_ok w l c (B := (2 ^ (w - 1) - 1) * HRTIME_RESOLUTION) : (w = 32 ∨ w = 64) → valid w c → user_time c = 0 →
  (∀ h, h ∈ l → 0 ≤ h ∧ h + Z.of_nat (length l) < B) → now c + Z.of_nat (length l) < B →
  ∃ cs, statements w l c = Some cs ∧ length cs = length l ∧
    ∀ i h d d', l !! i = Some h → (c :: cs) !! i = Some d → cs !! i = Some d' →
      0 ≤ start_time_sec_part d' ≤ TIME_MAX_SECOND_PART ∧ now d' = statement d' ∧
      statement d' = (if used h d then h else now d + 1) ∧ start d' = (if used h d then h else start d).
Proof.
  intros Hw. revert c. induction l as [|h l IH]; intros c Hv Hu Hl Hroom; [by exists []|].
  cbn [length] in *. destruct (Hl h) as [Hh1 Hh2]; [left|].
  destruct (set_time_step w h c Hw Hv Hu) as (c' & E & Hv' & Hu' & Hp & En & Es & Est); [unfold B in *; lia..|].
  destruct (IH c' Hv' Hu') as (cs & Ecs & Hlen & Hstep).
  - intros h' Hi. destruct (Hl h'); [by right|]. lia.
  - rewrite En, Es. destruct (used h c); lia.
  - exists (c' :: cs). cbn [statements]. rewrite E. cbn [mbind option_bind]. rewrite Ecs. split; [done|].
    split; [simpl; lia|]. intros [|i] h' d d'; simpl; [|by apply Hstep].
    intros [= <-] [= <-] [= <-]. done.
Qed.

(** Statements at a clock that does not go back. *)
Lemma statements_forward l (c : t) cs : length cs = length l → 
  (∀ i h d d', l !! i = Some h → (c :: cs) !! i = Some d → cs !! i = Some d' →
      now d' = statement d' ∧ statement d' = (if used h d then h else now d + 1) ∧ start d' = (if used h d then h else start d)) →
  (∀ h, head l = Some h → start c ≤ h) → (∀ i h h', l !! i = Some h → l !! S i = Some h' → h ≤ h') →
  ∀ i h d d', l !! i = Some h → (c :: cs) !! i = Some d → cs !! i = Some d' → start d ≤ h ∧ h ≤ statement d' ∧ now d < statement d'.
Proof.
  intros Hlen Hstep H0 Hsort i. induction i as [|i IH]; intros h d d' Hh Hd Hd'.
  - assert (start d ≤ h) as Hs.
    { injection Hd as <-. apply H0. by destruct l; [|injection Hh as ->]. }
    destruct (Hstep 0%nat h d d' Hh Hd Hd') as (_ & -> & _). unfold used. zcases; simpl; lia.
  - cbn [lookup list_lookup] in Hd. 
    destruct (lookup_lt_is_Some_2 l i) as [h0 Hh0]; [apply lookup_lt_Some in Hh; lia|].
    destruct (lookup_lt_is_Some_2 (c :: cs) i) as [d0 Hd0]; [apply lookup_lt_Some in Hd; simpl; lia|].
    destruct (IH h0 d0 d Hh0 Hd0 Hd) as (A1 & A2 & A3). pose proof (Hsort i h0 h Hh0 Hh).
    destruct (Hstep i h0 d0 d Hh0 Hd0 Hd) as (B1 & B2 & B3). 
    assert (start d ≤ h) as Hs by (rewrite B3; destruct (used h0 d0); lia).
    destruct (Hstep (S i) h d d' Hh Hd Hd') as (_ & -> & _). unfold used. zcases; simpl; lia.
Qed.
End ClockFacts.

(** C35: the times of the statements of a connection.  Whatever the clock says,
    while its readings and the last time leave room in the type of seconds, no
    second overflows and the microseconds are always below a million; a reading
    that is later than the last time given is the time of the statement; a clock
    that goes back behind the last reading that was used is followed, and else
    the statement is a microsecond after the last.  When the clock does not go
    back, each statement is later than the one before, and not earlier than the
    clock, however coarse that is. *)
Theorem statement_times_increase w l c : (w = 32 ∨ w = 64) → Clock.valid w c → Clock.user_time c = 0 →
  (∀ h, h ∈ l → 0 ≤ h ∧ h + Z.of_nat (length l) < (2 ^ (w - 1) - 1) * 1000000) →
  Clock.now c + Z.of_nat (length l) < (2 ^ (w - 1) - 1) * 1000000 →
  ∃ cs, Clock.statements w l c = Some cs ∧ length cs = length l ∧
    (∀ i h d d', l !! i = Some h → (c :: cs) !! i = Some d → cs !! i = Some d' →
       0 ≤ Clock.start_time_sec_part d' < 1000000 ∧
       (h < Clock.start d → Clock.statement d' = h) ∧
       (Clock.now d < h → Clock.statement d' = h) ∧
       (Clock.start d ≤ h ≤ Clock.now d → Clock.statement d' = Clock.now d + 1) ∧
       Clock.start d' = (if decide (Clock.start d ≤ h ≤ Clock.now d) then Clock.start d else h) ∧
       Clock.now d' = Clock.statement d') ∧
    ((∀ h, head l = Some h → Clock.start c ≤ h) → (∀ i h h', l !! i = Some h → l !! S i = Some h' → h ≤ h') →
       ∀ i h d d', l !! i = Some h → (c :: cs) !! i = Some d → cs !! i = Some d' →
         h ≤ Clock.statement d' ∧ Clock.now d < Clock.statement d').
Proof.
  intros Hw Hv Hu Hl Hroom.
  destruct (ClockFacts.statements_ok w l c Hw Hv Hu Hl Hroom) as (cs & E & Hlen & Hstep).
  exists cs. split; [done|]. split; [done|]. split.
  - intros i h d d' Hh Hd Hd'. destruct (Hstep i h d d' Hh Hd Hd') as (Hp & -> & -> & ->).
    unfold Clock.used, Clock.TIME_MAX_SECOND_PART in *. split; [lia|]. case_decide; zcases; simpl; lia.
  - intros H0 Hsort i h d d' Hh Hd Hd'.
    refine (proj2 (ClockFacts.statements_forward l c cs Hlen _ H0 Hsort i h d d' Hh Hd Hd')).
    intros j x y z Hx Hy Hz. by destruct (Hstep j x y z Hx Hy Hz) as (_ & ?).
Qed.
(** Three readings, the second behind the first. *)
Lemma statement_times_increase_witness :
  ∃ cs, Clock.statements 32 [1000007; 5; 5] (Clock.Mk 0 0 0 0 0 0) = Some cs ∧ length cs = 3%nat ∧ Clock.statement <$> cs = [1000007; 5; 6].
Proof.
  destruct (statement_times_increase 32 [1000007; 5; 5] (Clock.Mk 0 0 0 0 0 0)) as (cs & E & Hl & _).
  - by left.
  - unfold Clock.valid, Clock.TIME_MAX_SECOND_PART. simpl. lia.
  - done.
  - intros h Hh. assert (h = 1000007 ∨ h = 5) as [-> | ->] by set_solver; simpl; lia.
  - unfold Clock.now. simpl. lia.
  - exists cs. split; [done|]. split; [done|]. vm_compute in E. by injection E as <-.
Defined.

(** The time of a replicated statement: with microseconds it is that time, and the
    session time of the user follows it; a statement without microseconds in the
    second of the one before is a microsecond later.  But nothing stops this count
    at the end of the second: a statement after the last microsecond has a
    million of them, which no other code stores. *)
Theorem replicated_time_overflows w opt slave x p hr c : (w = 32 ∨ w = 64) → opt ≤ (if slave : bool then Clock.SECTIME_REPL else Clock.SECTIME_SUPER) →
  0 ≤ x < 2 ^ (w - 1) - 1 → 0 ≤ p →
  (p ≤ Clock.TIME_MAX_SECOND_PART → ∃ c', Clock.set_time_repl w opt slave x p hr c = Some c' ∧ Clock.statement c' = x * 1000000 + p ∧ Clock.now c' = Clock.statement c') ∧
  (Clock.TIME_MAX_SECOND_PART < p → Clock.sec c = x → Clock.sec_part c = Clock.TIME_MAX_SECOND_PART →
     ∃ c', Clock.set_time_repl w opt slave x p hr c = Some c' ∧ Clock.start_time c' = x ∧ Clock.start_time_sec_part c' = 1000000).
Proof.
  intros Hw Hopt Hx Hp. unfold Clock.set_time_repl. rewrite (proj2 (Z.ltb_ge _ _)) by done. split.
  - intros Hle. rewrite (proj2 (Z.leb_le _ _)) by done. by eexists.
  - intros Hlt Hsec Hpart. rewrite (proj2 (Z.leb_gt _ _)) by done. rewrite Hsec, Z.eqb_refl. cbn [negb]. rewrite Hpart.
    eexists. split; [done|]. split; [done|]. cbn [Clock.start_time_sec_part]. unfold Clock.TIME_MAX_SECOND_PART.
    destruct Hw as [-> | ->]; reflexivity.
Qed.

(** ** Kills *)

(** a kill is never weakened.  After any requests the state is the strongest
    that was asked for, and the request that comes next leaves everything as it is
    when it is weaker; otherwise it sets the state and, when it has an error and
    there is memory, the error with what [strmake] keeps of its message; without an
    error the one before stays. *)
Theorem kills_strongest sm l s : 
  Killed.code (Killed.killed (Killed.kills sm l s)) = foldr Z.max (Killed.code (Killed.killed s)) (Killed.code ∘ Killed.r_state <$> l) ∧
  ∀ r, Killed.kills sm (l ++ [r]) s = Killed.kill sm (Killed.kills sm l s) r ∧
    (Killed.code (Killed.r_state r) < Killed.code (Killed.killed (Killed.kills sm l s)) → Killed.kills sm (l ++ [r]) s = Killed.kills sm l s) ∧
    (Killed.code (Killed.killed (Killed.kills sm l s)) ≤ Killed.code (Killed.r_state r) →
       Killed.killed (Killed.kills sm (l ++ [r]) s) = Killed.r_state r ∧
       Killed.killed_err (Killed.kills sm (l ++ [r]) s) =
         if decide (Killed.r_errno r = 0) then Killed.killed_err (Killed.kills sm l s)
         else if Killed.r_alloc r then Some (Killed.r_errno r, sm 255%nat (Killed.r_msg r)) else None).
Proof.
  split.
  - revert s. induction l as [|r l IH]; intros s; [done|]. cbn [Killed.kills foldl]. fold (Killed.kills sm l (Killed.kill sm s r)). rewrite IH.
    cbn [fmap list_fmap foldr compose]. assert (∀ a b (m : list Z), foldr Z.max (Z.max a b) m = Z.max a (foldr Z.max b m)) as Hm
      by (intros a b m; induction m as [|x m IHm]; simpl; lia).
    rewrite <- Hm. f_equal. unfold Killed.kill, Killed.set_killed_no_mutex. zcases; simpl; lia.
  - intros r. assert (Killed.kills sm (l ++ [r]) s = Killed.kill sm (Killed.kills sm l s) r) as -> by (unfold Killed.kills; by rewrite foldl_app).
    split; [done|]. unfold Killed.kill, Killed.set_killed_no_mutex. split.
    + intros Hlt. by rewrite (proj2 (Z.leb_gt _ _)).
    + intros Hle. rewrite (proj2 (Z.leb_le _ _)) by done. split; [done|]. unfold truth. cbn [Killed.killed_err].
      by case_decide; [rewrite (proj2 (Z.eqb_eq _ _))|rewrite (proj2 (Z.eqb_neq _ _))].
Qed.

(** The identifier a statement reports is the first it generated, and what the
    binary log gets for an identifier of the statement before is what the first
    use saw, also when that changes in between. *)
Theorem insert_ids_first l s p : Insert_id.first_successful_insert_id_in_cur_stmt s = 0 →
  Insert_id.first_successful_insert_id_in_cur_stmt (foldl (λ s i, Insert_id.record_first_successful_insert_id_in_cur_stmt i s) s l) =
    default 0 (head (filter (λ i, i ≠ 0) l)) ∧
  (Insert_id.stmt_depends_on_first_successful_insert_id_in_prev_stmt s = false →
   let s1 := (Insert_id.read_first_successful_insert_id_in_prev_stmt s).2 in
   let s2 := Insert_id.Mk p (Insert_id.first_successful_insert_id_in_cur_stmt s1) (Insert_id.first_successful_insert_id_in_prev_stmt_for_binlog s1)
               (Insert_id.stmt_depends_on_first_successful_insert_id_in_prev_stmt s1) in
   Insert_id.first_successful_insert_id_in_prev_stmt_for_binlog (Insert_id.read_first_successful_insert_id_in_prev_stmt s2).2 =
     Insert_id.first_successful_insert_id_in_prev_stmt s ∧ (Insert_id.read_first_successful_insert_id_in_prev_stmt s2).1 = p).
Proof.
  intros H0. split.
  - assert (∀ l s, Insert_id.first_successful_insert_id_in_cur_stmt s ≠ 0 →
      Insert_id.first_successful_insert_id_in_cur_stmt (foldl (λ s i, Insert_id.record_first_successful_insert_id_in_cur_stmt i s) s l) =
      Insert_id.first_successful_insert_id_in_cur_stmt s) as Hkeep.
    { clear. intros l. induction l as [|i l IH]; intros s Hs; [done|]. simpl. 
      assert (Insert_id.record_first_successful_insert_id_in_cur_stmt i s = s) as -> by
        (unfold Insert_id.record_first_successful_insert_id_in_cur_stmt; by rewrite (proj2 (Z.eqb_neq _ _))). by apply IH. }
    revert s H0. induction l as [|i l IH]; intros s H0; [done|]. rewrite filter_cons. cbn [foldl].
    assert (Insert_id.first_successful_insert_id_in_cur_stmt (Insert_id.record_first_successful_insert_id_in_cur_stmt i s) = i) as Hi
      by (unfold Insert_id.record_first_successful_insert_id_in_cur_stmt; by rewrite (proj2 (Z.eqb_eq _ _))).
    case_decide as Hz; [rewrite Hkeep; by rewrite Hi|]. apply IH. rewrite Hi. lia.
  - intros Hd. unfold Insert_id.read_first_successful_insert_id_in_prev_stmt. rewrite Hd. done.
Qed.

(** ** Waiting for a commit *)

Module Commit_facts.
Import Commit_list.
Lemma others_stay (this : Z) (l : list Z) : this ∉ l → filter (λ x, x ≠ this) l = l.
Proof.
  induction l as [|x l IH]; intros H; [done|]. apply not_elem_of_cons in H as [Hx Hl].
  rewrite filter_cons_True by congruence. by rewrite IH.
Qed.
(** What is stored in a cell. *)
Definition content (c : cell) (k : wait_for_commit) : Z :=
  match c with Subsequent _ => subsequent_commits_list k | Next _ => next_subsequent_commit k end.
Lemma cell_read_ok m c k : m !! place c = Some k → read c m = Some (content c k, m).
Proof. intros H. destruct c; simpl in *; unfold get; by rewrite (bind_ok _ _ _ _ _ (gets_opt_ok _ m _ H)). Qed.
Lemma cell_assign_ok m c v k : m !! place c = Some k → assign c v m = Some (tt, <[place c := stored c v k]> m).
Proof. intros H. destruct c; simpl in *; unfold get; by rewrite (bind_ok _ _ _ _ _ (gets_opt_ok _ m _ H)). Qed.
Lemma waiters_frame (m m' : mem) p l :
  (∀ x k, x ∈ l → m !! x = Some k → ∃ k', m' !! x = Some k' ∧ next_subsequent_commit k' = next_subsequent_commit k) →
  chain m p l → chain m' p l.
Proof.
  revert p. induction l as [|x l IH]; intros p Hf; [done|]. intros (-> & H0 & k & Hk & Hc).
  destruct (Hf x k ltac:(left) Hk) as (k' & Hk' & E). split; [done|]. split; [done|]. exists k'. rewrite E. split; [done|].
  apply IH; [|done]. intros y ky Hy. apply Hf. by right.
Qed.
Lemma before_cons c x (l : list Z) : before c (x :: l) = before (Next x) l.
Proof. unfold before. by destruct l as [|y l _] using rev_ind; [|rewrite app_comm_cons, !last_snoc]. Qed.
Lemma place_before c (l : list Z) : place (before c l) = place c ∨ place (before c l) ∈ l.
Proof.
  unfold before. destruct l as [|y l _] using rev_ind; [by left|]. right. rewrite last_snoc. apply elem_of_app. right. by left.
Qed.
(** Clearing the waitee of a waiter changes no list. *)
Lemma chain_cleared m this k p l : m !! this = Some k → chain m p l → chain (<[this := cleared k]> m) p l.
Proof.
  intros Hk. apply waiters_frame. intros y ky _ Hky. destruct (decide (y = this)) as [->|Hne];
    [rewrite lookup_insert_eq|rewrite lookup_insert_ne by done; by exists ky].
  rewrite Hk in Hky. injection Hky as ->. by eexists.
Qed.
Lemma clear_waitee_ok m this k : m !! this = Some k →
  (k <- get this ;; put this (Wfc (subsequent_commits_list k) (next_subsequent_commit k) 0 (wakeup_error k))) m
  = Some (tt, <[this := cleared k]> m).
Proof. intros Hk. unfold get, put. by rewrite (bind_ok _ _ _ _ _ (gets_opt_ok _ m _ Hk)). Qed.
(** The loop from a cell, with [l1] before the waiter: the link of the last of
    [l1], or the cell, is set to what follows it, and nothing else changes. *)
Lemma remove_loop_ok this l2 l1 m c k kt fuel : m !! place c = Some k → chain m (content c k) (l1 ++ this :: l2) →
  m !! this = Some kt → NoDup (place c :: l1 ++ this :: l2) → (length l1 < fuel)%nat →
  ∃ c' k', remove_loop fuel this c m = Some (tt, <[place c' := stored c' (next_subsequent_commit kt) k']> m) ∧ m !! place c' = Some k' ∧
    c' = before c l1 ∧
    ∃ k1, <[place c' := stored c' (next_subsequent_commit kt) k']> m !! place c = Some k1 ∧
      chain (<[place c' := stored c' (next_subsequent_commit kt) k']> m) (content c k1) (l1 ++ l2).
Proof.
  revert m c k fuel. induction l1 as [|x l1 IH]; intros m c k fuel Hk Hc Ht Hn Hf; (destruct fuel as [|fuel]; [simpl in Hf; lia|]);
    cbn [remove_loop]; rewrite (bind_ok _ _ _ _ _ (cell_read_ok m c k Hk)); destruct Hc as (Ex & H0 & kx & Hkx & Hc); rewrite Ex;
    rewrite (proj2 (Z.eqb_neq _ 0)) by done.
  - rewrite Z.eqb_refl. rewrite Ht in Hkx. injection Hkx as <-. unfold get. rewrite (bind_ok _ _ _ _ _ (gets_opt_ok _ m _ Ht)).
    rewrite (cell_assign_ok _ _ _ _ Hk). exists c, k. split; [done|]. split; [done|]. split; [done|].
    exists (stored c (next_subsequent_commit kt) k). rewrite lookup_insert_eq. split; [done|].
    assert (content c (stored c (next_subsequent_commit kt) k) = next_subsequent_commit kt) as -> by (by destruct c). simpl app.
    apply (waiters_frame m); [|done]. intros y ky Hy Hky. exists ky. rewrite lookup_insert_ne; [done|]. intros <-.
    apply NoDup_cons in Hn as [Hn _]. apply Hn. right. done.
  - assert (x ≠ this) as Hxt. { intros ->. apply NoDup_cons in Hn as [_ Hn]. simpl in Hn. apply NoDup_cons in Hn as [Hn _]. apply Hn. apply elem_of_app. right. left. }
    rewrite (proj2 (Z.eqb_neq x this)) by done.
    assert (NoDup (x :: l1 ++ this :: l2)) as Hn' by (by apply NoDup_cons in Hn as [_ Hn]).
    destruct (IH m (Next x) kx fuel Hkx Hc Ht Hn') as (c' & k' & E & Hk' & Hc' & k1 & Hk1 & Hch); [simpl in Hf; lia|].
    exists c', k'. split; [done|]. split; [done|]. split; [by rewrite Hc', before_cons|].
    assert (place c ≠ place c') as Hne.
    { apply NoDup_cons in Hn as [Hn _]. intros Heq. apply Hn. rewrite Heq, Hc'. destruct (place_before (Next x) l1) as [-> | Hin]; [by left|]. right. apply elem_of_app. by left. }
    exists k. rewrite lookup_insert_ne by done. split; [done|]. rewrite Ex. simpl in Hk1, Hch |- *. split; [done|]. split; [done|]. by exists k1.
Qed.
Lemma remove_loop_none this l m c k fuel : m !! place c = Some k → chain m (content c k) l → this ∉ l → (length l < fuel)%nat →
  remove_loop fuel this c m = Some (tt, m).
Proof.
  revert c k fuel. induction l as [|x l IH]; intros c k fuel Hk Hc Ht Hf; (destruct fuel as [|fuel]; [simpl in Hf; lia|]);
    cbn [remove_loop]; rewrite (bind_ok _ _ _ _ _ (cell_read_ok m c k Hk)).
  - simpl in Hc. by rewrite (proj2 (Z.eqb_eq _ _)).
  - destruct Hc as (Ex & H0 & kx & Hkx & Hc). rewrite Ex. apply not_elem_of_cons in Ht as [Hxt Ht].
    rewrite (proj2 (Z.eqb_neq x 0)), (proj2 (Z.eqb_neq x this)) by done. apply (IH (Next x) kx); [done..|simpl in Hf; lia].
Qed.
End Commit_facts.

(** C36: a waiter that gives up is taken out of the list of the transaction it waits
    for, the others stay in their order, it has no waitee any more and no other
    waiter loses its own; a waiter that is not in the list only loses its
    waitee.  In memory that is all: the waitee of the waiter is cleared, and when
    it was in the list the one pointer that led to it, in the waiter before it or
    in the head of the list, leads to the one behind it; the waiter keeps its own
    list and its link.  The loop over the list ends. *)
Theorem remove_from_list_correct m w kw this kt l fuel : m !! w = Some kw → Commit_list.chain m (Commit_list.subsequent_commits_list kw) l →
  m !! this = Some kt → NoDup (w :: l) → this ≠ w → (length l < fuel)%nat →
  ∃ m' kw', Commit_list.remove_from_list fuel this (Commit_list.Subsequent w) m = Some (tt, m') ∧ m' !! w = Some kw' ∧
    Commit_list.chain m' (Commit_list.subsequent_commits_list kw') (filter (λ x, x ≠ this) l) ∧
    (∀ x kx, x ≠ this → m !! x = Some kx → ∃ kx', m' !! x = Some kx' ∧ Commit_list.waitee kx' = Commit_list.waitee kx ∧
      Commit_list.wakeup_error kx' = Commit_list.wakeup_error kx) ∧
    ((this ∉ l ∧ m' = <[this := Commit_list.cleared kt]> m) ∨
     ∃ l1 l2, l = l1 ++ this :: l2 ∧
       m' = <[this := Commit_list.cleared kt]>
              (Commit_list.relinked (Commit_list.before (Commit_list.Subsequent w) l1) (Commit_list.next_subsequent_commit kt) m)).
Proof.
  intros Hw Hc Ht Hn Htw Hf. unfold Commit_list.remove_from_list. destruct (decide (this ∈ l)) as [Hin|Hin].
  - apply list_elem_of_split in Hin as (l1 & l2 & ->).
    destruct (Commit_facts.remove_loop_ok this l2 l1 m (Commit_list.Subsequent w) kw kt fuel Hw Hc Ht Hn) as (c' & k' & E & Hk' & Hc' & k1 & Hk1 & Hch);
      [rewrite length_app in Hf; lia|]. rewrite (bind_ok _ _ _ _ _ E). set (m1 := <[_ := _]> m) in *.
    apply NoDup_cons in Hn as [Hwn Hn]. apply NoDup_app in Hn as (Hn1 & Hd & [Hni Hn2]%NoDup_cons).
    assert (Commit_list.place c' ≠ this) as Hpt.
    { rewrite Hc'. destruct (Commit_facts.place_before (Commit_list.Subsequent w) l1) as [-> | Hp]; [done|].
      intros Heq. rewrite Heq in Hp. apply (Hd this Hp). left. }
    assert (m1 !! this = Some kt) as Ht1 by (unfold m1; by rewrite lookup_insert_ne).
    rewrite (Commit_facts.clear_waitee_ok m1 this kt Ht1). eexists _, k1. split; [done|].
    rewrite lookup_insert_ne by done. split; [done|]. split; [|split].
    + apply Commit_facts.chain_cleared; [done|]. rewrite filter_app, filter_cons_False by (by intros ?).
      rewrite !Commit_facts.others_stay; [exact Hch|done|intros Hy; apply (Hd this Hy); left].
    + intros x kx Hx Hkx. rewrite lookup_insert_ne by done. unfold m1.
      destruct (decide (x = Commit_list.place c')) as [->|Hne]; [|rewrite lookup_insert_ne by done; by exists kx].
      rewrite lookup_insert_eq. rewrite Hk' in Hkx. injection Hkx as ->. eexists. split; [done|]. by destruct c'.
    + right. exists l1, l2. split; [done|]. unfold Commit_list.relinked. by rewrite <- Hc', Hk'.
  - rewrite (bind_ok _ _ _ _ _ (Commit_facts.remove_loop_none this l m (Commit_list.Subsequent w) kw fuel Hw Hc Hin Hf)).
    rewrite (Commit_facts.clear_waitee_ok m this kt Ht). eexists _, kw. split; [done|].
    rewrite lookup_insert_ne by done. split; [done|]. split; [|split; [|by left]].
    + apply Commit_facts.chain_cleared; [done|]. by rewrite Commit_facts.others_stay.
    + intros x kx Hx Hkx. rewrite lookup_insert_ne by done. by exists kx.
Qed.
Lemma remove_from_list_correct_witness :
  let m : gmap Z Commit_list.wait_for_commit := <[1 := Commit_list.Wfc 2 0 0 0]> (<[2 := Commit_list.Wfc 0 3 1 0]> (<[3 := Commit_list.Wfc 0 0 1 7]> ∅)) in
  ∃ m' kw', Commit_list.remove_from_list 3 2 (Commit_list.Subsequent 1) m = Some (tt, m') ∧ m' !! 1 = Some kw' ∧
    Commit_list.chain m' (Commit_list.subsequent_commits_list kw') [3].
Proof.
  destruct (remove_from_list_correct (<[1 := Commit_list.Wfc 2 0 0 0]> (<[2 := Commit_list.Wfc 0 3 1 0]> (<[3 := Commit_list.Wfc 0 0 1 7]> ∅)))
    1 (Commit_list.Wfc 2 0 0 0) 2 (Commit_list.Wfc 0 3 1 0) [2; 3] 3) as (m' & kw' & E & Hk & Hc & _).
  - done.
  - split; [done|]. split; [lia|]. eexists. split; [done|]. split; [done|]. split; [lia|]. by eexists.
  - done.
  - vm_compute. repeat constructor; set_solver.
  - lia.
  - simpl. lia.
  - by exists m', kw'.
Defined.
