(* ===== verification/PredicantList.v ===== *)
(** [item_cmpfunc.h], [class Predicant_to_list_comparator]: the comparison of one
    expression, the predicant, with a list of values, as [IN] and the simple
    [CASE] do it.  Each pair is compared by a type handler; pairs of one handler
    share an object ([cmp_item]) that keeps the predicant's value. *)
From S2P Require Import Prelude CMonad.

Definition UNKNOWN : Z := -1.

(** ** The virtual functions of [cmp_item]

    [I] is the state of a [cmp_item], [V] that of a [Value].  A handler is an
    address.  Evaluating an item leaves its [null_value]. *)
Class CmpItems (Item I V : Type) := {
  store_value : Item → I → I;
  null_after : Item → bool;
  item_cmp : Item → I → Z;
  Item_save_in_value : Z → Item → V;
  is_null : V → bool;
  cmp_not_null : V → I → Z;
  type_handler_row : Z }.

(** What they promise: a handler has an equality with the values of SQL, [Some
    true] for equal and [None] for unknown; an object of a handler that has stored
    the predicant compares with it; a NULL makes the equality of scalars unknown. *)
Class CmpLaws (Item I V : Type) `{CmpItems Item I V} := {
  equality : Z → Item → Item → option bool;
  of_handler : I → Z → Prop;
  holds : I → Z → Item → Prop;
  store_holds i h p : of_handler i h → holds (store_value p i) h p;
  holds_of i h p : holds i h p → of_handler i h;
  cmp_equality i h p v : holds i h p → item_cmp v i = match equality h p v with Some true => 0 | Some false => 1 | None => UNKNOWN end;
  null_unknown h p v : null_after p = true → h ≠ type_handler_row → equality h p v = None;
  saved_null h v : is_null (Item_save_in_value h v) = null_after v;
  cmp_saved i h p v : holds i h p → null_after p = false → null_after v = false →
    (cmp_not_null (Item_save_in_value h v) i = 0 ↔ equality h p v = Some true) }.

(** ** State *)

Record Predicant_to_value_comparator := Cmp {
  m_handler : Z;
  m_cmp_item : Z;
  m_arg_index : nat;
  m_handler_index : nat }.

Section Code.
Context {Item I V : Type} `{CI : CmpItems Item I V} (dbug : bool).

(** [pred_null] is the [null_value] of the predicant; [cmp_items] are the objects
    of the heap, a null pointer is 0. *)
Record state := St {
  m_comparators : list Predicant_to_value_comparator;
  m_comparator_count : nat;
  m_predicant_index : nat;
  cmp_items : gmap Z I;
  pred_null : bool }.

Definition comparator (i : nat) : M state Predicant_to_value_comparator := gets_opt (λ s, m_comparators s !! i).
Definition cmp_item (p : Z) : M state I := gets_opt (λ s, cmp_items s !! p).
Definition set_cmp_items (f : gmap Z I → gmap Z I) : M state unit :=
  modify (λ s, St (m_comparators s) (m_comparator_count s) (m_predicant_index s) (f (cmp_items s)) (pred_null s)).

(** The constructor and [init_clone]; [alloc_comparators] is defined elsewhere and
    gives [array], or fails. *)
Definition init_clone (alloc : option (list Predicant_to_value_comparator)) (s : state) : bool * state :=
  match alloc with
  | Some array => (false, St array 0 0 (cmp_items s) (pred_null s))
  | None => (true, St [] 0 0 (cmp_items s) (pred_null s))
  end.
Definition add_predicant (args : list Item) (predicant_index : nat) : M state unit :=
  n <- gets m_comparator_count ;; assert_that (negb dbug || bool_decide (n = 0%nat)) ;;
  p <- gets m_predicant_index ;; assert_that (negb dbug || bool_decide (p = 0%nat)) ;;
  assert_that (negb dbug || bool_decide (predicant_index < length args)%nat) ;;
  modify (λ s, St (m_comparators s) (m_comparator_count s) predicant_index (cmp_items s) (pred_null s)).

(** The index that was found, or [None]. *)
Fixpoint find_loop (handler : Z) (n i : nat) : M state (option nat) :=
  match n with
  | O => ret None
  | S n => c <- comparator i ;; if m_handler c =? handler then ret (Some i) else find_loop handler n (S i)
  end.
Definition find_handler (handler : Z) (count : nat) : M state (option nat) :=
  k <- gets m_comparator_count ;; assert_that (negb dbug || bool_decide (count < k)%nat) ;; find_loop handler count 0.

(** The object of pair [i], with the predicant stored when [i] is the leftmost pair
    of its handler: the common start of [cmp_arg] and [cmp_args_nulls_equal]. *)
Definition prepare (predicant : Item) (i : nat) : M state Predicant_to_value_comparator :=
  c <- comparator i ;; cmp <- comparator (m_handler_index c) ;;
  assert_that (negb dbug || negb (m_cmp_item cmp =? 0)) ;;
  (if bool_decide (m_handler_index c = i) then
     in_item <- cmp_item (m_cmp_item cmp) ;;
     set_cmp_items (λ h, <[m_cmp_item cmp := store_value predicant in_item]> h) ;;
     modify (λ s, St (m_comparators s) (m_comparator_count s) (m_predicant_index s) (cmp_items s) (null_after predicant))
   else ret tt) ;;
  ret cmp.
Definition argument (args : list Item) (k : nat) : M state Item := gets_opt (λ _, args !! k).
Definition cmp_arg (args : list Item) (i : nat) : M state Z :=
  p <- gets m_predicant_index ;; predicant <- argument args p ;;
  cmp <- prepare predicant i ;;
  c <- comparator i ;; null <- gets pred_null ;;
  if null && negb (m_handler c =? type_handler_row) then ret UNKNOWN
  else v <- argument args (m_arg_index c) ;; in_item <- cmp_item (m_cmp_item cmp) ;; ret (item_cmp v in_item).
Definition cmp_args_nulls_equal (args : list Item) (i : nat) : M state Z :=
  p <- gets m_predicant_index ;; predicant <- argument args p ;;
  c <- comparator i ;; arg <- argument args (m_arg_index c) ;;
  cmp <- prepare predicant i ;;
  let val := Item_save_in_value (m_handler c) arg in
  null <- gets pred_null ;;
  if null && is_null val then ret 0
  else if null || is_null val then ret UNKNOWN
  else in_item <- cmp_item (m_cmp_item cmp) ;; ret (cmp_not_null val in_item).

(** The loops run over the [n] pairs from [i] on.  [found] is
    [*found_unknown_values], [None] for a null pointer; the result is false for a
    match, with the index that is stored, if any. *)
Fixpoint cmp_loop (args : list Item) (n i : nat) (found : option bool) : M state (bool * option nat * option bool) :=
  match n with
  | O => ret (true, None, found)
  | S n =>
      c <- comparator i ;; assert_that (negb dbug || negb (m_handler c =? 0)) ;;
      rc <- cmp_arg args i ;;
      if rc =? 0 then ret (false, Some (m_arg_index c), found)
      else if rc =? UNKNOWN then
        match found with None => ret (true, None, found) | Some _ => cmp_loop args n (S i) (Some true) end
      else cmp_loop args n (S i) found
  end.
Definition cmp (args : list Item) (found : option bool) : M state (bool * option nat * option bool) :=
  n <- gets m_comparator_count ;; cmp_loop args n 0 found.
Fixpoint nulls_equal_loop (args : list Item) (n i : nat) : M state (bool * option nat) :=
  match n with
  | O => ret (true, None)
  | S n =>
      c <- comparator i ;; assert_that (negb dbug || negb (m_handler c =? 0)) ;;
      rc <- cmp_args_nulls_equal args i ;;
      if rc =? 0 then ret (false, Some (m_arg_index c)) else nulls_equal_loop args n (S i)
  end.
Definition cmp_nulls_equal (args : list Item) : M state (bool * option nat) :=
  n <- gets m_comparator_count ;; nulls_equal_loop args n 0.

(** [cleanup] of one pair deletes its object and clears the pair. *)
Definition zeroed : Predicant_to_value_comparator := Cmp 0 0 0 0.
Definition cleanup_one (i : nat) : M state unit :=
  c <- comparator i ;;
  (if truth (m_cmp_item c) then _ <- cmp_item (m_cmp_item c) ;; set_cmp_items (delete (m_cmp_item c)) else ret tt) ;;
  modify (λ s, St (<[i := zeroed]> (m_comparators s)) (m_comparator_count s) (m_predicant_index s) (cmp_items s) (pred_null s)).
Fixpoint cleanup_loop (n i : nat) : M state unit :=
  match n with O => ret tt | S n => cleanup_one i ;; cleanup_loop n (S i) end.
Definition cleanup : M state unit :=
  n <- gets m_comparator_count ;; cleanup_loop n 0 ;;
  modify (λ s, St (replicate n zeroed ++ drop n (m_comparators s)) 0 0 (cmp_items s) (pred_null s)).
End Code.
Arguments state : clear implicits.
Arguments St {I}. Arguments m_comparators {I}. Arguments m_comparator_count {I}. Arguments m_predicant_index {I}.
Arguments cmp_items {I}. Arguments pred_null {I}.

(** ** Specification *)

Section Spec.
Context {Item I V : Type} `{CL : CmpLaws Item I V}.
(** The array after its handlers are known: each pair names the leftmost one of its
    handler, and exactly these have an object, each its own. *)
Record indexed (s : state I) (n : nat) : Prop := {
  x_count : m_comparator_count s = n;
  x_array : (n ≤ length (m_comparators s))%nat;
  x_first i c : m_comparators s !! i = Some c → (i < n)%nat → ∃ d, (m_handler_index c ≤ i)%nat ∧
    m_comparators s !! m_handler_index c = Some d ∧ m_handler_index d = m_handler_index c ∧ m_handler d = m_handler c ∧ m_handler c ≠ 0;
  x_item i c : m_comparators s !! i = Some c → (i < n)%nat → m_handler_index c = i →
    m_cmp_item c ≠ 0 ∧ ∃ x, cmp_items s !! m_cmp_item c = Some x ∧ of_handler x (m_handler c);
  x_none i c : m_comparators s !! i = Some c → (i < n)%nat → m_handler_index c ≠ i → m_cmp_item c = 0;
  x_own i j c d : m_comparators s !! i = Some c → m_comparators s !! j = Some d → (i < n)%nat → (j < n)%nat →
    m_cmp_item c ≠ 0 → m_cmp_item c = m_cmp_item d → i = j }.
(** The equality of the predicant with each value. *)
Definition verdict (args : list Item) (p : Item) (c : Predicant_to_value_comparator) : option bool :=
  match args !! m_arg_index c with Some v => equality (m_handler c) p v | None => None end.
(** Two NULLs are equal, one is not. *)
Definition same (args : list Item) (p : Item) (c : Predicant_to_value_comparator) : bool :=
  match args !! m_arg_index c with
  | Some v => if null_after p then null_after v else negb (null_after v) && bool_decide (equality (m_handler c) p v = Some true)
  | None => false
  end.
(** What [IN] and the simple [CASE] find in the pairs [cs]. *)
Definition unknown (e : option bool) : bool := match e with None => true | Some _ => false end.
Definition in_result (args : list Item) (p : Item) (cs : list Predicant_to_value_comparator) (f : bool) : bool * option nat * option bool :=
  match list_find (λ c, verdict args p c = Some true) cs with
  | Some (j, c) => (false, Some (m_arg_index c), Some (f || existsb (λ c, unknown (verdict args p c)) (take j cs)))
  | None => (true, None, Some (f || existsb (λ c, unknown (verdict args p c)) cs))
  end.
Definition case_result (args : list Item) (p : Item) (cs : list Predicant_to_value_comparator) : bool * option nat * option bool :=
  match list_find (λ c, verdict args p c ≠ Some false) cs with
  | Some (_, c) => match verdict args p c with Some _ => (false, Some (m_arg_index c), None) | None => (true, None, None) end
  | None => (true, None, None)
  end.
Lemma in_result_cons args p c cs f : verdict args p c ≠ Some true →
  in_result args p (c :: cs) f = in_result args p cs (f || unknown (verdict args p c)).
Proof.
  intros Hv. unfold in_result. cbn [list_find]. rewrite decide_False by done.
  destruct (list_find _ cs) as [[j d]|]; simpl; by rewrite orb_assoc.
Qed.
End Spec.

(** * Theorems *)

Section Facts.
Context {Item I V : Type} `{CL : CmpLaws Item I V} (dbug : bool).
Implicit Types (s : state I) (args : list Item) (p : Item).

Definition code (e : option bool) : Z := match e with Some true => 0 | Some false => 1 | None => UNKNOWN end.
(** Before pair [i]: the objects of the pairs before it hold the predicant. *)
Record ready s (n i : nat) p : Prop := {
  r_indexed : indexed s n;
  r_holds j c : m_comparators s !! j = Some c → (j < i)%nat → (j < n)%nat → m_handler_index c = j →
    ∃ x, cmp_items s !! m_cmp_item c = Some x ∧ holds x (m_handler c) p;
  r_null : (0 < i)%nat → pred_null s = null_after p }.

Lemma comparator_ok s i c : m_comparators s !! i = Some c → comparator i s = Some (c, s).
Proof. apply (gets_opt_ok (λ s : state I, m_comparators s !! i)). Qed.

(** The state after the predicant was stored for a leftmost pair. *)
Definition stored p (c : Predicant_to_value_comparator) (x : I) s : state I :=
  St (m_comparators s) (m_comparator_count s) (m_predicant_index s) (<[m_cmp_item c := store_value p x]> (cmp_items s)) (null_after p).
Lemma stored_ready s n i p c x : ready s n i p → (i < n)%nat → m_comparators s !! i = Some c → m_handler_index c = i →
  cmp_items s !! m_cmp_item c = Some x → of_handler x (m_handler c) → ready (stored p c x s) n (S i) p.
Proof.
  intros [[Xc Xa Xf Xi Xn Xo] Hh Hn] Hi Hc Hic Hx Hof. pose proof (store_holds x (m_handler c) p Hof) as Hst.
  destruct (Xi i c Hc Hi Hic) as [H0 _].
  assert (∀ j d, m_comparators s !! j = Some d → (j < n)%nat → m_cmp_item d = m_cmp_item c → d = c) as Hsame.
  { intros j d Hd Hj E. assert (i = j) as <- by (by apply (Xo i j c d)). congruence. }
  split; [split|..]; simpl; try done.
  - intros j d Hd Hj Hjd. destruct (Xi j d Hd Hj Hjd) as (Hd0 & y & Hy & Hyo). split; [done|].
    destruct (decide (m_cmp_item d = m_cmp_item c)) as [E|E].
    + rewrite (Hsame j d Hd Hj E) in *. exists (store_value p x). rewrite lookup_insert_eq. split; [done|]. by apply (holds_of _ _ p).
    + exists y. by rewrite lookup_insert_ne.
  - intros j d Hd Hj Hjn Hjd. destruct (decide (j = i)) as [->|Hne].
    + rewrite Hc in Hd. injection Hd as <-. exists (store_value p x). by rewrite lookup_insert_eq.
    + destruct (Hh j d Hd ltac:(lia) Hjn Hjd) as (y & Hy & Hyh). exists y. rewrite lookup_insert_ne; [done|].
      intros E. apply Hne. rewrite (Hsame j d Hd Hjn (eq_sym E)) in Hjd. lia.
Qed.
Lemma prepare_ok s n i p : ready s n i p → (i < n)%nat → ∃ c d x s',
  m_comparators s !! i = Some c ∧ prepare dbug p i s = Some (d, s') ∧ ready s' n (S i) p ∧
  m_comparators s' = m_comparators s ∧ m_predicant_index s' = m_predicant_index s ∧
  cmp_items s' !! m_cmp_item d = Some x ∧ holds x (m_handler c) p.
Proof.
  intros R Hi. pose proof R as [[Xc Xa Xf Xi Xn Xo] Hh Hn].
  destruct (lookup_lt_is_Some_2 (m_comparators s) i) as [c Hc]; [lia|].
  destruct (Xf i c Hc Hi) as (d & Hle & Hd & Hdi & Hdh & H0). destruct (Xi _ d Hd ltac:(lia) Hdi) as (Hd0 & x & Hx & Hxo).
  unfold prepare. rewrite (bind_ok _ _ _ _ _ (comparator_ok _ _ _ Hc)), (bind_ok _ _ _ _ _ (comparator_ok _ _ _ Hd)).
  rewrite (proj2 (Z.eqb_neq _ 0) Hd0), orb_true_r. destruct (decide (m_handler_index c = i)) as [E|E].
  - rewrite bool_decide_eq_true_2 by done. rewrite E, Hc in Hd. injection Hd as <-.
    exists c, c, (store_value p x), (stored p c x s). split; [done|]. split.
    { unfold assert_that, bind at 1, ret at 1. unfold cmp_item. rewrite bind_assoc, (bind_ok _ _ _ _ _ (gets_opt_ok _ s _ Hx)). done. }
    split; [by apply stored_ready|]. simpl. rewrite lookup_insert_eq. split_and!; try done. by apply store_holds.
  - rewrite bool_decide_eq_false_2 by done. destruct (Hh _ d Hd ltac:(lia) ltac:(lia) Hdi) as (y & Hy & Hyh).
    exists c, d, y, s. split; [done|]. split; [done|]. split; [|by rewrite <- Hdh].
    split; [done|..].
    + intros j e He Hj Hjn Hje. apply (Hh j e); try done. destruct (decide (j = i)) as [->|]; [congruence|lia].
    + intros _. apply Hn. lia.
Qed.
(** All values are arguments. *)
Definition arguments s n args p : Prop :=
  args !! m_predicant_index s = Some p ∧
  ∀ j c, m_comparators s !! j = Some c → (j < n)%nat → (m_arg_index c < length args)%nat.
Lemma argument_ok args k v s : args !! k = Some v → argument args k s = Some (v, s).
Proof. apply (gets_opt_ok (λ _ : state I, args !! k)). Qed.
Lemma cmp_item_ok x y s : cmp_items s !! x = Some y → cmp_item x s = Some (y, s).
Proof. apply (gets_opt_ok (λ s : state I, cmp_items s !! x)). Qed.
Lemma gets_ok {A} (f : state I → A) s : gets f s = Some (f s, s).
Proof. done. Qed.

Lemma cmp_arg_ok s n i p args : ready s n i p → (i < n)%nat → arguments s n args p →
  ∃ c s', m_comparators s !! i = Some c ∧ m_handler c ≠ 0 ∧ cmp_arg dbug args i s = Some (code (verdict args p c), s') ∧
    ready s' n (S i) p ∧ m_comparators s' = m_comparators s ∧ m_predicant_index s' = m_predicant_index s.
Proof.
  intros R Hi [Hp Ha]. destruct (prepare_ok s n i p R Hi) as (c & d & x & s' & Hc & E & R' & Ec & Ep & Hx & Hh).
  exists c, s'. split; [done|]. split; [by destruct (x_first s n (r_indexed _ _ _ _ R) i c Hc Hi) as (? & ? & ? & ? & ? & ?)|].
  split; [|done]. destruct (lookup_lt_is_Some_2 args (m_arg_index c)) as [v Hv]; [by apply (Ha i)|].
  unfold cmp_arg. rewrite (bind_ok _ _ _ _ _ (gets_ok _ s)), (bind_ok _ _ _ _ _ (argument_ok _ _ _ s Hp)), (bind_ok _ _ _ _ _ E).
  rewrite <- Ec in Hc. rewrite (bind_ok _ _ _ _ _ (comparator_ok _ _ _ Hc)), (bind_ok _ _ _ _ _ (gets_ok _ s')).
  rewrite (r_null _ _ _ _ R') by lia. unfold verdict. rewrite Hv.
  destruct (null_after p) eqn:En, (Z.eqb_spec (m_handler c) type_handler_row) as [Er|Er]; simpl;
    try (rewrite (bind_ok _ _ _ _ _ (argument_ok _ _ _ s' Hv)), (bind_ok _ _ _ _ _ (cmp_item_ok _ _ s' Hx)); unfold ret; by rewrite (cmp_equality _ _ _ v Hh)).
  by rewrite (null_unknown _ _ v En Er).
Qed.
Lemma cmp_args_nulls_equal_ok s n i p args : ready s n i p → (i < n)%nat → arguments s n args p →
  ∃ c rc s', m_comparators s !! i = Some c ∧ m_handler c ≠ 0 ∧ cmp_args_nulls_equal dbug args i s = Some (rc, s') ∧ (rc =? 0) = same args p c ∧
    ready s' n (S i) p ∧ m_comparators s' = m_comparators s ∧ m_predicant_index s' = m_predicant_index s.
Proof.
  intros R Hi [Hp Ha]. destruct (prepare_ok s n i p R Hi) as (c & d & x & s' & Hc & E & R' & Ec & Ep & Hx & Hh).
  destruct (lookup_lt_is_Some_2 args (m_arg_index c)) as [v Hv]; [by apply (Ha i)|].
  enough (∃ rc, cmp_args_nulls_equal dbug args i s = Some (rc, s') ∧ (rc =? 0) = same args p c) as (rc & E1 & E2).
  { exists c, rc, s'. split; [done|]. split; [by destruct (x_first s n (r_indexed _ _ _ _ R) i c Hc Hi) as (? & ? & ? & ? & ? & ?)|done]. }
  unfold cmp_args_nulls_equal. rewrite (bind_ok _ _ _ _ _ (gets_ok _ s)), (bind_ok _ _ _ _ _ (argument_ok _ _ _ s Hp)).
  rewrite (bind_ok _ _ _ _ _ (comparator_ok _ _ _ Hc)), (bind_ok _ _ _ _ _ (argument_ok _ _ _ s Hv)), (bind_ok _ _ _ _ _ E).
  rewrite (bind_ok _ _ _ _ _ (gets_ok _ s')). rewrite saved_null, (r_null _ _ _ _ R') by lia. unfold same. rewrite Hv.
  destruct (null_after p) eqn:En, (null_after v) eqn:Ev; cbn [andb orb negb]; try (eexists; by split).
  rewrite (bind_ok _ _ _ _ _ (cmp_item_ok _ _ s' Hx)). eexists. split; [done|].
  pose proof (cmp_saved _ _ _ v Hh En Ev) as Hs. case_bool_decide as Hq; [by apply Z.eqb_eq, Hs|apply Z.eqb_neq; tauto].
Qed.

(** The pairs that are left. *)
Definition pairs s n i : list Predicant_to_value_comparator := drop i (take n (m_comparators s)).
Lemma pairs_cons s n i c : m_comparators s !! i = Some c → (i < n)%nat → pairs s n i = c :: pairs s n (S i).
Proof. intros Hc Hi. unfold pairs. apply drop_S. by rewrite lookup_take_lt. Qed.
Lemma pairs_nil s n i : (n ≤ i)%nat → pairs s n i = [].
Proof. intros Hi. apply drop_ge. rewrite length_take. lia. Qed.
Lemma arguments_same s s' n args p : m_comparators s' = m_comparators s → m_predicant_index s' = m_predicant_index s →
  arguments s n args p → arguments s' n args p.
Proof. unfold arguments. by intros -> ->. Qed.

Lemma cmp_loop_in args p n k : ∀ s i f, ready s n i p → arguments s n args p → (i + k)%nat = n →
  ∃ s', cmp_loop dbug args k i (Some f) s = Some (in_result args p (pairs s n i) f, s') ∧ indexed s' n ∧
    m_comparators s' = m_comparators s ∧ m_predicant_index s' = m_predicant_index s.
Proof.
  induction k as [|k IH]; intros s i f R Ha Hk.
  - rewrite pairs_nil by lia. exists s. simpl. unfold in_result. simpl. rewrite orb_false_r. by destruct R.
  - destruct (cmp_arg_ok s n i p args R ltac:(lia) Ha) as (c & s1 & Hc & H0 & E & R1 & Ec & Ep).
    rewrite (pairs_cons s n i c Hc) by lia. cbn [cmp_loop]. rewrite (bind_ok _ _ _ _ _ (comparator_ok _ _ _ Hc)).
    rewrite (proj2 (Z.eqb_neq _ 0) H0), orb_true_r. unfold assert_that. rewrite (bind_ok _ _ _ _ _ (eq_refl : ret tt s = Some (tt, s))).
    rewrite (bind_ok _ _ _ _ _ E). pose proof (arguments_same s s1 n args p Ec Ep Ha) as Ha1.
    destruct (verdict args p c) as [[]|] eqn:Ev; unfold code, UNKNOWN; cbn [Z.eqb Pos.eqb].
    + exists s1. split; [|by destruct R1]. unfold in_result. simpl. rewrite decide_True by done. simpl. by rewrite orb_false_r.
    + destruct (IH s1 (S i) f R1 Ha1) as (s2 & E2 & X2 & Ec2 & Ep2); [lia|]. exists s2. unfold pairs in E2. rewrite Ec in E2. rewrite E2.
      split; [|by rewrite Ec2, Ep2]. rewrite (in_result_cons args p c _ f) by (by rewrite Ev). rewrite Ev. by rewrite orb_false_r.
    + destruct (IH s1 (S i) true R1 Ha1) as (s2 & E2 & X2 & Ec2 & Ep2); [lia|]. exists s2. unfold pairs in E2. rewrite Ec in E2. rewrite E2.
      split; [|by rewrite Ec2, Ep2]. rewrite (in_result_cons args p c _ f) by (by rewrite Ev). rewrite Ev. by rewrite orb_true_r.
Qed.
Lemma cmp_loop_case args p n k : ∀ s i, ready s n i p → arguments s n args p → (i + k)%nat = n →
  ∃ s', cmp_loop dbug args k i None s = Some (case_result args p (pairs s n i), s') ∧ indexed s' n ∧
    m_comparators s' = m_comparators s ∧ m_predicant_index s' = m_predicant_index s.
Proof.
  induction k as [|k IH]; intros s i R Ha Hk.
  - rewrite pairs_nil by lia. exists s. by destruct R.
  - destruct (cmp_arg_ok s n i p args R ltac:(lia) Ha) as (c & s1 & Hc & H0 & E & R1 & Ec & Ep).
    rewrite (pairs_cons s n i c Hc) by lia. cbn [cmp_loop]. rewrite (bind_ok _ _ _ _ _ (comparator_ok _ _ _ Hc)).
    rewrite (proj2 (Z.eqb_neq _ 0) H0), orb_true_r. unfold assert_that. rewrite (bind_ok _ _ _ _ _ (eq_refl : ret tt s = Some (tt, s))).
    rewrite (bind_ok _ _ _ _ _ E). pose proof (arguments_same s s1 n args p Ec Ep Ha) as Ha1. unfold case_result. cbn [list_find].
    destruct (verdict args p c) as [[]|] eqn:Ev; unfold code, UNKNOWN; cbn [Z.eqb Pos.eqb].
    + exists s1. rewrite decide_True by done. rewrite Ev. split; [done|by destruct R1].
    + destruct (IH s1 (S i) R1 Ha1) as (s2 & E2 & X2 & Ec2 & Ep2); [lia|]. exists s2. unfold pairs in E2. rewrite Ec in E2. rewrite E2.
      split; [|by rewrite Ec2, Ep2]. rewrite decide_False by (intros Hq; by apply Hq). unfold case_result, pairs. by destruct (list_find _ _) as [[? ?]|].
    + exists s1. rewrite decide_True by done. rewrite Ev. split; [done|by destruct R1].
Qed.
Lemma nulls_equal_loop_ok args p n k : ∀ s i, ready s n i p → arguments s n args p → (i + k)%nat = n →
  ∃ s', nulls_equal_loop dbug args k i s = Some (match list_find (λ c, same args p c = true) (pairs s n i) with
      | Some (_, c) => (false, Some (m_arg_index c)) | None => (true, None) end, s') ∧ indexed s' n ∧
    m_comparators s' = m_comparators s ∧ m_predicant_index s' = m_predicant_index s.
Proof.
  induction k as [|k IH]; intros s i R Ha Hk.
  - rewrite pairs_nil by lia. exists s. by destruct R.
  - destruct (cmp_args_nulls_equal_ok s n i p args R ltac:(lia) Ha) as (c & rc & s1 & Hc & H0 & E & Es & R1 & Ec & Ep).
    rewrite (pairs_cons s n i c Hc) by lia. cbn [nulls_equal_loop]. rewrite (bind_ok _ _ _ _ _ (comparator_ok _ _ _ Hc)).
    rewrite (proj2 (Z.eqb_neq _ 0) H0), orb_true_r. unfold assert_that. rewrite (bind_ok _ _ _ _ _ (eq_refl : ret tt s = Some (tt, s))).
    rewrite (bind_ok _ _ _ _ _ E), Es. pose proof (arguments_same s s1 n args p Ec Ep Ha) as Ha1. cbn [list_find].
    destruct (same args p c); [rewrite decide_True by done; exists s1; by destruct R1|]. rewrite decide_False by done.
    destruct (IH s1 (S i) R1 Ha1) as (s2 & E2 & X2 & Ec2 & Ep2); [lia|]. exists s2. unfold pairs in E2. rewrite Ec in E2. rewrite E2.
    split; [|by rewrite Ec2, Ep2]. unfold pairs. by destruct (list_find _ _) as [[? ?]|].
Qed.
Lemma indexed_ready s n p : indexed s n → ready s n 0 p.
Proof. intros X. split; [done|lia|lia]. Qed.

Lemma find_loop_ok s handler k : ∀ i, (i + k ≤ length (m_comparators s))%nat →
  find_loop handler k i s = Some ((λ r, (i + r.1)%nat) <$> list_find (λ c, m_handler c = handler) (take k (drop i (m_comparators s))), s).
Proof.
  induction k as [|k IH]; intros i Hl; [done|]. destruct (lookup_lt_is_Some_2 (m_comparators s) i) as [c Hc]; [lia|].
  cbn [find_loop]. rewrite (bind_ok _ _ _ _ _ (comparator_ok _ _ _ Hc)). rewrite (drop_S _ _ _ Hc). cbn [take list_find].
  destruct (Z.eqb_spec (m_handler c) handler) as [E|E]; [rewrite decide_True by done; simpl; by rewrite Nat.add_0_r|].
  rewrite decide_False by done. rewrite IH by lia. destruct (list_find _ _) as [[j d]|]; simpl; [|done]. do 3 f_equal. lia.
Qed.

Lemma cleanup_one_ok s i c : m_comparators s !! i = Some c → (m_cmp_item c ≠ 0 → is_Some (cmp_items s !! m_cmp_item c)) →
  cleanup_one i s = Some (tt, St (<[i := zeroed]> (m_comparators s)) (m_comparator_count s) (m_predicant_index s)
    (if decide (m_cmp_item c = 0) then cmp_items s else delete (m_cmp_item c) (cmp_items s)) (pred_null s)).
Proof.
  intros Hc Hx. unfold cleanup_one. rewrite (bind_ok _ _ _ _ _ (comparator_ok _ _ _ Hc)). unfold truth.
  destruct (Z.eqb_spec (m_cmp_item c) 0) as [E|E]; simpl.
  - by rewrite decide_True.
  - destruct (Hx E) as [x Hx']. rewrite decide_False by done. rewrite bind_assoc. by rewrite (bind_ok _ _ _ _ _ (cmp_item_ok _ _ s Hx')).
Qed.
Lemma cleanup_loop_ok n k : ∀ s i, (i + k)%nat = n → (n ≤ length (m_comparators s))%nat →
  (∀ j c, (i ≤ j < n)%nat → m_comparators s !! j = Some c → m_cmp_item c ≠ 0 → is_Some (cmp_items s !! m_cmp_item c)) →
  (∀ j l c d, (i ≤ j < n)%nat → (i ≤ l < n)%nat → m_comparators s !! j = Some c → m_comparators s !! l = Some d → m_cmp_item c ≠ 0 →
     m_cmp_item c = m_cmp_item d → j = l) →
  ∃ s', cleanup_loop k i s = Some (tt, s') ∧ drop n (m_comparators s') = drop n (m_comparators s) ∧ pred_null s' = pred_null s ∧
    ∀ a, cmp_items s' !! a = if decide (a ≠ 0 ∧ a ∈ m_cmp_item <$> pairs s n i) then None else cmp_items s !! a.
Proof.
  induction k as [|k IH]; intros s i Hk Hl Hx Ho.
  - exists s. rewrite pairs_nil by lia. split_and!; try done. intros a. rewrite decide_False; [done|]. intros [_ Ha]. by apply elem_of_nil in Ha.
  - destruct (lookup_lt_is_Some_2 (m_comparators s) i) as [c Hc]; [lia|]. cbn [cleanup_loop].
    rewrite (bind_ok _ _ _ _ _ (cleanup_one_ok s i c Hc (Hx i c ltac:(lia) Hc))).
    set (s1 := St _ _ _ _ _).
    assert (∀ j, (S i ≤ j)%nat → m_comparators s1 !! j = m_comparators s !! j) as Hs1 by (intros j Hj; simpl; rewrite list_lookup_insert_ne by lia; done).
    destruct (IH s1 (S i)) as (s2 & E & Ed & En & Ei).
    + lia.
    + simpl. by rewrite length_insert.
    + intros j d Hj Hd Hd0. rewrite Hs1 in Hd by lia. simpl. case_decide as E0; [by apply (Hx j d ltac:(lia))|].
      rewrite lookup_delete_ne; [by apply (Hx j d ltac:(lia))|]. intros E. assert (i = j) as ->; [|lia].
      by apply (Ho i j c d ltac:(lia) ltac:(lia)).
    + intros j l d e Hj Hl' Hd He. rewrite Hs1 in Hd, He by lia. apply (Ho j l d e); [lia|lia|done|done].
    + exists s2. split; [done|]. split; [rewrite Ed; simpl; by rewrite drop_insert_lt by lia|]. split; [done|]. intros a. rewrite Ei.
      rewrite (pairs_cons s n i c Hc) by lia. rewrite fmap_cons.
      assert (pairs s1 n (S i) = pairs s n (S i)) as ->.
      { unfold pairs. simpl. rewrite take_insert_lt by lia. by rewrite drop_insert_lt by lia. }
      destruct (decide (a ≠ 0 ∧ a ∈ m_cmp_item <$> pairs s n (S i))) as [Ha|Ha].
      { rewrite decide_True; [done|]. split; [tauto|]. right. tauto. }
      simpl. destruct (decide (m_cmp_item c = 0)) as [E0|E0].
      { rewrite decide_False; [done|]. intros [Ha0 [->|Hin]%elem_of_cons]; [done|]. by apply Ha. }
      destruct (decide (a = m_cmp_item c)) as [->|Hne].
      { rewrite lookup_delete_eq, decide_True; [done|]. split; [done|]. left. }
      rewrite lookup_delete_ne by done. rewrite decide_False; [done|]. intros [Ha0 [?|Hin]%elem_of_cons]; [done|]. by apply Ha.
Qed.
End Facts.

(** C28: the search of a predicant in a list of values, where handlers share their
    objects.  [IN] finds the first value that is equal by the handler of its pair,
    and says whether one before it, or any if none is equal, was unknown; the
    simple [CASE] stops at the first value that is equal or unknown, and finds it
    only in the first case; with NULLs equal the first equal one is found.  The
    predicant is stored in each object before the object compares, and no search
    changes the array. *)
Theorem predicant_search {Item I V} `{CL : CmpLaws Item I V} dbug (s : state I) n args p :
  indexed s n → arguments s n args p →
  let cs := take n (m_comparators s) in
  let unchanged (s' : state I) := indexed s' n ∧ m_comparators s' = m_comparators s ∧ m_predicant_index s' = m_predicant_index s in
  (∀ f, ∃ s', cmp dbug args (Some f) s = Some (in_result args p cs f, s') ∧ unchanged s') ∧
  (∃ s', cmp dbug args None s = Some (case_result args p cs, s') ∧ unchanged s') ∧
  (∃ s', cmp_nulls_equal dbug args s = Some (match list_find (λ c, same args p c = true) cs with
      | Some (_, c) => (false, Some (m_arg_index c)) | None => (true, None) end, s') ∧ unchanged s') ∧
  ∀ handler k, (k < n)%nat → find_handler dbug handler k s = Some (fst <$> list_find (λ c, m_handler c = handler) (take k (m_comparators s)), s).
Proof.
  intros X Ha. pose proof (indexed_ready s n p X) as R. pose proof (x_count _ _ X) as Hn. cbn zeta. rewrite <- (drop_0 (take n (m_comparators s))). change (drop 0 (take n (m_comparators s))) with (pairs s n 0). split_and!.
  - intros f. unfold cmp. rewrite (bind_ok _ _ _ _ _ (gets_ok _ s)), Hn. by apply cmp_loop_in.
  - unfold cmp. rewrite (bind_ok _ _ _ _ _ (gets_ok _ s)), Hn. by apply cmp_loop_case.
  - unfold cmp_nulls_equal. rewrite (bind_ok _ _ _ _ _ (gets_ok _ s)), Hn. by apply nulls_equal_loop_ok.
  - intros handler k Hk. unfold find_handler. rewrite (bind_ok _ _ _ _ _ (gets_ok _ s)), Hn.
    rewrite bool_decide_eq_true_2, orb_true_r by done. unfold assert_that. rewrite (bind_ok _ _ _ _ _ (eq_refl : ret tt s = Some (tt, s))).
    rewrite find_loop_ok by (pose proof (x_array _ _ X); lia). rewrite drop_0. by destruct (list_find _ _) as [[j c]|].
Qed.

(** Optional numbers with two handlers: equality, and equality of the last digit. *)
Definition last_digit (h : Z) (p v : option Z) : option bool :=
  match p, v with Some a, Some b => Some (if h =? 2 then a mod 10 =? b mod 10 else a =? b) | _, _ => None end.
#[export] Instance digit_items : CmpItems (option Z) (Z * option Z) (option Z) := {|
  store_value p i := (i.1, p); null_after p := bool_decide (p = None); item_cmp v i := code (last_digit i.1 i.2 v);
  Item_save_in_value h v := v; is_null v := bool_decide (v = None); cmp_not_null v i := code (last_digit i.1 i.2 v);
  type_handler_row := 99 |}.
#[export, refine] Instance digit_laws : CmpLaws (option Z) (Z * option Z) (option Z) := {|
  equality := last_digit; of_handler i h := i.1 = h; holds i h p := i = (h, p) |}.
Proof.
  - intros [h' q] h p. simpl. by intros ->.
  - by intros i h p ->.
  - by intros i h p v ->.
  - intros h [a|] v Hp; [by apply bool_decide_eq_true in Hp|done].
  - done.
  - intros i h p v ->. simpl. intros Hp Hv. destruct p as [a|], v as [b|]; try done. simpl.
    by destruct (if h =? 2 then _ else _).
Defined.
(** 17 IN (NULL, 7 by the last digit, 17): the second is equal, after an unknown. *)
Lemma predicant_search_witness :
  let s := St [Cmp 1 5 1 0; Cmp 2 6 2 1; Cmp 1 0 3 0] 3 0 (<[5 := (1, None)]> (<[6 := (2, None)]> ∅)) false in
  ∃ s', cmp true [Some 17; None; Some 7; Some 17] (Some false) s = Some ((false, Some 2%nat, Some true), s').
Proof.
  destruct (predicant_search true (St [Cmp 1 5 1 0; Cmp 2 6 2 1; Cmp 1 0 3 0] 3 0 (<[5 := (1, None)]> (<[6 := (2, None)]> ∅)) false)
    3 [Some 17; None; Some 7; Some 17] (Some 17)) as [H _].
  - split; simpl.
    + done.
    + lia.
    + intros [|[|[|i]]] c Hc Hi; try lia; injection Hc as <-; simpl; [exists (Cmp 1 5 1 0)|exists (Cmp 2 6 2 1)|exists (Cmp 1 5 1 0)]; split_and!; try done; lia.
    + intros [|[|[|i]]] c Hc Hi E; try lia; injection Hc as <-; simpl in *; try lia; (split; [lia|]); eexists; split; reflexivity.
    + intros [|[|[|i]]] c Hc Hi E; try lia; injection Hc as <-; simpl in *; lia.
    + intros [|[|[|i]]] [|[|[|j]]] c d Hc Hd Hi Hj H0 E; try lia; injection Hc as <-; injection Hd as <-; simpl in *; lia.
  - split; [done|]. intros [|[|[|j]]] c Hc Hj; try lia; injection Hc as <-; simpl; lia.
  - destruct (H false) as (s' & E & _). exists s'. exact E.
Defined.

(** [cleanup] deletes the object of each handler once, and no other, and leaves
    no pair behind. *)
Theorem predicant_cleanup {Item I V} `{CL : CmpLaws Item I V} (s : state I) n : indexed s n →
  ∃ s', cleanup s = Some (tt, s') ∧ m_comparator_count s' = 0%nat ∧ m_predicant_index s' = 0%nat ∧
    m_comparators s' = replicate n zeroed ++ drop n (m_comparators s) ∧
    ∀ a, cmp_items s' !! a = if decide (a ≠ 0 ∧ a ∈ m_cmp_item <$> take n (m_comparators s)) then None else cmp_items s !! a.
Proof.
  intros [Xc Xa Xf Xi Xn Xo]. unfold cleanup. rewrite (bind_ok _ _ _ _ _ (gets_ok _ s)), Xc.
  destruct (cleanup_loop_ok n n s 0) as (s' & E & Ed & En & Ei); [done|done|..].
  - intros j c Hj Hc H0. destruct (decide (m_handler_index c = j)) as [Ej|Ej].
    + destruct (Xi j c Hc ltac:(lia) Ej) as (_ & x & Hx & _). by exists x.
    + by rewrite (Xn j c Hc ltac:(lia) Ej) in H0.
  - intros j l c d Hj Hl Hc Hd. apply (Xo j l c d Hc Hd); lia.
  - rewrite (bind_ok _ _ _ _ _ E). eexists. split; [done|]. simpl. rewrite Ed. unfold pairs in Ei. rewrite drop_0 in Ei. done.
Qed.
Lemma predicant_cleanup_witness : ∃ s', cleanup (St [Cmp 1 5 1 0; Cmp 1 0 2 0] 2 0 (<[5 := (1, Some 4)]> ∅) false) = Some (tt, s') ∧ cmp_items s' !! 5 = None.
Proof.
  destruct (predicant_cleanup (St [Cmp 1 5 1 0; Cmp 1 0 2 0] 2 0 (<[5 := (1, Some 4)]> ∅) false) 2) as (s' & E & _ & _ & _ & Hi).
  - split; simpl.
    + done.
    + lia.
    + intros [|[|i]] c Hc Hi; try lia; injection Hc as <-; simpl; exists (Cmp 1 5 1 0); split_and!; try done; lia.
    + intros [|[|i]] c Hc Hi E; try lia; injection Hc as <-; simpl in *; try lia. split; [lia|]. eexists; split; reflexivity.
    + intros [|[|i]] c Hc Hi E; try lia; injection Hc as <-; simpl in *; lia.
    + intros [|[|i]] [|[|j]] c d Hc Hd Hi Hj H0 E; try lia; injection Hc as <-; injection Hd as <-; simpl in *; lia.
  - exists s'. split; [done|]. rewrite Hi. reflexivity.
Defined.
