(* ===== verification/FieldRecord.v ===== *)
(** [field.h], [class Field] and [Field_bit]: where a column is in a record, its
    NULL bit, the moves to another record, the smallest and largest values of a
    column, and the bits of a BIT column beside the NULL bits. *)
From S2P Require Import Prelude MyCompare.

(** Addresses are indices in the memory [T], a list of bytes; 0 is null. *)
Definition at_offset (p : nat) (d : Z) : option nat := if bool_decide (0 ≤ Z.of_nat p + d) then Some (Z.to_nat (Z.of_nat p + d)) else None.

(** ** [Field] *)

(** The members; [field_type] is the code of the type, and [rec0], [rec_buff_length],
    [null_row] and [table_maybe_null] are members of the table. *)
Record Field := Mk {
  ptr : nat;
  null_ptr : nat;
  null_bit : Z;
  field_length : Z;
  field_type : Z }.
Record TABLE := Tab { rec0 : nat; rec_buff_length : Z; null_row : bool; table_maybe_null : bool }.

Section Code.
Context (dbug : bool) (t : TABLE).

Definition is_null (T : list Z) (row_offset : Z) (f : Field) : option bool :=
  if negb (null_ptr f =? 0)%nat
  then a ← at_offset (null_ptr f) row_offset; b ← T !! a; Some (truth (Z.land b (null_bit f)))
  else Some (null_row t).
Definition is_real_null (T : list Z) (row_offset : Z) (f : Field) : option bool :=
  if negb (null_ptr f =? 0)%nat
  then a ← at_offset (null_ptr f) row_offset; b ← T !! a; Some (truth (Z.land b (null_bit f)))
  else Some false.
Definition maybe_null_in_table (f : Field) : bool := (rec0 t <=? null_ptr f)%nat && (null_ptr f <=? ptr f)%nat.
Definition null_offset_in (record : nat) (f : Field) : Z := to_uint32 (Z.of_nat (null_ptr f) - Z.of_nat record).
Definition null_offset (f : Field) : Z := null_offset_in (rec0 t) f.
Definition is_null_in_record (T : list Z) (record : nat) (f : Field) : option bool :=
  if maybe_null_in_table f
  then b ← T !! (record + Z.to_nat (null_offset f))%nat; Some (truth (Z.land b (null_bit f)))
  else Some false.
Definition set_null (T : list Z) (row_offset : Z) (f : Field) : option (list Z) :=
  if negb (null_ptr f =? 0)%nat
  then a ← at_offset (null_ptr f) row_offset; b ← T !! a; poke T a (uchar (Z.lor b (null_bit f)))
  else Some T.
Definition set_notnull (T : list Z) (row_offset : Z) (f : Field) : option (list Z) :=
  if negb (null_ptr f =? 0)%nat
  then a ← at_offset (null_ptr f) row_offset; b ← T !! a; poke T a (uchar (Z.land b (uchar (Z.lnot (null_bit f)))))
  else Some T.
Definition maybe_null (f : Field) : bool := negb (null_ptr f =? 0)%nat || table_maybe_null t.
Definition real_maybe_null (f : Field) : bool := negb (null_ptr f =? 0)%nat.
Definition set_null_ptr (p_null_ptr : nat) (p_null_bit : Z) (f : Field) : Field :=
  Mk (ptr f) p_null_ptr (uchar p_null_bit) (field_length f) (field_type f).
Definition eq (g f : Field) : bool :=
  (ptr f =? ptr g)%nat && (null_ptr f =? null_ptr g)%nat && (null_bit f =? null_bit g) && (field_type g =? field_type f).
Definition offset (record : nat) (f : Field) : Z := to_uint32 (Z.of_nat (ptr f) - Z.of_nat record).
Definition ptr_in_record (record : nat) (f : Field) : option nat :=
  let l_offset := Z.of_nat (ptr f) - Z.of_nat (rec0 t) in
  if dbug && negb ((0 <=? l_offset) && (0 <? rec_buff_length t - l_offset)) then None else at_offset record l_offset.
Definition move_field (ptr_arg null_ptr_arg : nat) (null_bit_arg : Z) (f : Field) : Field :=
  Mk ptr_arg null_ptr_arg null_bit_arg (field_length f) (field_type f).
Definition move_field_ptr (ptr_arg : nat) (f : Field) : Field := Mk ptr_arg (null_ptr f) (null_bit f) (field_length f) (field_type f).
Definition move_field_offset (ptr_diff : Z) (f : Field) : option Field :=
  p ← at_offset (ptr f) ptr_diff;
  n ← (if negb (null_ptr f =? 0)%nat then at_offset (null_ptr f) ptr_diff else Some (null_ptr f));
  Some (Mk p n (null_bit f) (field_length f) (field_type f)).
Definition pack_length (f : Field) : Z := to_uint32 (field_length f).

(** [memcpy], and [bzero], within the memory. *)
Definition get_bytes (T : list Z) (p : nat) (n : Z) : option (list Z) :=
  if bool_decide (0 ≤ n ∧ Z.of_nat p + n ≤ Z.of_nat (length T)) then Some (take (Z.to_nat n) (drop p T)) else None.
Definition put_bytes (T : list Z) (p : nat) (b : list Z) : option (list Z) :=
  if bool_decide (p + length b ≤ length T)%nat then Some (take p T ++ b ++ drop (p + length b) T) else None.
Definition reset (T : list Z) (f : Field) : option (list Z) := put_bytes T (ptr f) (replicate (Z.to_nat (pack_length f)) 0).
Definition get_image (T : list Z) (length : Z) (f : Field) : option (list Z) := get_bytes T (ptr f) length.
Definition set_image (T : list Z) (buff : list Z) (f : Field) : option (list Z) := put_bytes T (ptr f) buff.

(** The trailing spaces of a CHAR value; [zero_pack] is the virtual function. *)
Definition MYSQL_TYPE_STRING : Z := 254.
Fixpoint strip_loop (T : list Z) (str : nat) (n : nat) : option nat :=
  match n with
  | O => Some O
  | S m => c ← T !! (str + m)%nat; if c =? 32 then strip_loop T str m else Some n
  end.
Definition value_length (zero_pack : bool) (T : list Z) (f : Field) : option Z :=
  let len := pack_length f in
  if negb zero_pack && (field_type f =? MYSQL_TYPE_STRING) && (4 <=? len) && (len <? 256)
  then Z.of_nat <$> strip_loop T (ptr f) (Z.to_nat len) else Some len.

(** [cmp] compares the values at two addresses. *)
Section Cmp.
Context (cmp : list Z → nat → nat → option Z).
Definition update_min (T : list Z) (min_val f : Field) (force_update : bool) : option (bool * list Z) :=
  c ← (if force_update then Some (-1) else cmp T (ptr f) (ptr min_val));
  if c <? 0 then
    T ← set_notnull T 0 min_val;
    b ← get_bytes T (ptr f) (pack_length f);
    T ← put_bytes T (ptr min_val) b;
    Some (true, T)
  else Some (false, T).
Definition update_max (T : list Z) (max_val f : Field) (force_update : bool) : option (bool * list Z) :=
  c ← (if force_update then Some 1 else cmp T (ptr f) (ptr max_val));
  if 0 <? c then
    T ← set_notnull T 0 max_val;
    b ← get_bytes T (ptr f) (pack_length f);
    T ← put_bytes T (ptr max_val) b;
    Some (true, T)
  else Some (false, T).
End Cmp.
End Code.

(** ** [Field_bit] *)

Module Bit.
Record Field_bit := Mk { field : Field; bit_ptr : nat; bit_ofs : Z; bit_len : Z; bytes_in_rec : Z }.
Definition set_bit_ptr (bit_ptr_arg : nat) (bit_ofs_arg : Z) (f : Field_bit) : Field_bit :=
  Mk (field f) bit_ptr_arg bit_ofs_arg (bit_len f) (bytes_in_rec f).
Definition eq (g f : Field_bit) : bool :=
  eq (field g) (field f) && (bit_ptr f =? bit_ptr g)%nat && (bit_ofs f =? bit_ofs g).
Definition move_field_offset (ptr_diff : Z) (f : Field_bit) : option Field_bit :=
  g ← move_field_offset ptr_diff (field f);
  p ← (if negb (bit_ptr f =? 0)%nat then at_offset (bit_ptr f) ptr_diff else Some (bit_ptr f));
  Some (Mk g p (bit_ofs f) (bit_len f) (bytes_in_rec f)).
Definition reset (T : list Z) (f : Field_bit) : option (list Z) :=
  T ← put_bytes T (ptr (field f)) (replicate (Z.to_nat (bytes_in_rec f)) 0);
  if negb (bit_ptr f =? 0)%nat && (0 <? bit_len f) then clr_rec_bits T (bit_ptr f) (bit_ofs f) (bit_len f) else Some T.
Definition pack_length (f : Field_bit) : Z := to_uint32 (field_length (field f) + 7) / 8.
Definition row_pack_length (f : Field_bit) : Z := to_uint32 (bytes_in_rec f + (if 0 <? bit_len f then 1 else 0)).
End Bit.

(** * Theorems *)

Module FieldFacts.
Lemma at_offset_ok p d : 0 ≤ Z.of_nat p + d → at_offset p d = Some (Z.to_nat (Z.of_nat p + d)).
Proof. intros. unfold at_offset. by rewrite bool_decide_eq_true_2. Qed.
Lemma at_offset_Some p d a : at_offset p d = Some a → Z.of_nat a = Z.of_nat p + d.
Proof. unfold at_offset. case_bool_decide; [|done]. intros [= <-]. lia. Qed.
(** The NULL flag of a field with bit [k]. *)
Lemma real_null_bit T d f a k : null_ptr f ≠ 0%nat → null_bit f = 2 ^ k → 0 ≤ k → at_offset (null_ptr f) d = Some a →
  is_real_null T d f = (λ b, Z.testbit b k) <$> T !! a.
Proof.
  intros H0 Hb Hk Ha. unfold is_real_null. rewrite (proj2 (Nat.eqb_neq _ _) H0). cbn [negb]. rewrite Ha. cbn [mbind option_bind].
  destruct (T !! a) as [b|]; [|done]. cbn. by rewrite Hb, truth_land_pow2.
Qed.
(** Writing one byte in which only bit [k] changes. *)
Lemma other_flag T a b b' k g d l : T !! a = Some b → null_bit g = 2 ^ l → 0 ≤ l → (∀ j, 0 ≤ j → j ≠ k → Z.testbit b' j = Z.testbit b j) →
  (at_offset (null_ptr g) d ≠ Some a ∨ l ≠ k) → is_real_null (<[a := b']> T) d g = is_real_null T d g.
Proof.
  intros Hb Hg Hl Hj Hne. unfold is_real_null. destruct (null_ptr g =? 0)%nat; [done|]. cbn [negb].
  destruct (at_offset (null_ptr g) d) as [c|]; [|done]. cbn [mbind option_bind].
  destruct (decide (c = a)) as [->|Hc]; [|by rewrite list_lookup_insert_ne].
  rewrite list_lookup_insert_eq by (by eapply lookup_lt_Some). rewrite Hb. cbn. rewrite Hg, !truth_land_pow2 by done.
  f_equal. apply Hj; [done|]. naive_solver.
Qed.
Lemma set_bit_testbit b k j : 0 ≤ k < 8 → in_u 8 b → 0 ≤ j → Z.testbit (uchar (Z.lor b (2 ^ k))) j = if j =? k then true else Z.testbit b j.
Proof.
  intros Hk Hb Hj. destruct (Z.ltb_spec j 8).
  - rewrite uchar_testbit by lia. rewrite Z.lor_spec, Z.pow2_bits_eqb by lia. destruct (Z.eqb_spec j k) as [->|]; [rewrite Z.eqb_refl|rewrite (proj2 (Z.eqb_neq k j)) by lia]; [by rewrite orb_true_r|by rewrite orb_false_r].
  - rewrite (in_u_testbit 8 (uchar _)) by (apply uchar_range || lia). rewrite (in_u_testbit 8 b) by (done || lia). by destruct (Z.eqb_spec j k); [lia|].
Qed.
Lemma clear_bit_testbit b k j : 0 ≤ k < 8 → in_u 8 b → 0 ≤ j →
  Z.testbit (uchar (Z.land b (uchar (Z.lnot (2 ^ k))))) j = if j =? k then false else Z.testbit b j.
Proof.
  intros Hk Hb Hj. destruct (Z.ltb_spec j 8).
  - rewrite uchar_testbit by lia. rewrite Z.land_spec, uchar_testbit, Z.lnot_spec, Z.pow2_bits_eqb by lia.
    destruct (Z.eqb_spec j k) as [->|]; [rewrite Z.eqb_refl|rewrite (proj2 (Z.eqb_neq k j)) by lia]; [by rewrite andb_false_r|by rewrite andb_true_r].
  - rewrite (in_u_testbit 8 (uchar _)) by (apply uchar_range || lia). rewrite (in_u_testbit 8 b) by (done || lia). by destruct (Z.eqb_spec j k).
Qed.
Lemma set_null_ok T d f a b : null_ptr f ≠ 0%nat → at_offset (null_ptr f) d = Some a → T !! a = Some b →
  set_null T d f = Some (<[a := uchar (Z.lor b (null_bit f))]> T) ∧
  set_notnull T d f = Some (<[a := uchar (Z.land b (uchar (Z.lnot (null_bit f))))]> T).
Proof.
  intros H0 Ha Hb. unfold set_null, set_notnull. rewrite (proj2 (Nat.eqb_neq _ _) H0). cbn [negb]. rewrite Ha. cbn [mbind option_bind].
  rewrite Hb. cbn [mbind option_bind]. apply lookup_lt_Some in Hb. unfold poke. by rewrite !decide_True.
Qed.
End FieldFacts.

(** C31: the NULL bit of a column.  Setting and clearing it is what reading it gives;
    no other byte of memory changes, and every column with another bit, in this
    record or another, keeps its own. *)
Theorem field_null_bits t T d f a k : bytes T → null_ptr f ≠ 0%nat → null_bit f = 2 ^ k → 0 ≤ k < 8 →
  at_offset (null_ptr f) d = Some a → (a < length T)%nat →
  ∀ null : bool, ∃ T', (if null then set_null T d f else set_notnull T d f) = Some T' ∧ bytes T' ∧ length T' = length T ∧
    is_null t T' d f = Some null ∧ is_real_null T' d f = Some null ∧
    (∀ i, i ≠ a → T' !! i = T !! i) ∧
    ∀ g e l, null_bit g = 2 ^ l → 0 ≤ l → (at_offset (null_ptr g) e ≠ Some a ∨ l ≠ k) → is_real_null T' e g = is_real_null T e g.
Proof.
  intros HT H0 Hbit Hk Ha Hlen null. destruct (lookup_lt_is_Some_2 T a Hlen) as [b Hb]. pose proof (byte_at _ _ _ HT Hb) as Hbr.
  destruct (FieldFacts.set_null_ok T d f a b H0 Ha Hb) as [E1 E2]. rewrite Hbit in *.
  set (v := if null then uchar (Z.lor b (2 ^ k)) else uchar (Z.land b (uchar (Z.lnot (2 ^ k))))).
  assert (∀ j, 0 ≤ j → Z.testbit v j = if j =? k then null else Z.testbit b j) as Hv.
  { intros j Hj. unfold v. destruct null; [by apply FieldFacts.set_bit_testbit|by apply FieldFacts.clear_bit_testbit]. }
  assert (is_real_null (<[a := v]> T) d f = Some null) as Hr.
  { rewrite (FieldFacts.real_null_bit _ d f a k) by (done || lia). rewrite list_lookup_insert_eq by done. cbn. by rewrite Hv, Z.eqb_refl by lia. }
  exists (<[a := v]> T). split; [by unfold v; destruct null|]. split; [apply Forall_insert; [done|unfold v; destruct null; apply uchar_range]|].
  rewrite length_insert. split; [done|]. split; [|split; [done|split]].
  - unfold is_null, is_real_null in *. by rewrite (proj2 (Nat.eqb_neq _ _) H0) in *.
  - intros i Hi. by rewrite list_lookup_insert_ne.
  - intros g e l Hg Hl Hne. apply (FieldFacts.other_flag _ a b v k g e l); try done.
    intros j Hj Hjk. rewrite Hv by done. by rewrite (proj2 (Z.eqb_neq j k)).
Qed.
Lemma field_null_bits_witness : ∃ T', set_null [0; 1; 7] 0 (Mk 2 1 2 1 3) = Some T' ∧ is_real_null T' 0 (Mk 2 1 1 1 3) = Some true.
Proof.
  destruct (field_null_bits (Tab 1 2 false false) [0; 1; 7] 0 (Mk 2 1 2 1 3) 1%nat 1) with (null := true) as (T' & E & _ & _ & _ & _ & _ & H).
  - repeat constructor; unfold in_u; lia.
  - done.
  - done.
  - lia.
  - done.
  - simpl. lia.
  - exists T'. split; [done|]. rewrite (H (Mk 2 1 1 1 3) 0 0); [done|done|done|by right].
Defined.

Module Move_facts.
Import FieldFacts.
Lemma at_offset_add p d q e : at_offset p d = Some q → at_offset q e = at_offset p (d + e).
Proof. intros H. apply at_offset_Some in H. unfold at_offset. rewrite H, Z.add_assoc. done. Qed.
Lemma at_offset_back p d q : at_offset p d = Some q → at_offset q (- d) = Some p.
Proof. intros H. rewrite (at_offset_add _ _ _ _ H), Z.add_opp_diag_r. unfold at_offset. rewrite bool_decide_eq_true_2 by lia. f_equal. lia. Qed.
End Move_facts.

(** a column in another record.  Moving it by the distance of two records gives
    the column of the other one: its place and its NULL bit have the same offsets
    there, reading and writing the bit without an offset is what the column
    that was not moved does with the distance as offset, and moving back restores
    the column. *)
Theorem field_moves dbug t f record : (0 < rec0 t)%nat → (0 < record)%nat → maybe_null_in_table t f = true →
  Z.of_nat (ptr f) - Z.of_nat (rec0 t) < rec_buff_length t → rec_buff_length t ≤ 2 ^ 32 →
  let d := Z.of_nat record - Z.of_nat (rec0 t) in
  ∃ f', move_field_offset d f = Some f' ∧ move_field_offset (- d) f' = Some f ∧
    ptr_in_record dbug t record f = Some (ptr f') ∧ offset record f' = offset (rec0 t) f ∧ null_offset_in record f' = null_offset t f ∧
    (∀ T, is_null_in_record t T record f = is_real_null T d f) ∧
    ∀ T e, is_real_null T e f' = is_real_null T (d + e) f ∧ set_null T e f' = set_null T (d + e) f ∧ set_notnull T e f' = set_notnull T (d + e) f.
Proof.
  intros Hr Hrec Hin Hb Hb32 d. unfold maybe_null_in_table in Hin. pose proof Hin as [Hn1%Nat.leb_le Hn2%Nat.leb_le]%andb_prop.
  assert (at_offset (ptr f) d = Some (Z.to_nat (Z.of_nat (ptr f) + d))) as Ep by (apply FieldFacts.at_offset_ok; unfold d; lia).
  assert (at_offset (null_ptr f) d = Some (Z.to_nat (Z.of_nat (null_ptr f) + d))) as En by (apply FieldFacts.at_offset_ok; unfold d; lia).
  assert (null_ptr f ≠ 0%nat) as H0 by lia. set (p := Z.to_nat (Z.of_nat (ptr f) + d)) in *. set (n := Z.to_nat (Z.of_nat (null_ptr f) + d)) in *.
  assert (n ≠ 0%nat) as Hn0 by (unfold n, d; lia).
  exists (Mk p n (null_bit f) (field_length f) (field_type f)). split.
  { unfold move_field_offset. rewrite Ep, (proj2 (Nat.eqb_neq _ _) H0). cbn [negb mbind option_bind]. by rewrite En. }
  split. { unfold move_field_offset. cbn [ptr null_ptr null_bit field_length field_type]. rewrite (Move_facts.at_offset_back _ _ _ Ep), (proj2 (Nat.eqb_neq _ _) Hn0).
    cbn [negb mbind option_bind]. rewrite (Move_facts.at_offset_back _ _ _ En). by destruct f. }
  split. { unfold ptr_in_record. rewrite (proj2 (Z.leb_le 0 _)), (proj2 (Z.ltb_lt 0 _)), andb_false_r by lia. cbn [ptr]. unfold p, d.
    rewrite FieldFacts.at_offset_ok by lia. f_equal. lia. }
  split; [unfold offset; cbn [ptr]; f_equal; unfold p, d; lia|]. split; [unfold null_offset, null_offset_in; cbn [null_ptr]; f_equal; unfold n, d; lia|]. split.
  - intros T. unfold is_null_in_record, is_real_null, maybe_null_in_table. rewrite Hin, (proj2 (Nat.eqb_neq _ _) H0). cbn [negb].
    rewrite En. cbn [mbind option_bind]. unfold null_offset, null_offset_in, to_uint32. rewrite wrap_id by (unfold in_u; lia).
    do 2 f_equal. unfold n, d. lia.
  - intros T e. unfold is_real_null, set_null, set_notnull. cbn [null_ptr null_bit].
    by rewrite (proj2 (Nat.eqb_neq _ _) H0), (proj2 (Nat.eqb_neq _ _) Hn0), (Move_facts.at_offset_add _ _ _ e En).
Qed.
Lemma field_moves_witness : ∃ f', move_field_offset 10 (Mk 3 1 4 2 3) = Some f' ∧ move_field_offset (-10) f' = Some (Mk 3 1 4 2 3).
Proof.
  destruct (field_moves true (Tab 1 8 false false) (Mk 3 1 4 2 3) 11) as (f' & E1 & E2 & _); [simpl; lia|lia|done|simpl; lia|simpl; lia|].
  exists f'. split; [exact E1|exact E2].
Defined.

(** ** The length of a CHAR value *)

Lemma strip_loop_ok T p n : (p + n ≤ length T)%nat → ∃ m, strip_loop T p n = Some m ∧ (m ≤ n)%nat ∧
  (∀ i, (m ≤ i < n)%nat → T !! (p + i)%nat = Some 32) ∧ ((0 < m)%nat → T !! (p + (m - 1))%nat ≠ Some 32).
Proof.
  induction n as [|n IH]; intros Hl; [exists 0%nat; split_and!; [done|lia|lia|lia]|]. cbn [strip_loop].
  destruct (lookup_lt_is_Some_2 T (p + n)) as [c Hc]; [lia|]. rewrite Hc. cbn [mbind option_bind].
  destruct (Z.eqb_spec c 32) as [->|Hne].
  - destruct IH as (m & E & Hm & Hs & Hl0); [lia|]. exists m. split_and!; [done|lia| |done].
    intros i Hi. destruct (decide (i = n)) as [->|]; [done|apply Hs; lia].
  - exists (S n). split_and!; [done|lia|lia|]. intros _. replace (p + (S n - 1))%nat with (p + n)%nat by lia. rewrite Hc. congruence.
Qed.
(** The length of a CHAR value is that without its trailing spaces, of every other
    value that of the column. *)
Theorem value_length_strips zero_pack T f : (ptr f + Z.to_nat (pack_length f) ≤ length T)%nat →
  ∃ n, value_length zero_pack T f = Some n ∧ 0 ≤ n ≤ pack_length f ∧
    (zero_pack = true ∨ field_type f ≠ MYSQL_TYPE_STRING ∨ pack_length f < 4 ∨ 256 ≤ pack_length f → n = pack_length f) ∧
    (n < pack_length f → (∀ i, n ≤ i < pack_length f → T !! (ptr f + Z.to_nat i)%nat = Some 32) ∧
       (0 < n → T !! (ptr f + Z.to_nat (n - 1))%nat ≠ Some 32)).
Proof.
  intros Hl. unfold value_length. assert (0 ≤ pack_length f) as H0 by (apply (wrap_in_u 32); lia).
  destruct (strip_loop_ok T (ptr f) (Z.to_nat (pack_length f)) Hl) as (m & E & Hm & Hs & Hn).
  destruct (negb zero_pack && (field_type f =? MYSQL_TYPE_STRING) && (4 <=? pack_length f) && (pack_length f <? 256)) eqn:C.
  - rewrite E. eexists. split; [done|]. split; [lia|]. split.
    + intros Hor. exfalso. destruct zero_pack; [done|]. simpl in C. revert C. zcases; simpl; try done; intros _; naive_solver lia.
    + intros Hlt. split; [intros i Hi; apply Hs; lia|]. intros Hp. replace (Z.to_nat (Z.of_nat m - 1)) with (m - 1)%nat by lia. apply Hn. lia.
  - eexists. split; [done|]. split; [lia|]. split; [done|lia].
Qed.

(** ** The smallest and the largest value of a column *)

(** The column [f] takes the values [rows] in turn, and each time [upd] compares it
    with [g], which holds nothing before the first. *)
Fixpoint scan (upd : list Z → Field → Field → bool → option (bool * list Z)) (T : list Z) (g f : Field) (rows : list (list Z)) (force : bool)
    : option (list Z) :=
  match rows with
  | [] => Some T
  | v :: rows => T ← set_image T v f; r ← upd T g f force; scan upd (snd r) g f rows false
  end.
(** The value at an address, and the comparison of two values by their bytes. *)
Definition value (T : list Z) (p : nat) (n : nat) : list Z := take n (drop p T).
Definition cmp_values (C : list Z → list Z → Z) (n : nat) (T : list Z) (a b : nat) : option Z := Some (C (value T a n) (value T b n)).

Module Extremes.
Section Facts.
Context (f g : Field) (n : nat) (k : Z) (better : list Z → list Z → bool).
(** The two columns do not overlap, and the NULL byte of [g] is in neither. *)
Record layout (T : list Z) : Prop := {
  l_bytes : bytes T;
  l_n : pack_length f = Z.of_nat n;
  l_f : (ptr f + n ≤ length T)%nat;
  l_g : (ptr g + n ≤ length T)%nat;
  l_apart : (ptr f + n ≤ ptr g ∨ ptr g + n ≤ ptr f)%nat;
  l_null : null_ptr g ≠ 0%nat ∧ (null_ptr g < length T)%nat;
  l_bit : null_bit g = 2 ^ k ∧ 0 ≤ k < 8;
  l_null_f : (null_ptr g < ptr f ∨ ptr f + n ≤ null_ptr g)%nat;
  l_null_g : (null_ptr g < ptr g ∨ ptr g + n ≤ null_ptr g)%nat }.

Lemma put_bytes_ok T p b : (p + length b ≤ length T)%nat → ∃ T', put_bytes T p b = Some T' ∧ length T' = length T ∧
  (bytes T → bytes b → bytes T') ∧ value T' p (length b) = b ∧ ∀ i, (i < p ∨ p + length b ≤ i)%nat → T' !! i = T !! i.
Proof.
  intros Hl. unfold put_bytes. rewrite bool_decide_eq_true_2 by done. eexists. split; [done|].
  split; [rewrite !length_app, length_take, length_drop; lia|].
  split; [intros HT Hb; apply Forall_app; split; [by apply Forall_take|apply Forall_app; split; [done|by apply Forall_drop]]|].
  split; [unfold value; rewrite drop_app_length' by (rewrite length_take; lia); by rewrite take_app_length|].
  intros i [Hi|Hi]; [rewrite lookup_app_l by (rewrite length_take; lia); by rewrite lookup_take_lt by lia|].
  rewrite lookup_app_r by (rewrite length_take; lia). rewrite lookup_app_r by (rewrite length_take; lia).
  rewrite lookup_drop, length_take. f_equal. lia.
Qed.
Lemma value_ext T T' p m : (∀ i, (p ≤ i < p + m)%nat → T' !! i = T !! i) → value T' p m = value T p m.
Proof.
  intros H. unfold value. apply list_eq. intros i. destruct (decide (i < m)%nat); [|by rewrite !lookup_take_ge by lia].
  rewrite !lookup_take_lt, !lookup_drop by lia. apply H. lia.
Qed.
Lemma layout_same T T' : layout T → bytes T' → length T' = length T → layout T'.
Proof. intros [] ? E. split; try done; by rewrite E. Qed.

(** The common part of [update_min] and [update_max]. *)
Definition copy (T : list Z) : option (bool * list Z) :=
  T ← set_notnull T 0 g; b ← get_bytes T (ptr f) (pack_length f); T ← put_bytes T (ptr g) b; Some (true, T).
Lemma copy_ok T : layout T → ∃ T', copy T = Some (true, T') ∧ layout T' ∧ value T' (ptr g) n = value T (ptr f) n ∧
  is_real_null T' 0 g = Some false.
Proof.
  intros L. pose proof L as [HT Hn Hf Hg Ha [H0 Hnl] [Hb Hk] Hnf Hng].
  assert (at_offset (null_ptr g) 0 = Some (null_ptr g)) as Ha0 by (rewrite FieldFacts.at_offset_ok by lia; f_equal; lia).
  destruct (lookup_lt_is_Some_2 T _ Hnl) as [b Hbv]. pose proof (byte_at _ _ _ HT Hbv) as Hbr.
  destruct (FieldFacts.set_null_ok T 0 g _ b H0 Ha0 Hbv) as [_ E1]. rewrite Hb in E1. set (v := uchar _) in E1.
  set (T1 := <[null_ptr g := v]> T). assert (length T1 = length T) as L1 by apply length_insert.
  assert (bytes T1) as B1 by (apply Forall_insert; [done|apply uchar_range]).
  assert (value T1 (ptr f) n = value T (ptr f) n) as Vf by (apply value_ext; intros i Hi; unfold T1; by rewrite list_lookup_insert_ne by lia).
  assert (length (value T1 (ptr f) n) = n) as Lv by (unfold value; rewrite length_take, length_drop; lia).
  destruct (put_bytes_ok T1 (ptr g) (value T1 (ptr f) n)) as (T' & E & L' & B' & V' & I'); [lia|].
  exists T'. split.
  { unfold copy. rewrite E1. cbn [mbind option_bind]. fold T1. unfold get_bytes. rewrite Hn, bool_decide_eq_true_2 by lia.
    cbn [mbind option_bind]. rewrite Nat2Z.id. fold (value T1 (ptr f) n). by rewrite E. }
  split; [apply (layout_same T); [done| |lia]; apply B'; [done|]; by apply Forall_take, Forall_drop|].
  split; [rewrite <- Lv at 1; by rewrite V', Vf|].
  rewrite (FieldFacts.real_null_bit _ 0 g _ k H0 Hb ltac:(lia) Ha0). rewrite I' by lia.
  unfold T1. rewrite list_lookup_insert_eq by done. cbn. unfold v. by rewrite FieldFacts.clear_bit_testbit, Z.eqb_refl by (done || lia).
Qed.

Context (upd : list Z → Field → Field → bool → option (bool * list Z)).
Context (Hupd : ∀ T force, upd T g f force = if force || better (value T (ptr f) n) (value T (ptr g) n) then copy T else Some (false, T)).
Context (Hasym : ∀ x y, better x y = true → better y x = false) (Hneg : ∀ x y z, better x z = true → better x y = true ∨ better y z = true).
Lemma never_better x : better x x = false.
Proof. destruct (better x x) eqn:E; [|done]. by rewrite (Hasym x x E) in E. Qed.

Lemma scan_step T v force : layout T → length v = n → bytes v → (force = false → is_real_null T 0 g = Some false) →
  ∃ T1 T2 u, set_image T v f = Some T1 ∧ upd T1 g f force = Some (u, T2) ∧ layout T2 ∧ is_real_null T2 0 g = Some false ∧
    value T2 (ptr g) n = if force || better v (value T (ptr g) n) then v else value T (ptr g) n.
Proof.
  intros L Hv Hbv Hnull. pose proof L as [HT Hn Hf Hg Ha [H0 Hnl] [Hb Hk] Hnf Hng].
  destruct (put_bytes_ok T (ptr f) v) as (T1 & E & L1 & B1 & V1 & I1); [lia|]. exists T1. rewrite Hv in *.
  assert (layout T1) as La1 by (apply (layout_same T); [done|by apply B1|done]).
  assert (value T1 (ptr g) n = value T (ptr g) n) as Vg by (apply value_ext; intros i Hi; apply I1; lia).
  rewrite Hupd, V1, Vg. destruct (force || _) eqn:C.
  - destruct (copy_ok T1 La1) as (T2 & E2 & L2 & V2 & N2). exists T2, true. rewrite V2, V1. done.
  - exists T1, false. split; [done|]. split; [done|]. split; [done|]. split; [|done].
    apply orb_false_elim in C as [-> _]. rewrite <- (Hnull eq_refl). unfold is_real_null. rewrite (proj2 (Nat.eqb_neq _ _) H0). cbn [negb].
    rewrite FieldFacts.at_offset_ok by lia. cbn [mbind option_bind]. by rewrite I1 by lia.
Qed.
Lemma scan_best rows : ∀ T, layout T → Forall (λ v, length v = n ∧ bytes v) rows → is_real_null T 0 g = Some false →
  ∃ T', scan upd T g f rows false = Some T' ∧ is_real_null T' 0 g = Some false ∧
    value T' (ptr g) n ∈ value T (ptr g) n :: rows ∧ ∀ w, w ∈ value T (ptr g) n :: rows → better w (value T' (ptr g) n) = false.
Proof.
  induction rows as [|v rows IH]; intros T L Hrows Hnull.
  - exists T. split; [done|]. split; [done|]. split; [left|]. intros w [->|Hw%elem_of_nil]%elem_of_cons; [apply never_better|done].
  - apply Forall_cons in Hrows as [[Hv Hbv] Hrows]. destruct (scan_step T v false L Hv Hbv (λ _, Hnull)) as (T1 & T2 & u & E1 & E2 & L2 & N2 & V2).
    destruct (IH T2 L2 Hrows N2) as (T' & E & N' & Hin & Hbest). exists T'.
    cbn [scan]. rewrite E1. cbn [mbind option_bind]. rewrite E2. cbn [mbind option_bind snd]. split; [done|]. split; [done|].
    rewrite V2 in Hin, Hbest. cbn [orb] in Hin, Hbest. set (cur := value T (ptr g) n) in *. destruct (better v cur) eqn:Hc.
    + split; [set_solver|]. intros w [->|Hw]%elem_of_cons; [|by apply Hbest].
      destruct (better cur (value T' (ptr g) n)) eqn:Hx; [|done]. destruct (Hneg _ v _ Hx) as [Hy|Hy]; [by rewrite (Hasym _ _ Hc) in Hy|].
      by rewrite (Hbest v ltac:(left)) in Hy.
    + split; [set_solver|]. intros w [->|[->|Hw]%elem_of_cons]%elem_of_cons; [apply Hbest; left| |apply Hbest; by right].
      destruct (better v (value T' (ptr g) n)) eqn:Hx; [|done]. destruct (Hneg _ cur _ Hx) as [Hy|Hy]; [by rewrite Hc in Hy|].
      by rewrite (Hbest cur ltac:(left)) in Hy.
Qed.
Lemma scan_first v rows T : layout T → Forall (λ v, length v = n ∧ bytes v) (v :: rows) →
  ∃ T', scan upd T g f (v :: rows) true = Some T' ∧ is_real_null T' 0 g = Some false ∧
    value T' (ptr g) n ∈ v :: rows ∧ ∀ w, w ∈ v :: rows → better w (value T' (ptr g) n) = false.
Proof.
  intros L [[Hv Hbv] Hrows]%Forall_cons. destruct (scan_step T v true L Hv Hbv ltac:(done)) as (T1 & T2 & u & E1 & E2 & L2 & N2 & V2).
  destruct (scan_best rows T2 L2 Hrows N2) as (T' & E & N' & Hin & Hbest). exists T'.
  cbn [scan]. rewrite E1. cbn [mbind option_bind]. rewrite E2. cbn [mbind option_bind snd].
  rewrite V2 in Hin, Hbest. done.
Qed.
End Facts.
End Extremes.

(** C30: the extreme values of a column.  When the comparison is an order, [update_min]
    over the values a column takes leaves in the other column one of them that
    none is below, and [update_max] one that none is above, not NULL; the first
    value is taken without being compared. *)
Theorem column_extremes C n k T f g v rows : Extremes.layout f g n k T → Forall (λ v, length v = n ∧ bytes v) (v :: rows) →
  (∀ x y, C x y < 0 ↔ 0 < C y x) → (∀ x y z, C x y ≤ 0 → C y z ≤ 0 → C x z ≤ 0) →
  (∃ T', scan (update_min (cmp_values C n)) T g f (v :: rows) true = Some T' ∧ is_real_null T' 0 g = Some false ∧
     value T' (ptr g) n ∈ v :: rows ∧ ∀ w, w ∈ v :: rows → 0 ≤ C w (value T' (ptr g) n)) ∧
  ∃ T', scan (update_max (cmp_values C n)) T g f (v :: rows) true = Some T' ∧ is_real_null T' 0 g = Some false ∧
     value T' (ptr g) n ∈ v :: rows ∧ ∀ w, w ∈ v :: rows → C w (value T' (ptr g) n) ≤ 0.
Proof.
  intros L Hrows Hanti Htrans. assert (∀ x y, C x y ≤ 0 ↔ 0 ≤ C y x) as Hle by (intros x y; specialize (Hanti y x); lia). split.
  - destruct (Extremes.scan_first f g n k (λ x y, C x y <? 0) (update_min (cmp_values C n))) with (v := v) (rows := rows) (T := T) as (T' & E & N' & Hin & Hb); try done.
    + intros U [|]; cbn [orb]; [done|]. unfold update_min, cmp_values. cbn [mbind option_bind]. by destruct (C _ _ <? 0).
    + intros x y Hxy%Z.ltb_lt. apply Z.ltb_ge. specialize (Hanti x y). lia.
    + intros x y z Hxz%Z.ltb_lt. rewrite !Z.ltb_lt. destruct (decide (C x y < 0)); [by left|]. right.
      pose proof (Htrans z y x). pose proof (Hanti x z). pose proof (Hle y x). pose proof (Hle z y). lia.
    + exists T'. split_and!; try done. intros w Hw. specialize (Hb w Hw). apply Z.ltb_ge in Hb. done.
  - destruct (Extremes.scan_first f g n k (λ x y, 0 <? C x y) (update_max (cmp_values C n))) with (v := v) (rows := rows) (T := T) as (T' & E & N' & Hin & Hb); try done.
    + intros U [|]; cbn [orb]; [done|]. unfold update_max, cmp_values. cbn [mbind option_bind]. by destruct (0 <? C _ _).
    + intros x y Hxy%Z.ltb_lt. apply Z.ltb_ge. specialize (Hanti y x). lia.
    + intros x y z Hxz%Z.ltb_lt. rewrite !Z.ltb_lt. destruct (decide (0 < C x y)); [by left|]. right. specialize (Htrans x y z). lia.
    + exists T'. split_and!; try done. intros w Hw. specialize (Hb w Hw). apply Z.ltb_ge in Hb. done.
Qed.
Lemma column_extremes_witness : ∃ T', scan (update_min (cmp_values (λ x y, hd 0 x - hd 0 y) 1)) [0; 255; 9; 9] (Mk 3 1 2 1 3) (Mk 2 0 0 1 3) [[7]; [4]; [5]] true = Some T' ∧
  ∀ w, w ∈ [[7]; [4]; [5]] → 0 ≤ hd 0 w - hd 0 (value T' 3 1).
Proof.
  destruct (column_extremes (λ x y, hd 0 x - hd 0 y) 1 1 [0; 255; 9; 9] (Mk 2 0 0 1 3) (Mk 3 1 2 1 3) [7] [[4]; [5]]) as [(T' & E & _ & _ & H) _].
  - split; simpl; try lia; try done. repeat constructor; unfold in_u; lia.
  - repeat constructor; unfold in_u; lia.
  - lia.
  - lia.
  - exists T'. split; [exact E|exact H].
Defined.

(** ** BIT columns *)

Lemma set_rec_bits_elsewhere v T p ofs len T' i : set_rec_bits v T p ofs len = Some T' → (i < p ∨ p + 2 ≤ i)%nat → T' !! i = T !! i.
Proof.
  intros E Hi. unfold set_rec_bits in E. destruct (T !! p); [|done]. cbn [mbind option_bind] in E. destruct (low_mask len); [|done].
  cbn [mbind option_bind] in E. unfold poke in E. case_decide; [|done]. cbn [mbind option_bind] in E.
  destruct (8 <? ofs + len); [|injection E as <-; by rewrite list_lookup_insert_ne by lia].
  destruct (_ !! S p); [|done]. cbn [mbind option_bind] in E. destruct (low_mask _); [|done]. cbn [mbind option_bind] in E.
  case_decide; [|done]. injection E as <-. by rewrite !list_lookup_insert_ne by lia.
Qed.
(** [reset] of a BIT column writes zeros to its bytes and clears the bits it has
    beside the NULL bits, and no others. *)
Theorem bit_reset_clears T f n : bytes T → Bit.bytes_in_rec f = Z.of_nat n → (ptr (Bit.field f) + n ≤ length T)%nat →
  Bit.bit_ptr f ≠ 0%nat → 0 ≤ Bit.bit_ofs f < 8 → 0 < Bit.bit_len f ≤ 8 → (Bit.bit_ptr f + 2 ≤ ptr (Bit.field f))%nat →
  ∃ T', Bit.reset T f = Some T' ∧ length T' = length T ∧ value T' (ptr (Bit.field f)) n = replicate n 0 ∧
    (∀ k, 0 ≤ k < 16 → rec_bit T' (Bit.bit_ptr f) k =
       if (Bit.bit_ofs f <=? k) && (k <? Bit.bit_ofs f + Bit.bit_len f) then false else rec_bit T (Bit.bit_ptr f) k) ∧
    ∀ i, (i < Bit.bit_ptr f ∨ Bit.bit_ptr f + 2 ≤ i < ptr (Bit.field f) ∨ ptr (Bit.field f) + n ≤ i)%nat → T' !! i = T !! i.
Proof.
  intros HT Hn Hl H0 Ho Hlen Hbp. unfold Bit.reset. rewrite Hn, Nat2Z.id.
  destruct (Extremes.put_bytes_ok T (ptr (Bit.field f)) (replicate n 0)) as (T1 & E1 & L1 & B1 & V1 & I1); [by rewrite length_replicate|].
  rewrite length_replicate in *. rewrite E1. cbn [mbind option_bind]. rewrite (proj2 (Nat.eqb_neq _ _) H0), (proj2 (Z.ltb_lt 0 _)) by lia. cbn [negb andb].
  assert (bytes T1) as HT1 by (apply B1; [done|apply Forall_replicate; unfold in_u; lia]).
  destruct (set_rec_bits_bits 0 T1 (Bit.bit_ptr f) (Bit.bit_ofs f) (Bit.bit_len f) HT1 Ho ltac:(lia)) as (T' & E & HT' & L' & _ & Hb).
  { unfold in_u. lia. }
  { unfold rec_room. rewrite L1. destruct (8 <? _); lia. }
  exists T'. split; [exact E|]. split; [lia|].
  pose proof (λ i H, set_rec_bits_elsewhere _ _ _ _ _ _ i E H) as He. split; [|split].
  - rewrite <- V1. apply Extremes.value_ext. intros i Hi. apply He. lia.
  - intros k Hk. rewrite Hb by lia. rewrite Z.bits_0. destruct ((_ <=? k) && _); [done|]. unfold rec_bit. rewrite I1; [done|].
    left. assert (k / 8 < 2) by (apply Z.div_lt_upper_bound; lia). lia.
  - intros i Hi. rewrite He by lia. apply I1. lia.
Qed.
Lemma bit_reset_clears_witness : ∃ T', Bit.reset [0; 255; 255; 9] (Bit.Mk (Mk 3 1 1 11 16) 1 1 3 1) = Some T' ∧ T' !! 1%nat = Some 241.
Proof.
  destruct (bit_reset_clears [0; 255; 255; 9] (Bit.Mk (Mk 3 1 1 11 16) 1 1 3 1) 1) as (T' & E & _).
  - repeat constructor; unfold in_u; lia.
  - done.
  - simpl. lia.
  - done.
  - simpl. lia.
  - simpl. lia.
  - simpl. lia.
  - exists T'. split; [exact E|]. vm_compute in E. by injection E as <-.
Defined.
