(* ===== verification/LooseScan.v ===== *)
(** [opt_subselect.h], [class Loose_scan_opt]: the choice of an index for the
    LooseScan strategy of a semi-join, while the optimizer looks at the ways to
    read a table. *)
From S2P Require Import Prelude CDouble.

Definition DBL_MAX : spec_float := S754_finite false 9007199254740991 971.
Definition UINT_MAX : Z := 2 ^ 32 - 1.

(** [PREV_BITS]: the lowest [n] bits of a type of [w] bits; the shift is undefined
    for [w] and more. *)
Definition shl1 (w n : Z) : option Z := if (0 <=? n) && (n <? w) then Some (2 ^ n) else None.
Definition PREV_BITS (w n : Z) : option Z := b ← shl1 w n; Some (b - 1).

(** ** State

    A [KEYUSE] and a [JOIN_TAB] as the functions see them.  [read_order] says that the
    index of the [KEYUSE] can be read in order; [partial_cols] is the result of
    [key_uses_partial_cols]; [keyread_time] is the virtual function of the table's
    handler. *)
Record KEYUSE := Keyuse { sj_pred_no : Z; read_order : bool; used_tables : Z; keypart : Z }.
Record sj_nest := Nest { sj_in_exprs : Z; sj_inner_tables : Z; sj_corr_tables : Z; sj_depends_on : Z }.
Record JOIN := Join { emb_sjm_nest : bool; cur_sj_inner_tables : Z; const_tables : Z; loose_scan_switch : bool }.
Record quick_select := Quick { q_index : Z; q_is_range : bool; q_read_time : spec_float; q_records : Z }.
Record JOIN_TAB := Tab {
  emb_sj_nest : option sj_nest;
  tab_quick : option quick_select;
  partial_cols : Z → bool;
  covering_keys : Z → bool;
  stats_records : Z;
  keyread_time : Z → Z → spec_float;
  rec_per_key : Z → list Z }.

(** The best plan so far; [start_key] is the address of a [KEYUSE], 0 for none. *)
Record plan := Plan { p_key : Z; p_cost : spec_float; p_records : spec_float; p_start_key : Z; p_keypart : Z; p_depend : Z }.
Record Loose_scan_opt := Opt {
  try_loosescan : bool;
  bound_sj_equalities : Z;
  handled_sj_equalities : Z;
  loose_scan_keyparts : Z;
  max_loose_keypart : Z;
  part1_conds_met : bool;
  quick_uses_applicable_index : Z;
  quick_max_loose_keypart : Z;
  best : plan }.

(** The constructor; it leaves the members of the current key as they are. *)
Definition create (garbage : Loose_scan_opt) : Loose_scan_opt :=
  Opt false 0 (handled_sj_equalities garbage) (loose_scan_keyparts garbage) (max_loose_keypart garbage) (part1_conds_met garbage) 0 0
    (Plan 0 dzero dzero 0 0 0).

Definition with_best (p : plan) (o : Loose_scan_opt) : Loose_scan_opt :=
  Opt (try_loosescan o) (bound_sj_equalities o) (handled_sj_equalities o) (loose_scan_keyparts o) (max_loose_keypart o) (part1_conds_met o)
    (quick_uses_applicable_index o) (quick_max_loose_keypart o) p.

Section Code.
(** The bits of [ulong], the type of [key_part_map]; [get_bound_sj_equalities] is
    defined elsewhere. *)
Context (w : Z) (get_bound_sj_equalities : sj_nest → Z → Z).

Definition init (join : JOIN) (s : JOIN_TAB) (remaining_tables : Z) (o : Loose_scan_opt) : Loose_scan_opt :=
  let b := best o in
  let o := with_best (Plan (p_key b) DBL_MAX (p_records b) (p_start_key b) (p_keypart b) (p_depend b)) o in
  match emb_sj_nest s with
  | Some n =>
      if negb (emb_sjm_nest join) && (sj_in_exprs n <? 64) && (Z.land remaining_tables (sj_inner_tables n) =? sj_inner_tables n) &&
         (cur_sj_inner_tables join =? 0) && negb (truth (Z.land remaining_tables (sj_corr_tables n))) &&
         truth (Z.land remaining_tables (sj_depends_on n)) && loose_scan_switch join
      then Opt true (get_bound_sj_equalities n remaining_tables) (handled_sj_equalities o) (loose_scan_keyparts o) (max_loose_keypart o)
             (part1_conds_met o) (quick_uses_applicable_index o) (quick_max_loose_keypart o) (best o)
      else o
  | None => o
  end.

Definition next_ref_key (o : Loose_scan_opt) : Loose_scan_opt :=
  Opt (try_loosescan o) (bound_sj_equalities o) 0 0 0 false (quick_uses_applicable_index o) (quick_max_loose_keypart o) (best o).

Definition add_keyuse (remaining_tables : Z) (k : KEYUSE) (o : Loose_scan_opt) : option Loose_scan_opt :=
  if try_loosescan o && negb (sj_pred_no k =? UINT_MAX) && read_order k then
    e ← shl1 64 (sj_pred_no k);
    if negb (truth (Z.land remaining_tables (used_tables k))) then
      Some (Opt (try_loosescan o) (Z.lor (bound_sj_equalities o) e) (handled_sj_equalities o) (loose_scan_keyparts o) (max_loose_keypart o)
              (part1_conds_met o) (quick_uses_applicable_index o) (quick_max_loose_keypart o) (best o))
    else
      p ← shl1 w (keypart k);
      Some (Opt (try_loosescan o) (bound_sj_equalities o) (Z.lor (handled_sj_equalities o) e) (Z.lor (loose_scan_keyparts o) p)
              (if max_loose_keypart o <? keypart k then keypart k else max_loose_keypart o)
              (part1_conds_met o) (quick_uses_applicable_index o) (quick_max_loose_keypart o) (best o))
  else Some o.

Definition have_a_case (o : Loose_scan_opt) : bool := truth (handled_sj_equalities o).

(** The condition of [check_ref_access_part1]; the operands are evaluated in order,
    and a table that is tried has a nest. *)
Definition applicable (s : JOIN_TAB) (key found_part : Z) (o : Loose_scan_opt) : option bool :=
  if try_loosescan o then
    n ← emb_sj_nest s;
    e ← PREV_BITS 64 (sj_in_exprs n);
    if Z.lor (handled_sj_equalities o) (bound_sj_equalities o) =? e then
      p ← PREV_BITS w (max_loose_keypart o + 1);
      Some ((Z.land p (Z.lor found_part (loose_scan_keyparts o)) =? p) && negb (partial_cols s key))
    else Some false
  else Some false.

(** A plan replaces the best one when it is cheaper. *)
Definition propose (p : plan) (o : Loose_scan_opt) : Loose_scan_opt := if dlt (p_cost p) (p_cost (best o)) then with_best p o else o.

(** The plan of a full scan of the index [key]; a conversion of the number of rows
    that does not fit is undefined. *)
Definition full_index_plan (s : JOIN_TAB) (key start_key : Z) (o : Loose_scan_opt) : option plan :=
  let records := double_of (stats_records s) in
  r ← trunc 64 records;
  rpc ← rec_per_key s key !! Z.to_nat (max_loose_keypart o);
  Some (Plan key (keyread_time s key r) (if truth rpc then ddiv records (double_of rpc) else records) start_key (max_loose_keypart o) 0).

Definition check_ref_access_part1 (s : JOIN_TAB) (key start_key found_part : Z) (o : Loose_scan_opt) : option Loose_scan_opt :=
  a ← applicable s key found_part o;
  if a : bool then
    let use := match tab_quick s with Some q => (q_index q =? key) && q_is_range q | None => false end in
    let covering := negb (truth (Z.land found_part 1)) && covering_keys s key in
    let o := Opt (try_loosescan o) (bound_sj_equalities o) (handled_sj_equalities o) (loose_scan_keyparts o) (max_loose_keypart o)
               (if truth (Z.land found_part 1) || covering then true else part1_conds_met o)
               (if use then 1 else quick_uses_applicable_index o) (if use then max_loose_keypart o else quick_max_loose_keypart o) (best o) in
    if covering then p ← full_index_plan s key start_key o; Some (propose p o) else Some o
  else Some o.

Definition check_ref_access_part2 (key start_key : Z) (records read_time : spec_float) (ref_depend_map_arg : Z) (o : Loose_scan_opt) : Loose_scan_opt :=
  if part1_conds_met o then propose (Plan key read_time records start_key (max_loose_keypart o) ref_depend_map_arg) o else o.

Definition check_range_access (join : JOIN) (idx : Z) (quick : quick_select) (o : Loose_scan_opt) : Loose_scan_opt :=
  if truth (quick_uses_applicable_index o) && (idx =? const_tables join)
  then propose (Plan (q_index quick) (q_read_time quick) (double_of (q_records quick)) 0 (quick_max_loose_keypart o) 0) o else o.

(** What [save_to_position] stores: the cost, and the plan when there is one. *)
Definition save_to_position (o : Loose_scan_opt) : spec_float * option (plan * Z) :=
  (p_cost (best o), if negb (deq (p_cost (best o)) DBL_MAX) then Some (best o, to_uint32 (p_keypart (best o) + 1)) else None).
End Code.

(** ** Specification

    The calls for a table, after [init], and the plans they propose. *)
Inductive call :=
  | Next_ref_key | Add_keyuse (remaining : Z) (k : KEYUSE)
  | Part1 (key start_key found_part : Z) | Part2 (key start_key : Z) (records read_time : spec_float) (depend : Z)
  | Range_access (idx : Z) (quick : quick_select).
Definition exec (w : Z) (join : JOIN) (s : JOIN_TAB) (c : call) (o : Loose_scan_opt) : option Loose_scan_opt :=
  match c with
  | Next_ref_key => Some (next_ref_key o)
  | Add_keyuse r k => add_keyuse w r k o
  | Part1 key start found => check_ref_access_part1 w s key start found o
  | Part2 key start records time depend => Some (check_ref_access_part2 key start records time depend o)
  | Range_access idx quick => Some (check_range_access join idx quick o)
  end.
Fixpoint execs (w : Z) (join : JOIN) (s : JOIN_TAB) (l : list call) (o : Loose_scan_opt) : option Loose_scan_opt :=
  match l with [] => Some o | c :: l => o ← exec w join s c o; execs w join s l o end.
(** Every equality of the IN is bound by tables before this one or handled by the
    index, the index order groups duplicates, and the columns are whole. *)
Definition usable (s : JOIN_TAB) (n : sj_nest) (key found_part : Z) (o : Loose_scan_opt) : Prop :=
  (∀ i, 0 ≤ i < sj_in_exprs n → Z.testbit (handled_sj_equalities o) i = true ∨ Z.testbit (bound_sj_equalities o) i = true) ∧
  (∀ j, 0 ≤ j ≤ max_loose_keypart o → Z.testbit found_part j = true ∨ Z.testbit (loose_scan_keyparts o) j = true) ∧
  partial_cols s key = false.

(** The plans that the calls propose, in their order. *)
Definition proposal (w : Z) (join : JOIN) (s : JOIN_TAB) (c : call) (o : Loose_scan_opt) : list plan :=
  match c with
  | Part1 key start found =>
      match applicable w s key found o with
      | Some true => if negb (truth (Z.land found 1)) && covering_keys s key then option_list (full_index_plan s key start o) else []
      | _ => []
      end
  | Part2 key start records time depend => if part1_conds_met o then [Plan key time records start (max_loose_keypart o) depend] else []
  | Range_access idx quick => if truth (quick_uses_applicable_index o) && (idx =? const_tables join)
      then [Plan (q_index quick) (q_read_time quick) (double_of (q_records quick)) 0 (quick_max_loose_keypart o) 0] else []
  | _ => []
  end.
Fixpoint proposals (w : Z) (join : JOIN) (s : JOIN_TAB) (l : list call) (o : Loose_scan_opt) : list plan :=
  match l with
  | [] => []
  | c :: l => proposal w join s c o ++ match exec w join s c o with Some o' => proposals w join s l o' | None => [] end
  end.
(** Calls the functions are made for: equalities and key parts in their ranges. *)
Definition valid_call (w : Z) (s : JOIN_TAB) (c : call) : Prop :=
  match c with
  | Add_keyuse r k => (0 ≤ sj_pred_no k < 64 ∨ sj_pred_no k = UINT_MAX) ∧ 0 ≤ keypart k < w - 1
  | Part1 key _ _ => ∀ j, 0 ≤ j < w - 1 → (Z.to_nat j < length (rec_per_key s key))%nat
  | _ => True
  end.

(** * Theorems *)

Lemma shift_ok w n : 0 ≤ n < w → shl1 w n = Some (2 ^ n).
Proof. intros H. unfold shl1. by rewrite (proj2 (Z.leb_le _ _)), (proj2 (Z.ltb_lt _ _)) by lia. Qed.
Lemma prev_bits_ok w n : 0 ≤ n < w → PREV_BITS w n = Some (Z.ones n).
Proof. intros H. unfold PREV_BITS. rewrite shift_ok by done. cbn. by rewrite Z.ones_equiv. Qed.
Lemma ones_covered n x : 0 ≤ n → (Z.land (Z.ones n) x =? Z.ones n) = true ↔ ∀ j, 0 ≤ j < n → Z.testbit x j = true.
Proof.
  intros Hn. rewrite Z.eqb_eq. split.
  - intros E j Hj. assert (Z.testbit (Z.land (Z.ones n) x) j = Z.testbit (Z.ones n) j) as Hb by (by rewrite E).
    rewrite Z.land_spec, Z.testbit_ones_nonneg in Hb by lia. rewrite (proj2 (Z.ltb_lt _ _)) in Hb by lia. done.
  - intros H. apply Z.bits_inj'. intros j Hj. rewrite Z.land_spec, Z.testbit_ones_nonneg by lia.
    destruct (Z.ltb_spec j n); [by rewrite H by lia|done].
Qed.
Lemma ones_exact n x : 0 ≤ n → in_u n x → (x =? Z.ones n) = true ↔ ∀ j, 0 ≤ j < n → Z.testbit x j = true.
Proof.
  intros Hn Hx. rewrite <- ones_covered by done. replace (Z.land (Z.ones n) x) with x; [done|].
  rewrite Z.land_comm, Z.land_ones by done. symmetry. apply Z.mod_small. exact Hx.
Qed.

(** an index can be used for LooseScan exactly when every equality of the
    semi-join is bound or handled by the index, each key part up to the last
    handled one has a condition or is handled, and no key part is a prefix of its
    column. *)
Theorem loose_scan_usable w s n key found_part o : try_loosescan o = true → emb_sj_nest s = Some n → 0 ≤ sj_in_exprs n < 64 →
  in_u (sj_in_exprs n) (handled_sj_equalities o) → in_u (sj_in_exprs n) (bound_sj_equalities o) → 0 ≤ max_loose_keypart o < w - 1 →
  ∃ b : bool, applicable w s key found_part o = Some b ∧ (b = true ↔ usable s n key found_part o).
Proof.
  intros Ht Hn Hin Hh Hb Hm. unfold applicable. rewrite Ht, Hn. cbn [mbind option_bind]. rewrite !prev_bits_ok by lia. cbn [mbind option_bind].
  pose proof (ones_exact (sj_in_exprs n) (Z.lor (handled_sj_equalities o) (bound_sj_equalities o)) ltac:(lia) (lor_in_u _ _ _ (proj1 Hin) Hh Hb)) as He.
  pose proof (ones_covered (max_loose_keypart o + 1) (Z.lor found_part (loose_scan_keyparts o)) ltac:(lia)) as Hc. unfold usable.
  setoid_rewrite Z.lor_spec in He. setoid_rewrite Z.lor_spec in Hc. setoid_rewrite orb_true_iff in He. setoid_rewrite orb_true_iff in Hc.
  destruct (_ =? Z.ones (sj_in_exprs n)) eqn:E.
  - eexists. split; [done|]. rewrite andb_true_iff, negb_true_iff, Hc. split.
    + intros [H1 H2]. split_and!; [by apply He| |done]. intros j Hj. apply H1. lia.
    + intros (_ & H2 & H3). split; [|done]. intros j Hj. apply H2. lia.
  - exists false. split; [done|]. split; [done|]. intros (H1 & _). by apply He in H1.
Qed.
Lemma loose_scan_usable_witness :
  let o := Opt true 1 2 1 0 false 0 0 (Plan 0 DBL_MAX dzero 0 0 0) in
  let s := Tab (Some (Nest 2 1 0 6)) None (λ _, false) (λ _, true) 100 (λ _ _, dunit) (λ _, [4; 2]) in
  applicable 64 s 0 0 o = Some true ∧ usable s (Nest 2 1 0 6) 0 0 o.
Proof.
  destruct (loose_scan_usable 64 (Tab (Some (Nest 2 1 0 6)) None (λ _, false) (λ _, true) 100 (λ _ _, dunit) (λ _, [4; 2])) (Nest 2 1 0 6) 0 0
    (Opt true 1 2 1 0 false 0 0 (Plan 0 DBL_MAX dzero 0 0 0))) as (b & E & Hb); try (unfold in_u; simpl; lia); try done.
  split; [reflexivity|]. apply Hb. vm_compute in E. by injection E as <-.
Defined.

(** The state of a table that is tried. *)
Record tried (w : Z) (s : JOIN_TAB) (o : Loose_scan_opt) : Prop := {
  t_nest : try_loosescan o = true → ∃ n, emb_sj_nest s = Some n ∧ 0 ≤ sj_in_exprs n < 64;
  t_keypart : 0 ≤ max_loose_keypart o < w - 1;
  t_num : is_num (p_cost (best o)) }.
Lemma propose_max p o : max_loose_keypart (propose p o) = max_loose_keypart o ∧ try_loosescan (propose p o) = try_loosescan o.
Proof. unfold propose. by destruct (dlt _ _). Qed.
Lemma propose_num p o : is_num (p_cost p) → is_num (p_cost (best o)) → is_num (p_cost (best (propose p o))).
Proof. unfold propose. by destruct (dlt _ _). Qed.
Lemma applicable_ok w s key found o : tried w s o → ∃ b : bool, applicable w s key found o = Some b.
Proof.
  intros [Hn Hk _]. unfold applicable. destruct (try_loosescan o); [|by exists false]. destruct (Hn eq_refl) as (n & -> & Hin).
  cbn [mbind option_bind]. rewrite !prev_bits_ok by lia. cbn [mbind option_bind]. destruct (_ =? _); by eexists.
Qed.
Lemma full_index_ok w s key start o : tried w s o → valid_call w s (Part1 key start 0) → is_Some (trunc 64 (double_of (stats_records s))) →
  ∃ p, full_index_plan s key start o = Some p.
Proof.
  intros [_ Hk _] Hv [r Hr]. unfold full_index_plan. rewrite Hr. cbn [mbind option_bind].
  destruct (lookup_lt_is_Some_2 (rec_per_key s key) (Z.to_nat (max_loose_keypart o))) as [x ->]; [apply Hv; lia|]. by eexists.
Qed.
(** One call: it returns, and the best plan is the fold of its proposals. *)
Definition cheaper (b p : plan) : plan := if dlt (p_cost p) (p_cost b) then p else b.
Lemma best_propose p o : best (propose p o) = cheaper (best o) p.
Proof. unfold propose, cheaper. by destruct (dlt _ _). Qed.
Lemma call_ok w join s c o : 2 < w → tried w s o → valid_call w s c → is_Some (trunc 64 (double_of (stats_records s))) →
  Forall (λ p, is_num (p_cost p)) (proposal w join s c o) →
  ∃ o', exec w join s c o = Some o' ∧ tried w s o' ∧ best o' = foldl cheaper (best o) (proposal w join s c o).
Proof.
  intros Hw T Hv Hrec Hps. pose proof T as [Hn Hk Hnum]. destruct c as [|r k|key start found|key start records time depend|idx quick]; cbn [exec proposal] in *.
  - eexists. split; [done|]. split; [|done]. split; [done|simpl; lia|done].
  - unfold add_keyuse. cbn in Hv. destruct Hv as [Hpred Hpart]. destruct (try_loosescan o) eqn:Et; cbn [andb]; [|exists o; by rewrite <- Et in *].
    destruct (Z.eqb_spec (sj_pred_no k) UINT_MAX); cbn [negb andb]; [by exists o|]. destruct (read_order k); [|by exists o].
    rewrite (shift_ok 64) by lia. cbn [mbind option_bind]. destruct (truth _); cbn [negb].
    + rewrite (shift_ok w) by lia. cbn [mbind option_bind]. eexists. split; [done|]. split; [|done].
      split; simpl; [done|zcases; lia|done].
    + eexists. split; [done|]. by split.
  - unfold check_ref_access_part1. destruct (applicable_ok w s key found o T) as [b Hb]. rewrite Hb in *. cbn [mbind option_bind].
    destruct b; [|exists o; by split]. set (cov := negb _ && _) in *. set (o1 := Opt _ _ _ _ _ _ _ _ _).
    assert (tried w s o1) as T1 by (split; done). destruct cov eqn:Ec; [|exists o1; by split].
    destruct (full_index_ok w s key start o T Hv Hrec) as [p Hp]. rewrite Hp in Hps |- *. cbn [option_list] in *.
    assert (full_index_plan s key start o1 = Some p) as -> by exact Hp. cbn [mbind option_bind]. eexists. split; [done|].
    apply Forall_cons in Hps as [Hpn _]. destruct (propose_max p o1) as [E1 E2].
    split; [split; [by rewrite E2|by rewrite E1|by apply propose_num]|by rewrite best_propose].
  - eexists. split; [done|]. unfold check_ref_access_part2. destruct (part1_conds_met o); [|done].
    apply Forall_cons in Hps as [Hpn _]. destruct (propose_max (Plan key time records start (max_loose_keypart o) depend) o) as [E1 E2].
    split; [split; [by rewrite E2|by rewrite E1|by apply propose_num]|by rewrite best_propose].
  - eexists. split; [done|]. unfold check_range_access. destruct (truth _ && _); [|done].
    apply Forall_cons in Hps as [Hpn _]. destruct (propose_max (Plan (q_index quick) (q_read_time quick) (double_of (q_records quick)) 0 (quick_max_loose_keypart o) 0) o) as [E1 E2].
    split; [split; [by rewrite E2|by rewrite E1|by apply propose_num]|by rewrite best_propose].
Qed.
Lemma calls_ok w join s l : 2 < w → is_Some (trunc 64 (double_of (stats_records s))) → ∀ o, tried w s o → Forall (valid_call w s) l →
  Forall (λ p, is_num (p_cost p)) (proposals w join s l o) →
  ∃ o', execs w join s l o = Some o' ∧ best o' = foldl cheaper (best o) (proposals w join s l o).
Proof.
  intros Hw Hrec. induction l as [|c l IH]; intros o T Hv Hps; [by exists o|]. apply Forall_cons in Hv as [Hc Hv].
  cbn [proposals execs] in *. apply Forall_app in Hps as [Hp1 Hp2].
  destruct (call_ok w join s c o Hw T Hc Hrec Hp1) as (o1 & E & T1 & B1). rewrite E in *. cbn [mbind option_bind].
  destruct (IH o1 T1 Hv Hp2) as (o2 & E2 & B2). exists o2. split; [done|]. by rewrite B2, B1, foldl_app.
Qed.
(** Folding keeps the first of the cheapest. *)
Lemma cheapest b ps : is_num (p_cost b) → Forall (λ p, is_num (p_cost p)) ps →
  let p := foldl cheaper b ps in is_num (p_cost p) ∧ ∃ l1 l2, b :: ps = l1 ++ p :: l2 ∧
    (∀ q, q ∈ l1 → rank (p_cost p) < rank (p_cost q)) ∧ ∀ q, q ∈ l2 → rank (p_cost p) ≤ rank (p_cost q).
Proof.
  intros Hb. induction ps as [|c ps IH] using rev_ind; intros Hps; cbn zeta.
  - split; [done|]. exists [], []. split; [done|]. split; intros q Hq; by apply elem_of_nil in Hq.
  - apply Forall_app in Hps as [Hps [Hc _]%Forall_cons]. destruct (IH Hps) as (Hn & l1 & l2 & E & H1 & H2). clear IH.
    rewrite foldl_app. cbn [foldl]. set (p := foldl cheaper b ps) in *. unfold cheaper. rewrite dlt_rank by (exact Hc || exact Hn).
    destruct (Z.ltb_spec (rank (p_cost c)) (rank (p_cost p))) as [Hlt|Hge].
    + split; [done|]. exists (b :: ps), []. split; [done|]. split; [|intros q Hq; by apply elem_of_nil in Hq]. rewrite E.
      intros q [Hq|[->|Hq]%elem_of_cons]%elem_of_app; [specialize (H1 q Hq); lia|done|specialize (H2 q Hq); lia].
    + split; [done|]. exists l1, (l2 ++ [c]). rewrite app_comm_cons, E, <- app_assoc. split; [done|]. split; [done|].
      intros q [Hq|[->|Hq%elem_of_nil]%elem_of_cons]%elem_of_app; [by apply H2|lia|done].
Qed.

(** C29: the plan that is chosen.  Whatever indexes and key conditions are looked at
    after [init], the calls are defined, and [save_to_position] stores the first of
    the cheapest plans that were proposed; it stores none exactly when none is
    cheaper than the largest number. *)
Theorem loose_scan_cheapest w bound join s remaining o l : (w = 32 ∨ w = 64) →
  (∀ n, emb_sj_nest s = Some n → 0 ≤ sj_in_exprs n) → try_loosescan o = false → is_Some (trunc 64 (double_of (stats_records s))) →
  let o0 := next_ref_key (init bound join s remaining o) in
  let ps := proposals w join s l o0 in
  Forall (valid_call w s) l → Forall (λ p, is_num (p_cost p)) ps →
  ∃ o', execs w join s l o0 = Some o' ∧
    match snd (save_to_position o') with
    | Some (p, parts) => parts = to_uint32 (p_keypart p + 1) ∧ fst (save_to_position o') = p_cost p ∧ rank (p_cost p) < rank DBL_MAX ∧
        ∃ l1 l2, ps = l1 ++ p :: l2 ∧ (∀ q, q ∈ l1 → rank (p_cost p) < rank (p_cost q)) ∧ ∀ q, q ∈ l2 → rank (p_cost p) ≤ rank (p_cost q)
    | None => ∀ p, p ∈ ps → rank DBL_MAX ≤ rank (p_cost p)
    end.
Proof.
  intros Hw Hnest Ht Hrec o0 ps Hl Hps. assert (is_num DBL_MAX) as Hmax by by split.
  assert (p_cost (best o0) = DBL_MAX) as Hb0.
  { unfold o0, init, next_ref_key. destruct (emb_sj_nest s) as [n|]; [|done]. by destruct (_ && loose_scan_switch join). }
  assert (tried w s o0) as T.
  { split; [|unfold o0, next_ref_key; simpl; destruct Hw as [-> | ->]; lia|by rewrite Hb0]. unfold o0, init, next_ref_key. cbn [try_loosescan].
    destruct (emb_sj_nest s) as [n|] eqn:En; [|cbn [with_best try_loosescan]; by rewrite Ht].
    destruct (_ && loose_scan_switch join) eqn:C; [|cbn [with_best try_loosescan]; by rewrite Ht]. intros _. exists n. split; [done|]. 
    specialize (Hnest n eq_refl). rewrite !andb_true_iff in C. destruct C as [[[[[[_ C%Z.ltb_lt] _] _] _] _] _]. lia. }
  destruct (calls_ok w join s l ltac:(destruct Hw as [-> | ->]; lia) Hrec o0 T Hl Hps) as (o' & E & B). exists o'. split; [done|].
  destruct (cheapest (best o0) ps ltac:(by rewrite Hb0) Hps) as (Hn & l1 & l2 & El & H1 & H2). unfold ps in *. rewrite <- B in *. clear B.
  unfold save_to_position. cbn [fst snd]. rewrite deq_rank by done.
  destruct (Z.eqb_spec (rank (p_cost (best o'))) (rank DBL_MAX)) as [Er|Er]; cbn [negb].
  - intros p Hp. rewrite <- Er. assert (p ∈ best o0 :: proposals w join s l o0) as Hp' by by right. rewrite El in Hp'.
    apply elem_of_app in Hp' as [Hq|[->|Hq]%elem_of_cons]; [specialize (H1 p Hq); lia|done|by apply H2].
  - split; [done|]. split; [done|]. destruct l1 as [|x l1].
    + apply (inj2 cons) in El as [El _]. by rewrite <- El, Hb0 in Er.
    + apply (inj2 cons) in El as [<- El]. split; [rewrite <- Hb0; apply H1; left|]. exists l1, l2. split; [done|]. split; [|done].
      intros q Hq. apply H1. by right.
Qed.
(** Two indexes of a table for one equality: the full scans cost 50 and 30, and then
    reference access through the second costs 30 too. *)
Lemma loose_scan_cheapest_witness :
  let s := Tab (Some (Nest 1 1 0 2)) None (λ _, false) (λ _, true) 100 (λ key _, double_of (50 - 20 * key)) (λ _, replicate 64 4) in
  let join := Join false 0 0 true in
  let o := create (Opt false 0 7 7 7 true 0 0 (Plan 0 dzero dzero 0 0 0)) in
  let l := [Add_keyuse 3 (Keyuse 0 true 2 0); Part1 0 11 0; Next_ref_key; Add_keyuse 3 (Keyuse 0 true 2 0); Part1 1 12 0; Part2 1 12 (double_of 5) (double_of 30) 2] in
  ∃ o', execs 64 join s l (next_ref_key (init (λ _ _, 0) join s 3 o)) = Some o' ∧
    snd (save_to_position o') = Some (Plan 1 (double_of 30) (double_of 25) 12 0 0, 1).
Proof.
  destruct (loose_scan_cheapest 64 (λ _ _, 0) (Join false 0 0 true)
    (Tab (Some (Nest 1 1 0 2)) None (λ _, false) (λ _, true) 100 (λ key _, double_of (50 - 20 * key)) (λ _, replicate 64 4)) 3
    (create (Opt false 0 7 7 7 true 0 0 (Plan 0 dzero dzero 0 0 0)))
    [Add_keyuse 3 (Keyuse 0 true 2 0); Part1 0 11 0; Next_ref_key; Add_keyuse 3 (Keyuse 0 true 2 0); Part1 1 12 0; Part2 1 12 (double_of 5) (double_of 30) 2])
    as (o' & E & _).
  - by right.
  - by intros n [= <-].
  - done.
  - by eexists.
  - assert (∀ j, 0 ≤ j < 63 → (Z.to_nat j < 64)%nat) by lia. repeat (apply Forall_cons; split); try apply Forall_nil_2; simpl; try done; lia.
  - vm_compute. repeat constructor; discriminate.
  - exists o'. split; [exact E|]. vm_compute in E. injection E as <-. vm_compute. reflexivity.
Defined.
