(* ===== verification/Decimal.v ===== *)
(** [my_decimal.h] and [../decimal.h]: [class my_decimal], a decimal number that
    points to a buffer in itself, its copies and exchanges, the results that
    overflow, and the lengths of columns.  The arithmetic of the decimal library
    is a parameter. *)
From S2P Require Import Prelude CMonad.

Definition DECIMAL_BUFF_LENGTH : Z := 9.
Definition DECIMAL_MAX_PRECISION : Z := 65.
Definition DECIMAL_MAX_SCALE : Z := 38.
Definition DECIMAL_NOT_SPECIFIED : Z := 39.
Definition E_DEC_OVERFLOW : Z := 2.
Definition E_DEC_FATAL_ERROR : Z := 30.

(** ** Lengths and precisions, of 16 bits *)

Section Lengths.
Context (dbug : bool).
Definition my_decimal_int_part (precision decimals : Z) : Z :=
  to_uint16 (precision - (if decimals =? DECIMAL_NOT_SPECIFIED then 0 else decimals)).
Definition my_decimal_length_to_precision (length scale : Z) (unsigned_flag : bool) : option Z :=
  if dbug && negb (truth length || negb (truth scale)) then None
  else Some (to_uint16 (length - (if 0 <? scale then 1 else 0) - (if unsigned_flag || negb (truth length) then 0 else 1))).
Definition my_decimal_precision_to_length_no_truncation (precision scale : Z) (unsigned_flag : bool) : option Z :=
  if dbug && negb (truth precision || negb (truth scale)) then None
  else Some (to_uint16 (precision + (if 0 <? scale then 1 else 0) + (if unsigned_flag || negb (truth precision) then 0 else 1))).
Definition my_decimal_precision_to_length (precision scale : Z) (unsigned_flag : bool) : option Z :=
  if dbug && negb (truth precision || negb (truth scale)) then None
  else my_decimal_precision_to_length_no_truncation (if DECIMAL_MAX_PRECISION <? precision then DECIMAL_MAX_PRECISION else precision) scale unsigned_flag.
End Lengths.

(** ** [my_decimal]

    Objects by address.  [buf] is the address of the object whose [buffer] it points
    to. *)
Record my_decimal := Dec { intg : Z; frac : Z; len : Z; sign : bool; buf : Z; buffer : list Z }.
(** What the decimal library reads and writes: its digits are those behind [buf]. *)
Record value := Val { v_intg : Z; v_frac : Z; v_sign : bool; v_digits : list Z }.
(** The warnings that were reported. *)
Record mem := Mem { objects : gmap Z my_decimal; warnings : list Z }.

Definition get (p : Z) : M mem my_decimal := gets_opt (λ m, objects m !! p).
Definition put (p : Z) (d : my_decimal) : M mem unit := modify (λ m, Mem (<[p := d]> (objects m)) (warnings m)).
Definition free (p : Z) : M mem unit := modify (λ m, Mem (delete p (objects m)) (warnings m)).

(** [init], with what was in the buffer. *)
Definition init (this : Z) (d : my_decimal) : my_decimal := Dec (intg d) (frac d) DECIMAL_BUFF_LENGTH (sign d) this (buffer d).
Definition copy_construct (this rhs : Z) (garbage : list Z) : M mem unit :=
  r <- get rhs ;;
  let d := init this (Dec (intg r) (frac r) (len r) (sign r) (buf r) garbage) in
  put this (Dec (intg d) (frac d) (len d) (sign d) (buf d) (buffer r)).
Definition fix_buffer_pointer (this : Z) : M mem unit :=
  d <- get this ;; put this (Dec (intg d) (frac d) (len d) (sign d) this (buffer d)).
Definition assign (this rhs : Z) : M mem unit :=
  if this =? rhs then ret tt
  else
    r <- get rhs ;; _ <- get this ;;
    put this (Dec (intg r) (frac r) (len r) (sign r) (buf r) (buffer r)) ;;
    fix_buffer_pointer this.
(** [swap_variables] with its local object at [dummy]. *)
Definition swap (this rhs dummy : Z) (garbage : my_decimal) : M mem unit :=
  put dummy (init dummy garbage) ;; assign dummy this ;; assign this rhs ;; assign rhs dummy ;; free dummy.
Definition precision (d : my_decimal) : Z := to_uint16 (intg d + frac d).

(** Reading and writing through [buf]. *)
Definition read (p : Z) : M mem value := d <- get p ;; b <- get (buf d) ;; ret (Val (intg d) (frac d) (sign d) (buffer b)).
Definition write (p : Z) (v : value) : M mem unit :=
  d <- get p ;;
  put p (Dec (v_intg v) (v_frac v) (len d) (v_sign v) (buf d) (buffer d)) ;;
  b <- get (buf d) ;;
  put (buf d) (Dec (intg b) (frac b) (len b) (sign b) (buf b) (v_digits v)).

(** [decimal_make_zero] and [decimal_neg]. *)
Definition set_zero (p : Z) : M mem unit := v <- read p ;; write p (Val 1 0 false (<[0%nat := 0]> (v_digits v))).
Definition neg (v : value) : value := Val (v_intg v) (v_frac v) (negb (v_sign v)) (v_digits v).
Definition set_sign (s : bool) (v : value) : value := Val (v_intg v) (v_frac v) s (v_digits v).

Definition check_result (mask result : Z) : M mem Z :=
  (if truth (Z.land result mask) then modify (λ m, Mem (objects m) (result :: warnings m)) else ret tt) ;; ret result.

Section Library.
(** [decimal_is_zero], and what [max_decimal] makes of a value. *)
Context (dbug : bool) (decimal_is_zero : value → bool) (max_decimal : Z → Z → value → value).

Definition my_decimal_neg (p : Z) : M mem unit :=
  v <- read p ;; if decimal_is_zero v then write p (set_sign false v) else write p (neg v).
Definition max_my_decimal (p precision frac : Z) : M mem unit :=
  assert_that (negb dbug || ((precision <=? DECIMAL_MAX_PRECISION) && (frac <=? DECIMAL_MAX_SCALE))) ;;
  v <- read p ;; write p (max_decimal precision frac v).
Definition max_internal_decimal (p : Z) : M mem unit := max_my_decimal p DECIMAL_MAX_PRECISION 0.
Definition check_result_and_overflow (mask result p : Z) : M mem Z :=
  r <- check_result mask result ;;
  (if truth (Z.land r E_DEC_OVERFLOW) then
     v <- read p ;; fix_buffer_pointer p ;; max_internal_decimal p ;; w <- read p ;; write p (set_sign (v_sign v) w)
   else ret tt) ;;
  ret result.
(** [my_decimal_add], [_sub], [_mul], [_div] and [_mod], over the operation [f] of the
    library, which returns its code and the value it writes. *)
Definition my_decimal_op (f : value → value → Z * value) (mask res a b : Z) : M mem Z :=
  x <- read a ;; y <- read b ;; let '(result, v) := f x y in write res v ;; check_result_and_overflow mask result res.

(** [decimal2my_decimal]: [memcpy] reads as many digits as the target holds. *)
Definition decimal2my_decimal (from to : Z) : M mem unit :=
  f <- get from ;; t <- get to ;;
  assert_that (negb dbug || (len f <=? len t)) ;;
  put to (Dec (intg f) (frac f) (len t) (sign f) (buf t) (buffer t)) ;;
  s <- get (buf f) ;; d <- get (buf t) ;;
  assert_that (bool_decide (0 ≤ len t ≤ Z.of_nat (length (buffer s)) ∧ len t ≤ Z.of_nat (length (buffer d)))) ;;
  put (buf t) (Dec (intg d) (frac d) (len d) (sign d) (buf d) (take (Z.to_nat (len t)) (buffer s) ++ drop (Z.to_nat (len t)) (buffer d))).
End Library.

(** ** Specification

    Every object points to its own buffer of nine digits. *)
Definition own (p : Z) (d : my_decimal) : Prop := buf d = p ∧ len d = DECIMAL_BUFF_LENGTH ∧ length (buffer d) = 9%nat.
Definition owned (m : mem) : Prop := map_Forall own (objects m).
Definition value_of (m : mem) (p : Z) : option value := (λ d, Val (intg d) (frac d) (sign d) (buffer d)) <$> objects m !! p.

(** * Theorems *)

Module DecimalFacts.
Lemma value_of_Some m p v : value_of m p = Some v → ∃ d, objects m !! p = Some d ∧ v = Val (intg d) (frac d) (sign d) (buffer d).
Proof. unfold value_of. destruct (objects m !! p) as [d|]; [|done]. intros [= <-]. by exists d. Qed.
Lemma dec_get_ok p d m : objects m !! p = Some d → get p m = Some (d, m).
Proof. apply (gets_opt_ok (λ m, objects m !! p)). Qed.
Lemma owned_at m p d : owned m → objects m !! p = Some d → own p d.
Proof. intros O. apply O. Qed.
Lemma read_ok m p v : owned m → value_of m p = Some v → read p m = Some (v, m).
Proof.
  intros O Hv. destruct (value_of_Some m p v Hv) as (d & Hd & ->). destruct (owned_at m p d O Hd) as (Eb & _).
  unfold read. rewrite (bind_ok _ _ _ _ _ (dec_get_ok _ _ _ Hd)), Eb, (bind_ok _ _ _ _ _ (dec_get_ok _ _ _ Hd)). done.
Qed.
(** The memory with a value stored at an address. *)
Definition store (p : Z) (v : value) (m : mem) : mem :=
  Mem (<[p := Dec (v_intg v) (v_frac v) DECIMAL_BUFF_LENGTH (v_sign v) p (v_digits v)]> (objects m)) (warnings m).
Lemma store_owned p v m : owned m → length (v_digits v) = 9%nat → owned (store p v m).
Proof. intros O Hv. apply map_Forall_insert_2; [by split|done]. Qed.
Lemma store_value p v m q : value_of (store p v m) q = if decide (q = p) then Some v else value_of m q.
Proof.
  unfold value_of, store. simpl. destruct (decide (q = p)) as [->|Hne].
  - rewrite lookup_insert_eq. by destruct v.
  - by rewrite lookup_insert_ne.
Qed.
Lemma write_ok m p v w : owned m → value_of m p = Some w → write p v m = Some (tt, store p v m).
Proof.
  intros O Hw. destruct (value_of_Some m p w Hw) as (d & Hd & ->). destruct (owned_at m p d O Hd) as (Eb & El & _).
  unfold write. rewrite (bind_ok _ _ _ _ _ (dec_get_ok _ _ _ Hd)), Eb. unfold put. unfold bind at 1, modify. cbn [objects warnings].
  rewrite (bind_ok _ _ _ _ _ (dec_get_ok p _ (Mem _ _) (lookup_insert_eq _ _ _))). cbn [objects warnings intg frac len sign buf buffer].
  unfold modify, store. rewrite insert_insert_eq. by rewrite El.
Qed.
Lemma fix_ok m p d : objects m !! p = Some d →
  fix_buffer_pointer p m = Some (tt, Mem (<[p := Dec (intg d) (frac d) (len d) (sign d) p (buffer d)]> (objects m)) (warnings m)).
Proof. intros Hd. unfold fix_buffer_pointer. by rewrite (bind_ok _ _ _ _ _ (dec_get_ok _ _ _ Hd)). Qed.
Lemma fix_same m p v : owned m → value_of m p = Some v → fix_buffer_pointer p m = Some (tt, m).
Proof.
  intros O Hv. destruct (value_of_Some m p v Hv) as (d & Hd & _). destruct (owned_at m p d O Hd) as (Eb & _).
  rewrite (fix_ok m p d Hd). rewrite <- Eb at 2. destruct m as [o w]. do 3 f_equal. simpl in *. apply insert_id. rewrite Hd. by destruct d.
Qed.
Lemma dec_assign_ok m p q v : owned m → is_Some (objects m !! p) → value_of m q = Some v → p ≠ q → assign p q m = Some (tt, store p v m).
Proof.
  intros O [d Hd] Hv Hne. destruct (value_of_Some m q v Hv) as (r & Hr & ->). destruct (owned_at m q r O Hr) as (_ & El & _).
  unfold assign. rewrite (proj2 (Z.eqb_neq p q) Hne), (bind_ok _ _ _ _ _ (dec_get_ok _ _ _ Hr)), (bind_ok _ _ _ _ _ (dec_get_ok _ _ _ Hd)).
  unfold put at 1. unfold bind at 1, modify at 1. rewrite (fix_ok _ p _ (lookup_insert_eq _ _ _)). simpl. unfold store. rewrite insert_insert_eq. by rewrite El.
Qed.
End DecimalFacts.

(** C32: who owns the digits.  Copying, assigning and exchanging decimals gives each
    object the value of the other, and every object still points to its own
    buffer; no other object changes, and an assignment to itself does nothing. *)
Theorem decimal_copies m p q v w : owned m → value_of m p = Some v → value_of m q = Some w →
  (∀ x g, objects m !! x = None → ∃ m', copy_construct x p g m = Some (tt, m') ∧ owned m' ∧
     ∀ y, value_of m' y = if decide (y = x) then Some v else value_of m y) ∧
  (∃ m', assign p q m = Some (tt, m') ∧ owned m' ∧ ∀ y, value_of m' y = if decide (y = p) then Some w else value_of m y) ∧
  (∀ x g, objects m !! x = None → p ≠ q → length (buffer g) = 9%nat → ∃ m', swap p q x g m = Some (tt, m') ∧ owned m' ∧
     ∀ y, value_of m' y = if decide (y = p) then Some w else if decide (y = q) then Some v else value_of m y).
Proof.
  intros O Hv Hw. destruct (DecimalFacts.value_of_Some m p v Hv) as (d & Hd & Ev). destruct (DecimalFacts.value_of_Some m q w Hw) as (e & He & Ew).
  destruct (DecimalFacts.owned_at m p d O Hd) as (_ & _ & Ld). destruct (DecimalFacts.owned_at m q e O He) as (_ & _ & Le).
  assert (length (v_digits v) = 9%nat) as Lv by (by subst). assert (length (v_digits w) = 9%nat) as Lw by (by subst). split_and!.
  - intros x g Hx. exists (DecimalFacts.store x v m). split; [|split; [by apply DecimalFacts.store_owned|apply DecimalFacts.store_value]].
    unfold copy_construct. rewrite (bind_ok _ _ _ _ _ (DecimalFacts.dec_get_ok _ _ _ Hd)). by subst v.
  - destruct (decide (p = q)) as [<-|Hne].
    + exists m. unfold assign. rewrite Z.eqb_refl. split; [done|]. split; [done|]. intros y. case_decide; [|done]. by subst.
    + exists (DecimalFacts.store p w m). rewrite (DecimalFacts.dec_assign_ok m p q w) by (done || by eexists).
      split; [done|]. split; [by apply DecimalFacts.store_owned|apply DecimalFacts.store_value].
  - intros x g Hx Hne Lg. assert (p ≠ x ∧ q ≠ x) as [Hpx Hqx] by (split; intros ->; congruence).
    set (m0 := DecimalFacts.store x (Val (intg g) (frac g) (sign g) (buffer g)) m).
    assert (owned m0) as O0 by (by apply DecimalFacts.store_owned).
    assert (value_of m0 p = Some v) as V0 by (unfold m0; rewrite DecimalFacts.store_value; by rewrite decide_False).
    set (m1 := DecimalFacts.store x v m0). assert (owned m1) as O1 by (by apply DecimalFacts.store_owned).
    assert (value_of m1 q = Some w) as V1 by (unfold m1, m0; rewrite !DecimalFacts.store_value; by rewrite !decide_False).
    set (m2 := DecimalFacts.store p w m1). assert (owned m2) as O2 by (by apply DecimalFacts.store_owned).
    assert (value_of m2 x = Some v) as V2 by (unfold m2, m1; rewrite !DecimalFacts.store_value; rewrite decide_False by done; by rewrite decide_True).
    set (m3 := DecimalFacts.store q v m2). assert (owned m3) as O3 by (by apply DecimalFacts.store_owned).
    exists (Mem (delete x (objects m3)) (warnings m3)). split; [|split].
    + unfold swap. rewrite (bind_ok _ _ m tt m0 (eq_refl : put x (init x g) m = Some (tt, m0))).
      rewrite (bind_ok _ _ _ _ _ (DecimalFacts.dec_assign_ok m0 x p v O0 ltac:(eexists; apply lookup_insert_eq) V0 (not_eq_sym Hpx))). fold m1.
      rewrite (bind_ok _ _ _ _ _ (DecimalFacts.dec_assign_ok m1 p q w O1 ltac:(unfold m1, m0; simpl; rewrite !lookup_insert_ne by done; by eexists) V1 Hne)). fold m2.
      rewrite (bind_ok _ _ _ _ _ (DecimalFacts.dec_assign_ok m2 q x v O2 ltac:(unfold m2, m1, m0; simpl; rewrite !lookup_insert_ne by done; by eexists) V2 Hqx)). done.
    + by apply map_Forall_delete.
    + intros y. transitivity (if decide (y = x) then None else value_of m3 y).
      { unfold value_of. simpl. case_decide as E; [by rewrite E, lookup_delete_eq|by rewrite lookup_delete_ne]. }
      unfold m3, m2, m1, m0. rewrite !DecimalFacts.store_value. destruct (decide (y = x)) as [->|]; [|by repeat case_decide; congruence].
      rewrite !decide_False by done. unfold value_of. by rewrite Hx.
Qed.
Lemma decimal_copies_witness :
  let m := Mem (<[1 := Dec 1 0 9 false 1 (7 :: replicate 8 0)]> {[2 := Dec 2 1 9 true 2 (8 :: replicate 8 5)]}) [] in
  ∃ m', swap 1 2 3 (Dec 0 0 0 false 0 (replicate 9 1)) m = Some (tt, m') ∧ value_of m' 1 = Some (Val 2 1 true (8 :: replicate 8 5)).
Proof.
  destruct (decimal_copies (Mem (<[1 := Dec 1 0 9 false 1 (7 :: replicate 8 0)]> {[2 := Dec 2 1 9 true 2 (8 :: replicate 8 5)]}) []) 1 2
    (Val 1 0 false (7 :: replicate 8 0)) (Val 2 1 true (8 :: replicate 8 5))) as (_ & _ & H).
  - apply map_Forall_insert_2; [by split|]. apply map_Forall_singleton. by split.
  - done.
  - done.
  - destruct (H 3 (Dec 0 0 0 false 0 (replicate 9 1))) as (m' & E & _ & Hv); [done|lia|done|]. exists m'. split; [exact E|]. apply (Hv 1).
Defined.

(** C33: a result of the arithmetic.  The code of the library is returned and reported
    when it is in the mask; after an overflow the target has the largest integer
    of the type with the sign of the result, otherwise the result; it still owns
    its buffer, also when it is one of the operands. *)
Theorem decimal_results dbug maxd f mask m res a b x y r v w : owned m → value_of m a = Some x → value_of m b = Some y → value_of m res = Some w →
  f x y = (r, v) → length (v_digits v) = 9%nat → (∀ p g u, length (v_digits (maxd p g u)) = length (v_digits u)) →
  ∃ m', my_decimal_op dbug maxd f mask res a b m = Some (r, m') ∧ owned m' ∧
    warnings m' = (if truth (Z.land r mask) then [r] else []) ++ warnings m ∧
    ∀ p, value_of m' p = if decide (p = res) then Some (if truth (Z.land r E_DEC_OVERFLOW)
      then set_sign (v_sign v) (maxd DECIMAL_MAX_PRECISION 0 v) else v) else value_of m p.
Proof.
  intros O Hx Hy Hw Hf Lv Hmax. unfold my_decimal_op.
  rewrite (bind_ok _ _ _ _ _ (DecimalFacts.read_ok m a x O Hx)), (bind_ok _ _ _ _ _ (DecimalFacts.read_ok m b y O Hy)), Hf.
  rewrite (bind_ok _ _ _ _ _ (DecimalFacts.write_ok m res v w O Hw)).
  set (m1 := DecimalFacts.store res v m). assert (owned m1) as O1 by (by apply DecimalFacts.store_owned).
  assert (value_of m1 res = Some v) as V1 by (unfold m1; rewrite DecimalFacts.store_value; by rewrite decide_True).
  unfold check_result_and_overflow, check_result.
  set (m2 := Mem (objects m1) ((if truth (Z.land r mask) then [r] else []) ++ warnings m1)).
  assert (((if truth (Z.land r mask) then modify (λ m, Mem (objects m) (r :: warnings m)) else ret tt) ;; ret r) m1 = Some (r, m2)) as E2
    by (unfold m2; destruct (truth (Z.land r mask)); [done|by destruct m1]).
  rewrite (bind_ok _ _ _ _ _ E2). assert (owned m2) as O2 by done. assert (value_of m2 res = Some v) as V2 by exact V1.
  destruct (truth (Z.land r E_DEC_OVERFLOW)).
  - set (big := maxd DECIMAL_MAX_PRECISION 0 v). assert (length (v_digits big) = 9%nat) as Lb by (unfold big; by rewrite Hmax).
    rewrite bind_assoc. rewrite (bind_ok _ _ _ _ _ (DecimalFacts.read_ok m2 res v O2 V2)). rewrite bind_assoc.
    rewrite (bind_ok _ _ _ _ _ (DecimalFacts.fix_same m2 res v O2 V2)).
    assert (max_internal_decimal dbug maxd res m2 = Some (tt, DecimalFacts.store res big m2)) as E3.
    { unfold max_internal_decimal, max_my_decimal. rewrite orb_true_r. unfold assert_that. rewrite (bind_ok _ _ _ _ _ (eq_refl : ret tt m2 = Some (tt, m2))).
      rewrite (bind_ok _ _ _ _ _ (DecimalFacts.read_ok m2 res v O2 V2)). exact (DecimalFacts.write_ok m2 res big v O2 V2). }
    rewrite bind_assoc, (bind_ok _ _ _ _ _ E3). set (m3 := DecimalFacts.store res big m2). assert (owned m3) as O3 by (by apply DecimalFacts.store_owned).
    assert (value_of m3 res = Some big) as V3 by (unfold m3; rewrite DecimalFacts.store_value; by rewrite decide_True).
    rewrite bind_assoc, (bind_ok _ _ _ _ _ (DecimalFacts.read_ok m3 res big O3 V3)), (bind_ok _ _ _ _ _ (DecimalFacts.write_ok m3 res _ big O3 V3)).
    eexists. split; [done|]. split; [by apply DecimalFacts.store_owned|]. split; [done|]. intros p. rewrite DecimalFacts.store_value.
    unfold m3. rewrite DecimalFacts.store_value. case_decide; [done|]. change (value_of m1 p = value_of m p). unfold m1. rewrite DecimalFacts.store_value. by rewrite decide_False.
  - exists m2. split; [done|]. split; [done|]. split; [done|]. intros p. change (value_of m2 p) with (value_of m1 p). apply DecimalFacts.store_value.
Qed.
Lemma decimal_results_witness :
  let m := Mem {[1 := Dec 1 0 9 false 1 (replicate 9 0)]} [] in
  ∃ m', my_decimal_op true (λ p g u, Val p g false (replicate (length (v_digits u)) 999999999)) (λ x y, (E_DEC_OVERFLOW, neg x)) E_DEC_FATAL_ERROR 1 1 1 m = Some (E_DEC_OVERFLOW, m') ∧ warnings m' = [2].
Proof.
  destruct (decimal_results true (λ p g u, Val p g false (replicate (length (v_digits u)) 999999999)) (λ x y, (E_DEC_OVERFLOW, neg x)) E_DEC_FATAL_ERROR
    (Mem {[1 := Dec 1 0 9 false 1 (replicate 9 0)]} []) 1 1 1 (Val 1 0 false (replicate 9 0)) (Val 1 0 false (replicate 9 0)) E_DEC_OVERFLOW
    (neg (Val 1 0 false (replicate 9 0))) (Val 1 0 false (replicate 9 0))) as (m' & E & _ & Hm & _).
  - apply map_Forall_singleton. by split.
  - done.
  - done.
  - done.
  - done.
  - done.
  - intros p g u. apply length_replicate.
  - exists m'. split; [exact E|exact Hm].
Defined.

(** the length of a decimal column and its precision give each other back, for
    every scale and both signs, as long as the length fits; the precision is cut
    to the largest one. *)
Theorem decimal_length_roundtrip dbug precision scale unsigned_flag : 0 ≤ precision < 2 ^ 16 - 2 → 0 ≤ scale → (precision = 0 → scale = 0) →
  ∃ n, my_decimal_precision_to_length_no_truncation dbug precision scale unsigned_flag = Some n ∧
    my_decimal_length_to_precision dbug n scale unsigned_flag = Some precision ∧
    (precision = 0 ↔ n = 0) ∧
    my_decimal_precision_to_length dbug precision scale unsigned_flag =
      my_decimal_precision_to_length_no_truncation dbug (Z.min precision DECIMAL_MAX_PRECISION) scale unsigned_flag.
Proof.
  intros Hp Hs H0. destruct (Z.eqb_spec precision 0) as [E|Hne].
  { specialize (H0 E). subst. exists 0. by destruct dbug, unsigned_flag. }
  assert (∀ p, p ≠ 0 → negb (truth p || negb (truth scale)) = false) as Hd.
  { intros p H. unfold truth. by rewrite (proj2 (Z.eqb_neq p 0)). }
  set (n := precision + (if 0 <? scale then 1 else 0) + (if unsigned_flag then 0 else 1)).
  assert (precision ≤ n ≤ precision + 2) as Hn by (unfold n; destruct (0 <? scale), unsigned_flag; lia).
  exists n. unfold my_decimal_precision_to_length, my_decimal_precision_to_length_no_truncation, my_decimal_length_to_precision.
  rewrite !Hd, !andb_false_r by lia. split; [|split; [|split]].
  - unfold truth. rewrite (proj2 (Z.eqb_neq precision 0)) by done. cbn [negb]. rewrite orb_false_r. fold n. f_equal. apply wrap_id. unfold in_u. lia.
  - unfold truth. rewrite (proj2 (Z.eqb_neq n 0)) by lia. cbn [negb]. rewrite orb_false_r. f_equal.
    replace (n - _ - _) with precision by (unfold n; lia). apply wrap_id. unfold in_u. lia.
  - lia.
  - replace (if DECIMAL_MAX_PRECISION <? precision then DECIMAL_MAX_PRECISION else precision) with (Z.min precision DECIMAL_MAX_PRECISION); [done|].
    destruct (Z.ltb_spec DECIMAL_MAX_PRECISION precision); lia.
Qed.
Lemma decimal_length_roundtrip_witness : my_decimal_precision_to_length_no_truncation true 10 2 false = Some 12 ∧ my_decimal_length_to_precision true 12 2 false = Some 10.
Proof.
  destruct (decimal_length_roundtrip true 10 2 false) as (n & E1 & E2 & _); [lia|lia|done|].
  assert (n = 12) as -> by (vm_compute in E1; by injection E1 as <-). by split.
Defined.

(** [decimal2my_decimal] asserts that the target has room for the source, but copies
    as many digits as the target holds: a source with a shorter buffer is read
    past its end.  With buffers of the same length it gives the value. *)
Theorem decimal_copy_overread dbug m p q d e : objects m !! p = Some d → objects m !! q = Some e → p ≠ q → own q e → buf d = p → 0 ≤ len d →
  length (buffer d) = Z.to_nat (len d) →
  (len d < len e → decimal2my_decimal dbug p q m = None) ∧
  (len d = len e → ∃ m', decimal2my_decimal dbug p q m = Some (tt, m') ∧ value_of m' q = value_of m p).
Proof.
  intros Hd He Hne (Eb & El & Lb) Ebd Hl0 Hl. assert (decimal2my_decimal dbug p q m = if negb dbug || (len d <=? len e) then
    if bool_decide (0 ≤ len e ≤ Z.of_nat (length (buffer d)) ∧ len e ≤ Z.of_nat (length (buffer e))) then
      Some (tt, Mem (<[q := Dec (intg d) (frac d) (len e) (sign d) q (take (Z.to_nat (len e)) (buffer d) ++ drop (Z.to_nat (len e)) (buffer e))]> (objects m)) (warnings m))
    else None else None) as ->.
  { unfold decimal2my_decimal. rewrite (bind_ok _ _ _ _ _ (DecimalFacts.dec_get_ok _ _ _ Hd)), (bind_ok _ _ _ _ _ (DecimalFacts.dec_get_ok _ _ _ He)).
    destruct (negb dbug || _); [|done]. unfold assert_that at 1. rewrite (bind_ok _ _ _ _ _ (eq_refl : ret tt m = Some (tt, m))).
    unfold put at 1. unfold bind at 1, modify at 1. rewrite Eb, Ebd.
    rewrite (bind_ok _ _ _ _ _ (DecimalFacts.dec_get_ok p d (Mem _ _) (eq_trans (lookup_insert_ne _ _ _ _ (not_eq_sym Hne)) Hd))).
    rewrite (bind_ok _ _ _ _ _ (DecimalFacts.dec_get_ok q _ (Mem _ _) (lookup_insert_eq _ _ _))). cbn [buffer intg frac len sign buf objects warnings].
    destruct (bool_decide _); [|done]. unfold assert_that, put, modify. cbn. by rewrite insert_insert_eq. }
  split; intros H.
  - rewrite bool_decide_eq_false_2 by lia. by destruct (negb dbug || _).
  - rewrite (proj2 (Z.leb_le _ _)), orb_true_r, bool_decide_eq_true_2 by (rewrite ?Lb, ?El in *; unfold DECIMAL_BUFF_LENGTH in *; lia).
    eexists. split; [done|]. unfold value_of. simpl. rewrite lookup_insert_eq, Hd. simpl. do 2 f_equal.
    rewrite (take_ge (buffer d)), (drop_ge (buffer e)), app_nil_r; [done|rewrite Lb, El; unfold DECIMAL_BUFF_LENGTH; lia|lia].
Qed.
